(* ===== verification/_CoqProject ===== *)
-Q . S2P
Prelude.v
ListHead.v
ListOps.v
Mailbox.v
Semaphore.v
Tasks.v
Fat12.v
FatPrint.v
FatExtract.v
Tok.v
Lex.v
Wrappers.v
Ctype.v
Vsprintf.v
Parser.v
Bitops.v
Pidmap.v
Pid.v
ReadWrite.v
Forcewrite.v
Fatent.v
FatentLaws.v
FatAlloc.v
FatDate.v
FatCache.v
FatFile.v
FatDir.v
FatSlots.v
Nls.v
FatLong.v
Msdos.v
Vfat.v
FatMount.v
FatInode.v
MsdosOps.v
VfatOps.v
FatReaddir.v
FatOptions.v
FatShow.v
NlsTable.v
FatSuper.v
MsdosDir.v
FatAttr.v
FatAgree.v
