(* ===== verification/Prelude.v ===== *)
(** * The course programs and their kernel

    The repository holds the programs of an operating systems course and the
    Linux 2.6.22.19 tree they were written for or added to.  This development
    models the programs, the additions to the kernel and the kernel code these
    stand on, for the configuration of the tree: x86-64, one processor, no kernel
    preemption, checked lists, no security module.

    ** The program and the files

    Paths under [linux-2.6.22.19-cs543/] are given from there.

    - [Prelude]: integers at their width, outcomes of C code, bytes, and the
      lemmas, tactics and hints all files share.
    - [ListHead], [ListOps]: [struct list_head] with the checks of
      [lib/list_debug.c], and the operations on whole lists.
      [Mailbox]: the message calls of [ipc/mailbox.c] on these lists, one step per
      critical section.  [Semaphore]: [down], [up] and [down_trylock] with the slow
      paths of [lib/semaphore-sleepers.c] and their counter of 32 bits, as steps of a
      system of fewer than [2 ^ 31] threads.
    - [Tasks]: the calls added to [kernel/sched.c] and the joining code of
      [kernel/exit.c] and [kernel/fork.c], over any process table (the class
      [TaskTable]).  [Wrappers]: the programs of [wrappers/] on top of them.
      [Bitops], [Pidmap], [Pid]: the bit searches, the process number map and the
      hash table of [kernel/pid.c], which provide the process table.
    - [ReadWrite]: [fs/read_write.c] with the added [forcewrite] call; drivers and
      user memory are parameters.  [Forcewrite]: the program that calls it.
    - [Ctype], [Vsprintf], [Parser]: text in the kernel, which the file systems use:
      character classes, formatted output and numbers ([lib/vsprintf.c]), and
      options ([lib/parser.c]) with an allocator that may fail at every call.
    - [Fat12], [FatPrint], [FatExtract]: the reader of FAT12 images of
      [FAT12/src/fat12.c] and the programs [msdosdir] and [msdosextr].
    - [Tok], [Lex]: the lexer of the assembler in [CS720/parser/] and its program.
      The string and map packages it links are classes with laws.
    - The FAT driver of the kernel, which reads the same images.  [Fatent]: the
      table through the buffer cache, with an operation table per format
      ([fs/fat/fatent.c]).  [FatentLaws]: what a format promises, as the class
      [FatentLaws], with instances for twelve, sixteen and thirty-two bits.
      [FatAlloc]: reading, writing, allocating and freeing proved from the class
      alone.  [FatDate]: the dates of [fs/fat/misc.c].  [FatCache]: the cluster
      cache of [fs/fat/cache.c].  [FatFile]: appending, mapping and truncating
      ([fs/fat/inode.c], [fs/fat/file.c]).  [FatDir]: directories ([fs/fat/dir.c]),
      proved from the class [DirMap], which both the root and a chain of clusters
      provide; [FatSlots]: entries that take several slots; [FatReaddir]: listing a
      directory, and the ioctls that do.  [FatMount]: mounting
      ([fs/fat/inode.c], [fs/block_dev.c]).  [FatOptions]: mount options, parsed and
      shown; [FatShow]: how far one undoes the other.  [FatSuper]: mounting and
      unmounting with the memory and the tables they hold.  [FatInode]: the inodes in memory, their
      hash table, reading and writing them, and file handles ([fs/fat/inode.c]).
      [FatAttr]: attribute changes and the attribute ioctl ([fs/fat/file.c],
      [fs/attr.c]).  [FatAgree]: the course's reader and the driver on one image.
    - Names on top of it.  [Msdos] and [MsdosOps]: the names and the calls of
      [fs/msdos/namei.c]; [MsdosDir]: their abstract specification, a finite map
      from names to files, and the refinement.  [Nls]: character sets
      ([fs/nls/nls_base.c]); [NlsTable]: the list of them, with the modules they
      keep in use.  [FatLong]: long names in slots and the search for
      one ([fs/fat/dir.c]).  [Vfat] and [VfatOps]: the names and the calls of
      [fs/vfat/namei.c].

    ** How the code is rendered

    A function of the source is a definition of the same name; a loop that needs
    one is a [Fixpoint] named after the loop, and the map of definitions names the
    lines.  State is passed explicitly: a record per structure, a finite map for
    memory that is reached through addresses.  Results are of type [outcome]
    (below): a return, a step outside the memory the code owns, an assertion that
    fires, or a loop that was not given enough fuel.  Concurrency is a step
    relation whose steps are the atomic regions of the source.  Failures of
    allocations, devices and user memory are arguments, so that the theorems
    quantify over them or name the case they are about.

    Fuel: a theorem that a function returns either passes the fuel the definition
    itself computes or asks for a bound.  Chains of clusters are walked with the
    limit the driver has ([limit] in [FatCache]) or the number of clusters;
    directories with the number of their entries ([dir_fuel]); the process number
    map with its pages; lists of the kernel with the length of the ring; the lexer
    with the length of its input, and so are options and formats; the list of
    character sets with the number of tables in memory; the numeric loops with the
    width of the integer.
    Theorems that state divergence hold for every fuel.

    ** What the theorems show

    - Reading images: the reader loads what the bytes of an image mean
      ([read_fat12_correct]), [msdosdir] prints it ([msdosdir_lists]) and
      [msdosextr] writes the files ([msdosextr_extracts]), up to the defects stated
      beside them; the table must be a multiple of three bytes long
      ([read_fat_table_size] for the others).
    - The table: in every format writing an entry changes that entry alone
      ([fat_ent_write_frame]), allocation takes the first free clusters
      ([fat_alloc_clusters_correct]), freeing frees the chain
      ([fat_free_clusters_correct]).  Freeing a chain and what follows here about
      files is for the two word formats: in the twelve-bit one an entry can be misread
      through the buffers of the one before it ([fat12_stale_buffers]).
    - Files: the cache never changes what is found ([fat_get_cluster_correct]);
      appending and truncating keep inode, cache and chain in agreement
      ([fat_get_block_grows], [fat_add_cluster_appends], [fat_truncate_keeps]).
    - Directories: an entry and its slots can be added, found and removed, over any
      number of blocks ([fat_slots_roundtrip], [fat_dir_roundtrip],
      [fat_scan_first]), and a listing hands out each once ([fat_readdir_lists]).
    - MS-DOS names: every sequence of lookups, creations, removals and renames in a
      root directory does what it does on a map from names to files
      ([msdos_dir_refines]), under every spelling of a name ([msdos_add_find],
      [format_name_roundtrip], [msdos_names_hash]).
    - Long names: the slots of a name are parsed back to it
      ([long_name_roundtrip]), the search finds the first entry with the name and
      exactly its slots ([fat_search_long_correct]), short names are free
      ([vfat_shortname_fresh]), a name that was added is found where it was put
      ([vfat_add_find]), and UTF-8 decodes to what was coded ([utf8_roundtrip]).
    - Inodes: one per directory entry in every state that lookups, removals and the
      calls of renames on the hash table reach ([inode_cache_unique]), read back as written ([inode_write_read]) at the place
      of the entry whatever happens meanwhile ([fat_write_inode_current]), and with
      owner and mode within the mount's ([fat_perms_bounded],
      [fat_attr_roundtrip]).
    - Mounting: what mounts is well formed and satisfies the class the table
      theorems ask for ([mount_well_formed]), and then the driver and the course's
      reader agree on every entry ([readers_agree]).  A mount that fails or ends
      gives back the memory and the modules it took ([mount_releases]), which is
      proved from the parser of the options ([parse_options_safe]) and the list of
      character sets ([nls_list_correct]).
    - Text: formatted output is the text of the format, cut where the buffer ends
      ([vsnprintf_correct]); numbers and options that are written are read back
      ([number_roundtrip], [options_roundtrip]).
    - Lists: entries are moved, replaced and joined in order ([list_move_spec],
      [list_replace_spec], [list_splice_init_spec]).
    - Mailbox, semaphores, joining: refinement of a table of slots
      ([mailbox_refines_slots]) and of a counting semaphore
      ([semaphore_refines_counting]) in every interleaving, no lost wake-up
      ([semaphore_no_lost_wakeup]), and the joining protocol up to the release of
      the task that is joined ([myjoin_protocol]).
    - Process numbers: the allocator returns a free number or says rightly that
      there is none ([alloc_pidmap_correct]), and the hash table finds exactly what
      is there ([alloc_pid_find], [find_ge_pid_least]).
    - The lexer: text of a token sequence of the documented grammar gives the
      sequence back ([lexer_roundtrip]), except for the words in which they differ
      ([register_names]), and it ends on every file that ends in a newline
      ([lexer_terminates]).
    - Defects: an overwritten message ([mysend_discards_pending]), a use after free
      ([mysend_use_after_free], [myjoin_use_after_free]), a lock that stays held
      ([myjoin_exiting_keeps_lock]), entries read through the wrong buffer
      ([fat12_stale_buffers]), a stale cache entry ([fat_cache_add_stale]), a mount
      without a table ([mount_no_table]), names taken for one another
      ([msdos_dots_confused], [long_name_truncated]), writes past buffers on the
      stack ([search_utf8_overruns], [uni16_to_x8_overruns], [shortname_overruns],
      [readdir_overruns]), a string freed twice ([charset_freed_twice]), options
      that are shown but refused ([codepage_refused]), an empty list joined to
      another ([splice_rcu_links_head])
      and others next to the code they are about.

    ** Not modelled

    - The rest of the kernel: the scheduler, memory management, drivers,
      architectures and other file systems, which the modelled code does not call
      or calls through the parameters above.
    - Of the FAT driver the page operations, which hand [fat_get_block] to the page
      cache, the slab caches and the 32-bit forms of the ioctls; of the names the
      dentry cache; of [lib/vsprintf.c] the scanning of text.
    - Reference counts of buffers, the mutex of the table and the big kernel lock,
      which have no effect on the values; messages of the kernel.
    - Loading of modules, and [open] and [close] below the wrapper programs, which
      are parameters.
    - Makefiles, sample images and extracted files, which have no logic. *)

From Stdlib Require Export ZArith Lia.
From stdpp Require Export base tactics numbers functions gmap list.
From stdpp Require strings.

#[global] Open Scope Z_scope.

(** ** Fixed-width integers

    An unsigned [w]-bit C integer is a [Z] in [0, 2^w); a signed one a [Z] in
    [-2^(w-1), 2^(w-1)).  Conversions are written out where the source
    converts. *)

Definition wrapu (w x : Z) : Z := x mod 2 ^ w.

Definition wraps (w x : Z) : Z := (x + 2 ^ (w - 1)) mod 2 ^ w - 2 ^ (w - 1).

Abbreviation u8 := (wrapu 8).
Abbreviation u16 := (wrapu 16).
Abbreviation u32 := (wrapu 32).
Abbreviation u64 := (wrapu 64).
Abbreviation s8 := (wraps 8).
Abbreviation s32 := (wraps 32).
Abbreviation s64 := (wraps 64).

(** Truth value of a C condition stored in an integer. *)
Definition b2z (b : bool) : Z := if b then 1 else 0.

Definition z2b (x : Z) : bool := negb (x =? 0).

(** ** Outcomes

    [Ret] is a normal return.  [Undef] is a step outside the memory the code
    owns (an index out of range, a NULL or indeterminate pointer), which C
    leaves undefined.  [Bug] is a kernel assertion that fired ([BUG()]: the
    calling task is killed inside the kernel).  [NoFuel] says that a loop was not given enough
    iterations; the termination theorems exclude it. *)

Inductive outcome (A : Type) : Type :=
| Ret (a : A)
| Undef
| Bug
| NoFuel.
Arguments Ret {A} a.
Arguments Undef {A}.
Arguments Bug {A}.
Arguments NoFuel {A}.

#[export] Instance outcome_ret : MRet outcome := λ A a, Ret a.
#[export] Instance outcome_bind : MBind outcome := λ A B f m,
  match m with Ret a => f a | Undef => Undef | Bug => Bug | NoFuel => NoFuel end.

(** Index into an array: out of range is undefined behaviour. *)
Definition aget {A} (l : list A) (i : Z) : outcome A :=
  if decide (0 ≤ i) then
    match l !! Z.to_nat i with Some x => Ret x | None => Undef end
  else Undef.

(** Store into an array: out of range is undefined behaviour. *)
Definition aset {A} (l : list A) (i : Z) (x : A) : outcome (list A) :=
  if decide (0 ≤ i < Z.of_nat (length l)) then Ret (<[Z.to_nat i:=x]> l) else Undef.

(** ** Little-endian integers in memory *)

Fixpoint le_bytes (n : nat) (x : Z) : list Z :=
  match n with
  | O => []
  | S n' => x mod 256 :: le_bytes n' (x / 256)
  end.

Fixpoint le_val (bs : list Z) : Z :=
  match bs with
  | [] => 0
  | b :: bs' => b + 256 * le_val bs'
  end.

(** The bytes of a string literal. *)
Definition bytes_of (s : String.string) : list Z :=
  (λ a, Z.of_N (Ascii.N_of_ascii a)) <$> String.list_ascii_of_string s.

Definition is_byte (b : Z) : Prop := 0 ≤ b < 256.

(** ** Tactics *)

Create HintDb cint.
Create Rewrite HintDb cint.

(** Decide every boolean comparison on [Z] that the goal or a hypothesis
    branches on. *)
Ltac zcase :=
  repeat match goal with
  | |- context [?a =? ?b] => destruct (Z.eqb_spec a b)
  | |- context [?a <? ?b] => destruct (Z.ltb_spec a b)
  | |- context [?a <=? ?b] => destruct (Z.leb_spec a b)
  end.

Ltac zcase_in H :=
  repeat match type of H with
  | context [?a =? ?b] => destruct (Z.eqb_spec a b)
  | context [?a <? ?b] => destruct (Z.ltb_spec a b)
  | context [?a <=? ?b] => destruct (Z.leb_spec a b)
  end.

(** Unfold the width conversions and let [lia] see the division. *)
Ltac cint := unfold wrapu, wraps in *; Z.div_mod_to_equations; lia.

(** ** Lemmas on fixed-width integers *)

Lemma wrapu_small w x : 0 ≤ x < 2 ^ w → wrapu w x = x.
Proof. intros. by apply Z.mod_small. Qed.

Lemma wrapu_range w x : 0 ≤ w → 0 ≤ wrapu w x < 2 ^ w.
Proof. intros. apply Z.mod_pos_bound, Z.pow_pos_nonneg; lia. Qed.

Lemma wrapu_add_l w x y : wrapu w (wrapu w x + y) = wrapu w (x + y).
Proof. unfold wrapu. by rewrite Zplus_mod_idemp_l. Qed.

Lemma wrapu_idemp w x : wrapu w (wrapu w x) = wrapu w x.
Proof. unfold wrapu. apply Zmod_mod. Qed.

Lemma wraps_small w x : 0 < w → - 2 ^ (w - 1) ≤ x < 2 ^ (w - 1) → wraps w x = x.
Proof.
  intros Hw Hx. unfold wraps.
  assert (2 ^ w = 2 * 2 ^ (w - 1)) as E.
  { rewrite <- Z.pow_succ_r by lia. f_equal. lia. }
  rewrite Z.mod_small by lia. lia.
Qed.

Lemma wraps_range w x : 0 < w → - 2 ^ (w - 1) ≤ wraps w x < 2 ^ (w - 1).
Proof.
  intros Hw. unfold wraps.
  assert (2 ^ w = 2 * 2 ^ (w - 1)) as E.
  { rewrite <- Z.pow_succ_r by lia. f_equal. lia. }
  assert (0 < 2 ^ (w - 1)) by (apply Z.pow_pos_nonneg; lia).
  pose proof (Z.mod_pos_bound (x + 2 ^ (w - 1)) (2 ^ w)). lia.
Qed.

#[export] Hint Rewrite wrapu_idemp wrapu_add_l : cint.

(** Joining disjoint bit fields is addition. *)
Lemma lor_shiftl_add x n b : 0 ≤ n → 0 ≤ b < 2 ^ n → Z.lor (Z.shiftl x n) b = x * 2 ^ n + b.
Proof.
  intros Hn Hb. rewrite <- Z.shiftl_mul_pow2 by done.
  assert (Z.land (Z.shiftl x n) b = 0) as E.
  { apply Z.bits_inj'. intros i Hi. rewrite Z.land_spec, Z.bits_0.
    destruct (Z.ltb_spec i n).
    - by rewrite Z.shiftl_spec_low.
    - rewrite <- (Z.mod_small b (2 ^ n)), Z.mod_pow2_bits_high by lia. apply andb_false_r. }
  by rewrite <- Z.lxor_lor, Z.add_nocarry_lxor.
Qed.

Lemma land_ones_mod x n m : 0 ≤ n → m = Z.ones n → Z.land x m = x mod 2 ^ n.
Proof. intros ? ->. by apply Z.land_ones. Qed.

(** ** Lemmas on outcomes and arrays *)

Lemma aget_lookup {A} (l : list A) i x :
  0 ≤ i → l !! Z.to_nat i = Some x → aget l i = Ret x.
Proof. intros Hi Hl. unfold aget. rewrite decide_True by done. by rewrite Hl. Qed.

Lemma aget_in {A} (l : list A) i :
  0 ≤ i < Z.of_nat (length l) → ∃ x, aget l i = Ret x ∧ l !! Z.to_nat i = Some x.
Proof.
  intros Hi. destruct (lookup_lt_is_Some_2 l (Z.to_nat i)) as [x Hx]; [lia|].
  exists x. split; [|done]. by apply aget_lookup; [lia|].
Qed.

Lemma aget_out {A} (l : list A) i :
  i < 0 ∨ Z.of_nat (length l) ≤ i → aget l i = Undef.
Proof.
  intros Hi. unfold aget. case_decide; [|done].
  rewrite lookup_ge_None_2 by lia. done.
Qed.

Lemma aset_in {A} (l : list A) i x :
  0 ≤ i < Z.of_nat (length l) → aset l i x = Ret (<[Z.to_nat i:=x]> l).
Proof. intros. unfold aset. by rewrite decide_True. Qed.

(** ** Lemmas on byte lists *)

Lemma length_le_bytes n x : length (le_bytes n x) = n.
Proof. revert x. induction n; simpl; auto. Qed.

Lemma le_bytes_range n x : Forall is_byte (le_bytes n x).
Proof.
  revert x. induction n as [|n IH]; intros x; simpl; constructor; [|done].
  apply Z.mod_pos_bound. lia.
Qed.

Lemma le_val_bytes n x : 0 ≤ x < 256 ^ Z.of_nat n → le_val (le_bytes n x) = x.
Proof.
  revert x. induction n as [|n IH]; intros x Hx; simpl.
  - change (256 ^ Z.of_nat 0) with 1 in Hx. lia.
  - rewrite Nat2Z.inj_succ, Z.pow_succ_r in Hx by lia.
    rewrite IH; Z.div_mod_to_equations; lia.
Qed.

Lemma le_val_bytes_mod n x : le_val (le_bytes n x) = x mod 256 ^ Z.of_nat n.
Proof.
  revert x. induction n as [|n IH]; intros x; simpl.
  - change (256 ^ Z.of_nat 0) with 1. by rewrite Z.mod_1_r.
  - rewrite IH, Nat2Z.inj_succ, Z.pow_succ_r, Z.rem_mul_r by lia. done.
Qed.

Lemma le_val_range bs : Forall is_byte bs → 0 ≤ le_val bs < 256 ^ Z.of_nat (length bs).
Proof.
  induction 1 as [|b bs Hb _ IH]; simpl; [done|].
  unfold is_byte in Hb.
  rewrite Nat2Z.inj_succ, Z.pow_succ_r by lia. lia.
Qed.

Lemma le_bytes_val bs : Forall is_byte bs → le_bytes (length bs) (le_val bs) = bs.
Proof.
  induction 1 as [|b bs Hb _ IH]; simpl; [done|].
  unfold is_byte in Hb.
  replace ((b + 256 * le_val bs) mod 256) with b
    by (rewrite Z.mul_comm, Z_mod_plus_full, Z.mod_small; lia).
  replace ((b + 256 * le_val bs) / 256) with (le_val bs); [by rewrite IH|].
  rewrite Z.mul_comm, Z.div_add, Z.div_small by lia. lia.
Qed.

#[export] Hint Resolve length_le_bytes le_bytes_range : cint.

(** ** Lists *)

(** The last element of [a :: xs]. *)
Fixpoint lastd {A} (a : A) (xs : list A) : A :=
  match xs with [] => a | x :: xs' => lastd x xs' end.

Lemma lastd_in {A} (a : A) xs : lastd a xs ∈ a :: xs.
Proof.
  revert a. induction xs as [|x xs IH]; intros a; simpl; [set_solver|].
  specialize (IH x). set_solver.
Qed.

Lemma lastd_ne {A} (a : A) xs k : k ≠ a → k ∉ xs → k ≠ lastd a xs.
Proof. intros Ha Hxs ->. pose proof (lastd_in a xs). set_solver. Qed.

Lemma lastd_notin {A} (a : A) (xs ys : list A) :
  a ∉ ys → (∀ k, k ∈ xs → k ∉ ys) → lastd a xs ∉ ys.
Proof.
  intros Ha Hxs. pose proof (lastd_in a xs) as Hin.
  apply elem_of_cons in Hin as [E|E]; [by rewrite E|by apply Hxs].
Qed.

Lemma lastd_app {A} (a : A) xs y ys : lastd a (xs ++ y :: ys) = lastd y ys.
Proof. revert a. induction xs; simpl; auto. Qed.

Lemma hd_in {A} (a : A) xs : hd a xs ∈ a :: xs.
Proof. destruct xs; set_solver. Qed.

Lemma take_app_exact {A} (l k : list A) n : length l = n → take n (l ++ k) = l.
Proof. intros <-. by rewrite take_app_length. Qed.

Lemma drop_app_exact {A} (l k : list A) n : length l = n → drop n (l ++ k) = k.
Proof. intros <-. by rewrite drop_app_length. Qed.

(** Counting the elements of a list that satisfy a test. *)
Fixpoint cnt {A} (P : A → bool) (l : list A) : Z :=
  match l with [] => 0 | x :: l' => b2z (P x) + cnt P l' end.

Lemma cnt_nonneg {A} (P : A → bool) l : 0 ≤ cnt P l.
Proof. induction l as [|x l IH]; simpl; [lia|]. destruct (P x); simpl; lia. Qed.

Lemma cnt_insert {A} (P : A → bool) l i x y :
  l !! i = Some x → cnt P (<[i := y]> l) = cnt P l - b2z (P x) + b2z (P y).
Proof.
  revert i. induction l as [|z l IH]; intros [|i]; simpl; try done.
  - intros [= ->]. lia.
  - intros Hi. rewrite (IH _ Hi). lia.
Qed.

Lemma cnt_pos {A} (P : A → bool) l : 0 < cnt P l ↔ ∃ i x, l !! i = Some x ∧ P x = true.
Proof.
  induction l as [|z l IH]; simpl.
  - split; [lia|]. by intros (i & x & Hi & _).
  - pose proof (cnt_nonneg P l). destruct (P z) eqn:Ez; simpl.
    + split; [|lia]. intros _. by exists O, z.
    + rewrite Z.add_0_l, IH. split.
      * intros (i & x & ? & ?). by exists (S i), x.
      * intros ([|i] & x & Hi & Hx); [simpl in Hi; congruence|]. by exists i, x.
Qed.

Lemma cnt_le_length {A} (P : A → bool) l : cnt P l ≤ Z.of_nat (length l).
Proof. induction l as [|x l IH]; simpl; [done|]. destruct (P x); simpl; lia. Qed.

Lemma cnt_replicate {A} (P : A → bool) n x : P x = false → cnt P (replicate n x) = 0.
Proof. intros Hx. induction n; simpl; [done|]. by rewrite Hx, IHn. Qed.

(** A list that is a prefix at an offset: the [n] bytes at [o] are [l]. *)
Lemma take_drop_slice {A} (l : list A) o n :
  (o + n ≤ length l)%nat → length (take n (drop o l)) = n.
Proof. intros. rewrite length_take, length_drop. lia. Qed.

(** ** Replacing a part of a list *)

Definition splice {A} (o : nat) (x l : list A) : list A := take o l ++ x ++ drop (o + length x) l.

Lemma length_splice {A} o (x l : list A) : (o + length x ≤ length l)%nat → length (splice o x l) = length l.
Proof. intros. unfold splice. rewrite !length_app, length_take, length_drop. lia. Qed.

Lemma splice_at {A} o (x l : list A) : (o + length x ≤ length l)%nat → take (length x) (drop o (splice o x l)) = x.
Proof.
  intros. unfold splice. rewrite drop_app_exact by (rewrite length_take; lia). by apply take_app_exact.
Qed.

Lemma splice_lookup {A} o (x l : list A) i :
  (o + length x ≤ length l)%nat → (i < o ∨ o + length x ≤ i)%nat → splice o x l !! i = l !! i.
Proof.
  intros Hl Hi. unfold splice. destruct (decide (i < o)%nat).
  - rewrite lookup_app_l by (rewrite length_take; lia). by apply lookup_take_lt.
  - rewrite lookup_app_r, lookup_app_r by (rewrite ?length_take; lia). rewrite lookup_drop. f_equal. rewrite length_take. lia.
Qed.

Lemma splice_other {A} o (x l : list A) p n :
  (o + length x ≤ length l)%nat → (p + n ≤ o ∨ o + length x ≤ p)%nat → take n (drop p (splice o x l)) = take n (drop p l).
Proof.
  intros Hl Hp. apply list_eq. intros i. destruct (decide (i < n)%nat); [|by rewrite !lookup_take_ge by lia].
  rewrite !lookup_take_lt, !lookup_drop by lia. apply splice_lookup; [done|lia].
Qed.
