(* ===== verification/ListHead.v ===== *)
(** The kernel's circular doubly linked list: [include/linux/list.h] and its
    checking variant [lib/list_debug.c] (the configuration sets
    CONFIG_DEBUG_LIST).  Memory is a finite map from node addresses to
    [list_head] cells; the representation predicate [is_list] says that a
    head and a sequence of entries form one well-linked ring. *)

From S2P Require Import Prelude.

Section list_head.
Context {K : Type} `{Countable K}.
Context (LIST_POISON1 LIST_POISON2 : K).

(** ** Cells and memory *)

Record list_head := ListCell { next : K; prev : K }.

Definition ld_next (m : gmap K list_head) (a : K) : outcome K :=
  match m !! a with Some c => Ret (next c) | None => Undef end.

Definition ld_prev (m : gmap K list_head) (a : K) : outcome K :=
  match m !! a with Some c => Ret (prev c) | None => Undef end.

Definition st_next (m : gmap K list_head) (a v : K) : outcome (gmap K list_head) :=
  match m !! a with
  | Some c => Ret (<[a := ListCell v (prev c)]> m)
  | None => Undef
  end.

Definition st_prev (m : gmap K list_head) (a v : K) : outcome (gmap K list_head) :=
  match m !! a with
  | Some c => Ret (<[a := ListCell (next c) v]> m)
  | None => Undef
  end.

(** ** Operations *)

Definition INIT_LIST_HEAD (list : K) (m : gmap K list_head) : outcome (gmap K list_head) :=
  m ← st_next m list list;
  st_prev m list list.

Definition __list_add (new prv nxt : K) (m : gmap K list_head) : outcome (gmap K list_head) :=
  np ← ld_prev m nxt;
  if decide (np ≠ prv) then Bug else
  pn ← ld_next m prv;
  if decide (pn ≠ nxt) then Bug else
  m ← st_prev m nxt new;
  m ← st_next m new nxt;
  m ← st_prev m new prv;
  st_next m prv new.

Definition list_add (new head : K) (m : gmap K list_head) : outcome (gmap K list_head) :=
  n ← ld_next m head;
  __list_add new head n m.

Definition list_add_tail (new head : K) (m : gmap K list_head) : outcome (gmap K list_head) :=
  p ← ld_prev m head;
  __list_add new p head m.

Definition __list_del (prv nxt : K) (m : gmap K list_head) : outcome (gmap K list_head) :=
  m ← st_prev m nxt prv;
  st_next m prv nxt.

Definition list_del (entry : K) (m : gmap K list_head) : outcome (gmap K list_head) :=
  p ← ld_prev m entry;
  pn ← ld_next m p;
  if decide (pn ≠ entry) then Bug else
  n ← ld_next m entry;
  np ← ld_prev m n;
  if decide (np ≠ entry) then Bug else
  m ← __list_del p n m;
  m ← st_next m entry LIST_POISON1;
  st_prev m entry LIST_POISON2.

Definition list_empty (head : K) (m : gmap K list_head) : outcome bool :=
  n ← ld_next m head;
  Ret (bool_decide (n = head)).

(** [list_for_each_entry]: the entries from [pos] up to the head, in the order
    the loop visits them. *)
Fixpoint list_walk (fuel : nat) (m : gmap K list_head) (head pos : K) : outcome (list K) :=
  match fuel with
  | O => NoFuel
  | S fuel =>
    if decide (pos = head) then Ret [] else
    n ← ld_next m pos;
    rest ← list_walk fuel m head n;
    Ret (pos :: rest)
  end.

Definition list_for_each_entry (fuel : nat) (m : gmap K list_head) (head : K) : outcome (list K) :=
  n ← ld_next m head;
  list_walk fuel m head n.

(** ** Representation *)

Definition nxt (m : gmap K list_head) (a : K) : option K := next <$> m !! a.

Definition prv (m : gmap K list_head) (a : K) : option K := prev <$> m !! a.

(** [lseg m a xs b]: following [next] from [a] visits exactly [xs] and arrives
    at [b], and every [prev] on the way points back. *)
Fixpoint lseg (m : gmap K list_head) (a : K) (xs : list K) (b : K) : Prop :=
  match xs with
  | [] => nxt m a = Some b ∧ prv m b = Some a
  | x :: xs' => nxt m a = Some x ∧ prv m x = Some a ∧ lseg m x xs' b
  end.

Definition is_list (m : gmap K list_head) (head : K) (xs : list K) : Prop :=
  NoDup (head :: xs) ∧ lseg m head xs head.

(** ** Lemmas on cells *)

Lemma st_next_spec m a v :
  is_Some (m !! a) →
  ∃ m', st_next m a v = Ret m' ∧ dom m' = dom m ∧
    nxt m' a = Some v ∧ (∀ k, k ≠ a → nxt m' k = nxt m k) ∧ (∀ k, prv m' k = prv m k) ∧
    (∀ k, k ≠ a → m' !! k = m !! k).
Proof.
  intros [c Hc]. unfold st_next, nxt, prv. rewrite Hc. eexists. split; [done|].
  rewrite lookup_insert_eq. repeat split.
  - rewrite dom_insert_lookup_L; [done|]. by eexists.
  - intros k Hk. by rewrite lookup_insert_ne.
  - intros k. destruct (decide (k = a)) as [->|].
    + by rewrite lookup_insert_eq, Hc.
    + by rewrite lookup_insert_ne.
  - intros k Hk. by rewrite lookup_insert_ne.
Qed.

Lemma st_prev_spec m a v :
  is_Some (m !! a) →
  ∃ m', st_prev m a v = Ret m' ∧ dom m' = dom m ∧
    prv m' a = Some v ∧ (∀ k, k ≠ a → prv m' k = prv m k) ∧ (∀ k, nxt m' k = nxt m k) ∧
    (∀ k, k ≠ a → m' !! k = m !! k).
Proof.
  intros [c Hc]. unfold st_prev, nxt, prv. rewrite Hc. eexists. split; [done|].
  rewrite lookup_insert_eq. repeat split.
  - rewrite dom_insert_lookup_L; [done|]. by eexists.
  - intros k Hk. by rewrite lookup_insert_ne.
  - intros k. destruct (decide (k = a)) as [->|].
    + by rewrite lookup_insert_eq, Hc.
    + by rewrite lookup_insert_ne.
  - intros k Hk. by rewrite lookup_insert_ne.
Qed.

Lemma ld_next_nxt m a b : nxt m a = Some b → ld_next m a = Ret b.
Proof. unfold nxt, ld_next. destruct (m !! a); naive_solver. Qed.

Lemma ld_prev_prv m a b : prv m a = Some b → ld_prev m a = Ret b.
Proof. unfold prv, ld_prev. destruct (m !! a); naive_solver. Qed.

Lemma nxt_is_Some m a b : nxt m a = Some b → is_Some (m !! a).
Proof. unfold nxt. destruct (m !! a); naive_solver. Qed.

Lemma prv_is_Some m a b : prv m a = Some b → is_Some (m !! a).
Proof. unfold prv. destruct (m !! a); naive_solver. Qed.

Lemma is_Some_dom (m m' : gmap K list_head) a : dom m' = dom m → is_Some (m !! a) → is_Some (m' !! a).
Proof. intros Hd. rewrite <- !elem_of_dom, Hd. done. Qed.

(** ** Lemmas on segments *)

Lemma lseg_app m a xs y ys b :
  lseg m a (xs ++ y :: ys) b ↔ lseg m a xs y ∧ lseg m y ys b.
Proof.
  revert a. induction xs as [|x xs IH]; intros a; simpl; [tauto|].
  rewrite IH. tauto.
Qed.

Lemma lseg_first m a xs b :
  lseg m a xs b → nxt m a = Some (hd b xs) ∧ prv m (hd b xs) = Some a.
Proof. destruct xs; simpl; tauto. Qed.

Lemma lseg_final m a xs b :
  lseg m a xs b → nxt m (lastd a xs) = Some b ∧ prv m b = Some (lastd a xs).
Proof.
  revert a. induction xs as [|x xs IH]; intros a Hs; [done|].
  destruct Hs as (_ & _ & Hs). by apply IH in Hs.
Qed.

(** A segment only depends on the [next] of its sources and the [prev] of its
    targets. *)
Lemma lseg_frame m m' a xs b :
  (∀ k, k ∈ a :: xs → nxt m' k = nxt m k) →
  (∀ k, k ∈ b :: xs → prv m' k = prv m k) →
  lseg m a xs b → lseg m' a xs b.
Proof.
  revert a. induction xs as [|x xs IH]; intros a Hn Hp; simpl.
  - rewrite Hn, Hp by set_solver. done.
  - intros (E1 & E2 & Hs).
    rewrite Hn, Hp by set_solver. repeat split; [done..|].
    apply IH; [set_solver..|done].
Qed.

(** Redirecting the last link of a segment to a new target. *)
Lemma lseg_retarget m m' a xs b c :
  NoDup (a :: xs) →
  nxt m' (lastd a xs) = Some c → prv m' c = Some (lastd a xs) →
  (∀ k, k ∈ a :: xs → k ≠ lastd a xs → nxt m' k = nxt m k) →
  (∀ k, k ∈ xs → prv m' k = prv m k) →
  lseg m a xs b → lseg m' a xs c.
Proof.
  revert a. induction xs as [|x xs IH]; intros a Hnd HL HP Hn Hp; [done|].
  intros (E1 & E2 & Hs). apply NoDup_cons in Hnd as [Ha Hnd]. simpl in *.
  repeat split.
  - rewrite Hn; [done|set_solver|]. intros E. apply Ha. rewrite E. apply lastd_in.
  - rewrite Hp; [done|set_solver].
  - apply (IH x); [done..| |set_solver|done].
    intros k Hk Hk'. apply Hn; [set_solver|done].
Qed.

(** Redirecting the first link of a segment to a new source. *)
Lemma lseg_resource m m' a xs b c :
  b ∉ xs → NoDup xs → a ∉ xs →
  nxt m' c = Some (hd b xs) → prv m' (hd b xs) = Some c →
  (∀ k, k ∈ xs → nxt m' k = nxt m k) →
  (∀ k, k ∈ b :: xs → k ≠ hd b xs → prv m' k = prv m k) →
  lseg m a xs b → lseg m' c xs b.
Proof.
  intros Hb Hnd Ha HN HP Hn Hp. destruct xs as [|x xs]; simpl in *; [done|].
  intros (E1 & E2 & Hs). apply NoDup_cons in Hnd as [Hx Hnd].
  repeat split; [done..|]. apply (lseg_frame m); [done| |done].
  intros k Hk. apply Hp; [set_solver|]. intros ->. set_solver.
Qed.

(** ** Specifications of the operations *)

Lemma INIT_LIST_HEAD_spec m h :
  is_Some (m !! h) →
  ∃ m', INIT_LIST_HEAD h m = Ret m' ∧ dom m' = dom m ∧ is_list m' h [] ∧
    (∀ k, k ≠ h → m' !! k = m !! k).
Proof.
  intros Hh. unfold INIT_LIST_HEAD.
  destruct (st_next_spec m h h Hh) as (m1 & -> & D1 & N1 & N1' & P1 & F1). simpl.
  destruct (st_prev_spec m1 h h) as (m2 & -> & D2 & P2 & P2' & N2 & F2);
    [by eapply is_Some_dom|].
  exists m2. split; [done|]. split; [congruence|]. split.
  - split; [apply NoDup_singleton|]. simpl. by rewrite N2.
  - intros k Hk. by rewrite F2, F1.
Qed.

(** Membership facts about a ring cut in two. *)
Lemma ring_cut (h : K) xs ys :
  NoDup (h :: xs ++ ys) →
  NoDup (h :: xs) ∧ NoDup ys ∧ h ∉ ys ∧ (∀ k, k ∈ xs → k ∉ ys) ∧
  lastd h xs ∉ ys ∧ hd h ys ∉ xs.
Proof.
  intros Hnd. apply NoDup_cons in Hnd as [Hh Hnd]. apply NoDup_app in Hnd as (NX & NXY & NY).
  rewrite NoDup_cons. assert (h ∉ xs ∧ h ∉ ys) as [] by set_solver.
  repeat split; try done.
  - by apply lastd_notin.
  - destruct ys as [|y ys]; simpl; [done|]. set_solver.
Qed.

Lemma ring_cut_new (h : K) xs ys new :
  new ∉ h :: xs ++ ys → new ∉ xs ∧ new ∉ ys ∧ new ≠ h ∧ new ≠ lastd h xs ∧ new ≠ hd h ys.
Proof.
  intros Hn. assert (new ∉ xs ∧ new ∉ ys ∧ new ≠ h) as (? & ? & ?) by set_solver.
  repeat split; try done; [by apply lastd_ne|]. destruct ys; set_solver.
Qed.

Lemma ring_insert_NoDup (h : K) xs ys new :
  NoDup (h :: xs ++ ys) → new ∉ h :: xs ++ ys → NoDup (h :: xs ++ new :: ys).
Proof.
  intros Hnd Hn. assert (h :: xs ++ new :: ys ≡ₚ new :: h :: xs ++ ys) as -> by solve_Permutation.
  by apply NoDup_cons.
Qed.

Lemma ring_delete_NoDup (h : K) xs x ys :
  NoDup (h :: xs ++ x :: ys) → NoDup (h :: xs ++ ys) ∧ x ∉ h :: xs ++ ys.
Proof.
  intros Hnd. assert (h :: xs ++ x :: ys ≡ₚ x :: h :: xs ++ ys) as E by solve_Permutation.
  rewrite E in Hnd. by apply NoDup_cons in Hnd as [??].
Qed.

(** Inserting between two adjacent cells of a ring. *)
Lemma __list_add_spec m h xs ys new :
  is_list m h (xs ++ ys) → new ∉ h :: xs ++ ys → is_Some (m !! new) →
  ∃ m', __list_add new (lastd h xs) (hd h ys) m = Ret m' ∧ dom m' = dom m ∧
    is_list m' h (xs ++ new :: ys) ∧
    (∀ k, k ∉ new :: h :: xs ++ ys → m' !! k = m !! k).
Proof.
  intros [Hnd Hs] Hnew Hsm.
  pose proof (ring_insert_NoDup _ _ _ _ Hnd Hnew) as Hnd'.
  apply ring_cut in Hnd as (NX & NY & HY & NXY & HL & HD).
  pose proof (ring_cut_new _ _ _ _ Hnew) as (X1 & X2 & X3 & X4 & X5).
  assert (nxt m (lastd h xs) = Some (hd h ys) ∧ prv m (hd h ys) = Some (lastd h xs)
    ∧ lseg m h xs (hd h ys) ∧ (lseg m (lastd h xs) ys h)) as (EN & EP & S1 & S2).
  { destruct ys as [|y ys]; simpl.
    - rewrite app_nil_r in Hs. apply lseg_final in Hs as E. naive_solver.
    - apply lseg_app in Hs as [S1 S2]. apply lseg_final in S1 as E. naive_solver. }
  unfold __list_add. rewrite (ld_prev_prv _ _ _ EP). simpl.
  rewrite decide_False by (intros []; done).
  rewrite (ld_next_nxt _ _ _ EN). simpl. rewrite decide_False by (intros []; done).
  destruct (st_prev_spec m (hd h ys) new) as (m1 & -> & D1 & P1 & P1' & N1 & F1);
    [by eapply prv_is_Some|]. simpl.
  destruct (st_next_spec m1 new (hd h ys)) as (m2 & -> & D2 & N2 & N2' & P2 & F2);
    [by eapply is_Some_dom|]. simpl.
  destruct (st_prev_spec m2 new (lastd h xs)) as (m3 & -> & D3 & P3 & P3' & N3 & F3);
    [eapply is_Some_dom; [done|]; by eapply is_Some_dom|]. simpl.
  destruct (st_next_spec m3 (lastd h xs) new) as (m4 & -> & D4 & N4 & N4' & P4 & F4).
  { eapply is_Some_dom; [etrans; [exact D3|etrans; [exact D2|exact D1]]|].
    by eapply nxt_is_Some. }
  exists m4. split; [done|]. split; [congruence|]. split; [split; [done|]; apply lseg_app; split|].
  - apply (lseg_retarget m _ _ _ (hd h ys)); [done|done|by rewrite P4| | |done].
    + intros k Hk Hk'. rewrite N4', N3, N2', N1 by (done || intros ->; set_solver +Hk X1 X3). done.
    + intros k Hk. rewrite P4, P3', P2, P1' by (intros ->; done). done.
  - apply (lseg_resource m _ (lastd h xs)); [done..| | | | |done].
    + by rewrite N4', N3.
    + by rewrite P4, P3', P2.
    + intros k Hk. rewrite N4', N3, N2', N1 by (intros ->; done). done.
    + intros k Hk Hk'. rewrite P4, P3', P2, P1' by (done || intros ->; set_solver +Hk X2 X3). done.
  - intros k Hk. pose proof (ring_cut_new h xs ys k ltac:(set_solver +Hk)) as (?&?&?&?&?).
    assert (k ≠ new) by set_solver +Hk. by rewrite F4, F3, F2, F1.
Qed.

Lemma list_add_spec m h xs new :
  is_list m h xs → new ∉ h :: xs → is_Some (m !! new) →
  ∃ m', list_add new h m = Ret m' ∧ dom m' = dom m ∧ is_list m' h (new :: xs) ∧
    (∀ k, k ∉ new :: h :: xs → m' !! k = m !! k).
Proof.
  intros Hl Hnew Hs. unfold list_add.
  rewrite (ld_next_nxt m h (hd h xs)) by (eapply proj1, lseg_first, Hl).
  apply (__list_add_spec m h [] xs new); done.
Qed.

Lemma list_add_tail_spec m h xs new :
  is_list m h xs → new ∉ h :: xs → is_Some (m !! new) →
  ∃ m', list_add_tail new h m = Ret m' ∧ dom m' = dom m ∧ is_list m' h (xs ++ [new]) ∧
    (∀ k, k ∉ new :: h :: xs → m' !! k = m !! k).
Proof.
  intros Hl Hnew Hs. unfold list_add_tail.
  rewrite (ld_prev_prv m h (lastd h xs)) by (eapply proj2, lseg_final, Hl).
  destruct (__list_add_spec m h xs [] new) as (m' & E & D & L & F);
    rewrite ?app_nil_r in *; eauto 10.
Qed.

(** Unlinking one entry of a ring: the neighbours are joined. *)
Lemma __list_del_spec m h xs x ys :
  is_list m h (xs ++ x :: ys) →
  ∃ m', __list_del (lastd h xs) (hd h ys) m = Ret m' ∧ dom m' = dom m ∧
    is_list m' h (xs ++ ys) ∧ m' !! x = m !! x ∧
    (∀ k, k ∉ h :: xs ++ x :: ys → m' !! k = m !! k).
Proof.
  intros [Hnd Hs]. apply ring_delete_NoDup in Hnd as [Hnd Hx].
  pose proof (ring_cut_new _ _ _ _ Hx) as (X1 & X2 & X3 & X4 & X5).
  pose proof (ring_cut _ _ _ Hnd) as (NX & NY & HY & NXY & HL & HD).
  apply lseg_app in Hs as [S1 S2].
  apply lseg_final in S1 as E1. apply lseg_first in S2 as E2. unfold __list_del.
  destruct (st_prev_spec m (hd h ys) (lastd h xs)) as (m1 & -> & D1 & P1 & P1' & N1 & F1);
    [eapply prv_is_Some, E2|]. simpl.
  destruct (st_next_spec m1 (lastd h xs) (hd h ys)) as (m2 & -> & D2 & N2 & N2' & P2 & F2).
  { eapply is_Some_dom; [exact D1|]. eapply nxt_is_Some, E1. }
  exists m2. split; [done|]. split; [congruence|]. split; [split; [done|]|split].
  - assert (lseg m2 h xs (hd h ys)) as HS1.
    { apply (lseg_retarget m _ _ _ x); [done|done|by rewrite P2| | |done].
      - intros k Hk Hk'. by rewrite N2', N1.
      - intros k Hk. rewrite P2, P1' by (intros ->; done). done. }
    destruct ys as [|y ys]; [by rewrite app_nil_r|].
    apply lseg_app. split; [done|]. destruct S2 as (_ & _ & S2). apply (lseg_frame m); [..|done].
    + intros k Hk. rewrite N2', N1 by (intros ->; done). done.
    + intros k Hk. rewrite P2, P1'; [done|]. simpl. apply NoDup_cons in NY as [Hy _].
      set_solver +Hk Hy HY.
  - by rewrite F2, F1.
  - intros k Hk. pose proof (ring_cut_new h xs ys k ltac:(set_solver +Hk)) as (?&?&?&?&?).
    by rewrite F2, F1.
Qed.

Lemma list_del_spec m h xs x ys :
  is_list m h (xs ++ x :: ys) →
  ∃ m', list_del x m = Ret m' ∧ dom m' = dom m ∧ is_list m' h (xs ++ ys) ∧
    m' !! x = Some (ListCell LIST_POISON1 LIST_POISON2) ∧
    (∀ k, k ∉ h :: xs ++ x :: ys → m' !! k = m !! k).
Proof.
  intros Hl. pose proof Hl as [Hnd Hs]. apply lseg_app in Hs as [S1 S2].
  apply lseg_final in S1 as [EN1 EP1]. apply lseg_first in S2 as [EN2 EP2].
  unfold list_del. rewrite (ld_prev_prv _ _ _ EP1). simpl.
  rewrite (ld_next_nxt _ _ _ EN1). simpl. rewrite decide_False by (intros []; done).
  rewrite (ld_next_nxt _ _ _ EN2). simpl. rewrite (ld_prev_prv _ _ _ EP2). simpl.
  rewrite decide_False by (intros []; done).
  destruct (__list_del_spec m h xs x ys Hl) as (m1 & -> & D1 & L1 & E1 & F1). simpl.
  assert (is_Some (m1 !! x)) as Hx by (rewrite E1; by eapply nxt_is_Some).
  destruct (st_next_spec m1 x LIST_POISON1 Hx) as (m2 & -> & D2 & N2 & N2' & P2 & F2). simpl.
  destruct (st_prev_spec m2 x LIST_POISON2) as (m3 & -> & D3 & P3 & P3' & N3 & F3);
    [by eapply is_Some_dom|].
  apply ring_delete_NoDup in Hnd as [_ Hnx].
  exists m3. split; [done|]. split; [congruence|]. split; [|split].
  - destruct L1 as [HN1 HS1]. split; [done|]. apply (lseg_frame m1); [..|done].
    + intros k Hk. rewrite N3, N2' by (intros ->; done). done.
    + intros k Hk. rewrite P3', P2 by (intros ->; done). done.
  - rewrite <- N3 in N2. unfold nxt, prv in N2, P3.
    destruct (m3 !! x) as [[a b]|]; naive_solver.
  - intros k Hk. assert (k ≠ x) by set_solver +Hk. by rewrite F3, F2, F1.
Qed.

Lemma list_empty_spec m h xs :
  is_list m h xs → list_empty h m = Ret (match xs with [] => true | _ => false end).
Proof.
  intros [Hnd Hs]. unfold list_empty.
  rewrite (ld_next_nxt m h (hd h xs)) by (eapply proj1, lseg_first, Hs). simpl.
  destruct xs as [|x xs]; simpl; [by rewrite bool_decide_true|].
  rewrite bool_decide_false; [done|].
  intros ->. apply NoDup_cons in Hnd. set_solver.
Qed.

(** A traversal visits the entries in order and stops at the head. *)
Lemma list_walk_spec m h a xs fuel :
  lseg m a xs h → h ∉ xs → (length xs < fuel)%nat → list_walk fuel m h (hd h xs) = Ret xs.
Proof.
  revert a fuel. induction xs as [|x xs IH]; intros a fuel Hs Hh Hf.
  - destruct fuel; [lia|]. simpl. by rewrite decide_True.
  - destruct fuel as [|fuel]; [simpl in Hf; lia|]. simpl.
    destruct Hs as (_ & _ & Hs). rewrite decide_False by set_solver.
    rewrite (ld_next_nxt m x (hd h xs)) by (eapply proj1, lseg_first, Hs). simpl.
    rewrite (IH x fuel Hs); [done|set_solver|]. simpl in Hf. lia.
Qed.

Lemma list_for_each_entry_spec m h xs fuel :
  is_list m h xs → (length xs < fuel)%nat → list_for_each_entry fuel m h = Ret xs.
Proof.
  intros [Hnd Hs] Hf. unfold list_for_each_entry.
  rewrite (ld_next_nxt m h (hd h xs)) by (eapply proj1, lseg_first, Hs). simpl.
  eapply list_walk_spec; [done| |done]. by apply NoDup_cons in Hnd as [? _].
Qed.

(** Any entry of a ring can serve as its head. *)
Lemma is_list_rotate m h x xs : is_list m h (x :: xs) → is_list m x (xs ++ [h]).
Proof.
  intros [Hnd Hs]. split.
  - assert (x :: xs ++ [h] ≡ₚ h :: x :: xs) as -> by solve_Permutation. done.
  - destruct Hs as (E1 & E2 & Hs). apply lseg_app. split; [done|]. by simpl.
Qed.

(** A ring only depends on its own cells. *)
Lemma is_list_frame m m' h xs :
  (∀ k, k ∈ h :: xs → m' !! k = m !! k) → is_list m h xs → is_list m' h xs.
Proof.
  intros Hf [Hnd Hs]. split; [done|]. apply (lseg_frame m); [..|done].
  - intros k Hk. unfold nxt. by rewrite Hf.
  - intros k Hk. unfold prv. by rewrite Hf.
Qed.

Lemma lseg_dom m a xs b k : lseg m a xs b → k ∈ a :: xs → is_Some (m !! k).
Proof.
  revert a. induction xs as [|x xs IH]; intros a Hs Hk.
  - apply list_elem_of_singleton in Hk as ->. eapply nxt_is_Some, Hs.
  - destruct Hs as (E & _ & Hs). apply elem_of_cons in Hk as [->|Hk]; [by eapply nxt_is_Some|].
    by apply (IH x).
Qed.

Lemma is_list_dom m h xs k : is_list m h xs → k ∈ h :: xs → is_Some (m !! k).
Proof. intros [_ Hs]. by apply lseg_dom with h. Qed.
End list_head.

Arguments list_head K : clear implicits.
Arguments ListCell {K} next prev.
