(* ===== verification/ListOps.v ===== *)
(** The other operations of [include/linux/list.h] on whole entries and lists:
    deleting and initialising, moving, replacing and joining.  They are proved with
    the representation of [ListHead]. *)

From S2P Require Import Prelude ListHead.

Section list_ops.
Context {K : Type} `{Countable K}.
Context (LIST_POISON2 : K).
Implicit Types (m : gmap K (list_head K)) (h g x : K) (xs ys zs : list K).

(** ** Operations *)

Definition list_del_rcu (entry : K) (m : gmap K (list_head K)) : outcome (gmap K (list_head K)) :=
  p ← ld_prev m entry;
  n ← ld_next m entry;
  m ← __list_del p n m;
  st_prev m entry LIST_POISON2.

Definition list_replace (old new : K) (m : gmap K (list_head K)) : outcome (gmap K (list_head K)) :=
  n ← ld_next m old;
  m ← st_next m new n;
  n ← ld_next m new;
  m ← st_prev m n new;
  p ← ld_prev m old;
  m ← st_prev m new p;
  p ← ld_prev m new;
  st_next m p new.

Definition list_replace_init (old new : K) (m : gmap K (list_head K)) : outcome (gmap K (list_head K)) :=
  m ← list_replace old new m;
  INIT_LIST_HEAD old m.

Definition list_del_init (entry : K) (m : gmap K (list_head K)) : outcome (gmap K (list_head K)) :=
  p ← ld_prev m entry;
  n ← ld_next m entry;
  m ← __list_del p n m;
  INIT_LIST_HEAD entry m.

Definition list_move (list head : K) (m : gmap K (list_head K)) : outcome (gmap K (list_head K)) :=
  p ← ld_prev m list;
  n ← ld_next m list;
  m ← __list_del p n m;
  list_add list head m.

Definition list_move_tail (list head : K) (m : gmap K (list_head K)) : outcome (gmap K (list_head K)) :=
  p ← ld_prev m list;
  n ← ld_next m list;
  m ← __list_del p n m;
  list_add_tail list head m.

Definition list_is_last (list head : K) (m : gmap K (list_head K)) : outcome bool :=
  n ← ld_next m list;
  Ret (bool_decide (n = head)).

Definition __list_splice (list head : K) (m : gmap K (list_head K)) : outcome (gmap K (list_head K)) :=
  first ← ld_next m list;
  last ← ld_prev m list;
  at_ ← ld_next m head;
  m ← st_prev m first head;
  m ← st_next m head first;
  m ← st_next m last at_;
  st_prev m at_ last.

Definition list_splice (list head : K) (m : gmap K (list_head K)) : outcome (gmap K (list_head K)) :=
  empty ← list_empty list m;
  if (empty : bool) then Ret m else __list_splice list head m.

Definition list_splice_init (list head : K) (m : gmap K (list_head K)) : outcome (gmap K (list_head K)) :=
  empty ← list_empty list m;
  if (empty : bool) then Ret m else
  m ← __list_splice list head m;
  INIT_LIST_HEAD list m.

(** [sync] waits for the readers and changes no list. *)
Definition list_splice_init_rcu (list head : K) (m : gmap K (list_head K)) : outcome (gmap K (list_head K)) :=
  first ← ld_next m list;
  last ← ld_prev m list;
  at_ ← ld_next m head;
  empty ← list_empty head m;
  if (empty : bool) then Ret m else
  m ← INIT_LIST_HEAD list m;
  m ← st_next m last at_;
  m ← st_next m head first;
  m ← st_prev m first head;
  st_prev m at_ last.

(** ** Taking an entry out *)

(** The links around an entry, and the ring without it. *)
Lemma unlink_spec m h xs x ys :
  is_list m h (xs ++ x :: ys) →
  ld_prev m x = Ret (lastd h xs) ∧ ld_next m x = Ret (hd h ys) ∧
  ∃ m', __list_del (lastd h xs) (hd h ys) m = Ret m' ∧ dom m' = dom m ∧ is_list m' h (xs ++ ys) ∧ x ∉ h :: xs ++ ys ∧ is_Some (m' !! x) ∧
    ∀ k, k ∉ h :: xs ++ x :: ys → m' !! k = m !! k.
Proof.
  intros Hl. pose proof Hl as [Hnd Hs]. apply lseg_app in Hs as [S1 S2]. apply lseg_final in S1 as [_ EP]. apply lseg_first in S2 as [EN _].
  split; [by apply ld_prev_prv|]. split; [by apply ld_next_nxt|]. destruct (__list_del_spec m h xs x ys Hl) as (m' & E & D & L & Ex & F). exists m'. split; [done|]. split; [done|]. split; [done|].
  split; [by eapply ring_delete_NoDup|]. split; [rewrite Ex; by eapply nxt_is_Some|done].
Qed.

Lemma list_del_init_spec m h xs x ys :
  is_list m h (xs ++ x :: ys) →
  ∃ m', list_del_init x m = Ret m' ∧ is_list m' h (xs ++ ys) ∧ is_list m' x [] ∧ ∀ k, k ∉ h :: xs ++ x :: ys → m' !! k = m !! k.
Proof.
  intros Hl. destruct (unlink_spec m h xs x ys Hl) as (Ep & En & m1 & E & _ & L1 & Hx & Hs & F1). unfold list_del_init. rewrite Ep, En. cbn [mbind outcome_bind]. rewrite E. cbn [mbind outcome_bind].
  destruct (INIT_LIST_HEAD_spec m1 x Hs) as (m2 & -> & _ & L2 & F2). exists m2. split; [done|]. split; [|split; [done|]].
  - apply (is_list_frame m1); [|done]. intros k Hk. apply F2. by intros ->.
  - intros k Hk. rewrite F2 by (intros ->; set_solver +Hk). by apply F1.
Qed.

(** A reader that is at the entry still gets to the rest of the list. *)
Lemma list_del_rcu_spec m h xs x ys :
  is_list m h (xs ++ x :: ys) → ∃ m', list_del_rcu x m = Ret m' ∧ is_list m' h (xs ++ ys) ∧ nxt m' x = Some (hd h ys) ∧ prv m' x = Some LIST_POISON2.
Proof.
  intros Hl. pose proof Hl as [_ Sl]. apply lseg_app in Sl as [_ S2]. pose proof S2 as [EN _]%lseg_first. destruct (unlink_spec m h xs x ys Hl) as (Ep & En & _).
  destruct (__list_del_spec m h xs x ys Hl) as (m1 & E & _ & L1 & Ex & _). unfold list_del_rcu. rewrite Ep, En. cbn [mbind outcome_bind]. rewrite E. cbn [mbind outcome_bind].
  destruct (st_prev_spec m1 x LIST_POISON2) as (m2 & -> & _ & P2 & _ & N2 & F2); [rewrite Ex; by eapply nxt_is_Some|]. exists m2. split; [done|].
  destruct Hl as [Hnd _]. apply ring_delete_NoDup in Hnd as [_ Ho]. split; [|split; [rewrite N2; unfold nxt; by rewrite Ex|done]]. apply (is_list_frame m1); [|done]. intros k Hk. apply F2. by intros ->.
Qed.

Lemma list_is_last_spec m h xs x ys : is_list m h (xs ++ x :: ys) → list_is_last x h m = Ret (bool_decide (ys = [])).
Proof.
  intros Hl. destruct (unlink_spec m h xs x ys Hl) as (_ & En & _). unfold list_is_last. rewrite En. cbn [mbind outcome_bind]. f_equal. apply bool_decide_ext. destruct ys as [|y ys]; [done|]. cbn [hd]. split; [|done].
  intros ->. destruct Hl as [Hnd _]. apply NoDup_cons in Hnd as [Hh _]. set_solver +Hh.
Qed.

Lemma list_move_spec m h xs x ys g zs :
  is_list m h (xs ++ x :: ys) → is_list m g zs → (∀ k, k ∈ g :: zs → k ∉ h :: xs ++ x :: ys) →
  (∃ m', list_move x g m = Ret m' ∧ is_list m' h (xs ++ ys) ∧ is_list m' g (x :: zs)) ∧
  (∃ m', list_move_tail x g m = Ret m' ∧ is_list m' h (xs ++ ys) ∧ is_list m' g (zs ++ [x])).
Proof.
  intros Hl Hg Hd. destruct (unlink_spec m h xs x ys Hl) as (Ep & En & m1 & E & _ & L1 & Hx & Hs & F1). unfold list_move, list_move_tail. rewrite Ep, En. cbn [mbind outcome_bind]. rewrite E. cbn [mbind outcome_bind].
  assert (is_list m1 g zs) as Hg1 by (apply (is_list_frame m); [intros k Hk; by apply F1, Hd|done]).
  assert (x ∉ g :: zs) as Hxg by (intros Hk; apply (Hd x Hk); set_solver +).
  assert (∀ k, k ∈ h :: xs ++ ys → k ∉ x :: g :: zs) as Hk.
  { intros k Hk [->|Hk']%elem_of_cons; [done|]. apply (Hd k Hk'). set_solver +Hk. }
  destruct (list_add_spec m1 g zs x Hg1 Hxg Hs) as (m2 & E2 & _ & L2 & F2). destruct (list_add_tail_spec m1 g zs x Hg1 Hxg Hs) as (m3 & E3 & _ & L3 & F3). split.
  - exists m2. split; [done|]. split; [|done]. apply (is_list_frame m1); [|done]. intros k Hk'. by apply F2, Hk.
  - exists m3. split; [done|]. split; [|done]. apply (is_list_frame m1); [|done]. intros k Hk'. by apply F3, Hk.
Qed.

(** The new entry takes the place of the old one. *)
Lemma list_replace_spec m h xs old ys new :
  is_list m h (xs ++ old :: ys) → new ∉ h :: xs ++ old :: ys → is_Some (m !! new) →
  ∃ m', list_replace old new m = Ret m' ∧ dom m' = dom m ∧ is_list m' h (xs ++ new :: ys) ∧ ∀ k, k ∉ new :: h :: xs ++ ys → m' !! k = m !! k.
Proof.
  intros Hl Hnew Hs. pose proof Hl as [Hnd Sl]. apply lseg_app in Sl as [S1 S2]. pose proof S1 as [EN1 EP1]%lseg_final. pose proof S2 as [EN2 EP2]%lseg_first.
  pose proof Hnd as [Hnd' Ho]%ring_delete_NoDup. assert (new ∉ h :: xs ++ ys) as Hn by set_solver +Hnew. pose proof (ring_cut _ _ _ Hnd') as (NX & NY & HY & NXY & HL & HD).
  pose proof (ring_cut_new _ _ _ _ Hn) as (X1 & X2 & X3 & X4 & X5). pose proof (ring_cut_new _ _ _ _ Ho) as (O1 & O2 & O3 & O4 & O5). assert (new ≠ old) as Hno by set_solver +Hnew.
  unfold list_replace. rewrite (ld_next_nxt m old _ EN2). cbn [mbind outcome_bind].
  destruct (st_next_spec m new (hd h ys) Hs) as (m1 & -> & D1 & N1 & N1' & P1 & F1). cbn [mbind outcome_bind]. rewrite (ld_next_nxt m1 new _ N1). cbn [mbind outcome_bind].
  destruct (st_prev_spec m1 (hd h ys) new) as (m2 & -> & D2 & P2 & P2' & N2 & F2); [apply (is_Some_dom m); [done|by eapply prv_is_Some]|]. cbn [mbind outcome_bind].
  rewrite (ld_prev_prv m2 old (lastd h xs)) by (by rewrite P2', P1). cbn [mbind outcome_bind].
  destruct (st_prev_spec m2 new (lastd h xs)) as (m3 & -> & D3 & P3 & P3' & N3 & F3); [apply (is_Some_dom m); [congruence|done]|]. cbn [mbind outcome_bind]. rewrite (ld_prev_prv m3 new _ P3). cbn [mbind outcome_bind].
  destruct (st_next_spec m3 (lastd h xs) new) as (m4 & -> & D4 & N4 & N4' & P4 & F4); [apply (is_Some_dom m); [congruence|by eapply nxt_is_Some]|].
  exists m4. split; [done|]. split; [congruence|]. split; [split; [by apply ring_insert_NoDup|apply lseg_app; split]|].
  - apply (lseg_retarget m _ _ _ old); [done|done|by rewrite P4| | |done].
    + intros k Hk Hk'. by rewrite N4', N3, N2, N1' by (done || intros ->; set_solver +Hk X1 X3).
    + intros k Hk. by rewrite P4, P3', P2', P1 by (intros ->; done).
  - apply (lseg_resource m _ old); [done..| | | | |done].
    + by rewrite N4', N3, N2.
    + by rewrite P4, P3'.
    + intros k Hk. by rewrite N4', N3, N2, N1' by (intros ->; done).
    + intros k Hk Hk'. by rewrite P4, P3', P2', P1 by (done || intros ->; set_solver +Hk X2 X3).
  - intros k Hk. pose proof (ring_cut_new h xs ys k ltac:(set_solver +Hk)) as (?&?&?&?&?). assert (k ≠ new) by set_solver +Hk. by rewrite F4, F3, F2, F1.
Qed.

Lemma list_replace_init_spec m h xs old ys new :
  is_list m h (xs ++ old :: ys) → new ∉ h :: xs ++ old :: ys → is_Some (m !! new) →
  ∃ m', list_replace_init old new m = Ret m' ∧ is_list m' h (xs ++ new :: ys) ∧ is_list m' old [].
Proof.
  intros Hl Hnew Hs. destruct (list_replace_spec m h xs old ys new Hl Hnew Hs) as (m1 & E & D & L & F). unfold list_replace_init. rewrite E. cbn [mbind outcome_bind].
  destruct (INIT_LIST_HEAD_spec m1 old) as (m2 & -> & _ & L2 & F2). { apply (is_Some_dom m); [done|]. apply (is_list_dom m h (xs ++ old :: ys)); [done|set_solver +]. }
  exists m2. split; [done|]. split; [|done]. apply (is_list_frame m1); [|done]. intros k Hk. apply F2. intros ->. destruct Hl as [Hnd _]. apply ring_delete_NoDup in Hnd as [_ Ho]. set_solver +Hk Ho Hnew.
Qed.

(** ** Joining two lists *)

Lemma lseg_join m a xs ys b : lseg m a xs (hd b ys) → lseg m (lastd a xs) ys b → lseg m a (xs ++ ys) b.
Proof.
  destruct ys as [|y ys]; cbn [hd]; [by rewrite app_nil_r|]. intros S1 (_ & _ & S2). by apply lseg_app.
Qed.

(** Two rings that share no cell. *)
Definition apart (l : K) (xs : list K) (h : K) (ys : list K) : Prop := ∀ k, k ∈ l :: xs → k ∉ h :: ys.

(** The four links that join the entries of [l] to the front of [h]; the cell of [l]
    may hold anything. *)
Lemma lists_joined m m' l x xs h ys :
  is_list m l (x :: xs) → is_list m h ys → apart l (x :: xs) h ys →
  nxt m' h = Some x → prv m' x = Some h → nxt m' (lastd x xs) = Some (hd h ys) → prv m' (hd h ys) = Some (lastd x xs) →
  (∀ k, k ≠ l → k ≠ h → k ≠ lastd x xs → nxt m' k = nxt m k) → (∀ k, k ≠ l → k ≠ x → k ≠ hd h ys → prv m' k = prv m k) →
  is_list m' h ((x :: xs) ++ ys).
Proof.
  intros [Nl Sl] [Nh Sh] Hd E1 E2 E3 E4 Fn Fp. apply NoDup_cons in Nl as [Hlx Nl]. pose proof Nl as [Hx Nx]%NoDup_cons. pose proof Nh as [Hh Ny]%NoDup_cons. cbn [lseg] in Sl. destruct Sl as (_ & _ & Sl).
  assert (∀ k, k ∈ x :: xs → k ≠ l ∧ k ≠ h ∧ k ∉ ys) as Hk. { intros k Hk. pose proof (Hd k ltac:(set_solver +Hk)) as Hd'. split; [by intros ->|set_solver +Hd']. }
  assert (∀ k, k ∈ h :: ys → k ≠ l ∧ k ∉ x :: xs) as Hk'. { intros k Hy. split; [intros ->; apply (Hd l); set_solver +Hy|intros Hin; apply (Hd k); set_solver +Hy Hin]. }
  assert (hd h ys ∈ h :: ys) as Hat by (destruct ys; set_solver +). pose proof (lastd_in x xs) as Hla. split.
  - apply NoDup_cons. split; [intros [Hin|]%elem_of_app; [by apply (Hk' h ltac:(set_solver +))|done]|]. apply NoDup_app. split; [done|]. split; [|done]. intros k Hin. apply (Hk k Hin).
  - cbn [app lseg]. split; [done|]. split; [done|]. apply lseg_join.
    + apply (lseg_retarget m m' x xs l); [done..| | |done].
      * intros k Hin Hne. destruct (Hk k Hin) as (? & ? & _). by apply Fn.
      * intros k Hin. destruct (Hk k ltac:(set_solver +Hin)) as (? & ? & _). apply Fp; [done|by intros ->|intros ->; apply (Hk' _ Hat); set_solver +Hin].
    + apply (lseg_resource m m' h ys h); [done..| | |done].
      * intros k Hin. destruct (Hk' k ltac:(set_solver +Hin)) as [? Hn]. apply Fn; [done|by intros ->|intros ->; set_solver +Hn Hla].
      * intros k Hin Hne. destruct (Hk' k Hin) as [? Hn]. apply Fp; [done|intros ->; set_solver +Hn|done].
Qed.

(** What both ways of joining start from. *)
Lemma splice_ends m l x xs h ys :
  is_list m l (x :: xs) → is_list m h ys → apart l (x :: xs) h ys →
  ld_next m l = Ret x ∧ ld_prev m l = Ret (lastd x xs) ∧ ld_next m h = Ret (hd h ys) ∧
  (∀ k, k ∈ [x; h; lastd x xs; hd h ys] → is_Some (m !! k) ∧ k ≠ l) ∧ h ≠ lastd x xs ∧ x ≠ hd h ys.
Proof.
  intros Hl Hh Hd. pose proof Hl as [Nl Sl]. pose proof Hh as [_ Sh]. apply NoDup_cons in Nl as [Hlx _]. pose proof (lastd_in x xs) as Hla. assert (hd h ys ∈ h :: ys) as Hat by (destruct ys; set_solver +).
  split; [apply ld_next_nxt; by apply lseg_first in Sl as [? _]|]. split; [apply ld_prev_prv; by apply lseg_final in Sl as [_ ?]|]. split; [apply ld_next_nxt; by apply lseg_first in Sh as [? _]|].
  assert (∀ k, k ∈ x :: xs → is_Some (m !! k) ∧ k ≠ l) as H1 by (intros k Hk; split; [apply (is_list_dom m l (x :: xs)); [done|set_solver +Hk]|by intros ->]).
  assert (∀ k, k ∈ h :: ys → is_Some (m !! k) ∧ k ≠ l) as H2 by (intros k Hk; split; [by apply (is_list_dom m h ys)|intros ->; apply (Hd l); set_solver +Hk]).
  split; [|split; [intros E; apply (Hd (lastd x xs)); [set_solver +Hla|rewrite <- E; set_solver +]|intros E; apply (Hd x); [set_solver +|by rewrite E]]].
  intros k Hk. repeat (apply elem_of_cons in Hk as [->|Hk]); [apply H1; set_solver +|apply H2; set_solver +|by apply H1|by apply H2|by apply not_elem_of_nil in Hk].
Qed.

Lemma __list_splice_spec m l x xs h ys :
  is_list m l (x :: xs) → is_list m h ys → apart l (x :: xs) h ys →
  ∃ m', __list_splice l h m = Ret m' ∧ is_list m' h ((x :: xs) ++ ys) ∧ dom m' = dom m.
Proof.
  intros Hl Hh Hd. destruct (splice_ends m l x xs h ys Hl Hh Hd) as (E1 & E2 & E3 & Hk & Hhl & Hxa). unfold __list_splice. rewrite E1, E2, E3. cbn [mbind outcome_bind].
  destruct (st_prev_spec m x h) as (m1 & -> & D1 & P1 & P1' & N1 & _); [apply Hk; set_solver +|]. cbn [mbind outcome_bind].
  destruct (st_next_spec m1 h x) as (m2 & -> & D2 & N2 & N2' & P2 & _); [apply (is_Some_dom m); [done|apply Hk; set_solver +]|]. cbn [mbind outcome_bind].
  destruct (st_next_spec m2 (lastd x xs) (hd h ys)) as (m3 & -> & D3 & N3 & N3' & P3 & _); [apply (is_Some_dom m); [congruence|apply Hk; set_solver +]|]. cbn [mbind outcome_bind].
  destruct (st_prev_spec m3 (hd h ys) (lastd x xs)) as (m4 & -> & D4 & P4 & P4' & N4 & _); [apply (is_Some_dom m); [congruence|apply Hk; set_solver +]|].
  exists m4. split; [done|]. split; [|congruence]. apply (lists_joined m m4 l x xs h ys Hl Hh Hd).
  - by rewrite N4, N3'.
  - by rewrite P4', P3, P2.
  - by rewrite N4.
  - done.
  - intros k _ ? ?. by rewrite N4, N3', N2', N1.
  - intros k _ ? ?. by rewrite P4', P3, P2, P1'.
Qed.

(** Joining and emptying: the entries of [l] come before those of [h], and [l] is
    empty. *)
Lemma list_splice_init_spec m l xs h ys :
  is_list m l xs → is_list m h ys → apart l xs h ys → ∃ m', list_splice_init l h m = Ret m' ∧ is_list m' h (xs ++ ys) ∧ is_list m' l [].
Proof.
  intros Hl Hh Hd. unfold list_splice_init. rewrite (list_empty_spec m l xs Hl). cbn [mbind outcome_bind]. destruct xs as [|x xs]; [by exists m|].
  destruct (__list_splice_spec m l x xs h ys Hl Hh Hd) as (m1 & -> & L1 & D1). cbn [mbind outcome_bind].
  destruct (INIT_LIST_HEAD_spec m1 l) as (m2 & -> & _ & L2 & F2). { apply (is_Some_dom m); [done|]. apply (is_list_dom m l (x :: xs)); [done|set_solver +]. }
  exists m2. split; [done|]. split; [|done]. apply (is_list_frame m1); [|done]. intros k Hk. apply F2. intros ->. destruct Hl as [Nl _]. apply NoDup_cons in Nl as [Hlx _].
  apply elem_of_cons in Hk as [E|[Hk|Hk]%elem_of_app]; [|done|]; apply (Hd l); [set_solver +|rewrite E; set_solver +|set_solver +|set_solver +Hk].
Qed.

(** ** Joining under readers *)

Lemma list_splice_init_rcu_spec m l x xs h y ys :
  is_list m l (x :: xs) → is_list m h (y :: ys) → apart l (x :: xs) h (y :: ys) →
  ∃ m', list_splice_init_rcu l h m = Ret m' ∧ is_list m' h ((x :: xs) ++ y :: ys) ∧ is_list m' l [].
Proof.
  intros Hl Hh Hd. destruct (splice_ends m l x xs h (y :: ys) Hl Hh Hd) as (E1 & E2 & E3 & Hk & Hhl & Hxa). cbn [hd] in *. unfold list_splice_init_rcu. rewrite E1, E2, E3, (list_empty_spec m h _ Hh). cbn [mbind outcome_bind].
  destruct (INIT_LIST_HEAD_spec m l) as (m0 & -> & D0 & [N0 L0] & F0); [apply (is_list_dom m l (x :: xs)); [done|set_solver +]|]. cbn [mbind outcome_bind lseg] in *.
  destruct (st_next_spec m0 (lastd x xs) y) as (m1 & -> & D1 & N1 & N1' & P1 & _); [apply (is_Some_dom m); [congruence|apply Hk; set_solver +]|]. cbn [mbind outcome_bind].
  destruct (st_next_spec m1 h x) as (m2 & -> & D2 & N2 & N2' & P2 & _); [apply (is_Some_dom m); [congruence|apply Hk; set_solver +]|]. cbn [mbind outcome_bind].
  destruct (st_prev_spec m2 x h) as (m3 & -> & D3 & P3 & P3' & N3 & _); [apply (is_Some_dom m); [congruence|apply Hk; set_solver +]|]. cbn [mbind outcome_bind].
  destruct (st_prev_spec m3 y (lastd x xs)) as (m4 & -> & D4 & P4 & P4' & N4 & _); [apply (is_Some_dom m); [congruence|apply Hk; set_solver +]|].
  exists m4. split; [done|]. pose proof (Hk x ltac:(set_solver +)) as [_ ?]. pose proof (Hk h ltac:(set_solver +)) as [_ ?]. pose proof (Hk y ltac:(set_solver +)) as [_ ?]. pose proof (Hk (lastd x xs) ltac:(set_solver +)) as [_ ?]. split.
  - assert (∀ k, k ≠ l → nxt m0 k = nxt m k) as Fn by (intros k ?; unfold nxt; by rewrite F0). assert (∀ k, k ≠ l → prv m0 k = prv m k) as Fp by (intros k ?; unfold prv; by rewrite F0).
    apply (lists_joined m m4 l x xs h (y :: ys) Hl Hh Hd); cbn [hd].
    + by rewrite N4, N3.
    + by rewrite P4'.
    + by rewrite N4, N3, N2' by done.
    + done.
    + intros k ? ? ?. rewrite N4, N3, N2', N1' by done. by apply Fn.
    + intros k ? ? ?. rewrite P4', P3', P2, P1 by done. by apply Fp.
  - split; [done|]. cbn [lseg]. by rewrite N4, N3, N2', N1', P4', P3', P2, P1 by done.
Qed.

(** The function asks whether [head] is empty where [list] is meant.  An empty list
    is joined all the same: its head becomes an entry of the other list. *)
Lemma splice_rcu_links_head m l h y ys :
  is_list m l [] → is_list m h (y :: ys) → apart l [] h (y :: ys) → ∃ m', list_splice_init_rcu l h m = Ret m' ∧ list_for_each_entry (S (S (S (length ys)))) m' h = Ret (l :: y :: ys).
Proof.
  intros Hl Hh Hd. pose proof Hl as [_ [EN EP]]. unfold list_splice_init_rcu. rewrite (ld_next_nxt m l l EN), (ld_prev_prv m l l EP), (ld_next_nxt m h y) by (by destruct Hh as [_ [? _]]).
  cbn [mbind outcome_bind]. rewrite (list_empty_spec m h _ Hh). cbn [mbind outcome_bind]. assert (is_Some (m !! l)) as Sl by (by eapply nxt_is_Some).
  destruct (INIT_LIST_HEAD_spec m l Sl) as (m0 & -> & D0 & _ & F0). cbn [mbind outcome_bind].
  assert (∀ k, k ∈ h :: y :: ys → is_Some (m !! k) ∧ k ≠ l) as Hk by (intros k Hk; split; [by apply (is_list_dom m h (y :: ys))|intros ->; apply (Hd l); set_solver +Hk]).
  destruct (st_next_spec m0 l y) as (m1 & -> & D1 & N1 & N1' & P1 & _); [by apply (is_Some_dom m)|]. cbn [mbind outcome_bind].
  destruct (st_next_spec m1 h l) as (m2 & -> & D2 & N2 & N2' & P2 & _); [apply (is_Some_dom m); [congruence|apply Hk; set_solver +]|]. cbn [mbind outcome_bind].
  destruct (st_prev_spec m2 l h) as (m3 & -> & D3 & P3 & P3' & N3 & _); [apply (is_Some_dom m); [congruence|done]|]. cbn [mbind outcome_bind].
  destruct (st_prev_spec m3 y l) as (m4 & -> & D4 & P4 & P4' & N4 & _); [apply (is_Some_dom m); [congruence|apply Hk; set_solver +]|].
  exists m4. split; [done|]. destruct (Hk h ltac:(set_solver +)) as [_ Hhl]. destruct (Hk y ltac:(set_solver +)) as [_ Hyl]. destruct Hh as [Nh (_ & _ & Sy)]. apply NoDup_cons in Nh as [Hh Ny]. pose proof Ny as [Hy _]%NoDup_cons.
  apply (list_for_each_entry_spec m4 h (l :: y :: ys)); [|cbn; lia]. split.
  - apply NoDup_cons. split; [set_solver +Hh Hhl|]. apply NoDup_cons. split; [intros Hin; by apply (Hk l); set_solver +Hin|done].
  - cbn [lseg]. split; [by rewrite N4, N3|]. split; [by rewrite P4' by done|]. split; [by rewrite N4, N3, N2' by done|]. split; [done|]. apply (lseg_frame m); [..|done].
    + intros k Hin. destruct (Hk k ltac:(set_solver +Hin)) as [_ ?]. rewrite N4, N3, N2', N1' by (done || intros ->; set_solver +Hh Hin). unfold nxt. by rewrite F0.
    + intros k Hin. destruct (Hk k ltac:(set_solver +Hin)) as [_ ?]. rewrite P4', P3', P2, P1 by (done || intros ->; set_solver +Hh Hy Hin). unfold prv. by rewrite F0.
Qed.

(** ... and nothing is joined to an empty one. *)
Lemma splice_rcu_drops m l x xs h : is_list m l (x :: xs) → is_list m h [] → apart l (x :: xs) h [] → list_splice_init_rcu l h m = Ret m.
Proof.
  intros Hl Hh Hd. destruct (splice_ends m l x xs h [] Hl Hh Hd) as (E1 & E2 & E3 & _). unfold list_splice_init_rcu. by rewrite E1, E2, E3, (list_empty_spec m h _ Hh).
Qed.
End list_ops.
