(* ===== verification/Mailbox.v ===== *)
(** The mailbox of [ipc/mailbox.c]: 128 hash buckets of messages, protected by
    one semaphore, with the system calls [mysend] and [myreceive].  The list
    cells of the buckets and of the messages live in one memory, so the order
    of the arguments of [list_add_tail] matters and is modelled as written. *)

From S2P Require Import Prelude ListHead.

Definition MAILBOX_NUMBER_BUCKETS : Z := 128.

(** ** Addresses

    A list cell is the head of bucket [b] or the [message_list] member of the
    message allocated at address [a]; [Nowhere] is a pointer value that names
    no cell (an uninitialised pointer, or the two poison values). *)
Inductive lnode :=
| Bucket (b : Z)
| Msg (a : Z)
| Nowhere (k : Z).

#[export] Instance lnode_eq_dec : EqDecision lnode.
Proof. solve_decision. Defined.

#[export] Instance lnode_countable : Countable lnode.
Proof.
  refine (inj_countable'
    (λ n, match n with Bucket b => inl b | Msg a => inr (inl a) | Nowhere k => inr (inr k) end)
    (λ s, match s with inl b => Bucket b | inr (inl a) => Msg a | inr (inr k) => Nowhere k end) _).
  by intros [].
Defined.

Abbreviation links_t := (gmap lnode (list_head lnode)).

Definition junk_cell : list_head lnode := ListCell (Nowhere 0) (Nowhere 0).

(** ** State *)

Record message_struct := MessageStruct {
  sender : Z;
  receiver : Z;
  message : list Z;
  msg_length : Z
}.

(** [msgs] holds the live messages by address; [lock] is the count of the
    semaphore. *)
Record mailbox := Mailbox {
  links : links_t;
  msgs : gmap Z message_struct;
  lock : Z
}.

(** The statically allocated mailbox before [init_mailbox]. *)
Definition bucket_heads : list Z := seqZ 0 MAILBOX_NUMBER_BUCKETS.

Definition static_mailbox : mailbox :=
  Mailbox (list_to_map ((λ b, (Bucket b, junk_cell)) <$> bucket_heads)) ∅ 0.

(** ** Initialisation *)

Fixpoint init_buckets (bs : list Z) (m : links_t) : outcome links_t :=
  match bs with
  | [] => Ret m
  | i :: bs' => m ← INIT_LIST_HEAD (Bucket i) m; init_buckets bs' m
  end.

Definition init_mailbox (st : mailbox) : outcome mailbox :=
  m ← init_buckets bucket_heads (links st);
  Ret (Mailbox m (msgs st) 1).

(** [pid % 128] on a signed [pid], converted to [size_t]. *)
Definition mailbox_hash (pid : Z) : Z := u64 (Z.rem pid MAILBOX_NUMBER_BUCKETS).

(** [&mailbox.message_lists[box]]: outside the array there is no such cell. *)
Definition bucket_addr (box : Z) : outcome lnode :=
  if (0 <=? box) && (box <? MAILBOX_NUMBER_BUCKETS) then Ret (Bucket box) else Undef.

(** The semaphore operations of an uncontended call; a task that finds the
    count at zero waits. *)
Definition down (st : mailbox) : outcome mailbox :=
  if 0 <? lock st then Ret (Mailbox (links st) (msgs st) (lock st - 1)) else NoFuel.

Definition up (st : mailbox) : mailbox :=
  Mailbox (links st) (msgs st) (lock st + 1).

(** ** Sending

    [user] is the readable memory at [buff], [kmsg] and [kbuf] what the two
    [kmalloc] calls return.  [copy_from_user] copies as much as is readable and
    zeroes the rest of the destination. *)
Definition copied (n : Z) (user : list Z) : Z := Z.min n (Z.of_nat (length user)).

Definition copy_from_user (n : Z) (user : list Z) : list Z * Z :=
  let k := copied n user in
  (take (Z.to_nat k) user ++ replicate (Z.to_nat (n - k)) 0, n - k).

(** [sys_mysend] up to the release of the lock. *)
Definition mysend_post (current_pid pid : Z) (user : list Z) (n : Z)
    (kmsg kbuf : option Z) (st : mailbox) : outcome (Z * mailbox) :=
  let box := mailbox_hash pid in
  match kmsg with
  | None => Undef
  | Some a =>
    if negb (n =? 0) && negb (bool_decide (is_Some kbuf)) then Undef else
    let '(buf, rest) := copy_from_user n user in
    let uncopied := u32 rest in
    let msg := MessageStruct current_pid pid buf (s32 (n - uncopied)) in
    let st := Mailbox (<[Msg a := junk_cell]> (links st)) (<[a := msg]> (msgs st)) (lock st) in
    m ← INIT_LIST_HEAD (Msg a) (links st);
    st ← down (Mailbox m (msgs st) (lock st));
    head ← bucket_addr box;
    m ← list_add_tail head (Msg a) (links st);
    Ret (a, up (Mailbox m (msgs st) (lock st)))
  end.

(** The final [return msg->length], after the lock has been released. *)
Definition mysend_ret (a : Z) (st : mailbox) : outcome Z :=
  match msgs st !! a with Some msg => Ret (msg_length msg) | None => Undef end.

Definition sys_mysend (current_pid pid : Z) (user : list Z) (n : Z)
    (kmsg kbuf : option Z) (st : mailbox) : outcome (Z * mailbox) :=
  '(a, st) ← mysend_post current_pid pid user n kmsg kbuf st;
  r ← mysend_ret a st;
  Ret (r, st).

(** ** Receiving *)

Definition matches (current_pid pid : Z) (msg : message_struct) : bool :=
  (receiver msg =? current_pid) && ((pid <? 0) || (sender msg =? pid)).

(** The [list_for_each_entry_safe] loop: the matching message is unlinked. *)
Fixpoint receive_loop (fuel : nat) (current_pid pid : Z) (ms : gmap Z message_struct)
    (head pos nxtp : lnode) (m : links_t) : outcome (option Z * links_t) :=
  match fuel with
  | O => NoFuel
  | S fuel =>
    if decide (pos = head) then Ret (None, m) else
    match pos with
    | Msg a =>
      match ms !! a with
      | None => Undef
      | Some msg =>
        if matches current_pid pid msg then
          m ← list_del (Nowhere 1) (Nowhere 2) pos m;
          Ret (Some a, m)
        else
          n ← ld_next m nxtp;
          receive_loop fuel current_pid pid ms head nxtp n m
      end
    | _ => Undef
    end
  end.

(** [room] is the number of writable bytes at [buff]; the result is the return
    value and the bytes stored there. *)
Definition sys_myreceive (fuel : nat) (current_pid pid : Z) (room n : Z) (st : mailbox)
    : outcome (Z * list Z * mailbox) :=
  let box := mailbox_hash current_pid in
  st ← down st;
  head ← bucket_addr box;
  pos ← ld_next (links st) head;
  nxtp ← ld_next (links st) pos;
  '(found, m) ← receive_loop fuel current_pid pid (msgs st) head pos nxtp (links st);
  let st := up (Mailbox m (msgs st) (lock st)) in
  match found with
  | None => Ret (0, [], st)
  | Some a =>
    match msgs st !! a with
    | None => Undef
    | Some msg =>
      let minimum := if n <? u64 (msg_length msg) then n else u64 (msg_length msg) in
      let k := Z.min minimum room in
      let uncopied := u32 (minimum - k) in
      if Z.of_nat (length (message msg)) <? k then Undef else
      Ret (s64 (minimum - uncopied), take (Z.to_nat k) (message msg),
           Mailbox (delete (Msg a) (links st)) (delete a (msgs st)) (lock st))
    end
  end.

(** ** What a mailbox holds

    [σ b] is the message that bucket [b] holds, if any, with its address.  The
    ring of a bucket never has more than one entry. *)
Definition msg_ok (msg : message_struct) : Prop :=
  0 ≤ msg_length msg ≤ Z.of_nat (length (message msg)) ∧ msg_length msg < 2 ^ 31.

Definition entries (o : option (Z * message_struct)) : list lnode :=
  match o with Some (a, _) => [Msg a] | None => [] end.

Definition bucket_rep (st : mailbox) (b : Z) (o : option (Z * message_struct)) : Prop :=
  is_list (links st) (Bucket b) (entries o) ∧
  match o with
  | Some (a, msg) => msgs st !! a = Some msg ∧ mailbox_hash (receiver msg) = b ∧ msg_ok msg
  | None => True
  end.

Definition mailbox_rep (st : mailbox) (σ : Z → option (Z * message_struct)) : Prop :=
  lock st = 1 ∧ ∀ b, 0 ≤ b < MAILBOX_NUMBER_BUCKETS → bucket_rep st b (σ b).

(** The message a call of [mysend] builds. *)
Definition sent_msg (current_pid pid : Z) (user : list Z) (n : Z) : message_struct :=
  MessageStruct current_pid pid (copy_from_user n user).1 (copied n user).

(** ** Lemmas *)

Lemma mailbox_hash_nonneg pid : 0 ≤ pid → mailbox_hash pid = pid mod 128.
Proof.
  intros. unfold mailbox_hash, MAILBOX_NUMBER_BUCKETS. rewrite Z.rem_mod_nonneg by lia.
  apply wrapu_small. pose proof (Z.mod_pos_bound pid 128). lia.
Qed.

Lemma mailbox_hash_range pid : 0 ≤ pid → 0 ≤ mailbox_hash pid < MAILBOX_NUMBER_BUCKETS.
Proof. intros. rewrite mailbox_hash_nonneg by done. apply Z.mod_pos_bound. done. Qed.

Lemma bucket_addr_in b : 0 ≤ b < MAILBOX_NUMBER_BUCKETS → bucket_addr b = Ret (Bucket b).
Proof. intros. unfold bucket_addr. zcase; simpl; done || lia. Qed.

Lemma bucket_addr_out b : ¬ (0 ≤ b < MAILBOX_NUMBER_BUCKETS) → bucket_addr b = Undef.
Proof. intros. unfold bucket_addr. zcase; simpl; done || lia. Qed.

Lemma copied_range n user : 0 ≤ n → 0 ≤ copied n user ≤ n.
Proof. unfold copied. lia. Qed.

Lemma copy_from_user_length n user :
  0 ≤ n → length (copy_from_user n user).1 = Z.to_nat n.
Proof.
  intros. unfold copy_from_user, copied. simpl.
  rewrite length_app, length_take, length_replicate. lia.
Qed.

Lemma sent_msg_ok p q user n : 0 ≤ n < 2 ^ 31 → msg_ok (sent_msg p q user n).
Proof.
  intros. unfold msg_ok, sent_msg. cbn [msg_length message].
  rewrite copy_from_user_length by lia. pose proof (copied_range n user). lia.
Qed.

(** A ring of another bucket is untouched by an operation on cells outside it. *)
Lemma bucket_rep_frame st st' b o :
  (∀ k, k ∈ Bucket b :: entries o → links st' !! k = links st !! k) →
  (∀ a msg, o = Some (a, msg) → msgs st' !! a = msgs st !! a) →
  bucket_rep st b o → bucket_rep st' b o.
Proof.
  intros HL HM [Hl Hm]. split; [by eapply is_list_frame|].
  destruct o as [[a msg]|]; [|done]. by rewrite (HM _ _ eq_refl).
Qed.

(** ** Initialisation *)

Lemma init_buckets_spec bs m :
  NoDup bs → (∀ b, b ∈ bs → is_Some (m !! Bucket b)) →
  ∃ m', init_buckets bs m = Ret m' ∧ (∀ b, b ∈ bs → is_list m' (Bucket b) []) ∧
    (∀ k, (∀ b, b ∈ bs → k ≠ Bucket b) → m' !! k = m !! k).
Proof.
  revert m. induction bs as [|i bs IH]; intros m Hnd Hm; simpl; [naive_solver set_solver|].
  apply NoDup_cons in Hnd as [Hi Hnd].
  destruct (INIT_LIST_HEAD_spec m (Bucket i)) as (m1 & -> & D1 & L1 & F1); [set_solver|]. simpl.
  destruct (IH m1) as (m2 & -> & L2 & F2); [done| |].
  { intros b Hb. eapply is_Some_dom; [exact D1|]. set_solver. }
  exists m2. split; [done|]. split.
  - intros b Hb. apply elem_of_cons in Hb as [->|Hb]; [|by apply L2].
    eapply is_list_frame; [|exact L1]. intros k Hk.
    apply list_elem_of_singleton in Hk as ->. apply F2. intros b Hb [=->]. done.
  - intros k Hk. rewrite F2, F1; [done|..]; set_solver.
Qed.

Lemma static_bucket b :
  0 ≤ b < MAILBOX_NUMBER_BUCKETS → links static_mailbox !! Bucket b = Some junk_cell.
Proof.
  intros Hb. apply elem_of_list_to_map.
  - rewrite <- list_fmap_compose. apply NoDup_fmap; [by intros ?? [=]|]. apply NoDup_seqZ.
  - apply list_elem_of_fmap. exists b. split; [done|]. by apply elem_of_seqZ.
Qed.

Lemma init_mailbox_spec :
  ∃ st, init_mailbox static_mailbox = Ret st ∧ mailbox_rep st (λ _, None) ∧ msgs st = ∅.
Proof.
  destruct (init_buckets_spec bucket_heads (links static_mailbox)) as (m & E & L & _).
  - apply NoDup_seqZ.
  - intros b Hb%elem_of_seqZ. rewrite static_bucket; [done|lia].
  - unfold init_mailbox. rewrite E. eexists. split; [done|]. split; [|done].
    split; [done|]. intros b Hb. split; [|done]. apply L, elem_of_seqZ. lia.
Qed.

(** ** The system calls *)

Section calls.
Context (st : mailbox) (σ : Z → option (Z * message_struct)).
Context (Hrep : mailbox_rep st σ).

Lemma mysend_post_spec p q user n a kb :
  0 ≤ q → 0 ≤ n < 2 ^ 31 → msgs st !! a = None →
  ∃ st', mysend_post p q user n (Some a) (Some kb) st = Ret (a, st') ∧
    mailbox_rep st' (<[mailbox_hash q := Some (a, sent_msg p q user n)]> σ) ∧
    msgs st' = <[a := sent_msg p q user n]> (msgs st).
Proof.
  intros Hq Hn Ha. pose proof (mailbox_hash_range q Hq) as Hb. set (b := mailbox_hash q) in *.
  destruct Hrep as [Hlock Hbs]. unfold mysend_post. fold b.
  rewrite bool_decide_true by done. rewrite andb_false_r.
  assert (s32 (n - u32 (n - copied n user)) = copied n user) as Elen.
  { pose proof (copied_range n user). rewrite (wrapu_small 32), wraps_small; lia. }
  unfold copy_from_user at 1. rewrite Elen. cbn [links msgs lock].
  set (m0 := <[Msg a:=junk_cell]> (links st)).
  destruct (INIT_LIST_HEAD_spec m0 (Msg a)) as (m1 & E1 & D1 & L1 & F1).
  { unfold m0. rewrite lookup_insert_eq. done. }
  rewrite E1. simpl. unfold down. simpl. rewrite Hlock. simpl.
  rewrite bucket_addr_in by done. simpl.
  destruct (list_add_tail_spec m1 (Msg a) [] (Bucket b)) as (m2 & E2 & D2 & L2 & F2).
  { done. } { set_solver. }
  { rewrite F1 by done. unfold m0. rewrite lookup_insert_ne by done.
    eapply is_list_dom; [apply (Hbs b Hb)|set_solver]. }
  rewrite E2. simpl. eexists. split; [done|]. split; [|done].
  split; [done|]. intros b' Hb'. destruct (decide (b = b')) as [<-|Hne].
  - rewrite fn_lookup_insert. split; [by apply is_list_rotate in L2|].
    simpl. rewrite lookup_insert_eq. split_and!; [done..|]. by apply sent_msg_ok.
  - rewrite fn_lookup_insert_ne by done. eapply bucket_rep_frame, Hbs; [|..|done].
    + destruct (Hbs b' Hb') as [_ Hm]. intros k Hk. simpl.
      assert (k ≠ Msg a ∧ k ≠ Bucket b) as [].
      { destruct (σ b') as [[a' msg]|]; simpl in Hk; [|set_solver].
        destruct Hm as [Hm _]. set_solver. }
      rewrite F2, F1 by set_solver. unfold m0. by rewrite lookup_insert_ne.
    + intros a' msg Eσ. destruct (Hbs b' Hb') as [_ Hm]. rewrite Eσ in Hm.
      destruct Hm as [Hm _]. simpl. rewrite lookup_insert_ne; [done|]. congruence.
Qed.

Lemma receive_loop_empty fuel p q b m ms l :
  receive_loop (S fuel) p q ms (Bucket b) (Bucket b) m l = Ret (None, l).
Proof. simpl. by rewrite decide_True. Qed.

Lemma receive_loop_msg fuel p q b a n ms msg l :
  ms !! a = Some msg →
  receive_loop (S fuel) p q ms (Bucket b) (Msg a) n l =
    if matches p q msg then
      m ← list_del (Nowhere 1) (Nowhere 2) (Msg a) l; Ret (Some a, m)
    else n' ← ld_next l n; receive_loop fuel p q ms (Bucket b) n n' l.
Proof. intros E. simpl. by rewrite E. Qed.

Opaque receive_loop.

(** An empty bucket, or a message for another receiver or sender: nothing
    changes. *)
Lemma sys_myreceive_none fuel p q room n :
  0 ≤ p →
  (∀ a msg, σ (mailbox_hash p) = Some (a, msg) → matches p q msg = false) →
  ∃ st', sys_myreceive (S (S fuel)) p q room n st = Ret (0, [], st') ∧
    mailbox_rep st' σ ∧ msgs st' = msgs st.
Proof.
  intros Hp Hno. pose proof (mailbox_hash_range p Hp) as Hb. set (b := mailbox_hash p) in *.
  destruct Hrep as [Hlock Hbs]. pose proof (Hbs b Hb) as [HL HM].
  unfold sys_myreceive, down. fold b. rewrite Hlock. simpl.
  rewrite bucket_addr_in by done. simpl.
  assert (is_list (links st) (Bucket b) (entries (σ b)) →
    ∃ n0 n1, ld_next (links st) (Bucket b) = Ret n0 ∧ ld_next (links st) n0 = Ret n1 ∧
      receive_loop (S (S fuel)) p q (msgs st) (Bucket b) n0 n1 (links st) = Ret (None, links st)) as Hloop.
  { intros HL'. destruct (σ b) as [[a msg]|] eqn:Eσ; simpl in HL'.
    - destruct HL' as [_ (E1 & _ & E2 & _)]. exists (Msg a), (Bucket b).
      split_and!; [by apply ld_next_nxt..|]. destruct HM as (HM & _).
      rewrite (receive_loop_msg _ _ _ _ _ _ _ msg), (Hno a msg) by done.
      rewrite (ld_next_nxt _ _ _ E1). apply receive_loop_empty.
    - destruct HL' as [_ [E1 _]]. exists (Bucket b), (Bucket b).
      split_and!; [by apply ld_next_nxt..|]. apply receive_loop_empty. }
  destruct (Hloop HL) as (n0 & n1 & -> & E & EL). simpl. rewrite E. simpl. rewrite EL. simpl. eexists. split; [done|]. split; [|done]. split; [done|].
  intros b' Hb'. by eapply bucket_rep_frame, Hbs.
Qed.

(** A matching message: its bytes are delivered and it leaves the mailbox. *)
Lemma sys_myreceive_some fuel p q room n a msg :
  0 ≤ p → 0 ≤ room → 0 ≤ n < 2 ^ 64 →
  σ (mailbox_hash p) = Some (a, msg) → matches p q msg = true →
  let k := Z.min (Z.min n (msg_length msg)) room in
  ∃ st', sys_myreceive (S (S fuel)) p q room n st = Ret (k, take (Z.to_nat k) (message msg), st') ∧
    mailbox_rep st' (<[mailbox_hash p := None]> σ) ∧ msgs st' = delete a (msgs st).
Proof.
  intros Hp Hroom Hn Eσ Hmatch k. pose proof (mailbox_hash_range p Hp) as Hb.
  set (b := mailbox_hash p) in *.
  destruct Hrep as [Hlock Hbs]. pose proof (Hbs b Hb) as HB. rewrite Eσ in HB.
  destruct HB as [HL (HM & Hh & Hok1 & Hok2)]. unfold sys_myreceive, down. fold b. rewrite Hlock. simpl.
  rewrite bucket_addr_in by done. simpl. pose proof HL as [_ (E1 & _ & E2 & _)].
  rewrite (ld_next_nxt _ _ _ E1). simpl. rewrite (ld_next_nxt _ _ _ E2). simpl.
  rewrite (receive_loop_msg _ _ _ _ _ _ _ msg), Hmatch by done.
  destruct (list_del_spec (Nowhere 1) (Nowhere 2) (links st) (Bucket b) [] (Msg a) [])
    as (m1 & E3 & D3 & L3 & P3 & F3); [done|].
  rewrite E3. simpl. rewrite HM.
  assert ((if n <? u64 (msg_length msg) then n else u64 (msg_length msg)) = Z.min n (msg_length msg)) as ->.
  { rewrite (wrapu_small 64) by lia. destruct (Z.ltb_spec n (msg_length msg)); lia. }
  fold k. assert (0 ≤ k ≤ msg_length msg) by lia.
  destruct (Z.ltb_spec (Z.of_nat (length (message msg))) k); [lia|].
  replace (s64 (Z.min n (msg_length msg) - u32 (Z.min n (msg_length msg) - k))) with k
    by (rewrite (wrapu_small 32), wraps_small; lia).
  eexists. split; [done|]. split; [|done]. split; [done|].
  intros b' Hb'. destruct (decide (b = b')) as [<-|Hne].
  - rewrite fn_lookup_insert. split; [|done]. simpl. eapply is_list_frame, L3.
    intros k' Hk'. apply list_elem_of_singleton in Hk' as ->. by rewrite lookup_delete_ne.
  - rewrite fn_lookup_insert_ne by done. pose proof (Hbs b' Hb') as [_ Hm].
    assert (∀ a' msg', σ b' = Some (a', msg') → a' ≠ a) as Hne'.
    { intros a' msg' E ->. rewrite E in Hm. destruct Hm as (Hm & Hh' & _). congruence. }
    eapply bucket_rep_frame, Hbs; [|..|done].
    + intros k' Hk'. simpl. assert (k' ≠ Msg a ∧ k' ≠ Bucket b) as [].
      { destruct (σ b') as [[a' msg']|] eqn:Eb; simpl in Hk'; [|set_solver].
        specialize (Hne' _ _ eq_refl). set_solver. }
      rewrite lookup_delete_ne by done. apply F3. set_solver.
    + intros a' msg' E. simpl. rewrite lookup_delete_ne; [done|]. intros <-. by eapply Hne'.
Qed.
End calls.

(** ** The contract: one slot per bucket *)

(** What a receive by [p] from [q] does to the slots. *)
Definition slot_receive (p q room n : Z) (σ : Z → option (Z * message_struct))
    : Z * list Z * (Z → option (Z * message_struct)) :=
  match σ (mailbox_hash p) with
  | Some (_, msg) =>
    if matches p q msg then
      let k := Z.min (Z.min n (msg_length msg)) room in
      (k, take (Z.to_nat k) (message msg), <[mailbox_hash p := None]> σ)
    else (0, [], σ)
  | None => (0, [], σ)
  end.

(** The state after boot. *)
Definition booted : mailbox :=
  match init_mailbox static_mailbox with Ret st => st | _ => static_mailbox end.

Lemma booted_rep : mailbox_rep booted (λ _, None) ∧ msgs booted = ∅.
Proof. unfold booted. destruct init_mailbox_spec as (st & -> & H1 & H2). done. Qed.

Opaque booted.

(** ** Interleavings

    [sys_mysend] reads the length of its message after it has released the
    lock, so the call takes two steps; a receive takes one, its work outside
    the critical section touching only the message it has unlinked. *)
Inductive thread :=
| Idle
| Posted (a : Z)
| Done (r : Z)
| Oops.

Inductive mstep : mailbox * gmap Z thread → mailbox * gmap Z thread → Prop :=
| step_post st st' ts p q user n a kb :
    ts !! p = Some Idle → 0 ≤ q → 0 ≤ n < 2 ^ 31 → msgs st !! a = None →
    mysend_post p q user n (Some a) (Some kb) st = Ret (a, st') →
    mstep (st, ts) (st', <[p := Posted a]> ts)
| step_ret st ts p a r :
    ts !! p = Some (Posted a) → mysend_ret a st = Ret r →
    mstep (st, ts) (st, <[p := Done r]> ts)
| step_oops st ts p a :
    ts !! p = Some (Posted a) → mysend_ret a st = Undef →
    mstep (st, ts) (st, <[p := Oops]> ts)
| step_receive st st' ts p q room n r bs :
    ts !! p = Some Idle → 0 ≤ p → 0 ≤ room → 0 ≤ n < 2 ^ 64 →
    sys_myreceive 2 p q room n st = Ret (r, bs, st') →
    mstep (st, ts) (st', <[p := Done r]> ts).

(** ** Theorems *)

Lemma sys_myreceive_slot st σ p q room n :
  mailbox_rep st σ → 0 ≤ p → 0 ≤ room → 0 ≤ n < 2 ^ 64 →
  ∃ st', sys_myreceive 2 p q room n st = Ret ((slot_receive p q room n σ).1, st') ∧
    mailbox_rep st' (slot_receive p q room n σ).2.
Proof.
  intros Hr Hp Hroom Hn. unfold slot_receive.
  destruct (σ (mailbox_hash p)) as [[a msg]|] eqn:E.
  - destruct (matches p q msg) eqn:Em.
    + destruct (sys_myreceive_some st σ Hr 0 p q room n a msg) as (st' & -> & H1 & _); eauto.
    + destruct (sys_myreceive_none st σ Hr 0 p q room n) as (st' & -> & H1 & _); [done| |eauto].
      intros ?? E'. rewrite E in E'. naive_solver.
  - destruct (sys_myreceive_none st σ Hr 0 p q room n) as (st' & -> & H1 & _); [done| |eauto].
    intros ?? E'. by rewrite E in E'.
Qed.

Lemma sys_mysend_slot st σ p q user n a kb :
  mailbox_rep st σ → 0 ≤ q → 0 ≤ n < 2 ^ 31 → msgs st !! a = None →
  ∃ st', sys_mysend p q user n (Some a) (Some kb) st = Ret (copied n user, st') ∧
    mailbox_rep st' (<[mailbox_hash q := Some (a, sent_msg p q user n)]> σ) ∧
    msgs st' = <[a := sent_msg p q user n]> (msgs st).
Proof.
  intros Hr Hq Hn Ha. destruct (mysend_post_spec st σ Hr p q user n a kb) as (st' & E & R & M);
    [done..|].
  unfold sys_mysend. rewrite E. simpl. unfold mysend_ret. rewrite M, lookup_insert_eq. simpl. eauto.
Qed.

(** C2: [sys_mysend] and [sys_myreceive] implement a table with one slot per
    bucket: a send returns the number of bytes it could read and fills the slot
    of the receiver's bucket, whatever the slot held before; a receive returns
    the message in the caller's slot if it is addressed to the caller and from
    the wanted sender (a negative sender stands for any), truncated to the
    caller's buffer, and empties the slot; otherwise it returns 0 and changes
    nothing. *)
Theorem mailbox_refines_slots st σ :
  mailbox_rep st σ →
  (∀ p q user n a kb, 0 ≤ q → 0 ≤ n < 2 ^ 31 → msgs st !! a = None →
    ∃ st', sys_mysend p q user n (Some a) (Some kb) st = Ret (copied n user, st') ∧
      mailbox_rep st' (<[mailbox_hash q := Some (a, sent_msg p q user n)]> σ)) ∧
  (∀ p q room n, 0 ≤ p → 0 ≤ room → 0 ≤ n < 2 ^ 64 →
    ∃ st', sys_myreceive 2 p q room n st = Ret ((slot_receive p q room n σ).1, st') ∧
      mailbox_rep st' (slot_receive p q room n σ).2).
Proof.
  intros Hr. split; [|eauto using sys_myreceive_slot].
  intros. edestruct (sys_mysend_slot st σ p q user n a kb) as (st' & E & R & _); eauto.
Qed.

Lemma mailbox_refines_slots_witness :
  ∃ st', sys_mysend 7 9 [1; 2; 3] 3 (Some 1000) (Some 2000) booted = Ret (3, st').
Proof.
  destruct (mailbox_refines_slots booted (λ _, None) (proj1 booted_rep)) as [Hs _].
  destruct (Hs 7 9 [1; 2; 3] 3 1000 2000) as (st' & E & _); [lia|lia| |by exists st'].
  rewrite (proj2 booted_rep). done.
Defined.

(** round trip: a message whose bytes are all readable is delivered intact
    to its receiver, who may name the sender or accept any, and the receive
    returns its length. *)
Theorem mysend_myreceive_roundtrip st σ p q from bs a kb room n :
  mailbox_rep st σ → msgs st !! a = None →
  0 ≤ q → from = p ∨ from < 0 → Z.of_nat (length bs) < 2 ^ 31 →
  Z.of_nat (length bs) ≤ room → Z.of_nat (length bs) ≤ n < 2 ^ 64 →
  ∃ st1 st2,
    sys_mysend p q bs (Z.of_nat (length bs)) (Some a) (Some kb) st = Ret (Z.of_nat (length bs), st1) ∧
    sys_myreceive 2 q from room n st1 = Ret (Z.of_nat (length bs), bs, st2).
Proof.
  intros Hr Ha Hq Hfrom Hbs Hroom Hn.
  destruct (sys_mysend_slot st σ p q bs (Z.of_nat (length bs)) a kb) as (st1 & E1 & R1 & _);
    [done..|lia|done|].
  destruct (sys_myreceive_slot st1 _ q from room n R1) as (st2 & E2 & _); [lia..|].
  exists st1, st2. rewrite E1. unfold copied. rewrite Z.min_id. split; [done|].
  rewrite E2. unfold slot_receive. rewrite fn_lookup_insert.
  assert (matches q from (sent_msg p q bs (Z.of_nat (length bs))) = true) as ->.
  { unfold matches, sent_msg. simpl. rewrite Z.eqb_refl. simpl.
    destruct Hfrom as [->|]; zcase; simpl; done || lia. }
  unfold sent_msg, copy_from_user, copied. simpl. rewrite !Z.min_id, Z.sub_diag. simpl.
  replace (Z.min (Z.min n (Z.of_nat (length bs))) room) with (Z.of_nat (length bs)) by lia.
  rewrite Nat2Z.id, app_nil_r, !firstn_all. done.
Qed.

Lemma mysend_myreceive_roundtrip_witness :
  ∃ st1 st2,
    sys_mysend 7 9 [104; 105] 2 (Some 1000) (Some 2000) booted = Ret (2, st1) ∧
    sys_myreceive 2 9 (-1) 64 64 st1 = Ret (2, [104; 105], st2).
Proof.
  apply (mysend_myreceive_roundtrip booted (λ _, None) 7 9 (-1) [104; 105] 1000 2000 64 64);
    [apply booted_rep|by rewrite (proj2 booted_rep)|..]; simpl; lia.
Defined.

(** because [list_add_tail] is called with its arguments exchanged, a send
    unlinks what its bucket held: after sends to [q1] and then to [q2] of the
    same bucket, only the second message is there.  Receiver [q1], if different,
    gets nothing; if the same, it gets the second message and then nothing. *)
Theorem mysend_discards_pending st σ p1 q1 u1 n1 a1 kb1 p2 q2 u2 n2 a2 kb2 :
  mailbox_rep st σ → 0 ≤ q1 → 0 ≤ q2 → mailbox_hash q1 = mailbox_hash q2 →
  0 ≤ n1 < 2 ^ 31 → 0 ≤ n2 < 2 ^ 31 →
  msgs st !! a1 = None → msgs st !! a2 = None → a1 ≠ a2 →
  ∃ r1 st1 r2 st2,
    sys_mysend p1 q1 u1 n1 (Some a1) (Some kb1) st = Ret (r1, st1) ∧
    sys_mysend p2 q2 u2 n2 (Some a2) (Some kb2) st1 = Ret (r2, st2) ∧
    is_list (links st2) (Bucket (mailbox_hash q1)) [Msg a2] ∧
    (q1 ≠ q2 → ∃ st3, sys_myreceive 2 q1 (-1) (2 ^ 20) (2 ^ 20) st2 = Ret (0, [], st3)) ∧
    (q1 = q2 → ∃ r bs st3 st4, sys_myreceive 2 q1 (-1) (2 ^ 20) (2 ^ 20) st2 = Ret (r, bs, st3) ∧
      bs = take (Z.to_nat (Z.min (2 ^ 20) (copied n2 u2))) u2 ∧
      sys_myreceive 2 q1 (-1) (2 ^ 20) (2 ^ 20) st3 = Ret (0, [], st4)).
Proof.
  intros Hr Hq1 Hq2 Hh Hn1 Hn2 Ha1 Ha2 Hne.
  destruct (sys_mysend_slot st σ p1 q1 u1 n1 a1 kb1) as (st1 & E1 & R1 & M1); [done..|].
  destruct (sys_mysend_slot st1 _ p2 q2 u2 n2 a2 kb2 R1) as (st2 & E2 & R2 & M2);
    [done..|by rewrite M1, lookup_insert_ne|].
  rewrite Hh in R2.
  exists (copied n1 u1), st1, (copied n2 u2), st2. split; [done|]. split; [done|].
  destruct (sys_myreceive_slot st2 _ q1 (-1) (2 ^ 20) (2 ^ 20) R2) as (st3 & E3 & R3); [lia..|].
  unfold slot_receive in E3, R3. rewrite Hh, fn_lookup_insert in E3, R3. split_and!.
  - rewrite Hh. destruct R2 as [_ R2]. specialize (R2 _ (mailbox_hash_range q2 Hq2)).
    rewrite fn_lookup_insert in R2. apply R2.
  - intros Hq. exists st3. rewrite E3. unfold matches, sent_msg. simpl.
    destruct (Z.eqb_spec q2 q1); [congruence|done].
  - intros <-.
    assert (matches q1 (-1) (sent_msg p2 q1 u2 n2) = true) as Em
      by (unfold matches; simpl; by rewrite Z.eqb_refl).
    rewrite Em in E3, R3. simpl in R3.
    destruct (sys_myreceive_none st3 _ R3 0 q1 (-1) (2 ^ 20) (2 ^ 20)) as (st4 & E4 & _);
      [done|by rewrite fn_lookup_insert|].
    eexists _, _, st3, st4. split; [exact E3|]. split; [|done].
    pose proof (copied_range n2 u2 ltac:(lia)).
    assert (copied n2 u2 ≤ Z.of_nat (length u2)) by (unfold copied; lia).
    unfold sent_msg. cbn [msg_length message copy_from_user fst].
    replace (Z.min (Z.min (2 ^ 20) (copied n2 u2)) (2 ^ 20)) with (Z.min (2 ^ 20) (copied n2 u2)) by lia.
    rewrite take_app_le by (rewrite length_take; lia). rewrite take_take. f_equal. lia.
Qed.

Lemma mysend_discards_pending_witness :
  ∃ r1 st1 r2 st2,
    sys_mysend 7 9 [1] 1 (Some 1000) (Some 2000) booted = Ret (r1, st1) ∧
    sys_mysend 8 137 [2] 1 (Some 1001) (Some 2001) st1 = Ret (r2, st2) ∧
    ∃ st3, sys_myreceive 2 9 (-1) (2 ^ 20) (2 ^ 20) st2 = Ret (0, [], st3).
Proof.
  destruct (mysend_discards_pending booted (λ _, None) 7 9 [1] 1 1000 2000 8 137 [2] 1 1001 2001)
    as (r1 & st1 & r2 & st2 & E1 & E2 & _ & H & _);
    [apply booted_rep|lia|lia|done|lia|lia|by rewrite (proj2 booted_rep)..|lia|].
  exists r1, st1, r2, st2. split; [done|]. split; [done|]. by apply H.
Defined.

(** [sys_mysend] does not check its [pid] argument: a negative [pid] that is
    not a multiple of the number of buckets makes the bucket index run outside
    the array, in every state and for every message. *)
Theorem mysend_negative_pid st p q user n a kb :
  lock st = 1 → - 2 ^ 31 ≤ q < 0 → Z.rem q MAILBOX_NUMBER_BUCKETS ≠ 0 →
  sys_mysend p q user n (Some a) (Some kb) st = Undef.
Proof.
  intros Hl Hq Hr. unfold sys_mysend, mysend_post.
  rewrite bool_decide_true by done. rewrite andb_false_r.
  unfold copy_from_user. cbn [links msgs lock].
  edestruct (INIT_LIST_HEAD_spec (<[Msg a:=junk_cell]> (links st)) (Msg a)) as (m1 & -> & _).
  { by rewrite lookup_insert_eq. }
  unfold down. simpl. rewrite Hl. simpl. rewrite bucket_addr_out; [done|].
  unfold mailbox_hash, MAILBOX_NUMBER_BUCKETS in *.
  pose proof (Z.rem_bound_pos (- q) 128 ltac:(lia) ltac:(lia)) as B.
  rewrite Z.rem_opp_l in B by lia. unfold wrapu.
  rewrite <- (Z_mod_plus_full _ 1), Z.mod_small; lia.
Qed.

Lemma mysend_negative_pid_witness :
  sys_mysend 7 (-1) [1] 1 (Some 1000) (Some 2000) booted = Undef.
Proof. apply mysend_negative_pid; [apply booted_rep|lia|done]. Defined.

Lemma mstep_rep c c' σ :
  mstep c c' → mailbox_rep c.1 σ → ∃ σ', mailbox_rep c'.1 σ'.
Proof.
  intros Hstep Hr. destruct Hstep as [st st' ts p q user n a kb _ Hq Hn Ha E| | |
    st st' ts p q room n r bs _ Hp Hroom Hn E]; cbn [fst] in *; [|eauto..|].
  - edestruct (mysend_post_spec st σ Hr p q user n a kb) as (st2 & E2 & R & _); [done..|].
    rewrite E in E2. injection E2 as <-. eauto.
  - edestruct (sys_myreceive_slot st σ p q room n Hr) as (st2 & E2 & R); [done..|].
    rewrite E in E2. injection E2 as _ <-. eauto.
Qed.

(** in every interleaving of sends and receives from boot, each bucket's
    list stays a well-formed ring of at most one live message that hashes to
    that bucket, and the lock is free between critical sections. *)
Theorem mailbox_reachable_rep ts c :
  rtc mstep (booted, ts) c → ∃ σ, mailbox_rep c.1 σ.
Proof.
  intros Hs. assert (∃ σ, mailbox_rep (booted, ts).1 σ) as Hi
    by (eexists; apply booted_rep).
  revert Hi. generalize (booted, ts) as c0, Hs. clear Hs.
  induction 1 as [|c0 c1 c2 Hst _ IH]; [done|]. intros [σ Hr].
  apply IH. eapply mstep_rep; [done|exact Hr].
Qed.

Lemma mailbox_reachable_rep_witness :
  ∃ c σ, rtc mstep (booted, {[7 := Idle]}) c ∧ c ≠ (booted, {[7 := Idle]}) ∧ mailbox_rep c.1 σ.
Proof.
  destruct (mysend_post_spec booted _ (proj1 booted_rep) 7 9 [1] 1 1000 2000)
    as (st' & E & _ & M); [lia|lia|by rewrite (proj2 booted_rep)|].
  assert (rtc mstep (booted, {[7 := Idle]}) (st', <[7 := Posted 1000]> {[7 := Idle]})) as Hs.
  { apply rtc_once. eapply step_post, E; [done|lia|lia|by rewrite (proj2 booted_rep)]. }
  destruct (mailbox_reachable_rep _ _ Hs) as [σ Hr].
  eexists _, σ. split; [exact Hs|]. split; [|exact Hr]. intros Ht.
  apply (f_equal snd), (f_equal (lookup 7)) in Ht. cbn [snd] in Ht.
  by rewrite lookup_insert_eq, lookup_singleton_eq in Ht.
Defined.

(** the return of [sys_mysend] races with the receiver: there is an
    interleaving in which the message is received and freed between the release
    of the lock and the read of its length, which then hits freed memory. *)
Theorem mysend_use_after_free :
  ∃ st ts, rtc mstep (booted, {[7 := Idle; 9 := Idle]}) (st, ts) ∧ ts !! 7 = Some Oops.
Proof.
  destruct (mysend_post_spec booted _ (proj1 booted_rep) 7 9 [1] 1 1000 2000)
    as (st1 & E1 & R1 & M1); [lia|lia|by rewrite (proj2 booted_rep)|].
  destruct (sys_myreceive_some st1 _ R1 0 9 (-1) 64 64 1000 (sent_msg 7 9 [1] 1))
    as (st2 & E2 & R2 & M2); [lia..|by rewrite fn_lookup_insert|done|].
  exists st2, (<[7 := Oops]> (<[9 := Done 1]> (<[7 := Posted 1000]> {[7 := Idle; 9 := Idle]}))).
  split; [|by rewrite lookup_insert_eq].
  eapply rtc_l; [eapply step_post, E1; [done|lia|lia|by rewrite (proj2 booted_rep)]|].
  eapply rtc_l; [eapply step_receive, E2; [done|lia..]|].
  apply rtc_once. eapply step_oops; [done|].
  unfold mysend_ret. by rewrite M2, lookup_delete_eq.
Qed.
