(* ===== verification/Semaphore.v ===== *)
(** Kernel semaphores: the fast paths of [include/asm-x86_64/semaphore.h] and
    the contended paths of [lib/semaphore-sleepers.c], as steps of a system of
    threads.  The locked regions of the slow paths are single steps; the gap
    between the atomic decrement or increment and the slow path, and the sleep
    in [schedule()], are visible to the other threads. *)

From S2P Require Import Prelude.

(** ** State *)

(** The largest [int]. *)
Definition INT_LIMIT : Z := 2 ^ 31 - 1.

(** [count] is an [atomic_t], an [int] that wraps around. *)
Record semaphore := Sem { count : Z; sleepers : Z; wait : list nat }.

(** Which entry point a thread is in. *)
Inductive kind := Down | Down_interruptible | Down_trylock.

(** Where a thread is: outside; past the failed decrement and before the slow
    path; in [schedule()] on the wait queue; made runnable again; owner; past the
    increment in [up] and before [__up]. *)
Inductive pc :=
| Out
| Failed (k : kind)
| Asleep (k : kind)
| Woken (k : kind)
| Held
| Waking.

#[export] Instance kind_eq_dec : EqDecision kind.
Proof. solve_decision. Defined.

#[export] Instance pc_eq_dec : EqDecision pc.
Proof. solve_decision. Defined.

(** [permits] is a ghost counter: the initial value plus the increments minus
    the acquisitions so far. *)
Record sys := Sys { sem : semaphore; ts : list pc; permits : Z }.

Definition sema_init (val : Z) (n : nat) : sys := Sys (Sem val 0 []) (replicate n Out) val.

(** ** Operations *)

(** [wake_up] on exclusive waiters: the first one that is asleep is made
    runnable. *)
Fixpoint wake_up (q : list nat) (ts : list pc) : list pc :=
  match q with
  | [] => ts
  | t :: q' =>
    match ts !! t with
    | Some (Asleep k) => <[t := Woken k]> ts
    | _ => wake_up q' ts
    end
  end.

(** The atomic decrement and the test of the sign of its result ([decl], [jns]),
    common to [down], [down_interruptible] and [down_trylock]. *)
Definition down_fast (k : kind) (t : nat) (s : sys) : sys :=
  let '(Sem c sl q) := sem s in
  let c := s32 (c - 1) in
  if 0 <=? c then Sys (Sem c sl q) (<[t := Held]> (ts s)) (permits s - 1)
  else Sys (Sem c sl q) (<[t := Failed k]> (ts s)) (permits s).

(** The atomic increment of [up]; a result that is not positive calls [__up].  The
    test is [jg], which is for the sum before it wraps around. *)
Definition up_fast (t : nat) (s : sys) : sys :=
  let '(Sem c sl q) := sem s in
  Sys (Sem (s32 (c + 1)) sl q) (<[t := if 0 <? c + 1 then Out else Waking]> (ts s)) (permits s + 1).

Definition __up (t : nat) (s : sys) : sys :=
  Sys (sem s) (wake_up (wait (sem s)) (<[t := Out]> (ts s))) (permits s).

(** Leaving the wait queue and waking the next sleeper. *)
Definition leave_queue (t : nat) (p : pc) (c sl : Z) (q : list nat) (ts : list pc) (n : Z) : sys :=
  let q := filter (λ u, u ≠ t) q in
  Sys (Sem c sl q) (wake_up q (<[t := p]> ts)) n.

(** One pass of the loop of [__down] and [__down_interruptible], under the lock
    of the wait queue. *)
Definition down_loop (k : kind) (signal_pending : bool) (t : nat) (s : sys) : sys :=
  let '(Sem c sl q) := sem s in
  if bool_decide (k = Down_interruptible) && signal_pending then
    leave_queue t Out (s32 (c + sl)) 0 q (ts s) (permits s)
  else if 0 <=? s32 (c + (sl - 1)) then
    leave_queue t Held (s32 (c + (sl - 1))) 0 q (ts s) (permits s - 1)
  else
    Sys (Sem (s32 (c + (sl - 1))) 1 q) (<[t := Asleep k]> (ts s)) (permits s).

(** Entry of [__down] and [__down_interruptible]: join the queue, count as a
    sleeper, first pass. *)
Definition __down (k : kind) (signal_pending : bool) (t : nat) (s : sys) : sys :=
  let '(Sem c sl q) := sem s in
  down_loop k signal_pending t (Sys (Sem c (sl + 1) (q ++ [t])) (ts s) (permits s)).

Definition __down_trylock (t : nat) (s : sys) : sys :=
  let '(Sem c sl q) := sem s in
  let c := s32 (c + (sl + 1)) in
  let ts := <[t := Out]> (ts s) in
  Sys (Sem c 0 q) (if 0 <=? c then wake_up q ts else ts) (permits s).

(** ** Steps *)

(** A system of threads that use the semaphore.  In the [disciplined] system
    only an owner releases, as a mutex requires; otherwise any thread may, as
    for a semaphore that counts events, as long as the permits fit in the counter.
    A pending signal makes an interruptible sleeper runnable. *)
Inductive thread_step (disciplined : bool) : sys → sys → Prop :=
| step_down k t s :
    ts s !! t = Some Out → thread_step disciplined s (down_fast k t s)
| step_slow k sp t s :
    k ≠ Down_trylock → ts s !! t = Some (Failed k) → thread_step disciplined s (__down k sp t s)
| step_retry k sp t s :
    ts s !! t = Some (Woken k) → thread_step disciplined s (down_loop k sp t s)
| step_signal t s :
    ts s !! t = Some (Asleep Down_interruptible) →
    thread_step disciplined s (Sys (sem s) (<[t := Woken Down_interruptible]> (ts s)) (permits s))
| step_trylock t s :
    ts s !! t = Some (Failed Down_trylock) → thread_step disciplined s (__down_trylock t s)
| step_up t s :
    ts s !! t = Some Held ∨ (disciplined = false ∧ ts s !! t = Some Out) →
    (disciplined = false → permits s < INT_LIMIT) →
    thread_step disciplined s (up_fast t s)
| step_wake t s :
    ts s !! t = Some Waking → thread_step disciplined s (__up t s).

(** There are fewer threads than an [int] can count; the kernel has at most four
    million process numbers. *)
Definition step (disciplined : bool) (s s' : sys) : Prop :=
  Z.of_nat (length (ts s)) ≤ INT_LIMIT ∧ thread_step disciplined s s'.

(** ** Specification: a counting semaphore *)

Inductive counting_step : Z → Z → Prop :=
| counting_P n : 0 < n → counting_step n (n - 1)
| counting_V n : counting_step n (n + 1).

(** ** Invariant *)

Definition is_failed (p : pc) : bool := match p with Failed _ => true | _ => false end.

Definition is_held (p : pc) : bool := match p with Held => true | _ => false end.

Definition is_asleep (p : pc) : bool := match p with Asleep _ => true | _ => false end.

(** Threads that are about to look at the semaphore or to wake a sleeper. *)
Definition is_active (p : pc) : bool :=
  match p with Failed _ | Woken _ | Waking => true | _ => false end.

(** Threads on the wait queue. *)
Definition is_queued (p : pc) : bool :=
  match p with Asleep _ | Woken _ => true | _ => false end.

Record inv (s : sys) : Prop := {
  inv_count : count (sem s) = permits s - cnt is_failed (ts s) - sleepers (sem s);
  inv_sleepers : sleepers (sem s) = 0 ∨ sleepers (sem s) = 1;
  inv_permits : 0 ≤ permits s ≤ INT_LIMIT;
  inv_queue : ∀ t p, ts s !! t = Some p → is_queued p = true → t ∈ wait (sem s);
  inv_wakeup : 0 < permits s ∨ sleepers (sem s) = 0 →
    0 < cnt is_asleep (ts s) → 0 < cnt is_active (ts s)
}.

(** ** Lemmas *)

Lemma wake_up_cases q l :
  (wake_up q l = l ∧ ∀ t p, t ∈ q → l !! t = Some p → is_asleep p = false) ∨
  (∃ t k, t ∈ q ∧ l !! t = Some (Asleep k) ∧ wake_up q l = <[t := Woken k]> l).
Proof.
  induction q as [|t q IH]; simpl; [left; split; [done|set_solver]|].
  destruct (l !! t) as [[| |k| | |]|] eqn:E; try (right; exists t, k; set_solver);
    (destruct IH as [[E1 H1]|(u & k' & ? & ? & ?)];
     [left; split; [done|]; intros u p [->|Hu]%elem_of_cons Hp; [by simplify_eq|eauto]
     |right; exists u, k'; set_solver]).
Qed.

Lemma wake_up_failed q l : cnt is_failed (wake_up q l) = cnt is_failed l.
Proof.
  destruct (wake_up_cases q l) as [[-> _]|(t & k & _ & E & ->)]; [done|].
  rewrite (cnt_insert _ _ _ _ _ E). simpl. lia.
Qed.

Lemma wake_up_held q l : cnt is_held (wake_up q l) = cnt is_held l.
Proof.
  destruct (wake_up_cases q l) as [[-> _]|(t & k & _ & E & ->)]; [done|].
  rewrite (cnt_insert _ _ _ _ _ E). simpl. lia.
Qed.

Lemma asleep_queued p : is_asleep p = true → is_queued p = true.
Proof. by destruct p. Qed.

(** A waker never leaves sleepers behind without a runnable thread. *)
Lemma wake_up_active q l :
  (∀ t p, l !! t = Some p → is_queued p = true → t ∈ q) →
  0 < cnt is_asleep (wake_up q l) → 0 < cnt is_active (wake_up q l).
Proof.
  intros Hq. destruct (wake_up_cases q l) as [[-> Hno]|(t & k & _ & E & ->)].
  - intros (t & p & Ht & Hp)%cnt_pos. rewrite (Hno t p) in Hp; eauto using asleep_queued. done.
  - intros _. apply cnt_pos. exists t, (Woken k). split; [|done].
    rewrite list_lookup_insert_eq; [done|]. by eapply lookup_lt_Some.
Qed.

Lemma wake_up_queued q (l : list pc) (q' : list nat) :
  (∀ t p, l !! t = Some p → is_queued p = true → t ∈ q') →
  ∀ t p, wake_up q l !! t = Some p → is_queued p = true → t ∈ q'.
Proof.
  intros Hq t p. destruct (wake_up_cases q l) as [[-> _]|(u & k & _ & E & ->)]; [apply Hq|].
  destruct (decide (u = t)) as [->|Hne]; [intros; by eapply Hq|].
  rewrite list_lookup_insert_ne by done. apply Hq.
Qed.


(** Membership of sleepers in the queue after one thread has moved on. *)
Lemma queue_insert (l : list pc) (q : list nat) t p' :
  (∀ u p, l !! u = Some p → is_queued p = true → u ∈ q) →
  (is_queued p' = true → t ∈ q) →
  ∀ u p, <[t := p']> l !! u = Some p → is_queued p = true → u ∈ q.
Proof.
  intros Hq Hp' u p Hu Hp. destruct (decide (t = u)) as [->|Hne].
  - apply list_lookup_insert_Some in Hu as [(_ & <- & _)|[? _]]; [eauto|done].
  - rewrite list_lookup_insert_ne in Hu by done. eauto.
Qed.

(** Rewrite every count of an updated thread list and finish by arithmetic. *)
Ltac counts :=
  repeat match goal with
  | H : ?l !! ?t = Some ?x |- context [cnt ?P (<[?t := ?y]> ?l)] =>
      rewrite (cnt_insert P l t x y H)
  | H : ?l !! ?t = Some ?x, H' : context [cnt ?P (<[?t := ?y]> ?l)] |- _ =>
      rewrite (cnt_insert P l t x y H) in H'
  end;
  repeat match goal with
  | |- context [cnt ?P ?l] =>
      lazymatch goal with
      | _ : 0 ≤ cnt P l |- _ => fail
      | _ => pose proof (cnt_nonneg P l)
      end
  | _ : context [cnt ?P ?l] |- _ =>
      lazymatch goal with
      | _ : 0 ≤ cnt P l |- _ => fail
      | _ => pose proof (cnt_nonneg P l)
      end
  end; simpl in *; try lia.

(** A thread that is not past a failed decrement leaves room for one more. *)
Lemma failed_room l t x : l !! t = Some x → cnt is_failed l - b2z (is_failed x) + 1 ≤ Z.of_nat (length l).
Proof.
  intros Hx. pose proof (cnt_le_length is_failed (<[t := Failed Down]> l)) as Hle.
  rewrite length_insert, (cnt_insert _ _ _ _ _ Hx) in Hle. simpl in Hle. lia.
Qed.

(** A counter in range does not wrap around. *)
Ltac narrow := rewrite ?(wraps_small 32) by (unfold INT_LIMIT in *; simpl; lia).

Lemma leave_queue_inv t p x c sl q l n' :
  l !! t = Some x → is_queued p = false → is_failed p = false →
  (∀ u y, l !! u = Some y → is_queued y = true → u ∈ q) →
  c = n' - (cnt is_failed l - b2z (is_failed x)) → 0 ≤ n' ≤ INT_LIMIT →
  sl = 0 → inv (leave_queue t p c sl q l n').
Proof.
  intros Hx Ha Hf Hq Hc Hn ->. unfold leave_queue.
  assert (∀ u y, <[t := p]> l !! u = Some y → is_queued y = true → u ∈ filter (λ u, u ≠ t) q) as Hq'.
  { intros u y Hu Hy. apply list_elem_of_filter. destruct (decide (t = u)) as [->|Hne].
    - apply list_lookup_insert_Some in Hu as [(_ & <- & _)|[? _]]; congruence.
    - rewrite list_lookup_insert_ne in Hu by done. eauto. }
  split; simpl.
  - rewrite wake_up_failed, (cnt_insert _ _ _ _ _ Hx), Hf. simpl. lia.
  - by left.
  - done.
  - by apply wake_up_queued.
  - intros _. by apply wake_up_active.
Qed.

Lemma down_fast_inv k t s :
  ts s !! t = Some Out → Z.of_nat (length (ts s)) ≤ INT_LIMIT → inv s → inv (down_fast k t s).
Proof.
  destruct s as [[c sl q] l n]. intros Ht Hn [Ic Is Ip Iq Iw]. unfold down_fast. simpl in *.
  pose proof (failed_room _ _ _ Ht). simpl in *. pose proof (cnt_nonneg is_failed l). narrow.
  destruct (Z.leb_spec 0 (c - 1)); split; simpl; try done; counts.
  all: by apply queue_insert.
Qed.

Lemma up_fast_inv t s :
  ts s !! t = Some Held ∨ ts s !! t = Some Out → Z.of_nat (length (ts s)) ≤ INT_LIMIT → permits s < INT_LIMIT →
  inv s → inv (up_fast t s).
Proof.
  destruct s as [[c sl q] l n]. intros Ht Hn Hp [Ic Is Ip Iq Iw]. unfold up_fast. simpl in *.
  pose proof (cnt_nonneg is_failed l). pose proof (cnt_le_length is_failed l). narrow.
  assert (∃ x, l !! t = Some x ∧ is_asleep x = false ∧ is_active x = false ∧ is_failed x = false)
    as (x & Hx & Ha & Hact & Hf) by (destruct Ht; eauto).
  split; simpl; try done; try lia.
  - destruct (0 <? c + 1); counts; rewrite Hf; simpl; lia.
  - apply queue_insert; [done|]. by destruct (0 <? c + 1).
  - destruct (Z.ltb_spec 0 (c + 1)); rewrite !(cnt_insert _ _ _ _ _ Hx), Ha, Hact; simpl.
    + intros _ Hs. counts.
    + counts.
Qed.

Lemma down_loop_inv k sp t x s :
  ts s !! t = Some x → t ∈ wait (sem s) →
  count (sem s) = permits s - (cnt is_failed (ts s) - b2z (is_failed x)) - sleepers (sem s) →
  0 ≤ permits s ≤ INT_LIMIT → Z.of_nat (length (ts s)) ≤ INT_LIMIT →
  (∀ u p, ts s !! u = Some p → is_queued p = true → u ∈ wait (sem s)) →
  inv (down_loop k sp t s).
Proof.
  destruct s as [[c sl q] l n]. intros Ht Hin Hc Hn Hlen Hq. unfold down_loop. simpl in *.
  pose proof (failed_room _ _ _ Ht) as Hroom.
  assert (0 ≤ cnt is_failed l - b2z (is_failed x)) as Hpos.
  { pose proof (cnt_nonneg is_failed (<[t := Out]> l)) as Hp.
    rewrite (cnt_insert _ _ _ _ _ Ht) in Hp. simpl in Hp. lia. }
  narrow. destruct (bool_decide (k = Down_interruptible) && sp).
  { eapply leave_queue_inv; try done. lia. }
  destruct (Z.leb_spec 0 (c + (sl - 1))).
  { eapply leave_queue_inv; try done; lia. }
  split; simpl.
  - rewrite (cnt_insert _ _ _ _ _ Ht). simpl. lia.
  - by right.
  - done.
  - by apply queue_insert.
  - intros [Hp|?] _; [|done]. rewrite (cnt_insert _ _ _ _ _ Ht). simpl.
    assert (0 < cnt is_failed (<[t := Asleep k]> l)) as Hf
      by (rewrite (cnt_insert _ _ _ _ _ Ht); simpl; lia).
    apply cnt_pos in Hf as (u & y & Hu & Hy).
    assert (0 < cnt is_active (<[t := Asleep k]> l)) as Ha.
    { apply cnt_pos. exists u, y. split; [done|]. by destruct y. }
    rewrite (cnt_insert _ _ _ _ _ Ht) in Ha. simpl in Ha. lia.
Qed.

Lemma trylock_inv t s :
  ts s !! t = Some (Failed Down_trylock) → Z.of_nat (length (ts s)) ≤ INT_LIMIT → inv s → inv (__down_trylock t s).
Proof.
  destruct s as [[c sl q] l n]. intros Ht Hn [Ic Is Ip Iq Iw]. unfold __down_trylock. simpl in *.
  pose proof (failed_room _ _ _ Ht). simpl in *.
  assert (0 < cnt is_failed l) by (apply cnt_pos; by exists t, (Failed Down_trylock)). narrow.
  assert (∀ u p, <[t := Out]> l !! u = Some p → is_queued p = true → u ∈ q) as Hq
    by by apply queue_insert.
  destruct (Z.leb_spec 0 (c + (sl + 1))); split; simpl; try done; try lia.
  - rewrite wake_up_failed. counts.
  - by apply wake_up_queued.
  - intros _. by apply wake_up_active.
  - counts.
  - intros _ _. assert (0 < cnt is_failed (<[t := Out]> l)) as Hf by counts.
    apply cnt_pos in Hf as (u & y & Hu & Hy). apply cnt_pos. exists u, y. by destruct y.
Qed.

Lemma up_slow_inv t s : ts s !! t = Some Waking → inv s → inv (__up t s).
Proof.
  destruct s as [[c sl q] l n]. intros Ht [Ic Is Ip Iq Iw]. unfold __up. simpl in *.
  assert (∀ u p, <[t := Out]> l !! u = Some p → is_queued p = true → u ∈ q) as Hq
    by by apply queue_insert.
  split; simpl; try done.
  - rewrite wake_up_failed. counts.
  - by apply wake_up_queued.
  - intros _. by apply wake_up_active.
Qed.

Lemma down_slow_inv k sp t s :
  ts s !! t = Some (Failed k) → Z.of_nat (length (ts s)) ≤ INT_LIMIT → inv s → inv (__down k sp t s).
Proof.
  destruct s as [[c sl q] l n]. intros Ht Hn [Ic Is Ip Iq Iw]. unfold __down. simpl in *.
  eapply down_loop_inv; simpl; try done; [set_solver|simpl; lia|].
  intros u p Hu Hp. apply elem_of_app. left. eauto.
Qed.

Lemma signal_inv t s :
  ts s !! t = Some (Asleep Down_interruptible) → inv s →
  inv (Sys (sem s) (<[t := Woken Down_interruptible]> (ts s)) (permits s)).
Proof.
  destruct s as [[c sl q] l n]. intros Ht [Ic Is Ip Iq Iw].
  split; simpl in *; try done; counts. apply queue_insert; [done|]. intros _. by eapply Iq.
Qed.

(** Owners and permits of a system in which owners release. *)
Lemma step_held s s' :
  step true s s' → cnt is_held (ts s') + permits s' = cnt is_held (ts s) + permits s.
Proof.
  intros [_ Hs]. destruct Hs as [k t s Ht|k sp t s _ Ht|k sp t s Ht|t s Ht|t s Ht|t s Ht _|t s Ht];
    destruct s as [[c sl q] l n]; unfold down_fast, __down, down_loop, leave_queue,
      up_fast, __up, __down_trylock in *; simpl in *.
  - destruct (0 <=? _); simpl; counts.
  - destruct (_ && _); simpl; [|destruct (0 <=? _); simpl]; rewrite ?wake_up_held; counts.
  - destruct (_ && _); simpl; [|destruct (0 <=? _); simpl]; rewrite ?wake_up_held; counts.
  - counts.
  - destruct (0 <=? _); rewrite ?wake_up_held; counts.
  - destruct Ht as [Ht|[? _]]; [|done]. destruct (0 <? c + 1); counts.
  - rewrite wake_up_held. counts.
Qed.

(** With the discipline of a mutex an owner that releases leaves no more permits
    than there were at the start. *)
Definition owners_bounded (d : bool) (s : sys) : Prop := d = true → cnt is_held (ts s) + permits s ≤ INT_LIMIT.

Lemma step_inv d s s' : step d s s' → owners_bounded d s → inv s → inv s'.
Proof.
  intros [Hn Hs] Ho Hi. destruct Hs as [k t s Ht|k sp t s _ Ht|k sp t s Ht|t s Ht|t s Ht|t s Ht Hp|t s Ht].
  - by apply down_fast_inv.
  - by apply down_slow_inv.
  - destruct Hi as [Ic Is Ip Iq Iw]. eapply down_loop_inv; [done|by eapply Iq| |done|done|done].
    simpl. lia.
  - by apply signal_inv.
  - by apply trylock_inv.
  - apply up_fast_inv; [naive_solver|done| |done]. destruct d; [|by apply Hp]. destruct Ht as [Ht|[? _]]; [|done].
    specialize (Ho eq_refl). assert (0 < cnt is_held (ts s)) by (apply cnt_pos; by exists t, Held). lia.
  - by apply up_slow_inv.
Qed.

Lemma sema_init_inv val n : 0 ≤ val ≤ INT_LIMIT → inv (sema_init val n).
Proof.
  intros. split; simpl; rewrite ?cnt_replicate; try done; try lia.
  intros t p [-> _]%lookup_replicate_1. done.
Qed.

Lemma reachable_inv d val n s : 0 ≤ val ≤ INT_LIMIT → rtc (step d) (sema_init val n) s → inv s ∧ owners_bounded d s.
Proof.
  intros Hv Hs. apply (rtc_ind_r (λ s, inv s ∧ owners_bounded d s) (sema_init val n)) in Hs; [done| |].
  - split; [by apply sema_init_inv|]. intros _. simpl. rewrite cnt_replicate by done. lia.
  - intros s1 s2 _ Hst [Hi Ho]. split; [by eapply step_inv|]. intros ->. rewrite (step_held _ _ Hst). by apply Ho.
Qed.

(** Every step is a P, a V or invisible to the counting semaphore. *)
Lemma step_counting d s s' :
  inv s' → step d s s' → permits s' = permits s ∨ counting_step (permits s) (permits s').
Proof.
  intros [_ _ Hp _ _] [_ Hs].
  destruct Hs as [k t s Ht|k sp t s _ Ht|k sp t s Ht|t s Ht|t s Ht|t s Ht _|t s Ht];
    destruct s as [[c sl q] l n]; try (by left);
    unfold down_fast, __down, down_loop, up_fast in *; simpl in *.
  - destruct (0 <=? _); simpl in *; [right; apply counting_P; lia|by left].
  - destruct (_ && _); simpl; [by left|].
    destruct (0 <=? _); simpl in *; [right; apply counting_P; lia|by left].
  - destruct (_ && _); simpl; [by left|].
    destruct (0 <=? _); simpl in *; [right; apply counting_P; lia|by left].
  - right. apply counting_V.
Qed.

(** ** Theorems *)

(** C3: the semaphore implements a counting semaphore: in every interleaving of
    [down], [down_interruptible], [down_trylock] and [up] by fewer than 2^31 threads,
    in which no [up] is called when there are 2^31 - 1 permits already, each step
    either leaves the number of permits alone, adds one (an [up]), or takes one that
    is there (an acquisition); permits never go negative, and the hardware counter,
    32 bits that wrap around, equals the permits minus the threads that have
    decremented it in vain. *)
Theorem semaphore_refines_counting d val n s s' :
  0 ≤ val ≤ INT_LIMIT → rtc (step d) (sema_init val n) s → step d s s' →
  (permits s' = permits s ∨ counting_step (permits s) (permits s')) ∧ 0 ≤ permits s' ≤ INT_LIMIT ∧
  count (sem s') = permits s' - cnt is_failed (ts s') - sleepers (sem s').
Proof.
  intros Hv Hs Hst. pose proof (reachable_inv _ _ _ _ Hv Hs) as [Hi Ho].
  pose proof (step_inv _ _ _ Hst Ho Hi) as Hi'. split; [by eapply step_counting|]. by destruct Hi'.
Qed.

Lemma semaphore_refines_counting_witness :
  counting_step 1 0 ∧ step true (sema_init 1 2) (down_fast Down 0 (sema_init 1 2)).
Proof.
  assert (step true (sema_init 1 2) (down_fast Down 0 (sema_init 1 2))) as Hs by (split; [done|by constructor]).
  destruct (semaphore_refines_counting true 1 2 (sema_init 1 2) _ ltac:(done) (rtc_refl _ _) Hs)
    as [[?|?] _]; [done|split; [|exact Hs]]. by apply (counting_P 1).
Defined.

(** The bound is needed: two more [up]s leave the counter negative, and a [down]
    fails although there are more than 2^31 permits. *)
Lemma counter_wraps :
  let s := up_fast 0 (up_fast 0 (sema_init INT_LIMIT 2)) in
  count (sem s) = 1 - 2 ^ 31 ∧ permits s = 2 ^ 31 + 1 ∧ ts (down_fast Down 1 s) !! 1%nat = Some (Failed Down).
Proof. by vm_compute. Qed.

(** C31: no wakeup is lost: in every state that is reachable as above, if a permit is
    free and a thread sleeps on the semaphore, then some thread is awake in the slow
    path or about to wake a sleeper; so once all threads have settled, a sleeper
    means that no permit is free. *)
Theorem semaphore_no_lost_wakeup d val n s :
  0 ≤ val ≤ INT_LIMIT → rtc (step d) (sema_init val n) s →
  (∃ t k, ts s !! t = Some (Asleep k)) →
  (∀ t p, ts s !! t = Some p → is_active p = false) → permits s = 0.
Proof.
  intros Hv Hs (t & k & Ht) Hno. destruct (reachable_inv _ _ _ _ Hv Hs) as [[_ _ Ip _ Iw] _].
  destruct (Z.eq_dec (permits s) 0) as [|Hp]; [done|].
  assert (0 < cnt is_active (ts s)) as Ha.
  { apply Iw; [lia|]. apply cnt_pos. by exists t, (Asleep k). }
  apply cnt_pos in Ha as (u & p & Hu & Hp'). rewrite (Hno u p Hu) in Hp'. done.
Qed.

(** One thread owns, the other sleeps. *)
Definition contended : sys :=
  __down Down false 1 (down_fast Down 1 (down_fast Down 0 (sema_init 1 2))).

Lemma contended_reachable : rtc (step true) (sema_init 1 2) contended.
Proof.
  eapply rtc_l; [split; [done|by apply (step_down _ Down 0)]|].
  eapply rtc_l; [split; [done|by apply (step_down _ Down 1)]|].
  apply rtc_once. split; [done|]. by apply (step_slow _ Down).
Qed.

Lemma semaphore_no_lost_wakeup_witness : permits contended = 0.
Proof.
  apply (semaphore_no_lost_wakeup true 1 2); [done|apply contended_reachable|by exists 1%nat, Down|].
  intros [|[|t]] p E; vm_compute in E; by simplify_eq.
Defined.

(** C32: a semaphore initialised to 1 and released only by its owner is a mutex:
    at most one thread owns it, in every interleaving. *)
Theorem semaphore_mutual_exclusion n s t u :
  rtc (step true) (sema_init 1 n) s →
  ts s !! t = Some Held → ts s !! u = Some Held → t = u.
Proof.
  intros Hs Ht Hu.
  assert (cnt is_held (ts s) + permits s = 1) as Hc.
  { apply (rtc_ind_r (λ s, cnt is_held (ts s) + permits s = 1) (sema_init 1 n)) in Hs; [done| |].
    - simpl. by rewrite cnt_replicate.
    - intros s1 s2 _ Hst E. by rewrite (step_held _ _ Hst). }
  destruct (reachable_inv true 1 n s ltac:(done) Hs) as [[_ _ Ip _ _] _].
  destruct (decide (t = u)) as [|Hne]; [done|]. exfalso.
  pose proof (cnt_nonneg is_held (<[u := Out]> (<[t := Out]> (ts s)))) as Hp.
  erewrite cnt_insert in Hp by (by rewrite list_lookup_insert_ne). simpl in Hp.
  rewrite (cnt_insert _ _ _ _ _ Ht) in Hp. simpl in Hp. lia.
Qed.

Lemma semaphore_mutual_exclusion_witness :
  ts contended !! 0%nat = Some Held ∧ ∀ u, ts contended !! u = Some Held → u = 0%nat.
Proof.
  split; [reflexivity|]. intros u Hu. symmetry.
  apply (semaphore_mutual_exclusion 2 contended 0 u contended_reachable); [reflexivity|exact Hu].
Defined.
