(* ===== verification/Tasks.v ===== *)
(** The system calls on processes added to [kernel/sched.c], with the fields of
    [struct task_struct] they touch, and the joining protocol they share with
    [do_exit] ([kernel/exit.c]) and [copy_process] ([kernel/fork.c]). *)

From S2P Require Import Prelude ListHead Semaphore.

(** ** Processes *)

Definition PF_EXITING : Z := 4.

Definition EXIT_ZOMBIE : Z := 16.

Record task_struct := Task {
  pid : Z;
  tgid : Z;
  uid : Z;
  euid : Z;
  suid : Z;
  time_slice : Z;
  exit_state : Z;
  flags : Z;
  pi_lock : bool;
  join_semaphore : Z;
  joined_processes : Z
}.

Definition set_uids (u e : Z) (t : task_struct) : task_struct :=
  Task (pid t) (tgid t) u e (suid t) (time_slice t) (exit_state t) (flags t)
    (pi_lock t) (join_semaphore t) (joined_processes t).

Definition set_time_slice (v : Z) (t : task_struct) : task_struct :=
  Task (pid t) (tgid t) (uid t) (euid t) (suid t) v (exit_state t) (flags t)
    (pi_lock t) (join_semaphore t) (joined_processes t).

Definition set_exit_state (v : Z) (t : task_struct) : task_struct :=
  Task (pid t) (tgid t) (uid t) (euid t) (suid t) (time_slice t) v (flags t)
    (pi_lock t) (join_semaphore t) (joined_processes t).

Definition set_flags (v : Z) (t : task_struct) : task_struct :=
  Task (pid t) (tgid t) (uid t) (euid t) (suid t) (time_slice t) (exit_state t) v
    (pi_lock t) (join_semaphore t) (joined_processes t).

Definition set_pi_lock (v : bool) (t : task_struct) : task_struct :=
  Task (pid t) (tgid t) (uid t) (euid t) (suid t) (time_slice t) (exit_state t) (flags t)
    v (join_semaphore t) (joined_processes t).

Definition set_join (sem joined : Z) (t : task_struct) : task_struct :=
  Task (pid t) (tgid t) (uid t) (euid t) (suid t) (time_slice t) (exit_state t) (flags t)
    (pi_lock t) sem joined.

(** ** The process table

    The system calls reach processes through [find_task_by_pid] only; any table
    with a lookup from process numbers to task addresses will do. *)
Class TaskTable (P : Type) := find_task_by_pid : P → Z → option Z.

(** List cells of the process tree: the head of a task's list of children, and
    the cell that links a task into its parent's list. *)
Inductive tnode :=
| Children (t : Z)
| Sibling (t : Z)
| Nowhere (k : Z).

#[export] Instance tnode_eq_dec : EqDecision tnode.
Proof. solve_decision. Defined.

#[export] Instance tnode_countable : Countable tnode.
Proof.
  refine (inj_countable'
    (λ n, match n with Children t => inl t | Sibling t => inr (inl t) | Nowhere k => inr (inr k) end)
    (λ s, match s with inl t => Children t | inr (inl t) => Sibling t | inr (inr k) => Nowhere k end) _).
  by intros [].
Defined.

Section syscalls.
Context {P : Type} `{!TaskTable P}.

Record kernel := Kernel {
  table : P;
  tasks : gmap Z task_struct;
  family : gmap tnode (list_head tnode)
}.

Definition put_task (a : Z) (t : task_struct) (k : kernel) : kernel :=
  Kernel (table k) (<[a := t]> (tasks k)) (family k).

(** Apply [f] to the task at address [a]. *)
Definition on_task (a : Z) (f : task_struct → task_struct) (k : kernel) : outcome kernel :=
  match tasks k !! a with
  | Some t => Ret (put_task a (f t) k)
  | None => Undef
  end.

Definition get_task (a : Z) (k : kernel) : outcome task_struct :=
  match tasks k !! a with Some t => Ret t | None => Undef end.

(** ** System calls without blocking *)

Definition sys_mygetpid (current : Z) (k : kernel) : outcome Z :=
  t ← get_task current k; Ret (tgid t).

Definition sys_steal (p : Z) (k : kernel) : outcome (Z * kernel) :=
  match find_task_by_pid (table k) p with
  | None => Ret (-1, k)
  | Some a =>
    k ← on_task a (λ t, set_uids 0 (euid t) t) k;
    k ← on_task a (λ t, set_uids (uid t) 0 t) k;
    Ret (0, k)
  end.

Definition sys_quad (p : Z) (k : kernel) : outcome (Z * kernel) :=
  match find_task_by_pid (table k) p with
  | None => Ret (-1, k)
  | Some a =>
    k ← on_task a (λ t, set_time_slice (u32 (time_slice t * 4)) t) k;
    t ← get_task a k;
    Ret (time_slice t, k)
  end.

(** The body of the loop over the victim's children.  The loop names [children]
    as the member that links the children, while they are linked through
    [sibling]: the traversal visits the right cells, but the [pid] it reads
    belongs to no task.  [pid_at] is what memory holds there. *)
Fixpoint swipe_children (target at_ av : Z) (pid_at : tnode → Z) (cells : list tnode) (k : kernel)
    : outcome kernel :=
  match cells with
  | [] => Ret k
  | c :: cells' =>
    k ← (if negb (target =? pid_at c) then
           v ← get_task av k;
           on_task at_ (λ t, set_time_slice (u32 (time_slice t + time_slice v)) t) k
         else Ret k);
    swipe_children target at_ av pid_at cells' k
  end.

Definition sys_swipe (fuel : nat) (pid_at : tnode → Z) (target victim : Z) (k : kernel)
    : outcome (Z * kernel) :=
  if target =? victim then Ret (-1, k) else
  match find_task_by_pid (table k) target with
  | None => Ret (-1, k)
  | Some at_ =>
    match find_task_by_pid (table k) victim with
    | None => Ret (-1, k)
    | Some av =>
      t ← get_task at_ k;
      let orig_time_slice := time_slice t in
      v ← get_task av k;
      k ← on_task at_ (λ t, set_time_slice (u32 (time_slice t + time_slice v)) t) k;
      k ← on_task av (set_time_slice 0) k;
      cells ← list_for_each_entry fuel (family k) (Children av);
      k ← swipe_children target at_ av pid_at cells k;
      t ← get_task at_ k;
      Ret (u32 (time_slice t - orig_time_slice), k)
    end
  end.

Definition sys_zombify (p : Z) (k : kernel) : outcome (Z * kernel) :=
  match find_task_by_pid (table k) p with
  | None => Ret (-1, k)
  | Some a => k ← on_task a (set_exit_state EXIT_ZOMBIE) k; Ret (0, k)
  end.

(** ** Joining

    A spinlock that is already held on this processor is never released to the
    waiter: the outcome is [NoFuel]. *)
Definition spin_lock_irq (a : Z) (k : kernel) : outcome kernel :=
  t ← get_task a k;
  if pi_lock t then NoFuel else on_task a (set_pi_lock true) k.

Definition spin_unlock_irq (a : Z) (k : kernel) : outcome kernel :=
  on_task a (set_pi_lock false) k.

(** [sys_myjoin] up to the call of [down]; [None] says that the caller goes on to
    wait on the target's semaphore. *)
Definition myjoin_register (target : Z) (k : kernel) : outcome (option Z * kernel) :=
  match find_task_by_pid (table k) target with
  | None => Ret (Some (-1), k)
  | Some a =>
    k ← spin_lock_irq a k;
    t ← get_task a k;
    if negb (Z.land (flags t) PF_EXITING =? 0) then Ret (Some (-1), k) else
    k ← on_task a (λ t, set_join (join_semaphore t) (u64 (joined_processes t + 1)) t) k;
    k ← spin_unlock_irq a k;
    Ret (None, k)
  end.

(** The [down] at the end of [sys_myjoin], once a permit is there. *)
Definition myjoin_down (a : Z) (k : kernel) : outcome (Z * kernel) :=
  t ← get_task a k;
  if 0 <? join_semaphore t then
    k ← on_task a (λ t, set_join (s32 (join_semaphore t - 1)) (joined_processes t) t) k;
    Ret (0, k)
  else NoFuel.

(** The loop of [do_exit] over the joiners.  The counter [i] is an [int], which is
    compared as a [size_t]; counting past the largest [int] is undefined. *)
Fixpoint up_joiners (fuel : nat) (i : Z) (a : Z) (k : kernel) : outcome kernel :=
  t ← get_task a k;
  if u64 i <? joined_processes t then
    match fuel with
    | O => NoFuel
    | S fuel =>
      k ← on_task a (λ t, set_join (s32 (join_semaphore t + 1)) (joined_processes t) t) k;
      if i =? INT_LIMIT then Undef else up_joiners fuel (i + 1) a k
    end
  else Ret k.

(** The part of [do_exit] that marks the task as exiting and releases its
    joiners. *)
Definition do_exit_joiners (a : Z) (k : kernel) : outcome kernel :=
  k ← spin_lock_irq a k;
  k ← on_task a (λ t, set_flags (Z.lor (flags t) PF_EXITING) t) k;
  t ← get_task a k;
  k ← up_joiners (Z.to_nat (joined_processes t)) 0 a k;
  k ← on_task a (λ t, set_join (join_semaphore t) 0 t) k;
  spin_unlock_irq a k.

(** The initialisation at the end of [copy_process], when the child is already
    in the process table. *)
Definition copy_process_join (a : Z) (k : kernel) : outcome kernel :=
  on_task a (set_join 0 0) k.
End syscalls.

Arguments kernel P : clear implicits.
Arguments Kernel {P} table tasks family.

(** ** Joiners of one task

    The joiners of the task at address [a], whose process number is [p]. *)
Inductive joiner :=
| JStart
| JWait
| JSpin
| JRet (r : Z).

Definition is_waiting (j : joiner) : bool := match j with JWait => true | _ => false end.

Definition joined_ok (j : joiner) : bool := match j with JRet r => r =? 0 | _ => false end.

Definition exiting (t : task_struct) : bool := negb (Z.land (flags t) PF_EXITING =? 0).

Section joining.
Context {P : Type} `{!TaskTable P}.
Context (p a : Z).
Implicit Types k : kernel P.

Inductive jstep : kernel P * list joiner → kernel P * list joiner → Prop :=
| j_register k k' js j r :
    js !! j = Some JStart → myjoin_register p k = Ret (r, k') →
    jstep (k, js) (k', <[j := match r with Some r => JRet r | None => JWait end]> js)
| j_spin k js j :
    js !! j = Some JStart → myjoin_register p k = NoFuel → jstep (k, js) (k, <[j := JSpin]> js)
| j_down k k' js j r :
    js !! j = Some JWait → myjoin_down a k = Ret (r, k') → jstep (k, js) (k', <[j := JRet r]> js)
| j_exit k k' js t :
    tasks k !! a = Some t → exiting t = false → do_exit_joiners a k = Ret k' →
    jstep (k, js) (k', js)
| j_free k k' js t :
    tasks k !! a = Some t → exiting t = true → tasks k' = delete a (tasks k) → find_task_by_pid (table k') p = None →
    jstep (k, js) (k', js).

(** The task while it can be joined, and after it has left. *)
Definition joinable_inv (t : task_struct) (js : list joiner) : Prop :=
  if exiting t then joined_processes t = 0 ∧ join_semaphore t = cnt is_waiting js
  else joined_processes t = cnt is_waiting js ∧ join_semaphore t = 0 ∧
       pi_lock t = false ∧ cnt joined_ok js = 0.

Definition join_inv (c : kernel P * list joiner) : Prop :=
  Z.of_nat (length c.2) ≤ INT_LIMIT ∧
  match tasks c.1 !! a with
  | Some t => find_task_by_pid (table c.1) p = Some a ∧ joinable_inv t c.2
  | None => find_task_by_pid (table c.1) p = None
  end.

(** ** Lemmas *)

Lemma on_task_put k b t f : tasks k !! b = Some t → on_task b f k = Ret (put_task b (f t) k).
Proof. intros E. unfold on_task. by rewrite E. Qed.

Lemma get_task_put k b t : get_task b (put_task b t k) = Ret t.
Proof. unfold get_task, put_task. simpl. by rewrite lookup_insert_eq. Qed.

Lemma on_task_put_put k b t f : on_task b f (put_task b t k) = Ret (put_task b (f t) k).
Proof.
  unfold on_task, put_task. simpl. rewrite lookup_insert_eq. by rewrite insert_insert_eq.
Qed.

Lemma get_task_in k b t : tasks k !! b = Some t → get_task b k = Ret t.
Proof. intros E. unfold get_task. by rewrite E. Qed.

Lemma up_joiners_put fuel i k b t :
  0 ≤ i ≤ joined_processes t → 0 ≤ join_semaphore t → joined_processes t ≤ INT_LIMIT → join_semaphore t + (joined_processes t - i) ≤ INT_LIMIT →
  joined_processes t - i ≤ Z.of_nat fuel →
  up_joiners fuel i b (put_task b t k) =
    Ret (put_task b (set_join (join_semaphore t + (joined_processes t - i)) (joined_processes t) t) k).
Proof.
  revert i t. induction fuel as [|fuel IH]; intros i t Hi H0 Hj Hs Hf; cbn [up_joiners]; rewrite get_task_put; cbn [mbind outcome_bind];
    rewrite (wrapu_small 64) by (unfold INT_LIMIT in *; lia); destruct (Z.ltb_spec i (joined_processes t)); try lia;
    try (assert (i = joined_processes t) as -> by lia; rewrite Z.sub_diag, Z.add_0_r; by destruct t).
  rewrite on_task_put_put. cbn [mbind outcome_bind]. rewrite (proj2 (Z.eqb_neq i INT_LIMIT)), (wraps_small 32) by (unfold INT_LIMIT in *; lia).
  rewrite IH by (cbn; lia). do 2 f_equal. unfold set_join. cbn. f_equal. lia.
Qed.

Lemma do_exit_joiners_spec k t :
  tasks k !! a = Some t → pi_lock t = false → 0 ≤ joined_processes t → 0 ≤ join_semaphore t → join_semaphore t + joined_processes t ≤ INT_LIMIT →
  do_exit_joiners a k = Ret (put_task a
    (Task (pid t) (tgid t) (uid t) (euid t) (suid t) (time_slice t) (exit_state t)
       (Z.lor (flags t) PF_EXITING) false (join_semaphore t + joined_processes t) 0) k).
Proof.
  intros Ht Hl Hj Hs Hb. unfold do_exit_joiners, spin_lock_irq, spin_unlock_irq.
  rewrite (get_task_in _ _ _ Ht). cbn [mbind outcome_bind]. rewrite Hl.
  rewrite (on_task_put _ _ _ _ Ht). cbn [mbind outcome_bind].
  rewrite on_task_put_put. cbn [mbind outcome_bind]. rewrite get_task_put. cbn [mbind outcome_bind].
  rewrite up_joiners_put by (cbn; lia). cbn [mbind outcome_bind]. rewrite on_task_put_put.
  cbn [mbind outcome_bind]. rewrite on_task_put_put. simpl. by rewrite Z.sub_0_r.
Qed.

Lemma myjoin_register_spec k t :
  tasks k !! a = Some t → find_task_by_pid (table k) p = Some a → pi_lock t = false →
  myjoin_register p k =
    if exiting t then Ret (Some (-1), put_task a (set_pi_lock true t) k)
    else Ret (None, put_task a (set_join (join_semaphore t) (u64 (joined_processes t + 1)) t) k).
Proof.
  intros Ht Hf Hl. unfold myjoin_register, spin_lock_irq, spin_unlock_irq. rewrite Hf.
  rewrite (get_task_in _ _ _ Ht). cbn [mbind outcome_bind]. rewrite Hl.
  rewrite (on_task_put _ _ _ _ Ht). cbn [mbind outcome_bind]. rewrite get_task_put.
  cbn [mbind outcome_bind]. unfold exiting. simpl. destruct (negb _); [done|].
  rewrite on_task_put_put. cbn [mbind outcome_bind]. rewrite on_task_put_put. simpl.
  do 3 f_equal. destruct t; simpl in *. by subst.
Qed.

Lemma myjoin_register_locked k t :
  tasks k !! a = Some t → find_task_by_pid (table k) p = Some a → pi_lock t = true →
  myjoin_register p k = NoFuel.
Proof.
  intros Ht Hf Hl. unfold myjoin_register, spin_lock_irq. rewrite Hf.
  rewrite (get_task_in _ _ _ Ht). cbn [mbind outcome_bind]. by rewrite Hl.
Qed.

Lemma myjoin_down_spec k t :
  tasks k !! a = Some t → join_semaphore t ≤ INT_LIMIT →
  myjoin_down a k =
    if 0 <? join_semaphore t
    then Ret (0, put_task a (set_join (join_semaphore t - 1) (joined_processes t) t) k) else NoFuel.
Proof.
  intros Ht Hs. unfold myjoin_down. rewrite (get_task_in _ _ _ Ht). cbn [mbind outcome_bind].
  destruct (Z.ltb_spec 0 (join_semaphore t)); [|done]. rewrite (on_task_put _ _ _ _ Ht). cbn [mbind outcome_bind].
  by rewrite (wraps_small 32) by (unfold INT_LIMIT in *; lia).
Qed.

Lemma exiting_lor t f : flags f = Z.lor (flags t) PF_EXITING → exiting f = true.
Proof.
  intros E. unfold exiting. rewrite E, Z.land_lor_distr_l, Z.land_diag.
  destruct (Z.eqb_spec (Z.lor (Z.land (flags t) PF_EXITING) PF_EXITING) 0) as [E0|]; [|done].
  apply Z.lor_eq_0_iff in E0 as [_ ?]. done.
Qed.

Lemma jstep_freed c c' : jstep c c' → tasks c.1 !! a = None → join_inv c → join_inv c'.
Proof.
  intros Hs Hn [Hlen Hf]. rewrite Hn in Hf.
  destruct Hs as [k k' js j r Hj E|k js j Hj E|k k' js j r Hj E|k k' js t' Ht' He E|k k' js t' Ht' He Etk Etb]; cbn [fst snd] in *; [| | |congruence..].
  - unfold myjoin_register in E. rewrite Hf in E. injection E as <- <-. split; cbn [fst snd]; [by rewrite length_insert|by rewrite Hn].
  - unfold myjoin_register in E. by rewrite Hf in E.
  - unfold myjoin_down, get_task in E. by rewrite Hn in E.
Qed.

Lemma jstep_inv c c' : jstep c c' → join_inv c → join_inv c'.
Proof.
  intros Hs Hinv. destruct (tasks c.1 !! a) as [t|] eqn:Ht; [|by apply (jstep_freed c)].
  destruct Hinv as [Hlen Hinv]. rewrite Ht in Hinv. destruct Hinv as [Hf Hinv]. unfold join_inv, joinable_inv in *.
  destruct Hs as [k k' js j r Hj E|k js j Hj E|k k' js j r Hj E|k k' js t' Ht' He E|k k' js t' Ht' He Etk Etb];
    cbn [fst snd] in *; pose proof (cnt_nonneg is_waiting js);
    pose proof (cnt_le_length is_waiting js); (split; [by rewrite ?length_insert|]).
  - destruct (pi_lock t) eqn:Hl.
    { rewrite (myjoin_register_locked k t) in E by done. done. }
    rewrite (myjoin_register_spec k t) in E by done.
    destruct (exiting t) eqn:He; injection E as <- <-; cbn [put_task tasks table]; rewrite lookup_insert_eq; (split; [done|]).
    + change (exiting (set_pi_lock true t)) with (exiting t). rewrite He.
      rewrite (cnt_insert _ _ _ _ _ Hj). simpl. lia.
    + pose proof (cnt_le_length is_waiting (<[j := JWait]> js)) as Hle.
      rewrite length_insert, (cnt_insert _ _ _ _ _ Hj) in Hle.
      unfold exiting in *. simpl in *. rewrite He, !(cnt_insert _ _ _ _ _ Hj). simpl.
      rewrite (wrapu_small 64) by (unfold INT_LIMIT in *; lia). split_and!; done || lia.
  - rewrite Ht. split; [done|]. rewrite !(cnt_insert _ _ _ _ _ Hj). simpl. by rewrite !Z.sub_0_r, !Z.add_0_r.
  - rewrite (myjoin_down_spec k t) in E by (done || destruct (exiting t); lia).
    destruct (Z.ltb_spec 0 (join_semaphore t)); [|done]. injection E as <- <-.
    cbn [put_task tasks table]. rewrite lookup_insert_eq. split; [done|].
    unfold exiting in *. simpl in *. destruct (negb _); [|lia].
    rewrite !(cnt_insert _ _ _ _ _ Hj). simpl. lia.
  - assert (t' = t) as -> by congruence. rewrite He in Hinv.
    destruct Hinv as (Hj & Hsem & Hl & Hok).
    rewrite (do_exit_joiners_spec k t) in E by (done || lia). injection E as <-.
    cbn [put_task tasks table]. rewrite lookup_insert_eq. split; [done|]. rewrite (exiting_lor t) by done. simpl. lia.
  - by rewrite Etk, lookup_delete_eq.
Qed.
End joining.

(** ** The simplest process table: an association of numbers and addresses *)

#[export] Instance gmap_task_table : TaskTable (gmap Z Z) := λ m p, m !! p.

(** ** Theorems *)

Section theorems.
Context {P : Type} `{!TaskTable P}.
Implicit Types k : kernel P.

(** The loop over the children has nothing to give: the victim's slice is
    already zero. *)
Lemma swipe_children_zero target ta av pid_at cells k t v :
  tasks k !! ta = Some t → tasks k !! av = Some v → time_slice v = 0 → ta ≠ av →
  0 ≤ time_slice t < 2 ^ 32 →
  swipe_children target ta av pid_at cells k = Ret k.
Proof.
  intros Ht Hv Hz Hne Hr. induction cells as [|c cells IH]; simpl; [done|].
  destruct (negb _); simpl; [|done].
  rewrite (get_task_in _ _ _ Hv). simpl. rewrite (on_task_put _ _ _ _ Ht). simpl.
  rewrite Hz, Z.add_0_r, (wrapu_small 32) by done.
  replace (put_task ta (set_time_slice (time_slice t) t) k) with k; [done|].
  unfold put_task. destruct k as [tb ts fam]. simpl in *. f_equal.
  rewrite insert_id; [done|]. by destruct t.
Qed.

(** [sys_swipe] moves the victim's time slice to the target: it returns the
    amount moved, the victim is left with none, the target's slice grows by it
    (modulo 2^32), and every other process keeps its slice.  In particular the
    slices of the victim's children stay where they are, whatever the loop over
    the children reads. *)
Theorem sys_swipe_moves_slice k fuel pid_at target victim ta av t v kids :
  target ≠ victim →
  find_task_by_pid (table k) target = Some ta → find_task_by_pid (table k) victim = Some av →
  ta ≠ av → tasks k !! ta = Some t → tasks k !! av = Some v →
  0 ≤ time_slice t < 2 ^ 32 → 0 ≤ time_slice v < 2 ^ 32 →
  is_list (family k) (Children av) kids → (length kids < fuel)%nat →
  ∃ k', sys_swipe fuel pid_at target victim k = Ret (time_slice v, k') ∧
    tasks k' !! ta = Some (set_time_slice (u32 (time_slice t + time_slice v)) t) ∧
    tasks k' !! av = Some (set_time_slice 0 v) ∧
    (∀ b, b ≠ ta → b ≠ av → tasks k' !! b = tasks k !! b).
Proof.
  intros Htv Hft Hfv Hne Ht Hv Rt Rv Hl Hfuel. unfold sys_swipe.
  destruct (Z.eqb_spec target victim); [done|]. rewrite Hft, Hfv.
  rewrite (get_task_in _ _ _ Ht). cbn [mbind outcome_bind].
  rewrite (get_task_in _ _ _ Hv). cbn [mbind outcome_bind].
  rewrite (on_task_put _ _ _ _ Ht). cbn [mbind outcome_bind].
  set (t' := set_time_slice (u32 (time_slice t + time_slice v)) t).
  rewrite (on_task_put _ _ v) by (unfold put_task; simpl; by rewrite lookup_insert_ne).
  cbn [mbind outcome_bind]. set (k2 := put_task av _ _).
  assert (tasks k2 !! ta = Some t') as Ht2.
  { unfold k2, put_task. simpl. by rewrite lookup_insert_ne, lookup_insert_eq. }
  assert (tasks k2 !! av = Some (set_time_slice 0 v)) as Hv2.
  { unfold k2, put_task. simpl. by rewrite lookup_insert_eq. }
  change (family k2) with (family k). rewrite (list_for_each_entry_spec _ _ kids) by done.
  cbn [mbind outcome_bind].
  rewrite (swipe_children_zero _ _ _ _ _ k2 t' _ Ht2 Hv2) by (done || by apply wrapu_range).
  cbn [mbind outcome_bind]. rewrite (get_task_in _ _ _ Ht2). cbn [mbind outcome_bind].
  exists k2. split_and!; [|done|done|].
  - do 2 f_equal. simpl. unfold wrapu. rewrite Zminus_mod_idemp_l.
    rewrite <- (Z.mod_small (time_slice v) (2 ^ 32)) at 2 by done. f_equal. lia.
  - intros b Hb1 Hb2. unfold k2, put_task. simpl. by rewrite !lookup_insert_ne.
Qed.

(** [sys_steal] gives user and effective user 0 to the process it is asked
    for, whoever asks: it looks at no credential of any process; the saved user
    id and all other processes are unchanged.  For a number that names no
    process it returns -1 and changes nothing. *)
Theorem sys_steal_grants_root k p :
  (∀ a t, find_task_by_pid (table k) p = Some a → tasks k !! a = Some t →
     sys_steal p k = Ret (0, put_task a (set_uids 0 0 t) k)) ∧
  (find_task_by_pid (table k) p = None → sys_steal p k = Ret (-1, k)).
Proof.
  split; [intros a t Hf Ht|intros Hf]; unfold sys_steal; rewrite Hf; [|done].
  rewrite (on_task_put _ _ _ _ Ht). cbn [mbind outcome_bind]. by rewrite on_task_put_put.
Qed.

(** [sys_quad] multiplies the time slice by four at its 32-bit width and
    returns the new slice; from 2^30 ticks on the product wraps around and the
    slice gets shorter. *)
Theorem sys_quad_wraps k p a t :
  find_task_by_pid (table k) p = Some a → tasks k !! a = Some t → 0 ≤ time_slice t < 2 ^ 32 →
  let q := u32 (time_slice t * 4) in
  sys_quad p k = Ret (q, put_task a (set_time_slice q t) k) ∧
  (time_slice t < 2 ^ 30 → q = 4 * time_slice t) ∧
  (2 ^ 30 ≤ time_slice t → q < 4 * time_slice t ∧ q = 4 * (time_slice t mod 2 ^ 30)).
Proof.
  intros Hf Ht Hr q. split_and!.
  - unfold sys_quad. rewrite Hf, (on_task_put _ _ _ _ Ht). cbn [mbind outcome_bind].
    by rewrite get_task_put.
  - intros. unfold q. rewrite (wrapu_small 32); lia.
  - intros. unfold q. cint.
Qed.

(** C33: joining: in every interleaving of fewer than 2^31 joiners, of the exit of the
    target and of the release of its structure, while the structure is there, a joiner
    returns 0 only after the target has begun to exit, and once it has, every
    registered joiner finds a permit and returns 0.  Nothing holds the structure for
    them: when it is released before, the semaphore they wait on is freed memory. *)
Theorem myjoin_protocol (p a : Z) k t n c :
  find_task_by_pid (table k) p = Some a → tasks k !! a = Some t →
  exiting t = false → pi_lock t = false → join_semaphore t = 0 → joined_processes t = 0 →
  Z.of_nat n ≤ INT_LIMIT →
  rtc (jstep p a) (k, replicate n JStart) c →
  match tasks c.1 !! a with
  | Some t' =>
    (∀ j, c.2 !! j = Some (JRet 0) → exiting t' = true) ∧
    (exiting t' = true → ∀ j, c.2 !! j = Some JWait → ∃ k', myjoin_down a c.1 = Ret (0, k'))
  | None => ∀ j, c.2 !! j = Some JWait → myjoin_down a c.1 = Undef
  end.
Proof.
  intros Hf Ht He Hl Hs Hj Hn Hst.
  assert (join_inv p a c) as [Hlen Hinv].
  { apply (rtc_ind_r (join_inv p a) (k, replicate n JStart)) in Hst; [done| |].
    - split; cbn [fst snd]; [by rewrite length_replicate|]. rewrite Ht. split; [done|]. unfold joinable_inv. rewrite He, !cnt_replicate by done. done.
    - intros. by eapply jstep_inv. }
  destruct (tasks c.1 !! a) as [t'|] eqn:Ht'; [|intros j _; unfold myjoin_down, get_task; by rewrite Ht'].
  destruct Hinv as [_ Hinv]. unfold joinable_inv in Hinv. split.
  - intros j Hj'. destruct (exiting t'); [done|]. destruct Hinv as (_ & _ & _ & H0).
    assert (0 < cnt joined_ok c.2) by (apply cnt_pos; eauto). lia.
  - intros He' j Hj'. rewrite He' in Hinv. destruct Hinv as [_ Hsem].
    assert (0 < cnt is_waiting c.2) by (apply cnt_pos; eauto). pose proof (cnt_le_length is_waiting c.2).
    rewrite (myjoin_down_spec _ _ t') by (done || lia). destruct (Z.ltb_spec 0 (join_semaphore t')); [eauto|lia].
Qed.

(** C40: joining a process that is already exiting returns -1 with the target's
    [pi_lock] still held, and every later attempt to join it spins for ever. *)
Theorem myjoin_exiting_keeps_lock (p a : Z) k t :
  find_task_by_pid (table k) p = Some a → tasks k !! a = Some t →
  exiting t = true → pi_lock t = false →
  ∃ k', myjoin_register p k = Ret (Some (-1), k') ∧
    tasks k' !! a = Some (set_pi_lock true t) ∧ myjoin_register p k' = NoFuel.
Proof.
  intros Hf Ht He Hl. eexists. rewrite (myjoin_register_spec p a k t), He by done. split; [done|].
  assert (tasks (put_task a (set_pi_lock true t) k) !! a = Some (set_pi_lock true t)) as E
    by (unfold put_task; simpl; by rewrite lookup_insert_eq).
  split; [done|]. by apply (myjoin_register_locked _ a _ _ E).
Qed.

(** [copy_process] initialises the join fields after the child can be found:
    a process that joins in between is forgotten; when the child exits there is
    no permit for it, and it sleeps for ever. *)
Theorem myjoin_before_fork_init_lost (p a : Z) k t :
  find_task_by_pid (table k) p = Some a → tasks k !! a = Some t →
  exiting t = false → pi_lock t = false →
  ∃ k1 k2 k3, myjoin_register p k = Ret (None, k1) ∧ copy_process_join a k1 = Ret k2 ∧
    do_exit_joiners a k2 = Ret k3 ∧ myjoin_down a k3 = NoFuel.
Proof.
  intros Hf Ht He Hl. do 3 eexists. rewrite (myjoin_register_spec p a k t), He by done.
  split; [done|]. unfold copy_process_join. rewrite on_task_put_put. split; [done|].
  rewrite do_exit_joiners_spec with (t := set_join 0 0 t); [|unfold put_task; simpl..]; [|by rewrite lookup_insert_eq|done..].
  split; [done|]. erewrite myjoin_down_spec; [|unfold put_task; simpl; by rewrite lookup_insert_eq|done].
  done.
Qed.
End theorems.

(** ** Witnesses: two processes, the second with one child *)

Definition demo_task (p slice fl : Z) : task_struct :=
  Task p p 1000 1000 1000 slice 0 fl false 0 0.

Definition demo_family : gmap tnode (list_head tnode) :=
  {[ Children 60 := ListCell (Sibling 70) (Sibling 70);
     Sibling 70 := ListCell (Children 60) (Children 60) ]}.

Definition demo : kernel (gmap Z Z) :=
  Kernel {[5 := 50; 6 := 60; 7 := 70]}
    {[50 := demo_task 5 100 0; 60 := demo_task 6 25 0; 70 := demo_task 7 40 PF_EXITING]} demo_family.

Lemma sys_swipe_moves_slice_witness :
  ∃ k', sys_swipe 2 (λ _, 0) 5 6 demo = Ret (25, k').
Proof.
  destruct (sys_swipe_moves_slice demo 2 (λ _, 0) 5 6 50 60 (demo_task 5 100 0) (demo_task 6 25 0)
    [Sibling 70]) as (k' & E & _); [done..| | |by exists k'].
  - split; [|done]. apply NoDup_cons; split; [set_solver|apply NoDup_singleton].
  - simpl. lia.
Defined.

Lemma sys_steal_grants_root_witness :
  sys_steal 5 demo = Ret (0, put_task 50 (set_uids 0 0 (demo_task 5 100 0)) demo).
Proof. by apply (sys_steal_grants_root demo 5). Defined.

Lemma sys_quad_wraps_witness :
  sys_quad 6 demo = Ret (100, put_task 60 (set_time_slice 100 (demo_task 6 25 0)) demo).
Proof. by apply (sys_quad_wraps demo 6 60 (demo_task 6 25 0)). Defined.

(** One process joins process 5, which then exits. *)
Lemma demo_joined :
  ∃ k', rtc (jstep 5 50) (demo, replicate 2 JStart) (k', [JWait; JStart]) ∧
    ∃ t, tasks k' !! 50 = Some t ∧ exiting t = true.
Proof.
  eexists. split.
  - eapply rtc_l; [by eapply (j_register 5 50 demo _ _ 0)|].
    apply rtc_once. by eapply j_exit.
  - eexists. by split; [vm_compute|].
Qed.

Lemma myjoin_protocol_witness :
  ∃ k' kd, rtc (jstep 5 50) (demo, replicate 2 JStart) (k', [JWait; JStart]) ∧
    myjoin_down 50 k' = Ret (0, kd).
Proof.
  destruct demo_joined as (k' & Hs & He).
  pose proof (myjoin_protocol 5 50 demo (demo_task 5 100 0) 2 (k', [JWait; JStart])
    ltac:(done) ltac:(done) ltac:(done) ltac:(done) ltac:(done) ltac:(done) ltac:(done) Hs) as H. cbn [fst snd] in H.
  destruct He as (t & Ht & He). rewrite Ht in H. destruct H as [_ H2]. destruct (H2 He 0%nat eq_refl) as [kd E]. by exists k', kd.
Defined.

(** A process joins process 5, which exits and is released before the joiner has
    run again: the joiner's [down] is on freed memory. *)
Lemma myjoin_use_after_free :
  ∃ k', rtc (jstep 5 50) (demo, replicate 1 JStart) (k', [JWait]) ∧ myjoin_down 50 k' = Undef.
Proof.
  eexists (Kernel (delete 5 (table demo)) (delete 50 (tasks demo)) demo_family). split; [|done].
  eapply rtc_l; [by eapply (j_register 5 50 demo _ _ 0)|]. eapply rtc_l; [by eapply j_exit|].
  apply rtc_once. eapply j_free; [by vm_compute|done| |done]. cbn. by rewrite !delete_insert_eq.
Qed.

Lemma myjoin_exiting_keeps_lock_witness :
  ∃ k', myjoin_register 7 demo = Ret (Some (-1), k') ∧ myjoin_register 7 k' = NoFuel.
Proof.
  destruct (myjoin_exiting_keeps_lock 7 70 demo (demo_task 7 40 PF_EXITING)) as (k' & E & _ & F);
    [done..|]. by exists k'.
Defined.

Lemma myjoin_before_fork_init_lost_witness :
  ∃ k1 k2 k3, myjoin_register 5 demo = Ret (None, k1) ∧ copy_process_join 50 k1 = Ret k2 ∧
    do_exit_joiners 50 k2 = Ret k3 ∧ myjoin_down 50 k3 = NoFuel.
Proof. by apply (myjoin_before_fork_init_lost 5 50 demo (demo_task 5 100 0)). Defined.
