(* ===== verification/Fat12.v ===== *)
(** The FAT12 reader of [FAT12/src/fat12.c] and [FAT12/include/fat12.h]: reading
    the boot sector, the file allocation table and the root directory of a disk
    image.  A file descriptor is a byte list with a position and the positions at
    which a read reports an error; memory that the program has not initialised is
    an argument of the definitions that read it. *)

From S2P Require Import Prelude.

(** ** Files *)

Record file := File { f_bytes : list Z; f_pos : Z; f_err : Z → bool }.

(** The [n] bytes at offset [o], fewer at the end of the file. *)
Definition slice (bs : list Z) (o n : Z) : list Z := take (Z.to_nat n) (drop (Z.to_nat o) bs).

(** [read(2)]: the bytes read, or [None] for an error. *)
Definition read (n : Z) (f : file) : option (list Z) * file :=
  if f_err f (f_pos f) then (None, f) else
  let got := slice (f_bytes f) (f_pos f) n in
  (Some got, File (f_bytes f) (f_pos f + Z.of_nat (length got)) (f_err f)).

(** Signed [int] arithmetic: leaving the range is undefined. *)
Definition int_of (x : Z) : outcome Z :=
  if (- 2 ^ 31 <=? x) && (x <? 2 ^ 31) then Ret x else Undef.

(** ** Structures *)

Definition BOOT_MEMBER_SIZE : Z := 512.

Record boot_t := Boot {
  jmp_boot : list Z;
  oem_name : list Z;
  bytes_per_sector : Z;
  sectors_per_cluster : Z;
  reserved_sectors : Z;
  fat_copies : Z;
  max_root_dir_entries : Z;
  total_sectors : Z;
  media_type : Z;
  sectors_per_fat : Z;
  sectors_per_track : Z;
  num_heads : Z;
  num_hidden : Z;
  bootstrap : list Z;
  signature : list Z
}.

Definition DIR_ENTRY_MEMBER_SIZE : Z := 32.

Definition MAX_FILE_NAME : Z := 8.

Definition MAX_EXTENSION : Z := 3.

Record direntry_t := Direntry {
  filename : list Z;
  extension : list Z;
  attributes : Z;
  reserved_bytes : list Z;
  time : Z;
  date : Z;
  start_cluster : Z;
  filesize : Z
}.

(** Pointers: [None] is NULL for the two arrays and an indeterminate pointer for
    [volume_label], which otherwise is an index into the root directory. *)
Record fat12_t := Fat12 {
  boot : boot_t;
  media_descriptor : Z;
  eof_marker : Z;
  fat_entries : option (list Z);
  root_dir_entries : option (list direntry_t);
  volume_label : option Z
}.

Definition FILE_DELETED : Z := 229.

Definition ENTRY_FREE : Z := 0.

Definition READ_ONLY : Z := 1.

Definition VOLUME_LABEL : Z := 8.

(** ** Reading helpers *)

(** [bool_read]: a failed read leaves the destination as it was; a short read
    overwrites only its beginning and still counts as success. *)
Definition bool_read (n : Z) (old : list Z) (f : file) : bool * list Z * file :=
  match read n f with
  | (None, f) => (false, old, f)
  | (Some got, f) => (true, got ++ slice old (Z.of_nat (length got)) (n - Z.of_nat (length got)), f)
  end.

(** [bool_seek]: [lseek] is called without a declaration, so its result is an
    [int]. *)
Definition bool_seek (n : Z) (f : file) : bool * file :=
  let np := f_pos f + s64 n in
  if np <? 0 then (false, f) else (0 <=? s32 np, File (f_bytes f) np (f_err f)).

Definition read_uint8 (old : Z) (f : file) : bool * Z * file :=
  let '(ok, bs, f) := bool_read 1 (le_bytes 1 old) f in (ok, le_val bs, f).

Definition read_uint16_little_endian (old : Z) (f : file) : bool * Z * file :=
  let '(ok, bs, f) := bool_read 2 (le_bytes 2 old) f in (ok, le_val bs, f).

Definition read_uint32_little_endian (old : Z) (f : file) : bool * Z * file :=
  let '(ok, bs, f) := bool_read 4 (le_bytes 4 old) f in (ok, le_val bs, f).

(** [stack] is what the uninitialised [tmp] holds when the read at a position is
    made.  [None] means that [integers] is left alone. *)
Definition read_twelve_bits_twice (stack : Z → list Z) (f : file)
    : outcome (option (Z * Z) * file) :=
  let '(ok, tmp, f) := bool_read 3 (stack (f_pos f)) f in
  if negb ok then Ret (None, f) else
  t0 ← aget tmp 0; t1 ← aget tmp 1; t2 ← aget tmp 2;
  Ret (Some (Z.lor (Z.shiftl (Z.land t1 15) 8) t0,
             u16 (Z.lor (Z.shiftl t2 4) (Z.shiftr (Z.land t1 240) 4))), f).

(** ** Chains of reads

    The reading functions are [&&] chains: each link updates the structure and
    the file position and says whether to go on. *)
Definition chain (S : Type) : Type := S * file → outcome (bool * (S * file)).

Definition andthen {S} (a b : chain S) : chain S := λ s,
  '(ok, s) ← a s;
  if ok : bool then b s else Ret (false, s).

Declare Scope chain_scope.
Delimit Scope chain_scope with chain.
Infix "&&&" := andthen (at level 40, left associativity) : chain_scope.
#[local] Open Scope chain_scope.

(** A link that reads into one member. *)
Definition link {S A} (rd : A → file → bool * A * file) (get : S → A) (set : A → S → S) : chain S :=
  λ '(s, f), let '(ok, v, f) := rd (get s) f in Ret (ok, (set v s, f)).

Definition seek {S} (n : S → outcome Z) : chain S :=
  λ '(s, f), n ← n s; let '(ok, f) := bool_seek n f in Ret (ok, (s, f)).

Definition set_jmp_boot v (b : boot_t) := Boot v (oem_name b) (bytes_per_sector b) (sectors_per_cluster b) (reserved_sectors b) (fat_copies b) (max_root_dir_entries b) (total_sectors b) (media_type b) (sectors_per_fat b) (sectors_per_track b) (num_heads b) (num_hidden b) (bootstrap b) (signature b).
Definition set_oem_name v (b : boot_t) := Boot (jmp_boot b) v (bytes_per_sector b) (sectors_per_cluster b) (reserved_sectors b) (fat_copies b) (max_root_dir_entries b) (total_sectors b) (media_type b) (sectors_per_fat b) (sectors_per_track b) (num_heads b) (num_hidden b) (bootstrap b) (signature b).
Definition set_bytes_per_sector v (b : boot_t) := Boot (jmp_boot b) (oem_name b) v (sectors_per_cluster b) (reserved_sectors b) (fat_copies b) (max_root_dir_entries b) (total_sectors b) (media_type b) (sectors_per_fat b) (sectors_per_track b) (num_heads b) (num_hidden b) (bootstrap b) (signature b).
Definition set_sectors_per_cluster v (b : boot_t) := Boot (jmp_boot b) (oem_name b) (bytes_per_sector b) v (reserved_sectors b) (fat_copies b) (max_root_dir_entries b) (total_sectors b) (media_type b) (sectors_per_fat b) (sectors_per_track b) (num_heads b) (num_hidden b) (bootstrap b) (signature b).
Definition set_reserved_sectors v (b : boot_t) := Boot (jmp_boot b) (oem_name b) (bytes_per_sector b) (sectors_per_cluster b) v (fat_copies b) (max_root_dir_entries b) (total_sectors b) (media_type b) (sectors_per_fat b) (sectors_per_track b) (num_heads b) (num_hidden b) (bootstrap b) (signature b).
Definition set_fat_copies v (b : boot_t) := Boot (jmp_boot b) (oem_name b) (bytes_per_sector b) (sectors_per_cluster b) (reserved_sectors b) v (max_root_dir_entries b) (total_sectors b) (media_type b) (sectors_per_fat b) (sectors_per_track b) (num_heads b) (num_hidden b) (bootstrap b) (signature b).
Definition set_max_root_dir_entries v (b : boot_t) := Boot (jmp_boot b) (oem_name b) (bytes_per_sector b) (sectors_per_cluster b) (reserved_sectors b) (fat_copies b) v (total_sectors b) (media_type b) (sectors_per_fat b) (sectors_per_track b) (num_heads b) (num_hidden b) (bootstrap b) (signature b).
Definition set_total_sectors v (b : boot_t) := Boot (jmp_boot b) (oem_name b) (bytes_per_sector b) (sectors_per_cluster b) (reserved_sectors b) (fat_copies b) (max_root_dir_entries b) v (media_type b) (sectors_per_fat b) (sectors_per_track b) (num_heads b) (num_hidden b) (bootstrap b) (signature b).
Definition set_media_type v (b : boot_t) := Boot (jmp_boot b) (oem_name b) (bytes_per_sector b) (sectors_per_cluster b) (reserved_sectors b) (fat_copies b) (max_root_dir_entries b) (total_sectors b) v (sectors_per_fat b) (sectors_per_track b) (num_heads b) (num_hidden b) (bootstrap b) (signature b).
Definition set_sectors_per_fat v (b : boot_t) := Boot (jmp_boot b) (oem_name b) (bytes_per_sector b) (sectors_per_cluster b) (reserved_sectors b) (fat_copies b) (max_root_dir_entries b) (total_sectors b) (media_type b) v (sectors_per_track b) (num_heads b) (num_hidden b) (bootstrap b) (signature b).
Definition set_sectors_per_track v (b : boot_t) := Boot (jmp_boot b) (oem_name b) (bytes_per_sector b) (sectors_per_cluster b) (reserved_sectors b) (fat_copies b) (max_root_dir_entries b) (total_sectors b) (media_type b) (sectors_per_fat b) v (num_heads b) (num_hidden b) (bootstrap b) (signature b).
Definition set_num_heads v (b : boot_t) := Boot (jmp_boot b) (oem_name b) (bytes_per_sector b) (sectors_per_cluster b) (reserved_sectors b) (fat_copies b) (max_root_dir_entries b) (total_sectors b) (media_type b) (sectors_per_fat b) (sectors_per_track b) v (num_hidden b) (bootstrap b) (signature b).
Definition set_num_hidden v (b : boot_t) := Boot (jmp_boot b) (oem_name b) (bytes_per_sector b) (sectors_per_cluster b) (reserved_sectors b) (fat_copies b) (max_root_dir_entries b) (total_sectors b) (media_type b) (sectors_per_fat b) (sectors_per_track b) (num_heads b) v (bootstrap b) (signature b).
Definition set_bootstrap v (b : boot_t) := Boot (jmp_boot b) (oem_name b) (bytes_per_sector b) (sectors_per_cluster b) (reserved_sectors b) (fat_copies b) (max_root_dir_entries b) (total_sectors b) (media_type b) (sectors_per_fat b) (sectors_per_track b) (num_heads b) (num_hidden b) v (signature b).
Definition set_signature v (b : boot_t) := Boot (jmp_boot b) (oem_name b) (bytes_per_sector b) (sectors_per_cluster b) (reserved_sectors b) (fat_copies b) (max_root_dir_entries b) (total_sectors b) (media_type b) (sectors_per_fat b) (sectors_per_track b) (num_heads b) (num_hidden b) (bootstrap b) v.

(** ** Boot sector *)

Definition skip_remaining_boot_sector : chain boot_t :=
  seek (λ b, Ret (u64 (bytes_per_sector b - BOOT_MEMBER_SIZE))).

Definition read_boot_sector : chain boot_t :=
  link (bool_read 3) jmp_boot set_jmp_boot &&&
  link (bool_read 8) oem_name set_oem_name &&&
  link read_uint16_little_endian bytes_per_sector set_bytes_per_sector &&&
  link read_uint8 sectors_per_cluster set_sectors_per_cluster &&&
  link read_uint16_little_endian reserved_sectors set_reserved_sectors &&&
  link read_uint8 fat_copies set_fat_copies &&&
  link read_uint16_little_endian max_root_dir_entries set_max_root_dir_entries &&&
  link read_uint16_little_endian total_sectors set_total_sectors &&&
  link read_uint8 media_type set_media_type &&&
  link read_uint16_little_endian sectors_per_fat set_sectors_per_fat &&&
  link read_uint16_little_endian sectors_per_track set_sectors_per_track &&&
  link read_uint16_little_endian num_heads set_num_heads &&&
  link read_uint16_little_endian num_hidden set_num_hidden &&&
  link (bool_read 480) bootstrap set_bootstrap &&&
  link (bool_read 2) signature set_signature &&&
  skip_remaining_boot_sector.

Definition skip_reserved_sectors : chain boot_t :=
  seek (λ b, r ← int_of ((reserved_sectors b - 1) * bytes_per_sector b); Ret (u32 r)).

(** ** Directory entries *)

Definition set_filename v (e : direntry_t) := Direntry v (extension e) (attributes e) (reserved_bytes e) (time e) (date e) (start_cluster e) (filesize e).
Definition set_extension v (e : direntry_t) := Direntry (filename e) v (attributes e) (reserved_bytes e) (time e) (date e) (start_cluster e) (filesize e).
Definition set_attributes v (e : direntry_t) := Direntry (filename e) (extension e) v (reserved_bytes e) (time e) (date e) (start_cluster e) (filesize e).
Definition set_reserved_bytes v (e : direntry_t) := Direntry (filename e) (extension e) (attributes e) v (time e) (date e) (start_cluster e) (filesize e).
Definition set_time v (e : direntry_t) := Direntry (filename e) (extension e) (attributes e) (reserved_bytes e) v (date e) (start_cluster e) (filesize e).
Definition set_date v (e : direntry_t) := Direntry (filename e) (extension e) (attributes e) (reserved_bytes e) (time e) v (start_cluster e) (filesize e).
Definition set_start_cluster v (e : direntry_t) := Direntry (filename e) (extension e) (attributes e) (reserved_bytes e) (time e) (date e) v (filesize e).
Definition set_filesize v (e : direntry_t) := Direntry (filename e) (extension e) (attributes e) (reserved_bytes e) (time e) (date e) (start_cluster e) v.

Definition read_directory_entry : chain direntry_t :=
  link (bool_read MAX_FILE_NAME) filename set_filename &&&
  link (bool_read MAX_EXTENSION) extension set_extension &&&
  link read_uint8 attributes set_attributes &&&
  link (bool_read 10) reserved_bytes set_reserved_bytes &&&
  link read_uint16_little_endian time set_time &&&
  link read_uint16_little_endian date set_date &&&
  link read_uint16_little_endian start_cluster set_start_cluster &&&
  link read_uint32_little_endian filesize set_filesize.

Definition is_volume_label (e : direntry_t) : bool := z2b (Z.land (attributes e) VOLUME_LABEL).

Definition first_char (e : direntry_t) : Z := default 0 (filename e !! 0%nat).

Definition is_entry_free (e : direntry_t) : bool := first_char e =? ENTRY_FREE.

Definition is_entry_deleted (e : direntry_t) : bool := first_char e =? FILE_DELETED.

Definition is_regular_entry (e : direntry_t) : bool :=
  negb (is_volume_label e) && negb (is_entry_deleted e).

(** ** The file allocation table *)

Definition set_boot v (t : fat12_t) := Fat12 v (media_descriptor t) (eof_marker t) (fat_entries t) (root_dir_entries t) (volume_label t).
Definition set_marks m e (t : fat12_t) := Fat12 (boot t) m e (fat_entries t) (root_dir_entries t) (volume_label t).
Definition set_fat_entries v (t : fat12_t) := Fat12 (boot t) (media_descriptor t) (eof_marker t) v (root_dir_entries t) (volume_label t).
Definition set_root_dir_entries v (t : fat12_t) := Fat12 (boot t) (media_descriptor t) (eof_marker t) (fat_entries t) v (volume_label t).
Definition set_volume_label v (t : fat12_t) := Fat12 (boot t) (media_descriptor t) (eof_marker t) (fat_entries t) (root_dir_entries t) v.

(** What the environment supplies: the contents of uninitialised memory, and
    whether an allocation of a number of elements succeeds (with the initial
    contents of the block). *)
Record env := Env {
  stack : Z → list Z;
  malloc_entries : Z → option (list Z);
  malloc_dir : Z → option (list direntry_t)
}.

(** The loop that fills [fat_entries] two at a time. *)
Fixpoint fill_entries (fuel : nat) (env : env) (i num : Z) (arr : list Z) (f : file)
    : outcome (bool * list Z * file) :=
  match fuel with
  | O => NoFuel
  | S fuel =>
    if i <? num then
      '(r, f) ← read_twelve_bits_twice (stack env) f;
      match r with
      | None => Ret (false, arr, f)
      | Some (x, y) =>
        arr ← aset arr i x;
        arr ← aset arr (i + 1) y;
        fill_entries fuel env (i + 2) num arr f
      end
    else Ret (true, arr, f)
  end.

Definition num_fat_entries_of (bytes_per_fat : Z) : Z := u32 (u32 (bytes_per_fat * 2) / 3 - 2).

Definition read_file_allocation_tables (env : env) : chain fat12_t := λ '(fat, f),
  let b := boot fat in
  '(r, f) ← read_twelve_bits_twice (stack env) f;
  match r with
  | None => Ret (false, (fat, f))
  | Some (x, y) =>
    let fat := set_marks (u8 x) y fat in
    p ← int_of (sectors_per_fat b * bytes_per_sector b);
    let bytes_per_fat := u32 p in
    let num := num_fat_entries_of bytes_per_fat in
    match malloc_entries env num with
    | None => Ret (false, (set_fat_entries None fat, f))
    | Some arr =>
      '(ok, arr, f) ← fill_entries (S (Z.to_nat num)) env 0 num arr f;
      let fat := set_fat_entries (Some arr) fat in
      if negb ok then Ret (false, (fat, f)) else
      let '(ok, f) := bool_seek (u32 ((fat_copies b - 1) * bytes_per_fat)) f in
      Ret (ok, (fat, f))
    end
  end.

(** ** The root directory *)

Fixpoint fill_root (n : nat) (i : Z) (dir : list direntry_t) (vol : option Z) (f : file)
    : outcome (bool * list direntry_t * option Z * file) :=
  match n with
  | O => Ret (true, dir, vol, f)
  | S n =>
    e ← aget dir i;
    '(ok, (e, f)) ← read_directory_entry (e, f);
    dir ← aset dir i e;
    if negb ok then Ret (false, dir, vol, f) else
    if is_entry_free e then Ret (true, dir, vol, f) else
    fill_root n (i + 1) dir (if is_volume_label e then Some i else vol) f
  end.

Definition read_root_directory (env : env) : chain fat12_t := λ '(fat, f),
  let max := max_root_dir_entries (boot fat) in
  match malloc_dir env max with
  | None => Ret (false, (set_root_dir_entries None fat, f))
  | Some dir =>
    '(ok, dir, vol, f) ← fill_root (Z.to_nat max) 0 dir (volume_label fat) f;
    Ret (ok, (set_volume_label vol (set_root_dir_entries (Some dir) fat), f))
  end.

(** ** The whole file system *)

(** Run a chain on the boot member of the structure. *)
Definition on_boot (c : chain boot_t) : chain fat12_t := λ '(fat, f),
  '(ok, (b, f)) ← c (boot fat, f); Ret (ok, (set_boot b fat, f)).

Definition read_fat12 (env : env) : chain fat12_t := λ '(fat, f),
  let fat := set_root_dir_entries None (set_fat_entries None fat) in
  (on_boot read_boot_sector &&&
   on_boot skip_reserved_sectors &&&
   read_file_allocation_tables env &&&
   read_root_directory env) (fat, f).

(** [free_fat12]: both arrays are gone. *)
Definition free_fat12 (fat : fat12_t) : fat12_t :=
  set_root_dir_entries None (set_fat_entries None fat).

(** ** What the bytes of an image mean *)

Definition byte_at (bs : list Z) (o : Z) : Z := default 0 (bs !! Z.to_nat o).

(** The boot sector laid out as the comments of [boot_t] say. *)
Definition decode_boot (bs : list Z) : boot_t :=
  let w o n := le_val (slice bs o n) in
  Boot (slice bs 0 3) (slice bs 3 8) (w 11 2) (w 13 1) (w 14 2) (w 16 1) (w 17 2) (w 19 2)
    (w 21 1) (w 22 2) (w 24 2) (w 26 2) (w 28 2) (slice bs 30 480) (slice bs 510 2).

Definition decode_direntry (bs : list Z) (o : Z) : direntry_t :=
  let w p n := le_val (slice bs (o + p) n) in
  Direntry (slice bs o 8) (slice bs (o + 8) 3) (w 11 1) (slice bs (o + 12) 10) (w 22 2) (w 24 2)
    (w 26 2) (w 28 4).

(** Entry [k] of a FAT12 table at [base]: the 12 bits at bit offset [12 k]. *)
Definition fat12_entry (bs : list Z) (base k : Z) : Z :=
  let o := base + 3 * (k / 2) in
  let w := byte_at bs o + 256 * byte_at bs (o + 1) + 65536 * byte_at bs (o + 2) in
  if Z.even k then w mod 4096 else w / 4096.

(** Regions of the disk, in bytes. *)
Definition fat_bytes (b : boot_t) : Z := sectors_per_fat b * bytes_per_sector b.

Definition fat_base (b : boot_t) : Z := reserved_sectors b * bytes_per_sector b.

Definition root_base (b : boot_t) : Z := fat_base b + fat_copies b * fat_bytes b.

(** An open image without read errors, at a position. *)
Definition at_pos (bs : list Z) (p : Z) : file := File bs p (λ _, false).

(** The entries the directory loop reads: up to and including the first free
    one. *)
Fixpoint root_scan (bs : list Z) (o : Z) (n : nat) : list direntry_t :=
  match n with
  | O => []
  | S n =>
    let e := decode_direntry bs o in
    e :: (if is_entry_free e then [] else root_scan bs (o + DIR_ENTRY_MEMBER_SIZE) n)
  end.

(** The index of the last volume label among entries that are not free. *)
Fixpoint last_label (i : Z) (es : list direntry_t) (vol : option Z) : option Z :=
  match es with
  | [] => vol
  | e :: es' =>
    last_label (i + 1) es' (if negb (is_entry_free e) && is_volume_label e then Some i else vol)
  end.

(** ** Lemmas: reading from an image *)

Lemma int_of_ok x : - 2 ^ 31 ≤ x < 2 ^ 31 → int_of x = Ret x.
Proof. intros. unfold int_of. zcase; done || lia. Qed.

Lemma length_slice bs o n :
  0 ≤ o → 0 ≤ n → o + n ≤ Z.of_nat (length bs) → length (slice bs o n) = Z.to_nat n.
Proof. intros. unfold slice. rewrite length_take, length_drop. lia. Qed.

Lemma slice_nil bs o : slice bs o 0 = [].
Proof. done. Qed.

Lemma bool_read_full bs p n old :
  0 ≤ p → 0 ≤ n → p + n ≤ Z.of_nat (length bs) →
  bool_read n old (at_pos bs p) = (true, slice bs p n, at_pos bs (p + n)).
Proof.
  intros. unfold bool_read, read, at_pos. simpl.
  rewrite length_slice, Z2Nat.id, Z.sub_diag, slice_nil, app_nil_r by done. done.
Qed.

Section links.
Context {S : Type} (bs : list Z) (p : Z) (Hp : 0 ≤ p).

Lemma link_array n (get : S → list Z) set s :
  0 ≤ n → p + n ≤ Z.of_nat (length bs) →
  link (bool_read n) get set (s, at_pos bs p) = Ret (true, (set (slice bs p n) s, at_pos bs (p + n))).
Proof. intros. unfold link. by rewrite bool_read_full. Qed.

Lemma link_uint8 (get : S → Z) set s :
  p + 1 ≤ Z.of_nat (length bs) →
  link read_uint8 get set (s, at_pos bs p) = Ret (true, (set (le_val (slice bs p 1)) s, at_pos bs (p + 1))).
Proof. intros. unfold link, read_uint8. by rewrite bool_read_full. Qed.

Lemma link_uint16 (get : S → Z) set s :
  p + 2 ≤ Z.of_nat (length bs) →
  link read_uint16_little_endian get set (s, at_pos bs p) =
    Ret (true, (set (le_val (slice bs p 2)) s, at_pos bs (p + 2))).
Proof. intros. unfold link, read_uint16_little_endian. by rewrite bool_read_full. Qed.

Lemma link_uint32 (get : S → Z) set s :
  p + 4 ≤ Z.of_nat (length bs) →
  link read_uint32_little_endian get set (s, at_pos bs p) =
    Ret (true, (set (le_val (slice bs p 4)) s, at_pos bs (p + 4))).
Proof. intros. unfold link, read_uint32_little_endian. by rewrite bool_read_full. Qed.

Lemma bool_seek_at n :
  0 ≤ n < 2 ^ 63 → p + n < 2 ^ 31 → bool_seek n (at_pos bs p) = (true, at_pos bs (p + n)).
Proof.
  intros. unfold bool_seek, at_pos. simpl. rewrite (wraps_small 64) by lia.
  destruct (Z.ltb_spec (p + n) 0); [lia|]. rewrite (wraps_small 32) by lia.
  by destruct (Z.leb_spec 0 (p + n)); [|lia].
Qed.
End links.

Lemma andthen_ok {S} (a b : chain S) s s' r : a s = Ret (true, s') → b s' = r → (a &&& b) s = r.
Proof. intros Ha Hb. unfold andthen. by rewrite Ha. Qed.

(** Run a chain of links on an image that is long enough. *)
Ltac run_links :=
  repeat eapply andthen_ok;
  [first [apply link_array | apply link_uint8 | apply link_uint16 | apply link_uint32]; lia..|].

Lemma decode_u16_range bs o : Forall is_byte bs → 0 ≤ le_val (slice bs o 2) < 2 ^ 16.
Proof.
  intros Hb. assert (Forall is_byte (slice bs o 2)) as Hs
    by (unfold slice; by apply Forall_take, Forall_drop).
  apply le_val_range in Hs. assert (length (slice bs o 2) ≤ 2)%nat
    by (unfold slice; rewrite length_take; lia).
  assert (256 ^ Z.of_nat (length (slice bs o 2)) ≤ 256 ^ 2) by (apply Z.pow_le_mono_r; lia). lia.
Qed.

Lemma decode_u8_range bs o : Forall is_byte bs → 0 ≤ le_val (slice bs o 1) < 2 ^ 8.
Proof.
  intros Hb. assert (Forall is_byte (slice bs o 1)) as Hs
    by (unfold slice; by apply Forall_take, Forall_drop).
  apply le_val_range in Hs. assert (length (slice bs o 1) ≤ 1)%nat
    by (unfold slice; rewrite length_take; lia).
  assert (256 ^ Z.of_nat (length (slice bs o 1)) ≤ 256 ^ 1) by (apply Z.pow_le_mono_r; lia). lia.
Qed.

Lemma read_boot_sector_spec bs b0 :
  Forall is_byte bs → 512 ≤ Z.of_nat (length bs) → 512 ≤ bytes_per_sector (decode_boot bs) →
  read_boot_sector (b0, at_pos bs 0) =
    Ret (true, (decode_boot bs, at_pos bs (bytes_per_sector (decode_boot bs)))).
Proof.
  intros Hb Hlen Hbps. pose proof (decode_u16_range bs 11 Hb) as R.
  unfold read_boot_sector.
  eapply (andthen_ok _ _ _ (decode_boot bs, at_pos bs 512)); [run_links; apply link_array; lia|].
  unfold skip_remaining_boot_sector, seek, BOOT_MEMBER_SIZE.
  simpl in *. rewrite (wrapu_small 64) by lia. rewrite bool_seek_at by lia.
  do 4 f_equal. lia.
Qed.

Lemma skip_reserved_sectors_spec bs b p :
  0 ≤ p → 1 ≤ reserved_sectors b → 0 ≤ bytes_per_sector b →
  p + (reserved_sectors b - 1) * bytes_per_sector b < 2 ^ 31 →
  skip_reserved_sectors (b, at_pos bs p) =
    Ret (true, (b, at_pos bs (p + (reserved_sectors b - 1) * bytes_per_sector b))).
Proof.
  intros Hp Hr Hb Hle. unfold skip_reserved_sectors, seek, int_of.
  assert (0 ≤ (reserved_sectors b - 1) * bytes_per_sector b) by nia.
  zcase; try lia. simpl. rewrite (wrapu_small 32) by lia. by rewrite bool_seek_at by lia.
Qed.

(** ** Lemmas: the allocation table *)

Lemma twelve_bits t0 t1 t2 :
  is_byte t0 → is_byte t1 → is_byte t2 →
  let w := t0 + 256 * t1 + 65536 * t2 in
  Z.lor (Z.shiftl (Z.land t1 15) 8) t0 = w mod 4096 ∧
  u16 (Z.lor (Z.shiftl t2 4) (Z.shiftr (Z.land t1 240) 4)) = w / 4096.
Proof.
  intros H0 H1 H2 w. unfold is_byte in *.
  assert (Z.land t1 15 = t1 mod 16) as -> by by apply (land_ones_mod t1 4).
  assert (Z.shiftr (Z.land t1 240) 4 = t1 / 16) as ->.
  { rewrite Z.shiftr_land, Z.shiftr_div_pow2 by lia. change (Z.shiftr 240 4) with (Z.ones 4).
    rewrite Z.land_ones by lia. apply Z.mod_small. Z.div_mod_to_equations; lia. }
  rewrite (lor_shiftl_add _ 8), (lor_shiftl_add _ 4) by (lia || Z.div_mod_to_equations; lia).
  unfold w. split; [|rewrite (wrapu_small 16)]; Z.div_mod_to_equations; lia.
Qed.

Lemma byte_at_lookup bs o :
  0 ≤ o < Z.of_nat (length bs) → bs !! Z.to_nat o = Some (byte_at bs o).
Proof.
  intros. unfold byte_at. destruct (lookup_lt_is_Some_2 bs (Z.to_nat o)) as [x Hx]; [lia|].
  by rewrite Hx.
Qed.

Lemma byte_at_range bs o : Forall is_byte bs → is_byte (byte_at bs o).
Proof.
  intros Hb. unfold byte_at. destruct (bs !! Z.to_nat o) eqn:E; simpl; [|done].
  by eapply Forall_lookup_1.
Qed.

Lemma aget_slice bs o n i :
  0 ≤ o → 0 ≤ i < n → o + n ≤ Z.of_nat (length bs) → aget (slice bs o n) i = Ret (byte_at bs (o + i)).
Proof.
  intros. apply aget_lookup; [lia|]. unfold slice.
  rewrite lookup_take by lia. rewrite decide_True by lia. rewrite lookup_drop.
  rewrite <- (byte_at_lookup bs (o + i)) by lia. f_equal. lia.
Qed.

Lemma read_twelve_spec st bs base k :
  Forall is_byte bs → 0 ≤ base → 0 ≤ k → Z.even k = true →
  base + 3 * (k / 2) + 3 ≤ Z.of_nat (length bs) →
  read_twelve_bits_twice st (at_pos bs (base + 3 * (k / 2))) =
    Ret (Some (fat12_entry bs base k, fat12_entry bs base (k + 1)), at_pos bs (base + 3 * (k / 2) + 3)).
Proof.
  intros Hb Hbase Hk He Hlen. unfold read_twelve_bits_twice.
  assert (0 ≤ k / 2) by (apply Z.div_pos; lia).
  rewrite bool_read_full by lia. cbn [negb].
  rewrite !aget_slice by lia. cbn [mbind outcome_bind].
  destruct (twelve_bits (byte_at bs (base + 3 * (k / 2) + 0)) (byte_at bs (base + 3 * (k / 2) + 1))
    (byte_at bs (base + 3 * (k / 2) + 2))) as [-> ->]; try by apply byte_at_range.
  unfold fat12_entry. rewrite He, Z.even_add, He. simpl.
  assert ((k + 1) / 2 = k / 2) as ->.
  { apply Z.even_spec in He as [q ->]. Z.div_mod_to_equations; lia. }
  by rewrite Z.add_0_r.
Qed.

Lemma fill_entries_spec env bs base m i arr fuel :
  Forall is_byte bs → 0 ≤ base → 0 ≤ i → Z.even i = true →
  Z.of_nat (length arr) = i + 2 * Z.of_nat m →
  base + 3 * ((i + 2) / 2) + 3 * Z.of_nat m ≤ Z.of_nat (length bs) → (m < fuel)%nat →
  fill_entries fuel env i (i + 2 * Z.of_nat m) arr (at_pos bs (base + 3 * ((i + 2) / 2))) =
    Ret (true, take (Z.to_nat i) arr ++ (fat12_entry bs base <$> seqZ (i + 2) (2 * Z.of_nat m)),
         at_pos bs (base + 3 * ((i + 2) / 2) + 3 * Z.of_nat m)).
Proof.
  intros Hb Hbase. revert i arr fuel.
  induction m as [|m IH]; intros i arr fuel Hi He Hlen Hbs Hf; (destruct fuel as [|fuel]; [lia|]).
  - cbn [fill_entries]. destruct (Z.ltb_spec i (i + 2 * Z.of_nat 0)); [lia|].
    rewrite Z.mul_0_r, Z.add_0_r. simpl. rewrite app_nil_r, take_ge by lia. done.
  - cbn [fill_entries]. destruct (Z.ltb_spec i (i + 2 * Z.of_nat (S m))); [|lia].
    assert (Z.even (i + 2) = true) as He2 by (by rewrite Z.even_add, He).
    rewrite read_twelve_spec by (done || lia). cbn [mbind outcome_bind].
    rewrite aset_in by lia. cbn [mbind outcome_bind].
    rewrite aset_in by (rewrite length_insert; lia). cbn [mbind outcome_bind].
    assert ((i + 2 + 2) / 2 = (i + 2) / 2 + 1) as Ediv.
    { apply Z.even_spec in He as [q ->]. Z.div_mod_to_equations; lia. }
    replace (i + 2 * Z.of_nat (S m)) with (i + 2 + 2 * Z.of_nat m) by lia.
    replace (base + 3 * ((i + 2) / 2) + 3) with (base + 3 * ((i + 2 + 2) / 2)) by lia.
    rewrite IH; [|lia|done|rewrite !length_insert; lia|lia|lia].
    replace (base + 3 * ((i + 2 + 2) / 2) + 3 * Z.of_nat m)
      with (base + 3 * ((i + 2) / 2) + 3 * Z.of_nat (S m)) by lia.
    do 3 f_equal.
    replace (2 * Z.of_nat (S m)) with (2 + 2 * Z.of_nat m) by lia.
    rewrite seqZ_app by lia. rewrite fmap_app, app_assoc. f_equal.
    change (seqZ (i + 2) 2) with [0 + (i + 2); 1 + (i + 2)].
    rewrite Z.add_0_l, (Z.add_comm 1). simpl.
    replace (Z.to_nat (i + 2)) with (S (S (Z.to_nat i))) by lia.
    replace (Z.to_nat (i + 1)) with (S (Z.to_nat i)) by lia.
    erewrite take_S_r by (apply list_lookup_insert_eq; rewrite length_insert; lia).
    erewrite take_S_r; [|rewrite list_lookup_insert_ne by lia; apply list_lookup_insert_eq; lia].
    rewrite take_insert_ge by lia. rewrite take_insert_ge by lia. by rewrite <- app_assoc.
Qed.

(** ** Well-formed images *)

Record disk_ok (bs : list Z) : Prop := {
  ok_bytes : Forall is_byte bs;
  ok_bps : 512 ≤ bytes_per_sector (decode_boot bs);
  ok_reserved : 1 ≤ reserved_sectors (decode_boot bs);
  ok_copies : 1 ≤ fat_copies (decode_boot bs);
  ok_spf : 1 ≤ sectors_per_fat (decode_boot bs);
  ok_root : 1 ≤ max_root_dir_entries (decode_boot bs);
  ok_fits : root_base (decode_boot bs) +
    DIR_ENTRY_MEMBER_SIZE * max_root_dir_entries (decode_boot bs) ≤ Z.of_nat (length bs);
  ok_small : Z.of_nat (length bs) < 2 ^ 31
}.

(** Allocations succeed and give blocks of the requested size. *)
Definition env_ok (env : env) : Prop :=
  (∀ n, 0 ≤ n → ∃ arr, malloc_entries env n = Some arr ∧ Z.of_nat (length arr) = n) ∧
  (∀ n, 0 ≤ n → ∃ dir, malloc_dir env n = Some dir ∧ Z.of_nat (length dir) = n).

Lemma decode_boot_ranges bs :
  Forall is_byte bs →
  let b := decode_boot bs in
  0 ≤ bytes_per_sector b < 2 ^ 16 ∧ 0 ≤ reserved_sectors b < 2 ^ 16 ∧ 0 ≤ fat_copies b < 2 ^ 8 ∧
  0 ≤ max_root_dir_entries b < 2 ^ 16 ∧ 0 ≤ sectors_per_fat b < 2 ^ 16 ∧
  0 ≤ sectors_per_cluster b < 2 ^ 8.
Proof. intros Hb b. split_and!; simpl; by (apply decode_u16_range || apply decode_u8_range). Qed.

(** Sizes of the regions of a well-formed image. *)
Lemma disk_regions bs :
  disk_ok bs →
  let b := decode_boot bs in
  512 ≤ fat_base b ∧ 512 ≤ fat_bytes b ∧ fat_base b + fat_bytes b ≤ root_base b ∧
  root_base b + 32 ≤ Z.of_nat (length bs).
Proof.
  intros [Hb ? ? ? ? ? Hfit ?]. pose proof (decode_boot_ranges bs Hb) as (? & ? & ? & ? & ? & ?).
  cbv zeta in *. set (b := decode_boot bs) in *.
  unfold root_base, fat_base, fat_bytes, DIR_ENTRY_MEMBER_SIZE in *. split_and!; nia.
Qed.

Lemma num_fat_entries_third n q r :
  n = 3 * q + r → 0 ≤ r < 3 → 1 ≤ q → n < 2 ^ 31 → num_fat_entries_of n = 2 * (q - 1) + r / 2.
Proof.
  intros -> Hr Hq Hn. unfold num_fat_entries_of. rewrite (wrapu_small 32 ((3 * q + r) * 2)) by lia.
  assert ((3 * q + r) * 2 / 3 = 2 * q + r / 2) as -> by (Z.div_mod_to_equations; lia).
  rewrite (wrapu_small 32); Z.div_mod_to_equations; lia.
Qed.

(** The table is read in groups of three bytes: one byte over is left unread. *)
Lemma read_fat_spec env bs fat r :
  disk_ok bs → env_ok env → boot fat = decode_boot bs →
  let b := decode_boot bs in
  fat_bytes b mod 3 = r → r < 2 →
  read_file_allocation_tables env (fat, at_pos bs (fat_base b)) =
    Ret (true, (set_fat_entries
                  (Some (fat12_entry bs (fat_base b) <$> seqZ 2 (2 * (fat_bytes b / 3 - 1))))
                  (set_marks (u8 (fat12_entry bs (fat_base b) 0)) (fat12_entry bs (fat_base b) 1) fat),
                at_pos bs (root_base b - r))).
Proof.
  intros Hd [Henv _] Hboot b' Hm Hr2. subst b'. pose proof (disk_regions bs Hd) as (R1 & R2 & R3 & R4).
  destruct Hd as [Hb _ _ Hc _ _ _ Hs].
  pose proof (decode_boot_ranges bs Hb) as (B1 & B2 & B3 & B4 & B5 & B6).
  cbv zeta in *. set (b := decode_boot bs) in *.
  set (q := fat_bytes b / 3). pose proof (Z.mod_pos_bound (fat_bytes b) 3).
  assert (fat_bytes b = 3 * q + r) as Eq.
  { unfold q. pose proof (Z.div_mod (fat_bytes b) 3). lia. }
  unfold read_file_allocation_tables. rewrite Hboot.
  pose proof (read_twelve_spec (stack env) bs (fat_base b) 0 Hb) as E0. simpl in E0.
  rewrite Z.add_0_r in E0. rewrite E0 by (done || lia). cbn [mbind outcome_bind].
  assert (0 ≤ fat_bytes b < 2 ^ 31) as Rf by lia. unfold fat_bytes in Rf.
  rewrite int_of_ok by lia. cbn [mbind outcome_bind]. rewrite (wrapu_small 32) by lia.
  fold (fat_bytes b). rewrite (num_fat_entries_third _ q r), (Z.div_small r 2), Z.add_0_r by lia.
  destruct (Henv (2 * (q - 1)) ltac:(lia)) as (arr & -> & Harr).
  pose proof (fill_entries_spec env bs (fat_base b) (Z.to_nat (q - 1)) 0 arr
    (S (Z.to_nat (2 * (q - 1)))) Hb) as EF. rewrite !Z2Nat.id in EF by lia.
  rewrite !Z.add_0_l in EF. change (2 / 2) with 1 in EF. rewrite Z.mul_1_r in EF.
  rewrite EF by (done || lia). cbn [mbind outcome_bind negb].
  replace (fat_base b + 3 + 3 * (q - 1)) with (fat_base b + fat_bytes b - r) by lia.
  assert (0 ≤ (fat_copies b - 1) * fat_bytes b ∧
    fat_base b + fat_bytes b - r + (fat_copies b - 1) * fat_bytes b = root_base b - r) as [? Er]
    by (unfold root_base; nia).
  rewrite (wrapu_small 32), bool_seek_at by lia. by rewrite Er.
Qed.

(** With an odd number of entries the last pair does not fit. *)
Lemma fill_entries_overflow env bs base m i arr fuel :
  Forall is_byte bs → 0 ≤ base → 0 ≤ i → Z.even i = true →
  Z.of_nat (length arr) = i + 2 * Z.of_nat m + 1 →
  base + 3 * ((i + 2) / 2) + 3 * Z.of_nat (S m) ≤ Z.of_nat (length bs) → (m < fuel)%nat →
  fill_entries fuel env i (i + 2 * Z.of_nat m + 1) arr (at_pos bs (base + 3 * ((i + 2) / 2))) = Undef.
Proof.
  intros Hb Hbase. revert i arr fuel.
  induction m as [|m IH]; intros i arr fuel Hi He Hlen Hbs Hf; (destruct fuel as [|fuel]; [lia|]);
    cbn [fill_entries]; (case (Z.ltb_spec i); [intros _|lia]);
    (assert (Z.even (i + 2) = true) as He2 by (by rewrite Z.even_add, He));
    (rewrite read_twelve_spec by (done || lia)); cbn [mbind outcome_bind];
    (rewrite aset_in by lia); cbn [mbind outcome_bind].
  - unfold aset. rewrite decide_False; [done|]. rewrite length_insert. lia.
  - rewrite aset_in by (rewrite length_insert; lia). cbn [mbind outcome_bind].
    assert ((i + 2 + 2) / 2 = (i + 2) / 2 + 1) as Ediv.
    { apply Z.even_spec in He as [q ->]. Z.div_mod_to_equations; lia. }
    replace (i + 2 * Z.of_nat (S m) + 1) with (i + 2 + 2 * Z.of_nat m + 1) by lia.
    replace (base + 3 * ((i + 2) / 2) + 3) with (base + 3 * ((i + 2 + 2) / 2)) by lia.
    apply IH; rewrite ?length_insert; lia || done.
Qed.

(** ** Lemmas: the root directory *)

Lemma read_directory_entry_spec bs o e :
  0 ≤ o → o + DIR_ENTRY_MEMBER_SIZE ≤ Z.of_nat (length bs) →
  read_directory_entry (e, at_pos bs o) =
    Ret (true, (decode_direntry bs o, at_pos bs (o + DIR_ENTRY_MEMBER_SIZE))).
Proof.
  unfold DIR_ENTRY_MEMBER_SIZE. intros. unfold read_directory_entry, MAX_FILE_NAME, MAX_EXTENSION.
  erewrite andthen_ok; [|run_links; apply link_uint16; lia|apply link_uint32; lia].
  unfold decode_direntry.
  rewrite <- !Z.add_assoc. done.
Qed.

Lemma fill_root_spec bs n i dir vol o :
  0 ≤ o → 0 ≤ i → Z.of_nat (length dir) = i + Z.of_nat n →
  o + DIR_ENTRY_MEMBER_SIZE * Z.of_nat n ≤ Z.of_nat (length bs) →
  let es := root_scan bs o n in
  fill_root n i dir vol (at_pos bs o) =
    Ret (true, take (Z.to_nat i) dir ++ es ++ drop (Z.to_nat i + length es) dir,
         last_label i es vol, at_pos bs (o + DIR_ENTRY_MEMBER_SIZE * Z.of_nat (length es))).
Proof.
  revert i dir vol o. induction n as [|n IH]; intros i dir vol o Ho Hi Hlen Hbs es.
  - simpl. rewrite Nat.add_0_r, take_drop, Z.add_0_r. done.
  - cbn [fill_root]. destruct (aget_in dir i) as (e & -> & He); [lia|]. cbn [mbind outcome_bind].
    unfold DIR_ENTRY_MEMBER_SIZE in *. rewrite read_directory_entry_spec by (unfold DIR_ENTRY_MEMBER_SIZE; lia).
    unfold DIR_ENTRY_MEMBER_SIZE. cbn [mbind outcome_bind].
    set (d := decode_direntry bs o). rewrite aset_in by lia. cbn [mbind outcome_bind negb].
    assert (take (S (Z.to_nat i)) (<[Z.to_nat i := d]> dir) = take (Z.to_nat i) dir ++ [d]) as Et.
    { erewrite take_S_r by (apply list_lookup_insert_eq; lia). by rewrite take_insert_ge by lia. }
    unfold es. cbn [root_scan]. fold d. destruct (is_entry_free d) eqn:Ef.
    + simpl. rewrite Ef. simpl. rewrite Z.mul_1_r. do 3 f_equal.
      replace (Z.to_nat i + 1)%nat with (S (Z.to_nat i)) by lia.
      rewrite <- (take_drop (S (Z.to_nat i)) (<[Z.to_nat i := d]> dir)), Et.
      rewrite drop_insert_lt by lia. by rewrite <- app_assoc.
    + rewrite IH by (rewrite ?length_insert; lia). cbn [last_label length]. rewrite Ef. cbn [negb andb].
      replace (Z.to_nat (i + 1)) with (S (Z.to_nat i)) by lia. rewrite Et.
      unfold DIR_ENTRY_MEMBER_SIZE. set (es' := root_scan bs (o + 32) n).
      replace (o + 32 + 32 * Z.of_nat (length es')) with (o + 32 * Z.of_nat (S (length es'))) by lia.
      do 3 f_equal. rewrite drop_insert_lt by lia. rewrite <- app_assoc. simpl.
      by rewrite Nat.add_succ_r.
Qed.

Lemma length_root_scan bs o n : (length (root_scan bs o n) ≤ n)%nat.
Proof. revert o. induction n as [|n IH]; intros o; simpl; [done|]. destruct (is_entry_free _); simpl; [lia|]. specialize (IH (o + DIR_ENTRY_MEMBER_SIZE)). lia. Qed.

(** ** Theorems *)

(** What [read_fat12] leaves in the structure: the boot sector, the two marks,
    every cluster's entry and the root directory up to the first free entry, on
    top of the block [malloc] gave ([junk]). *)
Definition loaded (bs : list Z) (vol : option Z) (junk : list direntry_t) : fat12_t :=
  let b := decode_boot bs in
  let es := root_scan bs (root_base b) (Z.to_nat (max_root_dir_entries b)) in
  Fat12 b (u8 (fat12_entry bs (fat_base b) 0)) (fat12_entry bs (fat_base b) 1)
    (Some (fat12_entry bs (fat_base b) <$> seqZ 2 (2 * (fat_bytes b / 3 - 1))))
    (Some (es ++ drop (length es) junk))
    (last_label 0 es vol).

(** A disk of three table sectors, sixteen directory entries and three clusters:
    a volume label and a file of 600 bytes in clusters 2 and 3. *)
Definition sample_boot (spf : Z) : list Z :=
  [235; 60; 144] ++ replicate 8 32 ++ le_bytes 2 512 ++ [1] ++ le_bytes 2 1 ++ [1] ++ le_bytes 2 16 ++
  le_bytes 2 8 ++ [240] ++ le_bytes 2 spf ++ replicate 6 0 ++ replicate 480 0 ++ [85; 170].

Definition sample_entry (name ext : list Z) (attr cluster size : Z) : list Z :=
  name ++ ext ++ [attr] ++ replicate 10 0 ++ le_bytes 2 30976 ++ le_bytes 2 20993 ++
  le_bytes 2 cluster ++ le_bytes 4 size.

Definition sample_disk (spf size : Z) : list Z :=
  sample_boot spf ++
  [240; 255; 255; 3; 240; 255] ++ replicate (Z.to_nat (spf * 512 - 6)) 0 ++
  sample_entry (68 :: replicate 7 32) (replicate 3 32) 8 0 0 ++
  sample_entry (65 :: replicate 7 32) [84; 88; 84] 0 2 size ++
  replicate (32 * 14) 0 ++
  replicate 512 49 ++ replicate 512 50 ++ replicate 512 51.

Definition blank_boot : boot_t := Boot [] [] 0 0 0 0 0 0 0 0 0 0 0 [] [].

Definition blank_fat : fat12_t := Fat12 blank_boot 0 0 None None None.

Definition blank_entry : direntry_t := Direntry [] [] 0 [] 0 0 0 0.

Definition sample_env : env :=
  Env (λ _, [0; 0; 0]) (λ n, Some (replicate (Z.to_nat n) 0))
      (λ n, Some (replicate (Z.to_nat n) blank_entry)).

Lemma sample_env_ok : env_ok sample_env.
Proof.
  split; intros n Hn; eexists; (split; [done|]); rewrite length_replicate; lia.
Qed.

Lemma sample_disk_ok spf size : spf ∈ [1; 2; 3] → size ∈ [600; 1024] → disk_ok (sample_disk spf size).
Proof.
  intros Hs Hz. set_unfold. assert (Forall is_byte (sample_disk spf size)) as Hb.
  { unfold sample_disk, sample_boot, sample_entry. rewrite !Forall_app.
    split_and!; auto with cint; repeat constructor; try done; by apply Forall_replicate. }
  destruct Hs as [->|[->| [->|[]]]], Hz as [->|[->|[]]]; constructor; try done; by vm_compute.
Qed.

Lemma read_fat12_loads (env : env) (bs : list Z) (fat0 : fat12_t) :
  disk_ok bs → env_ok env → fat_bytes (decode_boot bs) mod 3 = 0 →
  let b := decode_boot bs in
  ∃ junk p, malloc_dir env (max_root_dir_entries b) = Some junk ∧
    read_fat12 env (fat0, at_pos bs 0) = Ret (true, (loaded bs (volume_label fat0) junk, at_pos bs p)).
Proof.
  intros Hd He Hthree. pose proof (disk_regions bs Hd) as (R1 & R2 & R3 & R4).
  pose proof (decode_boot_ranges bs (ok_bytes _ Hd)) as (B1 & B2 & B3 & B4 & B5 & B6).
  pose proof (ok_fits _ Hd) as Hfit. cbv zeta in *. set (b := decode_boot bs) in *.
  destruct (proj2 He (max_root_dir_entries b) ltac:(lia)) as (junk & Hj & Lj).
  exists junk. eexists. split; [done|]. unfold read_fat12.
  pose proof (ok_bps _ Hd). pose proof (ok_reserved _ Hd). pose proof (ok_small _ Hd).
  assert (bytes_per_sector b + (reserved_sectors b - 1) * bytes_per_sector b = fat_base b) as Eb
    by (unfold fat_base; lia).
  eapply andthen_ok; [eapply andthen_ok; [eapply andthen_ok|]|].
  - unfold on_boot. rewrite read_boot_sector_spec by (apply Hd || lia || done). done.
  - unfold on_boot. cbn [mbind outcome_bind boot set_boot].
    rewrite skip_reserved_sectors_spec by (done || fold b; lia). done.
  - fold b. rewrite Eb. apply (read_fat_spec _ _ _ 0); done.
  - unfold read_root_directory. cbn [boot set_fat_entries set_marks set_boot]. fold b. rewrite Hj.
    rewrite Z.sub_0_r, fill_root_spec by lia. done.
Qed.

(** C1: On a well-formed image whose table size is a multiple of three bytes,
    [read_fat12] succeeds: every member of the boot sector is the field at the
    documented offset, [fat_entries] at index [k - 2] is the 12-bit entry of
    cluster [k] of the first table copy, the root directory is read after the
    last copy up to and including the first free entry, and [volume_label] is
    the last label among the entries in use. *)
Theorem read_fat12_correct (env : env) (bs : list Z) (fat0 : fat12_t) :
  disk_ok bs → env_ok env → fat_bytes (decode_boot bs) mod 3 = 0 →
  let b := decode_boot bs in
  ∃ junk p, malloc_dir env (max_root_dir_entries b) = Some junk ∧
    read_fat12 env (fat0, at_pos bs 0) = Ret (true, (loaded bs (volume_label fat0) junk, at_pos bs p)).
Proof. apply read_fat12_loads. Qed.

Lemma read_fat12_correct_witness :
  ∃ junk p, read_fat12 sample_env (blank_fat, at_pos (sample_disk 3 600) 0) =
    Ret (true, (loaded (sample_disk 3 600) None junk, at_pos (sample_disk 3 600) p)).
Proof.
  destruct (read_fat12_correct sample_env (sample_disk 3 600) blank_fat) as (junk & p & _ & E).
  - apply sample_disk_ok; set_solver.
  - apply sample_env_ok.
  - by vm_compute.
  - exists junk, p. exact E.
Defined.

(** The table reader assumes that the table has a multiple of three bytes.
    With one byte over it stops one byte before the root directory, which is then
    read shifted; with two bytes over, as with one sector of 512 bytes, it
    computes an odd number of entries and writes one past the allocated array. *)
Theorem read_fat_table_size (env : env) (bs : list Z) (fat : fat12_t) :
  disk_ok bs → env_ok env → boot fat = decode_boot bs →
  let b := decode_boot bs in
  (fat_bytes b mod 3 = 1 → ∃ fat',
     read_file_allocation_tables env (fat, at_pos bs (fat_base b)) =
       Ret (true, (fat', at_pos bs (root_base b - 1)))) ∧
  (fat_bytes b mod 3 = 2 →
     read_file_allocation_tables env (fat, at_pos bs (fat_base b)) = Undef).
Proof.
  intros Hd He Hboot b'. split; intros Hm; subst b'.
  { eexists. by apply (read_fat_spec env bs fat 1). }
  pose proof (disk_regions bs Hd) as (R1 & R2 & R3 & R4). destruct He as [He _].
  destruct Hd as [Hb _ _ _ _ _ _ Hs].
  cbv zeta in *. set (b := decode_boot bs) in *. set (q := fat_bytes b / 3).
  assert (fat_bytes b = 3 * q + 2) as Eq
    by (unfold q; pose proof (Z.div_mod (fat_bytes b) 3); lia).
  unfold read_file_allocation_tables. rewrite Hboot.
  pose proof (read_twelve_spec (stack env) bs (fat_base b) 0 Hb) as E0. simpl in E0.
  rewrite Z.add_0_r in E0. rewrite E0 by (done || lia). cbn [mbind outcome_bind].
  assert (0 ≤ fat_bytes b < 2 ^ 31) as Rf by lia. unfold fat_bytes in Rf.
  rewrite int_of_ok by lia. cbn [mbind outcome_bind]. rewrite (wrapu_small 32) by lia.
  fold (fat_bytes b). rewrite (num_fat_entries_third _ q 2) by lia. change (2 / 2) with 1.
  destruct (He (2 * (q - 1) + 1) ltac:(lia)) as (arr & -> & Harr).
  pose proof (fill_entries_overflow env bs (fat_base b) (Z.to_nat (q - 1)) 0 arr
    (S (Z.to_nat (2 * (q - 1) + 1))) Hb) as EF. rewrite Nat2Z.inj_succ, !Z2Nat.id in EF by lia.
  rewrite !Z.add_0_l in EF. change (2 / 2) with 1 in EF. rewrite Z.mul_1_r in EF.
  rewrite EF by (done || lia). done.
Qed.

Lemma read_fat_table_size_witness :
  read_file_allocation_tables sample_env
    (set_boot (decode_boot (sample_disk 1 600)) blank_fat, at_pos (sample_disk 1 600) 512) = Undef.
Proof.
  apply (read_fat_table_size sample_env (sample_disk 1 600)
    (set_boot (decode_boot (sample_disk 1 600)) blank_fat)).
  - apply sample_disk_ok; set_solver.
  - apply sample_env_ok.
  - done.
  - by vm_compute.
Defined.
