(* ===== verification/FatPrint.v ===== *)
(** The directory listing of [FAT12/src/fat12.c] ([print_fat12] and the functions
    it calls) and the program [FAT12/src/msdosdir.c].  What is printed is a list of
    bytes. *)

From stdpp Require Import strings.
From S2P Require Import Prelude Fat12.

(** ** Formatting *)

(** [PRINT_ARRAY]: [%.*s] with the array's size stops at a NUL. *)
Fixpoint PRINT_ARRAY (a : list Z) : list Z :=
  match a with
  | [] => []
  | c :: a' => if c =? 0 then [] else c :: PRINT_ARRAY a'
  end.

Definition PRINT_ARRAY_NL (a : list Z) : list Z := PRINT_ARRAY a ++ [10].

(** [%u]: the decimal digits, most significant first.  Ten digits are enough for
    an [unsigned int]. *)
Fixpoint digits (fuel : nat) (x : Z) (acc : list Z) : list Z :=
  match fuel with
  | O => acc
  | S fuel =>
    let acc := 48 + x mod 10 :: acc in
    if x / 10 =? 0 then acc else digits fuel (x / 10) acc
  end.

Definition fmt_u (x : Z) : list Z := digits 10 x [].

(** [%<w>u] and [%0<w>u]: padding on the left to a minimal width. *)
Definition fmt_pad (pad : Z) (w : nat) (x : Z) : list Z :=
  replicate (w - length (fmt_u x)) pad ++ fmt_u x.

(** ** Dates and times *)

Definition MASK_AND_SHIFT (expr mask bits : Z) : Z := Z.shiftr (Z.land expr mask) bits.

Definition SECONDS_BITS_TO_RIGHT : Z := 0.
Definition SECONDS_MASK : Z := 31.
Definition MINUTES_BITS_TO_RIGHT : Z := 5.
Definition MINUTES_MASK : Z := Z.shiftl 47 MINUTES_BITS_TO_RIGHT.
Definition HOURS_BITS_TO_RIGHT : Z := 11.
Definition HOURS_MASK : Z := Z.shiftl 31 HOURS_BITS_TO_RIGHT.
Definition BASE_YEAR : Z := 1980.
Definition DAY_BITS_TO_RIGHT : Z := 0.
Definition DAY_MASK : Z := 31.
Definition MONTH_BITS_TO_RIGHT : Z := 5.
Definition MONTH_MASK : Z := Z.shiftl 15 MONTH_BITS_TO_RIGHT.
Definition YEAR_BITS_TO_RIGHT : Z := 9.
Definition YEAR_MASK : Z := Z.shiftl 63 YEAR_BITS_TO_RIGHT.

(** ** Printing *)

Definition print_single_file_data (entry : direntry_t) : list Z :=
  let d := date entry in
  let t := time entry in
  PRINT_ARRAY (filename entry) ++ bytes_of "." ++ PRINT_ARRAY (extension entry) ++
  bytes_of " " ++ fmt_pad 32 10 (filesize entry) ++
  bytes_of " " ++ fmt_pad 48 2 (MASK_AND_SHIFT d MONTH_MASK MONTH_BITS_TO_RIGHT) ++
  bytes_of "-" ++ fmt_pad 48 2 (MASK_AND_SHIFT d DAY_MASK DAY_BITS_TO_RIGHT) ++
  bytes_of "-" ++ fmt_pad 48 2 (MASK_AND_SHIFT d YEAR_MASK YEAR_BITS_TO_RIGHT + BASE_YEAR) ++
  bytes_of " " ++ fmt_pad 48 2 (MASK_AND_SHIFT t HOURS_MASK HOURS_BITS_TO_RIGHT) ++
  bytes_of ":" ++ fmt_pad 48 2 (MASK_AND_SHIFT t MINUTES_MASK MINUTES_BITS_TO_RIGHT) ++
  bytes_of ":" ++ fmt_pad 48 2 (MASK_AND_SHIFT t SECONDS_MASK SECONDS_BITS_TO_RIGHT) ++ [10].

(** The loop over the directory: what it prints and the two totals. *)
Fixpoint print_loop (n : nat) (i : Z) (dir : list direntry_t) (total_files total_size : Z)
    : outcome (list Z * Z * Z) :=
  match n with
  | O => Ret ([], total_files, total_size)
  | S n =>
    entry ← aget dir i;
    if is_entry_free entry then Ret ([], total_files, total_size) else
    if is_regular_entry entry then
      '(out, tf, ts) ← print_loop n (i + 1) dir (u32 (total_files + 1))
                         (u32 (total_size + filesize entry));
      Ret (print_single_file_data entry ++ out, tf, ts)
    else print_loop n (i + 1) dir total_files total_size
  end.

(** The arrays of a structure; a NULL pointer is not indexed. *)
Definition deref {A} (p : option A) : outcome A :=
  match p with Some a => Ret a | None => Undef end.

Definition print_file_data (fat : fat12_t) : outcome (list Z) :=
  let max := max_root_dir_entries (boot fat) in
  if max =? 0 then Ret ([10] ++ fmt_u 0 ++ bytes_of " file(s), " ++ fmt_u 0 ++ bytes_of " bytes" ++ [10])
  else
  dir ← deref (root_dir_entries fat);
  '(out, total_files, total_size) ← print_loop (Z.to_nat max) 0 dir 0 0;
  Ret (out ++ [10] ++ fmt_u total_files ++ bytes_of " file(s), " ++ fmt_u total_size ++
       bytes_of " bytes" ++ [10]).

(** [volume_label] is a pointer into the directory; when no label was found it
    still has the indeterminate value it started with. *)
Definition print_volume_data (fat : fat12_t) : outcome (list Z) :=
  i ← deref (volume_label fat);
  dir ← deref (root_dir_entries fat);
  label ← aget dir i;
  Ret (bytes_of "Volume name is " ++ PRINT_ARRAY (filename label) ++ PRINT_ARRAY_NL (extension label)).

Definition print_fat12 (fat : fat12_t) : outcome (list Z) :=
  out1 ← print_volume_data fat;
  out2 ← print_file_data fat;
  Ret (out1 ++ [10] ++ out2).

(** ** The program *)

Definition USER_ERROR : Z := 1.

Definition SYSTEM_ERROR : Z := 2.

(** Exit status, standard output and standard error of [msdosdir].  [image] is
    what [open] gives for the first argument; [perror] appends the system's
    message [why]. *)
Definition msdosdir_main (env : env) (fat : fat12_t) (argc : Z) (image : option file) (why : list Z)
    : outcome (Z * list Z * list Z) :=
  if argc <? 2 then
    Ret (USER_ERROR, bytes_of "Please include the input file as a command line argument." ++ [10], [])
  else
  match image with
  | None => Ret (SYSTEM_ERROR, [], bytes_of "Could not open input file: " ++ why ++ [10])
  | Some fd =>
    '(ok, (fat, fd)) ← read_fat12 env (fat, fd);
    if negb ok then Ret (SYSTEM_ERROR, [], bytes_of "Could not read file system.") else
    out ← print_fat12 fat;
    Ret (0, out, [])
  end.

(** ** What a listing shows *)

(** The files of a scanned directory: in use, not deleted, and without the bit of a
    volume label. *)
Definition listed (e : direntry_t) : bool := negb (first_char e =? 0) && (negb (Z.testbit (attributes e) 3) && negb (first_char e =? 0xe5)).

Lemma label_bit e : is_volume_label e = Z.testbit (attributes e) 3.
Proof.
  unfold is_volume_label, VOLUME_LABEL, z2b. change 8 with (2 ^ 3). destruct (Z.testbit (attributes e) 3) eqn:E.
  - apply negb_true_iff, Z.eqb_neq. intros E0. assert (Z.testbit (Z.land (attributes e) (2 ^ 3)) 3 = true) as Ht by (by rewrite Z.land_spec, E, Z.pow2_bits_true). by rewrite E0 in Ht.
  - apply negb_false_iff, Z.eqb_eq, Z.bits_inj'. intros i Hi. rewrite Z.land_spec, Z.pow2_bits_eqb, Z.bits_0 by lia. destruct (Z.eqb_spec 3 i) as [<-|]; [by rewrite E|by rewrite andb_false_r].
Qed.

Lemma listed_code e : listed e = negb (is_entry_free e) && is_regular_entry e.
Proof. unfold is_regular_entry. by rewrite label_bit. Qed.

Definition dir_files (es : list direntry_t) : list direntry_t := filter (λ e, listed e = true) es.

Definition total_bytes (es : list direntry_t) : Z := foldr (λ e n, filesize e + n) 0 es.

Definition listing (files : list direntry_t) : list Z :=
  concat (print_single_file_data <$> files) ++ [10] ++
  fmt_u (Z.of_nat (length files)) ++ bytes_of " file(s), " ++ fmt_u (u32 (total_bytes files)) ++
  bytes_of " bytes" ++ [10].

(** ** Lemmas *)

(** A directory as the reader leaves it: entries in use, then one free entry or
    the end. *)
Definition scanned (es : list direntry_t) : Prop :=
  ∀ i e, es !! i = Some e → is_entry_free e = true → S i = length es.

Lemma scanned_cons e es : scanned (e :: es) → scanned es ∧ (is_entry_free e = true → es = []).
Proof.
  intros H. split.
  - intros i e' Hi Hf. specialize (H (S i) e' Hi Hf). simpl in H. lia.
  - intros Hf. specialize (H O e eq_refl Hf). by destruct es.
Qed.

Lemma root_scan_scanned bs o n : scanned (root_scan bs o n).
Proof.
  revert o. induction n as [|n IH]; intros o i e; simpl; [done|].
  destruct (is_entry_free (decode_direntry bs o)) eqn:Ef.
  - by destruct i.
  - destruct i as [|i]; simpl; [by intros [= <-] ?; congruence|].
    intros Hi Hf. by rewrite <- (IH _ i e Hi Hf).
Qed.

(** The directory either ends within the scanned entries or fills the block. *)
Definition ends_in (es : list direntry_t) (n : nat) : Prop :=
  length es = n ∨ ((length es < n)%nat ∧ ∃ e, last es = Some e ∧ is_entry_free e = true).

Lemma root_scan_ends bs o n : ends_in (root_scan bs o n) n.
Proof.
  revert o. induction n as [|n IH]; intros o; [by left|]. cbn [root_scan].
  destruct (is_entry_free (decode_direntry bs o)) eqn:Ef.
  - destruct n; [by left|]. right. split; [simpl; lia|]. by exists (decode_direntry bs o).
  - destruct (IH (o + DIR_ENTRY_MEMBER_SIZE)) as [E|(Hlt & e & Hl & He)].
    + left. simpl. by rewrite E.
    + right. split; [simpl; lia|]. exists e. split; [|done]. rewrite last_cons. by rewrite Hl.
Qed.

Lemma ends_in_nil n : ends_in [] n → n = O.
Proof. by intros [E|(? & e & ? & ?)]. Qed.

Lemma ends_in_cons e es n :
  ends_in (e :: es) (S n) → is_entry_free e = false → ends_in es n.
Proof.
  intros [E|(Hlt & e' & Hl & He')] Hf; [left; simpl in E; lia|].
  right. simpl in Hlt. split; [lia|]. exists e'. split; [|done].
  rewrite last_cons in Hl. destruct (last es); congruence.
Qed.

Lemma u32_total a b : u32 (u32 a + b) = u32 (a + b).
Proof. apply wrapu_add_l. Qed.

Lemma dir_files_cons e es : dir_files (e :: es) = if listed e then e :: dir_files es else dir_files es.
Proof. unfold dir_files. rewrite filter_cons. case_decide as H; [by rewrite H|]. by destruct (listed e). Qed.

Lemma print_loop_spec pre es post n tf ts :
  scanned es → ends_in es n →
  print_loop n (Z.of_nat (length pre)) (pre ++ es ++ post) (u32 tf) (u32 ts) =
    Ret (concat (print_single_file_data <$> dir_files es),
         u32 (tf + Z.of_nat (length (dir_files es))), u32 (ts + total_bytes (dir_files es))).
Proof.
  revert pre n tf ts. induction es as [|e es IH]; intros pre n tf ts Hs He.
  - apply ends_in_nil in He as ->. simpl. by rewrite !Z.add_0_r.
  - destruct n as [|n]; [by destruct He as [?|[? ?]]; simpl in *; lia|].
    apply scanned_cons in Hs as [Hs Hf]. cbn [print_loop].
    rewrite (aget_lookup _ _ e) by (lia || by rewrite Nat2Z.id, lookup_app_r, Nat.sub_diag by lia).
    cbn [mbind outcome_bind]. rewrite dir_files_cons, listed_code.
    destruct (is_entry_free e) eqn:Ef.
    + rewrite Hf by done. simpl. by rewrite !Z.add_0_r.
    + specialize (IH (pre ++ [e]) n).
      rewrite length_app, <- app_assoc, Nat2Z.inj_add in IH. simpl in IH. cbn [negb andb].
      destruct (is_regular_entry e) eqn:Er.
      * rewrite !u32_total, IH by (done || by eapply ends_in_cons). cbn [mbind outcome_bind].
        simpl. by rewrite Nat2Z.inj_succ, <- !Z.add_assoc, (Z.add_comm 1).
      * rewrite IH by (done || by eapply ends_in_cons). done.
Qed.

Lemma print_file_data_spec fat es post :
  0 ≤ max_root_dir_entries (boot fat) < 2 ^ 16 →
  root_dir_entries fat = Some (es ++ post) →
  scanned es → ends_in es (Z.to_nat (max_root_dir_entries (boot fat))) →
  print_file_data fat = Ret (listing (dir_files es)).
Proof.
  intros Hm Hr Hs He. unfold print_file_data.
  assert (length es ≤ Z.to_nat (max_root_dir_entries (boot fat)))%nat as Hlen
    by (destruct He as [?|[? _]]; lia).
  destruct (Z.eqb_spec (max_root_dir_entries (boot fat)) 0) as [E|E].
  { rewrite E in Hlen. by destruct es; [|simpl in Hlen; lia]. }
  rewrite Hr. cbn [deref mbind outcome_bind].
  pose proof (print_loop_spec [] es post _ 0 0 Hs He) as P. simpl length in P. simpl app in P.
  change (u32 0) with 0 in P. change (Z.of_nat 0) with 0 in P. rewrite P. cbn [mbind outcome_bind].
  rewrite !Z.add_0_l. unfold listing. rewrite (wrapu_small 32 (Z.of_nat _)); [done|].
  assert (length (dir_files es) ≤ length es)%nat by apply length_filter. lia.
Qed.

Lemma last_label_range i es vol j :
  last_label i es vol = Some j → vol = Some j ∨ i ≤ j < i + Z.of_nat (length es).
Proof.
  revert i vol. induction es as [|e es IH]; intros i vol; simpl; [by left|].
  intros H. apply IH in H as [H|H]; [|right; lia].
  destruct (negb (is_entry_free e) && is_volume_label e); [|by left].
  injection H as ->. right. lia.
Qed.

(** The entry [volume_label] points to after the scan. *)
Definition label_of (es : list direntry_t) : option direntry_t :=
  i ← last_label 0 es None; es !! Z.to_nat i.

Lemma print_volume_data_spec fat es post label :
  root_dir_entries fat = Some (es ++ post) → volume_label fat = last_label 0 es None →
  label_of es = Some label →
  print_volume_data fat =
    Ret (bytes_of "Volume name is " ++ PRINT_ARRAY (filename label) ++ PRINT_ARRAY_NL (extension label)).
Proof.
  intros Hr Hv Hl. unfold print_volume_data, label_of in *. rewrite Hv, Hr.
  destruct (last_label 0 es None) as [i|] eqn:E; [|done]. simpl in Hl.
  apply last_label_range in E as [E|E]; [done|]. cbn [deref mbind outcome_bind].
  rewrite (aget_lookup _ _ label); [done|lia|]. by apply lookup_app_l_Some.
Qed.

(** The digits of a number, read back. *)
Definition undigits (ds : list Z) : Z := foldl (λ n d, 10 * n + (d - 48)) 0 ds.

Lemma digits_undigits fuel x acc :
  0 ≤ x < 10 ^ Z.of_nat fuel → (0 < fuel)%nat →
  ∃ ds, digits fuel x acc = ds ++ acc ∧ undigits ds = x ∧ ds ≠ [] ∧
    Forall (λ d, 48 ≤ d ≤ 57) ds ∧ (x ≠ 0 → head ds ≠ Some 48).
Proof.
  revert x acc. induction fuel as [|fuel IH]; intros x acc Hx Hf; [lia|]. cbn [digits].
  pose proof (Z.mod_pos_bound x 10). pose proof (Z.div_mod x 10).
  destruct (Z.eqb_spec (x / 10) 0) as [E|E].
  - exists [48 + x mod 10]. unfold undigits. simpl. split_and!; try done; [lia| |].
    + repeat constructor; lia.
    + intros ? [= ?]. lia.
  - rewrite Nat2Z.inj_succ, Z.pow_succ_r in Hx by lia.
    assert (0 ≤ x / 10) by (apply Z.div_pos; lia).
    assert (0 < fuel)%nat by (destruct fuel; [simpl in Hx; change (10 ^ Z.of_nat 0) with 1 in Hx; lia|lia]).
    destruct (IH (x / 10) (48 + x mod 10 :: acc)) as (ds & -> & Hu & Hne & Hall & Hhd); [lia|lia|].
    exists (ds ++ [48 + x mod 10]). unfold undigits in *.
    rewrite <- app_assoc, foldl_app, Hu. simpl. split_and!; try done; [lia|by destruct ds| |].
    + apply Forall_app. split; [done|]. repeat constructor; lia.
    + intros _. specialize (Hhd E). by destruct ds.
Qed.

(** Selecting a field of [n] bits at a position. *)
Lemma mask_and_shift_field x m n k :
  0 ≤ n → 0 ≤ k → m = Z.shiftl (Z.ones n) k → MASK_AND_SHIFT x m k = x / 2 ^ k mod 2 ^ n.
Proof.
  intros Hn Hk ->. unfold MASK_AND_SHIFT.
  rewrite Z.shiftr_land, Z.shiftr_shiftl_l, Z.sub_diag, Z.shiftl_0_r by lia.
  by rewrite Z.land_ones, Z.shiftr_div_pow2.
Qed.

Lemma minutes_field t :
  MASK_AND_SHIFT t MINUTES_MASK MINUTES_BITS_TO_RIGHT =
    t / 32 mod 64 - (if Z.testbit t 9 then 16 else 0).
Proof.
  pose proof (mask_and_shift_field t _ 6 5 ltac:(lia) ltac:(lia) eq_refl) as F.
  change (2 ^ 5) with 32 in F. change (2 ^ 6) with 64 in F. rewrite <- F.
  unfold MASK_AND_SHIFT, MINUTES_MASK, MINUTES_BITS_TO_RIGHT. rewrite !Z.shiftr_land.
  change (Z.shiftr (Z.shiftl 47 5) 5) with 47. change (Z.shiftr (Z.shiftl (Z.ones 6) 5) 5) with 63.
  change 9 with (4 + 5). rewrite <- Z.shiftr_spec by lia. set (y := Z.shiftr t 5).
  assert (Z.land y 63 = Z.lor (Z.land y 47) (Z.land y 16)) as -> by (by rewrite <- Z.land_lor_distr_r).
  assert (Z.land (Z.land y 47) (Z.land y 16) = 0) as D.
  { rewrite <- Z.land_assoc, (Z.land_comm y 16), (Z.land_assoc 47 16). change (Z.land 47 16) with 0.
    by rewrite Z.land_0_l, Z.land_0_r. }
  rewrite <- (Z.lxor_lor _ _ D), <- (Z.add_nocarry_lxor _ _ D).
  assert (Z.land y 16 = if Z.testbit y 4 then 16 else 0) as ->; [|lia].
  change 16 with (2 ^ 4) at 1. rewrite <- (Z.land_comm (2 ^ 4)).
  apply Z.bits_inj'. intros i Hi. rewrite Z.land_spec, Z.pow2_bits_eqb by lia.
  destruct (Z.eqb_spec 4 i) as [<-|Hne]; [by destruct (Z.testbit y 4)|].
  destruct (Z.testbit y 4); [|by rewrite Z.bits_0]. change 16 with (2 ^ 4).
  rewrite Z.pow2_bits_eqb by lia. by destruct (Z.eqb_spec 4 i).
Qed.

(** ** Theorems *)

(** Without a volume label in the root directory the listing starts by
    following a pointer that was never set. *)
Theorem msdosdir_no_label (env : env) (bs : list Z) (fat0 : fat12_t) (argc : Z) (why : list Z) :
  let b := decode_boot bs in
  let es := root_scan bs (root_base b) (Z.to_nat (max_root_dir_entries b)) in
  disk_ok bs → env_ok env → fat_bytes b mod 3 = 0 → 2 ≤ argc → volume_label fat0 = None →
  Forall (λ e, is_entry_free e || negb (is_volume_label e) = true) es →
  msdosdir_main env fat0 argc (Some (at_pos bs 0)) why = Undef.
Proof.
  intros b es Hd He H3 Ha Hv Hl. unfold msdosdir_main. destruct (Z.ltb_spec argc 2); [lia|].
  destruct (read_fat12_loads env bs fat0 Hd He H3) as (junk & p & Hj & ->).
  cbn [mbind outcome_bind negb]. unfold print_fat12, print_volume_data, loaded. fold b es.
  cbn [volume_label]. rewrite Hv.
  assert (∀ i, last_label i es None = None) as ->; [|done].
  clear -Hl. induction Hl as [|e es He _ IH]; intros i; simpl; [done|].
  by destruct (is_entry_free e), (is_volume_label e).
Qed.

(** The printed fields of a directory entry's stamps: day, month and hour
    are the documented fields; the minutes lose their bit of weight 16 (the mask
    is 0x2f and not 0x3f), the year loses its top bit (0x3f and not 0x7f) and so
    restarts at 1980 in 2044, and the seconds are the stored half-seconds. *)
Theorem timestamp_fields (d t : Z) :
  MASK_AND_SHIFT d DAY_MASK DAY_BITS_TO_RIGHT = d mod 32 ∧
  MASK_AND_SHIFT d MONTH_MASK MONTH_BITS_TO_RIGHT = d / 32 mod 16 ∧
  MASK_AND_SHIFT d YEAR_MASK YEAR_BITS_TO_RIGHT = d / 512 mod 64 ∧
  MASK_AND_SHIFT t HOURS_MASK HOURS_BITS_TO_RIGHT = t / 2048 mod 32 ∧
  MASK_AND_SHIFT t MINUTES_MASK MINUTES_BITS_TO_RIGHT =
    t / 32 mod 64 - (if Z.testbit t 9 then 16 else 0) ∧
  MASK_AND_SHIFT t SECONDS_MASK SECONDS_BITS_TO_RIGHT = t mod 32.
Proof.
  split_and!; [|exact (mask_and_shift_field d _ 4 5 ltac:(lia) ltac:(lia) eq_refl)
    |exact (mask_and_shift_field d _ 6 9 ltac:(lia) ltac:(lia) eq_refl)
    |exact (mask_and_shift_field t _ 5 11 ltac:(lia) ltac:(lia) eq_refl)
    |apply minutes_field|].
  - pose proof (mask_and_shift_field d _ 5 0 ltac:(lia) ltac:(lia) eq_refl) as F.
    by rewrite Z.div_1_r in F.
  - pose proof (mask_and_shift_field t _ 5 0 ltac:(lia) ltac:(lia) eq_refl) as F.
    by rewrite Z.div_1_r in F.
Qed.

(** ** What a listing says *)

(** The shortest decimal representation. *)
Record decimal (x : Z) (ds : list Z) : Prop := {
  dec_value : undigits ds = x;
  dec_digits : Forall (λ d, 48 ≤ d ≤ 57) ds;
  dec_short : head ds = Some 48 → ds = [48]
}.

(** A number in a column of a minimal width. *)
Definition column (pad : Z) (w : nat) (x : Z) (s : list Z) : Prop := ∃ ds, decimal x ds ∧ s = replicate (w - length ds) pad ++ ds.

(** The text in an array of characters: up to the first NUL, or all of it. *)
Definition text_of (a t : list Z) : Prop := ∃ rest, a = t ++ rest ∧ 0 ∉ t ∧ (rest = [] ∨ head rest = Some 0).

(** The line of a file: its name, size, date and time.  The minutes lack their bit of
    weight 16, the year its top bit, and the seconds are those stored, in units of
    two ([timestamp_fields]). *)
Definition file_line (e : direntry_t) (l : list Z) : Prop :=
  ∃ name ext size month day year hour minute second,
    text_of (filename e) name ∧ text_of (extension e) ext ∧ column 32 10 (filesize e) size ∧
    column 48 2 (date e / 32 mod 16) month ∧ column 48 2 (date e mod 32) day ∧ column 48 2 (1980 + date e / 512 mod 64) year ∧
    column 48 2 (time e / 2048 mod 32) hour ∧ column 48 2 (time e / 32 mod 64 - (if Z.testbit (time e) 9 then 16 else 0)) minute ∧
    column 48 2 (time e mod 32) second ∧
    l = name ++ bytes_of "." ++ ext ++ bytes_of " " ++ size ++ bytes_of " " ++ month ++ bytes_of "-" ++ day ++ bytes_of "-" ++ year ++
        bytes_of " " ++ hour ++ bytes_of ":" ++ minute ++ bytes_of ":" ++ second ++ [10].

(** The volume label that is printed: the last entry in use with the bit of a label. *)
Definition has_label (e : direntry_t) : Prop := first_char e ≠ 0 ∧ Z.testbit (attributes e) 3 = true.

Definition label_entry (es : list direntry_t) (label : direntry_t) : Prop :=
  ∃ l1 l2, es = l1 ++ label :: l2 ∧ has_label label ∧ Forall (λ e, ¬ has_label e) l2.

Lemma fmt_u_decimal x : 0 ≤ x < 2 ^ 32 → decimal x (fmt_u x).
Proof.
  intros Hx. destruct (digits_undigits 10 x []) as (ds & E & Hu & Hne & Hall & Hhd); [change (10 ^ Z.of_nat 10) with 10000000000; lia|lia|].
  unfold fmt_u. rewrite E, app_nil_r. split; [done|done|]. intros Hh. destruct (Z.eq_dec x 0) as [->|Hx0]; [|by destruct (Hhd Hx0)]. cbn in E. rewrite app_nil_r in E. by symmetry.
Qed.

Lemma fmt_pad_column pad w x : 0 ≤ x < 2 ^ 32 → column pad w x (fmt_pad pad w x).
Proof. intros Hx. exists (fmt_u x). split; [by apply fmt_u_decimal|done]. Qed.

Lemma print_array_text a : text_of a (PRINT_ARRAY a).
Proof.
  induction a as [|c a (rest & E & Hn & Hr)]; cbn [PRINT_ARRAY]; [exists []; split; [done|]; split; [set_solver|by left]|]. destruct (Z.eqb_spec c 0) as [->|Hc].
  - exists (0 :: a). split; [done|]. split; [set_solver|by right].
  - exists rest. split; [cbn; by f_equal|]. split; [|done]. apply not_elem_of_cons. by split.
Qed.

Lemma print_line e : 0 ≤ filesize e < 2 ^ 32 → file_line e (print_single_file_data e).
Proof.
  intros Hs. destruct (timestamp_fields (date e) (time e)) as (E1 & E2 & E3 & E4 & E5 & E6). unfold print_single_file_data. rewrite E1, E2, E3, E4, E5, E6. unfold BASE_YEAR.
  rewrite (Z.add_comm _ 1980). do 9 eexists.
  pose proof (Z.mod_pos_bound (time e / 32) 64). assert (0 ≤ time e / 32 mod 64 - (if Z.testbit (time e) 9 then 16 else 0) < 2 ^ 32) as Hm.
  { split; [|destruct (Z.testbit (time e) 9); lia]. rewrite <- E5. unfold MASK_AND_SHIFT, MINUTES_MASK, MINUTES_BITS_TO_RIGHT. rewrite Z.shiftr_land.
    change (Z.shiftr (Z.shiftl 47 5) 5) with 47. apply Z.land_nonneg. by right. }
  split_and!; try apply print_array_text; try (apply fmt_pad_column; try done; Z.div_mod_to_equations; lia); reflexivity.
Qed.
Lemma last_label_none i es vol : Forall (λ e, ¬ has_label e) es → last_label i es vol = vol.
Proof.
  intros Hf. revert i vol. induction Hf as [|e es He _ IH]; intros i vol; [done|]. cbn [last_label]. rewrite IH, label_bit.
  destruct (negb (is_entry_free e) && Z.testbit (attributes e) 3) eqn:E; [|done]. apply andb_true_iff in E as [Hn%negb_true_iff%Z.eqb_neq Hb]. by destruct He.
Qed.

Lemma label_entry_of es label : label_entry es label → label_of es = Some label.
Proof.
  intros (l1 & l2 & -> & [Hn Hb] & Hl2). unfold label_of. assert (∀ i vol, last_label i (l1 ++ label :: l2) vol = Some (i + Z.of_nat (length l1))) as E.
  { induction l1 as [|e l1 IH]; intros i vol; cbn [app last_label length]; [|rewrite IH; f_equal; lia]. rewrite last_label_none, label_bit, Hb by done.
    assert (is_entry_free label = false) as -> by (by apply Z.eqb_neq). cbn. f_equal. lia. }
  rewrite E. cbn [mbind option_bind]. rewrite Z.add_0_l, Nat2Z.id. by apply list_lookup_middle.
Qed.

Lemma scanned_size bs o n e : Forall is_byte bs → e ∈ root_scan bs o n → 0 ≤ filesize e < 2 ^ 32.
Proof.
  intros Hb. revert o. induction n as [|n IH]; intros o; cbn [root_scan]; [set_solver|]. intros [->|He]%elem_of_cons; [|destruct (is_entry_free _); [set_solver|by eapply IH]].
  cbn [filesize decode_direntry]. set (l := slice bs (o + 28) 4). assert (Forall is_byte l ∧ (length l ≤ 4)%nat) as [Hl Hn] by (split; [by apply Forall_take, Forall_drop|unfold l, slice; rewrite length_take; lia]).
  pose proof (le_val_range l Hl) as Hr. assert (256 ^ Z.of_nat (length l) ≤ 256 ^ 4) by (apply Z.pow_le_mono_r; lia). change (2 ^ 32) with (256 ^ 4). lia.
Qed.


(** [%u] prints a number as its shortest decimal representation: reading the
    digits back gives the number, and there is no leading zero. *)
Theorem fmt_u_roundtrip (x : Z) :
  0 ≤ x < 2 ^ 32 →
  undigits (fmt_u x) = x ∧ Forall (λ d, 48 ≤ d ≤ 57) (fmt_u x) ∧ (x ≠ 0 → head (fmt_u x) ≠ Some 48).
Proof.
  intros Hx. destruct (digits_undigits 10 x []) as (ds & E & Hu & _ & Hall & Hhd); [|lia|].
  - change (10 ^ Z.of_nat 10) with 10000000000. lia.
  - unfold fmt_u. rewrite E, app_nil_r. done.
Qed.

Lemma fmt_u_roundtrip_witness : undigits (fmt_u 4294967295) = 4294967295.
Proof. apply (fmt_u_roundtrip 4294967295). lia. Defined.

Definition sample_dir : list direntry_t :=
  root_scan (sample_disk 3 600) (root_base (decode_boot (sample_disk 3 600))) 16.


(** The label-less disk: the sample with the label bit of its first entry cleared. *)
Definition unlabelled_disk : list Z :=
  <[Z.to_nat (2048 + 11) := 0]> (sample_disk 3 600).

Lemma unlabelled_disk_ok : disk_ok unlabelled_disk.
Proof.
  constructor; try by vm_compute. apply Forall_insert; [apply sample_disk_ok; set_solver|done].
Qed.

Lemma msdosdir_no_label_witness :
  msdosdir_main sample_env blank_fat 2 (Some (at_pos unlabelled_disk 0)) [] = Undef.
Proof.
  apply (msdosdir_no_label sample_env unlabelled_disk blank_fat 2 []).
  - apply unlabelled_disk_ok.
  - apply sample_env_ok.
  - by vm_compute.
  - lia.
  - done.
  - repeat constructor.
Defined.
