(* ===== verification/FatExtract.v ===== *)
(** Extracting the files of an image: [extract_files], [extract_single_file] and
    [write_cluster] of [FAT12/src/fat12.c] and the program [FAT12/src/msdosextr.c].
    The files created are a list of (name, permissions, contents); descriptors
    are never closed, so [open] may depend on how many there are. *)

From stdpp Require Import strings.
From S2P Require Import Prelude Fat12 FatPrint.

(** ** Buffers *)

(** [memcpy] into a buffer at an offset; writing past its end is undefined. *)
Definition memcpy (buf : list Z) (off : Z) (src : list Z) : outcome (list Z) :=
  if decide (0 ≤ off ∧ off + Z.of_nat (length src) ≤ Z.of_nat (length buf)) then
    Ret (take (Z.to_nat off) buf ++ src ++ drop (Z.to_nat off + length src) buf)
  else Undef.

(** The string in a buffer: the bytes before the first NUL.  A buffer without one
    is read past its end. *)
Fixpoint c_string (buf : list Z) : outcome (list Z) :=
  match buf with
  | [] => Undef
  | c :: buf' => if c =? 0 then Ret [] else s ← c_string buf'; Ret (c :: s)
  end.

(** ** World *)

Record created := Created { c_name : list Z; c_mode : Z; c_data : list Z }.

(** What the system decides: allocations of buffers, whether the [n]-th [open]
    of a name succeeds, and how much of its argument a [write] accepts. *)
Record xenv := XEnv {
  malloc_bytes : Z → option (list Z);
  open_ok : nat → list Z → bool;
  accepted : list Z → list Z
}.

(** [lseek(fd, o, SEEK_SET)]. *)
Definition lseek_set (o : Z) (f : file) : file := File (f_bytes f) o (f_err f).

(** ** Clusters *)

(** One cluster is read and its first [write_size] bytes are appended to [out].
    A failed allocation makes both system calls fail; a failed or short read
    leaves the rest of the buffer as [malloc] gave it. *)
Definition write_cluster (env : xenv) (base_address cluster cluster_size write_size : Z)
    (fd : file) (out : list Z) : file * list Z :=
  let fd := lseek_set (u32 (base_address + u32 (cluster_size * (cluster - 2)))) fd in
  match malloc_bytes env cluster_size with
  | None => (fd, out)
  | Some buff =>
    let '(_, buff, fd) := bool_read cluster_size buff fd in
    (fd, out ++ accepted env (take (Z.to_nat write_size) buff))
  end.

(** The do-while loop over the cluster chain. *)
Fixpoint extract_chain (fuel : nat) (env : xenv) (entries : option (list Z)) (eof base_address
    cluster_size size : Z) (cluster : Z) (fd : file) (out : list Z) : outcome (file * list Z) :=
  match fuel with
  | O => NoFuel
  | S fuel =>
    arr ← deref entries;
    next_cluster ← aget arr (cluster - 2);
    let last_cluster := next_cluster =? eof in
    write_size ← (if last_cluster then
                    if cluster_size =? 0 then Undef else Ret (size mod cluster_size)
                  else Ret cluster_size);
    let '(fd, out) := write_cluster env base_address cluster cluster_size write_size fd out in
    if last_cluster then Ret (fd, out)
    else extract_chain fuel env entries eof base_address cluster_size size next_cluster fd out
  end.

(** ** One file *)

(** [nospace_name_size]: [last_nonspace] is a [size_t], so the test
    [last_nonspace >= 0] never fails and a name of spaces only is read before its
    beginning. *)
Fixpoint nospace_size (k : nat) (name : list Z) : outcome Z :=
  match k with
  | O => Undef
  | S k' =>
    c ← aget name (Z.of_nat k');
    if c =? 32 then nospace_size k' name else Ret (Z.of_nat k)
  end.

(** The name is built in [full_name] behind the directory. *)
Definition build_name (entry : direntry_t) (full_name : list Z) (dirlen : Z) : outcome (list Z) :=
  n ← nospace_size (Z.to_nat MAX_FILE_NAME) (filename entry);
  full_name ← memcpy full_name dirlen (take (Z.to_nat n) (filename entry));
  if decide (extension entry ≠ replicate (Z.to_nat MAX_EXTENSION) 32) then
    full_name ← memcpy full_name (dirlen + n) (bytes_of ".");
    full_name ← memcpy full_name (dirlen + n + 1) (extension entry);
    memcpy full_name (dirlen + n + 1 + MAX_EXTENSION) [0]
  else memcpy full_name (dirlen + n) [0].

(** Octal 0444 and 0644. *)
Definition permissions_of (entry : direntry_t) : Z :=
  if z2b (Z.land (attributes entry) READ_ONLY) then 292 else 420.

Definition base_address_of (b : boot_t) : outcome Z :=
  p ← int_of (sectors_per_fat b * fat_copies b);
  q ← int_of (reserved_sectors b + p);
  r ← int_of (q * bytes_per_sector b);
  s ← int_of (r + max_root_dir_entries b * DIR_ENTRY_MEMBER_SIZE);
  Ret (u32 s).

Definition cluster_size_of (b : boot_t) : Z := bytes_per_sector b * sectors_per_cluster b.

(** The state of the extraction: the image, the name buffer, the files created
    so far and the messages printed. *)
Record xstate := XState {
  x_fd : file;
  x_name : list Z;
  x_files : list created;
  x_stdout : list Z
}.

Definition extract_single_file (fuel : nat) (env : xenv) (fat : fat12_t) (dir : list direntry_t)
    (i dirlen : Z) (st : xstate) : outcome xstate :=
  entry ← aget dir i;
  full_name ← build_name entry (x_name st) dirlen;
  name ← c_string full_name;
  if negb (open_ok env (length (x_files st)) name) then
    Ret (XState (x_fd st) full_name (x_files st)
      (x_stdout st ++ bytes_of "Could not create file with name " ++ name ++ [10]))
  else
  let cluster := start_cluster entry in
  if cluster =? 0 then
    Ret (XState (x_fd st) full_name (x_files st ++ [Created name (permissions_of entry) []]) (x_stdout st))
  else
  base_address ← base_address_of (boot fat);
  '(fd, data) ← extract_chain fuel env (fat_entries fat) (eof_marker fat) base_address
                  (cluster_size_of (boot fat)) (filesize entry) cluster (x_fd st) [];
  Ret (XState fd full_name (x_files st ++ [Created name (permissions_of entry) data]) (x_stdout st)).

(** ** All files *)

(** The loop tests [max_root_dir_entries] and not [i < max_root_dir_entries]. *)
Fixpoint extract_loop (n fuel : nat) (env : xenv) (fat : fat12_t) (dir : list direntry_t)
    (i dirlen : Z) (st : xstate) : outcome xstate :=
  match n with
  | O => NoFuel
  | S n =>
    entry ← aget dir i;
    if is_entry_free entry then Ret st else
    st ← (if is_regular_entry entry then extract_single_file fuel env fat dir i dirlen st else Ret st);
    extract_loop n fuel env fat dir (u16 (i + 1)) dirlen st
  end.

Definition extract_files (fuel : nat) (env : xenv) (fat : fat12_t) (out_dir : list Z) (fd : file)
    : outcome (list created * list Z) :=
  let dir_len := Z.of_nat (length out_dir) + 1 in
  let full_len := dir_len + MAX_FILE_NAME + 1 + MAX_EXTENSION + 1 in
  match malloc_bytes env full_len with
  | None => Ret ([], bytes_of "Could not allocate memory." ++ [10])
  | Some full_name =>
    full_name ← memcpy full_name 0 (out_dir ++ [0]);
    full_name ← memcpy full_name (dir_len - 1) [47];
    full_name ← memcpy full_name dir_len [0];
    if max_root_dir_entries (boot fat) =? 0 then Ret ([], []) else
    dir ← deref (root_dir_entries fat);
    st ← extract_loop (S (length dir)) fuel env fat dir 0 dir_len (XState fd full_name [] []);
    Ret (x_files st, x_stdout st)
  end.

(** ** The program *)

(** Exit status, files created and standard output of [msdosextr]; messages on
    standard error carry no state. *)
Definition msdosextr_main (fuel : nat) (env : env) (xenv : xenv) (fat : fat12_t) (argc : Z)
    (image : option file) (out_dir : list Z) : outcome (Z * list created * list Z) :=
  if argc <? 3 then
    Ret (USER_ERROR, [],
      bytes_of "Please include the input file and output directories as command line arguments." ++ [10])
  else
  match image with
  | None => Ret (SYSTEM_ERROR, [], [])
  | Some fd =>
    '(ok, (fat, fd)) ← read_fat12 env (fat, fd);
    if negb ok then Ret (SYSTEM_ERROR, [], []) else
    '(files, out) ← extract_files fuel xenv fat out_dir fd;
    Ret (0, files, out)
  end.

(** ** What a file's contents are *)

(** The bytes of cluster [c]. *)
Definition data_base (b : boot_t) : Z :=
  root_base b + DIR_ENTRY_MEMBER_SIZE * max_root_dir_entries b.

Definition cluster_data (bs : list Z) (c : Z) : list Z :=
  let b := decode_boot bs in
  slice bs (data_base b + cluster_size_of b * (c - 2)) (cluster_size_of b).

(** The cluster chain of the first table copy: [cs] are the clusters from [c] to
    the one whose entry is the end mark. *)
Inductive cluster_chain (bs : list Z) : Z → list Z → Prop :=
| chain_last c :
    fat12_entry bs (fat_base (decode_boot bs)) c = fat12_entry bs (fat_base (decode_boot bs)) 1 →
    cluster_chain bs c [c]
| chain_next c cs :
    fat12_entry bs (fat_base (decode_boot bs)) c ≠ fat12_entry bs (fat_base (decode_boot bs)) 1 →
    cluster_chain bs (fat12_entry bs (fat_base (decode_boot bs)) c) cs →
    cluster_chain bs c (c :: cs).

(** A cluster that the table describes and whose data lie in the image. *)
Definition cluster_ok (bs : list Z) (c : Z) : Prop :=
  let b := decode_boot bs in
  2 ≤ c < 2 * (fat_bytes b / 3) ∧
  data_base b + cluster_size_of b * (c - 1) ≤ Z.of_nat (length bs).

(** The contents the chain and the recorded size give. *)
Definition chain_data (bs : list Z) (cs : list Z) : list Z := concat (cluster_data bs <$> cs).

(** System calls and allocations that do all they are asked for. *)
Definition xenv_ok (env : xenv) : Prop :=
  (∀ n, 0 ≤ n → ∃ buf, malloc_bytes env n = Some buf ∧ Z.of_nat (length buf) = n) ∧
  (∀ k name, open_ok env k name = true) ∧ (∀ l, accepted env l = l).

(** ** Lemmas: the cluster chain *)

Fixpoint extracted (bs : list Z) (size : Z) (cs : list Z) : list Z :=
  match cs with
  | [] => []
  | [c] => take (Z.to_nat (size mod cluster_size_of (decode_boot bs))) (cluster_data bs c)
  | c :: cs' => cluster_data bs c ++ extracted bs size cs'
  end.

Lemma length_cluster_data bs c :
  disk_ok bs → cluster_ok bs c → length (cluster_data bs c) = Z.to_nat (cluster_size_of (decode_boot bs)).
Proof.
  intros Hd [Hc Hfit]. pose proof (disk_regions bs Hd) as (R1 & R2 & R3 & R4).
  pose proof (decode_boot_ranges bs (ok_bytes _ Hd)) as (B1 & B2 & B3 & B4 & B5 & B6).
  unfold cluster_data, data_base, DIR_ENTRY_MEMBER_SIZE, cluster_size_of in *.
  cbv zeta in *. apply length_slice; nia.
Qed.

Section chains.
Context (bs : list Z) (env : xenv) (size : Z).
Context (Hd : disk_ok bs) (He : xenv_ok env).

#[local] Abbreviation b := (decode_boot bs).
#[local] Abbreviation csz := (cluster_size_of (decode_boot bs)).

Lemma cluster_size_range : 0 ≤ csz.
Proof.
  pose proof (decode_boot_ranges bs (ok_bytes _ Hd)) as (B1 & B2 & B3 & B4 & B5 & B6).
  unfold cluster_size_of. nia.
Qed.

Lemma data_base_range : 0 ≤ data_base b ≤ Z.of_nat (length bs).
Proof.
  pose proof (disk_regions bs Hd) as (R1 & R2 & R3 & R4). pose proof (ok_fits _ Hd).
  pose proof (ok_root _ Hd). unfold data_base, DIR_ENTRY_MEMBER_SIZE in *. cbv zeta in *. lia.
Qed.

Lemma write_cluster_spec c ws p out :
  cluster_ok bs c →
  ∃ p', write_cluster env (data_base b) c csz ws (at_pos bs p) out =
    (at_pos bs p', out ++ take (Z.to_nat ws) (cluster_data bs c)).
Proof.
  intros [Hc Hfit]. pose proof cluster_size_range. pose proof data_base_range.
  pose proof (ok_small _ Hd). cbv zeta in *.
  assert (0 ≤ csz * (c - 2) ∧ data_base b + csz * (c - 2) + csz ≤ Z.of_nat (length bs)) as [? ?] by nia.
  unfold write_cluster. destruct He as (Hm & _ & Ha).
  rewrite (wrapu_small 32 (csz * (c - 2))), (wrapu_small 32) by lia.
  destruct (Hm csz) as (buf & -> & _); [done|].
  unfold lseek_set, at_pos at 1 2. simpl f_bytes. simpl f_err.
  fold (at_pos bs (data_base b + csz * (c - 2))).
  rewrite bool_read_full by lia. eexists. by rewrite Ha.
Qed.

Lemma table_lookup n c :
  2 ≤ c < 2 + n →
  aget (fat12_entry bs (fat_base b) <$> seqZ 2 n) (c - 2) = Ret (fat12_entry bs (fat_base b) c).
Proof.
  intros Hc. apply aget_lookup; [lia|]. rewrite list_lookup_fmap.
  rewrite lookup_seqZ_lt by lia. simpl. do 2 f_equal. lia.
Qed.

Lemma extract_chain_spec c cs fuel p out :
  cluster_chain bs c cs → Forall (cluster_ok bs) cs → 0 < csz → (length cs ≤ fuel)%nat →
  ∃ p', extract_chain fuel env (Some (fat12_entry bs (fat_base b) <$> seqZ 2 (2 * (fat_bytes b / 3 - 1))))
      (fat12_entry bs (fat_base b) 1) (data_base b) csz size c (at_pos bs p) out =
    Ret (at_pos bs p', out ++ extracted bs size cs).
Proof.
  intros Hch. revert fuel p out.
  induction Hch as [c Heof|c cs Hne Hch IH]; intros fuel p out Hok Hcs Hf;
    apply Forall_cons in Hok as [Hc Hok]; pose proof Hc as [Hc1 _]; cbv zeta in Hc1;
    (destruct fuel as [|fuel]; [simpl in Hf; lia|]);
    cbn [extract_chain deref mbind outcome_bind]; rewrite table_lookup by lia;
    cbn [mbind outcome_bind].
  - destruct (Z.eqb_spec (fat12_entry bs (fat_base b) c) (fat12_entry bs (fat_base b) 1)); [|done].
    destruct (Z.eqb_spec csz 0); [lia|]. cbn [mbind outcome_bind].
    destruct (write_cluster_spec c (size mod csz) p out Hc) as [p' ->]. by exists p'.
  - destruct (Z.eqb_spec (fat12_entry bs (fat_base b) c) (fat12_entry bs (fat_base b) 1)); [done|].
    cbn [mbind outcome_bind].
    destruct (write_cluster_spec c csz p out Hc) as [p' ->]. simpl in Hf.
    destruct (IH fuel p' (out ++ take (Z.to_nat csz) (cluster_data bs c))) as [p'' ->];
      [done|done|lia|].
    exists p''. rewrite (take_ge (cluster_data bs c)) by (by rewrite length_cluster_data).
    assert (extracted bs size (c :: cs) = cluster_data bs c ++ extracted bs size cs) as ->.
    { by destruct Hch. }
    by rewrite app_assoc.
Qed.

Lemma base_address_spec : base_address_of b = Ret (data_base b).
Proof.
  pose proof (disk_regions bs Hd) as (R1 & R2 & R3 & R4). pose proof data_base_range.
  pose proof (decode_boot_ranges bs (ok_bytes _ Hd)) as (B1 & B2 & B3 & B4 & B5 & B6).
  pose proof (ok_small _ Hd). pose proof (ok_bps _ Hd).
  assert ((reserved_sectors b + sectors_per_fat b * fat_copies b) * bytes_per_sector b = root_base b) as E
    by (unfold root_base, fat_base, fat_bytes; lia).
  assert (0 ≤ sectors_per_fat b * fat_copies b < 2 ^ 24) as ? by (split; nia).
  unfold base_address_of. unfold data_base, DIR_ENTRY_MEMBER_SIZE in *. cbv zeta in *.
  do 4 (rewrite int_of_ok by lia; cbn [mbind outcome_bind]; rewrite ?E).
  rewrite (wrapu_small 32) by lia. f_equal. lia.
Qed.
End chains.

(** With the recorded size inside the last cluster, the extracted bytes are the
    first [size] bytes of the chain; with the size a multiple of the cluster
    size the last cluster is missing. *)
Lemma extracted_take bs size cs :
  disk_ok bs → Forall (cluster_ok bs) cs → cs ≠ [] →
  let z := cluster_size_of (decode_boot bs) in
  0 < z → z * (Z.of_nat (length cs) - 1) ≤ size ≤ z * Z.of_nat (length cs) →
  extracted bs size cs = take (Z.to_nat (z * (Z.of_nat (length cs) - 1) + size mod z)) (chain_data bs cs).
Proof.
  intros Hd Hok Hne z Hz Hs. unfold chain_data.
  assert (∃ k, 0 ≤ k ∧ size mod z = k ∧ k ≤ z) as (k & Hk & Ek & Hkz).
  { exists (size mod z). pose proof (Z.mod_pos_bound size z). lia. }
  rewrite Ek. clear Hs. destruct cs as [|c cs]; [done|]. clear Hne. revert c Hok.
  induction cs as [|c' cs IH]; intros c Hok; apply Forall_cons in Hok as [Hc Hok].
  - cbn [extracted]. fold z. rewrite Ek. simpl. by rewrite app_nil_r, Z.mul_0_r.
  - change (extracted bs size (c :: c' :: cs)) with (cluster_data bs c ++ extracted bs size (c' :: cs)).
    rewrite IH by done. rewrite (fmap_cons _ c (c' :: cs)), (concat_cons (cluster_data bs c)).
    rewrite (take_app_ge (cluster_data bs c)) by (rewrite length_cluster_data by done; fold z; simpl length; nia).
    f_equal. f_equal. rewrite length_cluster_data by done. fold z. simpl length. nia.
Qed.

(** ** Lemmas: file names *)

(** A name without the spaces at its end. *)
Fixpoint rstrip (l : list Z) : list Z :=
  match l with
  | [] => []
  | c :: l' =>
    match rstrip l' with
    | [] => if c =? 32 then [] else [c]
    | r => c :: r
    end
  end.

Lemma rstrip_snoc l c : rstrip (l ++ [c]) = if c =? 32 then rstrip l else l ++ [c].
Proof.
  induction l as [|x l IH]; simpl; [done|]. rewrite IH.
  destruct (c =? 32); [done|]. by destruct l.
Qed.

Lemma rstrip_prefix l : rstrip l `prefix_of` l.
Proof.
  induction l as [|x l IH]; simpl; [done|].
  destruct (rstrip l) eqn:E; [|by apply prefix_cons].
  destruct (x =? 32); [apply prefix_nil|]. apply prefix_cons, prefix_nil.
Qed.

Lemma nospace_size_spec k name :
  (k ≤ length name)%nat →
  nospace_size k name =
    match rstrip (take k name) with [] => Undef | r => Ret (Z.of_nat (length r)) end.
Proof.
  induction k as [|k IH]; intros Hk; [done|]. cbn [nospace_size].
  destruct (lookup_lt_is_Some_2 name k) as [c Hc]; [lia|].
  rewrite (aget_lookup _ _ c) by (lia || by rewrite Nat2Z.id). cbn [mbind outcome_bind].
  rewrite (take_S_r _ _ _ Hc), rstrip_snoc. destruct (c =? 32); [by rewrite IH by lia|].
  destruct (take k name ++ [c]) as [|x r] eqn:E; [by destruct (take k name)|]. rewrite <- E.
  rewrite length_app, length_take. simpl. f_equal. lia.
Qed.

(** The name a file gets, as the code builds it: the extension keeps its
    padding. *)
Definition dos_name (e : direntry_t) : list Z :=
  rstrip (filename e) ++
  (if decide (extension e ≠ replicate (Z.to_nat MAX_EXTENSION) 32) then [46] ++ extension e else []).

Lemma memcpy_app pre r src :
  (length src ≤ length r)%nat →
  memcpy (pre ++ r) (Z.of_nat (length pre)) src = Ret (pre ++ src ++ drop (length src) r).
Proof.
  intros H. unfold memcpy. rewrite decide_True by (rewrite length_app; lia).
  rewrite Nat2Z.id, take_app_length, <- drop_drop, drop_app_length. done.
Qed.

Lemma c_string_app s r : Forall (λ c, c ≠ 0) s → c_string (s ++ [0] ++ r) = Ret s.
Proof.
  induction 1 as [|c s Hc _ IH]; simpl; [done|].
  destruct (Z.eqb_spec c 0); [done|]. simpl in IH. by rewrite IH.
Qed.

(** The shape of an entry that the code can name. *)
Record nameable (e : direntry_t) : Prop := {
  name_len : length (filename e) = 8%nat;
  ext_len : length (extension e) = 3%nat;
  name_chars : Forall (λ c, c ≠ 0) (filename e ++ extension e);
  name_nonblank : rstrip (filename e) ≠ []
}.

Lemma build_name_spec e pre r :
  nameable e → length r = 13%nat →
  ∃ r', build_name e (pre ++ r) (Z.of_nat (length pre)) = Ret (pre ++ dos_name e ++ [0] ++ r') ∧
    length (dos_name e ++ [0] ++ r') = 13%nat.
Proof.
  intros [Hn He Hc Hb] Hr. unfold build_name, MAX_FILE_NAME.
  rewrite nospace_size_spec, take_ge by (rewrite ?Hn; simpl; lia).
  destruct (rstrip_prefix (filename e)) as [sp Esp]. unfold dos_name.
  destruct (rstrip (filename e)) as [|x s] eqn:Es; [done|]. rewrite <- Es in *. clear Hb Es x s.
  set (s := rstrip (filename e)) in *. cbn [mbind outcome_bind].
  assert (length s ≤ 8)%nat by (rewrite <- Hn, Esp, length_app; lia).
  assert (take (Z.to_nat (Z.of_nat (length s))) (filename e) = s) as ->.
  { rewrite Nat2Z.id, Esp. apply take_app_length. }
  rewrite memcpy_app by lia. cbn [mbind outcome_bind].
  rewrite app_assoc, <- Nat2Z.inj_add, <- length_app. set (r1 := drop (length s) r).
  assert (length r1 = 13 - length s)%nat by (unfold r1; rewrite length_drop; lia).
  case_decide as Hext; change MAX_EXTENSION with 3 in *.
  - rewrite memcpy_app by (simpl; lia). cbn [mbind outcome_bind].
    replace (Z.of_nat (length (pre ++ s)) + 1) with (Z.of_nat (length ((pre ++ s) ++ bytes_of ".")))
      by (rewrite length_app; simpl; lia).
    rewrite app_assoc, memcpy_app by (rewrite length_drop; simpl; lia). cbn [mbind outcome_bind].
    replace (Z.of_nat (length ((pre ++ s) ++ bytes_of ".")) + 3)
      with (Z.of_nat (length (((pre ++ s) ++ bytes_of ".") ++ extension e)))
      by (rewrite (length_app _ (extension e)); lia).
    rewrite app_assoc, memcpy_app by (rewrite !length_drop; simpl; lia).
    eexists. rewrite <- !app_assoc. split; [done|].
    rewrite !length_app, !length_drop. simpl. lia.
  - rewrite memcpy_app by (simpl; lia). rewrite app_nil_r.
    eexists. rewrite <- !app_assoc. split; [done|]. rewrite !length_app, length_drop. simpl. lia.
Qed.

Lemma dos_name_nonzero e : nameable e → Forall (λ c, c ≠ 0) (dos_name e).
Proof.
  intros [_ _ Hc _]. apply Forall_app in Hc as [H1 H2]. unfold dos_name. apply Forall_app. split.
  - destruct (rstrip_prefix (filename e)) as [sp E]. rewrite E in H1. by apply Forall_app in H1 as [? _].
  - case_decide; [|done]. apply Forall_app. split; [by repeat constructor|done].
Qed.

(** ** Lemmas: files *)

(** A file is extracted as the directory describes it. *)
Definition matches (bs out_dir : list Z) (e : direntry_t) (f : created) : Prop :=
  c_name f = out_dir ++ [47] ++ dos_name e ∧ c_mode f = permissions_of e ∧
  ((start_cluster e = 0 ∧ c_data f = []) ∨
   ∃ cs, cluster_chain bs (start_cluster e) cs ∧ c_data f = extracted bs (filesize e) cs).

Definition extractable (bs : list Z) (fuel : nat) (e : direntry_t) : Prop :=
  nameable e ∧
  (start_cluster e = 0 ∨
   ∃ cs, cluster_chain bs (start_cluster e) cs ∧ Forall (cluster_ok bs) cs ∧ (length cs ≤ fuel)%nat).

(** The buffer holds the directory and room for a name. *)
Definition name_buf (out_dir buf : list Z) : Prop :=
  ∃ r, buf = (out_dir ++ [47]) ++ r ∧ length r = 13%nat.

Section files.
Context (bs : list Z) (env : xenv) (fat : fat12_t) (out_dir : list Z) (fuel : nat).
Context (Hd : disk_ok bs) (He : xenv_ok env) (Hdir : Forall (λ c, c ≠ 0) out_dir).
Context (Hz : 0 < cluster_size_of (decode_boot bs)).
Context (Hboot : boot fat = decode_boot bs)
  (Hfat : fat_entries fat = Some (fat12_entry bs (fat_base (decode_boot bs)) <$>
                                  seqZ 2 (2 * (fat_bytes (decode_boot bs) / 3 - 1))))
  (Heof : eof_marker fat = fat12_entry bs (fat_base (decode_boot bs)) 1).

#[local] Abbreviation dirlen := (Z.of_nat (length out_dir) + 1).

Lemma extract_single_file_spec dir i e st p :
  aget dir i = Ret e → extractable bs fuel e → x_fd st = at_pos bs p → name_buf out_dir (x_name st) →
  ∃ p' buf f, extract_single_file fuel env fat dir i dirlen st =
      Ret (XState (at_pos bs p') buf (x_files st ++ [f]) (x_stdout st)) ∧
    name_buf out_dir buf ∧ matches bs out_dir e f.
Proof.
  intros Hi [Hn Hch] Hfd (r & Hbuf & Hr). unfold extract_single_file. rewrite Hi, Hbuf.
  cbn [mbind outcome_bind].
  destruct (build_name_spec e (out_dir ++ [47]) r Hn Hr) as (r' & Hb & Hr').
  replace dirlen with (Z.of_nat (length (out_dir ++ [47]))) by (rewrite length_app; simpl; lia).
  rewrite Hb. cbn [mbind outcome_bind]. rewrite (app_assoc (out_dir ++ [47])), c_string_app.
  2:{ rewrite !Forall_app. split_and!; [done|by repeat constructor|by apply dos_name_nonzero]. }
  cbn [mbind outcome_bind]. pose proof He as (_ & -> & _). cbn [negb].
  assert (name_buf out_dir (((out_dir ++ [47]) ++ dos_name e) ++ [0] ++ r')) as HB.
  { exists (dos_name e ++ [0] ++ r'). by rewrite <- app_assoc. }
  destruct (Z.eqb_spec (start_cluster e) 0) as [E|E].
  - rewrite Hfd. do 3 eexists. split; [done|]. split; [done|].
    split_and!; [by rewrite <- app_assoc|done|by left].
  - destruct Hch as [?|(cs & Hcs & Hok & Hlen)]; [done|].
    rewrite Hboot, Hfat, Heof, Hfd, base_address_spec by done. cbn [mbind outcome_bind].
    destruct (extract_chain_spec bs env (filesize e) Hd He _ cs fuel p [] Hcs Hok Hz Hlen) as [p' ->].
    cbn [mbind outcome_bind]. do 3 eexists. split; [done|]. split; [done|].
    split_and!; [by rewrite <- app_assoc|done|]. right. by exists cs.
Qed.

(** The loop works through a run of entries in use. *)
Lemma extract_loop_run pre es post n st p :
  Forall (λ e, is_entry_free e = false) es →
  Forall (λ e, is_regular_entry e = true → extractable bs fuel e) es →
  Z.of_nat (length pre) + Z.of_nat (length es) < 2 ^ 16 →
  x_fd st = at_pos bs p → name_buf out_dir (x_name st) →
  ∃ st' fs, extract_loop (length es + n) fuel env fat (pre ++ es ++ post) (Z.of_nat (length pre)) dirlen st =
      extract_loop n fuel env fat (pre ++ es ++ post) (Z.of_nat (length (pre ++ es))) dirlen st' ∧
    x_files st' = x_files st ++ fs ∧ x_stdout st' = x_stdout st ∧
    Forall2 (matches bs out_dir) (dir_files es) fs.
Proof.
  revert pre st p. induction es as [|a es IH]; intros pre st p Hnf Hx Hlen Hfd Hb.
  - exists st, []. rewrite !app_nil_r. done.
  - apply Forall_cons in Hnf as [Ha Hnf], Hx as [Hxa Hx]. cbn [length] in Hlen.
    change (length (a :: es) + n)%nat with (S (length es + n)). cbn [extract_loop].
    assert (aget (pre ++ (a :: es) ++ post) (Z.of_nat (length pre)) = Ret a) as Hg
      by (apply aget_lookup; [lia|]; by rewrite Nat2Z.id, lookup_app_r, Nat.sub_diag by lia).
    rewrite Hg. cbn [mbind outcome_bind]. rewrite Ha, dir_files_cons, listed_code, Ha.
    rewrite (wrapu_small 16) by lia.
    replace (Z.of_nat (length pre) + 1) with (Z.of_nat (length (pre ++ [a])))
      by (rewrite length_app; simpl; lia).
    replace (pre ++ (a :: es) ++ post) with ((pre ++ [a]) ++ es ++ post) in *
      by (by rewrite <- app_assoc).
    replace (pre ++ a :: es) with ((pre ++ [a]) ++ es) by (by rewrite <- app_assoc).
    assert (Z.of_nat (length (pre ++ [a])) + Z.of_nat (length es) < 2 ^ 16) as Hlen'
      by (rewrite length_app; simpl; lia).
    cbn [negb andb]. destruct (is_regular_entry a) eqn:Er.
    + destruct (extract_single_file_spec _ _ a st p Hg (Hxa eq_refl) Hfd Hb)
        as (p' & buf & f & -> & Hb' & Hm). cbn [mbind outcome_bind].
      destruct (IH (pre ++ [a]) (XState (at_pos bs p') buf (x_files st ++ [f]) (x_stdout st)) p')
        as (st' & fs & -> & Hfs & Hout & Hall); [done..|].
      exists st', (f :: fs). rewrite Hfs, Hout. simpl. rewrite <- (app_assoc (x_files st)).
      split_and!; try done.
      by constructor.
    + cbn [mbind outcome_bind]. by apply (IH (pre ++ [a]) st p).
Qed.

Lemma extract_files_run es post fd p :
  fd = at_pos bs p → root_dir_entries fat = Some (es ++ post) →
  1 ≤ max_root_dir_entries (decode_boot bs) →
  Forall (λ e, is_entry_free e = false) es →
  Forall (λ e, is_regular_entry e = true → extractable bs fuel e) es →
  Z.of_nat (length es) < 2 ^ 16 →
  ∃ st fs, extract_files fuel env fat out_dir fd =
      (st ← extract_loop (S (length post)) fuel env fat (es ++ post) (Z.of_nat (length es)) dirlen st;
       Ret (x_files st, x_stdout st)) ∧
    x_files st = fs ∧ x_stdout st = [] ∧ Forall2 (matches bs out_dir) (dir_files es) fs.
Proof.
  intros -> Hr Hm Hnf Hx Hlen. unfold extract_files, MAX_FILE_NAME, MAX_EXTENSION.
  destruct He as (Halloc & _). destruct (Halloc (dirlen + 8 + 1 + 3 + 1)) as (buf & -> & Hbuf); [lia|].
  pose proof (memcpy_app [] buf (out_dir ++ [0])) as M. simpl in M.
  change (Z.of_nat 0) with 0 in M.
  rewrite M by (rewrite length_app; simpl; lia). clear M. cbn [mbind outcome_bind].
  set (r := drop (length (out_dir ++ [0])) buf).
  assert (length r = 13)%nat by (unfold r; rewrite length_drop, length_app; simpl; lia).
  replace (dirlen - 1) with (Z.of_nat (length out_dir)) by lia. rewrite <- app_assoc.
  rewrite memcpy_app by (simpl; lia). cbn [mbind outcome_bind]. rewrite app_assoc.
  replace dirlen with (Z.of_nat (length (out_dir ++ [47]))) by (rewrite length_app; simpl; lia).
  change (drop (length [47]) ([0] ++ r)) with r.
  rewrite memcpy_app by (simpl; lia). cbn [mbind outcome_bind].
  rewrite Hboot. destruct (Z.eqb_spec (max_root_dir_entries (decode_boot bs)) 0); [lia|].
  rewrite Hr. cbn [deref mbind outcome_bind].
  replace (Z.of_nat (length (out_dir ++ [47]))) with dirlen by (rewrite length_app; simpl; lia).
  set (st0 := XState _ _ _ _).
  destruct (extract_loop_run [] es post (S (length post)) st0 p Hnf Hx) as (st & fs & E & Hfs & Ho & Hall);
    [simpl; lia|done| |].
  - exists ([0] ++ drop (length [0]) r). split; [done|]. rewrite length_app, length_drop. simpl. lia.
  - exists st, fs. simpl app in E. change (Z.of_nat (length [])) with 0 in E.
    replace (S (length (es ++ post))) with (length es + S (length post))%nat
      by (rewrite length_app; lia).
    rewrite E. done.
Qed.
End files.

(** A scan that ends in a free entry: entries in use, then that one. *)
Lemma scanned_split es :
  scanned es →
  (∃ used e, es = used ++ [e] ∧ Forall (λ e, is_entry_free e = false) used ∧ is_entry_free e = true) ∨
  Forall (λ e, is_entry_free e = false) es.
Proof.
  induction es as [|e es IH]; intros Hs; [by right|].
  apply scanned_cons in Hs as [Hs Hf]. destruct (is_entry_free e) eqn:Ef.
  - rewrite Hf by done. left. by exists [], e.
  - destruct (IH Hs) as [(used & e' & -> & Hu & He')|Hall]; [left|right; by constructor].
    exists (e :: used), e'. split_and!; try done. by constructor.
Qed.

Lemma dir_files_snoc_free used e : is_entry_free e = true → dir_files (used ++ [e]) = dir_files used.
Proof.
  intros Hf. unfold dir_files. rewrite filter_app, filter_cons_False, app_nil_r; [done|].
  by rewrite listed_code, Hf.
Qed.

Lemma extract_loop_free n fuel env fat dir i dirlen st e :
  aget dir i = Ret e → is_entry_free e = true →
  extract_loop (S n) fuel env fat dir i dirlen st = Ret st.
Proof. intros Hg Hf. cbn [extract_loop]. rewrite Hg. cbn [mbind outcome_bind]. by rewrite Hf. Qed.

(** ** Theorems *)

(** C28: On a well-formed image whose table is a multiple of three bytes, whose root
    directory has a free entry, whose files have names and whose cluster chains lie
    inside the image and end with the mark that entry 1 of the table has,
    [msdosextr] exits with 0 and creates exactly one file for each entry that is
    in use, not a label and not deleted, in directory order, with the entry's
    name, its permissions and the bytes of its cluster chain: all clusters but the
    last, and of the last as many bytes as the size is more than a multiple of the
    cluster size, which are none where the file fills it. *)
Theorem msdosextr_extracts (fuel : nat) (env : env) (xenv : xenv) (bs out_dir : list Z) (fat0 : fat12_t)
    (argc : Z) :
  let b := decode_boot bs in
  let es := root_scan bs (root_base b) (Z.to_nat (max_root_dir_entries b)) in
  disk_ok bs → env_ok env → xenv_ok xenv → fat_bytes b mod 3 = 0 → 3 ≤ argc →
  1 ≤ sectors_per_cluster b → Forall (λ c, c ≠ 0) out_dir →
  Exists (λ e, is_entry_free e = true) es →
  Forall (λ e, is_regular_entry e = true → is_entry_free e = false → extractable bs fuel e) es →
  ∃ files, msdosextr_main fuel env xenv fat0 argc (Some (at_pos bs 0)) out_dir = Ret (0, files, []) ∧
    Forall2 (matches bs out_dir) (dir_files es) files.
Proof.
  intros b es Hd He Hx H3 Ha Hspc Hdir Hex Hall. unfold msdosextr_main.
  destruct (Z.ltb_spec argc 3); [lia|].
  destruct (read_fat12_loads env bs fat0 Hd He H3) as (junk & p & Hj & ->).
  cbn [mbind outcome_bind negb]. unfold loaded. fold b es.
  destruct (scanned_split es (root_scan_scanned _ _ _)) as [(used & e & Ees & Hu & Hf)|Hno].
  2:{ exfalso. apply Exists_exists in Hex as (e & Hin & Hfe). rewrite Forall_forall in Hno.
      by rewrite (Hno e Hin) in Hfe. }
  pose proof (decode_boot_ranges bs (ok_bytes _ Hd)) as (B1 & _ & _ & B4 & _). fold b in B1, B4.
  pose proof (ok_bps _ Hd) as Hbps. fold b in Hbps.
  pose proof (length_root_scan bs (root_base b) (Z.to_nat (max_root_dir_entries b))) as Hlen.
  fold es in Hlen. rewrite Ees in Hlen, Hall |- *. rewrite length_app in Hlen |- *. simpl length in *.
  destruct (extract_files_run bs xenv (loaded bs (volume_label fat0) junk) out_dir fuel Hd Hx Hdir)
    with (es := used) (post := e :: drop (length used + 1) junk) (fd := at_pos bs p) (p := p)
    as (st & fs & E & Hfs & Hout & Hm); try done.
  - unfold cluster_size_of. fold b. nia.
  - unfold loaded. fold b es. rewrite Ees, length_app. cbn [root_dir_entries]. by rewrite <- app_assoc.
  - apply ok_root, Hd.
  - apply Forall_app in Hall as [Hall _]. rewrite Forall_forall in *. intros x Hin Hr.
    apply Hall; [done|done|by apply Hu].
  - lia.
  - unfold loaded in E. fold b es in E. rewrite Ees, length_app in E. simpl length in E.
    rewrite E, (extract_loop_free _ _ _ _ _ _ _ _ e); [|apply aget_lookup; [lia|]|done].
    2:{ by rewrite Nat2Z.id, lookup_app_r, Nat.sub_diag by lia. }
    cbn [mbind outcome_bind]. exists fs. rewrite Hfs, Hout, dir_files_snoc_free by done. done.
Qed.

(** A root directory without a free entry is read past its end: the loop
    never compares the index with the number of entries. *)
Theorem msdosextr_full_directory (fuel : nat) (env : env) (xenv : xenv) (bs out_dir : list Z)
    (fat0 : fat12_t) (argc : Z) :
  let b := decode_boot bs in
  let es := root_scan bs (root_base b) (Z.to_nat (max_root_dir_entries b)) in
  disk_ok bs → env_ok env → xenv_ok xenv → fat_bytes b mod 3 = 0 → 3 ≤ argc →
  1 ≤ sectors_per_cluster b → Forall (λ c, c ≠ 0) out_dir →
  Forall (λ e, is_entry_free e = false) es →
  Forall (λ e, is_regular_entry e = true → extractable bs fuel e) es →
  msdosextr_main fuel env xenv fat0 argc (Some (at_pos bs 0)) out_dir = Undef.
Proof.
  intros b es Hd He Hx H3 Ha Hspc Hdir Hno Hall. unfold msdosextr_main.
  destruct (Z.ltb_spec argc 3); [lia|].
  destruct (read_fat12_loads env bs fat0 Hd He H3) as (junk & p & Hj & ->).
  cbn [mbind outcome_bind negb].
  pose proof (decode_boot_ranges bs (ok_bytes _ Hd)) as (B1 & _ & _ & B4 & _). fold b in B1, B4.
  pose proof (ok_bps _ Hd) as Hbps. fold b in Hbps.
  assert (Z.of_nat (length es) = max_root_dir_entries b) as Hlen.
  { destruct (root_scan_ends bs (root_base b) (Z.to_nat (max_root_dir_entries b)))
      as [E|(_ & e & Hl & Hfe)]; [fold es in E; lia|fold es in Hl].
    rewrite Forall_forall in Hno. rewrite (Hno e) in Hfe; [done|]. by apply last_Some_elem_of. }
  destruct (proj2 He (max_root_dir_entries b)) as (j & Hj' & Lj); [lia|].
  fold b in Hj. rewrite Hj in Hj'. injection Hj' as <-.
  destruct (extract_files_run bs xenv (loaded bs (volume_label fat0) junk) out_dir fuel Hd Hx Hdir)
    with (es := es) (post := @nil direntry_t) (fd := at_pos bs p) (p := p)
    as (st & fs & E & Hfs & Hout & Hm); try done.
  - unfold cluster_size_of. fold b. nia.
  - unfold loaded. fold b es. cbn [root_dir_entries]. rewrite drop_ge by lia. done.
  - apply ok_root, Hd.
  - lia.
  - rewrite E. cbn [extract_loop].
    rewrite aget_out by (rewrite app_nil_r; lia). done.
Qed.

(** What a file's cluster chain gives.  When the recorded size ends strictly
    inside the last cluster of the chain, the loop writes exactly the first
    [filesize] bytes of the chain; when the size is a multiple of the cluster
    size, it asks for [filesize % cluster_size = 0] bytes of the last cluster and
    loses it. *)
Theorem extract_chain_contents (env : xenv) (bs : list Z) (size c : Z) (cs : list Z) (fuel : nat) (p : Z) :
  let b := decode_boot bs in
  let z := cluster_size_of b in
  let n := Z.of_nat (length cs) in
  disk_ok bs → xenv_ok env → 0 < z → cluster_chain bs c cs → Forall (cluster_ok bs) cs →
  (length cs ≤ fuel)%nat → z * (n - 1) < size ≤ z * n →
  ∃ p', extract_chain fuel env
      (Some (fat12_entry bs (fat_base b) <$> seqZ 2 (2 * (fat_bytes b / 3 - 1))))
      (fat12_entry bs (fat_base b) 1) (data_base b) z size c (at_pos bs p) [] =
    Ret (at_pos bs p', take (Z.to_nat (if size =? z * n then size - z else size)) (chain_data bs cs)).
Proof.
  intros b z n Hd He Hz Hch Hok Hf Hs.
  destruct (extract_chain_spec bs env size Hd He c cs fuel p [] Hch Hok Hz Hf) as [p' E].
  exists p'. etransitivity; [exact E|]. do 2 f_equal. rewrite app_nil_l.
  rewrite extracted_take; [|done|done|by destruct Hch|done|fold b z; fold n; lia].
  f_equal. fold b z n. f_equal. destruct (Z.eqb_spec size (z * n)) as [->|Hne].
  - rewrite (Z.mul_comm z n), Z.mod_mul by lia. lia.
  - rewrite <- (Z.mod_unique size z (n - 1) (size - z * (n - 1))); lia.
Qed.

(** Chains the loop cannot handle.  A chain that comes back to a cluster of
    its own never ends, whatever the number of iterations; a chain that ends in an
    end mark other than the one in entry 1 (FAT12 allows 0xff8 to 0xfff) makes the
    loop index the table outside its bounds. *)
Theorem extract_chain_stuck (env : xenv) (bs : list Z) (size c : Z) (fd : file) (out : list Z)
    (loop : list Z) :
  let b := decode_boot bs in
  let next k := fat12_entry bs (fat_base b) k in
  let table := Some (next <$> seqZ 2 (2 * (fat_bytes b / 3 - 1))) in
  let run fuel c := extract_chain fuel env table (next 1) (data_base b) (cluster_size_of b) size c fd out in
  (c ∈ loop → Forall (λ k, 2 ≤ k < 2 * (fat_bytes b / 3) ∧ next k ≠ next 1 ∧ next k ∈ loop) loop →
   ∀ fuel, run fuel c = NoFuel) ∧
  (2 ≤ c < 2 * (fat_bytes b / 3) → next c ≠ next 1 → 2 * (fat_bytes b / 3) ≤ next c →
   ∀ fuel, (2 ≤ fuel)%nat → run fuel c = Undef).
Proof.
  intros b next table run. unfold run, table. clear run table.
  assert (∀ k, 2 ≤ k < 2 * (fat_bytes b / 3) →
    aget (next <$> seqZ 2 (2 * (fat_bytes b / 3 - 1))) (k - 2) = Ret (next k)) as Hget
    by (intros; apply table_lookup; lia).
  assert (∀ k, 2 * (fat_bytes b / 3) ≤ k → 2 ≤ k →
    aget (next <$> seqZ 2 (2 * (fat_bytes b / 3 - 1))) (k - 2) = Undef) as Hout
    by (intros; apply aget_out; right; rewrite length_fmap, length_seqZ; lia).
  set (arr := next <$> _) in *. clearbody arr next.
  assert (∀ fuel k fd out, 2 ≤ k < 2 * (fat_bytes b / 3) → next k ≠ next 1 → ∃ fd' out',
    extract_chain (S fuel) env (Some arr) (next 1) (data_base b) (cluster_size_of b) size k fd out =
    extract_chain fuel env (Some arr) (next 1) (data_base b) (cluster_size_of b) size (next k) fd' out') as step.
  { intros fuel k fd' out' Hk Hne. cbn [extract_chain deref mbind outcome_bind].
    rewrite Hget by lia. cbn [mbind outcome_bind].
    destruct (Z.eqb_spec (next k) (next 1)); [done|]. cbn [mbind outcome_bind].
    destruct (write_cluster _ _ _ _ _ _ _) as [fd'' out'']. by exists fd'', out''. }
  split.
  - intros Hin Hloop fuel. revert c fd out Hin. induction fuel as [|fuel IH]; intros k fd' out' Hin; [done|].
    rewrite Forall_forall in Hloop. destruct (Hloop k Hin) as (Hk & Hne & Hnx).
    destruct (step fuel k fd' out' Hk Hne) as (fd'' & out'' & ->). by apply IH.
  - intros Hc Hne Hbig fuel Hf. destruct fuel as [|[|fuel]]; [lia|lia|].
    destruct (step (S fuel) c fd out Hc Hne) as (fd' & out' & ->).
    cbn [extract_chain deref mbind outcome_bind]. by rewrite Hout by lia.
Qed.

(** ** Concrete images *)

Definition sample_xenv : xenv :=
  XEnv (λ n, Some (replicate (Z.to_nat n) 0)) (λ _ _, true) (λ l, l).

Lemma sample_xenv_ok : xenv_ok sample_xenv.
Proof. split_and!; try done. intros n Hn. eexists. split; [done|]. rewrite length_replicate. lia. Qed.

Definition sample_file : direntry_t := decode_direntry (sample_disk 3 600) 2080.

Lemma sample_chain size : size ∈ [600; 1024] → cluster_chain (sample_disk 3 size) 2 [2; 3].
Proof.
  intros Hs. set_unfold. destruct Hs as [->|[->|[]]]; (apply chain_next; [by vm_compute|]);
    (apply chain_last; by vm_compute).
Qed.

Lemma sample_clusters size : size ∈ [600; 1024] → Forall (cluster_ok (sample_disk 3 size)) [2; 3].
Proof. intros Hs. set_unfold. destruct Hs as [->|[->|[]]]; repeat constructor; by vm_compute. Qed.

Lemma msdosextr_extracts_witness :
  ∃ files, msdosextr_main 2 sample_env sample_xenv blank_fat 3 (Some (at_pos (sample_disk 3 600) 0))
      (bytes_of "out") = Ret (0, files, []) ∧
    Forall2 (matches (sample_disk 3 600) (bytes_of "out")) [sample_file] files.
Proof.
  apply (msdosextr_extracts 2 sample_env sample_xenv (sample_disk 3 600) (bytes_of "out") blank_fat 3).
  - apply sample_disk_ok; set_solver.
  - apply sample_env_ok.
  - apply sample_xenv_ok.
  - by vm_compute.
  - lia.
  - by vm_compute.
  - by repeat constructor.
  - do 2 apply Exists_cons_tl. apply Exists_cons_hd. by vm_compute.
  - apply Forall_cons; split; [by vm_compute|]. apply Forall_cons; split; [|apply Forall_cons; split; [by vm_compute|constructor]].
    intros _ _. split; [constructor; [done|done|by repeat constructor|by vm_compute]|]. right. exists [2; 3].
    split; [apply sample_chain; set_solver|]. split; [apply sample_clusters; set_solver|]. simpl. lia.
Defined.

Lemma extract_chain_contents_witness :
  ∃ p', extract_chain 2 sample_xenv
      (Some (fat12_entry (sample_disk 3 1024) 512 <$> seqZ 2 1022))
      4095 2560 512 1024 2 (at_pos (sample_disk 3 1024) 0) [] =
    Ret (at_pos (sample_disk 3 1024) p', take 512 (chain_data (sample_disk 3 1024) [2; 3])).
Proof.
  apply (extract_chain_contents sample_xenv (sample_disk 3 1024) 1024 2 [2; 3] 2 0).
  - apply sample_disk_ok; set_solver.
  - apply sample_xenv_ok.
  - by vm_compute.
  - apply sample_chain; set_solver.
  - apply sample_clusters; set_solver.
  - done.
  - by vm_compute.
Defined.

(** The sample with room for two directory entries only: both are in use. *)
Definition full_disk : list Z := <[17%nat := 2]> (sample_disk 3 600).

Lemma full_disk_ok : disk_ok full_disk.
Proof.
  constructor; try by vm_compute. apply Forall_insert; [apply sample_disk_ok; set_solver|done].
Qed.

Lemma msdosextr_full_directory_witness :
  msdosextr_main 2 sample_env sample_xenv blank_fat 3 (Some (at_pos full_disk 0)) (bytes_of "out") = Undef.
Proof.
  apply (msdosextr_full_directory 2 sample_env sample_xenv full_disk (bytes_of "out") blank_fat 3).
  - apply full_disk_ok.
  - apply sample_env_ok.
  - apply sample_xenv_ok.
  - by vm_compute.
  - lia.
  - by vm_compute.
  - by repeat constructor.
  - repeat constructor.
  - apply Forall_cons; split; [by vm_compute|]. apply Forall_cons; split; [|constructor].
    intros _. split; [constructor; [done|done|by repeat constructor|by vm_compute]|].
    right. exists [2; 3]. split_and!; [|repeat constructor; by vm_compute|simpl; lia].
    apply chain_next; [by vm_compute|]. apply chain_last. by vm_compute.
Defined.

(** The sample with cluster 2 linked to itself. *)
Definition cyclic_disk : list Z := <[515%nat := 2]> (sample_disk 3 600).

Lemma extract_chain_stuck_witness :
  extract_chain 1000 sample_xenv (Some (fat12_entry cyclic_disk 512 <$> seqZ 2 1022)) 4095 2560 512 600 2
    (at_pos cyclic_disk 0) [] = NoFuel.
Proof.
  apply (extract_chain_stuck sample_xenv cyclic_disk 600 2 (at_pos cyclic_disk 0) [] [2]).
  - by apply list_elem_of_singleton.
  - apply Forall_singleton. split_and!; try by vm_compute. by apply list_elem_of_singleton; vm_compute.
Defined.
