(* ===== verification/Tok.v ===== *)
(** Tokens: [CS720/parser/src/tok.c] and [inc/tok.h], the key functions of
    [src/resmap.c], and what they use of the C library and of the string and map
    packages.  [string_t.h] and [map.h] are not part of the repository: they are
    the classes [StringT] and [MapT], whose laws say what the parser relies on. *)

From stdpp Require Import strings.
From S2P Require Import Prelude.

(** ** Characters

    A [char] is signed: a [Z] in [-128, 128). *)

(** [ctype.h] in the C locale; no byte above 127 is in a class. *)
Definition isdigit (c : Z) : bool := (48 <=? c) && (c <=? 57).

Definition isupper (c : Z) : bool := (65 <=? c) && (c <=? 90).

Definition islower (c : Z) : bool := (97 <=? c) && (c <=? 122).

Definition isalpha (c : Z) : bool := isupper c || islower c.

Definition isalnum (c : Z) : bool := isalpha c || isdigit c.

Definition isspace (c : Z) : bool := (c =? 32) || (9 <=? c) && (c <=? 13).

(** [atoi]: optional white space and sign, then digits. *)
Fixpoint atoi_digits (n : Z) (cs : list Z) : Z :=
  match cs with
  | c :: cs' => if isdigit c then atoi_digits (10 * n + (c - 48)) cs' else n
  | [] => n
  end.

Fixpoint atoi (cs : list Z) : Z :=
  match cs with
  | [] => 0
  | c :: cs' =>
    if isspace c then atoi cs'
    else if c =? 45 then - atoi_digits 0 cs'
    else if c =? 43 then atoi_digits 0 cs'
    else atoi_digits 0 cs
  end.

(** ** Strings: [string_t.h] *)

Class StringT (S : Type) := {
  string_push_back : S → Z → S;
  string_length : S → Z;
  string_get : S → Z → Z;
  string_c_str : S → list Z;
  string_assign_from_char_array : S → list Z → S;
  string_concatenate : S → S → S;
  string_copy : S → S → S;
  string_compare : S → S → Z;
  string_empty : S
}.

(** What the callers rely on: a string is a sequence of characters, and
    [string_c_str] ends it with a NUL. *)
Class StringLaws (S : Type) `{StringT S} (chars : S → list Z) : Prop := {
  chars_empty : chars string_empty = [];
  chars_push_back s c : chars (string_push_back s c) = chars s ++ [c];
  chars_length s : string_length s = Z.of_nat (length (chars s));
  chars_get s i c : 0 ≤ i → chars s !! Z.to_nat i = Some c → string_get s i = c;
  chars_c_str s : string_c_str s = chars s ++ [0];
  chars_assign s cs : chars (string_assign_from_char_array s cs) = cs;
  chars_concatenate s t : chars (string_concatenate s t) = chars s ++ chars t;
  chars_copy s t : chars (string_copy s t) = chars t;
  chars_compare s t : string_compare s t = 0 ↔ chars s = chars t
}.

(** ** Tokens *)

Inductive tok_type_t :=
| TOK_EOF | NEWLINE | LPAREN | RPAREN | COLON | COMMA | PLUS
| HEXI | DECI | IDENT | REGISTER
| NOP | HALT | FRM | DIS | CLR | INC | DEC | ALM | ADD | SUB | MUL | DIV | MOV
| AND | OR | XOR | CMP | JEQ | JGT | JLT | JLE | JGE.

#[export] Instance tok_type_eq_dec : EqDecision tok_type_t.
Proof. solve_decision. Defined.

Section tok.
Context {S : Type} `{!StringT S}.

(** [type] is indeterminate until it is set; [value] may be NULL, because
    [tok_initialize] does not check what [string_initialize] gives. *)
Record tok_t := Tok { type : option tok_type_t; value : option S }.

(** [mem]: whether [malloc] succeeds, and what [string_initialize] returns. *)
Definition tok_initialize (mem : bool * option S) : option tok_t :=
  if mem.1 then Some (Tok None mem.2) else None.

Definition tok_get_type (tok : tok_t) : outcome tok_type_t :=
  match type tok with Some t => Ret t | None => Undef end.

Definition tok_set_type (tok : tok_t) (t : tok_type_t) : tok_t := Tok (Some t) (value tok).

Definition tok_get_value (tok : tok_t) : outcome S :=
  match value tok with Some s => Ret s | None => Undef end.

Definition tok_set_value (tok : tok_t) (s : S) : outcome tok_t :=
  v ← tok_get_value tok; Ret (Tok (type tok) (Some (string_copy v s))).

Definition tok_value_append (tok : tok_t) (c : Z) : outcome tok_t :=
  v ← tok_get_value tok; Ret (Tok (type tok) (Some (string_push_back v c))).

(** The name [tok_print] gives to a type. *)
Definition type_name (t : tok_type_t) : list Z :=
  bytes_of match t with
  | NEWLINE => "NEWLINE" | LPAREN => "LPAREN" | RPAREN => "RPAREN" | COLON => "COLON"
  | COMMA => "COMMA" | PLUS => "PLUS" | IDENT => "IDENT" | HEXI => "HEXI" | DECI => "DECI"
  | REGISTER => "REGISTER" | NOP => "NOP" | HALT => "HALT" | FRM => "FRM" | DIS => "DIS"
  | CLR => "CLR" | INC => "INC" | DEC => "DEC" | ALM => "ALM" | ADD => "ADD" | SUB => "SUB"
  | MUL => "MUL" | DIV => "DIV" | MOV => "MOV" | AND => "AND" | OR => "OR" | XOR => "XOR"
  | CMP => "CMP" | JEQ => "JEQ" | JGT => "JGT" | JLT => "JLT" | JLE => "JLE" | JGE => "JGE"
  | TOK_EOF => "TOK_EOF"
  end.

(** [%s]: the bytes before the NUL. *)
Fixpoint fmt_s (cs : list Z) : outcome (list Z) :=
  match cs with
  | [] => Undef
  | c :: cs' => if c =? 0 then Ret [] else out ← fmt_s cs'; Ret (u8 c :: out)
  end.

Definition tok_print (tok : tok_t) : outcome (list Z) :=
  t ← tok_get_type tok;
  v ← tok_get_value tok;
  out ← fmt_s (string_c_str v);
  Ret (type_name t ++ bytes_of ", " ++ out ++ [10]).

(** ** Keys of the map of reserved words *)

Definition str_init : S := string_empty.

Definition str_copy (s1 s2 : S) : S := string_concatenate s1 s2.

Definition str_equal (s1 s2 : S) : bool := string_compare s1 s2 =? 0.

(** The loop runs to the NUL. *)
Fixpoint str_hash_loop (hash_val : Z) (key : list Z) : outcome Z :=
  match key with
  | [] => Undef
  | c :: key' =>
    if c =? 0 then Ret hash_val
    else str_hash_loop (u64 (u64 (u64 (Z.shiftl hash_val 5) + hash_val) + u64 c)) key'
  end.

Definition str_hash (str : S) : outcome Z := str_hash_loop 5381 (string_c_str str).
End tok.
Arguments tok_t S : clear implicits.

(** ** Maps: [map.h]

    [MAKE_MAP_C] builds a map from the key functions; [put] reports whether it
    failed, [get] the value of a key equal to the given one. *)
Class MapT (M S V : Type) := {
  map_initialize : Z → option M;
  map_put : M → S → V → bool * M;
  map_get : M → S → option V
}.

(** A hash map finds what was put under an equal key, provided that equal keys
    have equal hashes. *)
Class MapLaws (M S V : Type) `{MapT M S V} (equal : S → S → bool) (hash : S → outcome Z)
    (copy : S → S) : Prop := {
  map_get_empty n m k : map_initialize n = Some m → map_get m k = None;
  map_get_put m k v m' :
    (∀ a b, equal a b = true → hash a = hash b) →
    map_put m k v = (false, m') →
    ∀ k', map_get m' k' = if equal (copy k) k' then Some v else map_get m k'
}.

(** ** Lemmas and theorems *)

Section laws.
Context {S : Type} `{HT : StringT S} (chars : S → list Z) `{HL : !StringLaws S chars}.

Lemma str_equal_chars s t : str_equal s t = true ↔ chars s = chars t.
Proof. unfold str_equal. rewrite Z.eqb_eq. apply chars_compare. Qed.

Lemma str_equal_spec s t : str_equal s t = bool_decide (chars s = chars t).
Proof.
  destruct (str_equal s t) eqn:E; [|apply not_true_iff_false in E];
    rewrite str_equal_chars in E; [by rewrite bool_decide_true|by rewrite bool_decide_false].
Qed.

Lemma chars_str_copy s : chars (str_copy str_init s) = chars s.
Proof. unfold str_copy, str_init. by rewrite chars_concatenate, chars_empty. Qed.

(** The obligation the map package puts on its keys: equal strings have the
    same hash. *)
Lemma str_hash_equal s t : str_equal s t = true → str_hash s = str_hash t.
Proof. intros E%str_equal_chars. unfold str_hash. by rewrite !chars_c_str, E. Qed.

(** djb2 as a polynomial: multiply by 33 and add the character, modulo 2^64. *)
Definition djb2 (cs : list Z) : Z := foldl (λ h c, u64 (33 * h + c)) 5381 cs.

Lemma str_hash_loop_spec h cs :
  Forall (λ c, c ≠ 0) cs →
  str_hash_loop h (cs ++ [0]) = Ret (foldl (λ h c, u64 (33 * h + c)) h cs).
Proof.
  intros Hcs. revert h. induction Hcs as [|c cs Hc _ IH]; intros h; simpl; [done|].
  destruct (Z.eqb_spec c 0); [done|]. rewrite IH. do 2 f_equal.
  rewrite Z.shiftl_mul_pow2 by lia. change (2 ^ 5) with 32. unfold wrapu.
  rewrite <- Zplus_mod, <- Z.add_assoc, Zplus_mod_idemp_l. f_equal. lia.
Qed.

Lemma str_hash_djb2 s : Forall (λ c, c ≠ 0) (chars s) → str_hash s = Ret (djb2 (chars s)).
Proof. intros Hs. unfold str_hash. rewrite chars_c_str. by apply str_hash_loop_spec. Qed.
End laws.
