(* ===== verification/Lex.v ===== *)
(** The lexer of [CS720/parser/src/lex.c] and the program of [src/main.c].  A
    stream is the bytes that are left; loops take fuel, and the theorems show how
    much is enough. *)

From stdpp Require Import strings.
From S2P Require Import Prelude Tok.

(** ** Streams *)

(** [getc] into a [char]: the end of file is -1, and so is the byte 0xff. *)
Definition getc (s : list Z) : Z * list Z :=
  match s with
  | [] => (-1, [])
  | b :: s' => (s8 b, s')
  end.

(** [ungetc] of a [char]: -1 is EOF, which is not pushed back. *)
Definition ungetc (c : Z) (s : list Z) : list Z := if c =? -1 then s else u8 c :: s.

Inductive status_t := SUCCESS | OUT_OF_MEM | UNEXPECTED_CHAR | CMD_ARGS | FILE_OPEN_ERROR.

#[export] Instance status_eq_dec : EqDecision status_t.
Proof. solve_decision. Defined.

(** ** Reserved words *)

Definition reserved_words : list (list Z) :=
  bytes_of <$> ["nop"; "halt"; "clr"; "inc"; "dec"; "frm"; "dis"; "alm"; "add"; "sub"; "mul"; "div";
                "mov"; "and"; "or"; "xor"; "cmp"; "jeq"; "jgt"; "jlt"; "jge"; "jle"]%string.

Definition reserved_types : list tok_type_t :=
  [NOP; HALT; CLR; INC; DEC; FRM; DIS; ALM; ADD; SUB; MUL; DIV;
   MOV; AND; OR; XOR; CMP; JEQ; JGT; JLT; JGE; JLE].

(** ** Character classes *)

Definition in_range (c lo hi : Z) : bool := (lo <=? c) && (c <=? hi).

Definition is_hexi_digit (c : Z) : bool := isdigit c || in_range c 65 70.

Definition is_separator (next : Z) : bool :=
  isspace next || (next =? 59) || (next =? 58) || (next =? 44) || (next =? 41) || (next =? 43).

Definition lex_is_next_separator (s : list Z) : bool * list Z :=
  let '(next, s) := getc s in (is_separator next, ungetc next s).

(** ** Skipping *)

(** [while (P(next)) next = getc(stream);] *)
Fixpoint skip_while (P : Z → bool) (fuel : nat) (next : Z) (s : list Z) : outcome (Z * list Z) :=
  match fuel with
  | O => NoFuel
  | S fuel => if P next then let '(c, s) := getc s in skip_while P fuel c s else Ret (next, s)
  end.

(** [do next = getc(stream); while (next != '\n');] *)
Fixpoint skip_comment (fuel : nat) (s : list Z) : outcome (Z * list Z) :=
  match fuel with
  | O => NoFuel
  | S fuel => let '(c, s) := getc s in if negb (c =? 10) then skip_comment fuel s else Ret (c, s)
  end.

Definition blank (c : Z) : bool := isspace c && negb (c =? 10).

Definition lex_skip_insignificant (fuel : nat) (s : list Z) : outcome (list Z) :=
  let '(next, s) := getc s in
  '(next, s) ← skip_while blank fuel next s;
  '(next, s) ← (if next =? 59 then skip_comment fuel s else Ret (next, s));
  Ret (ungetc next s).

(** The outer loop of [lex_get_newline]: one round per comment. *)
Fixpoint newline_loop (rounds fuel : nat) (next : Z) (s : list Z) : outcome (Z * list Z) :=
  match rounds with
  | O => NoFuel
  | S rounds =>
    '(next, s) ← skip_while isspace fuel next s;
    if next =? 59 then '(next, s) ← skip_comment fuel s; newline_loop rounds fuel next s
    else Ret (next, s)
  end.

Section lexer.
Context {Str M : Type} `{!StringT Str} `{!MapT M Str tok_type_t}.

Record lex_t := Lex { stream : list Z; next : Z; reserved : M }.

Definition set_stream (lex : lex_t) (s : list Z) : lex_t := Lex s (next lex) (reserved lex).

(** [lex->next = getc(lex->stream)] *)
Definition advance (lex : lex_t) : lex_t :=
  let '(c, s) := getc (stream lex) in Lex s c (reserved lex).

(** ** Initialisation *)

Fixpoint put_words (str : Str) (ws : list (list Z * tok_type_t)) (m : M) : option M :=
  match ws with
  | [] => Some m
  | (w, t) :: ws =>
    let str := string_assign_from_char_array str w in
    let '(error, m) := map_put m str t in
    if error : bool then None else put_words str ws m
  end.

(** [mem]: whether [malloc] succeeds, and what [string_initialize] returns;
    [junk] is the indeterminate [next]. *)
Definition lex_initialize (mem : bool * option Str) (junk : Z) (s : list Z) : option lex_t :=
  if negb mem.1 then None else
  m ← map_initialize 64;
  str ← mem.2;
  m ← put_words str (zip reserved_words reserved_types) m;
  Some (Lex s junk m).

(** ** Tokens *)

Definition is_register (s : Str) : bool :=
  (string_length s =? 2) && (string_get s 0 =? 82) && in_range (string_get s 1) 48 55.

Definition lex_get_character_tok (lex : lex_t) (tok : tok_t Str) (t : tok_type_t) : outcome (tok_t Str) :=
  tok_value_append (tok_set_type tok t) (next lex).

(** [lex_get_lparen], [lex_get_rparen], [lex_get_colon], [lex_get_comma] and
    [lex_get_plus] differ in the type only. *)
Definition lex_get_punct (t : tok_type_t) (fuel : nat) (lex : lex_t) (tok : tok_t Str)
    : outcome (tok_t Str * lex_t) :=
  tok ← lex_get_character_tok lex tok t;
  s ← lex_skip_insignificant fuel (stream lex);
  Ret (tok, set_stream lex s).

Definition lex_get_newline (fuel : nat) (lex : lex_t) (tok : tok_t Str) : outcome (tok_t Str * lex_t) :=
  tok ← lex_get_character_tok lex tok NEWLINE;
  let '(next, s) := getc (stream lex) in
  '(next, s) ← newline_loop fuel fuel next s;
  Ret (tok, set_stream lex (ungetc next s)).

(** Read [n] characters of a class into the token: [false] on the first one that
    is not. *)
Fixpoint get_digits (n : nat) (P : Z → bool) (lex : lex_t) (tok : tok_t Str)
    : outcome (bool * tok_t Str * lex_t) :=
  match n with
  | O => Ret (true, tok, lex)
  | S n =>
    let lex := advance lex in
    if negb (P (next lex)) then Ret (false, tok, lex) else
    tok ← tok_value_append tok (next lex);
    get_digits n P lex tok
  end.

(** What both numerals do after their digits. *)
Definition finish_numeral (fuel : nat) (lex : lex_t) (tok : tok_t Str) : outcome (status_t * tok_t Str * lex_t) :=
  let '(sep, s) := lex_is_next_separator (stream lex) in
  let lex := set_stream lex s in
  if negb sep then Ret (UNEXPECTED_CHAR, tok, lex) else
  s ← lex_skip_insignificant fuel (stream lex);
  Ret (SUCCESS, tok, set_stream lex s).

Definition lex_get_hexi (fuel : nat) (lex : lex_t) (tok : tok_t Str) : outcome (status_t * tok_t Str * lex_t) :=
  '(ok, tok, lex) ← get_digits 4 is_hexi_digit lex (tok_set_type tok HEXI);
  if negb ok then Ret (UNEXPECTED_CHAR, tok, lex) else finish_numeral fuel lex tok.

Definition lex_get_deci (fuel : nat) (lex : lex_t) (tok : tok_t Str) : outcome (status_t * tok_t Str * lex_t) :=
  '(ok, tok, lex) ← get_digits 5 isdigit lex (tok_set_type tok DECI);
  if negb ok then Ret (UNEXPECTED_CHAR, tok, lex) else
  v ← tok_get_value tok;
  if Z.shiftl 1 16 <=? atoi (string_c_str v) then Ret (UNEXPECTED_CHAR, tok, lex)
  else finish_numeral fuel lex tok.

Definition ident_char (c : Z) : bool := isalnum c || (c =? 95).

Fixpoint ident_loop (fuel : nat) (lex : lex_t) (tok : tok_t Str) : outcome (tok_t Str * lex_t) :=
  match fuel with
  | O => NoFuel
  | S fuel =>
    if ident_char (next lex) then
      tok ← tok_value_append tok (next lex);
      ident_loop fuel (advance lex) tok
    else Ret (tok, lex)
  end.

Definition lex_get_ident_like (fuel : nat) (lex : lex_t) (tok : tok_t Str)
    : outcome (status_t * tok_t Str * lex_t) :=
  tok ← tok_value_append tok (next lex);
  '(tok, lex) ← ident_loop fuel (advance lex) tok;
  let lex := set_stream lex (ungetc (next lex) (stream lex)) in
  let '(sep, s) := lex_is_next_separator (stream lex) in
  let lex := set_stream lex s in
  if negb sep then Ret (UNEXPECTED_CHAR, tok, lex) else
  v ← tok_get_value tok;
  let t := if is_register v then REGISTER else default IDENT (map_get (reserved lex) v) in
  s ← lex_skip_insignificant fuel (stream lex);
  Ret (SUCCESS, tok_set_type tok t, set_stream lex s).

(** On an error the token is released. *)
Definition keep (r : status_t * tok_t Str * lex_t) : status_t * option (tok_t Str) * lex_t :=
  let '(error, tok, lex) := r in
  (error, if decide (error = SUCCESS) then Some tok else None, lex).

Definition lex_get_next_token (fuel : nat) (mem : bool * option Str) (lex : lex_t)
    : outcome (status_t * option (tok_t Str) * lex_t) :=
  match tok_initialize mem with
  | None => Ret (OUT_OF_MEM, None, lex)
  | Some tok =>
    let lex := advance lex in
    let c := next lex in
    let ok (r : tok_t Str * lex_t) := (SUCCESS, Some r.1, r.2) in
    if c =? -1 then tok ← lex_get_character_tok lex tok TOK_EOF; Ret (ok (tok, lex))
    else if c =? 10 then r ← lex_get_newline fuel lex tok; Ret (ok r)
    else if c =? 40 then r ← lex_get_punct LPAREN fuel lex tok; Ret (ok r)
    else if c =? 41 then r ← lex_get_punct RPAREN fuel lex tok; Ret (ok r)
    else if c =? 58 then r ← lex_get_punct COLON fuel lex tok; Ret (ok r)
    else if c =? 44 then r ← lex_get_punct COMMA fuel lex tok; Ret (ok r)
    else if c =? 43 then r ← lex_get_punct PLUS fuel lex tok; Ret (ok r)
    else if c =? 35 then r ← lex_get_hexi fuel lex tok; Ret (keep r)
    else if c =? 36 then r ← lex_get_deci fuel lex tok; Ret (keep r)
    else if isalpha c || (c =? 95) then r ← lex_get_ident_like fuel lex tok; Ret (keep r)
    else Ret (UNEXPECTED_CHAR, None, lex)
  end.

(** ** The program *)

(** The loop of [main]; [mem k] is for the [k]-th token. *)
Fixpoint main_loop (n fuel : nat) (mem : nat → bool * option Str) (k : nat) (lex : lex_t) (out : list Z)
    : outcome (status_t * list Z) :=
  match n with
  | O => NoFuel
  | S n =>
    '(error, tok, lex) ← lex_get_next_token fuel (mem k) lex;
    match tok with
    | None => Ret (error, out)
    | Some tok =>
      t ← tok_get_type tok;
      if decide (t = TOK_EOF) then Ret (SUCCESS, out) else
      line ← tok_print tok;
      main_loop n fuel mem (k + 1) lex (out ++ line)
    end
  end.

(** Exit status and standard output. *)
Definition main (n fuel : nat) (argc : Z) (file : option (list Z)) (lmem : bool * option Str) (junk : Z)
    (mem : nat → bool * option Str) : outcome (status_t * list Z) :=
  if negb (argc =? 2) then Ret (CMD_ARGS, []) else
  match file with
  | None => Ret (FILE_OPEN_ERROR, [])
  | Some s =>
    match lex_initialize lmem junk s with
    | None => Ret (OUT_OF_MEM, [])
    | Some lex => main_loop n fuel mem 0 lex []
    end
  end.
End lexer.
Arguments lex_t M : clear implicits.

(** ** Lemmas: streams *)

Lemma s8_small c : 0 ≤ c < 128 → s8 c = c.
Proof. intros. apply wraps_small; lia. Qed.

(** Pushing back what was read gives a stream back, except for the byte that
    looks like the end of the file. *)
Lemma ungetc_getc s :
  Forall is_byte s → ungetc (getc s).1 (getc s).2 `suffix_of` s.
Proof.
  destruct s as [|b s]; intros Hb; [done|]. apply Forall_cons in Hb as [Hb _]. simpl. unfold ungetc.
  destruct (Z.eqb_spec (s8 b) (-1)); [by apply suffix_cons_r|].
  assert (u8 (s8 b) = b) as ->; [|done]. unfold is_byte in Hb. cint.
Qed.

Lemma ungetc_ascii c s : 0 ≤ c < 128 → ungetc c s = c :: s.
Proof. intros. unfold ungetc. zcase; [lia|]. by rewrite wrapu_small by lia. Qed.

Lemma getc_ascii c s : 0 ≤ c < 128 → getc (c :: s) = (c, s).
Proof. intros. simpl. by rewrite s8_small. Qed.

(** Comparisons of a character with a code. *)
Ltac ctype := unfold is_hexi_digit, is_separator, blank, isalnum, isalpha, isupper, islower, isdigit,
  in_range, isspace in *.

(** The first character of a stream. *)
Abbreviation peek s := (getc s).1.

Lemma skip_while_stop P fuel s :
  (0 < fuel)%nat → P (peek s) = false → skip_while P fuel (getc s).1 (getc s).2 = Ret (getc s).
Proof. intros Hf Hp. destruct fuel; [lia|]. simpl. rewrite Hp. by destruct (getc s). Qed.

Lemma skip_while_spec P fuel s :
  P (-1) = false → (length s < fuel)%nat →
  ∃ s1, s1 `suffix_of` s ∧ skip_while P fuel (getc s).1 (getc s).2 = Ret (getc s1) ∧ P (peek s1) = false.
Proof.
  intros Hp. revert fuel. induction s as [|b s IH]; intros fuel Hf; (destruct fuel as [|fuel]; [simpl in Hf; lia|]).
  - exists []. simpl. by rewrite Hp.
  - simpl in Hf. cbn [getc fst snd skip_while]. destruct (P (s8 b)) eqn:E.
    + destruct (IH fuel) as (s1 & Hs & Hr & Hq); [lia|].
      exists s1. split_and!; [by apply suffix_cons_r| |done]. by destruct (getc s).
    + exists (b :: s). done.
Qed.

Lemma skip_comment_spec fuel s :
  Forall is_byte s → last s = Some 10 → (length s ≤ fuel)%nat →
  ∃ s1, (10 :: s1) `suffix_of` s ∧ skip_comment fuel s = Ret (10, s1).
Proof.
  intros Hb. revert fuel. induction Hb as [|b s Hb _ IH]; intros fuel Hl Hf; [done|].
  destruct fuel as [|fuel]; simpl in Hf; [lia|]. cbn [skip_comment getc].
  destruct (Z.eqb_spec (s8 b) 10) as [E|E]; cbn [negb].
  - exists s. rewrite E. split; [|done]. assert (b = 10) as -> by (unfold is_byte in Hb; cint). done.
  - rewrite last_cons in Hl. destruct (last s) as [l|] eqn:El.
    + destruct (IH fuel) as (s1 & Hs & Hr); [done|lia|]. exists s1. split; [by apply suffix_cons_r|done].
    + injection Hl as ->. done.
Qed.

Lemma skip_comment_diverges fuel s : Forall (λ b, s8 b ≠ 10) s → skip_comment fuel s = NoFuel.
Proof.
  intros Hs. revert fuel. induction Hs as [|b s Hb Hs IH]; intros fuel.
  - induction fuel as [|fuel IH]; [done|]. simpl. exact IH.
  - destruct fuel as [|fuel]; [done|]. simpl. destruct (Z.eqb_spec (s8 b) 10); [done|]. apply IH.
Qed.

(** A stream in which every comment ends: its last byte is a newline. *)
Definition nl_end (s : list Z) : Prop := Forall is_byte s ∧ (s = [] ∨ last s = Some 10).

Lemma nl_end_suffix s s' : nl_end s → s' `suffix_of` s → nl_end s'.
Proof.
  intros [Hb Hl] [k ->]. apply Forall_app in Hb as [_ Hb]. split; [done|].
  destruct Hl as [Hl|Hl]; [by destruct k, s'; [left|..]|].
  destruct s' as [|x s']; [by left|]. right. rewrite last_app in Hl.
  destruct (last (x :: s')) eqn:E; [done|]. by apply last_None in E.
Qed.

Lemma suffix_tail (s : list Z) : (getc s).2 `suffix_of` s.
Proof. destruct s as [|b s]; [done|]. by apply suffix_cons_r. Qed.

(** A comment that starts in such a stream is skipped. *)
Lemma skip_comment_nl fuel s :
  nl_end s → peek s = 59 → (length s ≤ fuel)%nat →
  ∃ s1, s1 `suffix_of` s ∧ skip_comment fuel (getc s).2 = Ret (getc s1) ∧ (length s1 < length s)%nat.
Proof.
  intros [Hb Hl] Hp Hf. destruct s as [|b s]; [done|]. cbn [getc fst snd] in *.
  destruct Hl as [?|Hl]; [done|]. assert (last s = Some 10) as Hl'.
  { rewrite last_cons in Hl. destruct (last s); [done|]. injection Hl as ->. done. }
  apply Forall_cons in Hb as [_ Hb]. simpl in Hf.
  destruct (skip_comment_spec fuel s Hb Hl') as (s1 & Hs & Hr); [lia|].
  exists (10 :: s1). split_and!; [by apply suffix_cons_r|done|].
  apply suffix_length in Hs. simpl in *. lia.
Qed.

Lemma lex_skip_insignificant_nl fuel s :
  nl_end s → (length s < fuel)%nat → ∃ s1, s1 `suffix_of` s ∧ lex_skip_insignificant fuel s = Ret s1.
Proof.
  intros Hn Hf. unfold lex_skip_insignificant. destruct (skip_while_spec blank fuel s) as (s1 & Hs & Hr & _);
    [done|done|]. destruct (getc s) as [c s0]. simpl in Hr. rewrite Hr. cbn [mbind outcome_bind].
  pose proof (nl_end_suffix _ _ Hn Hs) as Hn1. pose proof (suffix_length _ _ Hs).
  destruct (Z.eqb_spec (peek s1) 59) as [E|E].
  - destruct (skip_comment_nl fuel s1 Hn1 E) as (s2 & Hs2 & Hr2 & _); [lia|].
    destruct (getc s1) as [c1 t1]. simpl in *. subst c1. rewrite Z.eqb_refl, Hr2. cbn [mbind outcome_bind].
    pose proof (nl_end_suffix _ _ Hn1 Hs2) as [Hb2 _]. pose proof (ungetc_getc s2 Hb2) as Hu.
    destruct (getc s2) as [c2 t2]. simpl in *. eexists. split; [|done]. by do 2 (etrans; [eassumption|]).
  - destruct Hn1 as [Hb1 _]. pose proof (ungetc_getc s1 Hb1) as Hu.
    destruct (getc s1) as [c1 t1]. simpl in *. destruct (Z.eqb_spec c1 59); [done|].
    eexists. split; [|done]. by etrans.
Qed.

Lemma newline_loop_nl rounds fuel s :
  nl_end s → (length s < rounds)%nat → (length s < fuel)%nat →
  ∃ s1, s1 `suffix_of` s ∧ newline_loop rounds fuel (getc s).1 (getc s).2 = Ret (getc s1).
Proof.
  revert s. induction rounds as [|rounds IH]; intros s Hn Hr Hf; [lia|]. cbn [newline_loop].
  destruct (skip_while_spec isspace fuel s) as (s1 & Hs & -> & _); [done|done|].
  pose proof (nl_end_suffix _ _ Hn Hs) as Hn1. pose proof (suffix_length _ _ Hs). cbn [mbind outcome_bind].
  destruct (Z.eqb_spec (peek s1) 59) as [E|E].
  - destruct (skip_comment_nl fuel s1 Hn1 E) as (s2 & Hs2 & Hr2 & Hlt); [lia|].
    destruct (getc s1) as [c1 t1]. simpl in *. subst c1. rewrite Z.eqb_refl, Hr2. cbn [mbind outcome_bind].
    destruct (IH s2) as (s3 & Hs3 & Hr3); [by eapply nl_end_suffix|lia|lia|].
    exists s3. destruct (getc s2) as [c2 t2]. simpl in Hr3. split; [|done]. by do 2 (etrans; [eassumption|]).
  - exists s1. split; [done|]. destruct (getc s1) as [c1 t1]. simpl in *. by destruct (Z.eqb_spec c1 59).
Qed.

(** ** Lemmas: every call returns *)

Section runs.
Context {Str M : Type} `{HST : StringT Str} (chars : Str → list Z) `{HSL : !StringLaws Str chars}.
Context `{HMT : MapT M Str tok_type_t}.

(** A token function returned with a token that can be printed, and the stream
    is what is left of [s]. *)
Definition runs (s : list Z) (m : outcome (tok_t Str * lex_t M)) : Prop :=
  ∃ t v lex', m = Ret (Tok (Some t) (Some v), lex') ∧ stream lex' `suffix_of` s.

Definition runs_status (s : list Z) (m : outcome (status_t * tok_t Str * lex_t M)) : Prop :=
  ∃ e tok lex', m = Ret (e, tok, lex') ∧ stream lex' `suffix_of` s ∧
    (e = SUCCESS → ∃ t v, tok = Tok (Some t) (Some v)).

Section calls.
Context (fuel : nat) (lex : lex_t M) (v : Str).
Context (Hn : nl_end (stream lex)) (Hf : (length (stream lex) < fuel)%nat).

Lemma lex_get_punct_runs t ty :
  runs (stream lex) (lex_get_punct t fuel lex (Tok ty (Some v))).
Proof.
  destruct (lex_skip_insignificant_nl fuel _ Hn Hf) as (s1 & Hs & Hr).
  unfold lex_get_punct, lex_get_character_tok, tok_value_append. cbn.
  rewrite Hr. cbn. eexists _, _, _. split; [done|]. done.
Qed.

Lemma lex_get_newline_runs ty : runs (stream lex) (lex_get_newline fuel lex (Tok ty (Some v))).
Proof.
  destruct (newline_loop_nl fuel fuel _ Hn Hf Hf) as (s1 & Hs & Hr).
  unfold lex_get_newline, lex_get_character_tok, tok_value_append. cbn.
  pose proof (nl_end_suffix _ _ Hn Hs) as [Hb1 _]. pose proof (ungetc_getc s1 Hb1) as Hu.
  destruct (getc (stream lex)) as [c s]. simpl in Hr. rewrite Hr. cbn [mbind outcome_bind].
  destruct (getc s1) as [c1 t1]. eexists _, _, _. split; [done|]. simpl in *. by etrans.
Qed.

Lemma finish_numeral_runs t : runs_status (stream lex) (finish_numeral fuel lex (Tok (Some t) (Some v))).
Proof.
  unfold finish_numeral, lex_is_next_separator. destruct Hn as [Hb _].
  pose proof (ungetc_getc (stream lex) Hb) as Hu. destruct (getc (stream lex)) as [c s]. simpl in Hu.
  cbn [stream set_stream]. destruct (is_separator c); cbn [negb].
  - pose proof (suffix_length _ _ Hu).
    destruct (lex_skip_insignificant_nl fuel (ungetc c s)) as (s1 & Hs & ->);
      [by eapply nl_end_suffix|lia|]. cbn.
    eexists _, _, _. split; [done|]. split; [by etrans|]. by eexists _, _.
  - eexists _, _, _. split; [done|]. by split.
Qed.
End calls.

Lemma advance_suffix (lex : lex_t M) : stream (advance lex) `suffix_of` stream lex.
Proof. unfold advance. pose proof (suffix_tail (stream lex)). by destruct (getc (stream lex)). Qed.

Lemma get_digits_runs n P lex t v :
  ∃ ok v' (lex' : lex_t M), get_digits n P lex (Tok (Some t) (Some v)) =
      Ret (ok, Tok (Some t) (Some v'), lex') ∧ stream lex' `suffix_of` stream lex.
Proof.
  revert lex v. induction n as [|n IH]; intros lex v; cbn [get_digits].
  - by exists true, v, lex.
  - pose proof (advance_suffix lex) as Ha. destruct (negb (P (next (advance lex)))).
    + by eexists _, _, _.
    + unfold tok_value_append. cbn. destruct (IH (advance lex) (string_push_back v (next (advance lex))))
        as (ok & v' & lex' & -> & Hs). eexists _, _, _. split; [done|]. by etrans.
Qed.

Lemma runs_status_suffix s s' m : runs_status s' m → s' `suffix_of` s → runs_status s m.
Proof. intros (e & tok & lex' & -> & Hs & Hok) Hs'. eexists _, _, _. split; [done|]. split; [by etrans|done]. Qed.

Lemma lex_get_hexi_runs fuel lex ty v :
  nl_end (stream lex) → (length (stream lex) < fuel)%nat →
  runs_status (stream lex) (lex_get_hexi fuel lex (Tok ty (Some v))).
Proof.
  intros Hn Hf. unfold lex_get_hexi, tok_set_type. cbn [value].
  destruct (get_digits_runs 4 is_hexi_digit lex HEXI v) as (ok & v' & lex' & -> & Hs). cbn [mbind outcome_bind].
  pose proof (suffix_length _ _ Hs). destruct ok; cbn [negb].
  - eapply runs_status_suffix; [|done]. apply finish_numeral_runs; [by eapply nl_end_suffix|lia].
  - eexists _, _, _. by split_and!.
Qed.

Lemma lex_get_deci_runs fuel lex ty v :
  nl_end (stream lex) → (length (stream lex) < fuel)%nat →
  runs_status (stream lex) (lex_get_deci fuel lex (Tok ty (Some v))).
Proof.
  intros Hn Hf. unfold lex_get_deci, tok_set_type. cbn [value].
  destruct (get_digits_runs 5 isdigit lex DECI v) as (ok & v' & lex' & -> & Hs). cbn [mbind outcome_bind].
  pose proof (suffix_length _ _ Hs). destruct ok; cbn [negb tok_get_value value mbind outcome_bind].
  - destruct (Z.shiftl 1 16 <=? atoi (string_c_str v')); [eexists _, _, _; by split_and!|].
    eapply runs_status_suffix; [|done]. apply finish_numeral_runs; [by eapply nl_end_suffix|lia].
  - eexists _, _, _. by split_and!.
Qed.

(** The identifier loop stops with the character that ended it in [next]: the
    stream with that character back is a suffix. *)
Lemma ident_loop_runs fuel s v ty (m : M) :
  Forall is_byte s → (length s < fuel)%nat →
  ∃ v' s1, s1 `suffix_of` s ∧
    ident_loop fuel (Lex (getc s).2 (getc s).1 m) (Tok ty (Some v)) =
      Ret (Tok ty (Some v'), Lex (getc s1).2 (getc s1).1 m) ∧ ident_char (peek s1) = false.
Proof.
  intros Hb. revert fuel v. induction Hb as [|b s Hb Hs IH]; intros fuel v Hf;
    (destruct fuel as [|fuel]; [simpl in Hf; lia|]); cbn [ident_loop next].
  - exists v, []. done.
  - simpl in Hf. cbn [getc fst snd]. destruct (ident_char (s8 b)) eqn:E.
    + unfold tok_value_append. cbn [tok_get_value value mbind outcome_bind].
      destruct (IH fuel (string_push_back v (s8 b))) as (v' & s1 & Hs1 & Hr & Hi); [lia|].
      exists v', s1. split; [by apply suffix_cons_r|]. unfold advance. cbn [stream reserved type].
      destruct (getc s). done.
    + exists v, (b :: s). done.
Qed.

Lemma lex_get_ident_like_runs fuel lex ty v :
  nl_end (stream lex) → (length (stream lex) < fuel)%nat →
  runs_status (stream lex) (lex_get_ident_like fuel lex (Tok ty (Some v))).
Proof.
  intros Hn Hf. unfold lex_get_ident_like, tok_value_append. cbn [tok_get_value value mbind outcome_bind type].
  destruct (ident_loop_runs fuel (stream lex) (string_push_back v (next lex)) ty (reserved lex))
    as (v' & s1 & Hs & Hr & _); [apply Hn|done|].
  unfold advance. destruct (getc (stream lex)) as [c s]. cbn [fst snd] in Hr. rewrite Hr.
  cbn [mbind outcome_bind stream next set_stream reserved].
  pose proof (nl_end_suffix _ _ Hn Hs) as Hn1. pose proof (ungetc_getc s1 (proj1 Hn1)) as Hu.
  set (s2 := ungetc (peek s1) (getc s1).2) in *. pose proof (nl_end_suffix _ _ Hn1 Hu) as Hn2.
  pose proof (ungetc_getc s2 (proj1 Hn2)) as Hu2. unfold lex_is_next_separator.
  destruct (getc s2) as [c2 t2]. cbn [fst snd] in Hu2.
  pose proof (suffix_length _ _ Hs). pose proof (suffix_length _ _ Hu). pose proof (suffix_length _ _ Hu2).
  assert (ungetc c2 t2 `suffix_of` stream lex) as Hs3 by (do 2 (etrans; [eassumption|]); done).
  destruct (is_separator c2); cbn [negb].
  - destruct (lex_skip_insignificant_nl fuel (ungetc c2 t2)) as (s3 & Hs4 & ->);
      [by eapply nl_end_suffix|lia|]. cbn.
    eexists _, _, _. split; [done|]. split; [by etrans|]. by eexists _, _.
  - eexists _, _, _. split; [done|]. by split.
Qed.

(** One token: an error, a token without a change of the stream at the end of
    the file, or a token and a shorter stream. *)
Lemma lex_get_next_token_runs fuel lex v :
  nl_end (stream lex) → (length (stream lex) < fuel)%nat →
  ∃ e tok (lex' : lex_t M), lex_get_next_token fuel (true, Some v) lex = Ret (e, tok, lex') ∧
    nl_end (stream lex') ∧
    (∀ tok', tok = Some tok' → ∃ t w, tok' = Tok (Some t) (Some w) ∧
       (t = TOK_EOF ∨ (length (stream lex') < length (stream lex))%nat)).
Proof.
  intros Hn Hf. unfold lex_get_next_token. cbn [tok_initialize fst snd].
  pose proof (advance_suffix lex) as Ha. set (lex1 := advance lex) in *.
  pose proof (nl_end_suffix _ _ Hn Ha) as Hn1. pose proof (suffix_length _ _ Ha).
  assert (next lex1 ≠ -1 → (length (stream lex1) < length (stream lex))%nat) as Hlt.
  { unfold lex1, advance. destruct (stream lex); [done|]. simpl. lia. }
  assert ((length (stream lex1) < fuel)%nat) as Hf1 by lia.
  assert (∀ m : outcome (tok_t Str * lex_t M), runs (stream lex1) m → next lex1 ≠ -1 →
    ∃ e tok (lex' : lex_t M), (r ← m; Ret (SUCCESS, Some r.1, r.2)) = Ret (e, tok, lex') ∧
      nl_end (stream lex') ∧ (∀ tok', tok = Some tok' → ∃ t w, tok' = Tok (Some t) (Some w) ∧
       (t = TOK_EOF ∨ (length (stream lex') < length (stream lex))%nat))) as Hrun.
  { intros m (t & w & lex' & -> & Hs) Hc. eexists _, _, _. split; [done|].
    split; [by eapply nl_end_suffix|]. intros tok' [= <-]. eexists _, _. split; [done|]. right.
    apply suffix_length in Hs. cbn [fst snd]. specialize (Hlt Hc). lia. }
  assert (∀ m : outcome (status_t * tok_t Str * lex_t M), runs_status (stream lex1) m → next lex1 ≠ -1 →
    ∃ e tok (lex' : lex_t M), (r ← m; Ret (keep r)) = Ret (e, tok, lex') ∧
      nl_end (stream lex') ∧ (∀ tok', tok = Some tok' → ∃ t w, tok' = Tok (Some t) (Some w) ∧
       (t = TOK_EOF ∨ (length (stream lex') < length (stream lex))%nat))) as Hrun2.
  { intros m (e & tok & lex' & -> & Hs & Hok) Hc. cbn. eexists _, _, _. split; [done|].
    split; [by eapply nl_end_suffix|]. intros tok'. case_decide as He; [|done].
    intros [= <-]. destruct (Hok He) as (t & w & ->). eexists _, _. split; [done|]. right.
    apply suffix_length in Hs. specialize (Hlt Hc). lia. }
  destruct (Z.eqb_spec (next lex1) (-1)) as [E|E].
  { eexists _, _, _. split; [done|]. split; [done|]. intros ? [= <-]. eexists _, _. split; [done|]. by left. }
  repeat (case_match;
    [first [apply Hrun; [first [apply lex_get_newline_runs | apply lex_get_punct_runs]|]
           |apply Hrun2; [first [apply lex_get_hexi_runs | apply lex_get_deci_runs
                                |apply lex_get_ident_like_runs]|]]; done|]).
  eexists _, _, _. by split_and!.
Qed.

Lemma tok_print_runs t v : ∃ line, tok_print (Tok (Some t) (Some v)) = Ret line.
Proof.
  unfold tok_print. cbn [tok_get_type tok_get_value type value mbind outcome_bind].
  rewrite chars_c_str. assert (∃ out, fmt_s (chars v ++ [0]) = Ret out) as [out ->]; [|by eexists].
  induction (chars v) as [|c cs IH]; [by exists []|]. simpl. destruct (c =? 0); [by exists []|].
  destruct IH as [out ->]. by eexists.
Qed.

Lemma main_loop_runs n fuel mem k lex out :
  (∀ k, ∃ v, mem k = (true, Some v)) →
  nl_end (stream lex) → (length (stream lex) < fuel)%nat → (length (stream lex) < n)%nat →
  ∃ r, main_loop n fuel mem k (lex : lex_t M) out = Ret r.
Proof.
  intros Hm. revert k lex out. induction n as [|n IH]; intros k lex out Hn Hf Hl; [lia|].
  cbn [main_loop]. destruct (Hm k) as [v ->].
  destruct (lex_get_next_token_runs fuel lex v Hn Hf) as (e & tok & lex' & -> & Hn' & Ht).
  cbn [mbind outcome_bind]. destruct tok as [tok|]; [|by eexists].
  destruct (Ht tok eq_refl) as (t & w & -> & Hlt). cbn [tok_get_type type mbind outcome_bind].
  case_decide; [by eexists|]. destruct Hlt as [?|Hlt]; [done|].
  destruct (tok_print_runs t w) as [line ->]. cbn [mbind outcome_bind]. apply IH; done || lia.
Qed.
End runs.

(** ** Printed programs *)

Definition keyword (w : list Z) : option tok_type_t :=
  foldl (λ r wt, if decide (wt.1 = w) then Some wt.2 else r) None (zip reserved_words reserved_types).

(** The type of an identifier-like token. *)
Definition classify (w : list Z) : tok_type_t :=
  if match w with [r; d] => (r =? 82) && in_range d 48 55 | _ => false end then REGISTER
  else default IDENT (keyword w).

Definition is_ident (w : list Z) : bool :=
  match w with c :: w' => (isalpha c || (c =? 95)) && forallb ident_char w' | [] => false end.

(** A token as the lexer delivers it: its type and its value. *)
Definition wf_tok (t : tok_type_t * list Z) : bool :=
  match t with
  | (TOK_EOF, _) => false
  | (NEWLINE, v) => bool_decide (v = [10])
  | (LPAREN, v) => bool_decide (v = [40])
  | (RPAREN, v) => bool_decide (v = [41])
  | (COLON, v) => bool_decide (v = [58])
  | (COMMA, v) => bool_decide (v = [44])
  | (PLUS, v) => bool_decide (v = [43])
  | (HEXI, v) => bool_decide (length v = 4%nat) && forallb is_hexi_digit v
  | (DECI, v) => bool_decide (length v = 5%nat) && forallb isdigit v && (atoi_digits 0 v <? 65536)
  | (ty, v) => is_ident v && bool_decide (classify v = ty)
  end.

(** Its text in a program. *)
Definition tok_text (t : tok_type_t * list Z) : list Z :=
  match t.1 with HEXI => 35 :: t.2 | DECI => 36 :: t.2 | _ => t.2 end.

Definition is_newline (t : tok_type_t * list Z) : bool := bool_decide (t.1 = NEWLINE).

(** A program: one blank after each token that is not a newline. *)
Fixpoint render (ts : list (tok_type_t * list Z)) : list Z :=
  match ts with
  | [] => []
  | t :: ts => tok_text t ++ (if is_newline t then [] else [32]) ++ render ts
  end.

(** The lexer merges newlines, so none follows another. *)
Fixpoint wf_toks (ts : list (tok_type_t * list Z)) : bool :=
  match ts with
  | [] => true
  | t :: ts =>
    wf_tok t && negb (is_newline t && match ts with t' :: _ => is_newline t' | [] => false end) && wf_toks ts
  end.

Definition tok_line (t : tok_type_t * list Z) : list Z := type_name t.1 ++ bytes_of ", " ++ t.2 ++ [10].

(** ** Lemmas: printed tokens *)

Definition ascii (c : Z) : Prop := 0 < c < 128.

(** What can follow the blank behind a token. *)
Definition clean (r : list Z) : Prop := ∀ c r', r = c :: r' → ascii c ∧ c ≠ 59 ∧ blank c = false.

Lemma clean_peek r : clean r → blank (peek r) = false ∧ peek r ≠ 59 ∧ ungetc (peek r) (getc r).2 = r.
Proof.
  destruct r as [|c r]; intros H; [done|]. destruct (H c r eq_refl) as (Ha & Hs & Hb). unfold ascii in Ha.
  rewrite getc_ascii by lia. cbn [fst snd]. rewrite ungetc_ascii by lia. done.
Qed.

Lemma lex_skip_clean fuel r : clean r → (2 ≤ fuel)%nat → lex_skip_insignificant fuel (32 :: r) = Ret r.
Proof.
  intros Hc Hf. destruct (clean_peek r Hc) as (Hb & Hs & Hu).
  unfold lex_skip_insignificant. rewrite getc_ascii by lia.
  destruct fuel as [|fuel]; [lia|]. cbn [skip_while]. change (blank 32) with true.
  pose proof (skip_while_stop blank fuel r ltac:(lia) Hb) as E.
  destruct (getc r) as [c r']. cbn [fst snd] in *. rewrite E. cbn [mbind outcome_bind].
  destruct (Z.eqb_spec c 59); [done|]. cbn. by rewrite Hu.
Qed.

Lemma newline_clean fuel r :
  clean r → isspace (peek r) = false → (1 ≤ fuel)%nat →
  newline_loop fuel fuel (getc r).1 (getc r).2 = Ret (getc r).
Proof.
  intros Hc Hi Hf. destruct (clean_peek r Hc) as (Hb & Hs & Hu). destruct fuel as [|fuel]; [lia|].
  cbn [newline_loop]. rewrite skip_while_stop by (lia || done). cbn [mbind outcome_bind].
  destruct (getc r) as [c r']. cbn [fst] in *. by destruct (Z.eqb_spec c 59).
Qed.

(** Characters of the classes are ASCII. *)
Lemma class_ascii c :
  isalpha c || (c =? 95) = true ∨ ident_char c = true ∨ is_hexi_digit c = true ∨ isdigit c = true → ascii c.
Proof. unfold ident_char, ascii. ctype. 
  rewrite ?orb_true_iff, ?andb_true_iff, ?Z.leb_le, ?Z.eqb_eq. lia. Qed.

Lemma forallb_ascii (P : Z → bool) cs :
  (∀ c, P c = true → ascii c) → forallb P cs = true → Forall (λ c, P c = true ∧ ascii c) cs.
Proof.
  intros HP. induction cs as [|c cs IH]; simpl; [done|]. intros [Hc Hcs]%andb_true_iff.
  constructor; auto.
Qed.

Section printed.
Context {Str M : Type} `{HST : StringT Str} (chars : Str → list Z) `{HSL : !StringLaws Str chars}.
Context `{HMT : MapT M Str tok_type_t}.
Context `{HML : !MapLaws M Str tok_type_t str_equal str_hash (str_copy str_init)}.

Definition reserved_ok (m : M) : Prop := ∀ k, map_get m k = keyword (chars k).

Lemma put_words_spec str ws (m m' : M) :
  put_words str ws m = Some m' →
  ∀ k, map_get m' k = foldl (λ r wt, if decide (wt.1 = chars k) then Some wt.2 else r) (map_get m k) ws.
Proof.
  revert str m. induction ws as [|[w t] ws IH]; intros str m H k; [by injection H as ->|].
  cbn [put_words] in H. set (str' := string_assign_from_char_array str w) in *.
  destruct (map_put m str' t) as [error m1] eqn:E. destruct error; [done|].
  rewrite (IH _ _ H). simpl. f_equal.
  rewrite (map_get_put m str' t m1 (str_hash_equal chars) E k), (str_equal_spec chars), chars_str_copy by done.
  unfold str'. rewrite chars_assign. case_decide; [by rewrite bool_decide_true|by rewrite bool_decide_false].
Qed.

Lemma lex_initialize_spec mem junk s (lex : lex_t M) :
  lex_initialize mem junk s = Some lex → stream lex = s ∧ reserved_ok (reserved lex).
Proof.
  unfold lex_initialize. destruct mem as [[] str]; [|done]. cbn [fst snd negb].
  destruct (map_initialize 64) as [m|] eqn:Em; [|done]. destruct str as [str|]; [|done].
  cbn [mbind option_bind].
  destruct (put_words str (zip reserved_words reserved_types) m) as [m'|] eqn:Ep; [|done].
  simpl. intros [= <-]. split; [done|].
  intros k. cbn [reserved]. rewrite (put_words_spec _ _ _ _ Ep). by rewrite (map_get_empty _ _ _ Em).
Qed.

Lemma is_register_spec v :
  is_register v = match chars v with [r; d] => (r =? 82) && in_range d 48 55 | _ => false end.
Proof.
  unfold is_register. rewrite chars_length. destruct (chars v) as [|r [|d [|x l]]] eqn:E; try done.
  - by rewrite (chars_get v 0 r), (chars_get v 1 d) by (lia || by rewrite E).
  - simpl length. destruct (Z.eqb_spec (Z.of_nat (S (S (S (length l))))) 2); [lia|done].
Qed.

Lemma get_digits_spec P ds rest c (m : M) v ty :
  Forall (λ c, P c = true ∧ ascii c) ds →
  ∃ c' v', get_digits (length ds) P (Lex (ds ++ rest) c m) (Tok ty (Some v)) =
      Ret (true, Tok ty (Some v'), Lex rest c' m) ∧ chars v' = chars v ++ ds.
Proof.
  intros Hd. revert c v. induction Hd as [|d ds [Hd Ha] _ IH]; intros c v; cbn [length get_digits].
  - exists c, v. by rewrite app_nil_r.
  - unfold advance. cbn [app stream]. unfold ascii in Ha. rewrite getc_ascii by lia. cbn [next reserved].
    rewrite Hd. cbn [negb]. unfold tok_value_append. cbn [tok_get_value value mbind outcome_bind type].
    destruct (IH d (string_push_back v d)) as (c' & v' & -> & Hv). exists c', v'.
    by rewrite Hv, chars_push_back, <- app_assoc.
Qed.

Lemma finish_numeral_spec fuel r c (m : M) ty (v : Str) :
  clean r → (2 ≤ fuel)%nat →
  finish_numeral fuel (Lex (32 :: r) c m) (Tok ty (Some v)) =
    Ret (SUCCESS, Tok ty (Some v), (Lex r c m : lex_t M)).
Proof.
  intros Hc Hf. unfold finish_numeral, lex_is_next_separator. cbn [stream].
  rewrite getc_ascii by lia. change (is_separator 32) with true. cbn [negb].
  rewrite ungetc_ascii by lia. cbn [set_stream stream]. by rewrite lex_skip_clean.
Qed.

Lemma ident_loop_spec fuel w r (m : M) v ty :
  Forall (λ c, ident_char c = true ∧ ascii c) w → (length w < fuel)%nat →
  ∃ v', ident_loop fuel (Lex (getc (w ++ 32 :: r)).2 (getc (w ++ 32 :: r)).1 m) (Tok ty (Some v)) =
      Ret (Tok ty (Some v'), (Lex r 32 m : lex_t M)) ∧ chars v' = chars v ++ w.
Proof.
  intros Hw. revert fuel v. induction Hw as [|c w [Hc Ha] _ IH]; intros fuel v Hf;
    (destruct fuel as [|fuel]; [simpl in Hf; lia|]); cbn [ident_loop next app].
  - exists v. by rewrite app_nil_r.
  - unfold ascii in Ha. rewrite getc_ascii by lia. cbn [fst snd next]. rewrite Hc.
    unfold tok_value_append. cbn [tok_get_value value mbind outcome_bind type].
    simpl in Hf. destruct (IH fuel (string_push_back v c)) as (v' & Hr & Hv); [lia|].
    exists v'. unfold advance. cbn [stream reserved]. destruct (getc (w ++ 32 :: r)). cbn [fst snd] in Hr.
    by rewrite Hr, Hv, chars_push_back, <- app_assoc.
Qed.

(** A token function read the value [w] and left the stream [r]. *)
Definition reads (t : tok_type_t) (w r : list Z) (m : M) (o : outcome (status_t * option (tok_t Str) * lex_t M)) : Prop :=
  ∃ v' c, o = Ret (SUCCESS, Some (Tok (Some t) (Some v')), Lex r c m) ∧ chars v' = w.

Lemma lex_get_punct_reads t fuel c r m ty v :
  clean r → (2 ≤ fuel)%nat → chars v = [] →
  reads t [c] r m (x ← lex_get_punct t fuel (Lex (32 :: r) c m) (Tok ty (Some v)); Ret (SUCCESS, Some x.1, x.2)).
Proof.
  intros Hc Hf Hv. unfold lex_get_punct, lex_get_character_tok, tok_value_append.
  cbn [tok_get_value tok_set_type value type mbind outcome_bind stream next].
  rewrite lex_skip_clean by done. cbn. exists (string_push_back v c), c. split; [done|].
  by rewrite chars_push_back, Hv.
Qed.

Lemma lex_get_newline_reads fuel r m ty v :
  clean r → isspace (peek r) = false → (2 ≤ fuel)%nat → chars v = [] →
  reads NEWLINE [10] r m
    (x ← lex_get_newline fuel (Lex r 10 m) (Tok ty (Some v)); Ret (SUCCESS, Some x.1, x.2)).
Proof.
  intros Hc Hi Hf Hv. unfold lex_get_newline, lex_get_character_tok, tok_value_append.
  cbn [tok_get_value tok_set_type value type mbind outcome_bind stream next].
  pose proof (newline_clean fuel r Hc Hi ltac:(lia)) as E. pose proof (clean_peek r Hc) as (_ & _ & Hu).
  destruct (getc r) as [c r']. cbn [fst snd] in *. rewrite E. cbn. rewrite Hu.
  exists (string_push_back v 10), 10. split; [done|]. by rewrite chars_push_back, Hv.
Qed.

Lemma atoi_digits_spec w : forallb isdigit w = true → atoi (w ++ [0]) = atoi_digits 0 w.
Proof.
  intros Hw. assert (∀ n, atoi_digits n (w ++ [0]) = atoi_digits n w) as E.
  { induction w as [|c w IH]; intros n; [done|]. simpl in *. apply andb_true_iff in Hw as [Hc Hw].
    rewrite Hc. by apply IH. }
  destruct w as [|c w]; [done|]. simpl in Hw. apply andb_true_iff in Hw as [Hc _].
  rewrite <- E. simpl. assert (48 ≤ c ≤ 57) by (ctype; rewrite andb_true_iff, !Z.leb_le in Hc; lia).
  assert (isspace c = false) as -> by (ctype; zcase; simpl; lia).
  destruct (Z.eqb_spec c 45); [lia|]. destruct (Z.eqb_spec c 43); [lia|done].
Qed.

Lemma lex_get_hexi_reads fuel w r c m ty v :
  length w = 4%nat → forallb is_hexi_digit w = true → clean r → (2 ≤ fuel)%nat → chars v = [] →
  reads HEXI w r m (x ← lex_get_hexi fuel (Lex (w ++ 32 :: r) c m) (Tok ty (Some v)); Ret (keep x)).
Proof.
  intros Hl Hw Hc Hf Hv. apply forallb_ascii in Hw; [|intros ? ?; apply class_ascii; auto].
  unfold lex_get_hexi, tok_set_type. cbn [value].
  destruct (get_digits_spec is_hexi_digit w (32 :: r) c m v (Some HEXI) Hw) as (c' & v' & E & Hv').
  rewrite Hl in E. rewrite E. cbn [mbind outcome_bind negb]. rewrite finish_numeral_spec by done.
  exists v', c'. split; [done|]. by rewrite Hv', Hv.
Qed.

Lemma lex_get_deci_reads fuel w r c m ty v :
  length w = 5%nat → forallb isdigit w = true → atoi_digits 0 w < 65536 →
  clean r → (2 ≤ fuel)%nat → chars v = [] →
  reads DECI w r m (x ← lex_get_deci fuel (Lex (w ++ 32 :: r) c m) (Tok ty (Some v)); Ret (keep x)).
Proof.
  intros Hl Hw Hd Hc Hf Hv. pose proof (forallb_ascii isdigit w) as Ha. specialize (Ha ltac:(intros ? ?; apply class_ascii; auto) Hw).
  unfold lex_get_deci, tok_set_type. cbn [value].
  destruct (get_digits_spec isdigit w (32 :: r) c m v (Some DECI) Ha) as (c' & v' & E & Hv').
  rewrite Hl in E. rewrite E. cbn [mbind outcome_bind negb tok_get_value value].
  rewrite chars_c_str, Hv', Hv, app_nil_l, atoi_digits_spec by done.
  destruct (Z.leb_spec (Z.shiftl 1 16) (atoi_digits 0 w)) as [H|H];
    [change (Z.shiftl 1 16) with 65536 in H; lia|].
  rewrite finish_numeral_spec by done. exists v', c'. split; [done|]. by rewrite Hv', Hv.
Qed.

Lemma lex_get_ident_like_reads fuel c w r m ty v :
  reserved_ok m → forallb ident_char w = true → ascii c → clean r →
  (length w < fuel)%nat → (2 ≤ fuel)%nat → chars v = [] →
  reads (classify (c :: w)) (c :: w) r m
    (x ← lex_get_ident_like fuel (Lex (w ++ 32 :: r) c m) (Tok ty (Some v)); Ret (keep x)).
Proof.
  intros Hm Hw Ha Hc Hf Hf2 Hv. apply forallb_ascii in Hw; [|intros ? ?; apply class_ascii; auto].
  unfold lex_get_ident_like, tok_value_append. cbn [tok_get_value value mbind outcome_bind type next].
  destruct (ident_loop_spec fuel w r m (string_push_back v c) ty Hw Hf) as (v' & E & Hv').
  unfold advance. cbn [stream reserved]. destruct (getc (w ++ 32 :: r)) as [c1 s1]. cbn [fst snd] in E.
  rewrite E. cbn [mbind outcome_bind stream next set_stream]. rewrite ungetc_ascii by lia.
  unfold lex_is_next_separator. rewrite getc_ascii by lia. change (is_separator 32) with true.
  rewrite ungetc_ascii by lia. cbn [negb stream set_stream reserved].
  rewrite lex_skip_clean by done. cbn [tok_get_value value mbind outcome_bind].
  assert (chars v' = c :: w) as Hcv by (by rewrite Hv', chars_push_back, Hv).
  exists v', 32. split; [|done]. rewrite is_register_spec, Hm, Hcv. done.
Qed.

Lemma lex_get_ident_token fuel w r c m v :
  reserved_ok m → is_ident w = true → clean r → (length w + 2 ≤ fuel)%nat → chars v = [] →
  reads (classify w) w r m (lex_get_next_token fuel (true, Some v) (Lex (w ++ 32 :: r) c m)).
Proof.
  intros Hm Hi Hc Hf Hv. destruct w as [|x w]; [done|]. cbn [is_ident] in Hi.
  apply andb_true_iff in Hi as [Hx Hw]. assert (ascii x) as Hax by (apply class_ascii; auto).
  unfold lex_get_next_token, advance. cbn [tok_initialize fst snd stream app].
  pose proof Hax as Hax'. unfold ascii in Hax'. rewrite getc_ascii by lia. cbn [next reserved].
  assert (x = 95 ∨ 65 ≤ x ≤ 90 ∨ 97 ≤ x ≤ 122) as Hr
    by (clear -Hx; ctype; rewrite ?orb_true_iff, ?andb_true_iff, ?Z.leb_le, ?Z.eqb_eq in Hx; lia).
  do 9 (case (Z.eqb_spec x); [lia|intros _]). rewrite Hx.
  cbn [length] in Hf. apply lex_get_ident_like_reads; done || lia.
Qed.

Lemma lex_get_next_token_reads fuel t r c m v :
  reserved_ok m → wf_tok t = true → clean r → (is_newline t = true → isspace (peek r) = false) →
  (length (tok_text t) + 2 ≤ fuel)%nat → chars v = [] →
  reads t.1 t.2 r m (lex_get_next_token fuel (true, Some v)
    (Lex (tok_text t ++ (if is_newline t then [] else [32]) ++ r) c m)).
Proof.
  intros Hm Hw Hc Hn Hf Hv. destruct t as [ty w]. unfold is_newline in *. cbn [fst snd] in *.
  destruct ty; cbn [wf_tok] in Hw; try done;
    try (apply andb_true_iff in Hw as [Hw Hcl%bool_decide_eq_true]; cbn [tok_text fst snd] in *;
         pose proof (lex_get_ident_token fuel w r c m v Hm Hw Hc Hf Hv) as Hr;
         rewrite Hcl in Hr; exact Hr);
    try (apply bool_decide_eq_true in Hw as ->; apply lex_get_punct_reads; done || lia).
  - apply bool_decide_eq_true in Hw as ->. apply lex_get_newline_reads; [done|by apply Hn|lia|done].
  - apply andb_true_iff in Hw as [Hl%bool_decide_eq_true Hw]. cbn [tok_text fst snd length] in *.
    apply lex_get_hexi_reads; done || lia.
  - apply andb_true_iff in Hw as [Hw Hd%Z.ltb_lt]. apply andb_true_iff in Hw as [Hl%bool_decide_eq_true Hw].
    cbn [tok_text fst snd length] in *. apply lex_get_deci_reads; done || lia.
Qed.

Lemma fmt_s_spec w : Forall ascii w → fmt_s (w ++ [0]) = Ret w.
Proof.
  induction 1 as [|c w Hc _ IH]; [done|]. unfold ascii in Hc. simpl.
  destruct (Z.eqb_spec c 0); [lia|]. rewrite IH. cbn. by rewrite wrapu_small by lia.
Qed.

Lemma tok_print_spec t w v : chars v = w → Forall ascii w → tok_print (Tok (Some t) (Some v)) = Ret (tok_line (t, w)).
Proof.
  intros Hv Hw. unfold tok_print. cbn [tok_get_type tok_get_value type value mbind outcome_bind].
  rewrite chars_c_str, Hv, fmt_s_spec by done. done.
Qed.
End printed.

Lemma forallb_Forall_ascii (P : Z → bool) w :
  (∀ c, P c = true → ascii c) → forallb P w = true → Forall ascii w.
Proof. intros HP Hw. eapply Forall_impl; [by apply forallb_ascii|]. by intros c [_ ?]. Qed.

Lemma is_ident_ascii w : is_ident w = true → Forall ascii w.
Proof.
  destruct w as [|c w]; [done|]. cbn [is_ident]. intros [Hc Hw]%andb_true_iff.
  constructor; [apply class_ascii; auto|].
  apply (forallb_Forall_ascii ident_char); [intros ? ?; apply class_ascii; auto|done].
Qed.

Lemma wf_tok_ascii t : wf_tok t = true → Forall ascii t.2.
Proof.
  destruct t as [ty w]. destruct ty; cbn [wf_tok snd]; intros Hw; try done;
    try (apply andb_true_iff in Hw as [Hw _]; by apply is_ident_ascii);
    try (apply bool_decide_eq_true in Hw as ->; by repeat constructor).
  - apply andb_true_iff in Hw as [_ Hw].
    apply (forallb_Forall_ascii is_hexi_digit); [intros ? ?; apply class_ascii; auto|done].
  - apply andb_true_iff in Hw as [Hw _]. apply andb_true_iff in Hw as [_ Hw].
    apply (forallb_Forall_ascii isdigit); [intros ? ?; apply class_ascii; auto|done].
Qed.

(** The first character of a token's text. *)
Lemma tok_text_head t :
  wf_tok t = true →
  ∃ c w, tok_text t = c :: w ∧ ascii c ∧ c ≠ 59 ∧ blank c = false ∧ (is_newline t = false → isspace c = false).
Proof.
  destruct t as [ty w]. destruct ty; cbn [wf_tok]; intros Hw; try done;
    try (apply bool_decide_eq_true in Hw as ->; eexists _, _; by split_and!);
    try (eexists _, _; by split_and!).
  all: apply andb_true_iff in Hw as [Hw _]; destruct w as [|c w]; [done|]; cbn [is_ident] in Hw;
    apply andb_true_iff in Hw as [Hc _]; exists c, w.
  all: assert (c = 95 ∨ 65 ≤ c ≤ 90 ∨ 97 ≤ c ≤ 122) as Hr
    by (clear -Hc; ctype; rewrite ?orb_true_iff, ?andb_true_iff, ?Z.leb_le, ?Z.eqb_eq in Hc; lia).
  all: assert (isspace c = false) as Hs by (unfold isspace; zcase; simpl; lia || done).
  all: split_and!; [done|unfold ascii; lia|lia|by unfold blank; rewrite Hs|done].
Qed.

Lemma render_clean ts : wf_toks ts = true → clean (render ts).
Proof.
  destruct ts as [|t ts]; intros Hw c r; [done|]. cbn [wf_toks render] in *.
  apply andb_true_iff in Hw as [Hw _]. apply andb_true_iff in Hw as [Hw _].
  destruct (tok_text_head t Hw) as (x & w & -> & Ha & Hs & Hb & _). simpl. by intros [= <- _].
Qed.

Section main.
Context {Str M : Type} `{HST : StringT Str} (chars : Str → list Z) `{HSL : !StringLaws Str chars}.
Context `{HMT : MapT M Str tok_type_t}.
Context `{HML : !MapLaws M Str tok_type_t str_equal str_hash (str_copy str_init)}.

(** Every allocation succeeds and gives an empty string. *)
Definition mem_ok (mem : nat → bool * option Str) : Prop := ∀ k, ∃ v, mem k = (true, Some v) ∧ chars v = [].

Lemma main_loop_spec ts n fuel mem k c (m : M) out :
  mem_ok mem → reserved_ok chars m → wf_toks ts = true → (length ts < n)%nat →
  (length (render ts) + 2 ≤ fuel)%nat →
  main_loop n fuel mem k (Lex (render ts) c m) out = Ret (SUCCESS, out ++ concat (tok_line <$> ts)).
Proof.
  intros Hmem Hm. revert n k c out. induction ts as [|t ts IH]; intros n k c out Hw Hn Hf;
    (destruct n as [|n]; [simpl in Hn; lia|]); cbn [main_loop]; destruct (Hmem k) as (v & -> & Hv).
  - cbn. by rewrite app_nil_r.
  - cbn [wf_toks] in Hw. apply andb_true_iff in Hw as [Hw Hws]. apply andb_true_iff in Hw as [Hw Hnl].
    cbn [render] in *. rewrite !length_app in Hf. cbn [length] in Hn.
    destruct (lex_get_next_token_reads chars fuel t (render ts) c m v Hm Hw) as (v' & c' & -> & Hv');
      [by apply render_clean| |lia|done|].
    { intros Ht. rewrite Ht in Hnl. destruct ts as [|t' ts]; [done|]. simpl in Hnl.
      cbn [wf_toks] in Hws. apply andb_true_iff in Hws as [Hws _]. apply andb_true_iff in Hws as [Hw' _].
      destruct (tok_text_head t' Hw') as (x & w & E & Ha & _ & _ & Hi). cbn [render]. rewrite E.
      unfold ascii in Ha. rewrite <- app_comm_cons, getc_ascii by lia. apply Hi.
      by destruct (is_newline t'). }
    cbn [mbind outcome_bind tok_get_type type]. rewrite decide_False by (intros E; destruct t as [ty w]; cbn [fst] in E; by subst).
    rewrite (tok_print_spec chars t.1 t.2 v' Hv') by by apply wf_tok_ascii. cbn [mbind outcome_bind].
    rewrite IH by (done || lia). rewrite <- app_assoc. by destruct t.
Qed.
End main.

(** ** An instance of the packages: strings and maps as lists *)

#[export] Instance list_string : StringT (list Z) := {
  string_push_back s c := s ++ [c];
  string_length s := Z.of_nat (length s);
  string_get s i := default 0 (s !! Z.to_nat i);
  string_c_str s := s ++ [0];
  string_assign_from_char_array _ cs := cs;
  string_concatenate s t := s ++ t;
  string_copy _ t := t;
  string_compare s t := if decide (s = t) then 0 else 1;
  string_empty := []
}.

#[export] Instance list_string_laws : StringLaws (list Z) id.
Proof.
  split; try done.
  - intros s i c _ Hc. unfold id in Hc. simpl. by rewrite Hc.
  - intros s t. simpl. by case_decide.
Qed.

#[export] Instance assoc_map : MapT (list (list Z * tok_type_t)) (list Z) tok_type_t := {
  map_initialize _ := Some [];
  map_put m k v := (false, (str_copy str_init k, v) :: m);
  map_get m k := (λ x, x.2.2) <$> list_find (λ kv, str_equal kv.1 k = true) m
}.

#[export] Instance assoc_map_laws :
  MapLaws (list (list Z * tok_type_t)) (list Z) tok_type_t str_equal str_hash (str_copy str_init).
Proof.
  split.
  - intros n m k [= <-]. done.
  - intros m k v m' _ [= <-] k'. cbn [map_get assoc_map list_find fst].
    change (str_copy str_init k) with k.
    case_decide as E; [by rewrite E|]. apply not_true_iff_false in E. rewrite E.
    by destruct (list_find _ m) as [[i kv]|].
Qed.

Definition list_mem (k : nat) : bool * option (list Z) := (true, Some []).

Lemma list_mem_ok : mem_ok id list_mem.
Proof. intros k. by exists []. Qed.

(** ** Theorems *)

(** The tokens of the grammar in [parse.h].  The grammar and the lexer differ on three
    words, which are left out: [R0], a register for the lexer only, [R8], one for the
    grammar only, and [not]. *)
Definition instruction (ty : tok_type_t) : option string :=
  match ty with
  | NOP => Some "nop" | HALT => Some "halt" | FRM => Some "frm" | DIS => Some "dis" | CLR => Some "clr" | INC => Some "inc" | DEC => Some "dec"
  | ALM => Some "alm" | ADD => Some "add" | SUB => Some "sub" | MUL => Some "mul" | DIV => Some "div" | MOV => Some "mov" | AND => Some "and"
  | OR => Some "or" | XOR => Some "xor" | CMP => Some "cmp" | JEQ => Some "jeq" | JGT => Some "jgt" | JLT => Some "jlt" | JLE => Some "jle" | JGE => Some "jge"
  | _ => None
  end%string.

Definition instructions : list string :=
  ["nop"; "halt"; "frm"; "dis"; "clr"; "inc"; "dec"; "alm"; "add"; "sub"; "mul"; "div"; "mov"; "and"; "or"; "not"; "xor"; "cmp"; "jeq"; "jgt"; "jlt"; "jle"; "jge"]%string.

Definition registers : list string := ["R1"; "R2"; "R3"; "R4"; "R5"; "R6"; "R7"]%string.

Definition documented_words : list string := instructions ++ ["R0"; "R8"]%string ++ registers.

Definition grammar_tok (t : tok_type_t * list Z) : bool :=
  match t with
  | (TOK_EOF, _) => false
  | (NEWLINE, v) => bool_decide (v = [10])
  | (LPAREN, v) => bool_decide (v = bytes_of "(")
  | (RPAREN, v) => bool_decide (v = bytes_of ")")
  | (COLON, v) => bool_decide (v = bytes_of ":")
  | (COMMA, v) => bool_decide (v = bytes_of ",")
  | (PLUS, v) => bool_decide (v = bytes_of "+")
  | (HEXI, v) => bool_decide (length v = 4%nat) && forallb (λ c, bool_decide (c ∈ bytes_of "0123456789ABCDEF")) v
  | (DECI, v) => bool_decide (length v = 5%nat) && forallb isdigit v && (atoi_digits 0 v <? 65536)
  | (REGISTER, v) => bool_decide (v ∈ bytes_of <$> registers)
  | (IDENT, v) => is_ident v && negb (bool_decide (v ∈ bytes_of <$> documented_words))
  | (ty, v) => bool_decide (bytes_of <$> instruction ty = Some v)
  end.

(** No two newlines in a row, which the lexer takes for one. *)
Fixpoint program (ts : list (tok_type_t * list Z)) : bool :=
  match ts with
  | [] => true
  | t :: ts => grammar_tok t && negb (is_newline t && match ts with t' :: _ => is_newline t' | [] => false end) && program ts
  end.

Lemma classify_ident v : v ∉ bytes_of <$> documented_words → classify v = IDENT.
Proof.
  intros Hv. assert (∀ w, bytes_of w = v → w ∈ documented_words → False) as Hn by (intros w <- Hw; by apply Hv, list_elem_of_fmap_2).
  unfold classify. destruct (match v with [r; d] => (r =? 82) && in_range d 48 55 | _ => false end) eqn:E.
  - exfalso. destruct v as [|a [|d [|]]]; try done. apply andb_true_iff in E as [->%Z.eqb_eq Hd]. unfold in_range in Hd. rewrite andb_true_iff, !Z.leb_le in Hd.
    assert (d = 48 ∨ d = 49 ∨ d = 50 ∨ d = 51 ∨ d = 52 ∨ d = 53 ∨ d = 54 ∨ d = 55) as Hc by lia. apply (bool_decide_eq_false_2 _) in Hv.
    destruct Hc as [->|[->|[->|[->|[->|[->|[->| ->]]]]]]]; by vm_compute in Hv.
  - assert (∀ l r, (∀ wt, wt ∈ l → wt.1 ≠ v) → foldl (λ r (wt : list Z * tok_type_t), if decide (wt.1 = v) then Some wt.2 else r) r l = r) as Hf.
    { induction l as [|wt l IH]; intros r0 Hl; [done|]. cbn [foldl]. rewrite decide_False by (apply Hl, list_elem_of_here). apply IH. intros x Hx. by apply Hl, list_elem_of_further. }
    unfold keyword. rewrite Hf; [done|]. intros [w ty] Hw <-. apply Hv. apply list_elem_of_fmap.
    assert (forallb (λ wt, existsb (λ u, bool_decide (bytes_of u = wt.1)) (documented_words)) (zip reserved_words reserved_types) = true) as Ha by (by vm_compute).
    rewrite forallb_forall in Ha. specialize (Ha (w, ty) ltac:(by apply list_elem_of_In)). apply existsb_exists in Ha as (u & Hu & Hb). apply bool_decide_eq_true in Hb. exists u. split; [done|]. by apply list_elem_of_In.
Qed.

Lemma grammar_wf t : grammar_tok t = true → wf_tok t = true.
Proof.
  destruct t as [ty v]. destruct ty; cbn [grammar_tok wf_tok]; try done; try (by intros ->%bool_decide_eq_true);
    try (intros E%bool_decide_eq_true; cbn in E; injection E as <-; by vm_compute).
  - rewrite !andb_true_iff, !forallb_forall. intros [Hl Hv]. split; [done|]. intros c Hc. specialize (Hv c Hc). apply bool_decide_eq_true in Hv.
    assert (forallb is_hexi_digit (bytes_of "0123456789ABCDEF") = true) as Ha by (by vm_compute). rewrite forallb_forall in Ha. apply Ha. by apply list_elem_of_In.
  - rewrite !andb_true_iff. intros [Hi Hn%negb_true_iff%bool_decide_eq_false]. split; [done|]. apply bool_decide_eq_true. by apply classify_ident.
  - intros Hv%bool_decide_eq_true. apply list_elem_of_fmap in Hv as (w & -> & Hw).
    assert (forallb (λ w, is_ident (bytes_of w) && bool_decide (classify (bytes_of w) = REGISTER)) registers = true) as Ha by (by vm_compute).
    rewrite forallb_forall in Ha. apply Ha. by apply list_elem_of_In.
Qed.

Lemma program_wf ts : program ts = true → wf_toks ts = true.
Proof.
  induction ts as [|t ts IH]; [done|]. cbn [program wf_toks]. rewrite !andb_true_iff. intros [[Ht Hn] Hp]. split; [split|]; [by apply grammar_wf|done|by apply IH].
Qed.

Section theorems.
Context {Str M : Type} `{HST : StringT Str} (chars : Str → list Z) `{HSL : !StringLaws Str chars}.
Context `{HMT : MapT M Str tok_type_t}.
Context `{HML : !MapLaws M Str tok_type_t str_equal str_hash (str_copy str_init)}.

(** C4: Lexing a printed program gives its tokens back: for every sequence of
    tokens of the documented grammar, other than the words [R0], [R8] and [not] on
    which the lexer departs from it, and with no two newlines in a row, [main] on the
    text of the sequence succeeds and prints exactly one line per token with its type
    and value, for any string and map packages that satisfy their laws. *)
Theorem lexer_roundtrip (ts : list (tok_type_t * list Z)) (n fuel : nat) (lmem : bool * option Str)
    (junk : Z) (mem : nat → bool * option Str) :
  program ts = true → mem_ok chars mem →
  is_Some (lex_initialize lmem junk (render ts) : option (lex_t M)) →
  (length ts < n)%nat → (length (render ts) + 2 ≤ fuel)%nat →
  main (M := M) n fuel 2 (Some (render ts)) lmem junk mem = Ret (SUCCESS, concat (tok_line <$> ts)).
Proof.
  intros Hw%program_wf Hmem [lex Hlex] Hn Hf. unfold main. cbn [Z.eqb Pos.eqb negb]. rewrite Hlex.
  destruct (lex_initialize_spec chars _ _ _ _ Hlex) as [Hs Hr]. destruct lex as [s c m]. simpl in *. subst s.
  by rewrite (main_loop_spec chars).
Qed.

(** C30: On every file whose last byte is a newline, or that is empty, the lexer
    terminates without stepping outside its memory, whatever the other bytes
    are: as many iterations of each loop as the file has bytes are enough. *)
Theorem lexer_terminates (s : list Z) (n fuel : nat) (lmem : bool * option Str) (junk : Z)
    (mem : nat → bool * option Str) :
  Forall is_byte s → s = [] ∨ last s = Some 10 → mem_ok chars mem →
  (length s < n)%nat → (length s < fuel)%nat →
  ∃ r, main (M := M) n fuel 2 (Some s) lmem junk mem = Ret r.
Proof.
  intros Hb Hl Hmem Hn Hf. unfold main. cbn [Z.eqb Pos.eqb negb].
  destruct (lex_initialize lmem junk s) as [lex|] eqn:E; [|by eexists].
  assert (stream lex = s) as Es.
  { unfold lex_initialize in E. destruct lmem as [[] [str|]]; cbn [fst snd negb] in E;
      destruct (map_initialize 64); try done; cbn [mbind option_bind] in E; [].
    destruct (put_words str (zip reserved_words reserved_types) m); [|done]. by injection E as <-. }
  apply (main_loop_runs chars); rewrite ?Es; try done. intros k. destruct (Hmem k) as (v & -> & _). by exists v.
Qed.

(** The register names are R0 to R7 (the grammar in [parse.h] says R1 to
    R8): a value of two characters is a register exactly then. *)
Theorem register_names (v : Str) :
  is_register v = true ↔ ∃ d, chars v = [82; d] ∧ 48 ≤ d ≤ 55.
Proof.
  rewrite (is_register_spec chars). split.
  - destruct (chars v) as [|r [|d [|]]]; try done. intros [Hr%Z.eqb_eq Hd]%andb_true_iff. subst r. exists d.
    split; [done|]. unfold in_range in Hd. rewrite andb_true_iff, !Z.leb_le in Hd. lia.
  - intros (d & -> & Hd). unfold in_range. by rewrite andb_true_iff, andb_true_iff, !Z.leb_le.
Qed.
End theorems.

(** A comment that is not followed by a newline is never left: both comment
    loops compare with the newline only, and at the end of the file they read
    the end of the file again and again, for every number of iterations. *)
Theorem comment_at_eof_diverges (s : list Z) (fuel : nat) :
  Forall (λ b, is_byte b ∧ b ≠ 10) s →
  lex_skip_insignificant fuel (59 :: s) = NoFuel ∧ newline_loop fuel fuel 59 s = NoFuel.
Proof.
  intros Hs. assert (Forall (λ b, s8 b ≠ 10) s) as Hs8.
  { eapply Forall_impl; [done|]. intros b [Hb Hne] E. apply Hne. unfold is_byte in Hb. cint. }
  destruct fuel as [|fuel]; [done|]. split.
  - unfold lex_skip_insignificant. rewrite getc_ascii by lia. cbn [skip_while mbind outcome_bind].
    change (blank 59) with false. cbn [mbind outcome_bind]. rewrite Z.eqb_refl.
    by rewrite skip_comment_diverges.
  - cbn [newline_loop skip_while]. change (isspace 59) with false. cbn [mbind outcome_bind].
    rewrite Z.eqb_refl. by rewrite skip_comment_diverges.
Qed.

(** The characters a token cannot start with: on any other first character
    than the ones below the call fails with [UNEXPECTED_CHAR] after consuming it.
    Blanks and comments are skipped only behind a token, so a file that starts
    with one is rejected. *)
Theorem lex_unexpected_char {Str M : Type} `{StringT Str} `{MapT M Str tok_type_t}
    (fuel : nat) (v : Str) (c b : Z) (s : list Z) (m : M) :
  0 ≤ b < 128 → b ∉ [10; 40; 41; 58; 44; 43; 35; 36; 95] → isalpha b = false →
  lex_get_next_token fuel (true, Some v) (Lex (b :: s) c m) = Ret (UNEXPECTED_CHAR, None, Lex s b m).
Proof.
  intros Hb Hn Ha. unfold lex_get_next_token, advance. cbn [tok_initialize fst snd stream].
  rewrite getc_ascii by lia. cbn [next reserved].
  assert (∀ k, k ∈ [10; 40; 41; 58; 44; 43; 35; 36; 95] → (b =? k) = false) as E.
  { intros k Hk. apply Z.eqb_neq. by intros ->. }
  destruct (Z.eqb_spec b (-1)); [lia|].
  rewrite !E by (repeat (apply list_elem_of_here || apply list_elem_of_further)). by rewrite Ha.
Qed.

(** ** Concrete programs *)

(** [loop:], [add R1, (R2)+#00FF], [jeq loop], [halt]. *)
Definition sample_program : list (tok_type_t * list Z) :=
  [(IDENT, bytes_of "loop"); (COLON, bytes_of ":"); (NEWLINE, [10]);
   (ADD, bytes_of "add"); (REGISTER, bytes_of "R1"); (COMMA, bytes_of ","); (LPAREN, bytes_of "(");
   (REGISTER, bytes_of "R2"); (RPAREN, bytes_of ")"); (PLUS, bytes_of "+"); (HEXI, bytes_of "00FF");
   (NEWLINE, [10]); (JEQ, bytes_of "jeq"); (IDENT, bytes_of "loop"); (NEWLINE, [10]);
   (HALT, bytes_of "halt"); (NEWLINE, [10])].

Lemma lexer_roundtrip_witness :
  main (M := list (list Z * tok_type_t)) 100 100 2 (Some (render sample_program)) (true, Some []) 0 list_mem =
    Ret (SUCCESS, concat (tok_line <$> sample_program)).
Proof.
  apply (lexer_roundtrip id sample_program 100 100 (true, Some []) 0 list_mem).
  - by vm_compute.
  - apply list_mem_ok.
  - eexists. by vm_compute.
  - vm_compute. lia.
  - vm_compute. lia.
Defined.

Lemma lexer_terminates_witness :
  ∃ r, main (M := list (list Z * tok_type_t)) 100 100 2 (Some (bytes_of "mov R0, $65535 ; end" ++ [10]))
    (true, Some []) 0 list_mem = Ret r.
Proof.
  apply (lexer_terminates id (bytes_of "mov R0, $65535 ; end" ++ [10]) 100 100 (true, Some []) 0 list_mem).
  - by repeat constructor.
  - by right.
  - apply list_mem_ok.
  - vm_compute. lia.
  - vm_compute. lia.
Defined.

Lemma comment_at_eof_diverges_witness :
  lex_skip_insignificant 1000 (59 :: bytes_of " the end") = NoFuel.
Proof. apply (comment_at_eof_diverges (bytes_of " the end") 1000). by repeat constructor. Defined.

Lemma lex_unexpected_char_witness :
  lex_get_next_token 10 (true, Some []) (Lex (32 :: bytes_of "halt") 0 ([] : list (list Z * tok_type_t))) =
    Ret (UNEXPECTED_CHAR, None, Lex (bytes_of "halt") 32 []).
Proof. apply (lex_unexpected_char 10 [] 0 32 (bytes_of "halt")); [lia|set_solver|done]. Defined.

Lemma register_names_witness : is_register (bytes_of "R0") = true.
Proof. apply (register_names id (bytes_of "R0")). by exists 48. Defined.
