(* ===== verification/Wrappers.v ===== *)
(** The user programs under [wrappers/] that issue the system calls added to
    [kernel/sched.c]: from the command line through the number of the call
    ([include/asm-x86_64/unistd.h]) and the kernel to what is printed.  The
    program [wrappers/forcewrite.c] opens a file first and is not here. *)

From stdpp Require Import strings.
From S2P Require Import Prelude ListHead Semaphore Tasks FatPrint Tok.

(** What a run leaves: the standard output, the prefix and the error number of a
    call of [perror], and the exit status. *)
Record result := Result { out : list Z; err : option (list Z * Z); status : Z }.

(** [atol]: a number that no [long] holds is outside the language. *)
Definition atol (s : list Z) : outcome Z :=
  let n := atoi s in if (- 2 ^ 63 <=? n) && (n <? 2 ^ 63) then Ret n else Undef.

(** The library's [syscall]: results from -4095 to -1 are error numbers, [errno]
    is 0 in a program that has just started. *)
Definition syscall_result (r : Z) : Z * Z := if (-4096 <? r) && (r <? 0) then (-1, - r) else (r, 0).

(** [%d] and [%ld] of a number of at most ten digits. *)
Definition fmt_d (x : Z) : list Z := if x <? 0 then 45 :: fmt_u (- x) else fmt_u x.

(** The end the programs share: a negative result is reported with [perror]. *)
Definition report (what : string) (success : Z → list Z) (r errno : Z) : result :=
  if r <? 0 then Result [] (Some (bytes_of what, errno)) 2 else Result (success r) None 0.

Section programs.
Context {P : Type} `{!TaskTable P}.

(** What the kernel does besides the call: [current] is the task that calls,
    [fuel] and [pid_at] are those of [sys_swipe], and [others] is what the other
    tasks do while the caller waits in [sys_myjoin]. *)
Record machine := Machine {
  current : Z;
  fuel : nat;
  pid_at : tnode → Z;
  others : kernel P → outcome (kernel P)
}.

Context (m : machine).

Definition sys_myjoin (target : Z) (k : kernel P) : outcome (Z * kernel P) :=
  '(r, k) ← myjoin_register target k;
  match r with
  | Some r => Ret (r, k)
  | None =>
    match find_task_by_pid (table k) target with
    | None => Undef
    | Some a => k ← others m k; myjoin_down a k
    end
  end.

(** The entries of the table of system calls the programs use; a [pid_t] has 32
    bits. *)
Definition system_call (nr a b : Z) (k : kernel P) : outcome (Z * kernel P) :=
  match nr with
  | 285 => r ← sys_mygetpid (current m) k; Ret (r, k)
  | 286 => sys_steal (s32 a) k
  | 287 => sys_quad (s32 a) k
  | 288 => sys_swipe (fuel m) (pid_at m) (s32 a) (s32 b) k
  | 289 => sys_zombify (s32 a) k
  | 290 => sys_myjoin (s32 a) k
  | _ => Undef
  end.

(** [syscall] declared, and used without a declaration: then its result is taken
    for an [int]. *)
Definition syscall_long (nr a b : Z) (k : kernel P) : outcome (Z * Z * kernel P) :=
  '(r, k) ← system_call nr a b k; Ret (syscall_result r, k).

Definition syscall_int (nr a b : Z) (k : kernel P) : outcome (Z * Z * kernel P) :=
  '(r, errno, k) ← syscall_long nr a b k; Ret (s32 r, errno, k).

Definition no_pid : result := Result (bytes_of "Please include the pid as a command line parameter." ++ [10]) None 1.

Definition mygetpid_main (k : kernel P) : outcome (result * kernel P) :=
  '(r, _, k) ← syscall_int 285 0 0 k;
  Ret (Result (bytes_of "Process ID: " ++ fmt_d r ++ [10]) None 0, k).

Definition steal_main (argv : list (list Z)) (k : kernel P) : outcome (result * kernel P) :=
  match argv with
  | _ :: arg :: _ =>
    pid ← atol arg;
    '(success, errno, k) ← syscall_int 286 (s32 pid) 0 k;
    Ret (report "Failure in steal" (λ _, bytes_of "Success!" ++ [10]) success errno, k)
  | _ => Ret (no_pid, k)
  end.

Definition quad_main (argv : list (list Z)) (k : kernel P) : outcome (result * kernel P) :=
  match argv with
  | _ :: arg :: _ =>
    pid ← atol arg;
    '(timeslice, errno, k) ← syscall_int 287 (s32 pid) 0 k;
    Ret (report "Failure in quad" (λ t, bytes_of "Success! New timeslice: " ++ fmt_d t ++ [10]) timeslice errno, k)
  | _ => Ret (no_pid, k)
  end.

Definition swipe_main (argv : list (list Z)) (k : kernel P) : outcome (result * kernel P) :=
  match argv with
  | _ :: arg1 :: arg2 :: _ =>
    target ← atol arg1;
    victim ← atol arg2;
    '(success, errno, k) ← syscall_long 288 (s32 target) (s32 victim) k;
    Ret (report "Failure in swipe" (λ t, bytes_of "Success! Stolen time: " ++ fmt_d t ++ [10]) success errno, k)
  | _ => Ret (Result (bytes_of "Please include the target and the victim as command line parameters." ++ [10]) None 1, k)
  end.

Definition zombify_main (argv : list (list Z)) (k : kernel P) : outcome (result * kernel P) :=
  match argv with
  | _ :: arg :: _ =>
    pid ← atol arg;
    '(success, errno, k) ← syscall_int 289 (s32 pid) 0 k;
    Ret (report "Failure in zombify" (λ _, bytes_of "Success! Process zombified." ++ [10]) success errno, k)
  | _ => Ret (no_pid, k)
  end.

Definition myjoin_main (argv : list (list Z)) (k : kernel P) : outcome (result * kernel P) :=
  match argv with
  | _ :: arg :: _ =>
    pid ← atol arg;
    '(success, errno, k) ← syscall_int 290 (s32 pid) 0 k;
    Ret (report "Failure in myjoin" (λ _, bytes_of "Success! Process joined target and has finished waiting." ++ [10]) success errno, k)
  | _ => Ret (no_pid, k)
  end.
End programs.

Arguments machine P : clear implicits.

(** ** Reading a number back *)

Lemma atoi_digits_fold n ds : Forall (λ d, 48 ≤ d ≤ 57) ds → atoi_digits n ds = foldl (λ n d, 10 * n + (d - 48)) n ds.
Proof.
  intros H. revert n. induction H as [|d ds Hd _ IH]; intros n; [done|]. cbn [atoi_digits foldl]. unfold isdigit.
  destruct (Z.leb_spec 48 d), (Z.leb_spec d 57); try lia. apply IH.
Qed.

Lemma atoi_fmt_u x : 0 ≤ x < 10 ^ 10 → atoi (fmt_u x) = x.
Proof.
  intros Hx. destruct (digits_undigits 10 x []) as (ds & E & Hu & Hne & Hall & _); [done|lia|]. unfold fmt_u. rewrite E, app_nil_r.
  destruct ds as [|d ds]; [done|]. pose proof (Forall_inv Hall) as Hd. cbn beta in Hd. cbn [atoi]. unfold isspace.
  destruct (Z.eqb_spec d 32), (Z.leb_spec 9 d), (Z.leb_spec d 13), (Z.eqb_spec d 45), (Z.eqb_spec d 43); try lia. cbn [orb andb].
  rewrite atoi_digits_fold by done. exact Hu.
Qed.

Section reports.
Context {P : Type} `{!TaskTable P} (m : machine P) (k : kernel P) (prog arg : list Z).

Abbreviation p := (s32 (atoi arg)).

Context (Harg : - 2 ^ 63 ≤ atoi arg < 2 ^ 63).

Lemma atol_arg : atol arg = Ret (atoi arg).
Proof. unfold atol. destruct (Z.leb_spec (- 2 ^ 63) (atoi arg)), (Z.ltb_spec (atoi arg) (2 ^ 63)); try lia. done. Qed.

Lemma s32_twice : s32 p = p.
Proof. apply wraps_small; [lia|]. apply wraps_range. lia. Qed.

(** A call with one process number that gives [r]. *)
Lemma one_pid nr r k' :
  system_call m nr p 0 k = Ret (r, k') → - 4096 < r →
  syscall_int m nr p 0 k = Ret (if r <? 0 then (-1, - r, k') else (s32 r, 0, k')).
Proof.
  intros E Hr. unfold syscall_int, syscall_long. rewrite E. cbn [mbind outcome_bind]. unfold syscall_result.
  destruct (Z.ltb_spec (-4096) r); [|lia]. by destruct (Z.ltb_spec r 0).
Qed.
End reports.

(** What the programs print is what the kernel did.  With a number that names
    no process, each of the four reports the error -1, that is [EPERM], and
    nothing changes.  With a process, [steal] makes it root's, [zombify] makes it
    a zombie and [quad] multiplies its time slice; the new slice is printed unless
    it is 2^31 or more, which the program takes for a failure.  Numbers are
    truncated to 32 bits on the way. *)
Theorem wrappers_report {P : Type} `{!TaskTable P} (m : machine P) (k : kernel P) (prog arg : list Z) :
  - 2 ^ 63 ≤ atoi arg < 2 ^ 63 →
  let failed what errno := Result [] (Some (bytes_of what, errno)) 2 in
  match find_task_by_pid (table k) (s32 (atoi arg)) with
  | None =>
    steal_main m [prog; arg] k = Ret (failed "Failure in steal"%string 1, k) ∧
    zombify_main m [prog; arg] k = Ret (failed "Failure in zombify"%string 1, k) ∧
    quad_main m [prog; arg] k = Ret (failed "Failure in quad"%string 1, k) ∧
    myjoin_main m [prog; arg] k = Ret (failed "Failure in myjoin"%string 1, k)
  | Some a =>
    ∀ t, tasks k !! a = Some t → 0 ≤ time_slice t < 2 ^ 32 →
    steal_main m [prog; arg] k = Ret (Result (bytes_of "Success!" ++ [10]) None 0, put_task a (set_uids 0 0 t) k) ∧
    zombify_main m [prog; arg] k =
      Ret (Result (bytes_of "Success! Process zombified." ++ [10]) None 0, put_task a (set_exit_state EXIT_ZOMBIE t) k) ∧
    let q := u32 (time_slice t * 4) in
    quad_main m [prog; arg] k =
      Ret (if q <? 2 ^ 31 then Result (bytes_of "Success! New timeslice: " ++ fmt_u q ++ [10]) None 0 else failed "Failure in quad"%string 0,
           put_task a (set_time_slice q t) k)
  end.
Proof.
  intros Harg failed. unfold steal_main, zombify_main, quad_main, myjoin_main. rewrite !atol_arg by done. cbn [mbind outcome_bind].
  pose proof (s32_twice arg) as E2. destruct (find_task_by_pid (table k) _) as [a|] eqn:Hf.
  - intros t Ht Hts. set (q := u32 (time_slice t * 4)). assert (0 ≤ q < 2 ^ 32) as Hq by (apply wrapu_range; lia). split; [|split].
    + rewrite (one_pid m k arg 286 0 (put_task a (set_uids 0 0 t) k)); [done| |lia]. cbn [system_call]. rewrite E2. by apply sys_steal_grants_root.
    + rewrite (one_pid m k arg 289 0 (put_task a (set_exit_state EXIT_ZOMBIE t) k)); [done| |lia].
      cbn [system_call]. rewrite E2. unfold sys_zombify. by rewrite Hf, (on_task_put _ _ _ _ Ht).
    + rewrite (one_pid m k arg 287 q (put_task a (set_time_slice q t) k)); [| |lia].
      2:{ cbn [system_call]. rewrite E2. by destruct (sys_quad_wraps k _ a t Hf Ht Hts). }
      destruct (Z.ltb_spec q 0); [lia|]. cbn [mbind outcome_bind]. unfold report. destruct (Z.ltb_spec q (2 ^ 31)).
      * rewrite wraps_small by lia. destruct (Z.ltb_spec q 0); [lia|]. unfold fmt_d. by destruct (Z.ltb_spec q 0); [lia|].
      * assert (s32 q < 0) by (unfold wraps; change (32 - 1) with 31; rewrite <- (Z.mod_unique (q + 2 ^ 31) (2 ^ 32) 1 (q - 2 ^ 31)); lia).
        by destruct (Z.ltb_spec (s32 q) 0); [|lia].
  - split; [|split; [|split]]; erewrite (one_pid m k arg _ (-1) k); try done; try lia; cbn [system_call]; rewrite E2;
      unfold sys_steal, sys_zombify, sys_quad, sys_myjoin, myjoin_register; by rewrite Hf.
Qed.

(** [myjoin] on a process that exits while the program waits: it prints its
    success after the exit, and no permit is left over. *)
Theorem myjoin_main_waits {P : Type} `{!TaskTable P} (m : machine P) (k : kernel P) (prog arg : list Z) a t :
  - 2 ^ 63 ≤ atoi arg < 2 ^ 63 → find_task_by_pid (table k) (s32 (atoi arg)) = Some a → tasks k !! a = Some t →
  pi_lock t = false → exiting t = false → join_semaphore t = 0 → joined_processes t = 0 → others m = do_exit_joiners a →
  ∃ t', myjoin_main m [prog; arg] k =
      Ret (Result (bytes_of "Success! Process joined target and has finished waiting." ++ [10]) None 0, put_task a t' k) ∧
    exiting t' = true ∧ join_semaphore t' = 0 ∧ joined_processes t' = 0.
Proof.
  intros Harg Hf Ht Hl He Hs Hj Ho. unfold myjoin_main. rewrite atol_arg by done. cbn [mbind outcome_bind].
  set (t1 := set_join 0 1 t). set (t2 := Task (pid t) (tgid t) (uid t) (euid t) (suid t) (time_slice t) (exit_state t) (Z.lor (flags t) PF_EXITING) false 0 0).
  exists t2. split; [|split; [by apply (exiting_lor t)|done]].
  assert (∀ u, tasks (put_task a u k) !! a = Some u) as Hput by (intros; apply lookup_insert_eq).
  rewrite (one_pid m k arg 290 0 (put_task a t2 k)); [done| |lia]. cbn [system_call]. rewrite s32_twice. unfold sys_myjoin.
  rewrite (myjoin_register_spec _ a k t Ht Hf Hl), He, Hs, Hj. cbn [mbind outcome_bind]. change (u64 (0 + 1)) with 1. fold t1.
  change (table (put_task a t1 k)) with (table k). rewrite Hf, Ho.
  rewrite (do_exit_joiners_spec a (put_task a t1 k) t1 (Hput _)) by (done || by vm_compute). cbn [mbind outcome_bind].
  erewrite myjoin_down_spec by (apply lookup_insert_eq || (cbn; by vm_compute)). cbn. unfold put_task. cbn [table tasks family].
  by rewrite !insert_insert_eq.
Qed.

(** ** Witnesses *)

Definition demo_machine : machine (gmap Z Z) := Machine 50 2 (λ _, 0) (do_exit_joiners 50).

Lemma wrappers_report_witness :
  steal_main demo_machine [[]; fmt_u 5] demo =
    Ret (Result (bytes_of "Success!" ++ [10]) None 0, put_task 50 (set_uids 0 0 (demo_task 5 100 0)) demo).
Proof.
  pose proof (wrappers_report demo_machine demo [] (fmt_u 5)) as H. cbv zeta in H.
  assert (atoi (fmt_u 5) = 5) as E by (vm_compute; reflexivity). rewrite E in H. specialize (H ltac:(lia)).
  change (find_task_by_pid (table demo) (s32 5)) with (Some 50) in H. cbn match in H.
  destruct (H (demo_task 5 100 0)) as (H1 & _); [reflexivity|simpl; lia|exact H1].
Defined.

Lemma myjoin_main_waits_witness :
  ∃ t', myjoin_main demo_machine [[]; fmt_u 5] demo =
    Ret (Result (bytes_of "Success! Process joined target and has finished waiting." ++ [10]) None 0, put_task 50 t' demo).
Proof.
  destruct (myjoin_main_waits demo_machine demo [] (fmt_u 5) 50 (demo_task 5 100 0)) as (t' & E & _); try reflexivity.
  - rewrite atoi_fmt_u by lia. lia.
  - by exists t'.
Defined.
