(* ===== verification/Ctype.v ===== *)
(** Classes of characters: the table of [lib/ctype.c] and the macros of
    [include/linux/ctype.h].  A character is its value as an unsigned byte. *)

From S2P Require Import Prelude.

Definition _U : Z := 0x01.
Definition _L : Z := 0x02.
Definition _D : Z := 0x04.
Definition _C : Z := 0x08.
Definition _P : Z := 0x10.
Definition _S : Z := 0x20.
Definition _X : Z := 0x40.
Definition _SP : Z := 0x80.

Definition _ctype : list Z :=
  replicate 9 _C ++ replicate 5 (Z.lor _C _S) ++ replicate 18 _C ++
  [Z.lor _S _SP] ++ replicate 15 _P ++ replicate 10 _D ++ replicate 7 _P ++
  replicate 6 (Z.lor _U _X) ++ replicate 20 _U ++ replicate 6 _P ++
  replicate 6 (Z.lor _L _X) ++ replicate 20 _L ++ replicate 4 _P ++ [_C] ++
  replicate 32 0 ++ [Z.lor _S _SP] ++ replicate 31 _P ++
  replicate 23 _U ++ [_P] ++ replicate 7 _U ++ replicate 24 _L ++ [_P] ++ replicate 8 _L.

Definition __ismask (c : Z) : Z := nth (Z.to_nat (u8 c)) _ctype 0.

Definition isdigit (c : Z) : bool := z2b (Z.land (__ismask c) _D).
Definition islower (c : Z) : bool := z2b (Z.land (__ismask c) _L).
Definition isupper (c : Z) : bool := z2b (Z.land (__ismask c) _U).
Definition isspace (c : Z) : bool := z2b (Z.land (__ismask c) _S).
Definition isxdigit (c : Z) : bool := z2b (Z.land (__ismask c) (Z.lor _D _X)).

Definition __toupper (c : Z) : Z := if islower c then u8 (c - (97 - 65)) else u8 c.
Definition __tolower (c : Z) : Z := if isupper c then u8 (c - (65 - 97)) else u8 c.
Abbreviation toupper := __toupper.
Abbreviation tolower := __tolower.

(** ** What the classes are *)

(** A property of every byte is one of 256 cases. *)
Lemma byte_cases (f : Z → bool) : forallb f (seqZ 0 256) = true → ∀ c, is_byte c → f c = true.
Proof. intros H c Hc. rewrite forallb_forall in H. apply H. apply list_elem_of_In, elem_of_seqZ. unfold is_byte in Hc. lia. Qed.

Lemma ctype_size : length _ctype = 256%nat.
Proof. reflexivity. Qed.

Lemma isdigit_spec c : is_byte c → isdigit c = (48 <=? c) && (c <=? 57).
Proof. intros Hc. apply eqb_prop, (byte_cases (λ c, eqb (isdigit c) ((48 <=? c) && (c <=? 57)))); [by vm_compute|done]. Qed.

Lemma isxdigit_spec c : is_byte c → isxdigit c = (48 <=? c) && (c <=? 57) || (65 <=? c) && (c <=? 70) || (97 <=? c) && (c <=? 102).
Proof. intros Hc. apply eqb_prop, (byte_cases (λ c, eqb (isxdigit c) ((48 <=? c) && (c <=? 57) || (65 <=? c) && (c <=? 70) || (97 <=? c) && (c <=? 102)))); [by vm_compute|done]. Qed.

Lemma toupper_hex c : is_byte c → isxdigit c = true → isdigit c = false → 65 ≤ toupper c ≤ 70.
Proof.
  intros Hc. assert (negb (isxdigit c && negb (isdigit c)) || (65 <=? toupper c) && (toupper c <=? 70) = true) as H.
  { by apply (byte_cases (λ c, negb (isxdigit c && negb (isdigit c)) || (65 <=? toupper c) && (toupper c <=? 70))); [vm_compute|]. }
  intros Hx Hd. rewrite Hx, Hd in H. cbn [negb andb orb] in H. apply andb_prop in H. lia.
Qed.
