(* ===== verification/Vsprintf.v ===== *)
(** Numbers as text and formatted output: [simple_strtoul] and its kin, [number]
    and [vsnprintf] of [lib/vsprintf.c].

    A C string is the list of its bytes before the terminator, so that the byte
    under a pointer at the end is 0.  An argument of a variable list is a value of
    [varg]; taking one of another kind is undefined.  The buffer of [vsnprintf] is
    a list, and a store past its end is undefined even where [size] allows it. *)

From stdpp Require Import strings.
From S2P Require Import Prelude Ctype.

(** The byte under a pointer into a string. *)
Definition at_ptr (s : list Z) : Z := hd 0 s.

(** ** Text to numbers *)

Definition digit_value (c : Z) : Z := if isdigit c then c - 48 else toupper c - 65 + 10.
Definition digit_value_ll (c : Z) : Z := if isdigit c then c - 48 else (if islower c then toupper c else c) - 65 + 10.

(** The value, of 64 bits, and the text after it. *)
Fixpoint strtoul_loop (value : Z → Z) (base result : Z) (cp : list Z) : Z * list Z :=
  match cp with
  | [] => (result, [])
  | c :: rest => if isxdigit c && (value c <? base) then strtoul_loop value base (u64 (result * base + value c)) rest else (result, cp)
  end.

(** The base that a prefix selects. *)
Definition number_base (cp : list Z) (base : Z) : Z * list Z :=
  if base =? 0 then
    if at_ptr cp =? 48 then
      let cp := tl cp in
      if (toupper (at_ptr cp) =? 88) && isxdigit (at_ptr (tl cp)) then (16, tl cp) else (8, cp)
    else (10, cp)
  else if base =? 16 then
    if (at_ptr cp =? 48) && (toupper (at_ptr (tl cp)) =? 88) then (16, drop 2 cp) else (16, cp)
  else (base, cp).

Definition simple_strtoul (cp : list Z) (base : Z) : Z * list Z := let '(base, cp) := number_base cp base in strtoul_loop digit_value base 0 cp.

Definition simple_strtol (cp : list Z) (base : Z) : Z * list Z :=
  if at_ptr cp =? 45 then let '(v, rest) := simple_strtoul (tl cp) base in (s64 (- v), rest)
  else let '(v, rest) := simple_strtoul cp base in (s64 v, rest).

Definition simple_strtoull (cp : list Z) (base : Z) : Z * list Z := let '(base, cp) := number_base cp base in strtoul_loop digit_value_ll base 0 cp.

Definition simple_strtoll (cp : list Z) (base : Z) : Z * list Z :=
  if at_ptr cp =? 45 then let '(v, rest) := simple_strtoull (tl cp) base in (s64 (- v), rest)
  else let '(v, rest) := simple_strtoull cp base in (s64 v, rest).

(** [skip_atoi]: the number, an [int], and the text after it. *)
Fixpoint skip_atoi (i : Z) (s : list Z) : Z * list Z :=
  match s with
  | c :: rest => if isdigit c then skip_atoi (s32 (i * 10 + c - 48)) rest else (i, s)
  | [] => (i, [])
  end.

(** ** The output *)

(** The buffer and how far [str] is from its start. *)
Record sink := Sink { buffer : list Z; len : nat }.

Section output.
Context (size : Z).

(** [if (str < end) *str = c; ++str;] *)
Definition put (c : Z) (o : sink) : outcome sink :=
  if Z.of_nat (len o) <? size then
    if (len o <? length (buffer o))%nat then Ret (Sink (<[len o := c]> (buffer o)) (S (len o))) else Undef
  else Ret (Sink (buffer o) (S (len o))).

Fixpoint put_all (s : list Z) (o : sink) : outcome sink :=
  match s with [] => Ret o | c :: s => o ← put c o; put_all s o end.

(** [while (size-- > 0)]: what [size] is afterwards, and the output. *)
Definition pad (c n : Z) (o : sink) : outcome (Z * sink) := o ← put_all (replicate (Z.to_nat n) c) o; Ret (Z.min n 0 - 1, o).

(** ** Numbers to text *)

Definition ZEROPAD : Z := 1.
Definition SIGN : Z := 2.
Definition PLUS : Z := 4.
Definition SPACE : Z := 8.
Definition LEFT : Z := 16.
Definition SPECIAL : Z := 32.
Definition LARGE : Z := 64.

Definition has (type flag : Z) : bool := z2b (Z.land type flag).

Definition small_digits : list Z := bytes_of "0123456789abcdefghijklmnopqrstuvwxyz".
Definition large_digits : list Z := bytes_of "0123456789ABCDEFGHIJKLMNOPQRSTUVWXYZ".

(** The digits in [tmp], the last one first; a number of 64 bits has at most 64. *)
Fixpoint digits_loop (fuel : nat) (digits : list Z) (base num : Z) : list Z :=
  match fuel with
  | O => []
  | S fuel => if num =? 0 then [] else nth (Z.to_nat (num mod base)) digits 0 :: digits_loop fuel digits base (num / base)
  end.

Definition number (num base size precision type : Z) (o : sink) : outcome sink :=
  let digits := if has type LARGE then large_digits else small_digits in
  let type := if has type LEFT then Z.land type (Z.lnot ZEROPAD) else type in
  if (base <? 2) || (36 <? base) then Undef else
  let c := if has type ZEROPAD then 48 else 32 in
  let '(sign, num, size) :=
    if has type SIGN then
      if s64 num <? 0 then (45, u64 (- s64 num), size - 1) else if has type PLUS then (43, num, size - 1) else if has type SPACE then (32, num, size - 1) else (0, num, size)
    else (0, num, size) in
  let size := if has type SPECIAL then if base =? 16 then size - 2 else if base =? 8 then size - 1 else size else size in
  let tmp := if num =? 0 then [48] else digits_loop 64 digits base num in
  let i := Z.of_nat (length tmp) in
  let precision := if precision <? i then i else precision in
  let size := size - precision in
  '(size, o) ← (if has type (ZEROPAD + LEFT) then Ret (size, o) else pad 32 size o);
  o ← (if sign =? 0 then Ret o else put sign o);
  o ← (if has type SPECIAL then
         if base =? 8 then put 48 o else if base =? 16 then o ← put 48 o; put (nth 33 digits 0) o else Ret o
       else Ret o);
  '(size, o) ← (if has type LEFT then Ret (size, o) else pad c size o);
  o ← put_all (replicate (Z.to_nat (precision - i)) 48) o;
  o ← put_all (rev tmp) o;
  '(_, o) ← pad 32 size o;
  Ret o.

(** ** Formats *)

(** An integer of any width, a string or NULL, a pointer, or where [%n] stores. *)
Inductive varg := VInt (n : Z) | VStr (s : option (list Z)) | VPtr (p : Z) | VLen.

Definition arg_int (args : list varg) : outcome (Z * list varg) := match args with VInt n :: args => Ret (n, args) | _ => Undef end.

Fixpoint flags_loop (fmt : list Z) (flags : Z) : Z * list Z :=
  match fmt with
  | c :: rest =>
    if c =? 45 then flags_loop rest (Z.lor flags LEFT) else if c =? 43 then flags_loop rest (Z.lor flags PLUS) else
    if c =? 32 then flags_loop rest (Z.lor flags SPACE) else if c =? 35 then flags_loop rest (Z.lor flags SPECIAL) else
    if c =? 48 then flags_loop rest (Z.lor flags ZEROPAD) else (flags, fmt)
  | [] => (flags, [])
  end.

Definition get_width (flags : Z) (fmt : list Z) (args : list varg) : outcome (Z * Z * list Z * list varg) :=
  if isdigit (at_ptr fmt) then let '(w, fmt) := skip_atoi 0 fmt in Ret (flags, w, fmt, args) else
  if at_ptr fmt =? 42 then
    '(w, args) ← arg_int args;
    let w := s32 w in
    Ret (if w <? 0 then (Z.lor flags LEFT, s32 (- w), tl fmt, args) else (flags, w, tl fmt, args))
  else Ret (flags, -1, fmt, args).

Definition get_precision (fmt : list Z) (args : list varg) : outcome (Z * list Z * list varg) :=
  if at_ptr fmt =? 46 then
    let fmt := tl fmt in
    '(p, fmt, args) ← (if isdigit (at_ptr fmt) then let '(p, fmt) := skip_atoi 0 fmt in Ret (p, fmt, args) else
                       if at_ptr fmt =? 42 then '(p, args) ← arg_int args; Ret (s32 p, tl fmt, args) else Ret (-1, fmt, args));
    Ret (if p <? 0 then 0 else p, fmt, args)
  else Ret (-1, fmt, args).

(** The qualifier or -1: [h], [l], [L], [Z], [z] or [t], and [L] for [ll]. *)
Definition get_qualifier (fmt : list Z) : Z * list Z :=
  let q := at_ptr fmt in
  if bool_decide (q ∈ [104; 108; 76; 90; 122; 116]) then
    let fmt := tl fmt in
    if (q =? 108) && (at_ptr fmt =? 108) then (76, tl fmt) else (q, fmt)
  else (-1, fmt).

(** The argument as 64 bits; [L], [Z], [z], [t] and [l] are that wide. *)
Definition int_value (qualifier flags n : Z) : Z :=
  if bool_decide (qualifier ∈ [76; 108; 90; 122; 116]) then u64 n else
  if qualifier =? 104 then u64 (if has flags SIGN then wraps 16 (u16 n) else u16 n) else
  u64 (if has flags SIGN then s32 (u32 n) else u32 n).

(** [while (--field_width > 0)] and [while (len < field_width--)] write spaces and
    leave a width that writes no more. *)
Definition put_char (flags width c : Z) (o : sink) : outcome sink :=
  o ← (if has flags LEFT then Ret o else put_all (replicate (Z.to_nat (width - 1)) 32) o);
  o ← put (u8 c) o;
  if has flags LEFT then put_all (replicate (Z.to_nat (width - 1)) 32) o else Ret o.

Definition put_string (flags width precision : Z) (s : option (list Z)) (o : sink) : outcome sink :=
  let s := default (bytes_of "<NULL>") s in
  let s := if precision <? 0 then s else take (Z.to_nat precision) s in
  let n := Z.of_nat (length s) in
  o ← (if has flags LEFT then Ret o else put_all (replicate (Z.to_nat (width - n)) 32) o);
  o ← put_all s o;
  if has flags LEFT then put_all (replicate (Z.to_nat (width - n)) 32) o else Ret o.

(** What [%n] stores: a [long], a [size_t] or an [int]. *)
Definition len_value (qualifier n : Z) : Z := if bool_decide (qualifier ∈ [108; 90; 122]) then n else s32 n.

(** The conversion [fmt] is at.  [lens] is what [%n] stored. *)
Definition convert (flags width precision qualifier : Z) (fmt : list Z) (args : list varg) (o : sink) (lens : list Z)
    : outcome (list Z * list varg * sink * list Z) :=
  let int_conv base flags rest :=
    '(n, args) ← arg_int args;
    o ← number (int_value qualifier flags n) base width precision flags o;
    Ret (rest, args, o, lens) in
  match fmt with
  | [] => o ← put 37 o; Ret ([], args, o, lens)
  | c :: rest =>
    if c =? 99 then '(n, args) ← arg_int args; o ← put_char flags width n o; Ret (rest, args, o, lens) else
    if c =? 115 then match args with VStr s :: args => o ← put_string flags width precision s o; Ret (rest, args, o, lens) | _ => Undef end else
    if c =? 112 then
      match args with
      | VPtr p :: args =>
        o ← (if width =? -1 then number (u64 p) 16 16 precision (Z.lor flags ZEROPAD) o else number (u64 p) 16 width precision flags o);
        Ret (rest, args, o, lens)
      | _ => Undef
      end else
    if c =? 110 then match args with VLen :: args => Ret (rest, args, o, lens ++ [len_value qualifier (Z.of_nat (len o))]) | _ => Undef end else
    if c =? 37 then o ← put 37 o; Ret (rest, args, o, lens) else
    if c =? 111 then int_conv 8 flags rest else
    if c =? 88 then int_conv 16 (Z.lor flags LARGE) rest else
    if c =? 120 then int_conv 16 flags rest else
    if (c =? 100) || (c =? 105) then int_conv 10 (Z.lor flags SIGN) rest else
    if c =? 117 then int_conv 10 flags rest else
    o ← put 37 o; o ← put c o; Ret (rest, args, o, lens)
  end.

Fixpoint format_loop (fuel : nat) (fmt : list Z) (args : list varg) (o : sink) (lens : list Z) : outcome (sink * list Z) :=
  match fuel with
  | O => NoFuel
  | S fuel =>
    match fmt with
    | [] => Ret (o, lens)
    | c :: fmt =>
      if negb (c =? 37) then o ← put c o; format_loop fuel fmt args o lens else
      let '(flags, fmt) := flags_loop fmt 0 in
      '(flags, width, fmt, args) ← get_width flags fmt args;
      '(precision, fmt, args) ← get_precision fmt args;
      let '(qualifier, fmt) := get_qualifier fmt in
      '(fmt, args, o, lens) ← convert flags width precision qualifier fmt args o lens;
      format_loop fuel fmt args o lens
    end
  end.
End output.

(** The result, what [%n] stored, and the buffer; [addr] is the address of the
    buffer.  A size that would take the end past the last address is cut. *)
Definition vsnprintf (addr : Z) (buf : list Z) (size : Z) (fmt : list Z) (args : list varg) : outcome (Z * list Z * list Z) :=
  if s32 size <? 0 then Ret (0, [], buf) else
  let size := if 2 ^ 64 <=? addr + size then 2 ^ 64 - 1 - addr else size in
  '(o, lens) ← format_loop size (S (length fmt)) fmt args (Sink buf 0) [];
  buf ← (if 0 <? size then aset (buffer o) (if Z.of_nat (len o) <? size then Z.of_nat (len o) else size - 1) 0 else Ret (buffer o));
  Ret (s32 (Z.of_nat (len o)), lens, buf).

Definition INT_MAX : Z := 2 ^ 31 - 1.

Definition vscnprintf (addr : Z) (buf : list Z) (size : Z) (fmt : list Z) (args : list varg) : outcome (Z * list Z * list Z) :=
  '(i, lens, buf) ← vsnprintf addr buf size fmt args;
  Ret (if size <=? u64 i then s32 (size - 1) else i, lens, buf).

Definition vsprintf (addr : Z) (buf : list Z) (fmt : list Z) (args : list varg) : outcome (Z * list Z * list Z) := vsnprintf addr buf INT_MAX fmt args.

(** ** What is written *)

(** The sink once text [t] was put into a buffer. *)
Definition after (size : Z) (buf t : list Z) : sink :=
  let n := Z.to_nat (Z.min size (Z.of_nat (length t))) in Sink (take n t ++ drop n buf) (length t).

Definition room (size : Z) (buf t : list Z) : Prop := 0 ≤ size ∧ Z.min size (Z.of_nat (length t)) ≤ Z.of_nat (length buf).

Lemma room_app size buf t s : room size buf (t ++ s) → room size buf t.
Proof. unfold room. rewrite length_app. lia. Qed.

Lemma put_after size buf t c : room size buf (t ++ [c]) → put size c (after size buf t) = Ret (after size buf (t ++ [c])).
Proof.
  intros [Hs Hr]. rewrite length_app in Hr. cbn [length] in Hr. unfold put, after. cbn [len buffer]. rewrite !length_app. cbn [length].
  destruct (Z.ltb_spec (Z.of_nat (length t)) size) as [Hlt|Hge].
  - replace (Z.to_nat (Z.min size (Z.of_nat (length t)))) with (length t) by lia. replace (Z.to_nat (Z.min size (Z.of_nat (length t + 1)))) with (S (length t)) by lia.
    rewrite take_ge, (take_ge (t ++ [c])) by (rewrite ?length_app; cbn [length]; lia). rewrite length_drop.
    destruct (Nat.ltb_spec (length t) (length t + (length buf - length t))); [|lia]. do 2 f_equal; [|lia].
    rewrite insert_app_r_alt, Nat.sub_diag by lia. destruct (drop (length t) buf) as [|x l] eqn:E; [apply (f_equal length) in E; rewrite length_drop in E; cbn in E; lia|].
    rewrite <- (assoc_L (++)). cbn. do 2 f_equal. replace (S (length t)) with (length t + 1)%nat by lia. by rewrite <- drop_drop, E.
  - replace (Z.to_nat (Z.min size (Z.of_nat (length t)))) with (Z.to_nat size) by lia. replace (Z.to_nat (Z.min size (Z.of_nat (length t + 1)))) with (Z.to_nat size) by lia.
    rewrite take_app_le by lia. do 2 f_equal. lia.
Qed.

Lemma put_all_after size buf s t : room size buf (t ++ s) → put_all size s (after size buf t) = Ret (after size buf (t ++ s)).
Proof.
  revert t. induction s as [|c s IH]; intros t Hr; cbn [put_all]; [by rewrite app_nil_r|]. replace (t ++ c :: s) with ((t ++ [c]) ++ s) in * by (by rewrite <- (assoc_L (++))).
  rewrite put_after by (by eapply room_app). cbn [mbind outcome_bind]. by apply IH.
Qed.

(** A number as text: the digits, extended to the precision, after the sign and the
    prefix of the base, extended to the width. *)
Definition sign_text (num type : Z) : list Z :=
  if has type SIGN then if s64 num <? 0 then [45] else if has type PLUS then [43] else if has type SPACE then [32] else [] else [].

Definition prefix_text (base type : Z) : list Z :=
  if has type SPECIAL then if base =? 8 then [48] else if base =? 16 then [48; if has type LARGE then 88 else 120] else [] else [].

Definition digits_text (num base type : Z) : list Z :=
  let num := if has type SIGN && (s64 num <? 0) then u64 (- s64 num) else num in
  if num =? 0 then [48] else rev (digits_loop 64 (if has type LARGE then large_digits else small_digits) base num).

Definition number_text (num base width precision type : Z) : list Z :=
  let sign := sign_text num type in
  let prefix := prefix_text base type in
  let digits := digits_text num base type in
  let body := replicate (Z.to_nat (precision - Z.of_nat (length digits))) 48 ++ digits in
  let fill := Z.to_nat (width - Z.of_nat (length sign + length prefix + length body)) in
  if has type LEFT then sign ++ prefix ++ body ++ replicate fill 32
  else if has type ZEROPAD then sign ++ prefix ++ replicate fill 48 ++ body
  else replicate fill 32 ++ sign ++ prefix ++ body.

Lemma room_le size buf t t' : room size buf t' → (length t ≤ length t')%nat → room size buf t.
Proof. unfold room. lia. Qed.

Lemma pad_after size buf c n t : room size buf (t ++ replicate (Z.to_nat n) c) → pad size c n (after size buf t) = Ret (Z.min n 0 - 1, after size buf (t ++ replicate (Z.to_nat n) c)).
Proof. intros Hr. unfold pad. by rewrite put_all_after. Qed.

Lemma has_or type a b : has type (Z.lor a b) = has type a || has type b.
Proof.
  unfold has, z2b. rewrite Z.land_lor_distr_r. destruct (Z.eqb_spec (Z.lor (Z.land type a) (Z.land type b)) 0) as [E|E].
  - apply Z.lor_eq_0_iff in E as [-> ->]. done.
  - destruct (Z.eqb_spec (Z.land type a) 0), (Z.eqb_spec (Z.land type b) 0); try done. destruct E. by apply Z.lor_eq_0_iff.
Qed.

Lemma has_mask type m f : Z.land m f = f → has (Z.land type m) f = has type f.
Proof. intros H. unfold has. by rewrite <- Z.land_assoc, H. Qed.

(** A pad that is used up writes nothing. *)
Lemma pad_none size n c o : n ≤ 0 → pad size c n o = Ret (n - 1, o).
Proof. intros Hn. unfold pad. replace (Z.to_nat n) with 0%nat by lia. cbn. do 2 f_equal. lia. Qed.

(** Runs the steps that put text, as long as the whole text has room. *)
Ltac sink_step :=
  repeat (cbn [mbind outcome_bind];
    first [ rewrite pad_none by lia
          | rewrite put_all_after by (eapply room_le; [eassumption|rewrite !length_app; lia])
          | rewrite pad_after by (eapply room_le; [eassumption|rewrite !length_app; lia]) ]); cbn [mbind outcome_bind].

(** The sign and the prefix are put as their text. *)
Lemma sign_put size num width type o :
  (let '(sign, num', w) :=
     if has type SIGN then
       if s64 num <? 0 then (45, u64 (- s64 num), width - 1) else if has type PLUS then (43, num, width - 1) else if has type SPACE then (32, num, width - 1) else (0, num, width)
     else (0, num, width) in
   num' = (if has type SIGN && (s64 num <? 0) then u64 (- s64 num) else num) ∧ w = width - Z.of_nat (length (sign_text num type)) ∧
   (if sign =? 0 then Ret o else put size sign o) = put_all size (sign_text num type) o).
Proof.
  assert (∀ c, put size c o = put_all size [c] o) as Hp by (intros c; cbn [put_all]; by destruct (put size c o)).
  unfold sign_text. destruct (has type SIGN); [destruct (s64 num <? 0); [|destruct (has type PLUS); [|destruct (has type SPACE)]]|]; cbn [andb Z.eqb length];
    (split; [done|]); (split; [lia|]); [by apply Hp..|done|done].
Qed.

Lemma prefix_put size base type width o :
  (if has type SPECIAL then if base =? 16 then width - 2 else if base =? 8 then width - 1 else width else width) = width - Z.of_nat (length (prefix_text base type)) ∧
  (if has type SPECIAL then
     if base =? 8 then put size 48 o else
     if base =? 16 then o ← put size 48 o; put size (nth 33 (if has type LARGE then large_digits else small_digits) 0) o else Ret o
   else Ret o) = put_all size (prefix_text base type) o.
Proof.
  unfold prefix_text. destruct (has type SPECIAL); [|split; [cbn; lia|done]]. destruct (Z.eqb_spec base 8) as [->|]; [split; [cbn; lia|cbn [put_all]; by destruct (put size 48 o)]|].
  destruct (base =? 16); [|split; [cbn; lia|done]]. split; [cbn; lia|]. cbn [put_all]. destruct (put size 48 o) as [o'| | |]; [|done..]. cbn [mbind outcome_bind].
  assert (nth 33 (if has type LARGE then large_digits else small_digits) 0 = if has type LARGE then 88 else 120) as -> by (by destruct (has type LARGE)).
  by destruct (put size (if has type LARGE then 88 else 120) o').
Qed.

Lemma number_after size buf num base width precision type t :
  2 ≤ base ≤ 36 → room size buf (t ++ number_text num base width precision type) →
  number size num base width precision type (after size buf t) = Ret (after size buf (t ++ number_text num base width precision type)).
Proof.
  intros Hb. unfold number, number_text. set (ty := if has type LEFT then Z.land type (Z.lnot ZEROPAD) else type).
  assert (∀ f, Z.land (Z.lnot ZEROPAD) f = f → has ty f = has type f) as Hty by (intros f Hf; unfold ty; destruct (has type LEFT); [by apply has_mask|done]).
  change (ZEROPAD + LEFT) with (Z.lor ZEROPAD LEFT). rewrite has_or, (Hty LEFT), (Hty SIGN), (Hty PLUS), (Hty SPACE), (Hty SPECIAL) by done.
  assert (has ty ZEROPAD = has type ZEROPAD && negb (has type LEFT)) as ->.
  { unfold ty. destruct (has type LEFT); [|by rewrite andb_true_r]. rewrite andb_false_r. unfold has. rewrite <- Z.land_assoc. change (Z.land (Z.lnot ZEROPAD) ZEROPAD) with 0. by rewrite Z.land_0_r. }
  clear ty Hty. destruct (Z.ltb_spec base 2); [lia|]. destruct (Z.ltb_spec 36 base); [lia|]. cbn [orb].
  pose proof (λ o, sign_put size num width type o) as Hsign.
  destruct (if has type SIGN then _ else _) as [[sign n] w]. assert (n = if has type SIGN && (s64 num <? 0) then u64 (- s64 num) else num) as -> by apply (Hsign (after size buf t)).
  assert (w = width - Z.of_nat (length (sign_text num type))) as -> by apply (Hsign (after size buf t)).
  rewrite (proj1 (prefix_put size base type _ (after size buf t))). set (tmp := if _ =? 0 then [48] else _).
  assert (rev tmp = digits_text num base type) as Et by (unfold tmp, digits_text; by match goal with |- context [?x =? 0] => destruct (x =? 0) end).
  rewrite <- (length_rev tmp), Et. clearbody tmp. clear Et tmp. pose proof (λ o, proj2 (proj2 (Hsign o))) as Hs. pose proof (λ o, proj2 (prefix_put size base type 0 o)) as Hp. clear Hsign.
  set (sg := sign_text num type) in *. set (pf := prefix_text base type) in *. set (dg := digits_text num base type) in *. clearbody sg pf dg.
  set (p := if precision <? _ then _ else _). assert (Z.to_nat (p - Z.of_nat (length dg)) = Z.to_nat (precision - Z.of_nat (length dg))) as -> by (unfold p; zcase; lia).
  set (zz := replicate (Z.to_nat (precision - _)) 48). set (w := width - _ - _ - p).
  assert (Z.to_nat (width - Z.of_nat (length sg + length pf + length (zz ++ dg))) = Z.to_nat w) as ->.
  { unfold w, zz, p. rewrite length_app, length_replicate. zcase; lia. }
  clearbody w zz. clear p. destruct (has type LEFT); [|destruct (has type ZEROPAD)]; cbn [andb orb negb]; rewrite ?orb_true_r; intros Hr.
  - cbn [mbind outcome_bind]. rewrite Hs. sink_step. rewrite Hp. sink_step. by rewrite <- !(assoc_L (++)).
  - cbn [mbind outcome_bind]. rewrite Hs. sink_step. rewrite Hp. sink_step. by rewrite <- !(assoc_L (++)).
  - sink_step. rewrite Hs. sink_step. rewrite Hp. sink_step. by rewrite <- !(assoc_L (++)).
Qed.

(** ** One text for every buffer *)

Lemma skip_atoi_len i s : (length (skip_atoi i s).2 ≤ length s)%nat.
Proof. revert i. induction s as [|c s IH]; intros i; cbn [skip_atoi]; [done|]. destruct (isdigit c); [|done]. etrans; [apply IH|cbn; lia]. Qed.

Lemma flags_loop_len fmt flags : (length (flags_loop fmt flags).2 ≤ length fmt)%nat.
Proof. revert flags. induction fmt as [|c fmt IH]; intros fl; cbn [flags_loop]; [done|]. repeat case_match; try done; (etrans; [apply IH|cbn; lia]). Qed.

Lemma tl_len (s : list Z) : (length (tl s) ≤ length s)%nat.
Proof. destruct s; cbn; lia. Qed.

Lemma get_width_len flags fmt args fl w fmt' args' : get_width flags fmt args = Ret (fl, w, fmt', args') → (length fmt' ≤ length fmt)%nat.
Proof.
  unfold get_width. destruct (isdigit _); [pose proof (skip_atoi_len 0 fmt); destruct (skip_atoi 0 fmt); by intros [= <- <- <- <-]|].
  destruct (_ =? 42); [|by intros [= <- <- <- <-]]. destruct (arg_int args) as [[n l]| | |]; [|done..]. cbn [mbind outcome_bind].
  destruct (_ <? 0); intros [= <- <- <- <-]; apply tl_len.
Qed.

Lemma get_precision_len fmt args p fmt' args' : get_precision fmt args = Ret (p, fmt', args') → (length fmt' ≤ length fmt)%nat.
Proof.
  unfold get_precision. destruct (_ =? 46); [|by intros [= <- <- <-]]. pose proof (tl_len fmt) as H1. destruct (isdigit _).
  - pose proof (skip_atoi_len 0 (tl fmt)). destruct (skip_atoi 0 (tl fmt)). cbn [mbind outcome_bind]. intros [= <- <- <-]. cbn [snd] in *. lia.
  - destruct (_ =? 42); [|cbn; by intros [= <- <- <-]]. destruct (arg_int args) as [[n l]| | |]; [|done..]. cbn. intros [= <- <- <-]. pose proof (tl_len (tl fmt)). lia.
Qed.

Lemma get_qualifier_len fmt : (length (get_qualifier fmt).2 ≤ length fmt)%nat.
Proof. unfold get_qualifier. pose proof (tl_len fmt). pose proof (tl_len (tl fmt)). destruct (bool_decide _); [|done]. destruct (_ && _); cbn; lia. Qed.

(** Characters and strings, with the spaces that make up the width. *)
Definition field_text (flags width : Z) (s : list Z) : list Z :=
  let spaces := replicate (Z.to_nat (width - Z.of_nat (length s))) 32 in if has flags LEFT then s ++ spaces else spaces ++ s.

Lemma put_char_after size buf flags width c t :
  room size buf (t ++ field_text flags width [u8 c]) → put_char size flags width c (after size buf t) = Ret (after size buf (t ++ field_text flags width [u8 c])).
Proof.
  assert (∀ o, put size (u8 c) o = put_all size [u8 c] o) as Hp by (intros o; cbn [put_all]; by destruct (put size (u8 c) o)).
  unfold put_char, field_text. cbn [length]. change (Z.of_nat 1) with 1. destruct (has flags LEFT); intros Hr; cbn [mbind outcome_bind].
  - rewrite Hp. sink_step. by rewrite <- (assoc_L (++)).
  - sink_step. rewrite Hp. sink_step. by rewrite <- (assoc_L (++)).
Qed.

Definition string_text (precision : Z) (s : option (list Z)) : list Z :=
  let s := default (bytes_of "<NULL>") s in if precision <? 0 then s else take (Z.to_nat precision) s.

Lemma put_string_after size buf flags width precision s t :
  room size buf (t ++ field_text flags width (string_text precision s)) →
  put_string size flags width precision s (after size buf t) = Ret (after size buf (t ++ field_text flags width (string_text precision s))).
Proof.
  unfold put_string, field_text. fold (string_text precision s). set (x := string_text precision s). destruct (has flags LEFT); intros Hr; cbn [mbind outcome_bind];
    sink_step; by rewrite <- (assoc_L (++)).
Qed.

(** The text of a conversion and of a format, and what [%n] stores when [n]
    characters were written before. *)
Definition conv_text (flags width precision qualifier : Z) (fmt : list Z) (args : list varg) (n : nat) : outcome (list Z * list varg * list Z * list Z) :=
  let int_conv base flags rest := '(x, args) ← arg_int args; Ret (rest, args, number_text (int_value qualifier flags x) base width precision flags, []) in
  match fmt with
  | [] => Ret ([], args, [37], [])
  | c :: rest =>
    if c =? 99 then '(x, args) ← arg_int args; Ret (rest, args, field_text flags width [u8 x], []) else
    if c =? 115 then match args with VStr s :: args => Ret (rest, args, field_text flags width (string_text precision s), []) | _ => Undef end else
    if c =? 112 then
      match args with
      | VPtr p :: args =>
        Ret (rest, args, if width =? -1 then number_text (u64 p) 16 16 precision (Z.lor flags ZEROPAD) else number_text (u64 p) 16 width precision flags, [])
      | _ => Undef
      end else
    if c =? 110 then match args with VLen :: args => Ret (rest, args, [], [len_value qualifier (Z.of_nat n)]) | _ => Undef end else
    if c =? 37 then Ret (rest, args, [37], []) else
    if c =? 111 then int_conv 8 flags rest else
    if c =? 88 then int_conv 16 (Z.lor flags LARGE) rest else
    if c =? 120 then int_conv 16 flags rest else
    if (c =? 100) || (c =? 105) then int_conv 10 (Z.lor flags SIGN) rest else
    if c =? 117 then int_conv 10 flags rest else
    Ret (rest, args, [37; c], [])
  end.

Fixpoint fmt_text (fuel : nat) (fmt : list Z) (args : list varg) (n : nat) : outcome (list Z * list Z) :=
  match fuel with
  | O => NoFuel
  | S fuel =>
    match fmt with
    | [] => Ret ([], [])
    | c :: fmt =>
      if negb (c =? 37) then '(s, lens) ← fmt_text fuel fmt args (S n); Ret (c :: s, lens) else
      let '(flags, fmt) := flags_loop fmt 0 in
      '(flags, width, fmt, args) ← get_width flags fmt args;
      '(precision, fmt, args) ← get_precision fmt args;
      let '(qualifier, fmt) := get_qualifier fmt in
      '(fmt, args, s, lens) ← conv_text flags width precision qualifier fmt args n;
      '(s', lens') ← fmt_text fuel fmt args (n + length s);
      Ret (s ++ s', lens ++ lens')
    end
  end.

(** The text of a format. *)
Definition printed (fmt : list Z) (args : list varg) : outcome (list Z * list Z) := fmt_text (S (length fmt)) fmt args 0.

Lemma conv_text_len flags width precision qualifier fmt args n rest args' s lens :
  conv_text flags width precision qualifier fmt args n = Ret (rest, args', s, lens) → (length rest ≤ length fmt)%nat.
Proof.
  unfold conv_text. destruct fmt as [|c l]; [by intros [= <- _ _ _]|]. intros E. cbv zeta in E. destruct args as [|[n0|s0|p0|] l0]; cbn [mbind outcome_bind arg_int] in E;
    repeat (case_match; try done); injection E as <- _ _ _; cbn; lia.
Qed.

(** The conversion with stores does what the text says. *)
Lemma convert_text flags width precision qualifier fmt args lens t :
  match conv_text flags width precision qualifier fmt args (length t) with
  | Ret (rest, args', s, ls) => ∀ size buf, room size buf (t ++ s) →
      convert size flags width precision qualifier fmt args (after size buf t) lens = Ret (rest, args', after size buf (t ++ s), lens ++ ls)
  | Undef => ∀ size buf, convert size flags width precision qualifier fmt args (after size buf t) lens = Undef
  | _ => False
  end.
Proof.
  assert (∀ base fl rest, (base = 8 ∨ base = 10 ∨ base = 16) →
    match ('(x, args) ← arg_int args; Ret (rest : list Z, args, number_text (int_value qualifier fl x) base width precision fl, @nil Z)) with
    | Ret (rest', args', s, ls) => ∀ size buf, room size buf (t ++ s) →
        ('(n, args) ← arg_int args; o ← number size (int_value qualifier fl n) base width precision fl (after size buf t); Ret (rest, args, o, lens)) = Ret (rest', args', after size buf (t ++ s), lens ++ ls)
    | Undef => ∀ size buf, ('(n, args) ← arg_int args; o ← number size (int_value qualifier fl n) base width precision fl (after size buf t); Ret (rest, args, o, lens)) = Undef
    | _ => False
    end) as Hint.
  { intros base fl rest Hb. destruct args as [|[n|s|p|] args]; try done. cbn [arg_int mbind outcome_bind]. intros size buf Hr. rewrite number_after by (done || lia). cbn [mbind outcome_bind]. by rewrite app_nil_r. }
  destruct fmt as [|c rest]; cbn [convert conv_text].
  { intros size buf Hr. rewrite put_after by done. cbn [mbind outcome_bind]. by rewrite app_nil_r. }
  destruct (c =? 99); [destruct args as [|[m|s|p|] args]; try done|].
  { cbn [arg_int mbind outcome_bind]. intros size buf Hr. rewrite put_char_after by done. cbn [mbind outcome_bind]. by rewrite app_nil_r. }
  destruct (c =? 115); [destruct args as [|[m|s|p|] args]; try done|].
  { intros size buf Hr. rewrite put_string_after by done. cbn [mbind outcome_bind]. by rewrite app_nil_r. }
  destruct (c =? 112); [destruct args as [|[m|s|p|] args]; try done|].
  { intros size buf. destruct (width =? -1); intros Hr; rewrite number_after by (done || lia); cbn [mbind outcome_bind]; by rewrite app_nil_r. }
  destruct (c =? 110); [destruct args as [|[m|s|p|] args]; try done|].
  { intros size buf Hr. by rewrite app_nil_r. }
  destruct (c =? 37).
  { intros size buf Hr. rewrite put_after by done. cbn [mbind outcome_bind]. by rewrite app_nil_r. }
  destruct (c =? 111); [apply Hint; lia|]. destruct (c =? 88); [apply Hint; lia|]. destruct (c =? 120); [apply Hint; lia|].
  destruct ((c =? 100) || (c =? 105)); [apply Hint; lia|]. destruct (c =? 117); [apply Hint; lia|].
  intros size buf Hr. replace (t ++ [37; c]) with ((t ++ [37]) ++ [c]) in * by (by rewrite <- (assoc_L (++))).
  rewrite put_after by (by eapply room_app). cbn [mbind outcome_bind]. rewrite put_after by done. cbn [mbind outcome_bind]. by rewrite app_nil_r.
Qed.

Lemma format_text fuel fmt args lens t :
  (length fmt < fuel)%nat →
  match fmt_text fuel fmt args (length t) with
  | Ret (s, ls) => ∀ size buf, room size buf (t ++ s) → format_loop size fuel fmt args (after size buf t) lens = Ret (after size buf (t ++ s), lens ++ ls)
  | Undef => ∀ size buf, 0 ≤ size ≤ Z.of_nat (length buf) → format_loop size fuel fmt args (after size buf t) lens = Undef
  | _ => False
  end.
Proof.
  revert fmt args lens t. induction fuel as [|fuel IH]; intros fmt args lens t Hf; [lia|]. cbn [format_loop fmt_text]. destruct fmt as [|c fmt].
  { intros size buf Hr. by rewrite !app_nil_r. }
  cbn [length] in Hf. destruct (negb (c =? 37)).
  { specialize (IH fmt args lens (t ++ [c]) ltac:(lia)). rewrite length_app, Nat.add_1_r in IH. destruct (fmt_text fuel fmt args (S (length t))) as [[s ls]| | |]; cbn [mbind outcome_bind]; try done.
    - intros size buf. replace (t ++ c :: s) with ((t ++ [c]) ++ s) by (by rewrite <- (assoc_L (++))). intros Hr. rewrite put_after by (by eapply room_app). by apply IH.
    - intros size buf Hs. rewrite put_after by (unfold room; lia). by apply IH. }
  pose proof (flags_loop_len fmt 0) as H1. destruct (flags_loop fmt 0) as [fl fmt1]. cbn [snd] in H1.
  destruct (get_width fl fmt1 args) as [[[[fl2 w] fmt2] args2]| | |] eqn:Ew; [apply get_width_len in Ew|done|..].
  2,3: unfold get_width, arg_int in Ew; repeat case_match; done.
  cbn [mbind outcome_bind]. destruct (get_precision fmt2 args2) as [[[p fmt3] args3]| | |] eqn:Ep; [apply get_precision_len in Ep|done|..].
  2,3: unfold get_precision, arg_int in Ep; repeat (case_match; cbn in Ep); done.
  cbn [mbind outcome_bind]. pose proof (get_qualifier_len fmt3) as H4. destruct (get_qualifier fmt3) as [q fmt4]. cbn [snd] in H4.
  pose proof (convert_text fl2 w p q fmt4 args3 lens t) as H. destruct (conv_text fl2 w p q fmt4 args3 (length t)) as [[[[fmt5 args5] s] ls]| | |] eqn:Ec; cbn [mbind outcome_bind]; try done.
  - apply conv_text_len in Ec. specialize (IH fmt5 args5 (lens ++ ls) (t ++ s) ltac:(lia)). rewrite length_app in IH.
    destruct (fmt_text fuel fmt5 args5 (length t + length s)) as [[s' ls']| | |]; cbn [mbind outcome_bind]; try done.
    + intros size buf Hr. rewrite (assoc_L (++)) in *. rewrite H by (by eapply room_app). cbn [mbind outcome_bind]. rewrite (assoc_L (++)). by apply IH.
    + intros size buf Hs. rewrite H by (unfold room; lia). cbn [mbind outcome_bind]. by apply IH.
  - intros size buf Hs. by rewrite H.
Qed.

(** The terminator goes after the text or into the last place. *)
Lemma terminated size buf t :
  0 < size → Z.min size (Z.of_nat (length t) + 1) ≤ Z.of_nat (length buf) →
  aset (buffer (after size buf t)) (if Z.of_nat (length t) <? size then Z.of_nat (length t) else size - 1) 0 =
  Ret (take (Z.to_nat (size - 1)) t ++ 0 :: drop (S (Nat.min (length t) (Z.to_nat (size - 1)))) buf).
Proof.
  intros Hs Hb. unfold after. cbn [buffer]. set (n := Z.to_nat (Z.min size (Z.of_nat (length t)))). set (i := if _ <? size then _ else _).
  assert (Z.to_nat i = Nat.min (length t) (Z.to_nat (size - 1)) ∧ (n = Z.to_nat i ∨ n = S (Z.to_nat i)) ∧ (n ≤ length t)%nat ∧ (Z.to_nat i < length buf)%nat ∧ 0 ≤ i) as (Ei & Hn & Hnt & Hib & Hi).
  { unfold i, n. destruct (Z.ltb_spec (Z.of_nat (length t)) size); lia. }
  unfold aset. assert (length (take n t ++ drop n buf) = n + (length buf - n))%nat as El by (rewrite length_app, length_take, length_drop; lia).
  rewrite decide_True by lia. f_equal. rewrite insert_take_drop by lia. rewrite <- Ei. f_equal; [|f_equal].
  - rewrite take_app_le, take_take by (rewrite length_take; lia). destruct (decide (Z.to_nat i = length t)) as [E|E].
    + rewrite Nat.min_l by lia. rewrite !take_ge by lia. done.
    + replace (Z.to_nat (size - 1)) with (Z.to_nat i) by lia. f_equal. lia.
  - rewrite drop_app, length_take, (drop_ge (take n t)) by (rewrite length_take; lia). cbn [app]. rewrite drop_drop. f_equal. lia.
Qed.

(** Up to where [vsnprintf] writes: the size, or the last address. *)
Definition capacity (addr size : Z) : Z := Z.min size (2 ^ 64 - 1 - addr).

Lemma vsnprintf_all fmt args addr buf size :
  0 ≤ size → addr < 2 ^ 64 → 0 ≤ s32 size → let cap := capacity addr size in
  match printed fmt args with
  | Ret (t, lens) => Z.min cap (Z.of_nat (length t) + 1) ≤ Z.of_nat (length buf) →
      vsnprintf addr buf size fmt args =
      Ret (s32 (Z.of_nat (length t)), lens,
           if cap =? 0 then buf else take (Z.to_nat (cap - 1)) t ++ 0 :: drop (S (Nat.min (length t) (Z.to_nat (cap - 1)))) buf)
  | Undef => cap ≤ Z.of_nat (length buf) → vsnprintf addr buf size fmt args = Undef
  | _ => False
  end.
Proof.
  intros Hs Ha Hi cap. unfold vsnprintf. destruct (Z.ltb_spec (s32 size) 0); [lia|].
  replace (if 2 ^ 64 <=? addr + size then 2 ^ 64 - 1 - addr else size) with cap by (unfold cap, capacity; destruct (Z.leb_spec (2 ^ 64) (addr + size)); lia).
  assert (0 ≤ cap) as Hc by (unfold cap, capacity; lia). clearbody cap. clear Hs Ha Hi. replace (Sink buf 0) with (after cap buf []).
  2:{ unfold after. cbn [length]. by replace (Z.to_nat (Z.min cap (Z.of_nat 0))) with 0%nat by lia. }
  pose proof (format_text (S (length fmt)) fmt args [] [] ltac:(lia)) as Hft. change (length []) with 0%nat in Hft. fold (printed fmt args) in Hft.
  destruct (printed fmt args) as [[t lens]| | |]; [|intros Hb; by rewrite Hft by lia|done..].
  intros Hb. rewrite Hft by (unfold room; cbn; lia). cbn [mbind outcome_bind app]. destruct (Z.eqb_spec cap 0) as [->|Hne]; cbn [mbind outcome_bind].
  - unfold after. cbn [buffer len]. replace (Z.to_nat (Z.min 0 (Z.of_nat (length t)))) with 0%nat by lia. done.
  - destruct (Z.ltb_spec 0 cap); [|lia]. change (len (after cap buf t)) with (length t). by rewrite terminated by lia.
Qed.

(** A buffer that ends before the last address. *)
Lemma vsnprintf_spec fmt args addr buf size :
  0 ≤ size < 2 ^ 31 → addr + size < 2 ^ 64 →
  match printed fmt args with
  | Ret (t, lens) => Z.min size (Z.of_nat (length t) + 1) ≤ Z.of_nat (length buf) →
      vsnprintf addr buf size fmt args =
      Ret (s32 (Z.of_nat (length t)), lens,
           if size =? 0 then buf else take (Z.to_nat (size - 1)) t ++ 0 :: drop (S (Nat.min (length t) (Z.to_nat (size - 1)))) buf)
  | Undef => size ≤ Z.of_nat (length buf) → vsnprintf addr buf size fmt args = Undef
  | _ => False
  end.
Proof.
  intros Hs Ha. assert (s32 size = size) as Es by cint. pose proof (vsnprintf_all fmt args addr buf size ltac:(lia) ltac:(lia) ltac:(lia)) as H.
  by replace (capacity addr size) with size in H by (unfold capacity; lia).
Qed.

(** ** Reading back what was printed *)

(** Each digit of the tables has its value. *)
Lemma digit_ok (large : bool) d : 0 ≤ d < 16 →
  let c := nth (Z.to_nat d) (if large then large_digits else small_digits) 0 in isxdigit c = true ∧ digit_value c = d.
Proof.
  intros Hd c. assert (forallb (λ d, isxdigit (nth (Z.to_nat d) (if large then large_digits else small_digits) 0) &&
    (digit_value (nth (Z.to_nat d) (if large then large_digits else small_digits) 0) =? d)) (seqZ 0 16) = true) as H by (destruct large; by vm_compute).
  rewrite forallb_forall in H. specialize (H d ltac:(apply list_elem_of_In, elem_of_seqZ; lia)). by apply andb_prop in H as [? ?%Z.eqb_eq].
Qed.

Lemma strtoul_digits fuel (large : bool) base num rest :
  2 ≤ base ≤ 16 → 0 ≤ num < 2 ^ 64 → num < base ^ Z.of_nat fuel →
  strtoul_loop digit_value base 0 (rev (digits_loop fuel (if large then large_digits else small_digits) base num) ++ rest) = strtoul_loop digit_value base num rest.
Proof.
  intros Hb. revert num rest. induction fuel as [|fuel IH]; intros num rest Hn Hf; cbn [digits_loop]; [cbn in Hf; by replace num with 0 by lia|].
  destruct (Z.eqb_spec num 0) as [->|Hne]; [done|]. cbn [rev]. rewrite <- (assoc_L (++)). pose proof (Z.div_mod num base ltac:(lia)) as Hdm. pose proof (Z.mod_pos_bound num base ltac:(lia)) as Hm.
  assert (0 ≤ num / base < num) as Hlt by (split; [apply Z.div_pos; lia|apply Z.div_lt; lia]). rewrite IH.
  - cbn [app strtoul_loop]. destruct (digit_ok large (num mod base) ltac:(lia)) as [-> ->]. destruct (Z.ltb_spec (num mod base) base); [|lia]. cbn [andb].
    replace (num / base * base + num mod base) with num by lia. by rewrite wrapu_small.
  - lia.
  - apply Z.div_lt_upper_bound; [lia|]. replace (Z.of_nat (S fuel)) with (Z.of_nat fuel + 1) in Hf by lia. rewrite Z.pow_add_r in Hf by lia. lia.
Qed.

Lemma strtoul_zeros base n s : 2 ≤ base → strtoul_loop digit_value base 0 (replicate n 48 ++ s) = strtoul_loop digit_value base 0 s.
Proof.
  intros Hb. induction n as [|n IH]; [done|]. cbn [replicate app strtoul_loop]. change (isxdigit 48) with true. change (digit_value 48) with 0.
  destruct (Z.ltb_spec 0 base); [|lia]. cbn [andb]. change (u64 (0 * base + 0)) with 0. exact IH.
Qed.

(** Text that no number goes on with. *)
Definition ends_number (rest : list Z) : Prop := match rest with [] => True | c :: _ => isxdigit c = false ∧ toupper c ≠ 88 end.

Lemma strtoul_stops base num rest : ends_number rest → strtoul_loop digit_value base num rest = (num, rest).
Proof. destruct rest as [|c rest]; [done|]. intros [H _]. cbn [strtoul_loop]. by rewrite H. Qed.

Lemma digits_body num (large : bool) base n rest :
  2 ≤ base ≤ 16 → 0 ≤ num < 2 ^ 64 → ends_number rest →
  strtoul_loop digit_value base 0 (replicate n 48 ++ (if num =? 0 then [48] else rev (digits_loop 64 (if large then large_digits else small_digits) base num)) ++ rest) = (num, rest).
Proof.
  intros Hb Hn He. rewrite strtoul_zeros by lia. destruct (Z.eqb_spec num 0) as [->|Hne].
  - change ([48] ++ rest) with (replicate 1 48 ++ rest). rewrite strtoul_zeros by lia. by apply strtoul_stops.
  - rewrite strtoul_digits; [by apply strtoul_stops|lia|lia|]. change (Z.of_nat 64) with 64. eapply Z.lt_le_trans; [apply Hn|]. apply Z.pow_le_mono_l. lia.
Qed.

Definition is_digit_text (s : list Z) : Prop := Forall (λ c, isxdigit c = true ∧ toupper c ≠ 88 ∧ c ≠ 45) s.

Lemma digits_are num (large : bool) base n :
  2 ≤ base ≤ 16 → is_digit_text (replicate n 48 ++ (if num =? 0 then [48] else rev (digits_loop 64 (if large then large_digits else small_digits) base num))).
Proof.
  intros Hb. apply Forall_app. split; [by apply Forall_replicate|]. destruct (num =? 0); [by repeat constructor|]. apply Forall_rev. generalize 64%nat as fuel. intros fuel. revert num.
  induction fuel as [|fuel IH]; intros num; cbn [digits_loop]; [constructor|]. destruct (num =? 0); [constructor|]. constructor; [|apply IH]. pose proof (Z.mod_pos_bound num base ltac:(lia)) as Hm.
  set (d := num mod base) in *. clearbody d. assert (forallb (λ d : Z, let c := nth (Z.to_nat d) (if large then large_digits else small_digits) 0 in
    isxdigit c && negb (toupper c =? 88) && negb (c =? 45)) (seqZ 0 16) = true) as H by (destruct large; by vm_compute).
  rewrite forallb_forall in H. specialize (H d ltac:(apply list_elem_of_In, elem_of_seqZ; lia)). cbv zeta in H. rewrite !andb_true_iff, !negb_true_iff, !Z.eqb_neq in H. tauto.
Qed.

Lemma digits_nonempty num (large : bool) base n :
  replicate n 48 ++ (if num =? 0 then [48] else rev (digits_loop 64 (if large then large_digits else small_digits) base num)) ≠ [].
Proof.
  intros E. apply app_nil in E as [_ E]. destruct (Z.eqb_spec num 0); [done|]. apply (f_equal (@length Z)) in E. rewrite length_rev in E.
  change 64%nat with (S 63) in E. cbn [digits_loop] in E. by destruct (Z.eqb_spec num 0).
Qed.

(** No prefix is taken for one that was not printed. *)
Lemma no_prefix s rest : is_digit_text s → s ≠ [] → ends_number rest → (toupper (at_ptr (tl (s ++ rest))) =? 88) = false.
Proof.
  intros Hs Hne He. apply Z.eqb_neq. destruct s as [|c [|d s]]; [done| |]; cbn [app tl].
  - destruct rest as [|x rest]; [done|]. by destruct He.
  - by inversion Hs as [|?? _ Hs']; inversion Hs' as [|?? (_ & ? & _) _].
Qed.

(** The digits after the prefix of their base. *)
Lemma strtoul_body num base type n rest :
  base = 8 ∨ base = 10 ∨ base = 16 → 0 ≤ num < 2 ^ 64 → ends_number rest →
  simple_strtoul (prefix_text base type ++ replicate n 48 ++
    (if num =? 0 then [48] else rev (digits_loop 64 (if has type LARGE then large_digits else small_digits) base num)) ++ rest) base = (num, rest).
Proof.
  intros Hb Hn He. assert (2 ≤ base ≤ 16) as Hb2 by lia. pose proof (digits_body num (has type LARGE) base n rest Hb2 Hn He) as H. pose proof (digits_are num (has type LARGE) base n Hb2) as Hd.
  pose proof (digits_nonempty num (has type LARGE) base n) as Hne.
  set (dg := if num =? 0 then [48] else _) in *.
  unfold simple_strtoul, number_base, prefix_text. destruct (Z.eqb_spec base 0); [lia|]. destruct (Z.eqb_spec base 16) as [->|H16].
  - change (16 =? 8) with false. cbn iota. destruct (has type SPECIAL); cbn [app].
    + cbn [at_ptr hd tl drop]. assert (toupper (if has type LARGE then 88 else 120) =? 88 = true) as -> by (by destruct (has type LARGE)). cbn [Z.eqb Pos.eqb andb]. exact H.
    + rewrite (assoc_L (++)) in *. rewrite no_prefix, andb_false_r by done. exact H.
  - destruct (has type SPECIAL); [|exact H]. destruct (base =? 8); [|exact H]. change ([48] ++ replicate n 48 ++ dg ++ rest) with (replicate (S n) 48 ++ dg ++ rest).
    by apply (digits_body num (has type LARGE) base (S n) rest).
Qed.

(** Without spaces, a number is its sign, its prefix, zeros and its digits. *)
Lemma number_shape num base width precision type :
  has type LEFT = false → has type ZEROPAD = true ∨ width ≤ 0 →
  ∃ n, number_text num base width precision type = sign_text num type ++ prefix_text base type ++ replicate n 48 ++ digits_text num base type.
Proof.
  intros Hl Hw. unfold number_text. rewrite Hl. destruct (has type ZEROPAD) eqn:Ez.
  - eexists. do 2 f_equal. rewrite (assoc_L (++)), <- replicate_add. done.
  - destruct Hw as [?|Hw]; [done|]. eexists. match goal with |- replicate (Z.to_nat ?x) 32 ++ _ = _ => replace (Z.to_nat x) with 0%nat by lia end. done.
Qed.

Lemma strtoul_number num base width precision type rest :
  base = 8 ∨ base = 10 ∨ base = 16 → 0 ≤ num < 2 ^ 64 → has type LEFT = false → has type ZEROPAD = true ∨ width ≤ 0 → ends_number rest → has type SIGN = false →
  simple_strtoul (number_text num base width precision type ++ rest) base = (num, rest).
Proof.
  intros Hb Hn Hl Hw He Hs. destruct (number_shape num base width precision type Hl Hw) as [n ->]. unfold digits_text, sign_text. rewrite Hs. cbn [app andb].
  rewrite <- !(assoc_L (++)). by apply strtoul_body.
Qed.

(** A number does not begin with a zero. *)
Lemma leading_digit fuel num : 0 < num < 10 ^ Z.of_nat fuel → ∃ c s, rev (digits_loop fuel small_digits 10 num) = c :: s ∧ c ≠ 48.
Proof.
  revert num. induction fuel as [|fuel IH]; intros num Hn; [cbn in Hn; lia|]. cbn [digits_loop]. destruct (Z.eqb_spec num 0); [lia|]. cbn [rev].
  pose proof (Z.div_mod num 10 ltac:(lia)) as Hdm. pose proof (Z.mod_pos_bound num 10 ltac:(lia)) as Hm. destruct (decide (num / 10 = 0)) as [Ez|Ez].
  - rewrite Ez. replace (digits_loop fuel small_digits 10 0) with (@nil Z) by (by destruct fuel). exists (nth (Z.to_nat (num mod 10)) small_digits 0), []. split; [done|]. intros E.
    destruct (digit_ok false (num mod 10) ltac:(lia)) as [_ Hd]. cbn iota in Hd. rewrite E in Hd. change (digit_value 48) with 0 in Hd. lia.
  - destruct (IH (num / 10)) as (c & s & -> & Hc); [|by exists c; eexists; split; [reflexivity|]]. assert (0 ≤ num / 10) by (apply Z.div_pos; lia). split; [lia|].
    apply Z.div_lt_upper_bound; [lia|]. replace (Z.of_nat (S fuel)) with (Z.of_nat fuel + 1) in Hn by lia. rewrite Z.pow_add_r in Hn by lia. lia.
Qed.

(** A decimal number needs no base to be told. *)
Lemma strtoul_decimal num : 0 ≤ num < 2 ^ 64 → simple_strtoul (number_text num 10 (-1) (-1) 0) 0 = (num, []).
Proof.
  intros Hn. pose proof (strtoul_number num 10 (-1) (-1) 0 [] ltac:(lia) Hn eq_refl ltac:(by right) I eq_refl) as H. rewrite app_nil_r in H. unfold simple_strtoul in *.
  replace (number_base (number_text num 10 (-1) (-1) 0) 10) with (10, number_text num 10 (-1) (-1) 0) in H by done.
  destruct (decide (num = 0)) as [->|Hne]; [done|]. rewrite <- H. assert (∃ c s, number_text num 10 (-1) (-1) 0 = c :: s ∧ c ≠ 48) as (c & s & E & Hc).
  { unfold number_text. change (has 0 LEFT) with false. change (has 0 ZEROPAD) with false.
    change (sign_text num 0) with (@nil Z). change (prefix_text 10 0) with (@nil Z). unfold digits_text. change (has 0 SIGN) with false. change (has 0 LARGE) with false. cbn iota. cbn [andb].
    destruct (Z.eqb_spec num 0); [done|]. set (dg := rev _). replace (Z.to_nat (-1 - Z.of_nat (length dg))) with 0%nat by lia. cbn [replicate app length].
    match goal with |- context [Z.to_nat ?x] => replace (Z.to_nat x) with 0%nat by lia end. cbn [replicate app]. apply leading_digit. split; [lia|]. change (Z.of_nat 64) with 64.
    eapply Z.lt_le_trans; [apply Hn|]. apply Z.pow_le_mono_l. lia. }
  rewrite E. unfold number_base. cbn [at_ptr hd]. destruct (Z.eqb_spec c 48); [done|]. done.
Qed.

(** A number below a power of the base has that many digits at most. *)
Lemma digits_len fuel digits base num k : 2 ≤ base → 0 ≤ num < base ^ Z.of_nat k → (length (digits_loop fuel digits base num) ≤ k)%nat.
Proof.
  intros Hb. revert num k. induction fuel as [|fuel IH]; intros num k Hn; cbn [digits_loop]; [cbn; lia|]. destruct (Z.eqb_spec num 0); [cbn; lia|]. destruct k as [|k]; [cbn in Hn; lia|].
  cbn [length]. apply le_n_S, IH. split; [apply Z.div_pos; lia|]. apply Z.div_lt_upper_bound; [lia|]. replace (Z.of_nat (S k)) with (Z.of_nat k + 1) in Hn by lia. rewrite Z.pow_add_r in Hn by lia. lia.
Qed.

(** ** Claims *)


(** C17: Numbers that are printed without spaces are read back.  What [number] writes
    for an unsigned number in base 8, 10 or 16, with or without prefix, capital
    letters, precision and leading zeros, [simple_strtoul] in that base turns into
    the number again and stops after it, when the text after it does not continue a
    number; and [simple_strtol] does for a signed one with neither of the flags for
    a plus, a space or a prefix.  There are no spaces when the width is filled with
    zeros or is none, and the number is not aligned to the left. *)
Theorem number_roundtrip size buf t num base width precision type rest :
  base = 8 ∨ base = 10 ∨ base = 16 → 0 ≤ num < 2 ^ 64 → has type LEFT = false → has type ZEROPAD = true ∨ width ≤ 0 → ends_number rest →
  ∃ s, (room size buf (t ++ s) → number size num base width precision type (after size buf t) = Ret (after size buf (t ++ s))) ∧
    (has type SIGN = false → simple_strtoul (s ++ rest) base = (num, rest)) ∧
    (has type SIGN = true → has type PLUS = false → has type SPACE = false → has type SPECIAL = false → simple_strtol (s ++ rest) base = (s64 num, rest)).
Proof.
  intros Hb Hn Hl Hw He. exists (number_text num base width precision type). split; [by apply number_after; lia|].
  split; [by apply strtoul_number|].
  - destruct (number_shape num base width precision type Hl Hw) as [n ->]. unfold digits_text, sign_text. intros Hs Hp Hsp Hsc. rewrite Hs, Hp, Hsp. cbn [andb]. assert (prefix_text base type = []) as Epf by (unfold prefix_text; by rewrite Hsc). unfold simple_strtol.
    destruct (Z.ltb_spec (s64 num) 0) as [Hneg|Hpos].
    + cbn [app at_ptr hd tl]. rewrite <- !(assoc_L (++)). cbn [Z.eqb Pos.eqb]. rewrite (strtoul_body (u64 (- s64 num)) base type n rest Hb ltac:(by apply wrapu_range) He). f_equal. cint.
    + set (m := if num =? 0 then [48] else _). assert (at_ptr (([] ++ prefix_text base type ++ replicate n 48 ++ m) ++ rest) =? 45 = false) as ->.
      { rewrite Epf. cbn [app]. pose proof (digits_are num (has type LARGE) base n ltac:(lia)) as Hd. pose proof (digits_nonempty num (has type LARGE) base n) as Hne. fold m in Hd, Hne. apply Z.eqb_neq.
        destruct (replicate n 48 ++ m) as [|c s]; [done|by inversion Hd as [|?? (_ & _ & ?)]]. }
      unfold m. cbn [app]. rewrite <- !(assoc_L (++)). by rewrite (strtoul_body num base type n rest Hb Hn He).
Qed.

Lemma number_roundtrip_witness :
  ∃ s, number 10 18 8 4 (-1) ZEROPAD (after 10 (replicate 10 0) []) = Ret (after 10 (replicate 10 0) s) ∧ s = bytes_of "0022" ∧
    simple_strtoul (s ++ bytes_of ",") 8 = (18, bytes_of ",").
Proof.
  destruct (number_roundtrip 10 (replicate 10 0) [] 18 8 4 (-1) ZEROPAD (bytes_of ",")) as (s & Hn & H & _); [by left|lia|reflexivity|by left|split; [reflexivity|discriminate]|].
  assert (s = bytes_of "0022") as ->.
  { specialize (H eq_refl). destruct (decide (room 10 (replicate 10 0) ([] ++ s))) as [Hr|Hr].
    - specialize (Hn Hr). vm_compute number in Hn. injection Hn as Hb Hl. vm_compute in Hb. destruct s as [|a [|b [|c [|d [|e s]]]]]; try discriminate Hl. vm_compute in Hb. injection Hb; intros; subst; reflexivity.
    - exfalso. apply Hr. split; [lia|]. change (Z.of_nat (length (replicate 10 0))) with 10. lia. }
  exists (bytes_of "0022"). split; [apply Hn; split; vm_compute; discriminate|]. split; [reflexivity|apply H; reflexivity].
Defined.

(** ** Examples *)

Example formatted :
  vsnprintf 4096 (replicate 24 1) 24 (bytes_of "%5d|%-4x|%04o|%s|%c%%%n") [VInt (-3); VInt 255; VInt 18; VStr None; VInt 65; VLen] =
  Ret (25, [25], bytes_of "   -3|ff  |0022|<NULL>|" ++ [0]).
Proof. by vm_compute. Qed.

(** The qualifier [hh] is not known: the conversion is copied, and takes no
    argument. *)
Example char_qualifier_copied : vsnprintf 4096 (replicate 8 1) 8 (bytes_of "%hhd%u") [VInt 7] = Ret (4, [], bytes_of "%hd7" ++ [0; 1; 1; 1]).
Proof. by vm_compute. Qed.

