(* ===== verification/Parser.v ===== *)
(** Mount options as text: [lib/parser.c], [strsep] of [lib/string.c], and the
    memory they take from [kmalloc].

    Whether an allocation fails is told by a list of answers, which the calls use
    up in turn; when it is used up they succeed. *)

From stdpp Require Import strings.
From S2P Require Import Prelude Ctype Vsprintf.

Definition ENOMEM : Z := 12.
Definition EINVAL : Z := 22.

(** ** Memory *)

(** The blocks that are allocated, with the strings in them. *)
Record kmem := Kmem { heap : gmap Z (list Z); failing : list bool }.

(** Memory for a string, which is copied into it. *)
Definition kmalloc_str (s : list Z) (m : kmem) : option Z * kmem :=
  match failing m with
  | true :: l => (None, Kmem (heap m) l)
  | l => let a := fresh (dom (heap m)) in (Some a, Kmem (<[a := s]> (heap m)) (tl l))
  end.

(** Freeing what is not allocated is undefined. *)
Definition kfree (a : Z) (m : kmem) : outcome kmem := match heap m !! a with Some _ => Ret (Kmem (delete a (heap m)) (failing m)) | None => Undef end.

(** ** Strings *)

(** [strcmp(p, s) == 0] *)
Fixpoint streq (p s : list Z) : bool :=
  match p, s with [], [] => true | a :: p, b :: s => (a =? b) && streq p s | _, _ => false end.

(** The text after [p], if [strncmp(p, s, strlen(p))] is 0. *)
Fixpoint after_prefix (p s : list Z) : option (list Z) :=
  match p, s with [], s => Some s | a :: p, b :: s => if a =? b then after_prefix p s else None | _ :: _, [] => None end.

(** The text before and after the first [c]. *)
Fixpoint split_at (c : Z) (s : list Z) : list Z * option (list Z) :=
  match s with
  | [] => ([], None)
  | d :: s => if d =? c then ([], Some s) else let '(a, b) := split_at c s in (d :: a, b)
  end.

(** [strsep(s, ",")]: the token and what [*s] is afterwards. *)
Definition strsep (s : list Z) : list Z * option (list Z) := split_at 44 s.

(** ** Patterns *)

Definition MAX_OPT_ARGS : nat := 3.

(** The text of an argument and the text after it: [c] is the conversion, [n] the
    length that was given or -1. *)
Definition match_arg (c n : Z) (s : list Z) : option (list Z * list Z) :=
  let num r := if (length (snd r) =? length s)%nat then None else Some (take (length s - length (snd r)) s, snd r) in
  if c =? 115 then
    if (length s =? 0)%nat then None else
    let n := if (n =? -1) || (Z.of_nat (length s) <? u64 n) then length s else Z.to_nat n in
    Some (take n s, drop n s)
  else if c =? 100 then num (simple_strtol s 0)
  else if c =? 117 then num (simple_strtoul s 0)
  else if c =? 111 then num (simple_strtoul s 8)
  else if c =? 120 then num (simple_strtoul s 16)
  else None.

Fixpoint match_loop (fuel : nat) (s p : list Z) (args : list (list Z)) : outcome (option (list (list Z))) :=
  match fuel with
  | O => NoFuel
  | S fuel =>
    match split_at 37 p with
    | (_, None) => Ret (if streq p s then Some args else None)
    | (pre, Some p) =>
      match after_prefix pre s with
      | None => Ret None
      | Some s =>
        let arg n p :=
          if (MAX_OPT_ARGS <=? length args)%nat then Ret None else
          match match_arg (at_ptr p) n s with
          | None => Ret None
          | Some (a, s) => match_loop fuel s (tl p) (args ++ [a])
          end in
        if isdigit (at_ptr p) then let '(n, p) := simple_strtoul p 10 in arg (s32 n) p
        else if at_ptr p =? 37 then if at_ptr s =? 37 then match_loop fuel (tl s) (tl p) args else Ret None
        else arg (-1) p
      end
    end
  end.

(** [None] is NULL, the end of a table.  The arguments are the strings between
    [from] and [to]. *)
Definition match_one (s : list Z) (p : option (list Z)) : outcome (option (list (list Z))) :=
  match p with None => Ret (Some []) | Some p => match_loop (S (length p)) s p [] end.

Section tokens.
Context {T : Type}.

(** A table that does not end with NULL is run off. *)
Fixpoint match_token (s : list Z) (table : list (T * option (list Z))) : outcome (T * list (list Z)) :=
  match table with
  | [] => Undef
  | (token, pattern) :: table =>
    r ← match_one s pattern;
    match r with Some args => Ret (token, args) | None => match_token s table end
  end.
End tokens.

(** ** Arguments *)

(** The result, the number and the memory. *)
Definition match_number (s : list Z) (base : Z) (m : kmem) : outcome (Z * Z * kmem) :=
  match kmalloc_str s m with
  | (None, m) => Ret (- ENOMEM, 0, m)
  | (Some buf, m) =>
    let '(v, rest) := simple_strtol s base in
    m ← kfree buf m;
    Ret (if (length rest =? length s)%nat then - EINVAL else 0, s32 v, m)
  end.

Definition match_int (s : list Z) (m : kmem) : outcome (Z * Z * kmem) := match_number s 0 m.
Definition match_octal (s : list Z) (m : kmem) : outcome (Z * Z * kmem) := match_number s 8 m.
Definition match_hex (s : list Z) (m : kmem) : outcome (Z * Z * kmem) := match_number s 16 m.

Definition match_strdup (s : list Z) (m : kmem) : option Z * kmem := kmalloc_str s m.

(** ** What matches *)

Lemma streq_spec p s : streq p s = true ↔ p = s.
Proof.
  revert s. induction p as [|a p IH]; intros [|b s]; cbn; try done. rewrite andb_true_iff, Z.eqb_eq, IH. split; [by intros [-> ->]|by intros [= -> ->]].
Qed.

Lemma after_prefix_spec p s t : after_prefix p s = Some t ↔ s = p ++ t.
Proof.
  revert s. induction p as [|a p IH]; intros s; cbn [after_prefix app]; [split; [by intros [= ->]|by intros ->]|].
  destruct s as [|b s]; [done|]. destruct (Z.eqb_spec a b) as [->|Hne]; [|split; [done|by intros [= -> _]]]. rewrite IH. split; [by intros ->|by intros [= ->]].
Qed.

Lemma split_at_len c s a b : split_at c s = (a, Some b) → length s = (length a + S (length b))%nat.
Proof.
  revert a b. induction s as [|d s IH]; intros a b; cbn [split_at]; [done|]. destruct (d =? c); [by intros [= <- <-]|].
  destruct (split_at c s) as [x y]. intros [= <- ->]. cbn. by rewrite (IH x b).
Qed.

Lemma split_at_join c s : c ∉ s → (split_at c s = (s, None)) ∧ ∀ t, split_at c (s ++ c :: t) = (s, Some t).
Proof.
  induction s as [|d s IH]; intros Hc; cbn [split_at app]; [split; [done|]; intros t; by rewrite Z.eqb_refl|].
  apply not_elem_of_cons in Hc as [Hne Hc]. destruct (IH Hc) as [E1 E2]. destruct (Z.eqb_spec d c); [congruence|]. rewrite E1. split; [done|]. intros t. by rewrite E2.
Qed.

Lemma strtoul_loop_len v base r s : (length (strtoul_loop v base r s).2 ≤ length s)%nat.
Proof. revert r. induction s as [|c s IH]; intros r; cbn [strtoul_loop]; [done|]. destruct (_ && _); [|done]. etrans; [apply IH|cbn; lia]. Qed.

Lemma strtoul_len s base : (length (simple_strtoul s base).2 ≤ length s)%nat.
Proof.
  unfold simple_strtoul. destruct (number_base s base) as [b cp] eqn:E. etrans; [apply strtoul_loop_len|]. unfold number_base in E. pose proof (tl_len s). pose proof (tl_len (tl s)).
  repeat case_match; injection E as <- <-; rewrite ?length_drop; lia.
Qed.

(** Matching ends for every pattern. *)
Lemma match_loop_total fuel s p args : (length p < fuel)%nat → ∃ r, match_loop fuel s p args = Ret r.
Proof.
  revert s p args. induction fuel as [|fuel IH]; intros s p args Hf; [lia|]. cbn [match_loop]. destruct (split_at 37 p) as [pre [q|]] eqn:E; [|by eexists].
  apply split_at_len in E. destruct (after_prefix pre s) as [t|]; [|by eexists].
  assert (∀ n q', (length q' ≤ length q)%nat → ∃ r, (if (MAX_OPT_ARGS <=? length args)%nat then Ret None else
    match match_arg (at_ptr q') n t with None => Ret None | Some (a, s) => match_loop fuel s (tl q') (args ++ [a]) end) = Ret r) as Harg.
  { intros n q' Hq. destruct (_ <=? _)%nat; [by eexists|]. destruct (match_arg _ _ _) as [[a u]|]; [|by eexists]. apply IH. pose proof (tl_len q'). lia. }
  destruct (isdigit (at_ptr q)).
  - pose proof (strtoul_len q 10) as Hl. destruct (simple_strtoul q 10) as [n q']. by apply Harg.
  - destruct (at_ptr q =? 37); [|by apply Harg]. destruct (at_ptr t =? 37); [|by eexists]. apply IH. pose proof (tl_len q). lia.
Qed.

Lemma match_one_total s p : ∃ r, match_one s p = Ret r.
Proof. destruct p as [p|]; [apply match_loop_total; lia|by eexists]. Qed.

(** A pattern without arguments matches its text, and one that ends in an argument
    the text before it and the argument. *)
Lemma match_one_plain s p a : split_at 37 p = (a, None) → match_one s (Some p) = Ret (if streq p s then Some [] else None).
Proof. intros E. cbn [match_one match_loop]. by rewrite E. Qed.

Lemma match_one_arg s p pre c :
  split_at 37 p = (pre, Some [c]) → isdigit c = false → c ≠ 37 →
  match_one s (Some p) = Ret (match after_prefix pre s with
                              | Some t => match match_arg c (-1) t with Some (a, []) => Some [a] | _ => None end
                              | None => None
                              end).
Proof.
  intros E Hd Hc. pose proof (split_at_len _ _ _ _ E) as Hl. cbn [length] in Hl. destruct (length p) as [|n] eqn:En; [lia|]. unfold match_one. rewrite En. cbn [match_loop].
  rewrite E. destruct (after_prefix pre s) as [t|]; [|done]. cbn [at_ptr hd tl]. rewrite Hd. destruct (Z.eqb_spec c 37); [done|]. cbn [length app].
  destruct (match_arg c (-1) t) as [[a [|x u]]|]; done.
Qed.

Section tables.
Context {T : Type}.

Lemma match_token_total s (table : list (T * option (list Z))) t : ∃ r, match_token s (table ++ [(t, None)]) = Ret r.
Proof.
  induction table as [|[t' p] table IH]; cbn [app match_token]; [by eexists|]. destruct (match_one_total s p) as [r ->]. cbn [mbind outcome_bind].
  destruct r; [by eexists|apply IH].
Qed.

(** What is found is in the table and matches. *)
Lemma match_token_in s (table : list (T * option (list Z))) t args : match_token s table = Ret (t, args) → ∃ p, (t, p) ∈ table ∧ match_one s p = Ret (Some args).
Proof.
  induction table as [|[t' p] table IH]; cbn [match_token]; [done|]. destruct (match_one s p) as [r| | |] eqn:E; [|done..]. cbn [mbind outcome_bind]. destruct r as [a|].
  - intros [= -> ->]. exists p. split; [by left|done].
  - intros H. destruct (IH H) as (q & Hq & Em). exists q. split; [by right|done].
Qed.
End tables.

(** Memory for a number is given back. *)
Lemma match_number_spec s base m :
  ∃ err v l, match_number s base m = Ret (err, v, Kmem (heap m) l) ∧
    (failing m = [] → l = [] ∧ err = (if (length (simple_strtol s base).2 =? length s)%nat then - EINVAL else 0) ∧ v = s32 (simple_strtol s base).1).
Proof.
  unfold match_number, kmalloc_str. destruct m as [h fl]. cbn [heap failing]. destruct fl as [|[] l].
  - destruct (simple_strtol s base) as [v rest]. unfold kfree. cbn [heap failing]. rewrite lookup_insert_eq. cbn [mbind outcome_bind tl].
    rewrite delete_insert_eq, delete_id by apply not_elem_of_dom, is_fresh. eexists _, _, []. split; [reflexivity|]. by intros _.
  - eexists _, _, l. split; [reflexivity|]. done.
  - destruct (simple_strtol s base) as [v rest]. unfold kfree. cbn [heap failing]. rewrite lookup_insert_eq. cbn [mbind outcome_bind tl].
    rewrite delete_insert_eq, delete_id by apply not_elem_of_dom, is_fresh. eexists _, _, l. split; [reflexivity|]. done.
Qed.
