(* ===== verification/Bitops.v ===== *)
(** Bit searches of [arch/x86_64/lib/bitops.c] and the atomic bit operations of
    [include/asm-x86_64/bitops.h].  A bit array is the list of its 64-bit words;
    the assembly is written out instruction by instruction. *)

From S2P Require Import Prelude.

(** ** Words *)

Definition ones64 : Z := 2 ^ 64 - 1.

(** [bsf]: the index of the lowest set bit.  For 0 the destination is not
    meaningful; the callers replace it by 64. *)
Fixpoint bsf_from (n : nat) (i x : Z) : Z :=
  match n with
  | O => i
  | S n => if Z.testbit x i then i else bsf_from n (i + 1) x
  end.

Definition bsf (x : Z) : Z := bsf_from 64 0 x.

(** [repe scasq]: compare the words from [p] on with [rax], at most [rcx] of
    them; [Some i] is the first that differs. *)
Fixpoint scasq (rax : Z) (ws : list Z) (p : Z) (rcx : nat) : outcome (option Z) :=
  match rcx with
  | O => Ret None
  | S rcx =>
    w ← aget ws p;
    if w =? rax then scasq rax ws (p + 1) rcx else Ret (Some p)
  end.

(** [__find_first_zero_bit] is the search with [rax = -1] and [__find_first_bit]
    the search with [rax = 0], from the word [p]. *)
Definition __find_first (rax : Z) (ws : list Z) (p size : Z) : outcome Z :=
  let size := Z.shiftr (u64 (size + 63)) 6 in
  if size =? 0 then Ret 0 else
  r ← scasq rax ws p (Z.to_nat size);
  match r with
  | None => Ret (64 * size)
  | Some i => w ← aget ws i; Ret (bsf (Z.lxor rax w) + 64 * (i - p))
  end.

Definition find_first_zero_bit (ws : list Z) (size : Z) : outcome Z := __find_first ones64 ws 0 size.

Definition find_first_bit (ws : list Z) (size : Z) : outcome Z := __find_first 0 ws 0 size.

(** [find_next_zero_bit] ([rax = -1]) and [find_next_bit] ([rax = 0]). *)
Definition find_next (rax : Z) (ws : list Z) (size offset : Z) : outcome Z :=
  let p := Z.shiftr offset 6 in
  let bit := Z.land offset 63 in
  let rest set p := res ← __find_first rax ws p (u64 (size - 64 * p)); Ret (offset + set + res) in
  if negb (bit =? 0) then
    w ← aget ws p;
    let x := Z.lxor rax (Z.shiftr w bit) in
    let set := if x =? 0 then 64 else bsf x in
    if set <? 64 - bit then Ret (set + offset) else rest (64 - bit) (p + 1)
  else rest 0 p.

Definition find_next_zero_bit (ws : list Z) (size offset : Z) : outcome Z := find_next ones64 ws size offset.

Definition find_next_bit (ws : list Z) (size offset : Z) : outcome Z := find_next 0 ws size offset.

(** ** Single bits *)

Definition set_bit (nr : Z) (ws : list Z) : outcome (list Z) :=
  w ← aget ws (Z.shiftr nr 6); aset ws (Z.shiftr nr 6) (Z.setbit w (Z.land nr 63)).

Definition clear_bit (nr : Z) (ws : list Z) : outcome (list Z) :=
  w ← aget ws (Z.shiftr nr 6); aset ws (Z.shiftr nr 6) (Z.clearbit w (Z.land nr 63)).

Definition test_bit (nr : Z) (ws : list Z) : outcome bool :=
  w ← aget ws (Z.shiftr nr 6); Ret (Z.testbit w (Z.land nr 63)).

(** The old value and the array with the bit set. *)
Definition test_and_set_bit (nr : Z) (ws : list Z) : outcome (bool * list Z) :=
  old ← test_bit nr ws; ws ← set_bit nr ws; Ret (old, ws).

(** ** Meaning *)

Definition is_word (w : Z) : Prop := 0 ≤ w < 2 ^ 64.

(** Bit [k] of an array. *)
Definition bit_at (ws : list Z) (k : Z) : bool :=
  Z.testbit (default 0 (ws !! Z.to_nat (k / 64))) (k mod 64).

(** The bits a search looks for: the ones that differ from [rax]. *)
Definition hit (rax : Z) (ws : list Z) (k : Z) : bool := xorb (Z.testbit rax (k mod 64)) (bit_at ws k).

(** ** Lemmas *)

Lemma bsf_from_spec n i x :
  let r := bsf_from n i x in
  i ≤ r ≤ i + Z.of_nat n ∧ (∀ j, i ≤ j < r → Z.testbit x j = false) ∧
  (r < i + Z.of_nat n → Z.testbit x r = true).
Proof.
  revert i. induction n as [|n IH]; intros i; cbn [bsf_from].
  - split_and!; intros; lia.
  - destruct (Z.testbit x i) eqn:E.
    + split_and!; intros; lia || done.
    + destruct (IH (i + 1)) as (H1 & H2 & H3). cbv zeta in *. split_and!; [lia|lia| |].
      * intros j Hj. destruct (decide (j = i)) as [->|]; [done|]. apply H2. lia.
      * intros. apply H3. lia.
Qed.

Lemma testbit_ones64 j : 0 ≤ j < 64 → Z.testbit ones64 j = true.
Proof. intros. change ones64 with (Z.ones 64). by apply Z.ones_spec_low. Qed.

Lemma word_testbit_high w j : is_word w → 64 ≤ j → Z.testbit w j = false.
Proof.
  intros Hw Hj. unfold is_word in Hw. destruct (decide (w = 0)) as [->|]; [apply Z.bits_0|].
  apply Z.bits_above_log2; [lia|]. assert (Z.log2 w < 64) by (apply Z.log2_lt_pow2; lia). lia.
Qed.

(** A word that is not [rax] has a hit, and [bsf] finds the first one. *)
Lemma bsf_word x :
  is_word x → x ≠ 0 → 0 ≤ bsf x < 64 ∧ Z.testbit x (bsf x) = true ∧ ∀ j, 0 ≤ j < bsf x → Z.testbit x j = false.
Proof.
  intros Hx Hne. destruct (bsf_from_spec 64 0 x) as (H1 & H2 & H3). fold (bsf x) in *.
  change (Z.of_nat 64) with 64 in *.
  destruct (decide (bsf x = 64)) as [E|E]; [|split_and!; auto with lia].
  exfalso. apply Hne. apply Z.bits_inj'. intros j Hj. rewrite Z.bits_0.
  destruct (decide (j < 64)); [apply H2; lia|]. by apply word_testbit_high; [|lia].
Qed.

Lemma is_word_lxor a b : is_word a → is_word b → is_word (Z.lxor a b).
Proof.
  intros Ha Hb. assert (Z.lxor a b = Z.lxor a b mod 2 ^ 64) as ->; [|apply Z.mod_pos_bound; lia].
  apply Z.bits_inj'. intros j Hj. destruct (decide (j < 64)).
  - by rewrite Z.mod_pow2_bits_low.
  - rewrite Z.mod_pow2_bits_high, Z.lxor_spec, !word_testbit_high by (done || lia). done.
Qed.

Lemma is_word_lookup ws i w : Forall is_word ws → ws !! i = Some w → is_word w.
Proof. intros H ?. by eapply Forall_lookup_1. Qed.

Lemma bit_at_word ws p j :
  0 ≤ p → 0 ≤ j < 64 → bit_at ws (64 * p + j) = Z.testbit (default 0 (ws !! Z.to_nat p)) j.
Proof.
  intros. unfold bit_at. rewrite (Z.mul_comm 64), Z.div_add_l, Z.div_small, Z.add_0_r by lia.
  by rewrite Z.add_comm, Z.mod_add, Z.mod_small by lia.
Qed.

Lemma hit_word rax ws p w j :
  ws !! Z.to_nat p = Some w → 0 ≤ p → 0 ≤ j < 64 →
  hit rax ws (64 * p + j) = Z.testbit (Z.lxor rax w) j.
Proof.
  intros Hw Hp Hj. unfold hit. rewrite bit_at_word by done. rewrite Hw, Z.lxor_spec. simpl.
  by rewrite Z.add_comm, Z.mul_comm, Z.mod_add, Z.mod_small by lia.
Qed.

(** What a search from bit [a] to bit [e] returns: the first hit, or [e]. *)
Definition first_hit (rax : Z) (ws : list Z) (a e r : Z) : Prop :=
  a ≤ r ≤ e ∧ (∀ k, a ≤ k < r → hit rax ws k = false) ∧ (r < e → hit rax ws r = true).

Lemma first_hit_unique rax ws a e r r' : first_hit rax ws a e r → first_hit rax ws a e r' → r = r'.
Proof.
  intros (H1 & H2 & H3) (H1' & H2' & H3'). destruct (Z.lt_trichotomy r r') as [Hlt|[?|Hlt]]; [|done|].
  - assert (hit rax ws r = true) by (apply H3; lia). rewrite H2' in * by lia. done.
  - assert (hit rax ws r' = true) by (apply H3'; lia). rewrite H2 in * by lia. done.
Qed.

Lemma scasq_spec rax ws p n :
  0 ≤ p → p + Z.of_nat n ≤ Z.of_nat (length ws) →
  ∃ o, scasq rax ws p n = Ret o ∧
    match o with
    | None => ∀ i, p ≤ i < p + Z.of_nat n → ws !! Z.to_nat i = Some rax
    | Some q => p ≤ q < p + Z.of_nat n ∧ (∀ i, p ≤ i < q → ws !! Z.to_nat i = Some rax) ∧
                ∃ w, ws !! Z.to_nat q = Some w ∧ w ≠ rax
    end.
Proof.
  revert p. induction n as [|n IH]; intros p Hp Hl; cbn [scasq].
  - exists None. split; [done|]. intros; lia.
  - destruct (aget_in ws p) as (w & -> & Hw); [lia|]. cbn [mbind outcome_bind].
    destruct (Z.eqb_spec w rax) as [->|Hne].
    + destruct (IH (p + 1)) as (o & -> & Ho); [lia|lia|]. exists o. split; [done|].
      assert (∀ i (Q : Z → Prop), (∀ i, p + 1 ≤ i ∧ Q i → ws !! Z.to_nat i = Some rax) →
        p ≤ i ∧ Q i → ws !! Z.to_nat i = Some rax) as Hext.
      { intros i Q HQ [Hi1 Hi2]. destruct (decide (i = p)) as [->|]; [done|]. apply HQ. split; [lia|done]. }
      destruct o as [q|].
      * destruct Ho as (Hq & Hb & Hw'). split_and!; [lia|lia| |done].
        intros i Hi. apply (Hext i (λ i, i < q)); [|lia]. intros ? []. by apply Hb.
      * intros i Hi. apply (Hext i (λ i, i < p + Z.of_nat (S n))); [|lia].
        intros ? []. apply Ho. lia.
    + exists (Some p). split; [done|]. split_and!; [lia|lia|intros; lia|]. by exists w.
Qed.

(** No hits in words equal to [rax]. *)
Lemma no_hit_words rax ws p q k :
  (∀ i, p ≤ i < q → ws !! Z.to_nat i = Some rax) → 0 ≤ p → 64 * p ≤ k < 64 * q → hit rax ws k = false.
Proof.
  intros H Hp Hk. rewrite (Z.div_mod k 64) by lia. pose proof (Z.mod_pos_bound k 64).
  assert (p ≤ k / 64 < q) by (Z.div_mod_to_equations; lia).
  rewrite (hit_word rax ws (k / 64) rax) by (apply H || lia; lia). by rewrite Z.lxor_nilpotent, Z.bits_0.
Qed.

Lemma find_first_spec rax ws p size :
  is_word rax → Forall is_word ws → 0 ≤ p → 0 ≤ size < 2 ^ 63 → p + (size + 63) / 64 ≤ Z.of_nat (length ws) →
  ∃ r, __find_first rax ws p size = Ret r ∧
    first_hit rax ws (64 * p) (64 * (p + (size + 63) / 64)) (64 * p + r).
Proof.
  intros Hr Hws Hp Hs Hl. unfold __find_first. rewrite (wrapu_small 64), Z.shiftr_div_pow2 by lia.
  change (2 ^ 6) with 64. set (n := (size + 63) / 64) in *. assert (0 ≤ n) by (apply Z.div_pos; lia).
  destruct (Z.eqb_spec n 0) as [E|E].
  { exists 0. split; [done|]. split_and!; intros; lia. }
  destruct (scasq_spec rax ws p (Z.to_nat n)) as (o & -> & Ho); [lia|lia|]. rewrite Z2Nat.id in Ho by lia.
  cbn [mbind outcome_bind]. destruct o as [q|].
  - destruct Ho as (Hq & Hb & w & Hw & Hne). rewrite (aget_lookup _ _ w) by (done || lia).
    cbn [mbind outcome_bind]. eexists. split; [done|].
    assert (is_word (Z.lxor rax w)) as Hx by (apply is_word_lxor; [done|by eapply is_word_lookup]).
    destruct (bsf_word _ Hx) as (B1 & B2 & B3); [by rewrite Z.lxor_eq_0_iff|].
    replace (64 * p + (bsf (Z.lxor rax w) + 64 * (q - p))) with (64 * q + bsf (Z.lxor rax w)) by lia.
    split_and!; [lia|lia| |].
    + intros k Hk. destruct (decide (k < 64 * q)); [apply (no_hit_words rax ws p q); done || lia|].
      replace k with (64 * q + (k - 64 * q)) by lia. rewrite (hit_word _ _ _ w) by (done || lia).
      apply B3. lia.
    + intros _. by rewrite (hit_word _ _ _ w) by (done || lia).
  - exists (64 * n). split; [done|]. split_and!; [lia|lia| |intros; lia].
    intros k Hk. apply (no_hit_words rax ws p (p + n)); done || lia.
Qed.

(** The two searches: all bits of [rax] are the same. *)
Definition uniform (rax : Z) : Prop := rax = 0 ∨ rax = ones64.

Lemma uniform_word rax : uniform rax → is_word rax.
Proof. intros [-> | ->]; by vm_compute. Qed.

Lemma uniform_testbit rax i j : uniform rax → 0 ≤ i < 64 → 0 ≤ j < 64 → Z.testbit rax i = Z.testbit rax j.
Proof. intros [-> | ->] Hi Hj; [by rewrite !Z.bits_0|by rewrite !testbit_ones64]. Qed.

Lemma find_next_spec rax ws size offset :
  uniform rax → Forall is_word ws → 0 ≤ offset ≤ size → size < 2 ^ 63 →
  (size + 63) / 64 ≤ Z.of_nat (length ws) →
  ∃ r, find_next rax ws size offset = Ret r ∧ first_hit rax ws offset (64 * ((size + 63) / 64)) r.
Proof.
  intros Hu Hws Ho Hs Hl. pose proof (uniform_word rax Hu) as Hr. unfold find_next.
  rewrite Z.shiftr_div_pow2, (land_ones_mod offset 6) by (done || lia). change (2 ^ 6) with 64.
  set (p := offset / 64). set (b := offset mod 64). set (W := (size + 63) / 64) in *.
  assert (offset = 64 * p + b ∧ 0 ≤ b < 64 ∧ 0 ≤ p) as (Eo & Hb & Hp)
    by (unfold p, b; Z.div_mod_to_equations; lia).
  assert (64 * W ≤ size + 63 < 64 * W + 64) as HW by (unfold W; Z.div_mod_to_equations; lia).
  clearbody p b W.
  assert (∀ q, 0 ≤ q → 0 ≤ size - 64 * q → ∃ r, __find_first rax ws q (u64 (size - 64 * q)) = Ret r ∧
    first_hit rax ws (64 * q) (64 * W) (64 * q + r)) as Hff.
  { intros q Hq Hsq. assert ((size - 64 * q + 63) / 64 = W - q) as E
      by (Z.div_mod_to_equations; lia).
    rewrite (wrapu_small 64) by lia. destruct (find_first_spec rax ws q (size - 64 * q)) as (r & -> & Hf);
      [done|done|done|lia|lia|]. exists r. split; [done|]. rewrite E in Hf. by replace (q + (W - q)) with W in Hf by lia. }
  destruct (Z.eqb_spec b 0) as [E0|E0]; cbn [negb].
  { destruct (Hff p) as (r & -> & Hf); [done|lia|]. cbn [mbind outcome_bind]. eexists. split; [done|].
    replace offset with (64 * p) by lia. by rewrite Z.add_0_r. }
  assert (p < W) by lia.
  destruct (aget_in ws p) as (w & -> & Hw); [lia|]. cbn [mbind outcome_bind].
  set (x := Z.lxor rax (Z.shiftr w b)).
  assert (∀ j, 0 ≤ j < 64 - b → Z.testbit x j = hit rax ws (offset + j)) as Hx.
  { intros j Hj. replace (offset + j) with (64 * p + (b + j)) by lia.
    rewrite (hit_word _ _ _ w) by (done || lia). unfold x. rewrite !Z.lxor_spec, Z.shiftr_spec by lia.
    rewrite (uniform_testbit rax j (b + j)) by (done || lia). by rewrite (Z.add_comm j). }
  assert (∃ s, (if x =? 0 then 64 else bsf x) = s ∧ 0 ≤ s ≤ 64 ∧ (∀ j, 0 ≤ j < s → Z.testbit x j = false) ∧
    (s < 64 → Z.testbit x s = true)) as (s & -> & Hs1 & Hs2 & Hs3).
  { destruct (bsf_from_spec 64 0 x) as (H1 & H2 & H3). fold (bsf x) in *. change (Z.of_nat 64) with 64 in *.
    destruct (Z.eqb_spec x 0) as [->|]; eexists; (split; [done|]); split_and!; auto with lia. }
  destruct (Z.ltb_spec s (64 - b)).
  { eexists. split; [done|]. split_and!; [lia|lia| |].
    - intros k Hk. replace k with (offset + (k - offset)) by lia. rewrite <- Hx by lia. apply Hs2. lia.
    - intros _. rewrite Z.add_comm, <- Hx by lia. apply Hs3. lia. }
  assert (∀ k, offset ≤ k < 64 * (p + 1) → hit rax ws k = false) as Hnone.
  { intros k Hk. replace k with (offset + (k - offset)) by lia. rewrite <- Hx by lia. apply Hs2. lia. }
  destruct (decide (0 ≤ size - 64 * (p + 1))) as [Hge|Hlt].
  - destruct (Hff (p + 1)) as (r & -> & Hf1 & Hf2 & Hf3); [lia|done|]. cbn [mbind outcome_bind].
    eexists. split; [done|]. replace (offset + (64 - b) + r) with (64 * (p + 1) + r) by lia.
    split_and!; [lia|lia| |done]. intros k Hk. destruct (decide (k < 64 * (p + 1))); [apply Hnone|apply Hf2]; lia.
  - assert (W = p + 1) as EW by lia.
    unfold __find_first. rewrite wrapu_add_l, (wrapu_small 64), Z.shiftr_div_pow2 by lia.
    change (2 ^ 6) with 64. rewrite Z.div_small by lia. cbn [Z.eqb mbind outcome_bind].
    eexists. split; [done|]. split_and!; [lia|lia| |intros; lia]. intros k Hk. apply Hnone. lia.
Qed.

(** ** Single bits *)

Lemma shiftr6 nr : Z.shiftr nr 6 = nr / 64.
Proof. by rewrite Z.shiftr_div_pow2. Qed.

Lemma land63 nr : Z.land nr 63 = nr mod 64.
Proof. by apply (land_ones_mod nr 6). Qed.

Lemma bit_index (ws : list Z) nr :
  0 ≤ nr < 64 * Z.of_nat (length ws) → 0 ≤ nr / 64 < Z.of_nat (length ws) ∧ 0 ≤ nr mod 64 < 64.
Proof. intros. Z.div_mod_to_equations. lia. Qed.

Lemma test_bit_spec ws nr : 0 ≤ nr < 64 * Z.of_nat (length ws) → test_bit nr ws = Ret (bit_at ws nr).
Proof.
  intros H. destruct (bit_index _ _ H) as [H1 H2]. unfold test_bit. rewrite shiftr6, land63.
  destruct (aget_in ws (nr / 64)) as (w & -> & Hw); [done|]. unfold bit_at. by rewrite Hw.
Qed.

(** Replacing one word by one that differs in one bit. *)
Lemma bit_at_update ws nr w w' v k :
  0 ≤ nr < 64 * Z.of_nat (length ws) → ws !! Z.to_nat (nr / 64) = Some w →
  (∀ j, 0 ≤ j < 64 → Z.testbit w' j = if decide (j = nr mod 64) then v else Z.testbit w j) → 0 ≤ k →
  bit_at (<[Z.to_nat (nr / 64) := w']> ws) k = if decide (k = nr) then v else bit_at ws k.
Proof.
  intros H Hw Hw' Hk. destruct (bit_index _ _ H) as [H1 H2]. unfold bit_at.
  pose proof (Z.mod_pos_bound k 64). assert (0 ≤ k / 64) by (apply Z.div_pos; lia).
  destruct (decide (k / 64 = nr / 64)) as [E|E].
  - rewrite E, list_lookup_insert_eq by lia. simpl. rewrite Hw', Hw by lia. simpl.
    destruct (decide (k = nr)) as [->|Hne]; [by rewrite decide_True|].
    rewrite decide_False; [done|]. intros E2. apply Hne. rewrite (Z.div_mod k 64), (Z.div_mod nr 64) by lia. lia.
  - rewrite list_lookup_insert_ne by lia. rewrite decide_False; [done|]. by intros ->.
Qed.

Lemma is_word_setbit w j : is_word w → 0 ≤ j < 64 → is_word (Z.setbit w j).
Proof.
  intros Hw Hj. assert (Z.setbit w j = Z.setbit w j mod 2 ^ 64) as ->; [|apply Z.mod_pos_bound; lia].
  apply Z.bits_inj'. intros i Hi. destruct (decide (i < 64)).
  - by rewrite Z.mod_pow2_bits_low.
  - rewrite Z.mod_pow2_bits_high, Z.setbit_neq, word_testbit_high by (done || lia). done.
Qed.

Lemma is_word_clearbit w j : is_word w → 0 ≤ j < 64 → is_word (Z.clearbit w j).
Proof.
  intros Hw Hj. assert (Z.clearbit w j = Z.clearbit w j mod 2 ^ 64) as ->; [|apply Z.mod_pos_bound; lia].
  apply Z.bits_inj'. intros i Hi. destruct (decide (i < 64)).
  - by rewrite Z.mod_pow2_bits_low.
  - rewrite Z.mod_pow2_bits_high, Z.clearbit_neq, word_testbit_high by (done || lia). done.
Qed.

(** The array with bit [nr] set to [v]. *)
Definition updated (ws : list Z) (nr : Z) (v : bool) (ws' : list Z) : Prop :=
  length ws' = length ws ∧ Forall is_word ws' ∧
  ∀ k, 0 ≤ k → bit_at ws' k = if decide (k = nr) then v else bit_at ws k.

Lemma set_bit_spec ws nr :
  Forall is_word ws → 0 ≤ nr < 64 * Z.of_nat (length ws) → ∃ ws', set_bit nr ws = Ret ws' ∧ updated ws nr true ws'.
Proof.
  intros Hws H. destruct (bit_index _ _ H) as [H1 H2]. unfold set_bit. rewrite shiftr6, land63.
  destruct (aget_in ws (nr / 64)) as (w & -> & Hw); [done|]. cbn [mbind outcome_bind].
  rewrite aset_in by done. eexists. split; [done|]. split_and!; [by rewrite length_insert| |].
  - apply Forall_insert; [done|]. apply is_word_setbit; [by eapply is_word_lookup|done].
  - intros k Hk. apply (bit_at_update ws nr w); [done|done| |done]. intros j Hj.
    case_decide as E; [subst j; apply Z.setbit_eq; lia|apply Z.setbit_neq; lia].
Qed.

Lemma clear_bit_spec ws nr :
  Forall is_word ws → 0 ≤ nr < 64 * Z.of_nat (length ws) →
  ∃ ws', clear_bit nr ws = Ret ws' ∧ updated ws nr false ws'.
Proof.
  intros Hws H. destruct (bit_index _ _ H) as [H1 H2]. unfold clear_bit. rewrite shiftr6, land63.
  destruct (aget_in ws (nr / 64)) as (w & -> & Hw); [done|]. cbn [mbind outcome_bind].
  rewrite aset_in by done. eexists. split; [done|]. split_and!; [by rewrite length_insert| |].
  - apply Forall_insert; [done|]. apply is_word_clearbit; [by eapply is_word_lookup|done].
  - intros k Hk. apply (bit_at_update ws nr w); [done|done| |done]. intros j Hj.
    case_decide as E; [subst j; apply Z.clearbit_eq|apply Z.clearbit_neq; lia].
Qed.

Lemma test_and_set_bit_spec ws nr :
  Forall is_word ws → 0 ≤ nr < 64 * Z.of_nat (length ws) →
  ∃ ws', test_and_set_bit nr ws = Ret (bit_at ws nr, ws') ∧ updated ws nr true ws'.
Proof.
  intros Hws H. unfold test_and_set_bit. rewrite test_bit_spec by done. cbn [mbind outcome_bind].
  destruct (set_bit_spec ws nr Hws H) as (ws' & -> & Hu). by exists ws'.
Qed.

(** ** Theorem *)

(** The word-wise searches with their assembly find what a bit-by-bit search
    finds: [find_next_zero_bit] returns the first clear bit and [find_next_bit]
    the first set bit at or after [offset], and the end of the last word of the
    area when there is none. *)
Theorem find_next_bits (ws : list Z) (size offset : Z) :
  Forall is_word ws → 0 ≤ offset ≤ size → size < 2 ^ 63 → (size + 63) / 64 ≤ Z.of_nat (length ws) →
  let e := 64 * ((size + 63) / 64) in
  (∃ r, find_next_zero_bit ws size offset = Ret r ∧ offset ≤ r ≤ e ∧
     (∀ k, offset ≤ k < r → bit_at ws k = true) ∧ (r < e → bit_at ws r = false)) ∧
  (∃ r, find_next_bit ws size offset = Ret r ∧ offset ≤ r ≤ e ∧
     (∀ k, offset ≤ k < r → bit_at ws k = false) ∧ (r < e → bit_at ws r = true)).
Proof.
  intros Hws Ho Hs Hl e. split.
  - destruct (find_next_spec ones64 ws size offset) as (r & Hr & H1 & H2 & H3); [by right|done..|].
    exists r. split_and!; try done; try lia.
    + intros k Hk. specialize (H2 k Hk). unfold hit in H2. rewrite testbit_ones64 in H2 by (apply Z.mod_pos_bound; lia).
      by destruct (bit_at ws k).
    + intros Hr'. specialize (H3 Hr'). unfold hit in H3. rewrite testbit_ones64 in H3 by (apply Z.mod_pos_bound; lia).
      by destruct (bit_at ws r).
  - destruct (find_next_spec 0 ws size offset) as (r & Hr & H1 & H2 & H3); [by left|done..|].
    exists r. split_and!; try done; try lia.
    + intros k Hk. specialize (H2 k Hk). unfold hit in H2. by rewrite Z.bits_0 in H2.
    + intros Hr'. specialize (H3 Hr'). unfold hit in H3. by rewrite Z.bits_0 in H3.
Qed.

Lemma find_next_bits_witness :
  ∃ r, find_next_zero_bit [ones64; 7] 100 3 = Ret r ∧ 3 ≤ r ≤ 128.
Proof.
  destruct (find_next_bits [ones64; 7] 100 3) as [(r & Hr & Hb & _) _].
  - repeat constructor; by vm_compute.
  - lia.
  - lia.
  - by vm_compute.
  - by exists r.
Defined.
