(* ===== verification/Pidmap.v ===== *)
(** The process number allocator of [kernel/pid.c]: [alloc_pidmap],
    [free_pidmap] and [next_pidmap] over the bitmap pages of
    [struct pid_namespace].  The allocation of a page and its installation are
    one step: no other allocation comes between them. *)

From S2P Require Import Prelude Bitops.

(** ** State *)

Definition BITS_PER_PAGE : Z := 4096 * 8.

Definition BITS_PER_PAGE_MASK : Z := BITS_PER_PAGE - 1.

Definition RESERVED_PIDS : Z := 300.

Definition PIDMAP_ENTRIES : Z := 128.

Definition PID_MAX_LIMIT : Z := 4 * 1024 * 1024.

(** A page of 512 words, NULL until it is used. *)
Record pidmap := Pidmap { nr_free : Z; page : option (list Z) }.

Record pid_namespace := PidNs { maps : list pidmap; last_pid : Z }.

Definition zero_page : list Z := replicate 512 0.

Definition init_pid_ns : pid_namespace := PidNs (replicate 128 (Pidmap BITS_PER_PAGE None)) 0.

(** [pidmap_init]: the first page, with process number 0 taken. *)
Definition pidmap_init (ns : pid_namespace) : outcome pid_namespace :=
  m ← aget (maps ns) 0;
  ws ← set_bit 0 zero_page;
  ms ← aset (maps ns) 0 (Pidmap (nr_free m - 1) (Some ws));
  Ret (PidNs ms (last_pid ns)).

(** [BITS_PER_PAGE] is an [unsigned long], and so is the division. *)
Definition page_of (pid : Z) : Z := u64 pid / BITS_PER_PAGE.

Definition mk_pid (map off : Z) : Z := map * BITS_PER_PAGE + off.

(** ** Freeing *)

Definition free_pidmap (ns : pid_namespace) (pid : Z) : outcome pid_namespace :=
  let i := page_of pid in
  m ← aget (maps ns) i;
  match page m with
  | None => Undef
  | Some ws =>
    ws ← clear_bit (Z.land pid BITS_PER_PAGE_MASK) ws;
    ms ← aset (maps ns) i (Pidmap (nr_free m + 1) (Some ws));
    Ret (PidNs ms (last_pid ns))
  end.

Section alloc.
Context (pid_max : Z) (kzalloc : Z → bool).

(** The do-while loop on one page: [inl] is the number that was taken, with the
    new page.  [final] is [i == max_scan]. *)
Fixpoint scan_page (fuel : nat) (map : Z) (ws : list Z) (offset pid last : Z) (final : bool)
    : outcome (Z * list Z + list Z) :=
  match fuel with
  | O => NoFuel
  | S fuel =>
    '(old, ws) ← test_and_set_bit offset ws;
    if negb old then Ret (inl (pid, ws)) else
    offset ← find_next_zero_bit ws BITS_PER_PAGE offset;
    let pid := mk_pid map offset in
    if (offset <? BITS_PER_PAGE) && (pid <? pid_max) &&
       (negb final || (pid <? last) || (Z.land (last + 1) BITS_PER_PAGE_MASK =? 0))
    then scan_page fuel map ws offset pid last final
    else Ret (inr ws)
  end.

(** The loop over the pages: [n] iterations are left, this is iteration [i]. *)
Fixpoint alloc_loop (n fuel : nat) (i max_scan last : Z) (ns : pid_namespace) (map offset pid : Z)
    : outcome (Z * pid_namespace) :=
  match n with
  | O => Ret (-1, ns)
  | S n =>
    m ← aget (maps ns) map;
    let '(m, alive) := match page m with
                       | Some _ => (m, true)
                       | None => if kzalloc i then (Pidmap (nr_free m) (Some zero_page), true) else (m, false)
                       end in
    ms ← aset (maps ns) map m;
    let ns := PidNs ms (last_pid ns) in
    if negb alive then Ret (-1, ns) else
    match page m with
    | None => Undef
    | Some ws =>
      r ← (if negb (nr_free m =? 0) then scan_page fuel map ws offset pid last (i =? max_scan)
           else Ret (inr ws));
      match r with
      | inl (pid, ws) =>
        ms ← aset (maps ns) map (Pidmap (nr_free m - 1) (Some ws));
        Ret (pid, PidNs ms pid)
      | inr ws =>
        ms ← aset (maps ns) map (Pidmap (nr_free m) (Some ws));
        let ns := PidNs ms (last_pid ns) in
        if map <? page_of (pid_max - 1)
        then alloc_loop n fuel (i + 1) max_scan last ns (map + 1) 0 (mk_pid (map + 1) 0)
        else if last =? RESERVED_PIDS then Ret (-1, ns)
        else alloc_loop n fuel (i + 1) max_scan last ns 0 RESERVED_PIDS (mk_pid 0 RESERVED_PIDS)
      end
    end
  end.

Definition alloc_pidmap (fuel : nat) (ns : pid_namespace) : outcome (Z * pid_namespace) :=
  let last := last_pid ns in
  let pid := if pid_max <=? last + 1 then RESERVED_PIDS else last + 1 in
  let offset := Z.land pid BITS_PER_PAGE_MASK in
  let map := page_of pid in
  let max_scan := page_of (pid_max + BITS_PER_PAGE - 1) - b2z (offset =? 0) in
  alloc_loop (Z.to_nat (max_scan + 1)) fuel 0 max_scan last ns map offset pid.
End alloc.

(** The pages after [last], in order. *)
Fixpoint next_loop (n : nat) (ns : pid_namespace) (map offset : Z) : outcome Z :=
  match n with
  | O => Ret (-1)
  | S n =>
    m ← aget (maps ns) map;
    match page m with
    | None => next_loop n ns (map + 1) 0
    | Some ws =>
      offset ← find_next_bit ws BITS_PER_PAGE offset;
      if offset <? BITS_PER_PAGE then Ret (mk_pid map offset) else next_loop n ns (map + 1) 0
    end
  end.

Definition next_pidmap (ns : pid_namespace) (last : Z) : outcome Z :=
  let map := page_of (last + 1) in
  next_loop (Z.to_nat (PIDMAP_ENTRIES - map)) ns map (Z.land (last + 1) BITS_PER_PAGE_MASK).

(** ** Meaning *)

Definition in_use (ns : pid_namespace) (pid : Z) : bool :=
  match maps ns !! Z.to_nat (pid / BITS_PER_PAGE) with
  | Some (Pidmap _ (Some ws)) => bit_at ws (pid mod BITS_PER_PAGE)
  | _ => false
  end.

(** The number of clear bits of a page. *)
Definition free_bits (ws : list Z) : Z :=
  cnt (λ k, negb (bit_at ws (Z.of_nat k))) (seq 0 (Z.to_nat BITS_PER_PAGE)).

Definition map_ok (m : pidmap) : Prop :=
  match page m with
  | None => nr_free m = BITS_PER_PAGE
  | Some ws => length ws = 512%nat ∧ Forall is_word ws ∧ nr_free m = free_bits ws
  end.

Record ns_ok (ns : pid_namespace) : Prop := {
  ns_length : length (maps ns) = 128%nat;
  ns_maps : Forall map_ok (maps ns);
  ns_last : 0 ≤ last_pid ns
}.

(** ** Lemmas: pages *)

Lemma land_page pid : Z.land pid BITS_PER_PAGE_MASK = pid mod BITS_PER_PAGE.
Proof. by apply (land_ones_mod pid 15). Qed.

Lemma page_of_small pid : 0 ≤ pid < 2 ^ 64 → page_of pid = pid / BITS_PER_PAGE.
Proof. intros. unfold page_of. by rewrite wrapu_small. Qed.

Lemma cnt_seq_update (f g : nat → bool) k a n :
  (∀ i, i ≠ k → g i = f i) → (a ≤ k < a + n)%nat →
  cnt g (seq a n) = cnt f (seq a n) - b2z (f k) + b2z (g k).
Proof.
  intros Hg. revert a. induction n as [|n IH]; intros a Hk; [lia|]. cbn [seq cnt].
  destruct (decide (a = k)) as [->|Hne].
  - assert (cnt g (seq (S k) n) = cnt f (seq (S k) n)) as ->; [|lia].
    assert (∀ b, (k < b)%nat → cnt g (seq b n) = cnt f (seq b n)) as E; [|apply E; lia].
    clear - Hg. induction n as [|n IH]; intros b Hb; [done|]. cbn [seq cnt]. rewrite Hg, IH by lia. done.
  - rewrite (Hg a), IH by lia. lia.
Qed.

Lemma free_bits_updated ws k v ws' :
  updated ws k v ws' → 0 ≤ k < BITS_PER_PAGE → free_bits ws' = free_bits ws - b2z (negb (bit_at ws k)) + b2z (negb v).
Proof.
  intros (_ & _ & Hu) Hk. unfold free_bits.
  rewrite (cnt_seq_update (λ k, negb (bit_at ws (Z.of_nat k))) _ (Z.to_nat k)).
  - rewrite Z2Nat.id, Hu, decide_True by lia. done.
  - intros i Hi. rewrite Hu by lia. by rewrite decide_False by lia.
  - lia.
Qed.

Lemma free_bits_none ws k :
  free_bits ws = 0 → 0 ≤ k < BITS_PER_PAGE → bit_at ws k = true.
Proof.
  intros H Hk. destruct (bit_at ws k) eqn:E; [done|]. exfalso.
  assert (0 < free_bits ws); [|lia]. apply cnt_pos. exists (Z.to_nat k), (Z.to_nat k).
  split; [apply lookup_seq; lia|]. rewrite Z2Nat.id by lia. by rewrite E.
Qed.

Lemma bit_at_zero_page k : bit_at zero_page k = false.
Proof.
  unfold bit_at, zero_page. destruct (replicate 512 0 !! Z.to_nat (k / 64)) as [w|] eqn:E.
  - apply lookup_replicate in E as [-> _]. apply Z.bits_0.
  - apply Z.bits_0.
Qed.

Lemma zero_page_ok n : n = BITS_PER_PAGE → map_ok (Pidmap n (Some zero_page)).
Proof.
  intros ->. unfold map_ok. cbn [page nr_free]. split_and!; [done|by apply Forall_replicate|].
  unfold free_bits. generalize 0%nat at 1. assert (BITS_PER_PAGE = Z.of_nat (Z.to_nat BITS_PER_PAGE)) as -> by done.
  rewrite Nat2Z.id. generalize (Z.to_nat BITS_PER_PAGE). intros m.
  induction m as [|m IH]; intros a; [done|]. cbn [seq cnt]. rewrite bit_at_zero_page, <- IH. simpl b2z. lia.
Qed.

(** One step of the search on a page. *)
Lemma page_search ws offset :
  length ws = 512%nat → Forall is_word ws → 0 ≤ offset ≤ BITS_PER_PAGE →
  ∃ r, find_next_zero_bit ws BITS_PER_PAGE offset = Ret r ∧ offset ≤ r ≤ BITS_PER_PAGE ∧
    (∀ k, offset ≤ k < r → bit_at ws k = true) ∧ (r < BITS_PER_PAGE → bit_at ws r = false).
Proof.
  intros Hl Hws Ho. destruct (find_next_spec ones64 ws BITS_PER_PAGE offset) as (r & Hr & H1 & H2 & H3);
    [by right|done|done|done|rewrite Hl; done|].
  change (64 * ((BITS_PER_PAGE + 63) / 64)) with BITS_PER_PAGE in *.
  assert (∀ k, hit ones64 ws k = negb (bit_at ws k)) as Hh.
  { intros k. unfold hit. rewrite testbit_ones64 by (apply Z.mod_pos_bound; lia). by destruct (bit_at ws k). }
  exists r. split_and!; [done|lia|lia| |].
  - intros k Hk. specialize (H2 k Hk). rewrite Hh in H2. by destruct (bit_at ws k).
  - intros Hr'. specialize (H3 Hr'). rewrite Hh in H3. by destruct (bit_at ws r).
Qed.

Lemma updated_same ws k ws' : updated ws k true ws' → bit_at ws k = true → ∀ j, 0 ≤ j → bit_at ws' j = bit_at ws j.
Proof. intros (_ & _ & Hu) Hb j Hj. rewrite Hu by done. case_decide; by subst. Qed.

Section scanning.
Context (pid_max : Z) (kzalloc : Z → bool).

(** The condition of the do-while loop for a number on the page. *)
Definition wanted (final : bool) (last pid : Z) : bool :=
  (pid <? pid_max) && (negb final || (pid <? last) || (Z.land (last + 1) BITS_PER_PAGE_MASK =? 0)).

Lemma wanted_mono final last p q : p ≤ q → wanted final last q = true → wanted final last p = true.
Proof.
  unfold wanted. rewrite !andb_true_iff, !orb_true_iff, !Z.ltb_lt. intros Hpq [H1 [[H2|H2]|H2]];
    (split; [lia|]); [left; by left|left; right; lia|by right].
Qed.

Definition same_bits (ws ws' : list Z) : Prop :=
  length ws' = length ws ∧ Forall is_word ws' ∧ ∀ k, 0 ≤ k → bit_at ws' k = bit_at ws k.

Lemma scan_page_spec fuel map ws offset last final :
  length ws = 512%nat → Forall is_word ws → 0 ≤ offset < BITS_PER_PAGE → (2 ≤ fuel)%nat →
  ∃ o, scan_page pid_max fuel map ws offset (mk_pid map offset) last final = Ret o ∧
    match o with
    | inl (p, ws') => ∃ k, offset ≤ k < BITS_PER_PAGE ∧ p = mk_pid map k ∧ bit_at ws k = false ∧
        updated ws k true ws' ∧ (k = offset ∨ p < pid_max)
    | inr ws' => same_bits ws ws' ∧
        ∀ k, offset ≤ k < BITS_PER_PAGE → wanted final last (mk_pid map k) = true → bit_at ws k = true
    end.
Proof.
  intros Hl Hws Ho Hf. destruct fuel as [|[|fuel]]; [lia|lia|]. cbn [scan_page].
  assert (0 ≤ offset < 64 * Z.of_nat (length ws)) as Ho' by (rewrite Hl; unfold BITS_PER_PAGE in Ho; lia).
  destruct (test_and_set_bit_spec ws offset Hws Ho') as (ws1 & -> & Hu). cbn [mbind outcome_bind].
  destruct (bit_at ws offset) eqn:Eb; cbn [negb].
  2:{ eexists. split; [done|]. exists offset. split_and!; done || lia || by left. }
  pose proof (updated_same _ _ _ Hu Eb) as Hsame. destruct Hu as (Hl1 & Hw1 & _).
  destruct (page_search ws1 offset) as (k & -> & Hk & Hset & Hclr); [by rewrite Hl1|done|lia|].
  cbn [mbind outcome_bind].
  assert (∀ j, offset ≤ j < k → bit_at ws j = true) as Hbefore
    by (intros j Hj; rewrite <- Hsame by lia; by apply Hset).
  destruct (Z.ltb_spec k BITS_PER_PAGE) as [Hlt|Hge]; cbn [andb].
  2:{ eexists. split; [done|]. split; [done|]. intros j Hj _. apply Hbefore. lia. }
  specialize (Hclr Hlt). rewrite Hsame in Hclr by lia.
  fold (wanted final last (mk_pid map k)). destruct (wanted final last (mk_pid map k)) eqn:Ew.
  - assert (0 ≤ k < 64 * Z.of_nat (length ws1)) as Hk' by (rewrite Hl1, Hl; unfold BITS_PER_PAGE in *; lia).
    destruct (test_and_set_bit_spec ws1 k Hw1 Hk') as (ws2 & -> & Hl2 & Hw2 & Hb2). cbn [mbind outcome_bind].
    rewrite Hsame, Hclr by lia. cbn [negb]. eexists. split; [done|]. exists k. split_and!; try done; try lia.
    + split_and!; [by rewrite Hl2|done|]. intros j Hj. rewrite Hb2 by done. by rewrite Hsame.
    + apply andb_true_iff in Ew as [Ew%Z.ltb_lt _]. by right.
  - eexists. split; [done|]. split; [done|]. intros j Hj Hw.
    destruct (decide (j < k)); [apply Hbefore; lia|]. exfalso.
    assert (wanted final last (mk_pid map k) = true) as Hw' by (eapply wanted_mono; [|done]; unfold mk_pid; lia).
    congruence.
Qed.

(** ** Lemmas: the loop over the pages *)

Lemma in_use_page ns map k m :
  maps ns !! Z.to_nat map = Some m → 0 ≤ map → 0 ≤ k < BITS_PER_PAGE →
  in_use ns (mk_pid map k) = match page m with Some ws => bit_at ws k | None => false end.
Proof.
  intros Hm Hmap Hk. unfold in_use, mk_pid.
  rewrite Z.div_add_l, Z.div_small, Z.add_0_r, Hm by (unfold BITS_PER_PAGE in *; lia).
  rewrite Z.add_comm, Z.mod_add, Z.mod_small by (done || unfold BITS_PER_PAGE; lia). by destruct m as [n [ws|]].
Qed.

(** Replacing a page. *)
Lemma in_use_insert ns map m p lp :
  0 ≤ map < Z.of_nat (length (maps ns)) → 0 ≤ p →
  in_use (PidNs (<[Z.to_nat map := m]> (maps ns)) lp) p =
    if decide (p / BITS_PER_PAGE = map) then
      match page m with Some ws => bit_at ws (p mod BITS_PER_PAGE) | None => false end
    else in_use ns p.
Proof.
  intros Hmap Hp. unfold in_use. cbn [maps]. assert (0 ≤ p / BITS_PER_PAGE) by (by apply Z.div_pos).
  case_decide as E; [rewrite E, list_lookup_insert_eq by lia; by destruct m as [n [ws|]]|].
  by rewrite list_lookup_insert_ne by lia.
Qed.

Definition same_use (ns ns' : pid_namespace) : Prop := ∀ p, 0 ≤ p → in_use ns' p = in_use ns p.

Lemma same_use_trans a b c : same_use a b → same_use b c → same_use a c.
Proof. intros H1 H2 p Hp. by rewrite H2, H1. Qed.

Lemma free_bits_same ws ws' : (∀ k, 0 ≤ k → bit_at ws' k = bit_at ws k) → free_bits ws' = free_bits ws.
Proof.
  intros H. unfold free_bits. generalize (seq 0 (Z.to_nat BITS_PER_PAGE)). intros l.
  induction l as [|k l IH]; [done|]. cbn [cnt]. by rewrite IH, H by lia.
Qed.

Lemma replace_ok ns map m lp : ns_ok ns → map_ok m → 0 ≤ lp → ns_ok (PidNs (<[Z.to_nat map := m]> (maps ns)) lp).
Proof.
  intros [Hl Hm Hp] Hok Hlp. constructor; cbn [maps last_pid]; [by rewrite length_insert|by apply Forall_insert|done].
Qed.

(** A page with the same bits changes nothing. *)
Lemma replace_same ns map m m' :
  ns_ok ns → 0 ≤ map < 128 → maps ns !! Z.to_nat map = Some m →
  (∀ k, 0 ≤ k → match page m' with Some ws => bit_at ws k | None => false end =
                match page m with Some ws => bit_at ws k | None => false end) →
  same_use ns (PidNs (<[Z.to_nat map := m']> (maps ns)) (last_pid ns)).
Proof.
  intros Hns Hmap Hm Heq p Hp. rewrite in_use_insert by (rewrite ?ns_length by done; lia).
  case_decide as E; [|done]. rewrite Heq by (apply Z.mod_pos_bound; done).
  unfold in_use. rewrite E, Hm. by destruct m as [n [ws|]].
Qed.

(** What one iteration finds on a page that is present. *)
Lemma page_step fuel map m ws offset last final :
  map_ok m → page m = Some ws → 0 ≤ offset < BITS_PER_PAGE → (2 ≤ fuel)%nat →
  ∃ o, (if negb (nr_free m =? 0) then scan_page pid_max fuel map ws offset (mk_pid map offset) last final
        else Ret (inr ws)) = Ret o ∧
    match o with
    | inl (p, ws') => ∃ k, offset ≤ k < BITS_PER_PAGE ∧ p = mk_pid map k ∧ bit_at ws k = false ∧
        updated ws k true ws' ∧ (k = offset ∨ p < pid_max)
    | inr ws' => same_bits ws ws' ∧
        ∀ k, offset ≤ k < BITS_PER_PAGE → wanted final last (mk_pid map k) = true → bit_at ws k = true
    end.
Proof.
  intros Hm Hp Ho Hf. unfold map_ok in Hm. rewrite Hp in Hm. destruct Hm as (Hl & Hw & Hn).
  destruct (Z.eqb_spec (nr_free m) 0) as [E|E]; cbn [negb]; [|by apply scan_page_spec].
  eexists. split; [done|]. split; [done|]. intros k Hk _. apply free_bits_none; [congruence|lia].
Qed.

(** The slots (iteration, page, first offset) the loop goes through. *)
Fixpoint visit (n : nat) (i last map offset : Z) : list (Z * Z * Z) :=
  match n with
  | O => []
  | S n =>
    (i, map, offset) ::
    (if map <? page_of (pid_max - 1) then visit n (i + 1) last (map + 1) 0
     else if last =? RESERVED_PIDS then [] else visit n (i + 1) last 0 RESERVED_PIDS)
  end.

(** All wanted numbers of a slot are in use. *)
Definition slot_full (ns : pid_namespace) (max_scan last : Z) (s : Z * Z * Z) : Prop :=
  let '(i, map, offset) := s in
  ∀ k, offset ≤ k < BITS_PER_PAGE → wanted (i =? max_scan) last (mk_pid map k) = true →
  in_use ns (mk_pid map k) = true.

Definition alloc_result (ns : pid_namespace) (max_scan last : Z) (slots : list (Z * Z * Z)) (r : Z)
    (ns' : pid_namespace) : Prop :=
  ns_ok ns' ∧
  ((r = -1 ∧ same_use ns ns' ∧ last_pid ns' = last_pid ns ∧
    ((∀ j, kzalloc j = true) → Forall (slot_full ns max_scan last) slots)) ∨
   (0 < r < pid_max ∧ in_use ns r = false ∧ last_pid ns' = r ∧
    ∀ p, 0 ≤ p → in_use ns' p = if decide (p = r) then true else in_use ns p)).

(** A result of the rest of the loop is one of the whole. *)
Lemma alloc_result_step ns ns1 max_scan last s slots r ns' :
  same_use ns ns1 → last_pid ns1 = last_pid ns → slot_full ns max_scan last s →
  (∀ i map offset, (i, map, offset) ∈ slots → 0 ≤ map ∧ 0 ≤ offset) →
  alloc_result ns1 max_scan last slots r ns' → alloc_result ns max_scan last (s :: slots) r ns'.
Proof.
  intros Hsame Hlp Hs Hpos [Hok Hr]. split; [done|]. destruct Hr as [(-> & Hsu & Hl & Hfull)|(Hr & Hf & Hl & Hu)].
  - left. split_and!; [done|by eapply same_use_trans|by rewrite Hl|]. intros Hk. constructor; [done|].
    specialize (Hfull Hk). rewrite Forall_forall in *. intros [[i map] offset] Hin k Hk' Hw.
    destruct (Hpos _ _ _ Hin) as [Hmap Hoff]. rewrite <- Hsame; [by apply (Hfull _ Hin)|].
    unfold mk_pid, BITS_PER_PAGE in *. lia.
  - right. split_and!; try lia; try done; [by rewrite <- Hsame by lia|].
    intros p Hp. rewrite Hu by done. by rewrite Hsame.
Qed.

Lemma visit_nonneg n i last map offset j m o :
  0 ≤ map → 0 ≤ offset → (j, m, o) ∈ visit n i last map offset → 0 ≤ m ∧ 0 ≤ o.
Proof.
  revert i map offset. induction n as [|n IH]; intros i map offset Hm Ho Hin; cbn [visit] in Hin; [set_solver|].
  apply elem_of_cons in Hin as [[= -> -> ->]|Hin]; [done|].
  destruct (map <? page_of (pid_max - 1)); [by eapply (IH _ _ _ _ _ Hin)|].
  destruct (last =? RESERVED_PIDS); [set_solver|]. by eapply (IH _ _ _ _ _ Hin).
  Unshelve. all: unfold RESERVED_PIDS; lia.
Qed.

Context (Hmax : RESERVED_PIDS < pid_max ≤ PID_MAX_LIMIT).

Lemma page_of_max : page_of (pid_max - 1) = (pid_max - 1) / BITS_PER_PAGE ∧ 0 ≤ page_of (pid_max - 1) < 128.
Proof.
  unfold RESERVED_PIDS, PID_MAX_LIMIT in Hmax. rewrite page_of_small by lia. split; [done|].
  unfold BITS_PER_PAGE. Z.div_mod_to_equations. lia.
Qed.

(** The page an iteration works on, installed if need be. *)
Definition installed (i : Z) (m : pidmap) : pidmap * bool :=
  match page m with
  | Some _ => (m, true)
  | None => if kzalloc i then (Pidmap (nr_free m) (Some zero_page), true) else (m, false)
  end.

Lemma installed_spec i m m' alive :
  map_ok m → installed i m = (m', alive) →
  map_ok m' ∧ (kzalloc i = true → alive = true) ∧ (alive = true → is_Some (page m')) ∧
  ∀ k, 0 ≤ k → match page m' with Some ws => bit_at ws k | None => false end =
                match page m with Some ws => bit_at ws k | None => false end.
Proof.
  intros Hok. unfold installed. destruct m as [n [ws|]]; cbn [page nr_free]; [by intros [= <- <-]|].
  destruct (kzalloc i) eqn:E; intros [= <- <-].
  - split_and!; [by apply zero_page_ok|done|by eexists|]. intros k _. apply bit_at_zero_page.
  - by split_and!.
Qed.

(** Taking a free number of a page. *)
Lemma taken_spec ns map m ws k ws' :
  ns_ok ns → 0 ≤ map < 128 → maps ns !! Z.to_nat map = Some m → map_ok m → page m = Some ws →
  0 ≤ k < BITS_PER_PAGE → bit_at ws k = false → updated ws k true ws' →
  let ns' := PidNs (<[Z.to_nat map := Pidmap (nr_free m - 1) (Some ws')]> (maps ns)) (mk_pid map k) in
  ns_ok ns' ∧ in_use ns (mk_pid map k) = false ∧
  ∀ p, 0 ≤ p → in_use ns' p = if decide (p = mk_pid map k) then true else in_use ns p.
Proof.
  intros Hns Hmap Hm Hok Hws Hk Hfree Hu ns'. pose proof (ns_length _ Hns) as Hlen.
  unfold map_ok in Hok. rewrite Hws in Hok. destruct Hok as (Hl & Hw & Hn). split_and!.
  - apply replace_ok; [done| |unfold mk_pid, BITS_PER_PAGE in *; lia].
    unfold map_ok. cbn [page nr_free]. pose proof Hu as (Hl' & Hw' & _).
    split_and!; [congruence|done|]. rewrite (free_bits_updated _ _ _ _ Hu), Hfree, Hn by lia. simpl. lia.
  - by rewrite (in_use_page ns map k m), Hws by (done || lia).
  - intros q Hq. unfold ns'. rewrite in_use_insert by lia. cbn [page]. destruct Hu as (_ & _ & Hu).
    case_decide as E.
    + rewrite Hu by (apply Z.mod_pos_bound; done).
      assert (q = mk_pid map (q mod BITS_PER_PAGE)) as Eq
        by (unfold mk_pid; rewrite <- E, Z.mul_comm; by apply Z.div_mod).
      assert (in_use ns q = bit_at ws (q mod BITS_PER_PAGE)) as ->.
      { unfold in_use. rewrite E, Hm. destruct m. cbn [page] in Hws. by rewrite Hws. }
      destruct (decide (q mod BITS_PER_PAGE = k)) as [Ek|Ek];
        [rewrite decide_True; [done|by rewrite Eq, Ek]|].
      rewrite decide_False; [done|]. intros E2. apply Ek.
      assert (mk_pid map (q mod BITS_PER_PAGE) = mk_pid map k) as E3 by congruence. unfold mk_pid in E3. lia.
    + rewrite decide_False; [done|]. intros ->. apply E. unfold mk_pid.
      rewrite Z.div_add_l, Z.div_small by (done || lia). lia.
Qed.

(** Putting back a page with the same bits. *)
Lemma kept_spec ns map m ws ws' :
  ns_ok ns → 0 ≤ map < 128 → maps ns !! Z.to_nat map = Some m → map_ok m → page m = Some ws → same_bits ws ws' →
  let ns' := PidNs (<[Z.to_nat map := Pidmap (nr_free m) (Some ws')]> (maps ns)) (last_pid ns) in
  ns_ok ns' ∧ same_use ns ns'.
Proof.
  intros Hns Hmap Hm Hok Hws (Hl' & Hw' & Hb') ns'. unfold map_ok in Hok. rewrite Hws in Hok.
  destruct Hok as (Hl & Hw & Hn). split.
  - apply replace_ok; [done| |apply Hns]. unfold map_ok. cbn [page nr_free].
    split_and!; [congruence|done|]. by rewrite Hn, (free_bits_same ws ws').
  - apply (replace_same ns map m); [done|lia|done|]. intros j Hj. cbn [page]. rewrite Hws. by apply Hb'.
Qed.

Lemma next_page_pid map : 0 ≤ map < page_of (pid_max - 1) → 0 < mk_pid (map + 1) 0 < pid_max.
Proof.
  intros H. destruct page_of_max as [E _]. rewrite E in H. unfold mk_pid, BITS_PER_PAGE in *.
  Z.div_mod_to_equations. lia.
Qed.

Lemma alloc_loop_spec n fuel i max_scan last ns map offset :
  ns_ok ns → 0 ≤ map ≤ page_of (pid_max - 1) → 0 ≤ offset < BITS_PER_PAGE →
  0 < mk_pid map offset < pid_max → (2 ≤ fuel)%nat →
  ∃ r ns', alloc_loop pid_max kzalloc n fuel i max_scan last ns map offset (mk_pid map offset) = Ret (r, ns') ∧
    alloc_result ns max_scan last (visit n i last map offset) r ns'.
Proof.
  revert i ns map offset. induction n as [|n IH]; intros i ns map offset Hns Hmap Ho Hpid Hf;
    cbn [alloc_loop visit].
  { exists (-1), ns. split; [done|]. split; [done|]. left. by split_and!. }
  destruct page_of_max as [_ Hpm]. pose proof (ns_length _ Hns) as Hlen.
  destruct (aget_in (maps ns) map) as (m & -> & Hm); [lia|]. cbn [mbind outcome_bind].
  assert (map_ok m) as Hmok by (eapply Forall_lookup_1; [apply Hns|done]).
  fold (installed i m). destruct (installed i m) as [m1 alive] eqn:Ei.
  destruct (installed_spec i m m1 alive Hmok Ei) as (Hok1 & Hk & Hpage & Hbits).
  rewrite aset_in by lia. cbn [mbind outcome_bind].
  set (ns1 := PidNs (<[Z.to_nat map := m1]> (maps ns)) (last_pid ns)).
  assert (ns_ok ns1) as Hns1 by (apply replace_ok; [done|done|apply Hns]).
  assert (same_use ns ns1) as Hs1 by (by eapply replace_same; [..|lia|done|]).
  destruct alive; cbn [negb].
  2:{ exists (-1), ns1. split; [done|]. split; [done|]. left. split_and!; try done.
      intros Hall. by specialize (Hk (Hall i)). }
  destruct (Hpage eq_refl) as [ws Hws]. rewrite Hws.
  assert (maps ns1 !! Z.to_nat map = Some m1) as Hm1 by (unfold ns1; cbn [maps]; apply list_lookup_insert_eq; lia).
  destruct (page_step fuel map m1 ws offset last (i =? max_scan) Hok1 Hws Ho Hf) as (o & -> & Hres).
  cbn [mbind outcome_bind]. pose proof (ns_length _ Hns1) as Hlen1. destruct o as [[p ws']|ws'].
  - destruct Hres as (k & Hk' & -> & Hfree & Hu & Hp). rewrite aset_in by lia. cbn [mbind outcome_bind].
    assert (0 < mk_pid map k < pid_max) as Hr by (destruct Hp as [->|?]; unfold mk_pid in *; lia).
    destruct (taken_spec ns1 map m1 ws k ws') as (Hok' & Hf' & Hu'); try done; [lia|lia|].
    eexists _, _. split; [done|]. split; [done|]. right. split_and!; try lia; try done.
    + by rewrite <- Hs1 by lia.
    + intros q Hq. rewrite Hu' by done. by rewrite Hs1.
  - destruct Hres as [Hsb Hfull]. rewrite aset_in by lia. cbn [mbind outcome_bind].
    destruct (kept_spec ns1 map m1 ws ws') as [Hns2 Hs2]; try done; [lia|].
    set (ns2 := PidNs (<[Z.to_nat map := Pidmap (nr_free m1) (Some ws')]> (maps ns1)) (last_pid ns1)) in *.
    assert (same_use ns ns2) as Hs by (by eapply same_use_trans).
    assert (slot_full ns max_scan last (i, map, offset)) as Hslot.
    { intros j Hj Hwj. rewrite <- Hs1 by (unfold mk_pid, BITS_PER_PAGE in *; lia).
      rewrite (in_use_page ns1 map j m1), Hws by (done || lia). by apply Hfull. }
    destruct (Z.ltb_spec map (page_of (pid_max - 1))) as [Hlt|Hge]; [|destruct (Z.eqb_spec last RESERVED_PIDS)].
    + destruct (IH (i + 1) ns2 (map + 1) 0) as (r & ns' & -> & Hr); [done|lia|done|apply next_page_pid; lia|done|].
      exists r, ns'. split; [done|]. eapply alloc_result_step; [done|done|done| |done].
      intros ? ? ? ?. eapply visit_nonneg; [| |done]; lia.
    + exists (-1), ns2. split; [done|]. split; [done|]. left. split_and!; try done. by repeat constructor.
    + destruct (IH (i + 1) ns2 0 RESERVED_PIDS) as (r & ns' & -> & Hr);
        [done|lia|done|unfold mk_pid; rewrite Z.mul_0_l; unfold RESERVED_PIDS in *; lia|done|].
      exists r, ns'. split; [done|]. eapply alloc_result_step; [done|done|done| |done].
      intros ? ? ? ?. eapply visit_nonneg; [| |done]; done.
Qed.

(** ** Lemmas: every page is visited *)

Lemma visit_forward n i last map offset j :
  0 ≤ j ≤ page_of (pid_max - 1) - map → j < Z.of_nat n →
  (i + j, map + j, if decide (j = 0) then offset else 0) ∈ visit n i last map offset.
Proof.
  revert i map offset j. induction n as [|n IH]; intros i map offset j Hj Hn; [lia|]. cbn [visit].
  destruct (decide (j = 0)) as [->|Hne]; [rewrite !Z.add_0_r; left|]. right.
  destruct (Z.ltb_spec map (page_of (pid_max - 1))); [|lia].
  specialize (IH (i + 1) (map + 1) 0 (j - 1)).
  replace (i + 1 + (j - 1)) with (i + j) in IH by lia. replace (map + 1 + (j - 1)) with (map + j) in IH by lia.
  replace (if decide (j - 1 = 0) then 0 else 0) with 0 in IH by (by case_decide). apply IH; lia.
Qed.

Lemma visit_wrapped n i last map offset j :
  last ≠ RESERVED_PIDS → map ≤ page_of (pid_max - 1) → 0 ≤ j ≤ page_of (pid_max - 1) →
  page_of (pid_max - 1) - map + 1 + j < Z.of_nat n →
  (i + (page_of (pid_max - 1) - map) + 1 + j, j, if decide (j = 0) then RESERVED_PIDS else 0)
    ∈ visit n i last map offset.
Proof.
  intros Hl. revert i map offset. induction n as [|n IH]; intros i map offset Hm Hj Hn; [lia|]. cbn [visit]. right.
  destruct (Z.ltb_spec map (page_of (pid_max - 1))).
  - replace (i + (page_of (pid_max - 1) - map)) with (i + 1 + (page_of (pid_max - 1) - (map + 1))) by lia.
    apply IH; lia.
  - destruct (Z.eqb_spec last RESERVED_PIDS); [done|].
    replace (i + (page_of (pid_max - 1) - map) + 1 + j) with (i + 1 + j) by lia.
    pose proof (visit_forward n (i + 1) last 0 RESERVED_PIDS j) as Hv. rewrite Z.add_0_l in Hv. apply Hv; lia.
Qed.

Definition first_pid (last : Z) : Z := if pid_max <=? last + 1 then RESERVED_PIDS else last + 1.

Lemma first_pid_range last : 0 ≤ last → 0 < first_pid last < pid_max ∧ (first_pid last = last + 1 ∨ first_pid last = RESERVED_PIDS).
Proof.
  intros. unfold first_pid, RESERVED_PIDS in *. destruct (Z.leb_spec pid_max (last + 1)); (split; [lia|]); auto.
Qed.

(** The slot that covers a number. *)
Lemma visit_covers last p :
  0 ≤ last → RESERVED_PIDS ≤ p < pid_max → p ≠ last →
  let s := first_pid last in
  let max_scan := page_of (pid_max + BITS_PER_PAGE - 1) - b2z (s mod BITS_PER_PAGE =? 0) in
  ∃ i offset, (i, p / BITS_PER_PAGE, offset) ∈
      visit (Z.to_nat (max_scan + 1)) 0 last (s / BITS_PER_PAGE) (s mod BITS_PER_PAGE) ∧
    offset ≤ p mod BITS_PER_PAGE ∧ wanted (i =? max_scan) last p = true.
Proof.
  intros Hlast Hp Hne s max_scan. destruct (first_pid_range last Hlast) as [Hs Hs']. fold s in Hs, Hs'.
  destruct page_of_max as [EN HN]. set (N := page_of (pid_max - 1)) in *.
  assert (page_of (pid_max + BITS_PER_PAGE - 1) = N + 1) as EM.
  { unfold PID_MAX_LIMIT in Hmax. rewrite page_of_small by (unfold BITS_PER_PAGE; lia). rewrite EN.
    replace (pid_max + BITS_PER_PAGE - 1) with (pid_max - 1 + 1 * BITS_PER_PAGE) by lia. by rewrite Z.div_add. }
  assert (p / BITS_PER_PAGE ≤ N) as HpN by (rewrite EN; apply Z.div_le_mono; [done|lia]).
  assert (∀ x, x = BITS_PER_PAGE * (x / BITS_PER_PAGE) + x mod BITS_PER_PAGE ∧ 0 ≤ x mod BITS_PER_PAGE < BITS_PER_PAGE)
    as Hdm by (intros x; split; [by apply Z.div_mod|by apply Z.mod_pos_bound]).
  destruct (Hdm p) as [Ep Rp], (Hdm s) as [Es Rs].
  assert (0 ≤ p / BITS_PER_PAGE ∧ 0 ≤ s / BITS_PER_PAGE) as [Pp Ps]
    by (split; apply Z.div_pos; done || lia || unfold RESERVED_PIDS in *; lia).
  assert (s / BITS_PER_PAGE ≤ N) as HsN by (rewrite EN; apply Z.div_le_mono; [done|lia]).
  assert (max_scan = N + 1 ∧ s mod BITS_PER_PAGE ≠ 0 ∨ max_scan = N ∧ s mod BITS_PER_PAGE = 0) as Hms.
  { unfold max_scan. rewrite EM. destruct (Z.eqb_spec (s mod BITS_PER_PAGE) 0); simpl b2z; [right|left]; lia. }
  clearbody max_scan. change BITS_PER_PAGE with 32768 in *. destruct (decide (s ≤ p)) as [Hge|Hlt].
  - exists (p / 32768 - s / 32768), (if decide (p / 32768 - s / 32768 = 0) then s mod 32768 else 0).
    split_and!.
    + pose proof (visit_forward (Z.to_nat (max_scan + 1)) 0 last (s / 32768) (s mod 32768) (p / 32768 - s / 32768)) as V.
      rewrite Z.add_0_l in V. replace (s / 32768 + (p / 32768 - s / 32768)) with (p / 32768) in V by lia.
      fold N in V. apply V; lia.
    + case_decide; lia.
    + unfold wanted. destruct (Z.ltb_spec p pid_max); [|lia].
      destruct (Z.eqb_spec (p / 32768 - s / 32768) max_scan); [lia|done].
  - assert (s = last + 1 ∧ p < last) as [Esl Hpl] by (destruct Hs'; lia).
    exists (0 + (N - s / 32768) + 1 + p / 32768), (if decide (p / 32768 = 0) then RESERVED_PIDS else 0).
    split_and!.
    + apply visit_wrapped; unfold RESERVED_PIDS in *; try lia; fold N; lia.
    + case_decide; unfold RESERVED_PIDS in *; lia.
    + unfold wanted. destruct (Z.ltb_spec p pid_max); [|lia]. destruct (Z.ltb_spec p last); [|lia].
      by rewrite orb_true_r.
Qed.
End scanning.

(** ** Theorems *)

Lemma alloc_pidmap_total (pid_max : Z) (kzalloc : Z → bool) (fuel : nat) (ns : pid_namespace) :
  RESERVED_PIDS < pid_max ≤ PID_MAX_LIMIT → ns_ok ns → (2 ≤ fuel)%nat →
  ∃ r ns', alloc_pidmap pid_max kzalloc fuel ns = Ret (r, ns') ∧ ns_ok ns' ∧
    ((r = -1 ∧ same_use ns ns' ∧
      ((∀ j, kzalloc j = true) →
       ∀ p, RESERVED_PIDS ≤ p < pid_max → p ≠ last_pid ns → in_use ns p = true)) ∨
     (0 < r < pid_max ∧ in_use ns r = false ∧ last_pid ns' = r ∧
      ∀ p, 0 ≤ p → in_use ns' p = if decide (p = r) then true else in_use ns p)).
Proof.
  intros Hmax Hns Hf. unfold alloc_pidmap. fold (first_pid pid_max (last_pid ns)).
  destruct (first_pid_range pid_max Hmax (last_pid ns) (ns_last _ Hns)) as [Hs _].
  set (s := first_pid pid_max (last_pid ns)) in *. rewrite land_page.
  rewrite (page_of_small s) by (unfold PID_MAX_LIMIT in Hmax; lia).
  assert (s = mk_pid (s / BITS_PER_PAGE) (s mod BITS_PER_PAGE)) as Es
    by (unfold mk_pid; rewrite Z.mul_comm; by apply Z.div_mod).
  assert (s / BITS_PER_PAGE ≤ page_of (pid_max - 1)) as HsN.
  { destruct (page_of_max pid_max kzalloc Hmax) as [-> _]. apply Z.div_le_mono; [done|lia]. }
  set (max_scan := page_of (pid_max + BITS_PER_PAGE - 1) - b2z (s mod BITS_PER_PAGE =? 0)).
  destruct (alloc_loop_spec pid_max kzalloc Hmax (Z.to_nat (max_scan + 1)) fuel 0 max_scan (last_pid ns) ns
    (s / BITS_PER_PAGE) (s mod BITS_PER_PAGE)) as (r & ns' & E & Hok & Hr);
    [done|split; [apply Z.div_pos; done || lia|done]|by apply Z.mod_pos_bound|by rewrite <- Es|done|].
  rewrite <- Es in E. exists r, ns'. split; [done|]. split; [done|].
  destruct Hr as [(-> & Hsame & _ & Hfull)|Hr]; [left|right; done].
  split_and!; [done|done|]. intros Hk p Hp Hne.
  destruct (visit_covers pid_max kzalloc Hmax (last_pid ns) p (ns_last _ Hns) Hp Hne) as (i & offset & Hin & Ho & Hw).
  specialize (Hfull Hk). rewrite Forall_forall in Hfull. specialize (Hfull _ Hin).
  assert (mk_pid (p / BITS_PER_PAGE) (p mod BITS_PER_PAGE) = p) as Ep
    by (unfold mk_pid; rewrite Z.mul_comm; symmetry; by apply Z.div_mod).
  specialize (Hfull (p mod BITS_PER_PAGE)). rewrite Ep in Hfull. apply Hfull; [|done].
  pose proof (Z.mod_pos_bound p BITS_PER_PAGE ltac:(done)). lia.
Qed.

(** C29: [alloc_pidmap] returns for every state of the map, and two passes of the
    inner loop are enough.  If it returns a number, that number was free, is
    below [pid_max], is now the only one that changed and is the new [last_pid],
    and the free counts of the pages stay exact.  If it returns -1 although every
    page could be allocated, then every number from [RESERVED_PIDS] up to
    [pid_max] is in use, [last_pid] itself perhaps excepted. *)
Theorem alloc_pidmap_correct (pid_max : Z) (kzalloc : Z → bool) (fuel : nat) (ns : pid_namespace) :
  RESERVED_PIDS < pid_max ≤ PID_MAX_LIMIT → ns_ok ns → (2 ≤ fuel)%nat →
  ∃ r ns', alloc_pidmap pid_max kzalloc fuel ns = Ret (r, ns') ∧ ns_ok ns' ∧
    ((r = -1 ∧ same_use ns ns' ∧
      ((∀ j, kzalloc j = true) →
       ∀ p, RESERVED_PIDS ≤ p < pid_max → p ≠ last_pid ns → in_use ns p = true)) ∨
     (0 < r < pid_max ∧ in_use ns r = false ∧ last_pid ns' = r ∧
      ∀ p, 0 ≤ p → in_use ns' p = if decide (p = r) then true else in_use ns p)).
Proof. apply alloc_pidmap_total. Qed.

Lemma init_pid_ns_ok : ns_ok init_pid_ns.
Proof. constructor; [done|by apply Forall_replicate|done]. Qed.

Lemma alloc_pidmap_correct_witness :
  ∃ r ns', alloc_pidmap 32768 (λ _, true) 2 init_pid_ns = Ret (r, ns') ∧ ns_ok ns'.
Proof.
  destruct (alloc_pidmap_correct 32768 (λ _, true) 2 init_pid_ns) as (r & ns' & E & Hok & _).
  - unfold RESERVED_PIDS, PID_MAX_LIMIT. lia.
  - apply init_pid_ns_ok.
  - lia.
  - by exists r, ns'.
Defined.

(** ** Freeing and searching *)

Lemma free_pidmap_spec ns pid :
  ns_ok ns → 0 ≤ pid < PID_MAX_LIMIT → in_use ns pid = true →
  ∃ ns', free_pidmap ns pid = Ret ns' ∧ ns_ok ns' ∧ last_pid ns' = last_pid ns ∧
    ∀ p, 0 ≤ p → in_use ns' p = if decide (p = pid) then false else in_use ns p.
Proof.
  intros Hns Hpid Huse. unfold free_pidmap, PID_MAX_LIMIT in *. rewrite page_of_small, land_page by lia.
  assert (0 ≤ pid / BITS_PER_PAGE < 128) as Hmap by (unfold BITS_PER_PAGE; Z.div_mod_to_equations; lia).
  pose proof (ns_length _ Hns) as Hlen.
  destruct (aget_in (maps ns) (pid / BITS_PER_PAGE)) as (m & -> & Hm); [lia|]. cbn [mbind outcome_bind].
  assert (map_ok m) as Hok by (eapply Forall_lookup_1; [apply Hns|done]).
  unfold in_use in Huse. rewrite Hm in Huse. destruct m as [n [ws|]]; [|done]. cbn [page nr_free].
  destruct Hok as (Hl & Hw & Hn). cbn [nr_free] in Hn.
  pose proof (Z.mod_pos_bound pid BITS_PER_PAGE ltac:(done)) as Hk.
  destruct (clear_bit_spec ws (pid mod BITS_PER_PAGE) Hw) as (ws' & -> & Hu);
    [rewrite Hl; unfold BITS_PER_PAGE in *; lia|]. cbn [mbind outcome_bind]. rewrite aset_in by lia.
  cbn [mbind outcome_bind]. eexists. split; [done|]. split_and!; [|done|].
  - apply replace_ok; [done| |apply Hns]. unfold map_ok. cbn [page nr_free]. pose proof Hu as (Hl' & Hw' & _).
    split_and!; [congruence|done|]. rewrite (free_bits_updated _ _ _ _ Hu), Huse, Hn by lia. simpl. lia.
  - intros p Hp. rewrite in_use_insert by lia. cbn [page]. destruct Hu as (_ & _ & Hu).
    assert (p = pid ↔ p / BITS_PER_PAGE = pid / BITS_PER_PAGE ∧ p mod BITS_PER_PAGE = pid mod BITS_PER_PAGE) as Hiff.
    { split; [by intros ->|]. intros [E1 E2]. rewrite (Z.div_mod p BITS_PER_PAGE), (Z.div_mod pid BITS_PER_PAGE) by done.
      by rewrite E1, E2. }
    case_decide as E.
    + rewrite Hu by (apply Z.mod_pos_bound; done). unfold in_use. rewrite E, Hm.
      destruct (decide (p mod BITS_PER_PAGE = pid mod BITS_PER_PAGE)).
      * by rewrite decide_True by tauto.
      * by rewrite decide_False by tauto.
    + by rewrite decide_False by tauto.
Qed.

Lemma page_search_set ws offset :
  length ws = 512%nat → Forall is_word ws → 0 ≤ offset ≤ BITS_PER_PAGE →
  ∃ r, find_next_bit ws BITS_PER_PAGE offset = Ret r ∧ offset ≤ r ≤ BITS_PER_PAGE ∧
    (∀ k, offset ≤ k < r → bit_at ws k = false) ∧ (r < BITS_PER_PAGE → bit_at ws r = true).
Proof.
  intros Hl Hws Ho. destruct (find_next_spec 0 ws BITS_PER_PAGE offset) as (r & Hr & H1 & H2 & H3);
    [by left|done|done|done|rewrite Hl; done|].
  change (64 * ((BITS_PER_PAGE + 63) / 64)) with BITS_PER_PAGE in *. unfold hit in *.
  exists r. split_and!; [done|lia|lia| |].
  - intros k Hk. specialize (H2 k Hk). by rewrite Z.bits_0 in H2.
  - intros Hr'. specialize (H3 Hr'). by rewrite Z.bits_0 in H3.
Qed.

Lemma next_loop_spec n ns map offset :
  ns_ok ns → 0 ≤ map → map + Z.of_nat n = PIDMAP_ENTRIES → 0 ≤ offset < BITS_PER_PAGE →
  ∃ r, next_loop n ns map offset = Ret r ∧
    ((r = -1 ∧ ∀ p, mk_pid map offset ≤ p < PID_MAX_LIMIT → in_use ns p = false) ∨
     (mk_pid map offset ≤ r < PID_MAX_LIMIT ∧ in_use ns r = true ∧
      ∀ p, mk_pid map offset ≤ p < r → in_use ns p = false)).
Proof.
  intros Hns. revert map offset. induction n as [|n IH]; intros map offset Hmap Hn Ho; cbn [next_loop].
  { exists (-1). split; [done|]. left. split; [done|]. unfold mk_pid, PIDMAP_ENTRIES, PID_MAX_LIMIT, BITS_PER_PAGE in *. lia. }
  pose proof (ns_length _ Hns) as Hlen. unfold PIDMAP_ENTRIES in *.
  destruct (aget_in (maps ns) map) as (m & -> & Hm); [lia|]. cbn [mbind outcome_bind].
  assert (map_ok m) as Hok by (eapply Forall_lookup_1; [apply Hns|done]).
  assert (∀ e, (∀ k, offset ≤ k < e → in_use ns (mk_pid map k) = false) → ∀ p, mk_pid map offset ≤ p < mk_pid map e →
    in_use ns p = false) as Hrange.
  { intros e He p Hp. replace p with (mk_pid map (p - map * BITS_PER_PAGE)) by (unfold mk_pid; lia).
    apply He. unfold mk_pid in Hp. lia. }
  assert ((∀ k, offset ≤ k < BITS_PER_PAGE → in_use ns (mk_pid map k) = false) →
    ∃ r, next_loop n ns (map + 1) 0 = Ret r ∧
    ((r = -1 ∧ ∀ p, mk_pid map offset ≤ p < PID_MAX_LIMIT → in_use ns p = false) ∨
     (mk_pid map offset ≤ r < PID_MAX_LIMIT ∧ in_use ns r = true ∧
      ∀ p, mk_pid map offset ≤ p < r → in_use ns p = false))) as Hnext.
  { intros Hnone. destruct (IH (map + 1) 0) as (r & -> & Hr); [lia|lia|done|]. exists r. split; [done|].
    assert (mk_pid (map + 1) 0 = mk_pid map BITS_PER_PAGE) as E by (unfold mk_pid; lia). rewrite E in Hr.
    destruct Hr as [(-> & Hr)|(Hr1 & Hr2 & Hr3)]; [left|right]; split_and!; try done; try (unfold mk_pid in *; lia).
    - intros p Hp. destruct (decide (p < mk_pid map BITS_PER_PAGE)); [apply (Hrange BITS_PER_PAGE)|apply Hr]; done || lia.
    - intros p Hp. destruct (decide (p < mk_pid map BITS_PER_PAGE)); [apply (Hrange BITS_PER_PAGE)|apply Hr3]; done || lia. }
  destruct (page m) as [ws|] eqn:Ep.
  - unfold map_ok in Hok. rewrite Ep in Hok. destruct Hok as (Hl & Hw & _).
    destruct (page_search_set ws offset Hl Hw) as (k & -> & Hk & Hclr & Hset); [lia|]. cbn [mbind outcome_bind].
    assert (∀ j, offset ≤ j < k → in_use ns (mk_pid map j) = false) as Hnone
      by (intros j Hj; rewrite (in_use_page ns map j m), Ep by (done || lia); by apply Hclr).
    destruct (Z.ltb_spec k BITS_PER_PAGE) as [Hlt|Hge]; [|apply Hnext; intros; apply Hnone; lia].
    exists (mk_pid map k). split; [done|]. right. split_and!.
    + unfold mk_pid. lia.
    + unfold mk_pid, PID_MAX_LIMIT, BITS_PER_PAGE in *. lia.
    + rewrite (in_use_page ns map k m), Ep by (done || lia). by apply Hset.
    + intros p Hp. by apply (Hrange k).
  - apply Hnext. intros k Hk. by rewrite (in_use_page ns map k m), Ep by (done || lia).
Qed.

Lemma next_pidmap_spec ns last :
  ns_ok ns → -1 ≤ last → last + 1 < PID_MAX_LIMIT →
  ∃ r, next_pidmap ns last = Ret r ∧
    ((r = -1 ∧ ∀ p, last < p < PID_MAX_LIMIT → in_use ns p = false) ∨
     (last < r < PID_MAX_LIMIT ∧ in_use ns r = true ∧ ∀ p, last < p < r → in_use ns p = false)).
Proof.
  intros Hns H1 H2. unfold next_pidmap. unfold PID_MAX_LIMIT in H2. rewrite page_of_small, land_page by lia.
  assert (0 ≤ (last + 1) / BITS_PER_PAGE < 128) as Hmap by (unfold BITS_PER_PAGE; Z.div_mod_to_equations; lia).
  destruct (next_loop_spec (Z.to_nat (PIDMAP_ENTRIES - (last + 1) / BITS_PER_PAGE)) ns
    ((last + 1) / BITS_PER_PAGE) ((last + 1) mod BITS_PER_PAGE)) as (r & -> & Hr);
    [done|lia|unfold PIDMAP_ENTRIES; lia|by apply Z.mod_pos_bound|].
  assert (mk_pid ((last + 1) / BITS_PER_PAGE) ((last + 1) mod BITS_PER_PAGE) = last + 1) as E
    by (unfold mk_pid; rewrite Z.mul_comm; symmetry; by apply Z.div_mod).
  rewrite E in Hr. exists r. split; [done|].
  destruct Hr as [(-> & Hr)|(Hr1 & Hr2 & Hr3)]; [left|right]; split_and!; try done; try lia;
    intros p Hp; (apply Hr || apply Hr3); lia.
Qed.

(** Past the last page there is nothing to search. *)
Lemma next_pidmap_end ns last : ns_ok ns → last + 1 = PID_MAX_LIMIT → next_pidmap ns last = Ret (-1).
Proof.
  intros _ E. unfold next_pidmap. rewrite E. change (page_of PID_MAX_LIMIT) with 128. done.
Qed.
