(* ===== verification/Pid.v ===== *)
(** Process identifiers: the hash table of [struct pid] in [kernel/pid.c] and
    [hash_long] of [include/linux/hash.h], over the number allocator of [Pidmap].
    An [hlist] is the sequence of its nodes; a node is named by the address of
    the structure it is embedded in. *)

From S2P Require Import Prelude Bitops Pidmap Tasks.

(** ** Hashing *)

Definition GOLDEN_RATIO_PRIME : Z := 0x9e37fffffffc0001.

(** [n <<= k] on an [unsigned long]. *)
Definition shl (n k : Z) : Z := u64 (Z.shiftl n k).

Definition hash_long (val bits : Z) : Z :=
  let hash := val in
  let n := hash in
  let n := shl n 18 in let hash := u64 (hash - n) in
  let n := shl n 33 in let hash := u64 (hash - n) in
  let n := shl n 3 in let hash := u64 (hash + n) in
  let n := shl n 3 in let hash := u64 (hash - n) in
  let n := shl n 4 in let hash := u64 (hash + n) in
  let n := shl n 2 in let hash := u64 (hash + n) in
  Z.shiftr hash (64 - bits).

(** ** State *)

Inductive pid_type := PIDTYPE_PID | PIDTYPE_PGID | PIDTYPE_SID.

#[export] Instance pid_type_eq_dec : EqDecision pid_type.
Proof. solve_decision. Defined.

#[export] Instance pid_type_countable : Countable pid_type.
Proof.
  refine (inj_countable' (λ t, match t with PIDTYPE_PID => 0 | PIDTYPE_PGID => 1 | PIDTYPE_SID => 2 end)
    (λ z, if z =? 0 then PIDTYPE_PID else if z =? 1 then PIDTYPE_PGID else PIDTYPE_SID) _).
  by intros [].
Defined.

Record pid_struct := PidStruct { p_count : Z; nr : Z; p_tasks : pid_type → list Z }.

(** [rcu] holds the structures whose last reference is dropped after a grace
    period; [links] is [task->pids[type].pid], absent for NULL. *)
Record pids := Pids {
  pid_ns : pid_namespace;
  pidhash_shift : Z;
  pid_hash : list (list Z);
  structs : gmap Z pid_struct;
  links : gmap (Z * pid_type) Z;
  rcu : list Z
}.

Definition set_ns v s := Pids v (pidhash_shift s) (pid_hash s) (structs s) (links s) (rcu s).
Definition set_hash v s := Pids (pid_ns s) (pidhash_shift s) v (structs s) (links s) (rcu s).
Definition set_structs v s := Pids (pid_ns s) (pidhash_shift s) (pid_hash s) v (links s) (rcu s).
Definition set_links v s := Pids (pid_ns s) (pidhash_shift s) (pid_hash s) (structs s) v (rcu s).
Definition set_rcu v s := Pids (pid_ns s) (pidhash_shift s) (pid_hash s) (structs s) (links s) v.

Definition pid_hashfn (s : pids) (n : Z) : Z := hash_long (u64 n) (pidhash_shift s).

(** [fls] of a number that fits an [int]. *)
Definition fls (x : Z) : Z := if x =? 0 then 0 else Z.log2 x + 1.

(** [pidhash_init]: the table for a machine with that many pages. *)
Definition pidhash_init (nr_kernel_pages : Z) (s : pids) : pids :=
  let megabytes := Z.shiftr nr_kernel_pages (20 - 12) in
  let shift := Z.min 12 (Z.max 4 (fls (u32 (megabytes * 4)))) in
  Pids (pid_ns s) shift (replicate (Z.to_nat (Z.shiftl 1 shift)) []) (structs s) (links s) (rcu s).

Definition get_struct (s : pids) (a : Z) : outcome pid_struct :=
  match structs s !! a with Some p => Ret p | None => Undef end.

(** ** References *)

Definition get_pid (a : option Z) (s : pids) : outcome (option Z * pids) :=
  match a with
  | None => Ret (None, s)
  | Some a =>
    p ← get_struct s a;
    Ret (Some a, set_structs (<[a := PidStruct (p_count p + 1) (nr p) (p_tasks p)]> (structs s)) s)
  end.

Definition put_pid (a : option Z) (s : pids) : outcome pids :=
  match a with
  | None => Ret s
  | Some a =>
    p ← get_struct s a;
    if (p_count p =? 1) || (p_count p - 1 =? 0) then Ret (set_structs (delete a (structs s)) s)
    else Ret (set_structs (<[a := PidStruct (p_count p - 1) (nr p) (p_tasks p)]> (structs s)) s)
  end.

(** ** Allocation *)

(** [addr] is what [kmem_cache_alloc] gives. *)
Definition alloc_pid (pid_max : Z) (kzalloc : Z → bool) (fuel : nat) (addr : option Z) (s : pids)
    : outcome (option Z * pids) :=
  match addr with
  | None => Ret (None, s)
  | Some a =>
    '(n, ns) ← alloc_pidmap pid_max kzalloc fuel (pid_ns s);
    let s := set_ns ns s in
    if n <? 0 then Ret (None, s) else
    let s := set_structs (<[a := PidStruct 1 n (λ _, [])]> (structs s)) s in
    chain ← aget (pid_hash s) (pid_hashfn s n);
    h ← aset (pid_hash s) (pid_hashfn s n) (a :: chain);
    Ret (Some a, set_hash h s)
  end.

(** [hlist_del_rcu] of a chain node: it is in one chain only. *)
Definition hlist_del_rcu (a : Z) (h : list (list Z)) : list (list Z) := filter (λ x, x ≠ a) <$> h.

Definition free_pid (a : Z) (s : pids) : outcome pids :=
  p ← get_struct s a;
  let s := set_hash (hlist_del_rcu a (pid_hash s)) s in
  ns ← free_pidmap (pid_ns s) (nr p);
  Ret (set_rcu (rcu s ++ [a]) (set_ns ns s)).

(** The end of a grace period: the oldest callback, [delayed_put_pid], runs. *)
Definition delayed_put_pid (s : pids) : outcome pids :=
  match rcu s with
  | [] => Ret s
  | a :: l => put_pid (Some a) (set_rcu l s)
  end.

(** ** Searching *)

Fixpoint chain_find (s : pids) (chain : list Z) (n : Z) : outcome (option Z) :=
  match chain with
  | [] => Ret None
  | a :: chain => p ← get_struct s a; if nr p =? n then Ret (Some a) else chain_find s chain n
  end.

Definition find_pid (s : pids) (n : Z) : outcome (option Z) :=
  chain ← aget (pid_hash s) (pid_hashfn s n); chain_find s chain n.

Definition find_get_pid (s : pids) (n : Z) : outcome (option Z * pids) :=
  a ← find_pid s n; get_pid a s.

(** The do-while loop of [find_ge_pid]. *)
Fixpoint find_ge_pid (fuel : nat) (s : pids) (n : Z) : outcome (option Z) :=
  match fuel with
  | O => NoFuel
  | S fuel =>
    a ← find_pid s n;
    match a with
    | Some a => Ret (Some a)
    | None =>
      n ← next_pidmap (pid_ns s) n;
      if 0 <? n then find_ge_pid fuel s n else Ret None
    end
  end.

(** ** Tasks *)

Definition set_tasks (a : Z) (t : pid_type) (l : list Z) (p : pid_struct) (s : pids) : pids :=
  set_structs (<[a := PidStruct (p_count p) (nr p) (<[t := l]> (p_tasks p))]> (structs s)) s.

Definition attach_pid (task : Z) (t : pid_type) (a : Z) (s : pids) : outcome pids :=
  let s := set_links (<[(task, t) := a]> (links s)) s in
  p ← get_struct s a;
  Ret (set_tasks a t (task :: p_tasks p t) p s).

Definition detach_pid (task : Z) (t : pid_type) (s : pids) : outcome pids :=
  match links s !! (task, t) with
  | None => Undef
  | Some a =>
    p ← get_struct s a;
    let s := set_tasks a t (filter (λ x, x ≠ task) (p_tasks p t)) p s in
    let s := set_links (delete (task, t) (links s)) s in
    p ← get_struct s a;
    if forallb (λ t, match p_tasks p t with [] => true | _ => false end) [PIDTYPE_SID; PIDTYPE_PGID; PIDTYPE_PID]
    then free_pid a s else Ret s
  end.

(** [hlist_replace_rcu]: the new task takes the place of the old one. *)
Definition transfer_pid (old new : Z) (t : pid_type) (s : pids) : outcome pids :=
  match links s !! (old, t) with
  | None => Undef
  | Some a =>
    p ← get_struct s a;
    let s := set_tasks a t ((λ x, if x =? old then new else x) <$> p_tasks p t) p s in
    Ret (set_links (delete (old, t) (<[(new, t) := a]> (links s))) s)
  end.

Definition pid_task (a : option Z) (t : pid_type) (s : pids) : outcome (option Z) :=
  match a with
  | None => Ret None
  | Some a => p ← get_struct s a; Ret (head (p_tasks p t))
  end.

Definition find_task_by_pid_type (t : pid_type) (n : Z) (s : pids) : outcome (option Z) :=
  a ← find_pid s n; pid_task a t s.

(** [find_task_by_pid] of [include/linux/sched.h], as the table the system calls
    of [Tasks] look processes up in. *)
#[export] Instance pids_task_table : TaskTable pids := λ s n,
  match find_task_by_pid_type PIDTYPE_PID n s with Ret r => r | _ => None end.

(** ** Invariant *)

(** A structure that can be found. *)
Definition hashed (s : pids) (b : nat) (a : Z) : Prop := ∃ l, pid_hash s !! b = Some l ∧ a ∈ l.

Record table_ok (s : pids) : Prop := {
  tok_ns : ns_ok (pid_ns s);
  tok_shift : 4 ≤ pidhash_shift s ≤ 12;
  tok_length : Z.of_nat (length (pid_hash s)) = 2 ^ pidhash_shift s;
  tok_hashed b a : hashed s b a →
    ∃ p, structs s !! a = Some p ∧ Z.of_nat b = pid_hashfn s (nr p) ∧
      0 < nr p < PID_MAX_LIMIT ∧ in_use (pid_ns s) (nr p) = true;
  tok_unique b b' a a' p p' : hashed s b a → hashed s b' a' →
    structs s !! a = Some p → structs s !! a' = Some p' → nr p = nr p' → a = a';
  tok_rcu b a : a ∈ rcu s → ¬ hashed s b a
}.

(** The structure of a number. *)
Definition has_pid (s : pids) (n a : Z) : Prop :=
  ∃ b p, hashed s b a ∧ structs s !! a = Some p ∧ nr p = n.

(** ** Lemmas *)

Lemma u64_sub_sub a b : u64 (u64 a - u64 b) = u64 (a - b).
Proof. unfold wrapu. by rewrite <- Zminus_mod. Qed.

Lemma u64_sub_r a b : u64 (a - u64 b) = u64 (a - b).
Proof. unfold wrapu. apply Zminus_mod_idemp_r. Qed.

Lemma u64_add_add a b : u64 (u64 a + u64 b) = u64 (a + b).
Proof. unfold wrapu. by rewrite <- Zplus_mod. Qed.

Lemma u64_mul_l a b : u64 (u64 a * b) = u64 (a * b).
Proof. unfold wrapu. apply Zmult_mod_idemp_l. Qed.

(** The shifts and additions multiply by the prime. *)
Lemma hash_long_mul val bits :
  0 ≤ val < 2 ^ 64 → hash_long val bits = Z.shiftr (u64 (val * GOLDEN_RATIO_PRIME)) (64 - bits).
Proof.
  intros Hv. unfold hash_long, shl. rewrite !Z.shiftl_mul_pow2, !u64_mul_l by lia. f_equal.
  rewrite (u64_sub_r val).
  repeat match goal with
  | |- context [u64 (u64 ?a - u64 ?b)] =>
    lazymatch a with context [u64 _] => fail | _ => rewrite (u64_sub_sub a b) end
  | |- context [u64 (u64 ?a + u64 ?b)] =>
    lazymatch a with context [u64 _] => fail | _ => rewrite (u64_add_add a b) end
  end.
  unfold wrapu, GOLDEN_RATIO_PRIME. f_equal. lia.
Qed.

Lemma hash_long_range val bits : 0 ≤ val < 2 ^ 64 → 0 ≤ bits ≤ 64 → 0 ≤ hash_long val bits < 2 ^ bits.
Proof.
  intros Hv Hb. rewrite hash_long_mul by done. rewrite Z.shiftr_div_pow2 by lia.
  pose proof (wrapu_range 64 (val * GOLDEN_RATIO_PRIME) ltac:(lia)) as Hr.
  assert (0 < 2 ^ (64 - bits)) by (apply Z.pow_pos_nonneg; lia). split; [apply Z.div_pos; lia|].
  apply Z.div_lt_upper_bound; [done|]. rewrite <- Z.pow_add_r by lia. replace (64 - bits + bits) with 64 by lia. lia.
Qed.

Lemma pid_hashfn_range s n : table_ok s → 0 ≤ pid_hashfn s n < Z.of_nat (length (pid_hash s)).
Proof.
  intros Hs. rewrite tok_length by done. pose proof (tok_shift _ Hs). unfold pid_hashfn.
  apply hash_long_range; [by apply wrapu_range|lia].
Qed.

Lemma chain_find_spec s chain n :
  (∀ a, a ∈ chain → is_Some (structs s !! a)) →
  ∃ r, chain_find s chain n = Ret r ∧
    match r with
    | Some a => a ∈ chain ∧ ∃ p, structs s !! a = Some p ∧ nr p = n
    | None => ∀ a p, a ∈ chain → structs s !! a = Some p → nr p ≠ n
    end.
Proof.
  induction chain as [|a chain IH]; intros Hall; cbn [chain_find].
  - exists None. split; [done|]. intros a p Ha. by apply elem_of_nil in Ha.
  - destruct (Hall a) as [p Hp]; [left|]. unfold get_struct. rewrite Hp. cbn [mbind outcome_bind].
    destruct (Z.eqb_spec (nr p) n) as [E|E].
    + exists (Some a). split; [done|]. split; [left|]. by exists p.
    + destruct IH as (r & -> & Hr); [intros; apply Hall; by right|]. exists r. split; [done|].
      destruct r as [a'|]; [destruct Hr; split; [by right|done]|].
      intros a' p' Ha' Hp'. apply elem_of_cons in Ha' as [->|Ha']; [congruence|by eapply Hr].
Qed.

Lemma find_pid_spec s n :
  table_ok s → ∃ r, find_pid s n = Ret r ∧ ∀ a, r = Some a ↔ has_pid s n a.
Proof.
  intros Hs. pose proof (pid_hashfn_range s n Hs) as Hr. unfold find_pid.
  destruct (aget_in (pid_hash s) (pid_hashfn s n)) as (l & -> & Hl); [done|]. cbn [mbind outcome_bind].
  destruct (chain_find_spec s l n) as (r & -> & Hc).
  { intros a Ha. destruct (tok_hashed _ Hs (Z.to_nat (pid_hashfn s n)) a) as (p & Hp & _); [by exists l|by eexists]. }
  exists r. split; [done|]. intros a. split.
  - intros ->. destruct Hc as (Ha & p & Hp & Hn). exists (Z.to_nat (pid_hashfn s n)), p. split_and!; try done. by exists l.
  - intros (b & p & (l' & Hl' & Ha) & Hp & Hn).
    destruct (tok_hashed _ Hs b a) as (p' & Hp' & Hb & _); [by exists l'|]. rewrite Hp in Hp'. injection Hp' as <-.
    rewrite Hn in Hb. assert (b = Z.to_nat (pid_hashfn s n)) as -> by lia. rewrite Hl in Hl'. injection Hl' as <-.
    destruct r as [a'|]; [|exfalso; by eapply Hc]. destruct Hc as (Ha' & p' & Hp' & Hn').
    f_equal. eapply (tok_unique _ Hs); [by exists l|by exists l|done|done|congruence].
Qed.

Lemma has_pid_in_use s n a : table_ok s → has_pid s n a → 0 < n < PID_MAX_LIMIT ∧ in_use (pid_ns s) n = true.
Proof.
  intros Hs (b & p & Hh & Hp & Hn). destruct (tok_hashed _ Hs b a Hh) as (p' & Hp' & _ & Hr & Hu).
  rewrite Hp in Hp'. injection Hp' as <-. by rewrite <- Hn.
Qed.

Lemma hashed_insert s b k l a x ns st :
  pid_hash s !! k = Some l →
  hashed (Pids ns (pidhash_shift s) (<[k := a :: l]> (pid_hash s)) st (links s) (rcu s)) b x ↔
    hashed s b x ∨ (b = k ∧ x = a).
Proof.
  intros Hk. unfold hashed. cbn [pid_hash]. destruct (decide (b = k)) as [->|Hne].
  - rewrite list_lookup_insert_eq by (by eapply lookup_lt_Some). split.
    + intros (l' & [= <-] & Hin). apply elem_of_cons in Hin as [->|Hin]; [by right|]. left. by exists l.
    + intros [(l' & Hl' & Hin)|[_ ->]]; exists (a :: l); (split; [done|]); [right; congruence|left].
  - rewrite list_lookup_insert_ne by done. naive_solver.
Qed.

Lemma hashed_del s b a x ns rc :
  hashed (Pids ns (pidhash_shift s) (hlist_del_rcu a (pid_hash s)) (structs s) (links s) rc) b x ↔
    hashed s b x ∧ x ≠ a.
Proof.
  unfold hashed, hlist_del_rcu. cbn [pid_hash]. rewrite list_lookup_fmap. split.
  - intros (l & Hl & Hin). destruct (pid_hash s !! b) as [l'|] eqn:E; [|done]. injection Hl as <-.
    apply list_elem_of_filter in Hin as [Hne Hin]. split; [by exists l'|done].
  - intros [(l & -> & Hin) Hne]. eexists. split; [done|]. by apply list_elem_of_filter.
Qed.

Lemma find_pid_none s n : table_ok s → (∀ a, ¬ has_pid s n a) → find_pid s n = Ret None.
Proof.
  intros Hs Hn. destruct (find_pid_spec s n Hs) as (r & -> & Hr). destruct r as [a|]; [|done].
  exfalso. apply (Hn a). by apply Hr.
Qed.

Lemma find_pid_some s n a : table_ok s → has_pid s n a → find_pid s n = Ret (Some a).
Proof. intros Hs Hn. destruct (find_pid_spec s n Hs) as (r & -> & Hr). f_equal. by apply Hr. Qed.

Lemma find_pid_ext s s' n :
  table_ok s → table_ok s' → (∀ a, has_pid s' n a ↔ has_pid s n a) → find_pid s' n = find_pid s n.
Proof.
  intros Hs Hs' H. destruct (find_pid_spec s n Hs) as (r & -> & Hr), (find_pid_spec s' n Hs') as (r' & -> & Hr').
  f_equal. destruct r as [a|], r' as [a'|]; try done.
  - by apply Hr', H, Hr.
  - by apply Hr', H, Hr.
  - symmetry. by apply Hr, H, Hr'.
Qed.

(** The table after a structure [a] with the number [n] was added. *)
Section added.
Context (s : pids) (n a : Z) (l : list Z) (ns' : pid_namespace).
Context (Hs : table_ok s) (Hns : ns_ok ns') (Hn : 0 < n < PID_MAX_LIMIT).
Context (Hfree : in_use (pid_ns s) n = false).
Context (Huse : ∀ p, 0 ≤ p → in_use ns' p = if decide (p = n) then true else in_use (pid_ns s) p).
Context (Ha : structs s !! a = None) (Hrcu : a ∉ rcu s).
Context (Hl : pid_hash s !! Z.to_nat (pid_hashfn s n) = Some l).

Definition added : pids :=
  Pids ns' (pidhash_shift s) (<[Z.to_nat (pid_hashfn s n) := a :: l]> (pid_hash s))
    (<[a := PidStruct 1 n (λ _, [])]> (structs s)) (links s) (rcu s).

Lemma hashed_not_fresh b x : hashed s b x → x ≠ a.
Proof. intros Hx ->. destruct (tok_hashed _ Hs b a Hx) as (p & Hp & _). congruence. Qed.

Lemma added_has_pid m x : has_pid added m x ↔ (m = n ∧ x = a) ∨ has_pid s m x.
Proof.
  unfold has_pid, added. split.
  - intros (b & p & Hh & Hp & Hm). apply (hashed_insert s _ _ _ _ _ _ _ Hl) in Hh. cbn [structs] in Hp.
    destruct Hh as [Hh|[-> ->]].
    + rewrite lookup_insert_ne in Hp by (intros <-; by eapply hashed_not_fresh). right. by exists b, p.
    + rewrite lookup_insert_eq in Hp. injection Hp as <-. by left.
  - intros [[-> ->]|(b & p & Hh & Hp & Hm)].
    + exists (Z.to_nat (pid_hashfn s n)), (PidStruct 1 n (λ _, [])). cbn [structs].
      rewrite lookup_insert_eq. split_and!; try done. apply (hashed_insert s); [done|by right].
    + exists b, p. cbn [structs]. rewrite lookup_insert_ne by (intros <-; by eapply hashed_not_fresh).
      split_and!; try done. apply (hashed_insert s); [done|by left].
Qed.

Lemma added_ok : table_ok added.
Proof.
  pose proof (pid_hashfn_range s n Hs) as Hr.
  constructor; unfold added; cbn [pid_ns pidhash_shift pid_hash structs rcu]; try apply Hs; try done.
  - rewrite length_insert. apply Hs.
  - intros b x Hx. apply (hashed_insert s) in Hx as [Hx|[-> ->]]; [| |done].
    + destruct (tok_hashed _ Hs b x Hx) as (p & Hp & Hb & Hp' & Hi). exists p.
      rewrite lookup_insert_ne by (intros <-; by eapply hashed_not_fresh).
      split_and!; try done; try lia. rewrite Huse by lia. by case_decide.
    + exists (PidStruct 1 n (λ _, [])). rewrite lookup_insert_eq. cbn [nr].
      split_and!; try done; try lia; [by rewrite Z2Nat.id by lia|]. rewrite Huse by lia. by rewrite decide_True.
  - intros b b' x x' p p' Hx Hx' Hp Hp' E. apply (hashed_insert s) in Hx; [|done]. apply (hashed_insert s) in Hx'; [|done].
    assert (∀ b x p, hashed s b x → <[a := PidStruct 1 n (λ _, [])]> (structs s) !! x = Some p →
      structs s !! x = Some p ∧ nr p ≠ n) as Hold.
    { intros b0 x0 p0 Hx0 Hp0. rewrite lookup_insert_ne in Hp0 by (intros <-; by eapply hashed_not_fresh).
      split; [done|]. intros E0. destruct (tok_hashed _ Hs b0 x0 Hx0) as (p1 & Hp1 & _ & _ & Hi). congruence. }
    destruct Hx as [Hx|[-> ->]], Hx' as [Hx'|[-> ->]].
    + destruct (Hold _ _ _ Hx Hp), (Hold _ _ _ Hx' Hp'). by eapply (tok_unique _ Hs).
    + destruct (Hold _ _ _ Hx Hp). rewrite lookup_insert_eq in Hp'. injection Hp' as <-. done.
    + destruct (Hold _ _ _ Hx' Hp'). rewrite lookup_insert_eq in Hp. injection Hp as <-. done.
    + done.
  - intros b x Hx Hh. apply (hashed_insert s) in Hh as [Hh|[-> ->]]; [by eapply (tok_rcu _ Hs)|done|done].
Qed.
End added.

(** ** Theorems *)

Lemma alloc_pid_adds (pid_max : Z) (kzalloc : Z → bool) (fuel : nat) (a : Z) (s : pids) :
  table_ok s → RESERVED_PIDS < pid_max ≤ PID_MAX_LIMIT → (2 ≤ fuel)%nat →
  structs s !! a = None → a ∉ rcu s →
  ∃ r s', alloc_pid pid_max kzalloc fuel (Some a) s = Ret (r, s') ∧ table_ok s' ∧
    match r with
    | None => ∀ n, find_pid s' n = find_pid s n
    | Some a' => a' = a ∧ ∃ n, 0 < n < pid_max ∧ find_pid s n = Ret None ∧ find_pid s' n = Ret (Some a) ∧
        ∀ n', n' ≠ n → find_pid s' n' = find_pid s n'
    end.
Proof.
  intros Hs Hmax Hf Ha Hrcu. unfold alloc_pid.
  destruct (alloc_pidmap_total pid_max kzalloc fuel (pid_ns s) Hmax (tok_ns _ Hs) Hf) as (n & ns' & -> & Hns' & Hr).
  cbn [mbind outcome_bind]. destruct Hr as [(-> & Hsame & _)|(Hn & Hfree & _ & Huse)].
  - assert (table_ok (set_ns ns' s)) as Hs'.
    { destruct Hs as [? ? ? Hh Hu Hrc]. constructor; try done.
      intros b x Hx. destruct (Hh b x Hx) as (p & Hp & Hb & Hr & Hi). exists p. split_and!; try done; try lia.
      cbn [pid_ns set_ns]. by rewrite Hsame by lia. }
    eexists _, _. split; [done|]. split; [done|]. intros m. by apply find_pid_ext.
  - destruct (Z.ltb_spec n 0); [lia|]. pose proof (pid_hashfn_range s n Hs) as Hr.
    change (pid_hash (set_structs _ _)) with (pid_hash s).
    change (pid_hashfn (set_structs _ _) n) with (pid_hashfn s n).
    destruct (aget_in (pid_hash s) (pid_hashfn s n)) as (l & -> & Hl); [done|]. cbn [mbind outcome_bind].
    rewrite aset_in by done. cbn [mbind outcome_bind]. eexists _, _. split; [done|].
    unfold set_hash, set_structs, set_ns. cbn [pid_ns pidhash_shift pid_hash structs links rcu].
    fold (added s n a l ns'). set (s' := added s n a l ns').
    assert (table_ok s') as Hs' by (apply added_ok; done || lia).
    assert (∀ m x, has_pid s' m x ↔ (m = n ∧ x = a) ∨ has_pid s m x) as Hhas by (by apply added_has_pid).
    split; [done|]. split; [done|]. exists n.
    split; [lia|]. split_and!.
    + apply (find_pid_none s n Hs). intros x Hx. destruct (has_pid_in_use s n x Hs Hx). congruence.
    + apply (find_pid_some s' n a Hs'). apply Hhas. by left.
    + intros n' Hne. apply find_pid_ext; [done|done|]. intros x. rewrite Hhas. naive_solver.
Qed.

(** C36: Allocating a process identifier.  [alloc_pid] returns for every state of
    the table; when it succeeds, the number it took had no structure before, is
    below [pid_max], and from then on [find_pid] finds the new structure under it
    and exactly what it found before under every other number; when it fails the
    lookups are unchanged. *)
Theorem alloc_pid_find (pid_max : Z) (kzalloc : Z → bool) (fuel : nat) (a : Z) (s : pids) :
  table_ok s → RESERVED_PIDS < pid_max ≤ PID_MAX_LIMIT → (2 ≤ fuel)%nat →
  structs s !! a = None → a ∉ rcu s →
  ∃ r s', alloc_pid pid_max kzalloc fuel (Some a) s = Ret (r, s') ∧ table_ok s' ∧
    match r with
    | None => ∀ n, find_pid s' n = find_pid s n
    | Some a' => a' = a ∧ ∃ n, 0 < n < pid_max ∧ find_pid s n = Ret None ∧ find_pid s' n = Ret (Some a) ∧
        ∀ n', n' ≠ n → find_pid s' n' = find_pid s n'
    end.
Proof. apply alloc_pid_adds. Qed.

(** Freeing one: the number is free again, its structure is found no more
    and every other lookup is unchanged. *)
Theorem free_pid_find (s : pids) (n a : Z) :
  table_ok s → has_pid s n a →
  ∃ s', free_pid a s = Ret s' ∧ table_ok s' ∧ find_pid s' n = Ret None ∧ in_use (pid_ns s') n = false ∧
    ∀ n', n' ≠ n → find_pid s' n' = find_pid s n'.
Proof.
  intros Hs Hn. pose proof (has_pid_in_use s n a Hs Hn) as [Hr Hu]. pose proof Hn as (b & p & Hh & Hp & E).
  unfold free_pid, get_struct. rewrite Hp. cbn [mbind outcome_bind]. rewrite E. cbn [pid_ns set_hash].
  destruct (free_pidmap_spec (pid_ns s) n (tok_ns _ Hs)) as (ns' & -> & Hns' & _ & Huse'); [lia|done|].
  cbn [mbind outcome_bind]. unfold set_rcu, set_ns, set_hash. cbn [pid_ns pidhash_shift pid_hash structs links rcu].
  set (s' := Pids _ _ _ _ _ _). eexists. split; [done|].
  assert (∀ m x, has_pid s' m x ↔ has_pid s m x ∧ x ≠ a) as Hhas.
  { intros m x. unfold has_pid, s'. setoid_rewrite hashed_del. cbn [structs]. naive_solver. }
  assert (table_ok s') as Hs'.
  { constructor; unfold s'; cbn [pid_ns pidhash_shift pid_hash structs rcu]; try apply Hs; try done.
    - unfold hlist_del_rcu. rewrite length_fmap. apply Hs.
    - intros b' x Hx. apply hashed_del in Hx as [Hx Hne].
      destruct (tok_hashed _ Hs b' x Hx) as (p' & Hp' & Hb' & Hr' & Hi'). exists p'. split_and!; try done; try lia.
      rewrite Huse' by lia. rewrite decide_False; [done|]. intros E'. apply Hne.
      eapply (tok_unique _ Hs); [done|done|done|done|congruence].
    - intros b1 b2 x x' p1 p2 Hx Hx'. apply hashed_del in Hx as [Hx _], Hx' as [Hx' _]. by eapply (tok_unique _ Hs).
    - intros b' x Hin Hx. apply hashed_del in Hx as [Hx Hne]. apply elem_of_app in Hin as [Hin|Hin].
      + by eapply (tok_rcu _ Hs).
      + by apply list_elem_of_singleton in Hin. }
  split; [done|]. split_and!.
  - apply find_pid_none; [done|]. intros x [Hx Hne]%Hhas. apply Hne.
    pose proof (find_pid_some s n x Hs Hx) as E1. pose proof (find_pid_some s n a Hs Hn) as E2. congruence.
  - unfold s'. cbn [pid_ns]. rewrite Huse' by lia. by rewrite decide_True.
  - intros n' Hne. apply find_pid_ext; [done|done|]. intros x. rewrite Hhas. split; [by intros []|].
    intros Hx. split; [done|]. intros ->. destruct Hx as (b' & p' & _ & Hp' & E'). congruence.
Qed.

(** Changing the task lists of one structure. *)
Lemma set_tasks_hashed a t l p s b x : hashed (set_tasks a t l p s) b x ↔ hashed s b x.
Proof. done. Qed.

Lemma set_tasks_structs a t l p s x q :
  structs s !! a = Some p → structs (set_tasks a t l p s) !! x = Some q →
  ∃ q', structs s !! x = Some q' ∧ nr q' = nr q.
Proof.
  intros Hp Hq. unfold set_tasks in Hq. cbn [structs set_structs] in Hq. destruct (decide (x = a)) as [->|Hne].
  - rewrite lookup_insert_eq in Hq. injection Hq as <-. by exists p.
  - rewrite lookup_insert_ne in Hq by done. by exists q.
Qed.

Lemma set_tasks_structs_2 a t l p s x q :
  structs s !! a = Some p → structs s !! x = Some q →
  ∃ q', structs (set_tasks a t l p s) !! x = Some q' ∧ nr q' = nr q.
Proof.
  intros Hp Hq. unfold set_tasks. cbn [structs set_structs]. destruct (decide (x = a)) as [->|Hne].
  - rewrite lookup_insert_eq. eexists. split; [done|]. cbn [nr]. congruence.
  - rewrite lookup_insert_ne by done. by exists q.
Qed.

Lemma set_tasks_ok a t l p s : structs s !! a = Some p → table_ok s → table_ok (set_tasks a t l p s).
Proof.
  intros Hp Hs. constructor; try apply Hs.
  - intros b x Hx. destruct (tok_hashed _ Hs b x Hx) as (q & Hq & Hb & Hr & Hi).
    destruct (set_tasks_structs_2 a t l p s x q Hp Hq) as (q' & Hq' & E). exists q'. rewrite E. done.
  - intros b b' x x' q q' Hx Hx' Hq Hq' E.
    destruct (set_tasks_structs _ _ _ _ _ _ _ Hp Hq) as (r & Hr & E1).
    destruct (set_tasks_structs _ _ _ _ _ _ _ Hp Hq') as (r' & Hr' & E2).
    eapply (tok_unique _ Hs b b' x x' r r' Hx Hx'); [done|done|congruence].
Qed.

Lemma set_tasks_has_pid a t l p s n x :
  structs s !! a = Some p → has_pid (set_tasks a t l p s) n x ↔ has_pid s n x.
Proof.
  intros Hp. unfold has_pid. split; intros (b & q & Hh & Hq & E); exists b.
  - destruct (set_tasks_structs _ _ _ _ _ _ _ Hp Hq) as (r & Hr & E1). exists r. split_and!; [done|done|congruence].
  - destruct (set_tasks_structs_2 a t l p s x q Hp Hq) as (r & Hr & E1). exists r. split_and!; [done|done|congruence].
Qed.

Lemma set_links_ok v s : table_ok s → table_ok (set_links v s).
Proof. intros [? ? ? ? ? ?]. by constructor. Qed.

(** Attaching a task to an identifier: from then on a search by number and
    type finds that task, and the searches for other numbers and for the other
    types of the same number find what they found before. *)
Theorem attach_pid_find (s : pids) (task n a : Z) (t : pid_type) :
  table_ok s → has_pid s n a →
  ∃ s', attach_pid task t a s = Ret s' ∧ table_ok s' ∧
    find_task_by_pid_type t n s' = Ret (Some task) ∧
    ∀ t' n', (t', n') ≠ (t, n) → find_task_by_pid_type t' n' s' = find_task_by_pid_type t' n' s.
Proof.
  intros Hs Hn. pose proof Hn as (b & p & Hh & Hp & E). unfold attach_pid, get_struct.
  set (s1 := set_links (<[(task, t) := a]> (links s)) s).
  assert (table_ok s1) as Hs1 by (by apply set_links_ok).
  change (structs s1) with (structs s). rewrite Hp. cbn [mbind outcome_bind].
  set (s' := set_tasks a t (task :: p_tasks p t) p s1). eexists. split; [done|].
  assert (table_ok s') as Hs' by (by apply set_tasks_ok).
  assert (∀ m x, has_pid s' m x ↔ has_pid s m x) as Hhas by (intros m x; exact (set_tasks_has_pid a t _ p s1 m x Hp)).
  assert (structs s' = <[a := PidStruct (p_count p) (nr p) (<[t := task :: p_tasks p t]> (p_tasks p))]> (structs s))
    as Est by done.
  split; [done|]. unfold find_task_by_pid_type. split.
  - rewrite (find_pid_some s' n a Hs') by (by apply Hhas). cbn [mbind outcome_bind pid_task].
    unfold get_struct. rewrite Est, lookup_insert_eq. cbn [mbind outcome_bind p_tasks]. by rewrite fn_lookup_insert.
  - intros t' n' Hne. rewrite (find_pid_ext s s' n' Hs Hs') by (intros; apply Hhas).
    destruct (find_pid_spec s n' Hs) as (r & -> & Hr). cbn [mbind outcome_bind]. destruct r as [x|]; [|done].
    cbn [pid_task]. unfold get_struct. rewrite Est. destruct (decide (x = a)) as [->|Hxa].
    + destruct (proj1 (Hr a) eq_refl) as (b' & p' & _ & Hp' & E'). rewrite Hp in Hp'. injection Hp' as <-.
      rewrite lookup_insert_eq, Hp. cbn [mbind outcome_bind p_tasks].
      rewrite fn_lookup_insert_ne; [done|]. intros ->. apply Hne. congruence.
    + by rewrite lookup_insert_ne by done.
Qed.

(** [find_ge_pid] returns, and finds the structure with the least number at
    or above [n], or nothing when there is none. *)
Theorem find_ge_pid_least (fuel : nat) (s : pids) (n : Z) :
  table_ok s → 0 ≤ n < PID_MAX_LIMIT → (Z.to_nat (PID_MAX_LIMIT - n) < fuel)%nat →
  ∃ r, find_ge_pid fuel s n = Ret r ∧
    match r with
    | Some a => ∃ m, n ≤ m ∧ has_pid s m a ∧ ∀ m' a', n ≤ m' < m → ¬ has_pid s m' a'
    | None => ∀ m a, n ≤ m → ¬ has_pid s m a
    end.
Proof.
  intros Hs. revert n. induction fuel as [|fuel IH]; intros n Hn Hf; [lia|]. cbn [find_ge_pid].
  destruct (find_pid_spec s n Hs) as (r & -> & Hr). cbn [mbind outcome_bind]. destruct r as [a|].
  { exists (Some a). split; [done|]. exists n. split_and!; [lia|by apply Hr|]. intros m' a'. lia. }
  assert (∀ a, ¬ has_pid s n a) as Hnone by (intros a Ha; by apply Hr in Ha).
  destruct (decide (n + 1 < PID_MAX_LIMIT)) as [Hlt|Hge].
  2:{ assert (next_pidmap (pid_ns s) n = Ret (-1)) as -> by (apply next_pidmap_end; [apply Hs|lia]).
      exists None. split; [done|]. intros m a Hm Ha. destruct (decide (m = n)) as [->|]; [by apply (Hnone a)|].
      destruct (has_pid_in_use s m a Hs Ha). lia. }
  destruct (next_pidmap_spec (pid_ns s) n (tok_ns _ Hs)) as (m & -> & Hm); [lia|done|]. cbn [mbind outcome_bind].
  destruct Hm as [(-> & Hm)|(Hm1 & Hm2 & Hm3)].
  - exists None. split; [done|]. intros m a Hnm Ha. destruct (decide (m = n)) as [->|]; [by apply (Hnone a)|].
    destruct (has_pid_in_use s m a Hs Ha) as [Hr1 Hr2]. rewrite Hm in Hr2 by lia. done.
  - destruct (Z.ltb_spec 0 m); [|lia]. destruct (IH m) as (r & -> & Hres); [lia|lia|]. exists r. split; [done|].
    assert (∀ k a, n ≤ k < m → ¬ has_pid s k a) as Hgap.
    { intros k a Hk Ha. destruct (decide (k = n)) as [->|]; [by apply (Hnone a)|].
      destruct (has_pid_in_use s k a Hs Ha) as [_ Hu]. rewrite Hm3 in Hu by lia. done. }
    destruct r as [a|].
    + destruct Hres as (k & Hk & Ha & Hl). exists k. split_and!; [lia|done|]. intros k' a' Hk'.
      destruct (decide (k' < m)); [apply Hgap|apply Hl]; lia.
    + intros k a Hk. destruct (decide (k < m)); [apply Hgap|apply Hres]; lia.
Qed.

(** ** A concrete table *)

(** The number table after [pidmap_init]. *)
Lemma pidmap_init_spec : ∃ ns, pidmap_init init_pid_ns = Ret ns ∧ ns_ok ns ∧ in_use ns 0 = true.
Proof.
  unfold pidmap_init. cbn [maps init_pid_ns]. unfold aget at 1. rewrite decide_True by done. cbn [mbind outcome_bind].
  change (replicate 128 (Pidmap BITS_PER_PAGE None) !! Z.to_nat 0) with (Some (Pidmap BITS_PER_PAGE None)).
  cbn [mbind outcome_bind nr_free].
  destruct (set_bit_spec zero_page 0) as (ws & -> & Hu); [by apply Forall_replicate|done|]. cbn [mbind outcome_bind].
  rewrite aset_in by done. cbn [mbind outcome_bind]. eexists. split; [done|]. split.
  - apply (replace_ok init_pid_ns 0); [apply init_pid_ns_ok| |done]. unfold map_ok. cbn [page nr_free].
    pose proof Hu as (Hl & Hw & _). split_and!; [by rewrite Hl|done|].
    rewrite (free_bits_updated _ _ _ _ Hu), bit_at_zero_page by done.
    destruct (zero_page_ok BITS_PER_PAGE eq_refl) as (_ & _ & <-). done.
  - rewrite (in_use_insert init_pid_ns 0) by done. rewrite decide_True by done. cbn [page].
    destruct Hu as (_ & _ & Hu). rewrite Hu by done. done.
Qed.

(** A machine with 64 megabytes, no process yet. *)
Definition boot_pids (ns : pid_namespace) : pids := pidhash_init 16384 (Pids ns 0 [] ∅ ∅ []).

Lemma boot_pids_ok ns : ns_ok ns → table_ok (boot_pids ns).
Proof.
  intros Hns. assert (∀ b a, ¬ hashed (boot_pids ns) b a) as Hnone.
  { intros b a (l & Hl & Ha). unfold boot_pids, pidhash_init in Hl. cbn [pid_hash] in Hl.
    apply lookup_replicate in Hl as [-> _]. by apply elem_of_nil in Ha. }
  constructor; try done. intros b a Ha. by apply Hnone in Ha.
Qed.

Lemma alloc_pid_find_witness :
  ∃ r s', alloc_pid 32768 (λ _, true) 2 (Some 1000) (boot_pids init_pid_ns) = Ret (r, s') ∧ table_ok s'.
Proof.
  destruct (alloc_pid_find 32768 (λ _, true) 2 1000 (boot_pids init_pid_ns)) as (r & s' & E & Hok & _).
  - apply boot_pids_ok, init_pid_ns_ok.
  - unfold RESERVED_PIDS, PID_MAX_LIMIT. lia.
  - lia.
  - done.
  - apply not_elem_of_nil.
  - exists r, s'. exact (conj E Hok).
Defined.

Lemma find_ge_pid_least_witness :
  ∃ r, find_ge_pid (Z.to_nat 4194305) (boot_pids init_pid_ns) 1 = Ret r.
Proof.
  destruct (find_ge_pid_least (Z.to_nat 4194305) (boot_pids init_pid_ns) 1) as (r & E & _).
  - apply boot_pids_ok, init_pid_ns_ok.
  - unfold PID_MAX_LIMIT. lia.
  - unfold PID_MAX_LIMIT. lia.
  - by exists r.
Defined.

(** The table with one process: number 1, structure at address 1000. *)
Definition one_pid : pids :=
  match alloc_pid 32768 (λ _, true) 2 (Some 1000) (boot_pids init_pid_ns) with
  | Ret (_, s) => s
  | _ => boot_pids init_pid_ns
  end.

Lemma one_pid_ok : table_ok one_pid.
Proof.
  unfold one_pid. destruct (alloc_pid_adds 32768 (λ _, true) 2 1000 (boot_pids init_pid_ns)) as (r & s' & -> & Hok & _).
  - apply boot_pids_ok, init_pid_ns_ok.
  - unfold RESERVED_PIDS, PID_MAX_LIMIT. lia.
  - lia.
  - done.
  - apply not_elem_of_nil.
  - done.
Qed.

Lemma one_pid_has : has_pid one_pid 1 1000.
Proof.
  destruct (find_pid_spec one_pid 1 one_pid_ok) as (r & E & Hr). apply Hr.
  assert (find_pid one_pid 1 = Ret (Some 1000)) as E' by (by vm_compute). congruence.
Qed.

Lemma free_pid_find_witness :
  ∃ s', free_pid 1000 one_pid = Ret s' ∧ table_ok s' ∧ find_pid s' 1 = Ret None.
Proof.
  destruct (free_pid_find one_pid 1 1000) as (s' & E & Hok & Hf & _).
  - apply one_pid_ok.
  - apply one_pid_has.
  - exists s'. exact (conj E (conj Hok Hf)).
Defined.

Lemma attach_pid_find_witness :
  ∃ s', attach_pid 5000 PIDTYPE_PID 1000 one_pid = Ret s' ∧
    find_task_by_pid_type PIDTYPE_PID 1 s' = Ret (Some 5000).
Proof.
  destruct (attach_pid_find one_pid 5000 1 1000 PIDTYPE_PID) as (s' & E & _ & Hf & _).
  - apply one_pid_ok.
  - apply one_pid_has.
  - exists s'. exact (conj E Hf).
Defined.
