(* ===== verification/ReadWrite.v ===== *)
(** [fs/read_write.c]: positions, checks and dispatch of the read and write
    system calls, with the [forcewrite] call added to it.  The file operations of
    a driver, the user memory checks, mandatory locks and the security module are
    parameters; a driver works on a state of its own type. *)

From S2P Require Import Prelude.

(** ** Constants *)

Definition EBADF : Z := 9.
Definition ENOMEM : Z := 12.
Definition EFAULT : Z := 14.
Definition EINVAL : Z := 22.
Definition ESPIPE : Z := 29.
Definition EOVERFLOW : Z := 75.
Definition EIOCBQUEUED : Z := 529.
Definition EIOCBRETRY : Z := 530.
Definition FMODE_READ : Z := 1.
Definition FMODE_WRITE : Z := 2.
Definition FMODE_LSEEK : Z := 4.
Definition FMODE_PREAD : Z := 8.
Definition FMODE_PWRITE : Z := FMODE_PREAD.
Definition SEEK_CUR : Z := 1.
Definition SEEK_END : Z := 2.
Definition SEEK_MAX : Z := SEEK_END.
Definition MAY_WRITE : Z := 2.
Definition MAY_READ : Z := 4.
Definition READ : Z := 0.
Definition WRITE : Z := 1.
Definition UIO_FASTIOV : Z := 8.
Definition UIO_MAXIOV : Z := 1024.
Definition MAX_NON_LFS : Z := 2 ^ 31 - 1.

(** [INT_MAX & PAGE_CACHE_MASK] *)
Definition MAX_RW_COUNT : Z := Z.land (2 ^ 31 - 1) (2 ^ 64 - 4096).

Definition has_mode (mode bit : Z) : bool := z2b (Z.land mode bit).

(** ** Positions *)

Record fstate := FState { f_pos : Z; f_version : Z }.

(** The switch on [origin] that all three functions start with. *)
Definition seek_target (size : Z) (f : fstate) (offset origin : Z) : Z :=
  if origin =? SEEK_END then s64 (offset + size)
  else if origin =? SEEK_CUR then s64 (offset + f_pos f)
  else offset.

Definition move_to (f : fstate) (offset : Z) : fstate :=
  if negb (offset =? f_pos f) then FState offset 0 else f.

(** [generic_file_llseek] and [remote_llseek], which differ in the lock and in
    how the inode is reached. *)
Definition generic_file_llseek (size s_maxbytes : Z) (f : fstate) (offset origin : Z) : Z * fstate :=
  let offset := seek_target size f offset origin in
  if (0 <=? offset) && (offset <=? s_maxbytes) then (offset, move_to f offset) else (- EINVAL, f).

Definition remote_llseek : Z → Z → fstate → Z → Z → Z * fstate := generic_file_llseek.

Definition no_llseek (f : fstate) (offset origin : Z) : Z * fstate := (- ESPIPE, f).

Definition default_llseek (size : Z) (f : fstate) (offset origin : Z) : Z * fstate :=
  let offset := seek_target size f offset origin in
  if 0 <=? offset then (offset, move_to f offset) else (- EINVAL, f).

(** ** Files *)

Record iovec := IOVec { iov_base : Z; iov_len : Z }.

Inductive event := Accessed (file : Z) | Modified (file : Z).

Section vfs.
Context {D : Type}.

(** Operations of a driver: they get the driver's state, the file, a buffer in
    user memory or a vector of buffers, a count and a position, and give the
    result, the new position and the new state.  [sendfile] gets the positions of
    all open files, because its actor moves the one of the output file, and the
    position to send from, [None] for the input file's own. *)
Record file_operations := FOps {
  llseek : option (D → Z → fstate → Z → Z → Z * fstate);
  read : option (D → Z → Z → Z → Z → Z * Z * D);
  write : option (D → Z → Z → Z → Z → Z * Z * D);
  aio_read : option (D → Z → list iovec → Z → Z * Z * D);
  aio_write : option (D → Z → list iovec → Z → Z * Z * D);
  sendfile : option (D → gmap Z Z → Z → option Z → Z → Z → Z * option Z * gmap Z Z * D);
  sendpage : bool
}.

Record kfile := KFile {
  f_mode : Z;
  f_st : fstate;
  f_op : option file_operations;
  s_maxbytes : Z;
  mandatory_lock : bool;
  has_inode : bool
}.

(** The driver's state, the open files, the descriptors of the caller, its
    input and output accounting, the notifications sent and the number of
    live vectors from [kmalloc]. *)
Record io := IO {
  dev : D;
  files : gmap Z kfile;
  fds : gmap Z Z;
  rchar : Z;
  wchar : Z;
  syscr : Z;
  syscw : Z;
  events : list event;
  live : Z
}.

Definition set_dev d s := IO d (files s) (fds s) (rchar s) (wchar s) (syscr s) (syscw s) (events s) (live s).
Definition set_files v s := IO (dev s) v (fds s) (rchar s) (wchar s) (syscr s) (syscw s) (events s) (live s).
Definition add_rchar n s := IO (dev s) (files s) (fds s) (rchar s + n) (wchar s) (syscr s) (syscw s) (events s) (live s).
Definition add_wchar n s := IO (dev s) (files s) (fds s) (rchar s) (wchar s + n) (syscr s) (syscw s) (events s) (live s).
Definition inc_syscr s := IO (dev s) (files s) (fds s) (rchar s) (wchar s) (syscr s + 1) (syscw s) (events s) (live s).
Definition inc_syscw s := IO (dev s) (files s) (fds s) (rchar s) (wchar s) (syscr s) (syscw s + 1) (events s) (live s).
Definition notify e s := IO (dev s) (files s) (fds s) (rchar s) (wchar s) (syscr s) (syscw s) (events s ++ [e]) (live s).
Definition add_live n s := IO (dev s) (files s) (fds s) (rchar s) (wchar s) (syscr s) (syscw s) (events s) (live s + n).

(** What the rest of the kernel supplies. *)
Record env := Env {
  access_ok : bool → Z → Z → bool;
  i_size : D → Z → Z;
  locks_mandatory_area : Z → D → Z → Z → Z → Z;
  security_file_permission : Z → Z → Z;
  wait_on_sync_kiocb : D → Z → Z * Z * D;
  kmalloc : Z → bool;
  copy_from_user : Z → Z → bool;
  user_iovec : Z → iovec
}.
Context (env : env).

Definition get_file (s : io) (f : Z) : outcome kfile :=
  match files s !! f with Some k => Ret k | None => Undef end.

Definition set_st (f : Z) (k : kfile) (st : fstate) (s : io) : io :=
  set_files (<[f := KFile (f_mode k) st (f_op k) (s_maxbytes k) (mandatory_lock k) (has_inode k)]> (files s)) s.

(** [fget_light] *)
Definition fget (s : io) (fd : Z) : option Z := fds s !! fd.

(** ** Seeking *)

Definition vfs_llseek (f offset origin : Z) (s : io) : outcome (Z * io) :=
  k ← get_file s f;
  let fn := if has_mode (f_mode k) FMODE_LSEEK then
              match f_op k with
              | Some ops => match llseek ops with
                            | Some fn => fn (dev s) f
                            | None => default_llseek (i_size env (dev s) f)
                            end
              | None => default_llseek (i_size env (dev s) f)
              end
            else no_llseek in
  let '(ret, st) := fn (f_st k) offset origin in
  Ret (ret, set_st f k st s).

(** [off_t] is as wide as [loff_t] here, so the result is never cut. *)
Definition sys_lseek (fd offset origin : Z) (s : io) : outcome (Z * io) :=
  match fget s fd with
  | None => Ret (- EBADF, s)
  | Some f => if origin <=? SEEK_MAX then vfs_llseek f offset origin s else Ret (- EINVAL, s)
  end.

(** [copied] tells whether the result could be copied to the user. *)
Definition sys_llseek (fd offset_high offset_low origin : Z) (copied : bool) (s : io) : outcome (Z * io) :=
  match fget s fd with
  | None => Ret (- EBADF, s)
  | Some f =>
    if SEEK_MAX <? origin then Ret (- EINVAL, s) else
    '(offset, s) ← vfs_llseek f (s64 (Z.lor (Z.shiftl offset_high 32) offset_low)) origin s;
    Ret (if 0 <=? offset then (if copied then 0 else - EFAULT) else s32 offset, s)
  end.

(** ** Checks *)

Definition rw_verify_area (read_write f : Z) (k : kfile) (pos count : Z) (s : io) : Z :=
  if s64 count <? 0 then - EINVAL else
  if (pos <? 0) || (s64 (u64 (pos + count)) <? 0) then - EINVAL else
  let retval := if mandatory_lock k then locks_mandatory_area env read_write (dev s) f pos count else 0 in
  if retval <? 0 then retval else
  if MAX_RW_COUNT <? count then MAX_RW_COUNT else count.

(** ** Synchronous calls of asynchronous operations *)

(** The retry loop of [do_sync_read], [do_sync_write] and
    [do_sync_readv_writev]. *)
Fixpoint sync_loop (fuel : nat) (fn : D → Z → list iovec → Z → Z * Z * D) (f : Z) (iov : list iovec) (ki_pos : Z)
    (d : D) : outcome (Z * Z * D) :=
  match fuel with
  | O => NoFuel
  | S fuel =>
    let '(ret, ki_pos, d) := fn d f iov ki_pos in
    if ret =? - EIOCBRETRY then sync_loop fuel fn f iov ki_pos d else Ret (ret, ki_pos, d)
  end.

Definition do_sync_readv_writev (fuel : nat) (fn : D → Z → list iovec → Z → Z * Z * D) (f : Z)
    (iov : list iovec) (pos : Z) (s : io) : outcome (Z * Z * io) :=
  '(ret, ki_pos, d) ← sync_loop fuel fn f iov pos (dev s);
  let '(ret, ki_pos, d) := if ret =? - EIOCBQUEUED then wait_on_sync_kiocb env d ki_pos else (ret, ki_pos, d) in
  Ret (ret, ki_pos, set_dev d s).

(** A NULL function pointer is not called. *)
Definition call {A} (p : option A) : outcome A := match p with Some a => Ret a | None => Undef end.

Definition do_sync_read (fuel : nat) (f : Z) (ops : file_operations) (buf len pos : Z) (s : io)
    : outcome (Z * Z * io) :=
  fn ← call (aio_read ops); do_sync_readv_writev fuel fn f [IOVec buf len] pos s.

Definition do_sync_write (fuel : nat) (f : Z) (ops : file_operations) (buf len pos : Z) (s : io)
    : outcome (Z * Z * io) :=
  fn ← call (aio_write ops); do_sync_readv_writev fuel fn f [IOVec buf len] pos s.

(** ** Reading and writing *)

Definition is_none {A} (o : option A) : bool := match o with None => true | Some _ => false end.

Definition vfs_read (fuel : nat) (f buf count pos : Z) (s : io) : outcome (Z * Z * io) :=
  k ← get_file s f;
  if negb (has_mode (f_mode k) FMODE_READ) then Ret (- EBADF, pos, s) else
  match f_op k with
  | None => Ret (- EINVAL, pos, s)
  | Some ops =>
    if is_none (read ops) && is_none (aio_read ops) then Ret (- EINVAL, pos, s) else
    if negb (access_ok env true buf count) then Ret (- EFAULT, pos, s) else
    let ret := rw_verify_area READ f k pos count s in
    if ret <? 0 then Ret (ret, pos, s) else
    let count := ret in
    let ret := security_file_permission env f MAY_READ in
    if negb (ret =? 0) then Ret (ret, pos, s) else
    '(ret, pos, s) ← match read ops with
                     | Some fn => let '(ret, pos, d) := fn (dev s) f buf count pos in Ret (ret, pos, set_dev d s)
                     | None => do_sync_read fuel f ops buf count pos s
                     end;
    let s := if 0 <? ret then add_rchar ret (notify (Accessed f) s) else s in
    Ret (ret, pos, inc_syscr s)
  end.

Definition vfs_write (fuel : nat) (f buf count pos : Z) (s : io) : outcome (Z * Z * io) :=
  k ← get_file s f;
  if negb (has_mode (f_mode k) FMODE_WRITE) then Ret (- EBADF, pos, s) else
  match f_op k with
  | None => Ret (- EINVAL, pos, s)
  | Some ops =>
    if is_none (write ops) && is_none (aio_write ops) then Ret (- EINVAL, pos, s) else
    if negb (access_ok env false buf count) then Ret (- EFAULT, pos, s) else
    let ret := rw_verify_area WRITE f k pos count s in
    if ret <? 0 then Ret (ret, pos, s) else
    let count := ret in
    let ret := security_file_permission env f MAY_WRITE in
    if negb (ret =? 0) then Ret (ret, pos, s) else
    '(ret, pos, s) ← match write ops with
                     | Some fn => let '(ret, pos, d) := fn (dev s) f buf count pos in Ret (ret, pos, set_dev d s)
                     | None => do_sync_write fuel f ops buf count pos s
                     end;
    let s := if 0 <? ret then add_wchar ret (notify (Modified f) s) else s in
    Ret (ret, pos, inc_syscw s)
  end.

(** The added function: neither the mode nor the security module is asked. *)
Definition vfs_forcewrite (fuel : nat) (f buff count pos : Z) (s : io) : outcome (Z * Z * io) :=
  k ← get_file s f;
  match f_op k with
  | None => Ret (- EINVAL, pos, s)
  | Some ops =>
    if is_none (write ops) && is_none (aio_write ops) then Ret (- EINVAL, pos, s) else
    if negb (access_ok env false buff count) then Ret (- EFAULT, pos, s) else
    let ret := rw_verify_area WRITE f k pos count s in
    if ret <? 0 then Ret (ret, pos, s) else
    let count := ret in
    '(ret, pos, s) ← match write ops with
                     | Some fn => let '(ret, pos, d) := fn (dev s) f buff count pos in Ret (ret, pos, set_dev d s)
                     | None => do_sync_write fuel f ops buff count pos s
                     end;
    let s := if 0 <? ret then add_wchar ret (notify (Modified f) s) else s in
    Ret (ret, pos, inc_syscw s)
  end.

(** [sys_read], [sys_write] and [sys_forcewrite]: the position is read before and
    written back after the call, whatever it returns. *)
Definition with_pos (op : Z → Z → io → outcome (Z * Z * io)) (fd : Z) (s : io) : outcome (Z * io) :=
  match fget s fd with
  | None => Ret (- EBADF, s)
  | Some f =>
    k ← get_file s f;
    '(ret, pos, s) ← op f (f_pos (f_st k)) s;
    k ← get_file s f;
    Ret (ret, set_st f k (FState pos (f_version (f_st k))) s)
  end.

Definition sys_read (fuel : nat) (fd buf count : Z) (s : io) : outcome (Z * io) :=
  with_pos (λ f pos s, vfs_read fuel f buf count pos s) fd s.

Definition sys_write (fuel : nat) (fd buf count : Z) (s : io) : outcome (Z * io) :=
  with_pos (λ f pos s, vfs_write fuel f buf count pos s) fd s.

Definition sys_forcewrite (fuel : nat) (fd buff count : Z) (s : io) : outcome (Z * io) :=
  with_pos (λ f pos s, vfs_forcewrite fuel f buff count pos s) fd s.

(** [sys_pread64] and [sys_pwrite64]: the caller gives the position. *)
Definition sys_pread64 (fuel : nat) (fd buf count pos : Z) (s : io) : outcome (Z * io) :=
  if pos <? 0 then Ret (- EINVAL, s) else
  match fget s fd with
  | None => Ret (- EBADF, s)
  | Some f =>
    k ← get_file s f;
    if negb (has_mode (f_mode k) FMODE_PREAD) then Ret (- ESPIPE, s) else
    '(ret, _, s) ← vfs_read fuel f buf count pos s; Ret (ret, s)
  end.

Definition sys_pwrite64 (fuel : nat) (fd buf count pos : Z) (s : io) : outcome (Z * io) :=
  if pos <? 0 then Ret (- EINVAL, s) else
  match fget s fd with
  | None => Ret (- EBADF, s)
  | Some f =>
    k ← get_file s f;
    if negb (has_mode (f_mode k) FMODE_PWRITE) then Ret (- ESPIPE, s) else
    '(ret, _, s) ← vfs_write fuel f buf count pos s; Ret (ret, s)
  end.
(** ** Vectors *)

(** The number of segments kept and the vector with the last of them cut. *)
Fixpoint iov_shorten_from (len : Z) (iov : list iovec) (to : Z) : Z * list iovec :=
  match iov with
  | [] => (0, [])
  | v :: iov' =>
    if to <=? u64 (len + iov_len v) then (1, IOVec (iov_base v) (u64 (to - len)) :: iov')
    else let '(seg, iov') := iov_shorten_from (u64 (len + iov_len v)) iov' to in (1 + seg, v :: iov')
  end.

Definition iov_shorten (iov : list iovec) (to : Z) : Z * list iovec := iov_shorten_from 0 iov to.

Fixpoint do_loop_readv_writev (fn : D → Z → Z → Z → Z → Z * Z * D) (f : Z) (vector : list iovec)
    (ret pos : Z) (d : D) : Z * Z * D :=
  match vector with
  | [] => (ret, pos, d)
  | v :: vector =>
    let '(nr, pos, d) := fn d f (iov_base v) (iov_len v) pos in
    if nr <? 0 then (if ret =? 0 then nr else ret, pos, d)
    else let ret := s64 (ret + nr) in
         if negb (nr =? iov_len v) then (ret, pos, d)
         else do_loop_readv_writev fn f vector ret pos d
  end.

(** Where the copied vector lives. *)
Inductive iov_ptr := FastIov | HeapIov | NullIov.

(** The checking loop, with the sum so far in [ret].  The source tests for the
    overflow of a signed sum after adding; C leaves this undefined, and it is taken
    here as the two's complement sum that the processor computes. *)
Fixpoint check_segs (type : Z) (iov : list iovec) (ret : Z) : Z :=
  match iov with
  | [] => ret
  | v :: iov =>
    let len := s64 (iov_len v) in
    if (len <? 0) || (s64 (ret + len) <? ret) then - EINVAL
    else if negb (access_ok env (type =? READ) (iov_base v) len) then - EFAULT
    else check_segs type iov (s64 (ret + len))
  end.

(** [sizeof(struct iovec)] is 16. *)
Definition user_vector (uvector nr_segs : Z) : list iovec :=
  map (λ seg, user_iovec env (uvector + 16 * Z.of_nat seg)) (seq 0 (Z.to_nat nr_segs)).

Definition rw_copy_check_uvector (type uvector nr_segs fast_segs : Z) (s : io) : Z * iov_ptr * list iovec * io :=
  if nr_segs =? 0 then (0, FastIov, [], s) else
  if UIO_MAXIOV <? nr_segs then (- EINVAL, FastIov, [], s) else
  if (fast_segs <? nr_segs) && negb (kmalloc env (nr_segs * 16)) then (- ENOMEM, NullIov, [], s) else
  let '(p, s) := if fast_segs <? nr_segs then (HeapIov, add_live 1 s) else (FastIov, s) in
  if negb (copy_from_user env uvector (nr_segs * 16)) then (- EFAULT, p, [], s) else
  let iov := user_vector uvector nr_segs in
  (check_segs type iov 0, p, iov, s).

Definition kfree_iov (p : iov_ptr) (s : io) : io := match p with HeapIov => add_live (-1) s | _ => s end.

(** What follows the label [out]. *)
Definition rwv_out (type f : Z) (r : Z * Z * iov_ptr * io) : Z * Z * io :=
  let '(ret, pos, p, s) := r in
  let s := kfree_iov p s in
  let s := if 0 <? ret + (if type =? READ then 1 else 0) then
             notify (if type =? READ then Accessed f else Modified f) s else s in
  (ret, pos, s).

Definition do_readv_writev (fuel : nat) (type f uvector nr_segs pos : Z) (s : io) : outcome (Z * Z * io) :=
  k ← get_file s f;
  r ← match f_op k with
      | None => Ret (- EINVAL, pos, FastIov, s)
      | Some ops =>
        let '(ret, p, iov, s) := rw_copy_check_uvector type uvector nr_segs UIO_FASTIOV s in
        if ret <=? 0 then Ret (ret, pos, p, s) else
        let tot_len := ret in
        let ret := rw_verify_area type f k pos tot_len s in
        if ret <? 0 then Ret (ret, pos, p, s) else
        let ret := security_file_permission env f (if type =? READ then MAY_READ else MAY_WRITE) in
        if negb (ret =? 0) then Ret (ret, pos, p, s) else
        match (if type =? READ then aio_read ops else aio_write ops) with
        | Some fnv => '(ret, pos, s) ← do_sync_readv_writev fuel fnv f iov pos s; Ret (ret, pos, p, s)
        | None => fn ← call (if type =? READ then read ops else write ops);
                  let '(ret, pos, d) := do_loop_readv_writev fn f iov 0 pos (dev s) in
                  Ret (ret, pos, p, set_dev d s)
        end
      end;
  Ret (rwv_out type f r).

Definition vfs_readv (fuel : nat) (f vec vlen pos : Z) (s : io) : outcome (Z * Z * io) :=
  k ← get_file s f;
  if negb (has_mode (f_mode k) FMODE_READ) then Ret (- EBADF, pos, s) else
  match f_op k with
  | None => Ret (- EINVAL, pos, s)
  | Some ops => if is_none (aio_read ops) && is_none (read ops) then Ret (- EINVAL, pos, s)
                else do_readv_writev fuel READ f vec vlen pos s
  end.

Definition vfs_writev (fuel : nat) (f vec vlen pos : Z) (s : io) : outcome (Z * Z * io) :=
  k ← get_file s f;
  if negb (has_mode (f_mode k) FMODE_WRITE) then Ret (- EBADF, pos, s) else
  match f_op k with
  | None => Ret (- EINVAL, pos, s)
  | Some ops => if is_none (aio_write ops) && is_none (write ops) then Ret (- EINVAL, pos, s)
                else do_readv_writev fuel WRITE f vec vlen pos s
  end.

Definition sys_readv (fuel : nat) (fd vec vlen : Z) (s : io) : outcome (Z * io) :=
  '(ret, s) ← with_pos (λ f pos s, vfs_readv fuel f vec vlen pos s) fd s;
  Ret (ret, inc_syscr (if 0 <? ret then add_rchar ret s else s)).

Definition sys_writev (fuel : nat) (fd vec vlen : Z) (s : io) : outcome (Z * io) :=
  '(ret, s) ← with_pos (λ f pos s, vfs_writev fuel f vec vlen pos s) fd s;
  Ret (ret, inc_syscw (if 0 <? ret then add_wchar ret s else s)).

(** ** Sending *)

Definition positions (s : io) : gmap Z Z := (λ k, f_pos (f_st k)) <$> files s.

Definition set_positions (m : gmap Z Z) (s : io) : io :=
  set_files (map_imap (λ f k, Some (KFile (f_mode k) (FState (default (f_pos (f_st k)) (m !! f)) (f_version (f_st k)))
                                          (f_op k) (s_maxbytes k) (mandatory_lock k) (has_inode k))) (files s)) s.

(** The position [ppos] points at. *)
Definition deref (ppos : option Z) (f : Z) (m : gmap Z Z) : outcome Z :=
  match ppos with Some p => Ret p | None => call (m !! f) end.

(** The count cut at [max], or the error. *)
Definition clip_count (pos count max : Z) : Z + Z :=
  if pos <? 0 then inl (- EINVAL)
  else if u64 max <? u64 (pos + count) then (if max <=? pos then inl (- EOVERFLOW) else inr (u64 (max - pos)))
  else inr count.

(** From the output file on. *)
Definition sendfile_out (out_fd in_file : Z) (kin : kfile) (fn : D → gmap Z Z → Z → option Z → Z → Z → Z * option Z * gmap Z Z * D)
    (ppos : option Z) (count max : Z) (s : io) : outcome (Z * option Z * io) :=
  match fget s out_fd with
  | None => Ret (- EBADF, ppos, s)
  | Some out_file =>
    kout ← get_file s out_file;
    if negb (has_mode (f_mode kout) FMODE_WRITE) then Ret (- EBADF, ppos, s) else
    if match f_op kout with Some ops => negb (sendpage ops) | None => true end then Ret (- EINVAL, ppos, s) else
    let retval := rw_verify_area WRITE out_file kout (f_pos (f_st kout)) count s in
    if retval <? 0 then Ret (retval, ppos, s) else
    let count := retval in
    let retval := security_file_permission env out_file MAY_WRITE in
    if negb (retval =? 0) then Ret (retval, ppos, s) else
    let max := if max =? 0 then Z.min (s_maxbytes kin) (s_maxbytes kout) else max in
    pos ← deref ppos in_file (positions s);
    match clip_count pos count max with
    | inl e => Ret (e, ppos, s)
    | inr count =>
      let '(retval, ppos, m, d) := fn (dev s) (positions s) in_file ppos count out_file in
      let s := set_positions m (set_dev d s) in
      let s := if 0 <? retval then add_wchar retval (add_rchar retval s) else s in
      let s := inc_syscw (inc_syscr s) in
      pos ← deref ppos in_file (positions s);
      Ret (if max <? pos then - EOVERFLOW else retval, ppos, s)
    end
  end.

Definition do_sendfile (out_fd in_fd : Z) (ppos : option Z) (count max : Z) (s : io) : outcome (Z * option Z * io) :=
  match fget s in_fd with
  | None => Ret (- EBADF, ppos, s)
  | Some in_file =>
    kin ← get_file s in_file;
    if negb (has_mode (f_mode kin) FMODE_READ) then Ret (- EBADF, ppos, s) else
    if negb (has_inode kin) then Ret (- EINVAL, ppos, s) else
    match (ops ← f_op kin; sendfile ops) with
    | None => Ret (- EINVAL, ppos, s)
    | Some fn =>
      if negb (is_none ppos) && negb (has_mode (f_mode kin) FMODE_PREAD) then Ret (- ESPIPE, ppos, s) else
      pos ← deref ppos in_file (positions s);
      let retval := rw_verify_area READ in_file kin pos count s in
      if retval <? 0 then Ret (retval, ppos, s) else
      let count := retval in
      let retval := security_file_permission env in_file MAY_READ in
      if negb (retval =? 0) then Ret (retval, ppos, s) else
      sendfile_out out_fd in_file kin fn ppos count max s
    end
  end.

(** [offset] is NULL, or the position read from it ([None] inside when that
    faults) and whether the new one can be stored.  The second result is the
    value stored. *)
Definition sendfile_at (max out_fd in_fd : Z) (offset : option (option Z * bool)) (count : Z) (s : io)
    : outcome (Z * option Z * io) :=
  match offset with
  | None => '(ret, _, s) ← do_sendfile out_fd in_fd None count 0 s; Ret (ret, None, s)
  | Some (None, _) => Ret (- EFAULT, None, s)
  | Some (Some pos, stored) =>
    '(ret, ppos, s) ← do_sendfile out_fd in_fd (Some pos) count max s;
    Ret (if stored then (ret, ppos, s) else (- EFAULT, None, s))
  end.

Definition sys_sendfile := sendfile_at MAX_NON_LFS.
Definition sys_sendfile64 := sendfile_at 0.
End vfs.
Arguments file_operations D : clear implicits.
Arguments kfile D : clear implicits.
Arguments io D : clear implicits.
Arguments env D : clear implicits.


(** ** Forcing a write *)

Section forcewrite.
Context {D : Type} (e : env D).

(** The same kernel without a security module that refuses. *)
Definition granting : env D :=
  Env (access_ok e) (i_size e) (locks_mandatory_area e) (λ _ _, 0) (wait_on_sync_kiocb e)
      (kmalloc e) (copy_from_user e) (user_iovec e).

(** File [f] opened with mode [m] instead. *)
Definition with_mode (f m : Z) (s : io D) : io D :=
  set_files (alter (λ k, KFile m (f_st k) (f_op k) (s_maxbytes k) (mandatory_lock k) (has_inode k)) f (files s)) s.

Lemma with_mode_back f k m s :
  files s !! f = Some k → with_mode f (f_mode k) (with_mode f m s) = s.
Proof.
  intros Hk. destruct s as [d fs t rc wc sr sw ev lv]. unfold with_mode, set_files. simpl in *. f_equal.
  apply map_eq. intros i. destruct (decide (i = f)) as [->|Hi].
  - rewrite !lookup_alter_eq, Hk. destruct k. done.
  - by rewrite !lookup_alter_ne.
Qed.

Lemma has_mode_lor m b : 0 < b → has_mode (Z.lor m b) b = true.
Proof.
  intros Hb. unfold has_mode, z2b. apply negb_true_iff, Z.eqb_neq. intros E.
  rewrite Z.land_comm, Z.land_lor_distr_r, Z.land_diag in E. apply Z.lor_eq_0_iff in E. lia.
Qed.

Lemma files_with_mode f k m s :
  files s !! f = Some k →
  files (with_mode f m s) !! f = Some (KFile m (f_st k) (f_op k) (s_maxbytes k) (mandatory_lock k) (has_inode k)).
Proof. intros Hk. unfold with_mode, set_files. cbn [files]. by rewrite lookup_alter_eq, Hk. Qed.

(** What follows a driver's call commutes with the mode. *)
Definition wrote (f ret : Z) (d : D) (s : io D) : io D :=
  inc_syscw (if 0 <? ret then add_wchar ret (notify (Modified f) (set_dev d s)) else set_dev d s).

Lemma wrote_with_mode f g m ret d s :
  with_mode g m (wrote f ret d s) = wrote f ret d (with_mode g m s).
Proof. unfold wrote. by destruct (0 <? ret). Qed.

(** The call of the driver's write operation, synchronous or not, keeps to the
    driver's state. *)
Definition driver_write (fuel : nat) (ops : file_operations D) (f buf n pos : Z) (d : D) : outcome (Z * Z * D) :=
  match write ops with
  | Some fn => Ret (fn d f buf n pos)
  | None =>
    fn ← call (aio_write ops);
    '(ret, p, d) ← sync_loop fuel fn f [IOVec buf n] pos d;
    Ret (if ret =? - EIOCBQUEUED then wait_on_sync_kiocb e d p else (ret, p, d))
  end.

Lemma driver_write_spec fuel ops f buf n pos s :
  ('(ret, p, s) ← match write ops with
                  | Some fn => let '(ret, p, d) := fn (dev s) f buf n pos in Ret (ret, p, set_dev d s)
                  | None => do_sync_write e fuel f ops buf n pos s
                  end;
   Ret (ret, p, inc_syscw (if 0 <? ret then add_wchar ret (notify (Modified f) s) else s))) =
  ('(ret, p, d) ← driver_write fuel ops f buf n pos (dev s); Ret (ret, p, wrote f ret d s)).
Proof.
  unfold driver_write. destruct (write ops) as [fn|].
  { by destruct (fn _ _ _ _ _) as [[ret p] d]. }
  unfold do_sync_write. destruct (aio_write ops) as [fn|]; [|done]. cbn [call mbind outcome_bind].
  unfold do_sync_readv_writev. destruct (sync_loop _ _ _ _ _ _) as [[[ret p] d]| | |]; [|done..].
  cbn [mbind outcome_bind].
  by destruct (if ret =? - EIOCBQUEUED then _ else _) as [[??]?].
Qed.
End forcewrite.

(** [vfs_forcewrite] is [vfs_write] on a file opened for writing under a
    security module that refuses nothing, whatever the file's real mode and the
    real module say: the two give the same result, position and state.  On a
    file that is not open for writing [vfs_write] itself refuses. *)
Theorem vfs_forcewrite_unchecked {D} (e : env D) fuel f k buf count pos s :
  files s !! f = Some k →
  vfs_forcewrite e fuel f buf count pos s =
    ('(ret, p, t) ← vfs_write (granting e) fuel f buf count pos (with_mode f (Z.lor (f_mode k) FMODE_WRITE) s);
     Ret (ret, p, with_mode f (f_mode k) t)) ∧
  (has_mode (f_mode k) FMODE_WRITE = false → vfs_write e fuel f buf count pos s = Ret (- EBADF, pos, s)).
Proof.
  intros Hk. split; [|intros Hm; unfold vfs_write, get_file; rewrite Hk; simpl; by rewrite Hm].
  unfold vfs_forcewrite, vfs_write, get_file. rewrite (files_with_mode _ _ _ _ Hk), Hk.
  cbn [mbind outcome_bind f_mode f_op]. rewrite has_mode_lor by done. cbn [negb].
  set (s' := with_mode f _ s). assert (with_mode f (f_mode k) s' = s) as Eb by (by apply with_mode_back).
  destruct (f_op k) as [ops|]; [|cbn [mbind outcome_bind]; by rewrite Eb].
  destruct (is_none _ && is_none _); [cbn [mbind outcome_bind]; by rewrite Eb|]. cbn [access_ok granting].
  destruct (access_ok _ _ _ _); cbn [negb]; [|cbn [mbind outcome_bind]; by rewrite Eb].
  change (rw_verify_area (granting e) WRITE f _ pos count s') with (rw_verify_area e WRITE f k pos count s).
  set (n := rw_verify_area e WRITE f k pos count s). destruct (n <? 0); [cbn [mbind outcome_bind]; by rewrite Eb|].
  cbn [security_file_permission granting]. change (negb (0 =? 0)) with false. cbv iota.
  rewrite (driver_write_spec e), (driver_write_spec (granting e)).
  change (driver_write (granting e) fuel ops f buf n pos (dev s')) with (driver_write e fuel ops f buf n pos (dev s)).
  destruct (driver_write _ _ _ _ _ _ _ _) as [[[ret p] d]| | |]; [|done..].
  cbn [mbind outcome_bind]. by rewrite wrote_with_mode, Eb.
Qed.

(** ** Areas and vectors *)

Section vectors.
Context {D : Type} (e : env D).

Definition sum_len (iov : list iovec) : Z := foldr (λ v n, iov_len v + n) 0 iov.

(** Every segment is memory the user may hand over. *)
Definition accessible (type : Z) (iov : list iovec) : bool :=
  forallb (λ v, access_ok e (type =? READ) (iov_base v) (iov_len v)) iov.

Definition lens_ok (iov : list iovec) : Prop := Forall (λ v, 0 ≤ iov_len v < 2 ^ 64) iov.

Lemma sum_len_nonneg iov : lens_ok iov → 0 ≤ sum_len iov.
Proof. induction 1; simpl; lia. Qed.

Lemma s64_high x : 2 ^ 63 ≤ x < 2 ^ 64 → s64 x = x - 2 ^ 64.
Proof. intros. cint. Qed.

Lemma s64_small x : - 2 ^ 63 ≤ x < 2 ^ 63 → s64 x = x.
Proof. intros. apply wraps_small; lia. Qed.

(** The loop adds up the lengths exactly when the sum fits and every segment is
    accessible. *)
Lemma check_segs_sum type iov ret :
  lens_ok iov → 0 ≤ ret < 2 ^ 63 →
  if (ret + sum_len iov <? 2 ^ 63) && accessible type iov then check_segs e type iov ret = ret + sum_len iov
  else check_segs e type iov ret = - EINVAL ∨ check_segs e type iov ret = - EFAULT.
Proof.
  intros Hl. revert ret. induction Hl as [|v iov Hv Hl IH]; intros ret Hret.
  { cbn. destruct (Z.ltb_spec (ret + 0) (2 ^ 63)); simpl; lia. }
  cbn [check_segs sum_len foldr accessible forallb]. fold (sum_len iov) (accessible type iov).
  pose proof (sum_len_nonneg iov Hl).
  destruct (Z.ltb_spec (iov_len v) (2 ^ 63)).
  2:{ rewrite (s64_high (iov_len v)) by lia.
      destruct (Z.ltb_spec (iov_len v - 2 ^ 64) 0); [|lia]. simpl.
      destruct (Z.ltb_spec (ret + (iov_len v + sum_len iov)) (2 ^ 63)); [lia|]. by left. }
  rewrite (s64_small (iov_len v)) by lia. destruct (Z.ltb_spec (iov_len v) 0); [lia|]. cbn [orb].
  destruct (Z.ltb_spec (ret + iov_len v) (2 ^ 63)).
  - rewrite s64_small by lia. destruct (Z.ltb_spec (ret + iov_len v) ret); [lia|].
    destruct (access_ok _ _ _ _); cbn [negb andb]; [|rewrite andb_false_r; by right].
    specialize (IH (ret + iov_len v)). rewrite Z.add_assoc. apply IH. lia.
  - rewrite s64_high by lia. destruct (Z.ltb_spec (ret + iov_len v - 2 ^ 64) ret); [|lia].
    destruct (Z.ltb_spec (ret + (iov_len v + sum_len iov)) (2 ^ 63)); [lia|]. by left.
Qed.

(** What a driver does with one buffer: it transfers at most what was asked. *)
Definition honest (fn : D → Z → Z → Z → Z → Z * Z * D) : Prop :=
  ∀ d f base len pos, 0 ≤ len → (fn d f base len pos).1.1 ≤ len.

Lemma do_loop_bound fn f iov ret pos d :
  honest fn → lens_ok iov → 0 ≤ ret → ret + sum_len iov < 2 ^ 63 →
  (do_loop_readv_writev fn f iov ret pos d).1.1 ≤ ret + sum_len iov ∧
  (0 < ret → ret ≤ (do_loop_readv_writev fn f iov ret pos d).1.1).
Proof.
  intros Hf Hl. revert ret pos d. induction Hl as [|v iov Hv Hl IH]; intros ret pos d Hret Hs; [simpl; lia|].
  cbn [do_loop_readv_writev sum_len foldr] in *. fold (sum_len iov) in *.
  pose proof (sum_len_nonneg iov Hl). pose proof (Hf d f (iov_base v) (iov_len v) pos ltac:(lia)) as Hn.
  destruct (fn d f (iov_base v) (iov_len v) pos) as [[nr pos'] d']. simpl in Hn.
  destruct (Z.ltb_spec nr 0); [zcase; simpl; lia|].
  rewrite s64_small by lia. destruct (Z.eqb_spec nr (iov_len v)); cbn [negb]; [|simpl; lia].
  specialize (IH (ret + nr) pos' d' ltac:(lia) ltac:(lia)). lia.
Qed.

Lemma user_vector_lens uvector nr_segs :
  (∀ a, 0 ≤ iov_len (user_iovec e a) < 2 ^ 64) → lens_ok (user_vector e uvector nr_segs).
Proof. intros He. apply Forall_forall. intros v (i & -> & _)%list_elem_of_fmap. apply He. Qed.
End vectors.

(** C39: [rw_copy_check_uvector] returns the sum of the lengths of the segments
    the user passed, and does so exactly when there are at most 1024 of them, the
    vector could be allocated and copied, every segment is accessible and the sum fits in 63
    bits; otherwise it returns one of its error codes.  It leaves one allocation
    behind exactly when it hands out a vector from the heap. *)
Theorem rw_copy_check_uvector_sum {D} (e : env D) type uvector nr_segs s r p iov t :
  (∀ a, 0 ≤ iov_len (user_iovec e a) < 2 ^ 64) → 0 ≤ nr_segs →
  rw_copy_check_uvector e type uvector nr_segs UIO_FASTIOV s = (r, p, iov, t) →
  let v := user_vector e uvector nr_segs in
  let good := (nr_segs <=? UIO_MAXIOV) && ((nr_segs <=? UIO_FASTIOV) || kmalloc e (nr_segs * 16)) &&
              ((nr_segs =? 0) || copy_from_user e uvector (nr_segs * 16)) && (sum_len v <? 2 ^ 63) && accessible e type v in
  (if good then r = sum_len v ∧ iov = v else r ∈ [- EINVAL; - ENOMEM; - EFAULT]) ∧
  t = add_live (match p with HeapIov => 1 | _ => 0 end) s.
Proof.
  intros He Hn. unfold rw_copy_check_uvector, UIO_FASTIOV, UIO_MAXIOV.
  assert (add_live 0 s = s) as E0 by (destruct s; unfold add_live; simpl; by rewrite Z.add_0_r).
  destruct (Z.eqb_spec nr_segs 0) as [->|Hn0].
  { intros [= <- <- <- <-]. rewrite E0. simpl. done. }
  destruct (Z.leb_spec nr_segs 1024), (Z.ltb_spec 1024 nr_segs); try lia.
  2:{ intros [= <- <- <- <-]. rewrite E0. split; [|done]. cbn [andb]. set_solver. }
  pose proof (check_segs_sum e type (user_vector e uvector nr_segs) 0 (user_vector_lens e uvector nr_segs He) ltac:(lia)) as Hc.
  rewrite Z.add_0_l in Hc.
  destruct (Z.leb_spec nr_segs 8), (Z.ltb_spec 8 nr_segs); try lia; cbn [andb orb negb];
    [|destruct (kmalloc e (nr_segs * 16)); cbn [andb orb negb]; [|intros [= <- <- <- <-]; rewrite E0; split; [set_solver|done]]];
    destruct (copy_from_user _ _ _); cbn [andb negb]; intros [= <- <- <- <-];
    (split; [|by rewrite ?E0]); try set_solver;
    destruct (_ && accessible _ _ _); [by split|destruct Hc as [-> | ->]; set_solver|by split|destruct Hc as [-> | ->]; set_solver].
Qed.

(** The area a transfer may touch. *)
Lemma rw_verify_area_bound {D} (e : env D) rw f k pos count s :
  0 ≤ count < 2 ^ 64 → pos < 2 ^ 63 →
  let r := rw_verify_area e rw f k pos count s in
  0 ≤ r → r ≤ count ∧ r ≤ MAX_RW_COUNT ∧ 0 ≤ pos ∧ pos + count < 2 ^ 63.
Proof.
  intros Hc Hp. unfold rw_verify_area. change MAX_RW_COUNT with 2147479552.
  destruct (Z.ltb_spec (s64 count) 0); [unfold EINVAL; simpl; lia|].
  assert (count < 2 ^ 63) by (destruct (decide (count < 2 ^ 63)); [done|rewrite s64_high in *; lia]).
  destruct (Z.ltb_spec pos 0); [unfold EINVAL; simpl; lia|]. cbn [orb].
  rewrite wrapu_small by lia. destruct (Z.ltb_spec (s64 (pos + count)) 0); [unfold EINVAL; simpl; lia|].
  assert (pos + count < 2 ^ 63) by (destruct (decide (pos + count < 2 ^ 63)); [done|rewrite s64_high in *; lia]).
  set (q := if mandatory_lock k then _ else 0). zcase; lia.
Qed.

(** The checked part of a write: nothing changed, or the driver was called. *)
Definition write_outcome {D} (e : env D) fuel f buf count pos (s : io D) (r : Z * Z * io D) : Prop :=
  (r.1.2 = pos ∧ r.2 = s) ∨
  ∃ k ops n d, files s !! f = Some k ∧ f_op k = Some ops ∧
    0 ≤ n ∧ n ≤ count ∧ n ≤ MAX_RW_COUNT ∧ 0 ≤ pos ∧ pos + n < 2 ^ 63 ∧
    access_ok e false buf count = true ∧
    driver_write e fuel ops f buf n pos (dev s) = Ret (r.1.1, r.1.2, d) ∧ r.2 = wrote f r.1.1 d s.

Lemma vfs_forcewrite_outcome {D} (e : env D) fuel f buf count pos s r :
  0 ≤ count < 2 ^ 64 → pos < 2 ^ 63 →
  vfs_forcewrite e fuel f buf count pos s = Ret r → write_outcome e fuel f buf count pos s r.
Proof.
  intros Hc Hp. unfold vfs_forcewrite, get_file. destruct (files s !! f) as [k|] eqn:Hk; [|done]. cbn [mbind outcome_bind].
  destruct (f_op k) as [ops|] eqn:Ho; [|intros [= <-]; by left].
  destruct (is_none _ && is_none _); [intros [= <-]; by left|].
  destruct (access_ok _ _ _ _) eqn:Ha; cbn [negb]; [|intros [= <-]; by left].
  pose proof (rw_verify_area_bound e WRITE f k pos count s Hc Hp) as Hb. cbv zeta in Hb.
  set (n := rw_verify_area e WRITE f k pos count s) in *.
  destruct (Z.ltb_spec n 0); [intros [= <-]; by left|].
  rewrite driver_write_spec. destruct (driver_write _ _ _ _ _ _ _ _) as [[[ret p] d]| | |] eqn:Hd; [|done..].
  intros [= <-]. right. exists k, ops, n, d. destruct (Hb ltac:(lia)). repeat split; try done; lia.
Qed.

Lemma vfs_write_forcewrite {D} (e : env D) fuel f buf count pos s r :
  vfs_write e fuel f buf count pos s = Ret r →
  (r.1.2 = pos ∧ r.2 = s) ∨ vfs_forcewrite e fuel f buf count pos s = Ret r.
Proof.
  unfold vfs_write, vfs_forcewrite, get_file. destruct (files s !! f) as [k|]; [|done]. cbn [mbind outcome_bind].
  destruct (has_mode _ _); cbn [negb]; [|intros [= <-]; by left].
  destruct (f_op k) as [ops|]; [|intros [= <-]; by left].
  destruct (is_none _ && is_none _); [intros [= <-]; by left|].
  destruct (access_ok _ _ _ _); cbn [negb]; [|intros [= <-]; by left].
  set (n := rw_verify_area e WRITE f k pos count s).
  destruct (n <? 0); [intros [= <-]; by left|].
  destruct (negb (security_file_permission e f MAY_WRITE =? 0)); [intros [= <-]; by left|]. by right.
Qed.

(** [vfs_write] and [vfs_forcewrite] either leave position and state alone
    or make one call of the driver, on accessible memory, with a count of at most
    [MAX_RW_COUNT] and of at most what was asked, at a position from which the
    transfer cannot run past the largest file offset; what the driver returns is
    what the caller gets, and the accounting follows it. *)
Theorem vfs_write_bounded {D} (e : env D) fuel f buf count pos s r :
  0 ≤ count < 2 ^ 64 → pos < 2 ^ 63 →
  (vfs_write e fuel f buf count pos s = Ret r → write_outcome e fuel f buf count pos s r) ∧
  (vfs_forcewrite e fuel f buf count pos s = Ret r → write_outcome e fuel f buf count pos s r).
Proof.
  intros Hc Hp. split; [|by apply vfs_forcewrite_outcome].
  intros [?|?]%vfs_write_forcewrite; [by left|by apply vfs_forcewrite_outcome].
Qed.

(** ** Balance of the vector calls *)

(** The state before the label [out]: the vector [p] is allocated, nothing was
    opened, closed or moved. *)
Definition holds_vector {D} (s : io D) (p : iov_ptr) (t : io D) : Prop :=
  live t = live s + match p with HeapIov => 1 | _ => 0 end ∧ files t = files s ∧ fds t = fds s.

Lemma rwv_out_balanced {D} type f r pos q (s s1 : io D) ret p t :
  holds_vector s q s1 → rwv_out type f (r, pos, q, s1) = (ret, p, t) →
  ret = r ∧ live t = live s ∧ files t = files s ∧ fds t = fds s.
Proof.
  intros (Hl & Hf & Hd). unfold rwv_out. intros [= <- <- <-].
  destruct q, (0 <? _); simpl; rewrite ?Hl; split_and!; done || lia.
Qed.

#[local] Instance Ret_inj {A} : Inj (=) (=) (@Ret A).
Proof. by intros x y [= ->]. Qed.

(** The operations of a driver that a vector call of this [type] may use
    without an asynchronous operation. *)
Definition loop_fn {D} (type : Z) (ops : file_operations D) := if type =? READ then read ops else write ops.
Definition vec_fn {D} (type : Z) (ops : file_operations D) := if type =? READ then aio_read ops else aio_write ops.

Lemma rw_copy_check_uvector_live {D} (e : env D) type uvector nr_segs (s : io D) r p iov t :
  rw_copy_check_uvector e type uvector nr_segs UIO_FASTIOV s = (r, p, iov, t) → holds_vector s p t.
Proof.
  unfold rw_copy_check_uvector, holds_vector. destruct (_ =? 0); [intros [= <- <- <- <-]; split_and!; done || lia|].
  destruct (_ <? nr_segs); [intros [= <- <- <- <-]; split_and!; done || lia|].
  destruct (UIO_FASTIOV <? nr_segs); cbn [andb]; [destruct (kmalloc _ _); cbn [negb]|];
    try destruct (copy_from_user _ _ _); intros [= <- <- <- <-]; simpl; split_and!; done || lia.
Qed.

Lemma check_uvector_positive {D} (e : env D) type uvector nr_segs (s : io D) r p iov t :
  (∀ a, 0 ≤ iov_len (user_iovec e a) < 2 ^ 64) →
  rw_copy_check_uvector e type uvector nr_segs UIO_FASTIOV s = (r, p, iov, t) → 0 < r →
  iov = user_vector e uvector nr_segs ∧ r = sum_len iov ∧ r < 2 ^ 63.
Proof.
  intros He. unfold rw_copy_check_uvector. destruct (_ =? 0); [intros [= <- <- <- <-]; lia|].
  destruct (_ <? nr_segs); [intros [= <- <- <- <-]; unfold EINVAL; lia|].
  destruct (_ && _); [intros [= <- <- <- <-]; unfold ENOMEM; lia|].
  destruct (if UIO_FASTIOV <? nr_segs then _ else _) as [q s'].
  destruct (copy_from_user _ _ _); cbn [negb]; [|intros [= <- <- <- <-]; unfold EFAULT; lia].
  intros [= <- <- <- <-] Hr. split; [done|].
  pose proof (check_segs_sum e type _ 0 (user_vector_lens e uvector nr_segs He) ltac:(lia)) as Hc.
  destruct (Z.ltb_spec (0 + sum_len (user_vector e uvector nr_segs)) (2 ^ 63)), (accessible _ _ _); simpl in Hc;
    try (destruct Hc as [Hc|Hc]; rewrite Hc in Hr; unfold EINVAL, EFAULT in Hr; lia). lia.
Qed.

(** a vector read or write frees the vector it allocated on every path,
    errors included, opens and closes nothing and moves no file position itself;
    when the segments go one by one to a driver that transfers at most what it is
    given, the result is at most the sum of the segments' lengths. *)
Theorem do_readv_writev_balanced {D} (e : env D) fuel type f k ops uvector nr_segs pos s ret p t :
  (∀ a, 0 ≤ iov_len (user_iovec e a) < 2 ^ 64) → (∀ g m, security_file_permission e g m ≤ 0) →
  files s !! f = Some k → f_op k = Some ops → 0 ≤ pos < 2 ^ 63 →
  do_readv_writev e fuel type f uvector nr_segs pos s = Ret (ret, p, t) →
  live t = live s ∧ files t = files s ∧ fds t = fds s ∧
  (vec_fn type ops = None → (∀ fn, loop_fn type ops = Some fn → honest fn) → 0 < ret →
   ret ≤ sum_len (user_vector e uvector nr_segs) < 2 ^ 63).
Proof.
  intros He Hsec Hk Ho Hpos. unfold do_readv_writev, get_file. rewrite Hk. cbn [mbind outcome_bind]. rewrite Ho.
  destruct (rw_copy_check_uvector e type uvector nr_segs UIO_FASTIOV s) as [[[r q] iov] s1] eqn:Ec.
  pose proof (rw_copy_check_uvector_live _ _ _ _ _ _ _ _ _ Ec) as Hl. fold (vec_fn type ops) (loop_fn type ops).
  assert (∀ r', r' ≤ 0 → rwv_out type f (r', pos, q, s1) = (ret, p, t) →
    live t = live s ∧ files t = files s ∧ fds t = fds s ∧
    (vec_fn type ops = None → (∀ fn, loop_fn type ops = Some fn → honest fn) → 0 < ret →
     ret ≤ sum_len (user_vector e uvector nr_segs) < 2 ^ 63)) as Herr.
  { intros r' Hr' E. apply (rwv_out_balanced _ _ _ _ _ s) in E as (-> & ? & ? & ?); [|done]. repeat split; try done; lia. }
  destruct (Z.leb_spec r 0); [cbn [mbind outcome_bind]; intros E%(inj Ret); by apply (Herr r)|].
  set (n := rw_verify_area e type f k pos r s1). destruct (Z.ltb_spec n 0); [cbn [mbind outcome_bind]; intros E%(inj Ret); apply (Herr n); [lia|done]|].
  set (sec := security_file_permission e f _).
  destruct (Z.eqb_spec sec 0); cbn [negb]; [|cbn [mbind outcome_bind]; intros E%(inj Ret); apply (Herr sec); [apply Hsec|done]].
  destruct (vec_fn type ops) as [fnv|].
  - unfold do_sync_readv_writev. destruct (sync_loop _ _ _ _ _ _) as [[[x y] d]| | |]; [|done..]. cbn [mbind outcome_bind].
    destruct (if x =? - EIOCBQUEUED then _ else _) as [[x' y'] d']. cbn [mbind outcome_bind]. cbn [mbind outcome_bind]; intros E%(inj Ret).
    apply (rwv_out_balanced _ _ _ _ _ s) in E as (_ & ? & ? & ?); [done|exact Hl].
  - destruct (loop_fn type ops) as [fn|]; [|done]. cbn [call mbind outcome_bind].
    destruct (check_uvector_positive _ _ _ _ _ _ _ _ _ He Ec ltac:(lia)) as (-> & -> & ?).
    pose proof (do_loop_bound fn f (user_vector e uvector nr_segs) 0 pos (dev s1)) as Hb.
    destruct (do_loop_readv_writev _ _ _ _ _ _) as [[x y] d]. simpl in Hb. cbn [mbind outcome_bind]; intros E%(inj Ret).
    apply (rwv_out_balanced _ _ _ _ _ s) in E as (-> & ? & ? & ?); [|exact Hl].
    split; [done|]. split; [done|]. split; [done|]. intros _ Hh _.
    destruct Hb as [Hb _]; [by apply Hh|by apply user_vector_lens|lia|lia|lia].
Qed.

(** ** Seeking and telling *)

(** Files whose position is moved by [default_llseek] or [generic_file_llseek]. *)
Definition plain_seek {D} (e : env D) (k : kfile D) : Prop :=
  has_mode (f_mode k) FMODE_LSEEK = true ∧
  match f_op k with
  | None => True
  | Some ops => llseek ops = None ∨ ∃ m, llseek ops = Some (λ d f, generic_file_llseek (i_size e d f) m)
  end.

Definition kset {D} (k : kfile D) (st : fstate) : kfile D :=
  KFile (f_mode k) st (f_op k) (s_maxbytes k) (mandatory_lock k) (has_inode k).

Lemma set_st_id {D} f (k : kfile D) s : files s !! f = Some k → set_st f k (f_st k) s = s.
Proof.
  intros Hk. unfold set_st. replace (KFile _ _ _ _ _ _) with k by by destruct k.
  rewrite insert_id by done. by destruct s.
Qed.

(** Both of them go to the target of the switch, or refuse. *)
Lemma plain_seek_step {D} (e : env D) f k :
  plain_seek e k → ∃ ok : Z → bool, ∀ s st offset origin,
  files s !! f = Some (kset k st) →
  let target := seek_target (i_size e (dev s) f) st offset origin in
  vfs_llseek e f offset origin s =
  Ret (if (0 <=? target) && ok target then (target, set_st f (kset k st) (move_to st target) s) else (- EINVAL, s)).
Proof.
  intros [Hm Hs].
  assert (∃ ok : Z → bool, ∀ d st offset origin,
    match f_op k with
    | Some ops => match llseek ops with Some fn => fn d f | None => default_llseek (i_size e d f) end
    | None => default_llseek (i_size e d f)
    end st offset origin =
    let target := seek_target (i_size e d f) st offset origin in
    if (0 <=? target) && ok target then (target, move_to st target) else (- EINVAL, st)) as [ok Hok].
  { assert (∀ d st offset origin, default_llseek (i_size e d f) st offset origin =
      let target := seek_target (i_size e d f) st offset origin in
      if (0 <=? target) && true then (target, move_to st target) else (- EINVAL, st)).
    { intros. unfold default_llseek. cbv zeta. by rewrite andb_true_r. }
    destruct (f_op k) as [ops|]; [destruct Hs as [-> | [m ->]]|];
      [by exists (λ _, true)|by exists (λ t, t <=? m)|by exists (λ _, true)]. }
  exists ok. intros s st offset origin Hf target. unfold vfs_llseek, get_file. rewrite Hf. cbn [mbind outcome_bind].
  cbn [f_mode f_op f_st kset]. rewrite Hm, Hok. fold target. cbv zeta. fold target.
  destruct (_ && _); [done|]. f_equal. f_equal. by apply (set_st_id f (kset k st)).
Qed.

Lemma seek_target_range size f offset origin :
  - 2 ^ 63 ≤ offset < 2 ^ 63 → - 2 ^ 63 ≤ seek_target size f offset origin < 2 ^ 63.
Proof. intros. unfold seek_target. repeat case_match; try done; apply (wraps_range 64); lia. Qed.

(** a seek on a file with the default or the generic operation returns; one
    that returns a position is remembered and one that fails changes nothing:
    asking for the current position afterwards gives the result of the seek, which
    is the target of the switch on [origin], and no other file has moved. *)
Theorem lseek_tell {D} (e : env D) fd f k offset origin s :
  fds s !! fd = Some f → files s !! f = Some k → plain_seek e k → - 2 ^ 63 ≤ offset < 2 ^ 63 →
  ∃ r t, sys_lseek e fd offset origin s = Ret (r, t) ∧
  (r < 0 → t = s) ∧
  (0 ≤ r → r = seek_target (i_size e (dev s) f) (f_st k) offset origin ∧
           sys_lseek e fd 0 SEEK_CUR t = Ret (r, t) ∧
           ∀ g, g ≠ f → files t !! g = files s !! g).
Proof.
  intros Hfd Hk Hp Ho. unfold sys_lseek, fget. rewrite Hfd. change (SEEK_CUR <=? SEEK_MAX) with true.
  destruct (origin <=? SEEK_MAX); [|eexists _, _; split; [done|]; split; [done|unfold EINVAL; lia]].
  destruct (plain_seek_step e f k Hp) as [ok Hstep].
  rewrite (Hstep s (f_st k)) by by destruct k.
  pose proof (seek_target_range (i_size e (dev s) f) (f_st k) offset origin Ho) as Ht.
  set (target := seek_target _ _ _ _) in *. cbv zeta.
  destruct (Z.leb_spec 0 target), (ok target) eqn:Eok; cbn [andb];
    eexists _, _; (split; [done|]); (split; [first [done|lia]|unfold EINVAL; intros; try lia]).
  set (st := move_to (f_st k) target). set (t := set_st f _ st s).
  assert (f_pos st = target) as Est by (unfold st, move_to; destruct (Z.eqb_spec target (f_pos (f_st k))); simpl; done).
  assert (files t !! f = Some (kset k st)) as Hft by (by unfold t, set_st; simpl; rewrite lookup_insert_eq).
  split; [done|]. split; [|intros g Hg; unfold t, set_st; simpl; by rewrite lookup_insert_ne].
  change (fds t) with (fds s). rewrite Hfd, (Hstep t st _ _ Hft).
  unfold seek_target. change (SEEK_CUR =? SEEK_END) with false. change (SEEK_CUR =? SEEK_CUR) with true. cbv iota zeta.
  rewrite Z.add_0_l, Est, s64_small, Eok by lia. destruct (Z.leb_spec 0 target); [|lia]. cbn [andb]. f_equal. f_equal.
  unfold move_to. rewrite Est, Z.eqb_refl. cbn [negb]. by apply (set_st_id f (kset k st)).
Qed.

(** ** A driver to run the calls on *)

Module Demo.
(** The driver logs the calls it gets and transfers everything; the security
    module refuses all files but the second. *)
Definition log_write (d : list Z) (f buf n pos : Z) : Z * Z * list Z := (n, pos + n, d ++ [f; buf; n; pos]).
Definition log_ops : file_operations (list Z) := FOps None None (Some log_write) None None None false.
Definition kernel : env (list Z) :=
  Env (λ _ a n, a + n <? 2 ^ 47) (λ _ _, 100) (λ _ _ _ _ _, 0) (λ f _, if f =? 1 then 0 else -13) (λ d p, (0, p, d))
      (λ _, true) (λ _ _, true) (λ a, IOVec a 10).
Definition file (mode : Z) : kfile (list Z) := KFile mode (FState 40 1) (Some log_ops) 1000 false true.
Definition state : io (list Z) :=
  IO [] (<[0 := file (Z.lor FMODE_READ FMODE_LSEEK)]> {[1 := file FMODE_WRITE]}) {[3 := 0; 4 := 1]} 0 0 0 0 [] 0.
(** After ten segments were written to the second file. *)
Definition after : io (list Z) :=
  match do_readv_writev kernel 0 WRITE 1 512 10 40 state with Ret (_, _, t) => t | _ => state end.
End Demo.

Lemma vfs_forcewrite_unchecked_witness :
  vfs_forcewrite Demo.kernel 0 0 4096 19 40 Demo.state =
    ('(ret, p, t) ← vfs_write (granting Demo.kernel) 0 0 4096 19 40
                      (with_mode 0 (Z.lor (Z.lor FMODE_READ FMODE_LSEEK) FMODE_WRITE) Demo.state);
     Ret (ret, p, with_mode 0 (Z.lor FMODE_READ FMODE_LSEEK) t)) ∧
  vfs_write Demo.kernel 0 0 4096 19 40 Demo.state = Ret (- EBADF, 40, Demo.state).
Proof.
  destruct (vfs_forcewrite_unchecked Demo.kernel 0 0 (Demo.file (Z.lor FMODE_READ FMODE_LSEEK)) 4096 19 40 Demo.state eq_refl) as [E F].
  exact (conj E (F eq_refl)).
Defined.

Lemma rw_copy_check_uvector_sum_witness :
  (160 = sum_len (user_vector Demo.kernel 512 16) ∧ user_vector Demo.kernel 512 16 = user_vector Demo.kernel 512 16) ∧
  add_live 1 Demo.state = add_live 1 Demo.state.
Proof.
  refine (rw_copy_check_uvector_sum Demo.kernel WRITE 512 16 Demo.state 160 HeapIov (user_vector Demo.kernel 512 16)
            (add_live 1 Demo.state) _ _ eq_refl).
  - intros a. cbn. lia.
  - lia.
Defined.

Lemma vfs_write_bounded_witness :
  write_outcome Demo.kernel 0 0 4096 (2 ^ 32) 40 Demo.state
    (MAX_RW_COUNT, 40 + MAX_RW_COUNT, wrote 0 MAX_RW_COUNT [0; 4096; MAX_RW_COUNT; 40] Demo.state).
Proof.
  refine (proj2 (vfs_write_bounded Demo.kernel 0 0 4096 (2 ^ 32) 40 Demo.state _ _ _) eq_refl); lia.
Defined.

Lemma do_readv_writev_balanced_witness :
  100 ≤ sum_len (user_vector Demo.kernel 512 10) < 2 ^ 63.
Proof.
  refine (proj2 (proj2 (proj2 (do_readv_writev_balanced Demo.kernel 0 WRITE 1 (Demo.file FMODE_WRITE) Demo.log_ops 512 10 40
    Demo.state 100 140 Demo.after _ _ eq_refl eq_refl _ _))) eq_refl _ _).
  - intros a. cbn. lia.
  - intros g m. cbn. case_match; lia.
  - lia.
  - vm_compute. reflexivity.
  - intros fn [= <-] d f base len pos Hl. apply Z.le_refl.
  - lia.
Defined.

Lemma lseek_tell_witness :
  ∃ t, sys_lseek Demo.kernel 3 20 SEEK_CUR Demo.state = Ret (60, t) ∧ sys_lseek Demo.kernel 3 0 SEEK_CUR t = Ret (60, t).
Proof.
  pose proof (lseek_tell Demo.kernel 3 0 (Demo.file (Z.lor FMODE_READ FMODE_LSEEK)) 20 SEEK_CUR Demo.state eq_refl eq_refl) as H.
  destruct H as (r & t & E & _ & F); [split; [reflexivity|by left]|lia|].
  injection E as Er Et. subst r t. destruct F as (_ & F & _); [by vm_compute|]. eexists. split; [reflexivity|exact F].
Defined.
