(* ===== verification/Forcewrite.v ===== *)
(** The program [wrappers/forcewrite.c]: it opens a file for reading and writes to
    it with the added system call.  Opening and closing files are arguments. *)

From stdpp Require Import strings.
From S2P Require Import Prelude ListHead Semaphore Tasks FatPrint Tok Wrappers ReadWrite.

Section program.
Context {D : Type} (e : env D).

(** What [open] with [O_RDONLY] and [close] do in the kernel, where the string of
    the program is in its memory, and how often a driver may ask to be called
    again. *)
Record process := Process {
  open_rdonly : list Z → io D → Z * io D;
  close : Z → io D → io D;
  buff : Z;
  retries : nat
}.

Context (p : process).

(** [sizeof(buff) - 1] *)
Definition hello_length : Z := Z.of_nat (String.length "Hello, how are you?").

(** Call 291; [syscall] is not declared, so its result is taken for an [int]. *)
Definition syscall_forcewrite (fd count : Z) (s : io D) : outcome (Z * Z * io D) :=
  '(r, s) ← sys_forcewrite e (retries p) fd (buff p) count s;
  let '(r, errno) := syscall_result r in Ret (s32 r, errno, s).

Definition forcewrite_main (argv : list (list Z)) (s : io D) : outcome (result * io D) :=
  match argv with
  | _ :: name :: _ =>
    let '(r, s) := open_rdonly p name s in
    let '(fd, errno) := syscall_result r in
    if fd <? 0 then Ret (Result [] (Some (bytes_of "Error opening file", errno)) 2, s) else
    '(success, errno, s) ← syscall_forcewrite fd hello_length s;
    if success <? 0 then Ret (Result [] (Some (bytes_of "Failure in forcewrite", errno)) 3, s) else
    Ret (Result (bytes_of "Success!" ++ [10]) None 0, close p fd s)
  | _ => Ret (Result (bytes_of "Please include the filename to which to write." ++ [10]) None 1, s)
  end.
End program.

(** A descriptor just opened for reading, of a file whose driver can write. *)
Record opened {D} (e : env D) (p : process (D := D)) (fd f : Z) (k : kfile D) (fn : D → Z → Z → Z → Z → Z * Z * D) (s : io D) : Prop := {
  op_fd : 0 ≤ fd;
  op_file : fds s !! fd = Some f;
  op_kfile : files s !! f = Some k;
  op_mode : has_mode (f_mode k) FMODE_WRITE = false;
  op_pos : f_pos (f_st k) = 0;
  op_write : ∃ ops, f_op k = Some ops ∧ write ops = Some fn;
  op_lock : mandatory_lock k = false;
  op_buff : access_ok e false (buff p) hello_length = true
}.

(** C37: The program overwrites a file that it has opened for reading only.  The
    driver gets one call to write the nineteen bytes at the start of the file, and
    its result alone decides what the program reports; [write] on the same
    descriptor is refused. *)
Theorem forcewrite_overwrites {D} (e : env D) (p : process (D := D)) prog name s t fd f k fn n pos d :
  open_rdonly p name s = (fd, t) → opened e p fd f k fn t → fn (dev t) f (buff p) 19 0 = (n, pos, d) → - 4096 < n ≤ 19 →
  let u := set_st f k (FState pos (f_version (f_st k))) (wrote f n d t) in
  forcewrite_main e p [prog; name] s =
    Ret (if n <? 0 then (Result [] (Some (bytes_of "Failure in forcewrite", - n)) 3, u) else (Result (bytes_of "Success!" ++ [10]) None 0, close p fd u)) ∧
  dev u = d ∧
  sys_write e (retries p) fd (buff p) hello_length t = Ret (- EBADF, set_st f k (FState 0 (f_version (f_st k))) t).
Proof.
  intros Ho [Hfd Hf Hk Hm Hp (ops & Hops & Hw) Hl Hb] Hfn Hn u. change (19) with hello_length in Hfn. split; [|split].
  - unfold forcewrite_main. rewrite Ho. assert (syscall_result fd = (fd, 0)) as ->.
    { unfold syscall_result. destruct (Z.ltb_spec fd 0); [lia|]. by rewrite andb_false_r. }
    destruct (Z.ltb_spec fd 0); [lia|]. unfold syscall_forcewrite, sys_forcewrite, with_pos, fget, get_file. rewrite Hf, Hk. cbn [mbind outcome_bind]. rewrite Hp.
    assert (rw_verify_area e WRITE f k 0 hello_length t = hello_length) as Hv by (unfold rw_verify_area; rewrite Hl; by vm_compute).
    unfold vfs_forcewrite, get_file. rewrite Hk. cbn [mbind outcome_bind]. rewrite Hops, Hw, Hb, Hv. cbn [is_none andb negb]. change (hello_length <? 0) with false. cbv iota. rewrite Hfn. cbn [mbind outcome_bind].
    change (inc_syscw (if 0 <? n then add_wchar n (notify (Modified f) (set_dev d t)) else set_dev d t)) with (wrote f n d t).
    assert (files (wrote f n d t) = files t) as -> by (unfold wrote; by destruct (0 <? n)). rewrite Hk. cbn [mbind outcome_bind]. fold u. unfold syscall_result.
    destruct (Z.ltb_spec (-4096) n); [|lia]. destruct (Z.ltb_spec n 0); cbn [andb mbind outcome_bind]; [done|]. rewrite wraps_small by lia. by destruct (Z.ltb_spec n 0); [lia|].
  - unfold u, wrote. by destruct (0 <? n).
  - unfold sys_write, with_pos, fget, get_file. rewrite Hf, Hk. cbn [mbind outcome_bind]. rewrite Hp. unfold vfs_write, get_file. rewrite Hk. cbn [mbind outcome_bind]. rewrite Hm. cbn [negb mbind outcome_bind].
    by rewrite Hk.
Qed.

Definition demo_process : process (D := list Z) := Process (λ _ s, (3, s)) (λ _ s, s) 4096 0.

(** The first file of the sample state, at its start. *)
Definition demo_io : io (list Z) :=
  IO [] {[0 := KFile (Z.lor FMODE_READ FMODE_LSEEK) (FState 0 1) (Some Demo.log_ops) 1000 false true]} {[3 := 0]} 0 0 0 0 [] 0.

Lemma forcewrite_overwrites_witness :
  ∃ u, forcewrite_main Demo.kernel demo_process [[]; bytes_of "readonly.txt"] demo_io = Ret (Result (bytes_of "Success!" ++ [10]) None 0, u) ∧ dev u = [0; 4096; 19; 0].
Proof.
  destruct (forcewrite_overwrites Demo.kernel demo_process [] (bytes_of "readonly.txt") demo_io demo_io 3 0
    (KFile (Z.lor FMODE_READ FMODE_LSEEK) (FState 0 1) (Some Demo.log_ops) 1000 false true) Demo.log_write 19 19 [0; 4096; 19; 0]) as (H1 & H2 & _).
  - reflexivity.
  - split; try reflexivity; [lia|]. exists Demo.log_ops. split; reflexivity.
  - reflexivity.
  - lia.
  - eexists. split; [exact H1|exact H2].
Defined.
