(* ===== verification/Fatent.v ===== *)
(** [fs/fat/fatent.c], with [fat_fs_panic], [fat_clusters_flush] and
    [fat_sync_bhs] of [fs/fat/misc.c]: the file allocation table of a mounted
    file system, read and written through the buffer cache.

    A buffer is named by its block number, because the cache keeps one buffer per
    block; a pointer into a buffer is a block number and an offset.  Reference
    counts, the table's mutex and the warnings of [WARN_ON] have no effect on the
    values and are left out. *)

From S2P Require Import Prelude.

(** ** Constants *)

Definition EIO : Z := 5.
Definition ENOMEM : Z := 12.
Definition ENOSPC : Z := 28.
Definition EOPNOTSUPP : Z := 95.
Definition FAT_START_ENT : Z := 2.
Definition BAD_FAT12 : Z := 0xff7.
Definition BAD_FAT16 : Z := 0xfff7.
Definition BAD_FAT32 : Z := 0x0ffffff7.
Definition EOF_FAT12 : Z := 0xfff.
Definition EOF_FAT16 : Z := 0xffff.
Definition EOF_FAT32 : Z := 0x0fffffff.
Definition FAT_ENT_FREE : Z := 0.
Definition FAT_ENT_EOF : Z := EOF_FAT32.
Definition FAT_FSINFO_SIG1 : Z := 0x41615252.
Definition FAT_FSINFO_SIG2 : Z := 0x61417272.

(** [PAGE_CACHE_SIZE / 512] *)
Definition MAX_BUF_PER_PAGE : Z := 8.

(** An [unsigned int] that holds -1. *)
Definition UNKNOWN : Z := 2 ^ 32 - 1.

(** ** State *)

(** What mounting settles: members of [struct msdos_sb_info] and of the super
    block that the functions only read. *)
Record sb_info := SbInfo {
  fat_bits : Z;
  fats : Z;
  fat_start : Z;
  fat_length : Z;
  max_cluster : Z;
  fsinfo_sector : Z;
  s_blocksize_bits : Z;
  s_synchronous : bool
}.

Definition s_blocksize (sb : sb_info) : Z := 2 ^ s_blocksize_bits sb.

(** The blocks the cache can deliver, the dirty ones, and what changes in the
    super block. *)
Record fatfs := FatFs {
  blk : gmap Z (list Z);
  dirty : gset Z;
  prev_free : Z;
  free_clusters : Z;
  s_dirt : bool;
  s_rdonly : bool
}.

Definition set_blk v s := FatFs v (dirty s) (prev_free s) (free_clusters s) (s_dirt s) (s_rdonly s).
Definition set_dirty v s := FatFs (blk s) v (prev_free s) (free_clusters s) (s_dirt s) (s_rdonly s).
Definition set_prev_free v s := FatFs (blk s) (dirty s) v (free_clusters s) (s_dirt s) (s_rdonly s).
Definition set_free_clusters v s := FatFs (blk s) (dirty s) (prev_free s) v (s_dirt s) (s_rdonly s).
Definition set_s_dirt s := FatFs (blk s) (dirty s) (prev_free s) (free_clusters s) true (s_rdonly s).

(** Pointers into buffers, and the union of [struct fat_entry]. *)
Abbreviation ptr := (Z * Z)%type.

Inductive ent_ptr := Ent12 (p0 p1 : ptr) | Ent16 (p : ptr) | Ent32 (p : ptr).

(** [bhs] holds the first [nr_bhs] buffers; [u] is [None] after a reset. *)
Record fat_entry := FatEntry { entry : Z; u : option ent_ptr; bhs : list Z }.

Definition nr_bhs (fe : fat_entry) : Z := Z.of_nat (length (bhs fe)).

Definition fatent_init : fat_entry := FatEntry 0 None [].
Definition fatent_set_entry (fe : fat_entry) (e : Z) : fat_entry := FatEntry e None (bhs fe).
Definition fatent_brelse (fe : fat_entry) : fat_entry := FatEntry (entry fe) None [].

(** ** Buffers *)

(** What the block layer answers: whether a buffer can be had, and how writing
    it back ends. *)
Record env := Env {
  getblk : Z → bool;
  eopnotsupp : Z → bool;
  uptodate : Z → bool;
  sync_dirty : Z → Z
}.

Definition sb_bread (s : fatfs) (n : Z) : bool := match blk s !! n with Some _ => true | None => false end.

Definition buffer (s : fatfs) (n : Z) : outcome (list Z) :=
  match blk s !! n with Some bs => Ret bs | None => Undef end.

Definition peek (s : fatfs) (p : ptr) : outcome Z := bs ← buffer s p.1; aget bs p.2.

Definition poke (s : fatfs) (p : ptr) (x : Z) : outcome fatfs :=
  bs ← buffer s p.1; bs ← aset bs p.2 x; Ret (set_blk (<[p.1 := bs]> (blk s)) s).

Definition mark_buffer_dirty (n : Z) (s : fatfs) : fatfs := set_dirty ({[n]} ∪ dirty s) s.

(** [n] bytes in little-endian order. *)
Definition peek_le (n : nat) (s : fatfs) (p : ptr) : outcome Z :=
  bs ← buffer s p.1;
  if decide (0 ≤ p.2 ∧ p.2 + Z.of_nat n ≤ Z.of_nat (length bs)) then Ret (le_val (take n (drop (Z.to_nat p.2) bs)))
  else Undef.

Definition poke_le (n : nat) (s : fatfs) (p : ptr) (x : Z) : outcome fatfs :=
  bs ← buffer s p.1;
  if decide (0 ≤ p.2 ∧ p.2 + Z.of_nat n ≤ Z.of_nat (length bs)) then
    Ret (set_blk (<[p.1 := take (Z.to_nat p.2) bs ++ le_bytes n x ++ drop (Z.to_nat p.2 + n) bs]> (blk s)) s)
  else Undef.

(** ** Where an entry is *)

Definition fat12_ent_blocknr (sb : sb_info) (entry : Z) : Z * Z :=
  let bytes := s32 (entry + Z.shiftr entry 1) in
  (Z.land bytes (s_blocksize sb - 1), fat_start sb + Z.shiftr bytes (s_blocksize_bits sb)).

(** [shift] is [fatent_shift]: 1 for 16 bits, 2 for 32. *)
Definition fat_ent_blocknr (shift : Z) (sb : sb_info) (entry : Z) : Z * Z :=
  let bytes := s32 (Z.shiftl entry shift) in
  (Z.land bytes (s_blocksize sb - 1), fat_start sb + Z.shiftr bytes (s_blocksize_bits sb)).

Definition fat12_ent_set_ptr (fe : fat_entry) (offset : Z) : outcome fat_entry :=
  match bhs fe with
  | [b] => Ret (FatEntry (entry fe) (Some (Ent12 (b, offset) (b, offset + 1))) (bhs fe))
  | b :: c :: _ => Ret (FatEntry (entry fe) (Some (Ent12 (b, offset) (c, 0))) (bhs fe))
  | [] => Undef
  end.

Definition fat16_ent_set_ptr (fe : fat_entry) (offset : Z) : outcome fat_entry :=
  match bhs fe with
  | b :: _ => Ret (FatEntry (entry fe) (Some (Ent16 (b, offset))) (bhs fe))
  | [] => Undef
  end.

Definition fat32_ent_set_ptr (fe : fat_entry) (offset : Z) : outcome fat_entry :=
  match bhs fe with
  | b :: _ => Ret (FatEntry (entry fe) (Some (Ent32 (b, offset))) (bhs fe))
  | [] => Undef
  end.

Definition fat12_ent_bread (sb : sb_info) (fe : fat_entry) (offset blocknr : Z) (s : fatfs)
    : outcome (Z * fat_entry) :=
  if negb (sb_bread s blocknr) then Ret (- EIO, fe) else
  if offset + 1 <? s_blocksize sb then
    fe ← fat12_ent_set_ptr (FatEntry (entry fe) (u fe) [blocknr]) offset; Ret (0, fe)
  else if negb (sb_bread s (blocknr + 1)) then Ret (- EIO, fe)
  else fe ← fat12_ent_set_ptr (FatEntry (entry fe) (u fe) [blocknr; blocknr + 1]) offset; Ret (0, fe).

Definition fat_ent_bread (ent_set_ptr : fat_entry → Z → outcome fat_entry)
    (sb : sb_info) (fe : fat_entry) (offset blocknr : Z) (s : fatfs) : outcome (Z * fat_entry) :=
  if negb (sb_bread s blocknr) then Ret (- EIO, fe) else
  fe ← ent_set_ptr (FatEntry (entry fe) (u fe) [blocknr]) offset; Ret (0, fe).

(** ** Reading and writing an entry *)

Definition fat12_ent_get (fe : fat_entry) (s : fatfs) : outcome Z :=
  match u fe with
  | Some (Ent12 p0 p1) =>
    b0 ← peek s p0; b1 ← peek s p1;
    let next := if z2b (Z.land (entry fe) 1) then Z.lor (Z.shiftr b0 4) (Z.shiftl b1 4)
                else Z.lor (Z.shiftl b1 8) b0 in
    let next := Z.land next 0x0fff in
    Ret (if BAD_FAT12 <=? next then FAT_ENT_EOF else next)
  | _ => Undef
  end.

Definition fat16_ent_get (fe : fat_entry) (s : fatfs) : outcome Z :=
  match u fe with
  | Some (Ent16 p) => next ← peek_le 2 s p; Ret (if BAD_FAT16 <=? next then FAT_ENT_EOF else next)
  | _ => Undef
  end.

Definition fat32_ent_get (fe : fat_entry) (s : fatfs) : outcome Z :=
  match u fe with
  | Some (Ent32 p) => v ← peek_le 4 s p;
                      let next := Z.land v 0x0fffffff in
                      Ret (if BAD_FAT32 <=? next then FAT_ENT_EOF else next)
  | _ => Undef
  end.

(** The buffers of the entry are marked dirty. *)
Definition mark_dirty (fe : fat_entry) (s : fatfs) : fatfs := foldr mark_buffer_dirty s (bhs fe).

Definition fat12_ent_put (fe : fat_entry) (new : Z) (s : fatfs) : outcome fatfs :=
  let new := if new =? FAT_ENT_EOF then EOF_FAT12 else new in
  match u fe with
  | Some (Ent12 p0 p1) =>
    s ← (if z2b (Z.land (entry fe) 1) then
           b0 ← peek s p0;
           s ← poke s p0 (u8 (Z.lor (Z.shiftl new 4) (Z.land b0 0x0f)));
           poke s p1 (u8 (Z.shiftr new 4))
         else
           s ← poke s p0 (Z.land new 0xff);
           b1 ← peek s p1;
           poke s p1 (u8 (Z.lor (Z.land b1 0xf0) (Z.shiftr new 8))));
    Ret (mark_dirty fe s)
  | _ => Undef
  end.

Definition fat16_ent_put (fe : fat_entry) (new : Z) (s : fatfs) : outcome fatfs :=
  let new := if new =? FAT_ENT_EOF then EOF_FAT16 else new in
  match u fe with
  | Some (Ent16 p) => s ← poke_le 2 s p (u16 new); Ret (mark_dirty fe s)
  | _ => Undef
  end.

Definition fat32_ent_put (fe : fat_entry) (new : Z) (s : fatfs) : outcome fatfs :=
  let new := if new =? FAT_ENT_EOF then EOF_FAT32 else new in
  match u fe with
  | Some (Ent32 p) =>
    v ← peek_le 4 s p;
    s ← poke_le 4 s p (u32 (Z.lor new (Z.land v (Z.lnot 0x0fffffff))));
    Ret (mark_dirty fe s)
  | _ => Undef
  end.

(** ** The next entry in the same buffer *)

Definition fat12_ent_next (sb : sb_info) (fe : fat_entry) : outcome (bool * fat_entry) :=
  match u fe with
  | Some (Ent12 _ (b, o)) =>
    let nextp := o + 1 + Z.land (entry fe) 1 in
    let e := entry fe + 1 in
    match bhs fe with
    | [_] => Ret (if nextp <? s_blocksize sb - 1 then
                    (true, FatEntry e (Some (Ent12 (b, nextp - 1) (b, nextp))) (bhs fe))
                  else (false, FatEntry e None (bhs fe)))
    | _ :: c :: _ => Ret (true, FatEntry e (Some (Ent12 (b, nextp - 1) (b, nextp))) [c])
    | [] => Undef
    end
  | _ => Undef
  end.

Definition fat16_ent_next (sb : sb_info) (fe : fat_entry) : outcome (bool * fat_entry) :=
  match u fe with
  | Some (Ent16 (b, o)) =>
    Ret (if o <? s_blocksize sb - 2 then (true, FatEntry (entry fe + 1) (Some (Ent16 (b, o + 2))) (bhs fe))
         else (false, FatEntry (entry fe + 1) None (bhs fe)))
  | _ => Undef
  end.

Definition fat32_ent_next (sb : sb_info) (fe : fat_entry) : outcome (bool * fat_entry) :=
  match u fe with
  | Some (Ent32 (b, o)) =>
    Ret (if o <? s_blocksize sb - 4 then (true, FatEntry (entry fe + 1) (Some (Ent32 (b, o + 4))) (bhs fe))
         else (false, FatEntry (entry fe + 1) None (bhs fe)))
  | _ => Undef
  end.

(** ** The operations of a table format *)

Record fatent_operations := FatentOps {
  ent_blocknr : sb_info → Z → Z * Z;
  ent_set_ptr : fat_entry → Z → outcome fat_entry;
  ent_bread : sb_info → fat_entry → Z → Z → fatfs → outcome (Z * fat_entry);
  ent_get : fat_entry → fatfs → outcome Z;
  ent_put : fat_entry → Z → fatfs → outcome fatfs;
  ent_next : sb_info → fat_entry → outcome (bool * fat_entry)
}.

Definition fat12_ops : fatent_operations :=
  FatentOps fat12_ent_blocknr fat12_ent_set_ptr fat12_ent_bread fat12_ent_get fat12_ent_put fat12_ent_next.

Definition fat16_ops : fatent_operations :=
  FatentOps (fat_ent_blocknr 1) fat16_ent_set_ptr (fat_ent_bread fat16_ent_set_ptr)
            fat16_ent_get fat16_ent_put fat16_ent_next.

Definition fat32_ops : fatent_operations :=
  FatentOps (fat_ent_blocknr 2) fat32_ent_set_ptr (fat_ent_bread fat32_ent_set_ptr)
            fat32_ent_get fat32_ent_put fat32_ent_next.

(** [fat_ent_access_init]; no other width is mounted. *)
Definition fat_ent_access_init (sb : sb_info) : option fatent_operations :=
  if fat_bits sb =? 32 then Some fat32_ops
  else if fat_bits sb =? 16 then Some fat16_ops
  else if fat_bits sb =? 12 then Some fat12_ops
  else None.

(** [fat_fs_panic]; the message is not kept. *)
Definition fat_fs_panic (s : fatfs) : fatfs :=
  FatFs (blk s) (dirty s) (prev_free s) (free_clusters s) (s_dirt s) true.

Section table.
Context (env : env) (sb : sb_info) (ops : fatent_operations).

(** ** One entry *)

(** [None] when the cached buffers do not include the entry. *)
Definition fat_ent_update_ptr (fe : fat_entry) (offset blocknr : Z) : outcome (option fat_entry) :=
  if negb (bool_decide (head (bhs fe) = Some blocknr)) then Ret None else
  if (fat_bits sb =? 12) && (s_blocksize sb <=? offset + 1) &&
     negb (bool_decide (bhs fe !! 1%nat = Some (blocknr + 1))) then Ret None else
  fe ← ent_set_ptr ops fe offset; Ret (Some fe).

Definition fat_ent_read (fe : fat_entry) (e : Z) (s : fatfs) : outcome (Z * fat_entry * fatfs) :=
  if (e <? FAT_START_ENT) || (max_cluster sb <=? e) then Ret (- EIO, fatent_brelse fe, fat_fs_panic s) else
  let fe := fatent_set_entry fe e in
  let '(offset, blocknr) := ent_blocknr ops sb e in
  r ← fat_ent_update_ptr fe offset blocknr;
  '(err, fe) ← match r with
               | Some fe => Ret (0, fe)
               | None => ent_bread ops sb (fatent_brelse fe) offset blocknr s
               end;
  if negb (err =? 0) then Ret (err, fe, s) else
  v ← ent_get ops fe s; Ret (v, fe, s).

(** ** The copies of the table *)

(** One round of the outer loop: the blocks [bs] of copy [copy]. *)
Fixpoint mirror_copy (copy : Z) (bs : list Z) (s : fatfs) : outcome (Z * fatfs) :=
  match bs with
  | [] => Ret (0, s)
  | b :: bs =>
    let c := fat_length sb * copy + b in
    if negb (getblk env c) then Ret (- ENOMEM, s) else
    data ← buffer s b;
    let s := mark_buffer_dirty c (set_blk (<[c := data]> (blk s)) s) in
    let '(err, s) := if s_synchronous sb then (sync_dirty env c, set_dirty (dirty s ∖ {[c]}) s) else (0, s) in
    if negb (err =? 0) then Ret (err, s) else mirror_copy copy bs s
  end.

(** [n] copies from [copy] on. *)
Fixpoint mirror_loop (n : nat) (copy : Z) (bs : list Z) (s : fatfs) : outcome (Z * fatfs) :=
  match n with
  | O => Ret (0, s)
  | S n => '(err, s) ← mirror_copy copy bs s;
           if negb (err =? 0) then Ret (err, s) else mirror_loop n (copy + 1) bs s
  end.

Definition fat_mirror_bhs (bs : list Z) (s : fatfs) : outcome (Z * fatfs) :=
  mirror_loop (Z.to_nat (fats sb - 1)) 1 bs s.

(** Waiting for the buffers, with the error so far. *)
Fixpoint sync_wait (bs : list Z) (err : Z) : Z :=
  match bs with
  | [] => err
  | b :: bs => sync_wait bs (if eopnotsupp env b then - EOPNOTSUPP
                             else if (err =? 0) && negb (uptodate env b) then - EIO else err)
  end.

Definition fat_sync_bhs (bs : list Z) (s : fatfs) : Z * fatfs :=
  (sync_wait bs 0, set_dirty (dirty s ∖ list_to_set bs) s).

Definition fat_ent_write (fe : fat_entry) (new : Z) (wait : bool) (s : fatfs) : outcome (Z * fatfs) :=
  s ← ent_put ops fe new s;
  let '(err, s) := if wait then fat_sync_bhs (bhs fe) s else (0, s) in
  if negb (err =? 0) then Ret (err, s) else fat_mirror_bhs (bhs fe) s.

(** ** Walking the table *)

Definition fat_ent_next (fe : fat_entry) : outcome (bool * fat_entry) :=
  '(more, fe) ← ent_next ops sb fe; Ret (more && (entry fe <? max_cluster sb), fe).

Definition fat_ent_read_block (fe : fat_entry) (s : fatfs) : outcome (Z * fat_entry) :=
  let fe := fatent_brelse fe in
  let '(offset, blocknr) := ent_blocknr ops sb (entry fe) in
  ent_bread ops sb fe offset blocknr s.

(** The array of [MAX_BUF_PER_PAGE] buffers must not overflow. *)
Fixpoint fat_collect_bhs (acc : list Z) (bs : list Z) : outcome (list Z) :=
  match bs with
  | [] => Ret acc
  | b :: bs =>
    if bool_decide (b ∈ acc) then fat_collect_bhs acc bs
    else if Z.of_nat (length acc) <? MAX_BUF_PER_PAGE then fat_collect_bhs (acc ++ [b]) bs else Undef
  end.

(** ** Freeing a chain *)

(** Every loop below visits an entry at most once per turn, so this many turns
    are enough. *)
Definition fuel : nat := S (Z.to_nat (max_cluster sb)).

(** [fat_clusters_flush]: the counters go to the information sector, whose
    [signature1], [signature2], [free_clusters] and [next_cluster] are at bytes 0,
    484, 488 and 492. *)
Definition fat_clusters_flush (s : fatfs) : outcome fatfs :=
  if negb (fat_bits sb =? 32) then Ret s else
  let n := fsinfo_sector sb in
  if negb (sb_bread s n) then Ret s else
  sig1 ← peek_le 4 s (n, 0); sig2 ← peek_le 4 s (n, 484);
  if negb ((sig1 =? FAT_FSINFO_SIG1) && (sig2 =? FAT_FSINFO_SIG2)) then Ret s else
  s ← (if free_clusters s =? UNKNOWN then Ret s else poke_le 4 s (n, 488) (free_clusters s));
  s ← (if prev_free s =? UNKNOWN then Ret s else poke_le 4 s (n, 492) (prev_free s));
  Ret (mark_buffer_dirty n s).

Definition sync_and_mirror (sync : bool) (bs : list Z) (s : fatfs) : outcome (Z * fatfs) :=
  let '(err, s) := if sync then fat_sync_bhs bs s else (0, s) in
  if negb (err =? 0) then Ret (err, s) else fat_mirror_bhs bs s.

(** The [do ... while] loop; the buffers collected so far are in [bs]. *)
Fixpoint free_loop (n : nat) (cluster : Z) (fe : fat_entry) (bs : list Z) (s : fatfs)
    : outcome (Z * list Z * fatfs) :=
  match n with
  | O => NoFuel
  | S n =>
    '(cluster, fe, s) ← fat_ent_read fe cluster s;
    if cluster <? 0 then Ret (cluster, bs, s) else
    if cluster =? FAT_ENT_FREE then Ret (- EIO, bs, fat_fs_panic s) else
    s ← ent_put ops fe FAT_ENT_FREE s;
    let s := if free_clusters s =? UNKNOWN then s else set_s_dirt (set_free_clusters (u32 (free_clusters s + 1)) s) in
    '(err, bs, s) ← (if MAX_BUF_PER_PAGE <? Z.of_nat (length bs) + nr_bhs fe then
                       '(err, s) ← sync_and_mirror (s_synchronous sb) bs s;
                       Ret (err, if err =? 0 then [] else bs, s)
                     else Ret (0, bs, s));
    if negb (err =? 0) then Ret (err, bs, s) else
    bs ← fat_collect_bhs bs (bhs fe);
    if negb (cluster =? FAT_ENT_EOF) then free_loop n cluster fe bs s else Ret (0, bs, s)
  end.

Definition fat_free_clusters (cluster : Z) (s : fatfs) : outcome (Z * fatfs) :=
  '(err, bs, s) ← free_loop fuel cluster fatent_init [] s;
  '(err, s) ← (if err =? 0 then sync_and_mirror (s_synchronous sb) bs s else Ret (err, s));
  s ← fat_clusters_flush s;
  Ret (err, s).

(** ** Allocating a chain *)

(** The local variables: the entry looked at, the last one taken, the buffers to
    write, the entries counted and the clusters taken. *)
Record alloc := Alloc { a_fe : fat_entry; a_prev : fat_entry; a_bhs : list Z; a_count : Z; a_clusters : list Z }.

(** The body of [if (ops->ent_get(&fatent) == FAT_ENT_FREE)]. *)
Definition take_entry (a : alloc) (s : fatfs) : outcome (alloc * fatfs) :=
  let e := entry (a_fe a) in
  s ← ent_put ops (a_fe a) FAT_ENT_EOF s;
  s ← (if nr_bhs (a_prev a) =? 0 then Ret s else ent_put ops (a_prev a) e s);
  bs ← fat_collect_bhs (a_bhs a) (bhs (a_fe a));
  let s := set_prev_free e s in
  let s := if free_clusters s =? UNKNOWN then s else set_free_clusters (u32 (free_clusters s - 1)) s in
  Ret (Alloc (a_fe a) (a_prev a) bs (a_count a) (a_clusters a ++ [e]), set_s_dirt s).

(** One entry of the inner loop, up to [prev_ent = fatent]; the flag tells whether it
    leaves with [goto out]. *)
Definition look_entry (nr_cluster : Z) (a : alloc) (s : fatfs) : outcome (bool * alloc * fatfs) :=
  v ← ent_get ops (a_fe a) s;
  if v =? FAT_ENT_FREE then
    '(a, s) ← take_entry a s;
    if Z.of_nat (length (a_clusters a)) =? nr_cluster then Ret (true, a, s)
    else Ret (false, Alloc (a_fe a) (a_fe a) (a_bhs a) (a_count a) (a_clusters a), s)
  else Ret (false, a, s).

(** The inner loop. *)
Fixpoint alloc_block (n : nat) (nr_cluster : Z) (a : alloc) (s : fatfs) : outcome (bool * alloc * fatfs) :=
  match n with
  | O => NoFuel
  | S n =>
    '(out, a, s) ← look_entry nr_cluster a s;
    if out : bool then Ret (true, a, s) else
    let count := a_count a + 1 in
    if count =? max_cluster sb then Ret (false, Alloc (a_fe a) (a_prev a) (a_bhs a) count (a_clusters a), s) else
    '(more, fe) ← fat_ent_next (a_fe a);
    let a := Alloc fe (a_prev a) (a_bhs a) count (a_clusters a) in
    if more : bool then alloc_block n nr_cluster a s else Ret (false, a, s)
  end.

(** The outer loop, with the error it ends with. *)
Fixpoint alloc_scan (n : nat) (nr_cluster : Z) (a : alloc) (s : fatfs) : outcome (Z * alloc * fatfs) :=
  match n with
  | O => NoFuel
  | S n =>
    if negb (a_count a <? max_cluster sb) then Ret (- ENOSPC, a, set_s_dirt (set_free_clusters 0 s)) else
    let e := entry (a_fe a) in
    let fe := fatent_set_entry (a_fe a) (if max_cluster sb <=? u64 e then FAT_START_ENT else e) in
    '(err, fe) ← fat_ent_read_block fe s;
    let a := Alloc fe (a_prev a) (a_bhs a) (a_count a) (a_clusters a) in
    if negb (err =? 0) then Ret (err, a, s) else
    '(out, a, s) ← alloc_block fuel nr_cluster a s;
    if out : bool then Ret (0, a, s) else alloc_scan n nr_cluster a s
  end.

Definition fat_alloc_clusters (needs_sync : bool) (nr_cluster : Z) (s : fatfs) : outcome (Z * list Z * fatfs) :=
  if MAX_BUF_PER_PAGE / 2 <? nr_cluster then Bug else
  if negb (free_clusters s =? UNKNOWN) && (free_clusters s <? nr_cluster) then Ret (- ENOSPC, [], s) else
  let fe := fatent_set_entry fatent_init (s32 (prev_free s + 1)) in
  '(err, a, s) ← alloc_scan fuel nr_cluster (Alloc fe fatent_init [] FAT_START_ENT []) s;
  '(err, s) ← (if err =? 0 then sync_and_mirror needs_sync (a_bhs a) s else Ret (err, s));
  match a_clusters a with
  | c :: _ => if negb (err =? 0) then '(_, s) ← fat_free_clusters c s; Ret (err, a_clusters a, s)
              else Ret (err, a_clusters a, s)
  | [] => Ret (err, [], s)
  end.

(** ** Counting the free entries *)

Fixpoint count_block (n : nat) (fe : fat_entry) (free : Z) (s : fatfs) : outcome (fat_entry * Z) :=
  match n with
  | O => NoFuel
  | S n =>
    v ← ent_get ops fe s;
    let free := if v =? FAT_ENT_FREE then free + 1 else free in
    '(more, fe) ← fat_ent_next fe;
    if more : bool then count_block n fe free s else Ret (fe, free)
  end.

Fixpoint count_scan (n : nat) (fe : fat_entry) (free : Z) (s : fatfs) : outcome (Z * Z) :=
  match n with
  | O => NoFuel
  | S n =>
    if negb (entry fe <? max_cluster sb) then Ret (0, free) else
    '(err, fe) ← fat_ent_read_block fe s;
    if negb (err =? 0) then Ret (err, free) else
    '(fe, free) ← count_block fuel fe free s;
    count_scan n fe free s
  end.

Definition fat_count_free_clusters (s : fatfs) : outcome (Z * fatfs) :=
  if negb (free_clusters s =? UNKNOWN) then Ret (0, s) else
  '(err, free) ← count_scan fuel (fatent_set_entry fatent_init FAT_START_ENT) 0 s;
  if negb (err =? 0) then Ret (err, s) else Ret (0, set_s_dirt (set_free_clusters free s)).
End table.
