(* ===== verification/FatentLaws.v ===== *)
(** What the operations of a table format promise to the functions that walk and
    change the table, as a class, and its instances for the three formats of
    [fs/fat/fatent.c].  The table is first seen as a flat array of bytes spread
    over the blocks of its first copy. *)

From S2P Require Import Prelude Fatent.

(** ** The table as an array of bytes *)

Section flat.
Context (sb : sb_info).

(** Blocks have a power of two of at least 512 bytes. *)
Record geometry : Prop := {
  geo_bits : 9 ≤ s_blocksize_bits sb ≤ 12;
  geo_start : 0 ≤ fat_start sb;
  geo_length : 0 < fat_length sb;
  geo_size : fat_length sb * s_blocksize sb < 2 ^ 31
}.

Definition fat_size : Z := fat_length sb * s_blocksize sb.

Definition in_fat (b : Z) : Prop := fat_start sb ≤ b < fat_start sb + fat_length sb.

(** Every block of the first copy can be read and is a full block of bytes. *)
Definition wf (s : fatfs) : Prop :=
  ∀ b, in_fat b → ∃ bs, blk s !! b = Some bs ∧ Z.of_nat (length bs) = s_blocksize sb ∧ Forall is_byte bs.

Definition loc (i : Z) : Z * Z := (fat_start sb + i / s_blocksize sb, i mod s_blocksize sb).

Definition block (s : fatfs) (b : Z) : list Z := default [] (blk s !! b).

Definition fbyte (s : fatfs) (i : Z) : Z := default 0 (block s (loc i).1 !! Z.to_nat (loc i).2).

Context (geo : geometry).

Lemma blocksize_pos : 512 ≤ s_blocksize sb ≤ 4096.
Proof.
  pose proof (geo_bits geo). unfold s_blocksize. split.
  - apply (Z.pow_le_mono_r 2 9). all: lia.
  - apply (Z.pow_le_mono_r 2 _ 12). all: lia.
Qed.

Lemma loc_range i : 0 ≤ i < fat_size → in_fat (loc i).1 ∧ 0 ≤ (loc i).2 < s_blocksize sb.
Proof.
  pose proof blocksize_pos. unfold loc, in_fat, fat_size. simpl. intros Hi.
  pose proof (Z.div_pos i (s_blocksize sb) ltac:(lia) ltac:(lia)).
  pose proof (Z.div_lt_upper_bound i (s_blocksize sb) (fat_length sb) ltac:(lia) ltac:(lia)).
  pose proof (Z.mod_pos_bound i (s_blocksize sb) ltac:(lia)). lia.
Qed.

Lemma loc_inj i j : loc i = loc j → i = j.
Proof.
  pose proof blocksize_pos. unfold loc. intros [= E F].
  rewrite (Z.div_mod i (s_blocksize sb)), (Z.div_mod j (s_blocksize sb)) by lia. nia.
Qed.

Lemma wf_buffer s b : wf s → in_fat b →
  buffer s b = Ret (block s b) ∧ Z.of_nat (length (block s b)) = s_blocksize sb ∧ Forall is_byte (block s b).
Proof. intros Hw Hb. destruct (Hw b Hb) as (bs & E & ? & ?). unfold buffer, block. by rewrite E. Qed.

Lemma peek_loc s i : wf s → 0 ≤ i < fat_size → peek s (loc i) = Ret (fbyte s i) ∧ is_byte (fbyte s i).
Proof.
  intros Hw Hi. destruct (loc_range i Hi) as [Hb Ho]. destruct (wf_buffer s _ Hw Hb) as (E & Hl & Hf).
  unfold peek. rewrite E. cbn [mbind outcome_bind].
  destruct (aget_in (block s (loc i).1) (loc i).2) as (x & -> & Hx); [lia|].
  unfold fbyte. rewrite Hx. simpl. split; [done|]. by eapply Forall_lookup_1.
Qed.

(** Everything but the blocks of the table and the dirty set. *)
Definition same_rest (s t : fatfs) : Prop :=
  prev_free t = prev_free s ∧ free_clusters t = free_clusters s ∧ s_dirt t = s_dirt s ∧ s_rdonly t = s_rdonly s.

Lemma block_insert s b bs c : block (set_blk (<[b := bs]> (blk s)) s) c = if decide (c = b) then bs else block s c.
Proof.
  unfold block. cbn [blk set_blk]. case_decide as E.
  - subst. by rewrite lookup_insert_eq.
  - by rewrite lookup_insert_ne.
Qed.

Lemma wf_insert s b bs :
  wf s → Z.of_nat (length bs) = s_blocksize sb → Forall is_byte bs → wf (set_blk (<[b := bs]> (blk s)) s).
Proof.
  intros Hw Hl Hf c Hc. cbn [blk set_blk]. destruct (decide (c = b)) as [->|Hn].
  - rewrite lookup_insert_eq. eauto.
  - rewrite lookup_insert_ne by done. by apply Hw.
Qed.

(** A run of bytes inside one block replaced. *)
Lemma poke_run s i (xs : list Z) :
  wf s → Forall is_byte xs → 0 ≤ i < fat_size → (loc i).2 + Z.of_nat (length xs) ≤ s_blocksize sb →
  let bs := block s (loc i).1 in
  let bs' := take (Z.to_nat (loc i).2) bs ++ xs ++ drop (Z.to_nat (loc i).2 + length xs) bs in
  let t := set_blk (<[(loc i).1 := bs']> (blk s)) s in
  wf t ∧ ∀ j, 0 ≤ j < fat_size →
    fbyte t j = if decide (i ≤ j < i + Z.of_nat (length xs)) then default 0 (xs !! Z.to_nat (j - i)) else fbyte s j.
Proof.
  intros Hw Hx Hi Hr bs bs' t. destruct (loc_range i Hi) as [Hb Ho].
  destruct (wf_buffer s _ Hw Hb) as (_ & Hl & Hf). fold bs in Hl, Hf.
  pose proof blocksize_pos as Hbs.
  assert (length bs' = length bs) as El.
  { unfold bs'. rewrite !length_app, length_take, length_drop. lia. }
  split.
  { apply wf_insert; [done|lia|]. unfold bs'. rewrite !Forall_app. split_and!; [by apply Forall_take|done|by apply Forall_drop]. }
  intros j Hj. destruct (loc_range j Hj) as [Hbj Hoj]. unfold fbyte, t. rewrite block_insert.
  pose proof (Z.div_mod i (s_blocksize sb) ltac:(lia)) as Di. pose proof (Z.div_mod j (s_blocksize sb) ltac:(lia)) as Dj.
  unfold loc in *. cbn [fst snd] in *.
  set (qi := i / s_blocksize sb) in *. set (qj := j / s_blocksize sb) in *.
  set (ri := i mod s_blocksize sb) in *. set (rj := j mod s_blocksize sb) in *.
  destruct (decide (fat_start sb + qj = fat_start sb + qi)) as [Eq|Nq].
  - assert (qj = qi) as Eqq by lia. replace (block s (fat_start sb + qj)) with bs by (unfold bs; by rewrite Eqq).
    assert (j - i = rj - ri) as -> by (rewrite Di, Dj, Eqq; lia).
    unfold bs'. destruct (decide (rj < ri)).
    + rewrite decide_False by (rewrite Di, Dj, Eqq; lia). rewrite lookup_app_l by (rewrite length_take; lia).
      by rewrite lookup_take_lt by lia.
    + rewrite lookup_app_r by (rewrite length_take; lia). rewrite length_take, Nat.min_l by lia.
      case_decide as Ec.
      * rewrite lookup_app_l by (rewrite Di, Dj, Eqq in Ec; lia). do 2 f_equal. lia.
      * rewrite lookup_app_r by (rewrite Di, Dj, Eqq in Ec; lia). rewrite lookup_drop. do 2 f_equal.
        rewrite Di, Dj, Eqq in Ec. lia.
  - rewrite decide_False; [done|]. rewrite Di, Dj. intros Hc.
    destruct (Z.lt_trichotomy qi qj) as [?|[?|?]]; [nia|lia|nia].
Qed.

(** ** Reads and writes in the table *)

(** [t] is [s] with other bytes in the blocks [bs]. *)
Definition touches (bs : list Z) (s t : fatfs) : Prop :=
  same_rest s t ∧ ∀ b, b ∉ bs → blk t !! b = blk s !! b.

Lemma touches_trans bs s t r : touches bs s t → touches bs t r → touches bs s r.
Proof.
  intros [(?&?&?&?) Hb] [(?&?&?&?) Hb']. split; [repeat split; congruence|].
  intros b Hn. by rewrite Hb', Hb.
Qed.

Lemma touches_insert bs s b data : b ∈ bs → touches bs s (set_blk (<[b := data]> (blk s)) s).
Proof. intros Hb. split; [done|]. intros c Hc. cbn [blk set_blk]. rewrite lookup_insert_ne; [done|]. by intros ->. Qed.

Lemma blk_mark_dirty fe s : blk (mark_dirty fe s) = blk s.
Proof. unfold mark_dirty. induction (bhs fe); simpl; done. Qed.

Lemma mark_dirty_rest fe s : same_rest s (mark_dirty fe s).
Proof. unfold mark_dirty. induction (bhs fe) as [|b l IH]; simpl; done. Qed.

Lemma wf_blk s t : blk t = blk s → wf s → wf t.
Proof. intros E Hw b Hb. rewrite E. by apply Hw. Qed.

Lemma fbyte_blk s t i : blk t = blk s → fbyte t i = fbyte s i.
Proof. intros E. unfold fbyte, block. by rewrite E. Qed.

Lemma touches_mark_dirty bs fe s t : touches bs s t → touches bs s (mark_dirty fe t).
Proof.
  intros H. eapply touches_trans; [exact H|]. split; [apply mark_dirty_rest|]. intros b _. by rewrite blk_mark_dirty.
Qed.

Lemma poke_loc s i x :
  wf s → 0 ≤ i < fat_size → is_byte x →
  ∃ t, poke s (loc i) x = Ret t ∧ wf t ∧ touches [(loc i).1] s t ∧
    ∀ j, 0 ≤ j < fat_size → fbyte t j = if decide (j = i) then x else fbyte s j.
Proof.
  intros Hw Hi Hx. destruct (loc_range i Hi) as [Hb Ho].
  destruct (wf_buffer s _ Hw Hb) as (E & Hl & _).
  destruct (poke_run s i [x] Hw ltac:(by constructor) Hi ltac:(change (Z.of_nat (length [x])) with 1; lia)) as [Hw' Hf].
  unfold poke. rewrite E. cbn [mbind outcome_bind]. rewrite aset_in by lia. cbn [mbind outcome_bind].
  rewrite insert_take_drop by lia. eexists. split; [reflexivity|].
  simpl in Hw', Hf. rewrite Nat.add_1_r in Hw', Hf. split; [done|].
  split; [apply touches_insert; set_solver|]. intros j Hj. rewrite Hf by done.
  do 2 case_decide; try lia. replace (Z.to_nat (j - i)) with O by lia. done.
Qed.

(** The value of [n] bytes at [i], all in one block. *)
Definition fval (n : nat) (s : fatfs) (i : Z) : Z := le_val (fbyte s <$> seqZ i (Z.of_nat n)).

Lemma block_run s i n :
  wf s → 0 ≤ i < fat_size → (loc i).2 + Z.of_nat n ≤ s_blocksize sb →
  take n (drop (Z.to_nat (loc i).2) (block s (loc i).1)) = fbyte s <$> seqZ i (Z.of_nat n).
Proof.
  intros Hw Hi Hr. destruct (loc_range i Hi) as [Hb Ho].
  destruct (wf_buffer s _ Hw Hb) as (_ & Hl & _). pose proof blocksize_pos as Hbs.
  apply list_eq. intros k. rewrite list_lookup_fmap. destruct (decide (k < n)%nat) as [Hk|Hk].
  - rewrite lookup_take_lt, lookup_drop by done.
    rewrite (proj2 (lookup_seqZ i (Z.of_nat n) k (i + Z.of_nat k))) by lia. cbn [fmap option_fmap option_map].
    assert (loc (i + Z.of_nat k) = ((loc i).1, (loc i).2 + Z.of_nat k)) as Ek.
    { unfold loc in *. simpl in *. f_equal.
      - f_equal. symmetry. apply Z.div_unique with (i mod s_blocksize sb + Z.of_nat k); [lia|].
        rewrite (Z.div_mod i (s_blocksize sb)) at 1 by lia. lia.
      - symmetry. apply Z.mod_unique with (i / s_blocksize sb); [lia|].
        rewrite (Z.div_mod i (s_blocksize sb)) at 1 by lia. lia. }
    unfold fbyte. rewrite Ek. cbn [fst snd].
    destruct (lookup_lt_is_Some_2 (block s (loc i).1) (Z.to_nat (loc i).2 + k)) as [x Hx]; [lia|].
    rewrite Hx. replace (Z.to_nat ((loc i).2 + Z.of_nat k)) with (Z.to_nat (loc i).2 + k)%nat by lia. by rewrite Hx.
  - rewrite lookup_take_ge by lia. symmetry. apply fmap_None, lookup_seqZ_ge. lia.
Qed.

Lemma peek_le_loc s i n :
  wf s → 0 ≤ i < fat_size → (loc i).2 + Z.of_nat n ≤ s_blocksize sb → peek_le n s (loc i) = Ret (fval n s i).
Proof.
  intros Hw Hi Hr. destruct (loc_range i Hi) as [Hb Ho].
  destruct (wf_buffer s _ Hw Hb) as (E & Hl & _).
  unfold peek_le. rewrite E. cbn [mbind outcome_bind]. rewrite decide_True by lia.
  unfold fval. by rewrite <- block_run.
Qed.

Lemma poke_le_loc s i n x :
  wf s → 0 ≤ i < fat_size → (loc i).2 + Z.of_nat n ≤ s_blocksize sb →
  ∃ t, poke_le n s (loc i) x = Ret t ∧ wf t ∧ touches [(loc i).1] s t ∧
    ∀ j, 0 ≤ j < fat_size →
      fbyte t j = if decide (i ≤ j < i + Z.of_nat n) then default 0 (le_bytes n x !! Z.to_nat (j - i)) else fbyte s j.
Proof.
  intros Hw Hi Hr. destruct (loc_range i Hi) as [Hb Ho].
  destruct (wf_buffer s _ Hw Hb) as (E & Hl & _).
  destruct (poke_run s i (le_bytes n x) Hw (le_bytes_range n x) Hi) as [Hw' Hf].
  { by rewrite length_le_bytes. }
  unfold poke_le. rewrite E. cbn [mbind outcome_bind]. rewrite decide_True by lia.
  eexists. split; [reflexivity|]. rewrite length_le_bytes in Hw', Hf. split; [done|].
  split; [apply touches_insert; set_solver|done].
Qed.

Lemma loc_shift i k :
  0 ≤ k → (loc i).2 + k < s_blocksize sb → loc (i + k) = ((loc i).1, (loc i).2 + k).
Proof.
  pose proof blocksize_pos. unfold loc. cbn [fst snd]. intros Hk Hr.
  pose proof (Z.mod_pos_bound i (s_blocksize sb) ltac:(lia)).
  pose proof (Z.div_mod i (s_blocksize sb) ltac:(lia)). f_equal.
  - f_equal. symmetry. apply Z.div_unique with (i mod s_blocksize sb + k); lia.
  - symmetry. apply Z.mod_unique with (i / s_blocksize sb); lia.
Qed.

Lemma loc_cross i k :
  (loc i).2 + 1 = s_blocksize sb → 0 ≤ k < s_blocksize sb → loc (i + 1 + k) = ((loc i).1 + 1, k).
Proof.
  pose proof blocksize_pos. unfold loc. cbn [fst snd]. intros Hr Hk.
  pose proof (Z.div_mod i (s_blocksize sb) ltac:(lia)). f_equal.
  - replace (fat_start sb + i / s_blocksize sb + 1) with (fat_start sb + (i / s_blocksize sb + 1)) by lia.
    f_equal. symmetry. apply Z.div_unique with k; lia.
  - symmetry. apply Z.mod_unique with (i / s_blocksize sb + 1); lia.
Qed.

(** The offset and block that the format functions compute. *)
Lemma split_offset bytes :
  0 ≤ bytes < 2 ^ 31 →
  (Z.land (s32 bytes) (s_blocksize sb - 1), fat_start sb + Z.shiftr (s32 bytes) (s_blocksize_bits sb)) =
  ((loc bytes).2, (loc bytes).1).
Proof.
  pose proof (geo_bits geo). intros Hb. rewrite wraps_small by lia. unfold loc, s_blocksize. cbn [fst snd].
  replace (2 ^ s_blocksize_bits sb - 1) with (Z.ones (s_blocksize_bits sb)) by (rewrite Z.ones_equiv; lia).
  rewrite Z.land_ones, Z.shiftr_div_pow2 by lia. done.
Qed.

Lemma sb_bread_wf s b : wf s → in_fat b → sb_bread s b = true.
Proof. intros Hw Hb. destruct (Hw b Hb) as (bs & E & _). unfold sb_bread. by rewrite E. Qed.
End flat.

(** ** The interface

    [view] is the value of an entry, [canon] the [struct fat_entry] that points at
    it.  A client that only holds canonical entries may read them, write them
    without touching any other entry, and step from one to the next. *)

Definition ent_ok (sb : sb_info) (e : Z) : Prop := FAT_START_ENT ≤ e < max_cluster sb.

Definition ent_val (sb : sb_info) (v : Z) : Prop := v = FAT_ENT_EOF ∨ 0 ≤ v < max_cluster sb.

Class FatentLaws (sb : sb_info) (ops : fatent_operations) := {
  view : fatfs → Z → Z;
  canon : Z → fat_entry;
  laws_geometry : geometry sb;
  laws_clusters : FAT_START_ENT ≤ max_cluster sb < FAT_ENT_EOF;
  canon_entry e : entry (canon e) = e;
  canon_bhs e : ent_ok sb e → bhs (canon e) ≠ [] ∧ (length (bhs (canon e)) ≤ 2)%nat ∧ ∀ b, b ∈ bhs (canon e) → in_fat sb b;
  view_blocks s t e : ent_ok sb e → (∀ b, in_fat sb b → blk t !! b = blk s !! b) → view t e = view s e;
  view_nonneg s e : wf sb s → ent_ok sb e → 0 ≤ view s e;
  bread_canon fe s : wf sb s → ent_ok sb (entry fe) → bhs fe = [] →
    ent_bread ops sb fe (ent_blocknr ops sb (entry fe)).1 (ent_blocknr ops sb (entry fe)).2 s = Ret (0, canon (entry fe));
  get_canon s e : wf sb s → ent_ok sb e → ent_get ops (canon e) s = Ret (view s e);
  put_canon s e v : wf sb s → ent_ok sb e → ent_val sb v →
    ∃ t, ent_put ops (canon e) v s = Ret t ∧ wf sb t ∧ touches (bhs (canon e)) s t ∧
      ∀ e', ent_ok sb e' → view t e' = if decide (e' = e) then v else view s e';
  next_canon e : ent_ok sb e →
    ∃ more fe, ent_next ops sb (canon e) = Ret (more, fe) ∧ entry fe = e + 1 ∧
      (more = true → ent_ok sb (e + 1) → fe = canon (e + 1))
}.

(** ** Twelve bits *)

Section fat12.
Context (sb : sb_info) (geo : geometry sb).

(** The entries fit into the table, and no cluster number is a mark. *)
Context (Hfit : 3 * max_cluster sb ≤ 2 * fat_size sb) (Hmax : FAT_START_ENT ≤ max_cluster sb ≤ BAD_FAT12).

Definition pos12 (e : Z) : Z := e + e / 2.

Definition odd_entry (e : Z) : bool := z2b (Z.land e 1).

Definition raw12 (odd : bool) (b0 b1 : Z) : Z :=
  Z.land (if odd then Z.lor (Z.shiftr b0 4) (Z.shiftl b1 4) else Z.lor (Z.shiftl b1 8) b0) 0x0fff.

Definition norm12 (v : Z) : Z := if BAD_FAT12 <=? v then FAT_ENT_EOF else v.

Definition view12 (s : fatfs) (e : Z) : Z :=
  norm12 (raw12 (odd_entry e) (fbyte sb s (pos12 e)) (fbyte sb s (pos12 e + 1))).

Definition canon12 (e : Z) : fat_entry :=
  let p := loc sb (pos12 e) in
  FatEntry e (Some (Ent12 p (loc sb (pos12 e + 1))))
    (if p.2 + 1 <? s_blocksize sb then [p.1] else [p.1; p.1 + 1]).

Lemma odd_entry_spec e : 0 ≤ e → odd_entry e = negb (e mod 2 =? 0).
Proof. intros. unfold odd_entry, z2b. by rewrite (land_ones_mod e 1 1). Qed.

Lemma raw12_odd b0 b1 : is_byte b0 → is_byte b1 → raw12 true b0 b1 = 16 * b1 + b0 / 16.
Proof.
  unfold is_byte. intros. unfold raw12. rewrite Z.lor_comm, Z.shiftr_div_pow2 by lia.
  rewrite lor_shiftl_add, (land_ones_mod _ 12) by (first [done | Z.div_mod_to_equations; lia]).
  Z.div_mod_to_equations; lia.
Qed.

Lemma raw12_even b0 b1 : is_byte b0 → is_byte b1 → raw12 false b0 b1 = 256 * (b1 mod 16) + b0.
Proof.
  unfold is_byte. intros. unfold raw12.
  rewrite lor_shiftl_add, (land_ones_mod _ 12) by (first [done | lia]). Z.div_mod_to_equations; lia.
Qed.

(** The bytes [fat12_ent_put] stores, for an odd and for an even entry. *)
Lemma put12_odd b0 new :
  is_byte b0 → 0 ≤ new < 4096 →
  u8 (Z.lor (Z.shiftl new 4) (Z.land b0 0x0f)) = 16 * (new mod 16) + b0 mod 16 ∧ u8 (Z.shiftr new 4) = new / 16.
Proof.
  unfold is_byte. intros. rewrite (land_ones_mod _ 4), lor_shiftl_add, Z.shiftr_div_pow2
    by (first [done | lia | apply Z.mod_pos_bound; lia]).
  unfold wrapu. split; Z.div_mod_to_equations; lia.
Qed.

Lemma put12_even b1 new :
  is_byte b1 → 0 ≤ new < 4096 →
  Z.land new 0xff = new mod 256 ∧ u8 (Z.lor (Z.land b1 0xf0) (Z.shiftr new 8)) = 16 * (b1 / 16) + new / 256.
Proof.
  unfold is_byte. intros. rewrite (land_ones_mod _ 8), Z.shiftr_div_pow2 by (first [done | lia]).
  assert (Z.land b1 0xf0 = Z.shiftl (b1 / 16) 4) as ->.
  { apply Z.bits_inj'. intros k Hk. rewrite Z.land_spec.
    change 0xf0 with (Z.shiftl (Z.ones 4) 4). change 16 with (2 ^ 4). rewrite <- Z.shiftr_div_pow2 by lia.
    destruct (Z.ltb_spec k 4).
    - rewrite !Z.shiftl_spec_low by lia. apply andb_false_r.
    - rewrite !Z.shiftl_spec, Z.shiftr_spec by lia. replace (k - 4 + 4) with k by lia.
      destruct (Z.ltb_spec k 8); [rewrite Z.ones_spec_low by lia; apply andb_true_r|].
      rewrite Z.ones_spec_high by lia. rewrite andb_false_r. symmetry.
      rewrite <- (Z.mod_small b1 (2 ^ 8)) by lia. apply Z.mod_pow2_bits_high. lia. }
  rewrite lor_shiftl_add by (Z.div_mod_to_equations; lia). unfold wrapu. split; [done|]. Z.div_mod_to_equations; lia.
Qed.

Lemma pos12_bounds e : ent_ok sb e → 0 ≤ pos12 e ∧ pos12 e + 1 < fat_size sb.
Proof. unfold ent_ok, FAT_START_ENT, pos12. intros. Z.div_mod_to_equations; lia. Qed.

Lemma loc_next12 e : let p := loc sb (pos12 e) in
  loc sb (pos12 e + 1) = if p.2 + 1 <? s_blocksize sb then (p.1, p.2 + 1) else (p.1 + 1, 0).
Proof.
  cbv zeta. pose proof (blocksize_pos sb geo).
  assert (0 ≤ (loc sb (pos12 e)).2 < s_blocksize sb) by (apply Z.mod_pos_bound; lia).
  destruct (Z.ltb_spec ((loc sb (pos12 e)).2 + 1) (s_blocksize sb)).
  - by rewrite (loc_shift sb geo) by lia.
  - replace (pos12 e + 1) with (pos12 e + 1 + 0) by lia. by rewrite (loc_cross sb geo) by lia.
Qed.

Lemma bread12 fe s :
  wf sb s → ent_ok sb (entry fe) → bhs fe = [] →
  fat12_ent_bread sb fe (fat12_ent_blocknr sb (entry fe)).1 (fat12_ent_blocknr sb (entry fe)).2 s = Ret (0, canon12 (entry fe)).
Proof.
  intros Hw He _. destruct (pos12_bounds _ He) as [H0 H1]. pose proof (blocksize_pos sb geo). pose proof (geo_size sb geo) as Hg.
  fold (fat_size sb) in Hg.
  unfold fat12_ent_blocknr. rewrite Z.shiftr_div_pow2 by lia. change (2 ^ 1) with 2. fold (pos12 (entry fe)). cbv zeta.
  rewrite (split_offset sb geo) by lia. cbn [fst snd].
  destruct (loc_range sb geo (pos12 (entry fe)) ltac:(lia)) as [Hb Ho].
  destruct (loc_range sb geo (pos12 (entry fe) + 1) ltac:(lia)) as [Hb' _].
  unfold fat12_ent_bread, canon12. rewrite loc_next12 in *. rewrite (sb_bread_wf sb s _ Hw Hb). cbn [negb].
  destruct (_ <? _); cbn [fst] in *; [by destruct (loc sb (pos12 (entry fe)))|].
  rewrite (sb_bread_wf sb s _ Hw Hb'). cbn [negb]. destruct (Z.ltb_spec ((loc sb (pos12 (entry fe))).2 + 1) (s_blocksize sb)).
  all: by destruct (loc sb (pos12 (entry fe))).
Qed.

Lemma get12 s e : wf sb s → ent_ok sb e → fat12_ent_get (canon12 e) s = Ret (view12 s e).
Proof.
  intros Hw He. destruct (pos12_bounds _ He). unfold fat12_ent_get. cbn [u canon12 entry].
  destruct (peek_loc sb geo s (pos12 e) Hw ltac:(lia)) as [-> _].
  destruct (peek_loc sb geo s (pos12 e + 1) Hw ltac:(lia)) as [-> _]. done.
Qed.

(** The number written in the table for a value. *)
Definition store12 (v : Z) : Z := if v =? FAT_ENT_EOF then EOF_FAT12 else v.

Lemma store12_norm v : ent_val sb v → 0 ≤ store12 v < 4096 ∧ norm12 (store12 v) = v.
Proof.
  unfold ent_val, store12, norm12, FAT_ENT_EOF, EOF_FAT32, EOF_FAT12, BAD_FAT12 in *. intros Hv.
  destruct (Z.eqb_spec v 0x0fffffff); [split; [lia|by subst]|]. zcase; lia.
Qed.

(** Two stores into the bytes of the entry. *)
Lemma put12_bytes s e v :
  wf sb s → ent_ok sb e → ent_val sb v →
  let b0 := fbyte sb s (pos12 e) in let b1 := fbyte sb s (pos12 e + 1) in
  let n := store12 v in
  ∃ t, fat12_ent_put (canon12 e) v s = Ret t ∧ wf sb t ∧ touches (bhs (canon12 e)) s t ∧
    ∀ j, 0 ≤ j < fat_size sb → fbyte sb t j =
      if decide (j = pos12 e) then (if odd_entry e then 16 * (n mod 16) + b0 mod 16 else n mod 256)
      else if decide (j = pos12 e + 1) then (if odd_entry e then n / 16 else 16 * (b1 / 16) + n / 256)
      else fbyte sb s j.
Proof.
  intros Hw He Hv b0 b1 n. destruct (pos12_bounds _ He). destruct (store12_norm v Hv) as [Hn _]. fold n in Hn.
  destruct (peek_loc sb geo s (pos12 e) Hw ltac:(lia)) as [P0 B0]. fold b0 in P0, B0.
  destruct (peek_loc sb geo s (pos12 e + 1) Hw ltac:(lia)) as [P1 B1]. fold b1 in P1, B1.
  destruct (put12_odd b0 n B0 Hn) as [O0 O1]. destruct (put12_even b1 n B1 Hn) as [E0 E1].
  set (x0 := if odd_entry e then 16 * (n mod 16) + b0 mod 16 else n mod 256).
  set (x1 := if odd_entry e then n / 16 else 16 * (b1 / 16) + n / 256).
  assert (is_byte x0 ∧ is_byte x1) as [X0 X1].
  { unfold x0, x1, is_byte in *. destruct (odd_entry e); split; Z.div_mod_to_equations; lia. }
  destruct (poke_loc sb geo s (pos12 e) x0 Hw ltac:(lia) X0) as (t & Ht & Hwt & Tt & Ft).
  destruct (poke_loc sb geo t (pos12 e + 1) x1 Hwt ltac:(lia) X1) as (r & Hr & Hwr & Tr & Fr).
  assert (fat12_ent_put (canon12 e) v s = Ret (mark_dirty (canon12 e) r)) as E.
  { unfold fat12_ent_put. cbn [u canon12 entry]. fold (odd_entry e) (store12 v). fold n.
    destruct (peek_loc sb geo t (pos12 e + 1) Hwt ltac:(lia)) as [P1' _]. rewrite Ft, decide_False in P1' by lia. fold b1 in P1'.
    unfold x0, x1 in *. destruct (odd_entry e).
    - rewrite P0. cbn [mbind outcome_bind]. rewrite O0, Ht. cbn [mbind outcome_bind]. by rewrite O1, Hr.
    - rewrite E0, Ht. cbn [mbind outcome_bind]. rewrite P1'. cbn [mbind outcome_bind]. by rewrite E1, Hr. }
  exists (mark_dirty (canon12 e) r). split; [exact E|]. split; [by apply (wf_blk _ r); [apply blk_mark_dirty|]|]. split.
  - apply touches_mark_dirty. unfold canon12. cbn [bhs]. rewrite loc_next12 in Tr.
    destruct Tt as [R1 T1], Tr as [R2 T2].
    split; [destruct R1 as (?&?&?&?), R2 as (?&?&?&?); repeat split; congruence|].
    intros b Hb. destruct (_ <? _); simpl in *; rewrite T2, T1; set_solver.
  - intros j Hj. rewrite (fbyte_blk _ r) by apply blk_mark_dirty. rewrite Fr by done. rewrite Ft by done.
    fold x0 x1. by repeat case_decide; try lia.
Qed.

Lemma raw12_arith odd b0 b1 :
  is_byte b0 → is_byte b1 → raw12 odd b0 b1 = if odd then 16 * b1 + b0 / 16 else 256 * (b1 mod 16) + b0.
Proof. intros. destruct odd; [by apply raw12_odd|by apply raw12_even]. Qed.

Lemma put12 s e v :
  wf sb s → ent_ok sb e → ent_val sb v →
  ∃ t, fat12_ent_put (canon12 e) v s = Ret t ∧ wf sb t ∧ touches (bhs (canon12 e)) s t ∧
    ∀ e', ent_ok sb e' → view12 t e' = if decide (e' = e) then v else view12 s e'.
Proof.
  intros Hw He Hv. destruct (put12_bytes s e v Hw He Hv) as (t & Ht & Hwt & Tt & Ft).
  exists t. do 3 (split; [done|]). intros e' He'. destruct (store12_norm v Hv) as [Hn Nv].
  destruct (pos12_bounds _ He), (pos12_bounds _ He').
  destruct (peek_loc sb geo s (pos12 e) Hw ltac:(lia)) as [_ B0].
  destruct (peek_loc sb geo s (pos12 e + 1) Hw ltac:(lia)) as [_ B1].
  destruct (peek_loc sb geo s (pos12 e') Hw ltac:(lia)) as [_ C0].
  destruct (peek_loc sb geo s (pos12 e' + 1) Hw ltac:(lia)) as [_ C1].
  destruct (peek_loc sb geo t (pos12 e') Hwt ltac:(lia)) as [_ D0].
  destruct (peek_loc sb geo t (pos12 e' + 1) Hwt ltac:(lia)) as [_ D1].
  unfold view12. rewrite !raw12_arith by done.
  pose proof (Ft (pos12 e') ltac:(lia)) as F0. pose proof (Ft (pos12 e' + 1) ltac:(lia)) as F1.
  rewrite !odd_entry_spec in * by (unfold ent_ok, FAT_START_ENT in *; lia).
  set (n := store12 v) in *. unfold is_byte, ent_ok, FAT_START_ENT in *.
  set (a := pos12 e) in *. set (a' := pos12 e') in *.
  assert (a = e + e / 2 ∧ a' = e' + e' / 2) as [Ea Ea'] by done. clearbody a a'.
  destruct (decide (e' = e)) as [->|Hne].
  - assert (a' = a) as -> by lia. rewrite <- Nv. f_equal. rewrite decide_True in F0 by lia.
    rewrite decide_False, decide_True in F1 by lia. rewrite F0, F1.
    destruct (Z.eqb_spec (e mod 2) 0); cbn [negb]; Z.div_mod_to_equations; lia.
  - f_equal. repeat case_decide; repeat match goal with H : _ = a |- _ => rewrite H in * | H : _ = a + 1 |- _ => rewrite H in * end;
      destruct (Z.eqb_spec (e mod 2) 0), (Z.eqb_spec (e' mod 2) 0); cbn [negb] in *;
      Z.div_mod_to_equations; lia.
Qed.

Lemma next12 e :
  ent_ok sb e → ∃ more fe, fat12_ent_next sb (canon12 e) = Ret (more, fe) ∧ entry fe = e + 1 ∧
    (more = true → ent_ok sb (e + 1) → fe = canon12 (e + 1)).
Proof.
  intros He. pose proof (blocksize_pos sb geo) as Hbs. unfold fat12_ent_next. cbn [u canon12 entry bhs].
  rewrite loc_next12. set (p := loc sb (pos12 e)).
  assert (0 ≤ p.2 < s_blocksize sb) as Hp by (apply Z.mod_pos_bound; lia).
  unfold ent_ok, FAT_START_ENT in He. rewrite (land_ones_mod e 1 1) by done. change (2 ^ 1) with 2.
  set (o := e mod 2). assert (0 ≤ o ≤ 1 ∧ pos12 (e + 1) = pos12 e + 1 + o) as [Ho Epos].
  { unfold o, pos12. Z.div_mod_to_equations; lia. }
  destruct (Z.ltb_spec (p.2 + 1) (s_blocksize sb)) as [Hin|Hout].
  - destruct (Z.ltb_spec (p.2 + 1 + 1 + o) (s_blocksize sb - 1)); eexists _, _; split; try reflexivity; split; try done.
    intros _ _. unfold canon12. rewrite Epos.
    replace (pos12 e + 1 + o) with (pos12 e + (1 + o)) by lia. replace (pos12 e + (1 + o) + 1) with (pos12 e + (2 + o)) by lia.
    rewrite !(loc_shift sb geo (pos12 e)) by (fold p; lia). fold p. cbn [fst snd].
    destruct (Z.ltb_spec (p.2 + (1 + o) + 1) (s_blocksize sb)); [|lia]. do 2 f_equal. f_equal; f_equal; lia.
  - eexists _, _. split; [reflexivity|]. split; [done|]. intros _ _. unfold canon12. rewrite Epos.
    replace (pos12 e + 1 + o + 1) with (pos12 e + 1 + (o + 1)) by lia.
    rewrite !(loc_cross sb geo (pos12 e)) by (fold p; lia). fold p. cbn [fst snd].
    destruct (Z.ltb_spec (o + 1) (s_blocksize sb)); [|lia]. do 2 f_equal. f_equal; f_equal; lia.
Qed.

Lemma view12_nonneg s e : wf sb s → ent_ok sb e → 0 ≤ view12 s e.
Proof.
  intros Hw He. destruct (pos12_bounds _ He).
  destruct (peek_loc sb geo s (pos12 e) Hw ltac:(lia)) as [_ B0].
  destruct (peek_loc sb geo s (pos12 e + 1) Hw ltac:(lia)) as [_ B1].
  unfold view12, norm12. rewrite raw12_arith by done. unfold is_byte in *.
  case_match; [done|]. destruct (odd_entry e); Z.div_mod_to_equations; lia.
Qed.

#[export] Instance fat12_laws : FatentLaws sb fat12_ops.
Proof.
  refine (Build_FatentLaws sb fat12_ops view12 canon12 geo _ _ _ _ view12_nonneg bread12 get12 put12 next12).
  - unfold BAD_FAT12, FAT_ENT_EOF, EOF_FAT32 in *. lia.
  - done.
  - intros e He. destruct (pos12_bounds _ He). pose proof (loc_next12 e) as En. cbv zeta in En.
    destruct (loc_range sb geo (pos12 e) ltac:(lia)) as [Hb _].
    destruct (loc_range sb geo (pos12 e + 1) ltac:(lia)) as [Hb' _]. rewrite En in Hb'.
    cbn [canon12 bhs]. destruct (_ <? _); simpl in *; (split; [done|]; split; [lia|set_solver]).
  - intros s t e He Hb. destruct (pos12_bounds _ He). unfold view12, fbyte, block.
    destruct (loc_range sb geo (pos12 e) ltac:(lia)) as [I0 _].
    destruct (loc_range sb geo (pos12 e + 1) ltac:(lia)) as [I1 _]. by rewrite !Hb.
Defined.
End fat12.

(** ** Whole words

    Entries of [n] bytes, [n] being 2 or 4, never cross a block. *)

Section words.
Context (sb : sb_info) (geo : geometry sb) (shift : Z) (Hshift : shift = 1 ∨ shift = 2).

Definition wsize : nat := Z.to_nat (2 ^ shift).

Context (Hfit : max_cluster sb * 2 ^ shift ≤ fat_size sb).

Definition wpos (e : Z) : Z := e * 2 ^ shift.

Lemma wsize_cases : (shift = 1 ∧ wsize = 2%nat ∧ 2 ^ shift = 2) ∨ (shift = 2 ∧ wsize = 4%nat ∧ 2 ^ shift = 4).
Proof. unfold wsize. destruct Hshift as [-> | ->]; [left|right]; done. Qed.

Lemma blocksize_words : ∃ k, s_blocksize sb = 4 * k.
Proof.
  pose proof (geo_bits sb geo). exists (2 ^ (s_blocksize_bits sb - 2)).
  change 4 with (2 ^ 2). rewrite <- Z.pow_add_r by lia. unfold s_blocksize. f_equal. lia.
Qed.

Lemma wpos_bounds e : ent_ok sb e →
  0 ≤ wpos e < fat_size sb ∧ (loc sb (wpos e)).2 + Z.of_nat wsize ≤ s_blocksize sb ∧
  wpos e + Z.of_nat wsize ≤ fat_size sb.
Proof.
  unfold ent_ok, FAT_START_ENT, wpos. intros He. pose proof (blocksize_pos sb geo).
  destruct blocksize_words as [k Hk]. unfold loc. cbn [snd].
  destruct wsize_cases as [(_ & -> & E)|(_ & -> & E)]; rewrite E in *;
    (split; [lia|]; split; [|lia]); rewrite Hk in *.
  - pose proof (Z.mod_pos_bound (e * 2) (4 * k) ltac:(lia)).
    pose proof (Z.div_mod (e * 2) (4 * k) ltac:(lia)). lia.
  - pose proof (Z.mod_pos_bound (e * 4) (4 * k) ltac:(lia)).
    pose proof (Z.div_mod (e * 4) (4 * k) ltac:(lia)). lia.
Qed.

Definition word (s : fatfs) (e : Z) : Z := fval sb wsize s (wpos e).

Lemma word_range s e : wf sb s → ent_ok sb e → 0 ≤ word s e < 256 ^ Z.of_nat wsize.
Proof.
  intros Hw He. destruct (wpos_bounds e He) as (? & ? & ?). unfold word, fval.
  assert (length (fbyte sb s <$> seqZ (wpos e) (Z.of_nat wsize)) = wsize) as El by (rewrite length_fmap, length_seqZ; lia).
  pose proof (le_val_range (fbyte sb s <$> seqZ (wpos e) (Z.of_nat wsize))) as Hr. rewrite El in Hr. apply Hr.
  apply Forall_fmap, Forall_forall. intros j [Hj ?]%elem_of_seqZ. apply (peek_loc sb geo s j Hw). lia.
Qed.

Lemma word_blocks s t e : ent_ok sb e → (∀ b, in_fat sb b → blk t !! b = blk s !! b) → word t e = word s e.
Proof.
  intros He Hb. destruct (wpos_bounds e He) as (? & ? & ?). unfold word, fval. f_equal. apply list_fmap_ext.
  intros i j Hij. apply list_elem_of_lookup_2, elem_of_seqZ in Hij. unfold fbyte, block.
  destruct (loc_range sb geo j ltac:(lia)) as [Hj _]. by rewrite Hb.
Qed.

Lemma word_poke s e x :
  wf sb s → ent_ok sb e → 0 ≤ x < 256 ^ Z.of_nat wsize →
  ∃ t, poke_le wsize s (loc sb (wpos e)) x = Ret t ∧ wf sb t ∧ touches [(loc sb (wpos e)).1] s t ∧
    ∀ e', ent_ok sb e' → word t e' = if decide (e' = e) then x else word s e'.
Proof.
  intros Hw He Hx. destruct (wpos_bounds e He) as (? & ? & ?).
  destruct (poke_le_loc sb geo s (wpos e) wsize x) as (t & Ht & Hwt & Tt & Ft); try done.
  exists t. do 3 (split; [done|]). intros e' He'. destruct (wpos_bounds e' He') as (? & ? & ?).
  assert (wpos e' = wpos e + (e' - e) * Z.of_nat wsize) as Ed.
  { unfold wpos. destruct wsize_cases as [(_ & -> & ->)|(_ & -> & ->)]; lia. }
  assert (0 < Z.of_nat wsize) by (destruct wsize_cases as [(_ & -> & _)|(_ & -> & _)]; lia).
  unfold word, fval. destruct (decide (e' = e)) as [->|Hne].
  - rewrite <- (le_val_bytes wsize x Hx). f_equal. apply list_eq. intros k. rewrite list_lookup_fmap.
    destruct (decide (k < wsize)%nat).
    + rewrite (proj2 (lookup_seqZ (wpos e) (Z.of_nat wsize) k (wpos e + Z.of_nat k))) by lia.
      cbn [fmap option_fmap option_map]. rewrite Ft, decide_True by lia.
      replace (Z.to_nat (wpos e + Z.of_nat k - wpos e)) with k by lia.
      destruct (lookup_lt_is_Some_2 (le_bytes wsize x) k) as [y Hy]; [by rewrite length_le_bytes|]. by rewrite Hy.
    + rewrite lookup_seqZ_ge by lia. symmetry. apply lookup_ge_None_2. rewrite length_le_bytes. lia.
  - f_equal. apply list_fmap_ext. intros i j Hij. apply list_elem_of_lookup_2, elem_of_seqZ in Hij.
    rewrite Ft, decide_False; [done| |lia]. nia.
Qed.
End words.

(** ** Sixteen bits *)

(** What the two word formats share: the entry that points at a word, and the
    steps that find and leave it. *)
Section word_steps.
Context (sb : sb_info) (geo : geometry sb) (shift : Z) (Hshift : shift = 1 ∨ shift = 2).
Context (Hfit : max_cluster sb * 2 ^ shift ≤ fat_size sb) (mk : Z * Z → ent_ptr).

Definition canonw (e : Z) : fat_entry :=
  let p := loc sb (wpos shift e) in FatEntry e (Some (mk p)) [p.1].

Lemma breadw set_ptr fe s :
  (∀ f o, bhs f ≠ [] → set_ptr f o = Ret (FatEntry (entry f) (Some (mk (default 0 (head (bhs f)), o))) (bhs f))) →
  wf sb s → ent_ok sb (entry fe) →
  fat_ent_bread set_ptr sb fe (fat_ent_blocknr shift sb (entry fe)).1 (fat_ent_blocknr shift sb (entry fe)).2 s =
  Ret (0, canonw (entry fe)).
Proof.
  intros Hset Hw He. destruct (wpos_bounds sb geo shift Hshift Hfit (entry fe) He) as (? & ? & ?).
  pose proof (geo_size sb geo) as Hg. fold (fat_size sb) in Hg.
  unfold fat_ent_blocknr. rewrite Z.shiftl_mul_pow2 by lia. fold (wpos shift (entry fe)). cbv zeta.
  rewrite (split_offset sb geo) by lia. cbn [fst snd].
  destruct (loc_range sb geo (wpos shift (entry fe)) ltac:(lia)) as [Hb _].
  unfold fat_ent_bread. rewrite (sb_bread_wf sb s _ Hw Hb). cbn [negb]. rewrite Hset by done. cbn [bhs entry head default mbind outcome_bind].
  unfold canonw. by destruct (loc sb (wpos shift (entry fe))).
Qed.

Lemma nextw e :
  ent_ok sb e → (loc sb (wpos shift e)).2 < s_blocksize sb - 2 ^ shift →
  canonw (e + 1) = FatEntry (e + 1) (Some (mk ((loc sb (wpos shift e)).1, (loc sb (wpos shift e)).2 + 2 ^ shift)))
                            [(loc sb (wpos shift e)).1].
Proof.
  intros He Hlt. unfold canonw. assert (wpos shift (e + 1) = wpos shift e + 2 ^ shift) as -> by (unfold wpos; lia).
  rewrite (loc_shift sb geo); [done|destruct Hshift as [-> | ->]; lia|lia].
Qed.

Lemma canonw_bhs e : ent_ok sb e →
  bhs (canonw e) ≠ [] ∧ (length (bhs (canonw e)) ≤ 2)%nat ∧ ∀ b, b ∈ bhs (canonw e) → in_fat sb b.
Proof.
  intros He. destruct (wpos_bounds sb geo shift Hshift Hfit e He) as (? & ? & ?).
  destruct (loc_range sb geo (wpos shift e) ltac:(lia)) as [Hb _]. cbn [canonw bhs].
  split; [done|]. split; [simpl; lia|]. set_solver.
Qed.
End word_steps.

Section fat16.
Context (sb : sb_info) (geo : geometry sb) (Hfit : max_cluster sb * 2 ^ 1 ≤ fat_size sb).
Context (Hmax : FAT_START_ENT ≤ max_cluster sb ≤ BAD_FAT16).

Definition norm16 (v : Z) : Z := if BAD_FAT16 <=? v then FAT_ENT_EOF else v.

Definition view16 (s : fatfs) (e : Z) : Z := norm16 (word sb 1 s e).

Abbreviation canon16 := (canonw sb 1 Ent16).
Abbreviation sh := (or_introl eq_refl : 1 = 1 ∨ 1 = 2).

Lemma get16 s e : wf sb s → ent_ok sb e → fat16_ent_get (canon16 e) s = Ret (view16 s e).
Proof.
  intros Hw He. destruct (wpos_bounds sb geo 1 sh Hfit e He) as (? & ? & ?).
  unfold fat16_ent_get. cbn [u canonw]. change 2%nat with (wsize 1). by rewrite (peek_le_loc sb geo).
Qed.

Lemma put16 s e v :
  wf sb s → ent_ok sb e → ent_val sb v →
  ∃ t, fat16_ent_put (canon16 e) v s = Ret t ∧ wf sb t ∧ touches (bhs (canon16 e)) s t ∧
    ∀ e', ent_ok sb e' → view16 t e' = if decide (e' = e) then v else view16 s e'.
Proof.
  intros Hw He Hv. set (n := if v =? FAT_ENT_EOF then EOF_FAT16 else v).
  assert (0 ≤ n < 2 ^ 16 ∧ norm16 n = v) as [Hn Nv].
  { unfold ent_val, n, norm16, FAT_ENT_EOF, EOF_FAT32, EOF_FAT16, BAD_FAT16 in *.
    destruct (Z.eqb_spec v 0x0fffffff); [split; [lia|by subst]|]. zcase; lia. }
  destruct (word_poke sb geo 1 sh Hfit s e n Hw He Hn) as (t & Ht & Hwt & Tt & Vt).
  exists (mark_dirty (canon16 e) t). split.
  { unfold fat16_ent_put. cbn [u canonw]. fold n. rewrite wrapu_small by lia. change 2%nat with (wsize 1). by rewrite Ht. }
  split; [by apply (wf_blk _ t); [apply blk_mark_dirty|]|]. split; [by apply touches_mark_dirty|].
  intros e' He'. unfold view16. rewrite (word_blocks sb geo 1 sh Hfit t) by (first [done | intros; by rewrite blk_mark_dirty]).
  rewrite Vt by done. by case_decide.
Qed.

Lemma next16 e :
  ent_ok sb e → ∃ more fe, fat16_ent_next sb (canon16 e) = Ret (more, fe) ∧ entry fe = e + 1 ∧
    (more = true → ent_ok sb (e + 1) → fe = canon16 (e + 1)).
Proof.
  intros He. unfold fat16_ent_next. cbn [u canonw bhs entry]. pose proof (nextw sb geo 1 sh Hfit Ent16 e He) as Hn.
  destruct (loc sb (wpos 1 e)) as [b o]. cbn [fst snd] in *.
  destruct (Z.ltb_spec o (s_blocksize sb - 2)); eexists _, _; (split; [reflexivity|]); (split; [done|]); [|done].
  intros _ _. rewrite Hn by lia. done.
Qed.

#[export] Instance fat16_laws : FatentLaws sb fat16_ops.
Proof.
  refine (Build_FatentLaws sb fat16_ops view16 canon16 geo _ _ (canonw_bhs sb geo 1 sh Hfit Ent16) _ _ _ get16 put16 next16).
  - unfold BAD_FAT16, FAT_ENT_EOF, EOF_FAT32 in *. lia.
  - done.
  - intros s t e He Hb. unfold view16. by rewrite (word_blocks sb geo 1 sh Hfit s t).
  - intros s e Hw He. destruct (word_range sb geo 1 sh Hfit s e Hw He). unfold view16, norm16. case_match; [done|lia].
  - intros fe s Hw He _. apply (breadw sb geo 1 sh Hfit Ent16); [|done..].
    intros f o Hf. unfold fat16_ent_set_ptr. by destruct (bhs f).
Defined.
End fat16.

(** ** Thirty-two bits *)

Section fat32.
Context (sb : sb_info) (geo : geometry sb) (Hfit : max_cluster sb * 2 ^ 2 ≤ fat_size sb).
Context (Hmax : FAT_START_ENT ≤ max_cluster sb ≤ BAD_FAT32).

Definition norm32 (v : Z) : Z := let next := Z.land v 0x0fffffff in if BAD_FAT32 <=? next then FAT_ENT_EOF else next.

Definition view32 (s : fatfs) (e : Z) : Z := norm32 (word sb 2 s e).

Abbreviation canon32 := (canonw sb 2 Ent32).
Abbreviation sh := (or_intror eq_refl : 2 = 1 ∨ 2 = 2).

Lemma get32 s e : wf sb s → ent_ok sb e → fat32_ent_get (canon32 e) s = Ret (view32 s e).
Proof.
  intros Hw He. destruct (wpos_bounds sb geo 2 sh Hfit e He) as (? & ? & ?).
  unfold fat32_ent_get. cbn [u canonw]. change 4%nat with (wsize 2). by rewrite (peek_le_loc sb geo).
Qed.

(** The four reserved bits of the old word are kept. *)
Lemma put32_word v old :
  0 ≤ v < 2 ^ 28 → 0 ≤ old < 2 ^ 32 →
  u32 (Z.lor v (Z.land old (Z.lnot 0x0fffffff))) = old / 2 ^ 28 * 2 ^ 28 + v.
Proof.
  intros Hv Ho. assert (Z.land old (Z.lnot 0x0fffffff) = Z.shiftl (old / 2 ^ 28) 28) as ->.
  { rewrite <- Z.ldiff_land. change 0x0fffffff with (Z.ones 28). rewrite Z.ldiff_ones_r by lia.
    by rewrite Z.shiftr_div_pow2 by lia. }
  rewrite Z.lor_comm, lor_shiftl_add by lia. apply wrapu_small. Z.div_mod_to_equations; lia.
Qed.

Lemma put32 s e v :
  wf sb s → ent_ok sb e → ent_val sb v →
  ∃ t, fat32_ent_put (canon32 e) v s = Ret t ∧ wf sb t ∧ touches (bhs (canon32 e)) s t ∧
    ∀ e', ent_ok sb e' → view32 t e' = if decide (e' = e) then v else view32 s e'.
Proof.
  intros Hw He Hv. destruct (wpos_bounds sb geo 2 sh Hfit e He) as (? & ? & ?).
  pose proof (word_range sb geo 2 sh Hfit s e Hw He) as Hold. change (256 ^ Z.of_nat (wsize 2)) with (2 ^ 32) in Hold.
  assert (0 ≤ v < 2 ^ 28) as Hv28.
  { unfold ent_val, FAT_ENT_EOF, EOF_FAT32, BAD_FAT32 in *. lia. }
  set (x := word sb 2 s e / 2 ^ 28 * 2 ^ 28 + v).
  assert (0 ≤ x < 2 ^ 32) as Hx by (unfold x; Z.div_mod_to_equations; lia).
  assert (norm32 x = v) as Nx.
  { unfold norm32. rewrite (land_ones_mod x 28) by done. unfold x. rewrite Z.add_comm, Z_mod_plus_full, Z.mod_small by lia.
    unfold ent_val, FAT_ENT_EOF, EOF_FAT32, BAD_FAT32 in *. zcase; lia. }
  destruct (word_poke sb geo 2 sh Hfit s e x Hw He Hx) as (t & Ht & Hwt & Tt & Vt).
  exists (mark_dirty (canon32 e) t). split.
  { unfold fat32_ent_put. cbn [u canonw]. replace (if v =? FAT_ENT_EOF then EOF_FAT32 else v) with v
      by (unfold FAT_ENT_EOF; by destruct (Z.eqb_spec v EOF_FAT32)).
    change 4%nat with (wsize 2). rewrite (peek_le_loc sb geo) by done. cbn [mbind outcome_bind].
    fold (word sb 2 s e). rewrite put32_word by done. fold x. by rewrite Ht. }
  split; [by apply (wf_blk _ t); [apply blk_mark_dirty|]|]. split; [by apply touches_mark_dirty|].
  intros e' He'. unfold view32. rewrite (word_blocks sb geo 2 sh Hfit t) by (first [done | intros; by rewrite blk_mark_dirty]).
  rewrite Vt by done. by case_decide.
Qed.

Lemma next32 e :
  ent_ok sb e → ∃ more fe, fat32_ent_next sb (canon32 e) = Ret (more, fe) ∧ entry fe = e + 1 ∧
    (more = true → ent_ok sb (e + 1) → fe = canon32 (e + 1)).
Proof.
  intros He. unfold fat32_ent_next. cbn [u canonw bhs entry]. pose proof (nextw sb geo 2 sh Hfit Ent32 e He) as Hn.
  destruct (loc sb (wpos 2 e)) as [b o]. cbn [fst snd] in *.
  destruct (Z.ltb_spec o (s_blocksize sb - 4)); eexists _, _; (split; [reflexivity|]); (split; [done|]); [|done].
  intros _ _. rewrite Hn by lia. done.
Qed.

#[export] Instance fat32_laws : FatentLaws sb fat32_ops.
Proof.
  refine (Build_FatentLaws sb fat32_ops view32 canon32 geo _ _ (canonw_bhs sb geo 2 sh Hfit Ent32) _ _ _ get32 put32 next32).
  - unfold BAD_FAT32, FAT_ENT_EOF, EOF_FAT32 in *. lia.
  - done.
  - intros s t e He Hb. unfold view32. by rewrite (word_blocks sb geo 2 sh Hfit s t).
  - intros s e Hw He. unfold view32, norm32. case_match; [done|]. rewrite (land_ones_mod _ 28) by done. apply Z.mod_pos_bound. lia.
  - intros fe s Hw He _. apply (breadw sb geo 2 sh Hfit Ent32); [|done..].
    intros f o Hf. unfold fat32_ent_set_ptr. by destruct (bhs f).
Defined.
End fat32.

(** ** A defect of the twelve-bit format *)

(** a twelve-bit entry is misread when the [fat_entry] still holds the two
    buffers of an entry that crosses a block and the new one lies in the first of
    them: its second byte is taken from the start of the second buffer. *)
Theorem fat12_stale_buffers sb s e1 e2 :
  geometry sb → 3 * max_cluster sb ≤ 2 * fat_size sb → fat_bits sb = 12 →
  wf sb s → ent_ok sb e1 → ent_ok sb e2 →
  (loc sb (pos12 e1)).2 + 1 = s_blocksize sb → (loc sb (pos12 e2)).1 = (loc sb (pos12 e1)).1 →
  (loc sb (pos12 e2)).2 + 1 < s_blocksize sb →
  ∃ fe, fat_ent_read sb fat12_ops (canon12 sb e1) e2 s =
    Ret (norm12 (raw12 (odd_entry e2) (fbyte sb s (pos12 e2)) (fbyte sb s (pos12 e1 + 1))), fe, s).
Proof.
  intros geo Hfit Hbits Hw He1 He2 Hx Hb Hin. destruct (pos12_bounds sb Hfit e1 He1), (pos12_bounds sb Hfit e2 He2).
  pose proof (geo_size sb geo) as Hg. fold (fat_size sb) in Hg.
  unfold fat_ent_read. pose proof He2 as [Hlo Hhi].
  destruct (Z.ltb_spec e2 FAT_START_ENT), (Z.leb_spec (max_cluster sb) e2); try lia. cbn [orb].
  assert (ent_blocknr fat12_ops sb e2 = ((loc sb (pos12 e2)).2, (loc sb (pos12 e2)).1)) as ->.
  { cbn [ent_blocknr fat12_ops]. unfold fat12_ent_blocknr. rewrite Z.shiftr_div_pow2 by lia. apply (split_offset sb geo). unfold pos12 in *. lia. }
  unfold fat_ent_update_ptr. rewrite Hbits. change (12 =? 12) with true.
  destruct (Z.leb_spec (s_blocksize sb) ((loc sb (pos12 e2)).2 + 1)); [lia|]. cbn [andb].
  assert (bhs (fatent_set_entry (canon12 sb e1) e2) = [(loc sb (pos12 e1)).1; (loc sb (pos12 e1)).1 + 1]) as Eb.
  { cbn [fatent_set_entry bhs canon12]. destruct (Z.ltb_spec ((loc sb (pos12 e1)).2 + 1) (s_blocksize sb)); [lia|done]. }
  rewrite Eb. cbn [head]. rewrite Hb, bool_decide_eq_true_2 by done. cbn [negb].
  cbn [ent_set_ptr fat12_ops]. unfold fat12_ent_set_ptr. rewrite Eb. cbn [mbind outcome_bind negb Z.eqb entry fatent_set_entry].
  cbn [ent_get fat12_ops]. unfold fat12_ent_get. cbn [u entry].
  assert (((loc sb (pos12 e1)).1, (loc sb (pos12 e2)).2) = loc sb (pos12 e2)) as -> by (rewrite <- Hb; by destruct (loc sb (pos12 e2))).
  assert (((loc sb (pos12 e1)).1 + 1, 0) = loc sb (pos12 e1 + 1)) as ->.
  { pose proof (loc_cross sb geo (pos12 e1) 0 Hx) as Ec. rewrite Z.add_0_r in Ec. pose proof (blocksize_pos sb geo). by rewrite Ec by lia. }
  destruct (peek_loc sb geo s (pos12 e2) Hw ltac:(lia)) as [-> _].
  destruct (peek_loc sb geo s (pos12 e1 + 1) Hw ltac:(lia)) as [-> _]. cbn [mbind outcome_bind]. by eexists.
Qed.

Module Sample12.
(** Six hundred bytes of a twelve-bit table over two blocks, all free but the
    chain 341, 340, 5, whose first entry crosses the block. *)
Definition sb12 : sb_info := SbInfo 12 1 1 2 400 0 9 false.
Definition block12_0 : list Z := replicate 510 0 ++ [5; 0x40].
Definition block12_1 : list Z := 0x15 :: replicate 511 0.
Definition fs12 : fatfs := FatFs {[1 := block12_0; 2 := block12_1]} ∅ 2 UNKNOWN false false.

Lemma geo12 : geometry sb12.
Proof. split; by vm_compute. Qed.
Lemma wf12 : wf sb12 fs12.
Proof.
  intros b Hb. assert (b = 1 ∨ b = 2) as [-> | ->] by (unfold in_fat in Hb; simpl in Hb; lia).
  - exists block12_0. split; [by vm_compute|]. split; [by vm_compute|]. apply (bool_decide_unpack _). by vm_compute.
  - exists block12_1. split; [by vm_compute|]. split; [by vm_compute|]. apply (bool_decide_unpack _). by vm_compute.
Qed.
End Sample12.

(** The entry 340 holds 5 but 0x505 is read. *)
Lemma fat12_stale_buffers_witness :
  (∃ fe, fat_ent_read Sample12.sb12 fat12_ops (canon12 Sample12.sb12 341) 340 Sample12.fs12 = Ret (0x505, fe, Sample12.fs12)) ∧
  view12 Sample12.sb12 Sample12.fs12 340 = 5.
Proof.
  split; [|vm_compute; reflexivity].
  refine (fat12_stale_buffers Sample12.sb12 Sample12.fs12 341 340 Sample12.geo12 _ eq_refl Sample12.wf12 _ _ _ _ _).
  all: by vm_compute.
Defined.
