(* ===== verification/FatAlloc.v ===== *)
(** The functions of [fs/fat/fatent.c] that read, write, count, allocate and free
    entries, proved against the interface of [FatentLaws] and so for every table
    format at once.  The table is seen as a map from cluster numbers to values. *)

From S2P Require Import Prelude Fatent FatentLaws.

(** ** Chains *)

(** What a chain stores in the entry [e], if [e] belongs to it. *)
Fixpoint link (cl : list Z) (e : Z) : option Z :=
  match cl with
  | [] => None
  | c :: cl' => if decide (e = c) then Some (match cl' with [] => FAT_ENT_EOF | c' :: _ => c' end) else link cl' e
  end.

Lemma link_notin cl e : e ∉ cl → link cl e = None.
Proof. induction cl as [|c cl IH]; [done|]. intros Hn. simpl. rewrite decide_False by set_solver. apply IH. set_solver. Qed.

Lemma link_snoc cl c x e :
  NoDup (c :: cl) → x ∉ c :: cl →
  link (c :: cl ++ [x]) e =
    if decide (e = x) then Some FAT_ENT_EOF else if decide (e = lastd c cl) then Some x else link (c :: cl) e.
Proof.
  revert c. induction cl as [|c' cl IH]; intros c Hd Hx.
  - simpl. repeat case_decide; subst; try done; set_solver.
  - apply NoDup_cons in Hd as [Hc Hd]. change (lastd c (c' :: cl)) with (lastd c' cl).
    cbn [link app]. change (link (c' :: cl ++ [x]) e) with (link ((c' :: cl) ++ [x]) e) in *.
    specialize (IH c' Hd ltac:(set_solver)). cbn [app] in IH. cbn [link app] in IH.
    pose proof (lastd_in c' cl) as Hl. destruct (decide (e = c)) as [->|Hec].
    + rewrite decide_False by set_solver. rewrite decide_False; [done|]. intros ->. done.
    + exact IH.
Qed.

Lemma link_val sb cl e v : (∀ c, c ∈ cl → ent_ok sb c) → link cl e = Some v → 0 < v.
Proof.
  induction cl as [|c cl IH]; [done|]. intros Hok. simpl. case_decide.
  - intros [= <-]. destruct cl as [|c' cl]; [done|]. destruct (Hok c') as [H2 _]; [set_solver|].
    unfold FAT_START_ENT, FAT_ENT_FREE in *. lia.
  - apply IH. set_solver.
Qed.

Section clients.
Context (env : env) (sb : sb_info) (ops : fatent_operations) `{!FatentLaws sb ops}.

(** A block layer that delivers every buffer and writes without errors. *)
Definition quiet : Prop :=
  (∀ c, getblk env c = true) ∧ (∀ c, sync_dirty env c = 0) ∧ (∀ c, eopnotsupp env c = false ∧ uptodate env c = true).

(** The block of copy [copy] that mirrors block [b]. *)
Definition backup (copy b : Z) : Z := fat_length sb * copy + b.

(** All copies of the table agree, but for the blocks [bs]. *)
Definition mirrored_but (bs : list Z) (s : fatfs) : Prop :=
  ∀ copy b, 1 ≤ copy < fats sb → in_fat sb b → b ∉ bs → blk s !! backup copy b = blk s !! b.

Definition mirrored : fatfs → Prop := mirrored_but [].

(** [t] has the table of [s], and the blocks before it. *)
Definition below_backups (b : Z) : Prop := b < fat_start sb + fat_length sb.
Definition same_table (s t : fatfs) : Prop := ∀ b, below_backups b → blk t !! b = blk s !! b.

Lemma in_fat_below b : in_fat sb b → below_backups b.
Proof. intros [_ ?]. done. Qed.
#[local] Hint Resolve in_fat_below : core.

Lemma same_table_wf s t : same_table s t → wf sb s → wf sb t.
Proof. intros E Hw b Hb. rewrite E by auto. by apply Hw. Qed.

Lemma same_table_view s t e : same_table s t → ent_ok sb e → view t e = view s e.
Proof. intros E He. apply view_blocks; auto. Qed.

Lemma same_rest_trans s t r : same_rest s t → same_rest t r → same_rest s r.
Proof. intros (?&?&?&?) (?&?&?&?). repeat split; congruence. Qed.

Lemma backup_out copy b c : 1 ≤ copy → in_fat sb b → below_backups c → backup copy b ≠ c.
Proof. pose proof (geo_length sb laws_geometry). unfold backup, in_fat, below_backups. nia. Qed.

Lemma backup_inj copy copy' b b' :
  in_fat sb b → in_fat sb b' → backup copy b = backup copy' b' → copy = copy' ∧ b = b'.
Proof.
  pose proof (geo_length sb laws_geometry). unfold backup, in_fat. intros Hb Hb' E.
  destruct (Z.lt_trichotomy copy copy') as [?|[->|?]]; [nia|lia|nia].
Qed.

(** [cl] is a chain of the table, up to its end mark. *)
Definition chain_in (s : fatfs) (cl : list Z) : Prop :=
  NoDup cl ∧ ∀ e, e ∈ cl → ent_ok sb e ∧ link cl e = Some (view s e).

Lemma chain_step s t c cl :
  chain_in s (c :: cl) → (∀ e, ent_ok sb e → view t e = if decide (e = c) then FAT_ENT_FREE else view s e) → chain_in t cl.
Proof.
  intros [[Hc Hd]%NoDup_cons Hl] Hv. split; [done|]. intros e He. destruct (Hl e) as [Hok Hlk]; [set_solver|].
  split; [done|]. rewrite Hv, decide_False by (done || set_solver). simpl in Hlk. by rewrite decide_False in Hlk by set_solver.
Qed.

Lemma chain_length s cl : chain_in s cl → (length cl ≤ Z.to_nat (max_cluster sb))%nat.
Proof.
  intros [Hd Hl]. pose proof (laws_clusters).
  rewrite <- (length_seqZ 0 (max_cluster sb)). apply submseteq_length, NoDup_submseteq; [done|].
  intros e He. apply elem_of_seqZ. destruct (Hl e He) as [[? ?] _]. unfold FAT_START_ENT in *. lia.
Qed.

Lemma chain_head s c cl :
  chain_in s (c :: cl) → ent_ok sb c ∧ view s c = match cl with [] => FAT_ENT_EOF | c' :: _ => c' end.
Proof.
  intros [_ Hl]. destruct (Hl c) as [Hok Hlk]; [set_solver|]. split; [done|]. simpl in Hlk. rewrite decide_True in Hlk by done. congruence.
Qed.

Context (Hq : quiet).

Lemma mirror_copy_spec copy bs s :
  wf sb s → 1 ≤ copy → (∀ b, b ∈ bs → in_fat sb b) →
  ∃ t, mirror_copy env sb copy bs s = Ret (0, t) ∧ same_rest s t ∧
    (∀ c, (∀ b, b ∈ bs → c ≠ backup copy b) → blk t !! c = blk s !! c) ∧
    ∀ b, b ∈ bs → blk t !! backup copy b = blk s !! b.
Proof.
  intros Hw Hc. revert s Hw. induction bs as [|b bs IH]; intros s Hw Hin.
  { exists s. repeat split; set_solver. }
  destruct Hq as (Hg & Hs & _).
  cbn [mirror_copy]. fold (backup copy b). rewrite Hg. cbn [negb].
  destruct (wf_buffer sb s b Hw (Hin b (list_elem_of_here _ _))) as (E & _). rewrite E. cbn [mbind outcome_bind].
  destruct (Hw b (Hin b (list_elem_of_here _ _))) as (data & Hd & _).
  set (s1 := mark_buffer_dirty _ _).
  assert (∃ s2, (if s_synchronous sb then (sync_dirty env (backup copy b), set_dirty (dirty s1 ∖ {[backup copy b]}) s1) else (0, s1)) = (0, s2) ∧
    same_rest s s2 ∧ blk s2 = <[backup copy b := block s b]> (blk s)) as (s2 & -> & R2 & B2).
  { destruct (s_synchronous sb); [rewrite Hs|]; eexists; (split; [reflexivity|]); done. }
  cbn [negb Z.eqb]. assert (same_table s s2) as T2.
  { intros c Hcf. rewrite B2, lookup_insert_ne; [done|]. apply backup_out; set_solver. }
  destruct (IH s2 (same_table_wf _ _ T2 Hw)) as (t & Ht & Rt & Ot & Mt); [set_solver|].
  exists t. split; [exact Ht|]. split; [by eapply same_rest_trans|]. split.
  - intros c Hcb. rewrite Ot by set_solver. rewrite B2, lookup_insert_ne; [done|]. intros E1. by apply (Hcb b); [left|].
  - intros b' Hb'. destruct (decide (b' ∈ bs)) as [Hi|Hn].
    + rewrite Mt by done. by apply T2, in_fat_below, Hin.
    + assert (b' = b) as -> by set_solver. rewrite Ot.
      * rewrite B2, lookup_insert_eq. unfold block. by rewrite Hd.
      * intros c Hcb Eb. apply backup_inj in Eb as [_ ->]; set_solver.
Qed.

Lemma mirror_loop_spec n copy bs s :
  wf sb s → 1 ≤ copy → (∀ b, b ∈ bs → in_fat sb b) →
  ∃ t, mirror_loop env sb n copy bs s = Ret (0, t) ∧ same_rest s t ∧ same_table s t ∧
    (∀ copy' b, 1 ≤ copy' → in_fat sb b → b ∉ bs → blk t !! backup copy' b = blk s !! backup copy' b) ∧
    (∀ copy' b, 1 ≤ copy' < copy → in_fat sb b → blk t !! backup copy' b = blk s !! backup copy' b) ∧
    ∀ copy' b, copy ≤ copy' < copy + Z.of_nat n → b ∈ bs → blk t !! backup copy' b = blk s !! b.
Proof.
  intros Hw Hc Hin. revert copy s Hw Hc. induction n as [|n IH]; intros copy s Hw Hc.
  { exists s. repeat split; try done. lia. }
  cbn [mirror_loop]. destruct (mirror_copy_spec copy bs s Hw Hc Hin) as (s1 & -> & R1 & O1 & M1).
  cbn [mbind outcome_bind negb Z.eqb].
  assert (same_table s s1) as T1.
  { intros b Hb. apply O1. intros b' Hb' E. eapply (backup_out copy b' b); eauto. }
  destruct (IH (copy + 1) s1 (same_table_wf _ _ T1 Hw) ltac:(lia)) as (t & Ht & Rt & Tt & Nt & Lt & Mt).
  exists t. split; [exact Ht|]. split; [by eapply same_rest_trans|]. split; [intros b Hb; by rewrite Tt, T1|].
  split; [|split].
  - intros copy' b Hc' Hb Hn. rewrite Nt by done. apply O1. intros b' Hb' [_ ->]%backup_inj; set_solver.
  - intros copy' b Hc' Hb. rewrite Lt by (done || lia). apply O1. intros b' Hb' [-> _]%backup_inj; [lia|set_solver..].
  - intros copy' b Hc' Hb. destruct (decide (copy' = copy)) as [->|Hne].
    + rewrite Lt; [by apply M1|lia|by apply Hin].
    + rewrite Mt by (done || lia). by apply T1, in_fat_below, Hin.
Qed.

Lemma mirror_bhs_spec bs cs s :
  wf sb s → (∀ b, b ∈ bs → in_fat sb b) → mirrored_but (bs ++ cs) s →
  ∃ t, fat_mirror_bhs env sb bs s = Ret (0, t) ∧ same_rest s t ∧ same_table s t ∧ mirrored_but cs t.
Proof.
  intros Hw Hin Hm. destruct (mirror_loop_spec (Z.to_nat (fats sb - 1)) 1 bs s Hw ltac:(lia) Hin) as (t & Ht & Rt & Tt & Nt & _ & Mt).
  exists t. do 3 (split; [done|]). intros copy b Hc Hb Hn. rewrite (Tt b) by auto. destruct (decide (b ∈ bs)).
  - apply Mt; [lia|done].
  - rewrite Nt by (done || lia). apply Hm; [done..|]. rewrite elem_of_app. tauto.
Qed.

Lemma sync_wait_quiet bs : sync_wait env bs 0 = 0.
Proof. destruct Hq as (_ & _ & Hu). induction bs as [|b bs IH]; simpl; [done|]. by destruct (Hu b) as [-> ->]. Qed.

Lemma sync_and_mirror_spec sync bs cs s :
  wf sb s → (∀ b, b ∈ bs → in_fat sb b) → mirrored_but (bs ++ cs) s →
  ∃ t, sync_and_mirror env sb sync bs s = Ret (0, t) ∧ same_rest s t ∧ same_table s t ∧ mirrored_but cs t.
Proof.
  intros Hw Hin Hm. unfold sync_and_mirror, fat_sync_bhs. rewrite sync_wait_quiet.
  destruct sync; [|by apply mirror_bhs_spec]. cbn [negb Z.eqb]. set (s1 := set_dirty _ _).
  destruct (mirror_bhs_spec bs cs s1) as (t & ? & ? & ? & ?); try done. by exists t.
Qed.

(** ** Reading and writing one entry *)

Lemma bread_fresh fe e s :
  wf sb s → ent_ok sb e → bhs fe = [] → entry fe = e →
  ent_bread ops sb fe (ent_blocknr ops sb e).1 (ent_blocknr ops sb e).2 s = Ret (0, canon e).
Proof. intros Hw He Hb <-. by apply bread_canon. Qed.

Lemma read_fresh fe e s :
  wf sb s → ent_ok sb e → bhs fe = [] → fat_ent_read sb ops fe e s = Ret (view s e, canon e, s).
Proof.
  intros Hw He Hb. unfold fat_ent_read. destruct He as [He1 He2].
  destruct (Z.ltb_spec e FAT_START_ENT), (Z.leb_spec (max_cluster sb) e); try lia. cbn [orb].
  pose proof (bread_fresh (fatent_brelse (fatent_set_entry fe e)) e s Hw (conj He1 He2) eq_refl eq_refl) as Hr.
  destruct (ent_blocknr ops sb e) as [offset blocknr]. cbn [fst snd] in Hr.
  unfold fat_ent_update_ptr. cbn [fatent_set_entry bhs]. rewrite Hb. cbn [head bool_decide decide negb mbind outcome_bind].
  rewrite bool_decide_eq_false_2 by done. cbn [negb mbind outcome_bind]. rewrite Hr. cbn [mbind outcome_bind negb Z.eqb].
  by rewrite get_canon.
Qed.

Lemma touches_mirrored bs s t :
  (∀ b, b ∈ bs → in_fat sb b) → touches bs s t → ∀ cs, mirrored_but cs s → mirrored_but (cs ++ bs) t.
Proof.
  intros Hin [_ Ht] cs Hm copy b Hc Hb Hn. rewrite !Ht; [apply Hm; set_solver|set_solver|].
  intros Hbk. apply Hin in Hbk. by apply in_fat_below, (backup_out copy b) in Hbk; [|lia|].
Qed.

Lemma write_canon e v wait s :
  wf sb s → ent_ok sb e → ent_val sb v → mirrored s →
  ∃ t, fat_ent_write env sb ops (canon e) v wait s = Ret (0, t) ∧ wf sb t ∧ mirrored t ∧ same_rest s t ∧
    (∀ b, b < fat_start sb → blk t !! b = blk s !! b) ∧
    ∀ e', ent_ok sb e' → view t e' = if decide (e' = e) then v else view s e'.
Proof.
  intros Hw He Hv Hm. destruct (put_canon s e v Hw He Hv) as (s1 & H1 & W1 & T1 & V1).
  destruct (canon_bhs e He) as (_ & _ & Hin).
  destruct (sync_and_mirror_spec wait (bhs (canon e)) [] s1 W1 Hin) as (t & Ht & Rt & Tt & Mt).
  { rewrite app_nil_r. apply (touches_mirrored _ _ _ Hin T1 [] Hm). }
  exists t. split; [unfold fat_ent_write; rewrite H1; exact Ht|]. split; [by eapply same_table_wf|]. split; [done|].
  split; [eapply same_rest_trans; [apply T1|done]|]. split.
  - intros b Hb. pose proof (geo_length sb laws_geometry). rewrite Tt by (unfold below_backups; lia). apply T1.
    intros Hbb%Hin. unfold in_fat in Hbb. lia.
  - intros e' He'. rewrite (same_table_view s1 t) by done. by apply V1.
Qed.

(** ** Counting *)

Definition is_free (s : fatfs) (e : Z) : bool := view s e =? FAT_ENT_FREE.

(** The number of free entries from [a] up to [b]. *)
Definition nfree (s : fatfs) (a b : Z) : Z := cnt (is_free s) (seqZ a (b - a)).

Lemma nfree_cons s a b : a < b → nfree s a b = b2z (is_free s a) + nfree s (a + 1) b.
Proof.
  intros. unfold nfree. rewrite seqZ_cons by lia. replace (Z.pred (b - a)) with (b - (a + 1)) by lia.
  by replace (Z.succ a) with (a + 1) by lia.
Qed.

Lemma next_step e :
  ent_ok sb e → ∃ more fe, fat_ent_next sb ops (canon e) = Ret (more, fe) ∧ entry fe = e + 1 ∧
    (more = true → ent_ok sb (e + 1) ∧ fe = canon (e + 1)).
Proof.
  intros He. destruct (next_canon e He) as (more & fe & E & En & Hc). unfold fat_ent_next. rewrite E. cbn [mbind outcome_bind].
  exists (more && (entry fe <? max_cluster sb)), fe. rewrite En. split; [done|]. split; [done|].
  destruct more; [|done]. destruct (Z.ltb_spec (e + 1) (max_cluster sb)); [|done]. intros _.
  assert (ent_ok sb (e + 1)) by (unfold ent_ok in *; lia). auto.
Qed.

Lemma count_block_spec n e free s :
  wf sb s → ent_ok sb e → (Z.to_nat (max_cluster sb - e) < n)%nat →
  ∃ fe, count_block sb ops n (canon e) free s = Ret (fe, free + nfree s e (entry fe)) ∧ e < entry fe ≤ max_cluster sb.
Proof.
  intros Hw. revert e free. induction n as [|n IH]; intros e free He Hn; [lia|].
  cbn [count_block]. rewrite get_canon by done. cbn [mbind outcome_bind].
  destruct (next_step e He) as (more & fe & -> & En & Hc). cbn [mbind outcome_bind].
  assert (∀ b, e < b → nfree s e b = b2z (view s e =? FAT_ENT_FREE) + nfree s (e + 1) b) as Hsplit by (intros; by apply nfree_cons).
  set (free' := if view s e =? FAT_ENT_FREE then free + 1 else free). assert (free' = free + b2z (view s e =? FAT_ENT_FREE)) as Ef.
  { unfold free'. destruct (view s e =? FAT_ENT_FREE); simpl; lia. }
  unfold ent_ok in He. destruct more.
  - destruct (Hc eq_refl) as [He' ->]. destruct (IH (e + 1) free' He') as (fe' & E & ?); [lia|].
    exists fe'. rewrite E, Ef, Hsplit by lia. split; [f_equal; f_equal; lia|lia].
  - exists fe. rewrite En, Ef, Hsplit by lia. unfold nfree at 1. replace (e + 1 - (e + 1)) with 0 by lia. simpl.
    split; [f_equal; f_equal; lia|lia].
Qed.

Lemma read_block_fresh fe s :
  wf sb s → ent_ok sb (entry fe) → fat_ent_read_block sb ops fe s = Ret (0, canon (entry fe)).
Proof.
  intros Hw He. unfold fat_ent_read_block. pose proof (bread_fresh (fatent_brelse fe) (entry fe) s Hw He eq_refl eq_refl) as Hr.
  change (entry (fatent_brelse fe)) with (entry fe). by destruct (ent_blocknr ops sb (entry fe)).
Qed.

Lemma nfree_trans s a b c : a ≤ b ≤ c → nfree s a c = nfree s a b + nfree s b c.
Proof.
  intros H. assert (∃ k : nat, b = a + Z.of_nat k) as [k ->] by (exists (Z.to_nat (b - a)); lia).
  destruct H as [_ H]. revert a H. induction k as [|k IH]; intros a H.
  - change (Z.of_nat 0) with 0. rewrite Z.add_0_r. unfold nfree at 2. by rewrite Z.sub_diag.
  - rewrite (nfree_cons s a c), (nfree_cons s a) by lia. rewrite (IH (a + 1)) by lia.
    replace (a + 1 + Z.of_nat k) with (a + Z.of_nat (S k)) by lia. lia.
Qed.

Lemma count_scan_spec n fe free s :
  wf sb s → FAT_START_ENT ≤ entry fe ≤ max_cluster sb → (Z.to_nat (max_cluster sb - entry fe) < n)%nat →
  count_scan sb ops n fe free s = Ret (0, free + nfree s (entry fe) (max_cluster sb)).
Proof.
  intros Hw. revert fe free. induction n as [|n IH]; intros fe free He Hn; [lia|]. cbn [count_scan].
  destruct (Z.ltb_spec (entry fe) (max_cluster sb)); cbn [negb].
  - rewrite read_block_fresh by (unfold ent_ok; done || lia). cbn [mbind outcome_bind negb Z.eqb].
    destruct (count_block_spec (fuel sb) (entry fe) free s Hw) as (fe' & -> & Hr); [unfold ent_ok; lia|unfold fuel, FAT_START_ENT in *; lia|].
    cbn [mbind outcome_bind]. rewrite IH by (unfold FAT_START_ENT in *; lia). f_equal. f_equal.
    rewrite (nfree_trans s (entry fe) (entry fe') (max_cluster sb)) by lia. lia.
  - replace (entry fe) with (max_cluster sb) by lia. unfold nfree. rewrite Z.sub_diag. simpl. by rewrite Z.add_0_r.
Qed.

Lemma count_free_spec s :
  wf sb s → free_clusters s = UNKNOWN →
  fat_count_free_clusters sb ops s =
  Ret (0, set_s_dirt (set_free_clusters (nfree s FAT_START_ENT (max_cluster sb)) s)).
Proof.
  intros Hw Hf. unfold fat_count_free_clusters. rewrite Hf. cbn [negb Z.eqb]. rewrite Z.eqb_refl. cbn [negb].
  pose proof (laws_clusters) as Hl. rewrite count_scan_spec; [done|done|cbn; unfold FAT_START_ENT in *; lia|].
  unfold fuel, FAT_START_ENT in *. simpl. lia.
Qed.

(** ** Allocating *)

(** [s] is [s0] with the chain [cl] entered; [bs] are the blocks still to be
    mirrored. *)
Record entered (s0 : fatfs) (cl bs : list Z) (s : fatfs) : Prop := {
  ent_wf : wf sb s;
  ent_nodup : NoDup cl;
  ent_in : ∀ c, c ∈ cl → ent_ok sb c ∧ is_free s0 c = true;
  ent_view : ∀ e, ent_ok sb e → view s e = default (view s0 e) (link cl e);
  ent_blocks : ∀ b, b ∈ bs → in_fat sb b;
  ent_bhs : ∀ c b, c ∈ cl → b ∈ bhs (canon c) → b ∈ bs;
  ent_few : (length bs ≤ 2 * length cl)%nat;
  ent_mirror : mirrored_but bs s;
  ent_count : free_clusters s = if free_clusters s0 =? UNKNOWN then UNKNOWN else free_clusters s0 - Z.of_nat (length cl);
  ent_ro : s_rdonly s = s_rdonly s0
}.

Lemma entered_free s0 cl bs s e :
  entered s0 cl bs s → ent_ok sb e → view s e = FAT_ENT_FREE ↔ is_free s0 e = true ∧ e ∉ cl.
Proof.
  intros E He. rewrite (ent_view _ _ _ _ E e He). unfold is_free. rewrite Z.eqb_eq.
  destruct (decide (e ∈ cl)) as [Hi|Hn].
  - destruct (link cl e) as [v|] eqn:El.
    + simpl. split; [|by intros []]. intros ->. by eapply (link_val sb) in El; [|intros c Hc; apply (ent_in _ _ _ _ E c Hc)].
    + exfalso. clear -Hi El. induction cl as [|c cl IH]; [set_solver|]. simpl in El. case_decide; [done|]. apply IH; set_solver.
  - rewrite link_notin by done. simpl. tauto.
Qed.

Lemma collect_spec acc bs :
  (length acc + length bs ≤ 8)%nat →
  ∃ r, fat_collect_bhs acc bs = Ret r ∧ (length r ≤ length acc + length bs)%nat ∧ ∀ b, b ∈ r ↔ b ∈ acc ∨ b ∈ bs.
Proof.
  revert acc. induction bs as [|b bs IH]; intros acc Hl; simpl in *.
  { exists acc. split; [done|]. split; [lia|set_solver]. }
  case_bool_decide as Hb.
  - destruct (IH acc) as (r & -> & ? & Hr); [lia|]. exists r. split; [done|]. split; [lia|]. intros c. rewrite Hr. set_solver.
  - unfold MAX_BUF_PER_PAGE. destruct (Z.ltb_spec (Z.of_nat (length acc)) 8); [|lia].
    destruct (IH (acc ++ [b])) as (r & -> & Hlr & Hr); [rewrite length_app; simpl; lia|]. rewrite length_app in Hlr. simpl in Hlr.
    exists r. split; [done|]. split; [lia|]. intros c. rewrite Hr. set_solver.
Qed.

(** [prev_ent] when the chain is [cl]. *)
Definition prev_of (cl : list Z) : fat_entry := match cl with [] => fatent_init | c :: cl' => canon (lastd c cl') end.

Lemma mirrored_mono bs bs' s : (∀ b, b ∈ bs → b ∈ bs') → mirrored_but bs s → mirrored_but bs' s.
Proof. intros Hs Hm copy b Hc Hb Hn. apply Hm; [done|done|]. intros Hi. by apply Hn, Hs. Qed.

(** The two stores of [take_entry]. *)
Lemma enter_next s0 cl bs s e :
  entered s0 cl bs s → ent_ok sb e → view s e = FAT_ENT_FREE →
  ∃ t r, ent_put ops (canon e) FAT_ENT_EOF s = Ret t ∧
    (if nr_bhs (prev_of cl) =? 0 then Ret t else ent_put ops (prev_of cl) e t) = Ret r ∧
    wf sb r ∧ same_rest s r ∧ mirrored_but (bs ++ bhs (canon e)) r ∧
    ∀ e', ent_ok sb e' → view r e' = default (view s0 e') (link (cl ++ [e]) e').
Proof.
  intros E He Hf. destruct (put_canon s e FAT_ENT_EOF (ent_wf _ _ _ _ E) He (or_introl eq_refl)) as (t & Ht & Wt & Tt & Vt).
  exists t. apply (entered_free s0 cl bs s e E He) in Hf as [_ Hn].
  destruct (canon_bhs e He) as (_ & _ & Hin).
  pose proof (touches_mirrored _ _ _ Hin Tt _ (ent_mirror _ _ _ _ E)) as Mt.
  destruct cl as [|c cl].
  - exists t. repeat (split; [first [done | apply Tt]|]). intros e' He'. rewrite Vt by done. simpl.
    case_decide; [done|]. by rewrite (ent_view _ _ _ _ E e' He').
  - set (l := lastd c cl). assert (l ∈ c :: cl) as Hl by apply lastd_in.
    destruct (ent_in _ _ _ _ E l Hl) as [Hlok _]. destruct (canon_bhs l Hlok) as (Hne & _ & Hinl).
    destruct (put_canon t l e Wt Hlok) as (r & Hr & Wr & Tr & Vr); [right; unfold ent_ok, FAT_START_ENT in He; lia|].
    exists r. split; [done|]. split.
    { cbn [prev_of]. fold l. unfold nr_bhs. destruct (bhs (canon l)); [done|]. simpl. exact Hr. }
    split; [done|]. split; [eapply same_rest_trans; [apply Tt|apply Tr]|]. split.
    { eapply mirrored_mono; [|exact (touches_mirrored _ _ _ Hinl Tr _ Mt)]. intros b Hb.
      rewrite !elem_of_app in *. destruct Hb as [?|Hb]; [done|]. left. by eapply (ent_bhs _ _ _ _ E l). }
    intros e' He'. cbn [app]. rewrite (link_snoc cl c e e' (ent_nodup _ _ _ _ E) Hn). fold l. rewrite Vr, Vt by done.
    destruct (decide (e' = l)) as [->|]; [rewrite decide_False by (intros ->; done); done|].
    destruct (decide (e' = e)); [done|]. by apply (ent_view _ _ _ _ E).
Qed.

Lemma take_entry_spec s0 a cl s e :
  entered s0 cl (a_bhs a) s → a_fe a = canon e → a_prev a = prev_of cl → a_clusters a = cl →
  ent_ok sb e → view s e = FAT_ENT_FREE → (length cl < 4)%nat →
  (free_clusters s0 = UNKNOWN ∨ Z.of_nat (length cl) < free_clusters s0 < UNKNOWN) →
  ∃ bs t, take_entry ops a s = Ret (Alloc (canon e) (prev_of cl) bs (a_count a) (cl ++ [e]), t) ∧
    entered s0 (cl ++ [e]) bs t ∧ prev_free t = e.
Proof.
  intros E Hfe Hpr Hcl He Hf Hlen Hcount. destruct (enter_next s0 cl (a_bhs a) s e E He Hf) as (t & r & Ht & Hr & Wr & Rr & Mr & Vr).
  destruct (proj1 (entered_free s0 cl _ s e E He) Hf) as [Hf0 Hn]. destruct (canon_bhs e He) as (_ & Hle & Hin).
  destruct (collect_spec (a_bhs a) (bhs (canon e))) as (bs & Hbs & Hlbs & Ibs).
  { pose proof (ent_few _ _ _ _ E). lia. }
  unfold take_entry. rewrite Hfe, Hpr, canon_entry, Ht. cbn [mbind outcome_bind]. rewrite Hr. cbn [mbind outcome_bind].
  rewrite Hbs. cbn [mbind outcome_bind]. rewrite Hcl. exists bs. eexists. split; [reflexivity|].
  destruct Rr as (Rp & Rc & Rd & Rw). pose proof (ent_count _ _ _ _ E) as Ec. set (u := set_prev_free e r).
  assert (∀ v, entered s0 (cl ++ [e]) bs (set_s_dirt (set_free_clusters v u)) ↔
    v = if free_clusters s0 =? UNKNOWN then UNKNOWN else free_clusters s0 - Z.of_nat (length (cl ++ [e]))) as Hent.
  { intros v. split; [intros F; exact (ent_count _ _ _ _ F)|]. intros Hv. split; try done.
    - apply NoDup_app. split; [apply (ent_nodup _ _ _ _ E)|]. split; [set_solver|apply NoDup_singleton].
    - intros c [Hc| ->%list_elem_of_singleton]%elem_of_app; [by apply (ent_in _ _ _ _ E)|done].
    - intros e' He'. rewrite <- Vr by done. by apply view_blocks.
    - intros b [Hb|Hb]%Ibs; [by apply (ent_blocks _ _ _ _ E)|by apply Hin].
    - intros c b [Hc| ->%list_elem_of_singleton]%elem_of_app Hb; apply Ibs; [left; by eapply (ent_bhs _ _ _ _ E)|by right].
    - rewrite length_app. simpl. pose proof (ent_few _ _ _ _ E). lia.
    - eapply mirrored_mono; [|exact Mr]. intros b. rewrite elem_of_app. apply Ibs.
    - simpl. rewrite Rw. apply (ent_ro _ _ _ _ E). }
  change (free_clusters u) with (free_clusters r). rewrite Rc, Ec. rewrite length_app in Hent. simpl in Hent.
  destruct (Z.eqb_spec (free_clusters s0) UNKNOWN) as [Hu|Hu].
  - rewrite Z.eqb_refl. split; [|done].
    replace (set_s_dirt u) with (set_s_dirt (set_free_clusters UNKNOWN u)); [by apply Hent|].
    unfold set_s_dirt, set_free_clusters. simpl. by rewrite Rc, Ec, <- Hu.
  - destruct Hcount as [?|Hc]; [done|]. destruct (Z.eqb_spec (free_clusters s0 - Z.of_nat (length cl)) UNKNOWN); [lia|].
    split; [|done]. apply Hent. rewrite wrapu_small by (unfold UNKNOWN in *; lia). lia.
Qed.

(** The order in which the entries are looked at: from [start] up, then round. *)
Definition span : Z := max_cluster sb - FAT_START_ENT.
Definition cyc (start k : Z) : Z := FAT_START_ENT + (start - FAT_START_ENT + k) mod span.
Definition visited (start k : Z) : list Z := cyc start <$> seqZ 0 k.

(** The free entries among the first [k]. *)
Definition found (s0 : fatfs) (start k : Z) : list Z := List.filter (is_free s0) (visited start k).

Definition wrap (e : Z) : Z := if max_cluster sb <=? u64 e then FAT_START_ENT else e.

Lemma cyc_ok start k : 0 < span → ent_ok sb (cyc start k).
Proof. intros. unfold ent_ok, cyc. pose proof (Z.mod_pos_bound (start - FAT_START_ENT + k) span). unfold span in *. lia. Qed.

Lemma cyc_next start k : 0 < span → wrap (cyc start k + 1) = cyc start (k + 1).
Proof.
  intros Hs. pose proof (cyc_ok start k Hs) as He. pose proof (laws_clusters) as Hl.
  unfold wrap. rewrite wrapu_small by (unfold ent_ok, FAT_START_ENT, FAT_ENT_EOF, EOF_FAT32 in *; lia).
  unfold cyc in *. unfold ent_ok in He. set (x := start - FAT_START_ENT + k) in *.
  replace (start - FAT_START_ENT + (k + 1)) with (x + 1) by lia.
  pose proof (Z.mod_pos_bound x span Hs). pose proof (Z.div_mod x span ltac:(lia)).
  destruct (Z.leb_spec (max_cluster sb) (FAT_START_ENT + x mod span + 1)).
  - assert (x mod span = span - 1) by (unfold span in *; lia).
    replace ((x + 1) mod span) with 0; [lia|]. apply Z.mod_unique with (x / span + 1); lia.
  - replace ((x + 1) mod span) with (x mod span + 1); [lia|]. apply Z.mod_unique with (x / span); unfold span in *; lia.
Qed.

Lemma cyc_inj start j k : 0 ≤ j < span → 0 ≤ k < span → cyc start j = cyc start k → j = k.
Proof.
  unfold cyc. intros Hj Hk E. set (x := start - FAT_START_ENT) in *.
  pose proof (Z.div_mod (x + j) span ltac:(lia)). pose proof (Z.div_mod (x + k) span ltac:(lia)).
  assert ((x + j) mod span = (x + k) mod span) by lia.
  assert (j - k = span * ((x + j) / span - (x + k) / span)) by lia.
  destruct (Z.lt_trichotomy ((x + j) / span) ((x + k) / span)) as [?|[?|?]]; nia.
Qed.

Lemma found_next s0 start k :
  0 ≤ k → found s0 start (k + 1) = found s0 start k ++ (if is_free s0 (cyc start k) then [cyc start k] else []).
Proof.
  intros. unfold found, visited. rewrite seqZ_app, fmap_app, List.filter_app by lia.
  by rewrite Z.add_0_l.
Qed.

Lemma found_in s0 start k e : e ∈ found s0 start k → ∃ j, 0 ≤ j < k ∧ e = cyc start j.
Proof.
  intros [(j & -> & Hj)%list_elem_of_In%list_elem_of_fmap _]%list_elem_of_In%List.filter_In.
  apply elem_of_seqZ in Hj. exists j. split; [lia|done].
Qed.

Lemma found_fresh s0 start k : 0 ≤ k < span → cyc start k ∉ found s0 start k.
Proof. intros Hk (j & Hj & E)%found_in. apply cyc_inj in E; lia. Qed.

Lemma found_prefix s0 start j k : 0 ≤ j ≤ k → found s0 start j `prefix_of` found s0 start k.
Proof.
  intros Hj. unfold found, visited. replace k with (j + (k - j)) by lia.
  rewrite (seqZ_app 0 j (k - j)), fmap_app, List.filter_app by lia. by eexists.
Qed.

Section loops.
Context (s0 : fatfs) (start nr : Z) (Hspan : 0 < span) (Hnr : nr ≤ 4).
Context (Hknown : free_clusters s0 = UNKNOWN ∨ nr ≤ free_clusters s0 < UNKNOWN).

Abbreviation found_ := (found s0 start).
Abbreviation cyc_ := (cyc start).

(** After [k] entries were looked at and fewer than [nr] taken. *)
Definition at_step (k : Z) (a : alloc) (s : fatfs) : Prop :=
  entered s0 (found_ k) (a_bhs a) s ∧ a_prev a = prev_of (found_ k) ∧ a_clusters a = found_ k ∧
  a_count a = FAT_START_ENT + k ∧ Z.of_nat (length (found_ k)) < nr.

(** After the last one was taken. *)
Definition complete (k : Z) (a : alloc) (s : fatfs) : Prop :=
  entered s0 (found_ k) (a_bhs a) s ∧ a_clusters a = found_ k ∧ Z.of_nat (length (found_ k)) = nr ∧
  prev_free s = lastd FAT_START_ENT (found_ k).

(** The body of the inner loop up to the counting. *)
Lemma look_spec k a s :
  0 ≤ k < span → at_step k a s → a_fe a = canon (cyc_ k) →
  ∃ out a' t,
    look_entry ops nr a s = Ret (out, a', t) ∧
    a_fe a' = canon (cyc_ k) ∧ a_count a' = FAT_START_ENT + k ∧
    if out : bool then complete (k + 1) a' t
    else entered s0 (found_ (k + 1)) (a_bhs a') t ∧ a_prev a' = prev_of (found_ (k + 1)) ∧
         a_clusters a' = found_ (k + 1) ∧ Z.of_nat (length (found_ (k + 1))) < nr.
Proof.
  intros Hk (E & Hp & Hc & Hct & Hl) Hfe. pose proof (cyc_ok start k Hspan) as Hok.
  pose proof (found_next s0 start k ltac:(lia)) as Hn. pose proof (found_fresh s0 start k Hk) as Hfr.
  pose proof (entered_free s0 _ _ s _ E Hok) as Hfree.
  unfold look_entry. rewrite Hfe, get_canon by (apply (ent_wf _ _ _ _ E) || done). cbn [mbind outcome_bind].
  destruct (Z.eqb_spec (view s (cyc_ k)) FAT_ENT_FREE) as [Hv|Hv].
  - destruct (proj1 Hfree Hv) as [Hf0 _]. rewrite Hf0 in Hn.
    destruct (take_entry_spec s0 a (found_ k) s (cyc_ k) E Hfe Hp Hc Hok Hv) as (bs & t & -> & Et & Pt); [lia|lia|].
    cbn [mbind outcome_bind a_clusters a_fe a_bhs a_count]. rewrite <- Hn in *.
    assert (lastd FAT_START_ENT (found_ (k + 1)) = cyc_ k) as Elast by (rewrite Hn; apply lastd_app).
    destruct (Z.eqb_spec (Z.of_nat (length (found_ (k + 1)))) nr) as [El|El].
    + eexists true, _, t. split; [reflexivity|]. split; [done|]. split; [done|]. split; [done|]. rewrite Elast. by split_and!.
    + eexists false, _, t. split; [reflexivity|]. split; [done|]. split; [done|]. cbn [a_bhs a_prev a_clusters].
      split; [done|]. split; [|split; [done|]].
      * rewrite Hn. destruct (found_ k) as [|c cl]; [done|]. cbn [app prev_of]. by rewrite lastd_app.
      * rewrite Hn, length_app in *. simpl in *. lia.
  - assert (is_free s0 (cyc_ k) = false) as Hf0 by (destruct (is_free s0 (cyc_ k)) eqn:Ef; [by destruct Hv; apply Hfree|done]).
    rewrite Hf0, app_nil_r in Hn. eexists false, a, s. split; [reflexivity|]. rewrite Hn. by split_and!.
Qed.

Lemma alloc_block_spec n k a s :
  0 ≤ k < span → at_step k a s → a_fe a = canon (cyc_ k) → (Z.to_nat (max_cluster sb - cyc_ k) < n)%nat →
  ∃ out a' t k', alloc_block sb ops n nr a s = Ret (out, a', t) ∧ k < k' ≤ span ∧
    if out : bool then complete k' a' t
    else at_step k' a' t ∧ (k' < span → wrap (entry (a_fe a')) = cyc_ k').
Proof.
  revert k a s. induction n as [|n IH]; intros k a s Hk Ha Hfe Hn; [lia|]. cbn [alloc_block].
  destruct (look_spec k a s Hk Ha Hfe) as ([] & a' & t & -> & Hfe' & Hct & Hr); cbn [mbind outcome_bind].
  { exists true, a', t, (k + 1). split; [done|]. split; [lia|done]. }
  destruct Hr as (E & Hp & Hc & Hl). rewrite Hct.
  destruct (Z.eqb_spec (FAT_START_ENT + k + 1) (max_cluster sb)) as [Em|Em].
  { eexists false, _, t, (k + 1). split; [reflexivity|]. split; [unfold span in *; lia|].
    split; [|unfold span in *; lia]. split_and!; try done. cbn. lia. }
  pose proof (cyc_ok start k Hspan) as Hok. destruct (next_step (cyc_ k) Hok) as (more & fe & Hnx & En & Hcn).
  rewrite Hfe', Hnx. cbn [mbind outcome_bind].
  assert (at_step (k + 1) (Alloc fe (a_prev a') (a_bhs a') (FAT_START_ENT + k + 1) (a_clusters a')) t) as Hst
    by (split_and!; try done; cbn; lia).
  destruct more.
  - destruct (Hcn eq_refl) as [Hok' Efe].
    assert (cyc_ (k + 1) = cyc_ k + 1) as Ec.
    { rewrite <- cyc_next by done. unfold wrap. pose proof (laws_clusters). rewrite wrapu_small
        by (unfold ent_ok, FAT_START_ENT, FAT_ENT_EOF, EOF_FAT32 in *; lia).
      destruct (Z.leb_spec (max_cluster sb) (cyc_ k + 1)); [unfold ent_ok in Hok'; lia|done]. }
    destruct (IH (k + 1) (Alloc fe (a_prev a') (a_bhs a') (FAT_START_ENT + k + 1) (a_clusters a')) t)
      as (out & a2 & t2 & k2 & E2 & Hk2 & R2); [unfold span in *; lia|done|by cbn; rewrite Ec|unfold ent_ok in *; lia|].
    exists out, a2, t2, k2. split; [exact E2|]. split; [lia|done].
  - eexists false, _, t, (k + 1). split; [reflexivity|]. split; [unfold span in *; lia|]. split; [done|].
    intros _. cbn [a_fe]. rewrite En. by apply cyc_next.
Qed.

(** The outer loop: the chain is complete, or every entry was looked at. *)
Lemma alloc_scan_spec n k a s :
  0 ≤ k ≤ span → at_step k a s → (k < span → wrap (entry (a_fe a)) = cyc_ k) → (Z.to_nat (span - k) < n)%nat →
  ∃ err a' t k', alloc_scan sb ops n nr a s = Ret (err, a', t) ∧ k ≤ k' ≤ span ∧
    ((err = 0 ∧ complete k' a' t) ∨
     (err = - ENOSPC ∧ k' = span ∧ ∃ t', t = set_s_dirt (set_free_clusters 0 t') ∧ at_step span a' t')).
Proof.
  revert k a s. induction n as [|n IH]; intros k a s Hk Ha Hw Hn; [lia|]. cbn [alloc_scan].
  destruct Ha as (E & Hp & Hc & Hct & Hl). rewrite Hct.
  destruct (Z.ltb_spec (FAT_START_ENT + k) (max_cluster sb)) as [Hlt|Hge]; cbn [negb].
  2:{ assert (k = span) as -> by (unfold span in *; lia).
      eexists _, _, _, span. split; [reflexivity|]. split; [lia|]. right. split; [done|]. split; [done|]. exists s. by split_and!. }
  assert (k < span) as Hks by (unfold span; lia). fold (wrap (entry (a_fe a))). rewrite (Hw Hks).
  rewrite read_block_fresh by (apply (ent_wf _ _ _ _ E) || by apply cyc_ok). cbn [mbind outcome_bind negb Z.eqb entry fatent_set_entry].
  pose proof (cyc_ok start k Hspan) as Hok.
  destruct (alloc_block_spec (fuel sb) k (Alloc (canon (cyc_ k)) (a_prev a) (a_bhs a) (FAT_START_ENT + k) (a_clusters a)) s)
    as (out & a' & t & k' & -> & Hk' & Hr); [lia|by split_and!|done|unfold fuel, ent_ok, FAT_START_ENT in *; lia|].
  cbn [mbind outcome_bind]. destruct out.
  - exists 0, a', t, k'. split; [done|]. split; [lia|]. by left.
  - destruct Hr as [Ha' Hw']. destruct (IH k' a' t) as (err & a2 & t2 & k2 & E2 & Hk2 & R2); [lia|done|done|lia|].
    exists err, a2, t2, k2. split; [exact E2|]. split; [lia|done].
Qed.
End loops.

Lemma found_take s start j n :
  0 ≤ j ≤ span → length (found s start j) = n → found s start j = take n (found s start span).
Proof.
  intros Hj Hl. destruct (found_prefix s start j span Hj) as [l El]. rewrite El. by rewrite take_app_exact.
Qed.

Lemma entered_init s : wf sb s → mirrored s → entered s [] [] s.
Proof.
  intros Hw Hm. split; try done; try (by intros ? ?%elem_of_nil).
  - constructor.
  - by intros ? ? ?%elem_of_nil.
  - simpl. destruct (Z.eqb_spec (free_clusters s) UNKNOWN); lia.
Qed.

Lemma alloc_start s : FAT_START_ENT ≤ prev_free s < max_cluster sb →
  s32 (prev_free s + 1) = prev_free s + 1 ∧ 0 < span ∧ wrap (prev_free s + 1) = cyc (wrap (prev_free s + 1)) 0.
Proof.
  intros Hp. pose proof (laws_clusters) as Hl. unfold FAT_START_ENT, FAT_ENT_EOF, EOF_FAT32 in *.
  split; [apply wraps_small; lia|]. split; [unfold span, FAT_START_ENT; lia|].
  unfold wrap, cyc, span, FAT_START_ENT. rewrite wrapu_small by lia.
  destruct (Z.leb_spec (max_cluster sb) (prev_free s + 1)); rewrite Z.mod_small; lia.
Qed.

Lemma alloc_clusters_spec sync nr s :
  wf sb s → mirrored s → 1 ≤ nr ≤ 4 → FAT_START_ENT ≤ prev_free s < max_cluster sb →
  (free_clusters s = UNKNOWN ∨ nr ≤ free_clusters s < UNKNOWN) →
  let frees := found s (wrap (prev_free s + 1)) span in
  (nr ≤ Z.of_nat (length frees) →
   let cl := take (Z.to_nat nr) frees in
   ∃ t, fat_alloc_clusters env sb ops sync nr s = Ret (0, cl, t) ∧ wf sb t ∧ mirrored t ∧
     (∀ e, ent_ok sb e → view t e = default (view s e) (link cl e)) ∧
     prev_free t = lastd FAT_START_ENT cl ∧
     free_clusters t = if free_clusters s =? UNKNOWN then UNKNOWN else free_clusters s - nr) ∧
  (frees = [] → ∃ t, fat_alloc_clusters env sb ops sync nr s = Ret (- ENOSPC, [], t) ∧ free_clusters t = 0 ∧
     ∀ e, ent_ok sb e → view t e = view s e).
Proof.
  intros Hw Hm Hnr Hp Hk frees. destruct (alloc_start s Hp) as (E32 & Hspan & Ec). set (start := wrap (prev_free s + 1)) in *.
  destruct (alloc_scan_spec s start nr Hspan ltac:(lia) Hk (fuel sb) 0
    (Alloc (fatent_set_entry fatent_init (prev_free s + 1)) fatent_init [] FAT_START_ENT []) s) as (err & a & t & k & Es & Hk' & Hr).
  { lia. } { split; [by apply entered_init|]. split_and!; try done. simpl. lia. } { intros _. exact Ec. }
  { unfold fuel, span, FAT_START_ENT. lia. }
  assert (∀ A (f : Z * alloc * fatfs → outcome A), (r ← alloc_scan sb ops (fuel sb) nr
    (Alloc (fatent_set_entry fatent_init (prev_free s + 1)) fatent_init [] FAT_START_ENT []) s; f r) = f (err, a, t)) as Erun
    by (intros; by rewrite Es).
  unfold fat_alloc_clusters. destruct (Z.ltb_spec (MAX_BUF_PER_PAGE / 2) nr) as [Hb|_]; [change (MAX_BUF_PER_PAGE / 2) with 4 in Hb; lia|].
  replace (negb (free_clusters s =? UNKNOWN) && (free_clusters s <? nr)) with false
    by (destruct (Z.eqb_spec (free_clusters s) UNKNOWN), (Z.ltb_spec (free_clusters s) nr); try done; lia).
  cbv zeta. rewrite E32, Erun.
  destruct Hr as [[-> (E & Hcl & Hlen & Hpf)]|(-> & -> & t' & -> & E & _ & Hcl & _ & Hlen)].
  - assert (found s start k = take (Z.to_nat nr) frees) as Ef by (apply found_take; lia).
    split; [|intros Hnil; exfalso; rewrite Ef, Hnil, take_nil in Hlen; simpl in Hlen; lia]. intros _.
    cbn [Z.eqb]. destruct (sync_and_mirror_spec sync (a_bhs a) [] t (ent_wf _ _ _ _ E) (ent_blocks _ _ _ _ E)) as (r & -> & Rr & Tr & Mr).
    { rewrite app_nil_r. apply (ent_mirror _ _ _ _ E). }
    cbn [mbind outcome_bind negb Z.eqb]. exists r. rewrite Hcl, Ef in *. destruct Rr as (-> & -> & _ & _).
    split; [by destruct (take (Z.to_nat nr) frees)|]. split; [eapply same_table_wf; [exact Tr|apply (ent_wf _ _ _ _ E)]|].
    split; [done|]. split; [intros e He; rewrite (same_table_view t r) by done; by apply (ent_view _ _ _ _ E)|].
    split; [done|]. rewrite (ent_count _ _ _ _ E), Hlen. done.
  - fold frees in Hlen, Hcl, E. split; [intros; lia|]. intros Hnil. cbn [Z.eqb mbind outcome_bind]. rewrite Hcl, Hnil in *.
    eexists. split; [reflexivity|]. split; [done|]. intros e He. rewrite <- (ent_view _ _ _ _ E e He : view t' e = view s e).
    by apply view_blocks.
Qed.

(** ** Freeing *)

(** Reading an entry into a [fat_entry] that still holds the buffers of another. *)
Definition cached_reads : Prop := ∀ e1 e2 s, wf sb s → ent_ok sb e1 → ent_ok sb e2 →
  fat_ent_read sb ops (canon e1) e2 s = Ret (view s e2, canon e2, s).

(** The counter after [n] clusters were freed. *)
Definition add_free (n c : Z) : Z := if c =? UNKNOWN then UNKNOWN else c + n.

Definition bump (s : fatfs) : fatfs :=
  if free_clusters s =? UNKNOWN then s else set_s_dirt (set_free_clusters (u32 (free_clusters s + 1)) s).

Lemma bump_spec s n :
  0 ≤ free_clusters s → (free_clusters s = UNKNOWN ∨ free_clusters s + Z.of_nat (S n) < UNKNOWN) →
  blk (bump s) = blk s ∧ free_clusters (bump s) = add_free 1 (free_clusters s) ∧
  (free_clusters (bump s) = UNKNOWN ∨ free_clusters (bump s) + Z.of_nat n < UNKNOWN).
Proof.
  intros H0 Hk. unfold bump, add_free. destruct (Z.eqb_spec (free_clusters s) UNKNOWN) as [E|E]; [by rewrite E; auto|].
  simpl. rewrite wrapu_small by (unfold UNKNOWN in *; lia). split; [done|]. split; [done|]. right. lia.
Qed.

(** The flush of the collected buffers when the array would overflow. *)
Lemma flush_spec bs cs s :
  wf sb s → (∀ b, b ∈ bs → in_fat sb b) → mirrored_but (bs ++ cs) s →
  (length cs ≤ 2)%nat → (∀ b, b ∈ cs → in_fat sb b) → (length bs ≤ 8)%nat →
  ∃ bs1 bs2 t,
    (if MAX_BUF_PER_PAGE <? Z.of_nat (length bs) + Z.of_nat (length cs) then
       '(err, s) ← sync_and_mirror env sb (s_synchronous sb) bs s;
       Ret (err, if err =? 0 then [] else bs, s)
     else Ret (0, bs, s)) = Ret (0, bs1, t) ∧
    fat_collect_bhs bs1 cs = Ret bs2 ∧ same_rest s t ∧ same_table s t ∧
    (∀ b, b ∈ bs2 → in_fat sb b) ∧ mirrored_but bs2 t ∧ (length bs2 ≤ 8)%nat.
Proof.
  intros Hw Hin Hm Hcs Hcin Hl. unfold MAX_BUF_PER_PAGE. destruct (Z.ltb_spec 8 (Z.of_nat (length bs) + Z.of_nat (length cs))).
  - destruct (sync_and_mirror_spec (s_synchronous sb) bs cs s Hw Hin Hm) as (t & -> & Rt & Tt & Mt). cbn [mbind outcome_bind Z.eqb].
    destruct (collect_spec [] cs) as (r & Er & Hr & Ir); [simpl; lia|]. exists [], r, t. split; [done|]. split; [done|].
    do 2 (split; [done|]). split; [set_solver|]. split; [eapply mirrored_mono; [|exact Mt]; set_solver|simpl in Hr; lia].
  - destruct (collect_spec bs cs) as (r & Er & Hr & Ir); [lia|]. exists bs, r, s. split; [done|]. split; [done|].
    split; [done|]. split; [done|]. split; [set_solver|]. split; [eapply mirrored_mono; [|exact Hm]; set_solver|lia].
Qed.

Lemma free_loop_spec n c cl fe bs s :
  cached_reads → chain_in s (c :: cl) → wf sb s → (fe = fatent_init ∨ ∃ e, ent_ok sb e ∧ fe = canon e) →
  (∀ b, b ∈ bs → in_fat sb b) → mirrored_but bs s → (length bs ≤ 8)%nat → (length cl < n)%nat →
  0 ≤ free_clusters s → (free_clusters s = UNKNOWN ∨ free_clusters s + Z.of_nat (length (c :: cl)) < UNKNOWN) →
  ∃ bs' t, free_loop env sb ops n c fe bs s = Ret (0, bs', t) ∧ wf sb t ∧ (∀ b, b ∈ bs' → in_fat sb b) ∧
    mirrored_but bs' t ∧ (∀ b, b < fat_start sb → blk t !! b = blk s !! b) ∧
    free_clusters t = add_free (Z.of_nat (length (c :: cl))) (free_clusters s) ∧
    ∀ e, ent_ok sb e → view t e = if decide (e ∈ c :: cl) then FAT_ENT_FREE else view s e.
Proof.
  intros Hcr. revert c cl fe bs s. induction n as [|n IH]; intros c cl fe bs s Hch Hw Hfe Hin Hm Hlb Hn H0 Hk; [lia|].
  destruct (chain_head s c cl Hch) as [Hok Hv]. cbn [free_loop].
  assert (fat_ent_read sb ops fe c s = Ret (view s c, canon c, s)) as -> by (destruct Hfe as [->|(e & He & ->)]; [by apply read_fresh|by apply Hcr]).
  cbn [mbind outcome_bind]. pose proof (laws_clusters) as Hlaw.
  assert (0 < view s c) as Hpos.
  { rewrite Hv. destruct cl as [|c' cl]; [done|]. destruct Hch as [_ Hl]. destruct (Hl c') as [[? _] _]; [set_solver|].
    unfold FAT_START_ENT in *. lia. }
  destruct (Z.ltb_spec (view s c) 0); [lia|]. destruct (Z.eqb_spec (view s c) FAT_ENT_FREE); [unfold FAT_ENT_FREE in *; lia|].
  destruct (put_canon s c FAT_ENT_FREE Hw Hok) as (s1 & -> & W1 & T1 & V1); [right; unfold FAT_ENT_FREE, FAT_START_ENT in *; lia|].
  cbn [mbind outcome_bind]. fold (bump s1). destruct T1 as [(Rp & Rf & Rd & Rr) B1].
  destruct (bump_spec s1 (length cl)) as (B2 & F2 & K2); [by rewrite Rf|by rewrite Rf|].
  destruct (canon_bhs c Hok) as (_ & Hle & Hcin).
  destruct (flush_spec bs (bhs (canon c)) (bump s1)) as (bs1 & bs2 & t & Ef & Ec & Rt & Tt & It & Mt & Lt); try done.
  { by apply (wf_blk _ s1). }
  { intros copy b Hc Hb Hnb. rewrite B2. by apply (touches_mirrored (bhs (canon c)) s s1 Hcin (conj (conj Rp (conj Rf (conj Rd Rr))) B1) bs Hm). }
  unfold nr_bhs. rewrite Ef. cbn [mbind outcome_bind negb Z.eqb]. rewrite Ec. cbn [mbind outcome_bind].
  assert (wf sb t) as Wt by (eapply same_table_wf; [exact Tt|by apply (wf_blk _ s1)]).
  assert (∀ e, ent_ok sb e → view t e = if decide (e = c) then FAT_ENT_FREE else view s e) as Vt.
  { intros e He. rewrite (same_table_view (bump s1) t) by done. rewrite <- V1 by done. apply view_blocks; [done|]. intros. by rewrite B2. }
  destruct Rt as (_ & Rf' & _ & _).
  assert (∀ b, b < fat_start sb → blk t !! b = blk s !! b) as Bt.
  { intros b Hb. pose proof (geo_length sb laws_geometry). rewrite Tt by (unfold below_backups; lia). rewrite B2. apply B1.
    intros [? _]%Hcin. lia. }
  destruct cl as [|c' cl].
  - rewrite Hv. cbn [negb Z.eqb]. change (FAT_ENT_EOF =? FAT_ENT_EOF) with true. cbn [negb].
    exists bs2, t. split; [done|]. do 4 (split; [done|]). split; [rewrite Rf', F2, Rf; done|].
    intros e He. rewrite Vt by done. do 2 case_decide; set_solver.
  - rewrite Hv. pose proof (chain_step s t c _ Hch Vt) as Hch'. destruct (chain_head _ _ _ Hch') as [Hok' _].
    destruct (Z.eqb_spec c' FAT_ENT_EOF) as [Ee|_]; [unfold ent_ok in Hok'; lia|]. cbn [negb].
    destruct (IH c' cl (canon c) bs2 t Hch' Wt ltac:(by right; exists c) It Mt Lt) as (bs' & t' & -> & ? & ? & ? & Bf & Ff & Vf); [simpl in *; lia|..].
    { rewrite Rf', F2, Rf. unfold add_free. destruct (_ =? _); [done|lia]. } { rewrite Rf'. exact K2. }
    exists bs', t'. split; [done|]. do 3 (split; [done|]). split; [intros b Hb; by rewrite Bf, Bt|]. split.
    + rewrite Ff, Rf', F2, Rf. unfold add_free. destruct (Z.eqb_spec (free_clusters s) UNKNOWN); [done|].
      destruct (Z.eqb_spec (free_clusters s + 1) UNKNOWN); [simpl in Hk; lia|]. simpl. lia.
    + intros e He. rewrite Vf, Vt by done. repeat case_decide; set_solver.
Qed.

(** The information sector lies before the table. *)
Definition fsinfo_ok (s : fatfs) : Prop :=
  fat_bits sb ≠ 32 ∨
  (fsinfo_sector sb < fat_start sb ∧ ∀ bs, blk s !! fsinfo_sector sb = Some bs → (512 ≤ length bs)%nat).

Lemma poke_le_block n s b o x bs :
  blk s !! b = Some bs → 0 ≤ o → o + Z.of_nat n ≤ Z.of_nat (length bs) →
  ∃ t bs', poke_le n s (b, o) x = Ret t ∧ touches [b] s t ∧ blk t !! b = Some bs' ∧ length bs' = length bs.
Proof.
  intros Hb Ho Hl. unfold poke_le, buffer. cbn [fst snd]. rewrite Hb. cbn [mbind outcome_bind].
  rewrite decide_True by lia. eexists _, _. split; [reflexivity|]. split; [apply touches_insert; set_solver|].
  split; [cbn [blk set_blk]; apply lookup_insert_eq|]. rewrite !length_app, length_take, length_drop, length_le_bytes. lia.
Qed.

Lemma clusters_flush_spec s :
  fsinfo_ok s → ∃ t, fat_clusters_flush sb s = Ret t ∧ same_rest s t ∧
    (fat_bits sb = 32 → fsinfo_sector sb < fat_start sb) ∧
    ∀ b, (fat_bits sb = 32 → b ≠ fsinfo_sector sb) → blk t !! b = blk s !! b.
Proof.
  intros [Hb|[Hlt Hf]]; unfold fat_clusters_flush.
  { destruct (Z.eqb_spec (fat_bits sb) 32); [done|]. by exists s. }
  destruct (Z.eqb_spec (fat_bits sb) 32) as [E32|]; [cbn [negb]|by exists s].
  unfold sb_bread. destruct (blk s !! fsinfo_sector sb) as [bs|] eqn:Es; cbn [negb]; [|by exists s].
  specialize (Hf bs eq_refl). unfold peek_le at 1 2, buffer. cbn [fst snd]. rewrite Es. cbn [mbind outcome_bind].
  rewrite !decide_True by (simpl; lia). cbn [mbind outcome_bind].
  destruct (negb _); [by exists s|].
  destruct (poke_le_block 4 s (fsinfo_sector sb) 488 (free_clusters s) bs Es) as (t1 & bs1 & E1 & T1 & B1 & L1); [lia|simpl; lia|].
  assert (∃ s1 bs', (if free_clusters s =? UNKNOWN then Ret s else poke_le 4 s (fsinfo_sector sb, 488) (free_clusters s)) = Ret s1 ∧
    touches [fsinfo_sector sb] s s1 ∧ blk s1 !! fsinfo_sector sb = Some bs' ∧ length bs' = length bs) as (s1 & bs' & -> & T & B & L).
  { case_match; [|by eexists _, _]. exists s, bs. repeat split; done. }
  cbn [mbind outcome_bind].
  destruct (poke_le_block 4 s1 (fsinfo_sector sb) 492 (prev_free s1) bs' B) as (t2 & bs2 & E2 & T2 & _); [lia|simpl; lia|].
  assert (∃ s2, (if prev_free s1 =? UNKNOWN then Ret s1 else poke_le 4 s1 (fsinfo_sector sb, 492) (prev_free s1)) = Ret s2 ∧
    touches [fsinfo_sector sb] s1 s2) as (s2 & -> & T').
  { case_match; [|by eexists]. exists s1. by split. }
  cbn [mbind outcome_bind]. destruct (touches_trans _ _ _ _ T T') as [R O].
  eexists. split; [reflexivity|]. split; [done|]. split; [done|]. intros b Hb. apply O. rewrite list_elem_of_singleton. auto.
Qed.


Lemma free_clusters_spec c cl s :
  cached_reads → chain_in s (c :: cl) → wf sb s → mirrored s → fsinfo_ok s →
  0 ≤ free_clusters s → (free_clusters s = UNKNOWN ∨ free_clusters s + Z.of_nat (length (c :: cl)) < UNKNOWN) →
  ∃ t, fat_free_clusters env sb ops c s = Ret (0, t) ∧ wf sb t ∧ mirrored t ∧
    free_clusters t = add_free (Z.of_nat (length (c :: cl))) (free_clusters s) ∧
    ∀ e, ent_ok sb e → view t e = if decide (e ∈ c :: cl) then FAT_ENT_FREE else view s e.
Proof.
  intros Hcr Hch Hw Hm Hfs H0 Hk. unfold fat_free_clusters.
  destruct (free_loop_spec (fuel sb) c cl fatent_init [] s) as (bs & t & -> & Wt & It & Mt & Bt & Ft & Vt); try done.
  { by left. } { set_solver. } { simpl. lia. }
  { apply chain_length in Hch. simpl in Hch. unfold fuel. lia. }
  cbn [mbind outcome_bind Z.eqb].
  destruct (sync_and_mirror_spec (s_synchronous sb) bs [] t Wt It) as (r & -> & Rr & Tr & Mr); [by rewrite app_nil_r|].
  cbn [mbind outcome_bind]. pose proof (geo_length sb laws_geometry) as Hgl.
  destruct (clusters_flush_spec r) as (q & -> & Rq & Hlow & Bq).
  { destruct Hfs as [?|[Hlt Hf]]; [by left|right]. split; [done|]. intros bs' Hbs'. apply Hf.
    rewrite <- Hbs', Tr, Bt by (unfold below_backups; lia). done. }
  cbn [mbind outcome_bind]. exists q. assert (same_in : ∀ b, in_fat sb b → blk q !! b = blk r !! b).
  { intros b [Hb _]. apply Bq. intros E. specialize (Hlow E). lia. }
  split; [done|]. split; [intros b Hb; rewrite same_in by done; by apply (same_table_wf _ _ Tr Wt)|].
  split; [|split].
  - intros copy b Hc Hb _. rewrite (same_in b) by done. rewrite Bq; [by apply Mr; [..|set_solver]|].
    intros E. specialize (Hlow E). unfold backup, in_fat in *. nia.
  - destruct Rr as (_ & Er & _), Rq as (_ & Eq & _). by rewrite Eq, Er.
  - intros e He. rewrite (view_blocks r q), (same_table_view t r) by done. by apply Vt.
Qed.
End clients.

(** ** Cached buffers

    The two word formats use one buffer per entry, so a [fat_entry] that still
    holds the buffers of another entry is read correctly. *)

Section cached.
Context (sb : sb_info) (geo : geometry sb) (ops : fatent_operations) (shift : Z) (Hshift : shift = 1 ∨ shift = 2).
Context (Hfit : max_cluster sb * 2 ^ shift ≤ fat_size sb) (mk : Z * Z → ent_ptr) `{!FatentLaws sb ops}.
Context (Hcanon : ∀ e, canon e = canonw sb shift mk e) (Hbits : fat_bits sb ≠ 12).
Context (Hnr : ∀ e, ent_blocknr ops sb e = fat_ent_blocknr shift sb e).
Context (Hset : ∀ f o, bhs f ≠ [] → ent_set_ptr ops f o = Ret (FatEntry (entry f) (Some (mk (default 0 (head (bhs f)), o))) (bhs f))).

Lemma cached_words : cached_reads sb ops.
Proof.
  intros e1 e2 s Hw He1 He2. unfold fat_ent_read. pose proof He2 as [Hlo Hhi].
  destruct (Z.ltb_spec e2 FAT_START_ENT), (Z.leb_spec (max_cluster sb) e2); try lia. cbn [orb].
  pose proof (bread_canon (fatent_brelse (fatent_set_entry (canon e1) e2)) s Hw He2 eq_refl) as Hr.
  change (entry (fatent_brelse (fatent_set_entry (canon e1) e2))) with e2 in Hr.
  destruct (wpos_bounds sb geo shift Hshift Hfit e2 He2) as (? & _ & _).
  pose proof (geo_size sb geo) as Hg. fold (fat_size sb) in Hg.
  assert (ent_blocknr ops sb e2 = ((loc sb (wpos shift e2)).2, (loc sb (wpos shift e2)).1)) as E.
  { rewrite Hnr. unfold fat_ent_blocknr. rewrite Z.shiftl_mul_pow2 by lia. apply (split_offset sb geo). unfold wpos in *. lia. }
  rewrite E in *. cbn [fst snd] in Hr. unfold fat_ent_update_ptr. destruct (Z.eqb_spec (fat_bits sb) 12); [done|]. cbn [andb].
  rewrite Hcanon in Hr |- *. cbn [fatent_set_entry bhs canonw head]. case_bool_decide as Hb; cbn [negb].
  - rewrite Hset by done. cbn [mbind outcome_bind bhs entry head default from_option].
    assert ((loc sb (wpos shift e1)).1 = (loc sb (wpos shift e2)).1) as Hb' by congruence.
    replace (FatEntry e2 _ _) with (canon e2); [by rewrite get_canon|].
    rewrite Hcanon. unfold canonw. rewrite Hb'. by destruct (loc sb (wpos shift e2)).
  - cbn [mbind outcome_bind]. cbn [fatent_set_entry bhs canonw] in Hr. rewrite Hr. cbn [mbind outcome_bind negb Z.eqb]. by rewrite get_canon.
Qed.
End cached.

Lemma cached_fat16 sb (geo : geometry sb) (Hfit : max_cluster sb * 2 ^ 1 ≤ fat_size sb) (Hmax : FAT_START_ENT ≤ max_cluster sb ≤ BAD_FAT16) :
  fat_bits sb = 16 → @cached_reads sb fat16_ops (fat16_laws sb geo Hfit Hmax).
Proof.
  intros Hb. apply (cached_words sb geo fat16_ops 1 (or_introl eq_refl) Hfit Ent16); [done|lia|done|].
  intros f o Hf. cbn [ent_set_ptr fat16_ops]. unfold fat16_ent_set_ptr. by destruct (bhs f).
Qed.

Lemma cached_fat32 sb (geo : geometry sb) (Hfit : max_cluster sb * 2 ^ 2 ≤ fat_size sb) (Hmax : FAT_START_ENT ≤ max_cluster sb ≤ BAD_FAT32) :
  fat_bits sb = 32 → @cached_reads sb fat32_ops (fat32_laws sb geo Hfit Hmax).
Proof.
  intros Hb. apply (cached_words sb geo fat32_ops 2 (or_intror eq_refl) Hfit Ent32); [done|lia|done|].
  intros f o Hf. cbn [ent_set_ptr fat32_ops]. unfold fat32_ent_set_ptr. by destruct (bhs f).
Qed.

(** ** Claims *)

(** reading an entry gives its value and nothing else changes; writing one
    changes that entry alone, leaves every other entry of the table as it was
    even where two entries share a byte, and brings all copies of the table into
    step.  It holds of the three formats alike. *)
Theorem fat_ent_write_frame env sb ops `{!FatentLaws sb ops} e v wait s :
  quiet env → wf sb s → mirrored sb s → ent_ok sb e → ent_val sb v →
  fat_ent_read sb ops fatent_init e s = Ret (view s e, canon e, s) ∧
  ∃ t, fat_ent_write env sb ops (canon e) v wait s = Ret (0, t) ∧
    fat_ent_read sb ops fatent_init e t = Ret (v, canon e, t) ∧
    (∀ e', ent_ok sb e' → e' ≠ e → fat_ent_read sb ops fatent_init e' t = Ret (view s e', canon e', t)) ∧
    wf sb t ∧ mirrored sb t.
Proof.
  intros Hq Hw Hm He Hv. split; [by apply read_fresh|].
  destruct (write_canon env sb ops Hq e v wait s Hw He Hv Hm) as (t & Ht & Wt & Mt & _ & _ & Vt). exists t. split; [done|].
  split; [rewrite (read_fresh sb ops), Vt, decide_True by done; done|]. split; [|done].
  intros e' He' Hne. by rewrite (read_fresh sb ops), Vt, decide_False by done.
Qed.

(** counting the free clusters visits every entry once, block by block, and
    stores their exact number; entries 0 and 1 are not counted. *)
Theorem fat_count_free_clusters_exact sb ops `{!FatentLaws sb ops} s :
  wf sb s → free_clusters s = UNKNOWN →
  fat_count_free_clusters sb ops s =
  Ret (0, set_s_dirt (set_free_clusters (nfree sb ops s FAT_START_ENT (max_cluster sb)) s)).
Proof. apply count_free_spec. Qed.

(** C6: when there are enough free clusters, allocating [nr] of them takes the
    first [nr] free ones after the last one allocated, going round the table;
    they are linked in this order and the last one is marked as the end, no
    other entry changes, the counters follow and all copies agree.  When there is
    none, the call fails, changes no entry and records that the table is full. *)
Theorem fat_alloc_clusters_correct env sb ops `{!FatentLaws sb ops} sync nr s :
  quiet env → wf sb s → mirrored sb s → 1 ≤ nr ≤ 4 → FAT_START_ENT ≤ prev_free s < max_cluster sb →
  (free_clusters s = UNKNOWN ∨ nr ≤ free_clusters s < UNKNOWN) →
  let frees := found sb ops s (wrap sb (prev_free s + 1)) (span sb) in
  (nr ≤ Z.of_nat (length frees) →
   let cl := take (Z.to_nat nr) frees in
   ∃ t, fat_alloc_clusters env sb ops sync nr s = Ret (0, cl, t) ∧ wf sb t ∧ mirrored sb t ∧
     (∀ e, ent_ok sb e → view t e = default (view s e) (link cl e)) ∧
     prev_free t = lastd FAT_START_ENT cl ∧
     free_clusters t = if free_clusters s =? UNKNOWN then UNKNOWN else free_clusters s - nr) ∧
  (frees = [] → ∃ t, fat_alloc_clusters env sb ops sync nr s = Ret (- ENOSPC, [], t) ∧ free_clusters t = 0 ∧
     ∀ e, ent_ok sb e → view t e = view s e).
Proof. intros Hq. by apply alloc_clusters_spec. Qed.

(** C34: freeing a chain marks each of its clusters free and no other entry,
    counts them, and leaves all copies in step, whatever the length of the chain;
    it needs a format in which an entry may be read through the buffers of the
    previous one, as the two word formats are and the twelve-bit one is not. *)
Theorem fat_free_clusters_correct env sb ops `{!FatentLaws sb ops} c cl s :
  quiet env → cached_reads sb ops → chain_in sb ops s (c :: cl) → wf sb s → mirrored sb s → fsinfo_ok sb s →
  0 ≤ free_clusters s → (free_clusters s = UNKNOWN ∨ free_clusters s + Z.of_nat (length (c :: cl)) < UNKNOWN) →
  ∃ t, fat_free_clusters env sb ops c s = Ret (0, t) ∧ wf sb t ∧ mirrored sb t ∧
    free_clusters t = add_free (Z.of_nat (length (c :: cl))) (free_clusters s) ∧
    ∀ e, ent_ok sb e → view t e = if decide (e ∈ c :: cl) then FAT_ENT_FREE else view s e.
Proof. intros Hq. by apply free_clusters_spec. Qed.

(** ** Examples *)

Module Sample.
Definition quiet_env : env := Env (λ _, true) (λ _, false) (λ _, true) (λ _, 0).
Lemma quiet_ok : quiet quiet_env.
Proof. done. Qed.

(** Two copies of a table of ten sixteen-bit entries, with the chains 2, 3 and
    5, 7. *)
Definition sb16 : sb_info := SbInfo 16 2 1 1 10 0 9 false.
Definition table16 : list Z :=
  foldr (λ v l, le_bytes 2 v ++ l) [] [0xfff8; 0xffff; 3; 0xffff; 0; 7; 0; 0xffff; 0; 0] ++ replicate 492 0.
Definition fs16 (free : Z) : fatfs := FatFs {[1 := table16; 2 := table16]} ∅ 5 free false false.

Lemma geo16 : geometry sb16.
Proof. split; by vm_compute. Qed.
Lemma fit16 : max_cluster sb16 * 2 ^ 1 ≤ fat_size sb16.
Proof. by vm_compute. Qed.
Lemma max16 : FAT_START_ENT ≤ max_cluster sb16 ≤ BAD_FAT16.
Proof. by vm_compute. Qed.
Definition laws16 : FatentLaws sb16 fat16_ops := fat16_laws sb16 geo16 fit16 max16.

Lemma in_fat16 b : in_fat sb16 b → b = 1.
Proof. unfold in_fat. simpl. lia. Qed.

Lemma bytes16 : Forall is_byte table16.
Proof. apply (bool_decide_unpack _). by vm_compute. Qed.

Lemma wf16 free : wf sb16 (fs16 free).
Proof. intros b ->%in_fat16. exists table16. split; [by vm_compute|]. split; [by vm_compute|]. apply bytes16. Qed.

Lemma mirrored16 free : mirrored sb16 (fs16 free).
Proof. intros copy b Hc ->%in_fat16 _. assert (copy = 1) as -> by (cbn in Hc; lia). by vm_compute. Qed.

End Sample.

Lemma fat_ent_write_frame_witness :
  fat_ent_read Sample.sb16 fat16_ops fatent_init 5 (Sample.fs16 4) = Ret (7, canonw Sample.sb16 1 Ent16 5, Sample.fs16 4).
Proof.
  refine (proj1 (fat_ent_write_frame Sample.quiet_env Sample.sb16 fat16_ops (FatentLaws0 := Sample.laws16) 5 9 false (Sample.fs16 4)
    Sample.quiet_ok (Sample.wf16 4) (Sample.mirrored16 4) _ _)).
  - by vm_compute.
  - right. by vm_compute.
Defined.

Lemma fat_count_free_clusters_exact_witness :
  fat_count_free_clusters Sample.sb16 fat16_ops (Sample.fs16 UNKNOWN) = Ret (0, set_s_dirt (Sample.fs16 4)).
Proof.
  exact (fat_count_free_clusters_exact Sample.sb16 fat16_ops (FatentLaws0 := Sample.laws16) (Sample.fs16 UNKNOWN) (Sample.wf16 UNKNOWN) eq_refl).
Defined.

Lemma fat_alloc_clusters_correct_witness :
  ∃ t, fat_alloc_clusters Sample.quiet_env Sample.sb16 fat16_ops true 3 (Sample.fs16 4) = Ret (0, [6; 8; 9], t).
Proof.
  assert (E : found Sample.sb16 fat16_ops (FatentLaws0 := Sample.laws16) (Sample.fs16 4) 6 8 = [6; 8; 9; 4]) by (vm_compute; reflexivity).
  destruct (proj1 (fat_alloc_clusters_correct Sample.quiet_env Sample.sb16 fat16_ops (FatentLaws0 := Sample.laws16) true 3 (Sample.fs16 4)
    Sample.quiet_ok (Sample.wf16 4) (Sample.mirrored16 4) ltac:(lia) ltac:(split; vm_compute; congruence) ltac:(right; split; vm_compute; congruence))) as (t & Ht & _).
  - change (wrap Sample.sb16 (prev_free (Sample.fs16 4) + 1)) with 6. change (span Sample.sb16) with 8. rewrite E. simpl. lia.
  - exists t. rewrite Ht. change (wrap Sample.sb16 (prev_free (Sample.fs16 4) + 1)) with 6. change (span Sample.sb16) with 8. rewrite E. reflexivity.
Defined.

Lemma fat_free_clusters_correct_witness :
  ∃ t, fat_free_clusters Sample.quiet_env Sample.sb16 fat16_ops 5 (Sample.fs16 4) = Ret (0, t) ∧ free_clusters t = 6.
Proof.
  destruct (fat_free_clusters_correct Sample.quiet_env Sample.sb16 fat16_ops (FatentLaws0 := Sample.laws16) 5 [7] (Sample.fs16 4)
    Sample.quiet_ok (cached_fat16 Sample.sb16 Sample.geo16 Sample.fit16 Sample.max16 eq_refl)) as (t & Ht & _ & _ & Hf & _).
  - split; [apply (bool_decide_unpack _); by vm_compute|].
    intros e [-> | ->%list_elem_of_singleton]%elem_of_cons; (split; [by vm_compute|by vm_compute]).
  - apply Sample.wf16.
  - apply Sample.mirrored16.
  - by left.
  - by vm_compute.
  - right. by vm_compute.
  - exists t. split; [exact Ht|exact Hf].
Defined.
