(* ===== verification/FatDate.v ===== *)
(** The two conversions between MS-DOS and UNIX dates of [fs/fat/misc.c], on 32-bit
    [int]s and 16-bit fields. *)

From S2P Require Import Prelude.

(** Linear day numbers of the first days of the months; four spare places. *)
Definition day_n : list Z := [0; 31; 59; 90; 120; 151; 181; 212; 243; 273; 304; 334; 0; 0; 0; 0].

(** [sys_tz.tz_minuteswest] is an argument; the index into [day_n] is a masked
    number below 16. *)
Definition date_dos2unix (tz_minuteswest time date : Z) : outcome Z :=
  let month := Z.land (Z.shiftr date 5 - 1) 15 in
  let year := Z.shiftr date 9 in
  d ← aget day_n month;
  let secs := Z.land time 31 * 2 + 60 * Z.land (Z.shiftr time 5) 63 + Z.shiftr time 11 * 3600 +
              86400 * (Z.land date 31 - 1 + d + year / 4 + year * 365 -
                       (if (Z.land year 3 =? 0) && (month <? 2) then 1 else 0) + 3653) in
  Ret (s32 (s32 secs + tz_minuteswest * 60)).

(** The first month, counted from [month], that starts after [nl_day]; 12 when
    there is none. *)
Fixpoint month_loop (n : nat) (month nl_day : Z) : outcome Z :=
  match n with
  | O => Ret month
  | S n => d ← aget day_n month; if nl_day <? d then Ret month else month_loop n (month + 1) nl_day
  end.

(** The year since 1980 and the day in it of a day number since 1980. *)
Definition split_year (day : Z) : Z * Z :=
  let year := day / 365 in
  let year := if day <? (year + 3) / 4 + 365 * year then year - 1 else year in
  (year, day - ((year + 3) / 4 + 365 * year)).

(** The day of a year without its leap day, and the month. *)
Definition month_of (leap : bool) (day : Z) : outcome (Z * Z) :=
  if (day =? 59) && leap then Ret (day, 2)
  else let nl_day := if negb leap || (day <=? 59) then day else day - 1 in
       month ← month_loop 12 0 nl_day; Ret (nl_day, month).

(** The date field of a day number since 1980. *)
Definition dos_date (day : Z) : outcome Z :=
  let '(year, day) := split_year day in
  '(nl_day, month) ← month_of (Z.land year 3 =? 0) day;
  d ← aget day_n (month - 1);
  Ret (u16 (nl_day - d + 1 + Z.shiftl month 5 + Z.shiftl year 9)).

(** The time and date fields. *)
Definition fat_date_unix2dos (tz_minuteswest unix_date : Z) : outcome (Z * Z) :=
  let unix_date := s32 (unix_date - tz_minuteswest * 60) in
  let unix_date := if unix_date <? 315532800 then 315532800 else unix_date in
  let time := u16 (unix_date mod 60 / 2 + Z.shiftl (unix_date / 60 mod 60) 5 + Z.shiftl (unix_date / 3600 mod 24) 11) in
  date ← dos_date (unix_date / 86400 - 3652);
  Ret (time, date).

(** ** Round trip *)

(** The days of a date field since 1970, as [date_dos2unix] counts them. *)
Definition days_of (date : Z) : outcome Z :=
  let month := Z.land (Z.shiftr date 5 - 1) 15 in
  let year := Z.shiftr date 9 in
  d ← aget day_n month;
  Ret (Z.land date 31 - 1 + d + year / 4 + year * 365 - (if (Z.land year 3 =? 0) && (month <? 2) then 1 else 0) + 3653).

Lemma date_dos2unix_days tz time date days :
  days_of date = Ret days →
  date_dos2unix tz time date =
  Ret (s32 (s32 (Z.land time 31 * 2 + 60 * Z.land (Z.shiftr time 5) 63 + Z.shiftr time 11 * 3600 + 86400 * days) + tz * 60)).
Proof.
  unfold days_of, date_dos2unix. destruct (aget day_n _); [|done..]. cbn [mbind outcome_bind]. by intros [= <-].
Qed.

(** Every day of a year, leap or not: month and day are in range and count
    back to the day. *)
Definition day_ok (leap : bool) (day : Z) : bool :=
  match month_of leap day with
  | Ret (nl_day, month) =>
    (1 <=? month) && (month <=? 12) &&
    match aget day_n (month - 1) with
    | Ret d => (1 <=? nl_day - d + 1) && (nl_day - d + 1 <=? 31) &&
               (nl_day - (if leap && (month - 1 <? 2) then 1 else 0) + (if leap then 1 else 0) =? day)
    | _ => false
    end
  | _ => false
  end.

Lemma days_ok : forallb (day_ok true) (seqZ 0 366) && forallb (day_ok false) (seqZ 0 365) = true.
Proof. by vm_compute. Qed.

Lemma month_of_ok (leap : bool) day :
  0 ≤ day < (if leap then 366 else 365) →
  ∃ nl_day month d, month_of leap day = Ret (nl_day, month) ∧ aget day_n (month - 1) = Ret d ∧ 1 ≤ month ≤ 12 ∧
    1 ≤ nl_day - d + 1 ≤ 31 ∧ nl_day - (if leap && (month - 1 <? 2) then 1 else 0) + (if leap then 1 else 0) = day.
Proof.
  intros Hd. destruct (andb_prop _ _ days_ok) as [Hl Hn]. rewrite forallb_forall in Hl, Hn.
  assert (day_ok leap day = true) as H.
  { destruct leap; [apply Hl|apply Hn]; apply list_elem_of_In, elem_of_seqZ; lia. }
  unfold day_ok in H. destruct (month_of leap day) as [[nl month]| | |]; try done.
  apply andb_prop in H as [[H1%Z.leb_le H2%Z.leb_le]%andb_prop H].
  destruct (aget day_n (month - 1)) as [d| | |] eqn:E; try done.
  apply andb_prop in H as [[H3%Z.leb_le H4%Z.leb_le]%andb_prop H5%Z.eqb_eq].
  exists nl, month, d. split_and!; done || lia.
Qed.

Lemma split_year_ok day :
  0 ≤ day < 21204 →
  let '(year, d) := split_year day in
  0 ≤ year < 128 ∧ day = (year + 3) / 4 + 365 * year + d ∧ 0 ≤ d < (if year mod 4 =? 0 then 366 else 365).
Proof.
  intros Hd. unfold split_year. cbv zeta. zcase; Z.div_mod_to_equations; lia.
Qed.

Lemma dos_date_days day : 3652 ≤ day < 24856 → ∃ date, dos_date (day - 3652) = Ret date ∧ days_of date = Ret day.
Proof.
  intros Hd. pose proof (split_year_ok (day - 3652) ltac:(lia)) as Hs. unfold dos_date.
  destruct (split_year (day - 3652)) as [year d]. destruct Hs as (Hy & Ed & Hr).
  rewrite (land_ones_mod year 2 3) by done. change (2 ^ 2) with 4. set (leap := year mod 4 =? 0) in *.
  destruct (month_of_ok leap d Hr) as (nl & month & dn & -> & Ea & Hm & Hdom & Eq). cbn [mbind outcome_bind].
  rewrite Ea. cbn [mbind outcome_bind]. eexists. split; [reflexivity|].
  rewrite !Z.shiftl_mul_pow2 by lia. rewrite wrapu_small by lia. set (dom := nl - dn + 1) in *.
  unfold days_of. rewrite !Z.shiftr_div_pow2 by lia.
  rewrite (land_ones_mod _ 4 15), (land_ones_mod _ 5 31) by done.
  change (2 ^ 4) with 16. change (2 ^ 5) with 32. change (2 ^ 9) with 512.
  assert ((dom + month * 32 + year * 512) mod 32 = dom ∧ (dom + month * 32 + year * 512) / 512 = year ∧
    ((dom + month * 32 + year * 512) / 32 - 1) mod 16 = month - 1) as (-> & -> & ->) by (split_and!; Z.div_mod_to_equations; lia).
  rewrite Ea. cbn [mbind outcome_bind]. rewrite (land_ones_mod year 2 3) by done. change (2 ^ 2) with 4. fold leap.
  f_equal. unfold leap in *. destruct (Z.eqb_spec (year mod 4) 0); cbn [andb] in *; Z.div_mod_to_equations; lia.
Qed.

(** The three fields of a time of day come back, but for the odd second. *)
Lemma time_fields t :
  0 ≤ t →
  let time := u16 (t mod 60 / 2 + Z.shiftl (t / 60 mod 60) 5 + Z.shiftl (t / 3600 mod 24) 11) in
  Z.land time 31 * 2 + 60 * Z.land (Z.shiftr time 5) 63 + Z.shiftr time 11 * 3600 = t mod 86400 - t mod 2.
Proof.
  intros Ht. cbv zeta. rewrite !Z.shiftl_mul_pow2 by lia.
  set (a := t mod 60 / 2). set (b := t / 60 mod 60). set (c := t / 3600 mod 24).
  assert (0 ≤ a < 30 ∧ 0 ≤ b < 60 ∧ 0 ≤ c < 24) as (Ha & Hb & Hc).
  { unfold a, b, c. split_and!; try apply Z.mod_pos_bound; try lia; Z.div_mod_to_equations; lia. }
  rewrite wrapu_small by lia. rewrite !Z.shiftr_div_pow2 by lia.
  rewrite (land_ones_mod _ 5 31), (land_ones_mod _ 6 63) by done.
  change (2 ^ 5) with 32. change (2 ^ 6) with 64. change (2 ^ 11) with 2048.
  assert ((a + b * 32 + c * 2048) mod 32 = a ∧ ((a + b * 32 + c * 2048) / 32) mod 64 = b ∧ (a + b * 32 + c * 2048) / 2048 = c) as (-> & -> & ->).
  { split_and!; Z.div_mod_to_equations; lia. }
  unfold a, b, c. clear. Z.div_mod_to_equations; lia.
Qed.

(** The conversion to MS-DOS fields always returns. *)
Lemma unix2dos_total tz t : ∃ time date, fat_date_unix2dos tz t = Ret (time, date).
Proof.
  unfold fat_date_unix2dos. pose proof (wraps_range 32 (t - tz * 60) ltac:(lia)) as Hr. change (32 - 1) with 31 in Hr. set (T := if _ <? _ then _ else _).
  assert (315532800 ≤ T < 2 ^ 31) as HT by (unfold T; zcase; lia).
  destruct (dos_date_days (T / 86400)) as (date & Ed & _); [Z.div_mod_to_equations; lia|]. rewrite Ed. by eexists _, date.
Qed.

Lemma unix2dos_range tz t time date : fat_date_unix2dos tz t = Ret (time, date) → 0 ≤ time < 65536 ∧ 0 ≤ date < 65536.
Proof.
  unfold fat_date_unix2dos. cbv zeta. set (T := if _ <? _ then _ else _). destruct (dos_date (T / 86400 - 3652)) as [d| | |] eqn:E; [|done..].
  cbn [mbind outcome_bind]. intros [= <- <-]. split; [apply wrapu_range; lia|]. revert E. unfold dos_date. destruct (split_year _) as [y dd].
  destruct (month_of _ _) as [[nl m]| | |]; [|done..]. cbn [mbind outcome_bind]. destruct (aget day_n (m - 1)); [|done..]. intros [= <-]. apply wrapu_range. lia.
Qed.

Lemma dos2unix_total tz time date : ∃ t, date_dos2unix tz time date = Ret t.
Proof.
  unfold date_dos2unix. rewrite (land_ones_mod _ 4 15) by done. pose proof (Z.mod_pos_bound (Z.shiftr date 5 - 1) (2 ^ 4) ltac:(lia)).
  destruct (aget_in day_n ((Z.shiftr date 5 - 1) mod 2 ^ 4)) as (d & -> & _); [cbn; lia|]. by eexists.
Qed.

Lemma unix2dos_dos2unix (tz t : Z) :
  - 2 ^ 31 ≤ t < 2 ^ 31 → - 2 ^ 31 ≤ t - tz * 60 < 2 ^ 31 →
  ∃ time date, fat_date_unix2dos tz t = Ret (time, date) ∧
    date_dos2unix tz time date =
    Ret (if t - tz * 60 <? 315532800 then s32 (315532800 + tz * 60) else t - t mod 2).
Proof.
  intros Ht Hz. unfold fat_date_unix2dos. rewrite wraps_small by lia. set (T := if _ <? _ then _ else _).
  assert (315532800 ≤ T < 2 ^ 31) as HT by (unfold T; zcase; lia).
  destruct (dos_date_days (T / 86400)) as (date & Ed & Edays); [Z.div_mod_to_equations; lia|].
  rewrite Ed. cbn [mbind outcome_bind]. eexists _, date. split; [reflexivity|].
  rewrite (date_dos2unix_days _ _ _ _ Edays), time_fields by lia. f_equal.
  replace (T mod 86400 - T mod 2 + 86400 * (T / 86400)) with (T - T mod 2) by (pose proof (Z.div_mod T 86400); lia).
  rewrite (wraps_small 32 (T - T mod 2)) by (Z.div_mod_to_equations; lia).
  unfold T. destruct (Z.ltb_spec (t - tz * 60) 315532800); [done|].
  replace ((t - tz * 60) mod 2) with (t mod 2) by (Z.div_mod_to_equations; lia).
  rewrite wraps_small by (Z.div_mod_to_equations; lia). lia.
Qed.

(** C38: converting a UNIX date from 1980 on to MS-DOS fields and back gives the
    date itself, less the odd second that the fields cannot hold, in every time
    zone and up to the last second of a 32-bit date; an earlier date becomes the
    first of January 1980. *)
Theorem fat_date_roundtrip (tz t : Z) :
  - 2 ^ 31 ≤ t < 2 ^ 31 → - 2 ^ 31 ≤ t - tz * 60 < 2 ^ 31 →
  ∃ time date, fat_date_unix2dos tz t = Ret (time, date) ∧
    date_dos2unix tz time date =
    Ret (if t - tz * 60 <? 315532800 then s32 (315532800 + tz * 60) else t - t mod 2).
Proof. apply unix2dos_dos2unix. Qed.

Lemma fat_date_roundtrip_witness :
  ∃ time date, fat_date_unix2dos 300 1400000001 = Ret (time, date) ∧ date_dos2unix 300 time date = Ret 1400000000.
Proof. refine (fat_date_roundtrip 300 1400000001 _ _); lia. Defined.
