(* ===== verification/FatCache.v ===== *)
(** [fs/fat/cache.c]: the cache of a file's cluster chain and the functions that
    find a cluster of a file through it.  The cache is a list of runs, most
    recently used first, in place of the links of [cache_lru]; its spin lock is
    held through each step below, except that [fat_cache_add] drops it to
    allocate. *)

From S2P Require Import Prelude Fatent FatentLaws FatAlloc.

(** ** Data *)

Definition FAT_MAX_CACHE : Z := 8.
Definition FAT_CACHE_VALID : Z := 0.
Definition MSDOS_ROOT_INO : Z := 1.

(** [nr_contig] is the number of clusters that follow the first one on disk as
    in the file. *)
Record fat_cache := FatCacheRun { nr_contig : Z; fcluster : Z; dcluster : Z }.

Record fat_cache_id := Cid { cid_id : Z; cid_contig : Z; cid_fcluster : Z; cid_dcluster : Z }.

(** Members of [struct inode] and [struct msdos_inode_info]. *)
Record finode := Finode {
  cache_lru : list fat_cache;
  nr_caches : Z;
  cache_valid_id : Z;
  i_start : Z;
  i_logstart : Z;
  i_blocks : Z;
  mmu_private : Z;
  i_size : Z;
  i_ino : Z;
  is_dirsync : bool;
  is_dir : bool;
  i_dirty : bool
}.

Definition set_lru l n i := Finode l n (cache_valid_id i) (i_start i) (i_logstart i) (i_blocks i) (mmu_private i) (i_size i) (i_ino i) (is_dirsync i) (is_dir i) (i_dirty i).
Definition set_valid_id v i := Finode (cache_lru i) (nr_caches i) v (i_start i) (i_logstart i) (i_blocks i) (mmu_private i) (i_size i) (i_ino i) (is_dirsync i) (is_dir i) (i_dirty i).
Definition set_start v w i := Finode (cache_lru i) (nr_caches i) (cache_valid_id i) v w (i_blocks i) (mmu_private i) (i_size i) (i_ino i) (is_dirsync i) (is_dir i) (i_dirty i).
Definition set_blocks v i := Finode (cache_lru i) (nr_caches i) (cache_valid_id i) (i_start i) (i_logstart i) v (mmu_private i) (i_size i) (i_ino i) (is_dirsync i) (is_dir i) (i_dirty i).
Definition set_mmu v i := Finode (cache_lru i) (nr_caches i) (cache_valid_id i) (i_start i) (i_logstart i) (i_blocks i) v (i_size i) (i_ino i) (is_dirsync i) (is_dir i) (i_dirty i).
Definition set_size v i := Finode (cache_lru i) (nr_caches i) (cache_valid_id i) (i_start i) (i_logstart i) (i_blocks i) (mmu_private i) v (i_ino i) (is_dirsync i) (is_dir i) (i_dirty i).
Definition mark_inode_dirty i := Finode (cache_lru i) (nr_caches i) (cache_valid_id i) (i_start i) (i_logstart i) (i_blocks i) (mmu_private i) (i_size i) (i_ino i) (is_dirsync i) (is_dir i) true.

(** More of the super block: what the cluster arithmetic reads. *)
Record layout := Layout {
  sec_per_clus : Z;
  cluster_bits : Z;
  dir_start : Z;
  dir_entries : Z;
  dir_per_block_bits : Z;
  data_start : Z;
  fs_maxbytes : Z
}.

(** ** The list *)

(** [fat_cache_update_lru] on the run at an index. *)
Definition fat_cache_update_lru (k : nat) (l : list fat_cache) : list fat_cache :=
  match l !! k with Some p => p :: delete k l | None => l end.

(** The loop of [fat_cache_lookup] from index [k] on, with the hit so far. *)
Fixpoint lookup_loop (l : list fat_cache) (k : nat) (fclus : Z) (hit : option (nat * fat_cache)) (offset : Z)
    : option (nat * fat_cache) * Z :=
  match l with
  | [] => (hit, offset)
  | p :: l =>
    if (fcluster p <=? fclus) && (match hit with Some (_, h) => fcluster h | None => 0 end <? fcluster p) then
      if fcluster p + nr_contig p <? fclus then lookup_loop l (S k) fclus (Some (k, p)) (nr_contig p)
      else (Some (k, p), fclus - fcluster p)
    else lookup_loop l (S k) fclus hit offset
  end.

(** The result, and on a hit the identity of the run with the cached pair. *)
Definition fat_cache_lookup (ino : finode) (fclus : Z) : Z * option (fat_cache_id * Z * Z) * finode :=
  let '(hit, offset) := lookup_loop (cache_lru ino) 0 fclus None (-1) in
  match hit with
  | Some (k, h) =>
    (offset, Some (Cid (cache_valid_id ino) (nr_contig h) (fcluster h) (dcluster h), fcluster h + offset, dcluster h + offset),
     set_lru (fat_cache_update_lru k (cache_lru ino)) (nr_caches ino) ino)
  | None => (offset, None, ino)
  end.

(** The index of the run that starts where [new] does, extended. *)
Fixpoint fat_cache_merge (l : list fat_cache) (new : fat_cache_id) : outcome (option nat * list fat_cache) :=
  match l with
  | [] => Ret (None, [])
  | p :: l =>
    if fcluster p =? cid_fcluster new then
      if negb (dcluster p =? cid_dcluster new) then Bug
      else Ret (Some O, FatCacheRun (Z.max (cid_contig new) (nr_contig p)) (fcluster p) (dcluster p) :: l)
    else '(r, l) ← fat_cache_merge l new; Ret (option_map S r, p :: l)
  end.

Definition run_of (new : fat_cache_id) : fat_cache := FatCacheRun (cid_contig new) (cid_fcluster new) (cid_dcluster new).

(** [alloc] tells whether the allocation succeeds (its result is not checked) and
    [sleep] is what other tasks do to the inode while it may sleep. *)
Definition fat_cache_add (alloc : bool) (sleep : finode → finode) (ino : finode) (new : fat_cache_id) : outcome finode :=
  if cid_fcluster new =? -1 then Ret ino else
  if negb (cid_id new =? FAT_CACHE_VALID) && negb (cid_id new =? cache_valid_id ino) then Ret ino else
  '(r, l) ← fat_cache_merge (cache_lru ino) new;
  match r with
  | Some k => Ret (set_lru (fat_cache_update_lru k l) (nr_caches ino) ino)
  | None =>
    if nr_caches ino <? FAT_MAX_CACHE then
      let ino := sleep (set_lru l (nr_caches ino + 1) ino) in
      '(r, l) ← fat_cache_merge (cache_lru ino) new;
      match r with
      | Some k => if alloc then Ret (set_lru (fat_cache_update_lru k l) (nr_caches ino - 1) ino) else Undef
      | None => if alloc then Ret (set_lru (run_of new :: l) (nr_caches ino) ino) else Undef
      end
    else match last l with
         | Some _ => Ret (set_lru (run_of new :: removelast l) (nr_caches ino) ino)
         | None => Undef
         end
  end.

(** [__fat_cache_inval_inode], its loop taken in one step. *)
Definition fat_cache_inval_inode (ino : finode) : finode :=
  let v := u32 (cache_valid_id ino + 1) in
  let v := if v =? FAT_CACHE_VALID then v + 1 else v in
  set_valid_id v (set_lru [] (nr_caches ino - Z.of_nat (length (cache_lru ino))) ino).

(** [cache_contiguous] and [cache_init] *)
Definition cache_init (fclus dclus : Z) : fat_cache_id := Cid FAT_CACHE_VALID 0 fclus dclus.

Definition cache_contiguous (cid : fat_cache_id) (dclus : Z) : bool * fat_cache_id :=
  let cid := Cid (cid_id cid) (cid_contig cid + 1) (cid_fcluster cid) (cid_dcluster cid) in
  (cid_dcluster cid + cid_contig cid =? dclus, cid).

(** ** Clusters of a file *)

Section file.
Context (sb : sb_info) (lay : layout) (ops : fatent_operations) (alloc : bool) (sleep : finode → finode).

Definition limit : Z := Z.shiftr (fs_maxbytes lay) (cluster_bits lay).

(** The walk along the chain from the pair the cache gave. *)
Fixpoint get_loop (n : nat) (cluster fclus dclus : Z) (cid : fat_cache_id) (fe : fat_entry) (ino : finode) (s : fatfs)
    : outcome (Z * Z * Z * finode * fatfs) :=
  match n with
  | O => NoFuel
  | S n =>
    if negb (fclus <? cluster) then ino ← fat_cache_add alloc sleep ino cid; Ret (0, fclus, dclus, ino, s) else
    if limit <? fclus then Ret (- EIO, fclus, dclus, ino, fat_fs_panic s) else
    '(nr, fe, s) ← fat_ent_read sb ops fe dclus s;
    if nr <? 0 then Ret (nr, fclus, dclus, ino, s) else
    if nr =? FAT_ENT_FREE then Ret (- EIO, fclus, dclus, ino, fat_fs_panic s) else
    if nr =? FAT_ENT_EOF then ino ← fat_cache_add alloc sleep ino cid; Ret (nr, fclus, dclus, ino, s) else
    let fclus := fclus + 1 in
    let '(contiguous, cid) := cache_contiguous cid nr in
    get_loop n cluster fclus nr (if contiguous then cid else cache_init fclus nr) fe ino s
  end.

(** The loop turns at most once for each number up to the limit. *)
Definition fat_get_cluster (ino : finode) (cluster : Z) (s : fatfs) : outcome (Z * Z * Z * finode * fatfs) :=
  if i_start ino =? 0 then Bug else
  if cluster =? 0 then Ret (0, 0, i_start ino, ino, s) else
  let '(r, hit, ino) := fat_cache_lookup ino cluster in
  let '(cid, fclus, dclus) := match hit with Some h => h | None => (cache_init (-1) (-1), 0, i_start ino) end in
  let cid := if r <? 0 then cache_init (-1) (-1) else cid in
  get_loop (S (S (Z.to_nat (limit + 1)))) cluster fclus dclus cid fatent_init ino s.

Definition fat_bmap_cluster (ino : finode) (cluster : Z) (s : fatfs) : outcome (Z * finode * fatfs) :=
  if i_start ino =? 0 then Ret (0, ino, s) else
  '(ret, _, dclus, ino, s) ← fat_get_cluster ino cluster s;
  if ret <? 0 then Ret (ret, ino, s) else
  if ret =? FAT_ENT_EOF then Ret (- EIO, ino, fat_fs_panic s) else Ret (dclus, ino, s).

Definition fat_clus_to_blknr (clus : Z) : Z := u64 ((clus - FAT_START_ENT) * sec_per_clus lay + data_start lay).

(** The result with [phys] and [mapped_blocks]. *)
Definition fat_bmap (ino : finode) (sector : Z) (s : fatfs) : outcome (Z * Z * Z * finode * fatfs) :=
  if negb (fat_bits sb =? 32) && (i_ino ino =? MSDOS_ROOT_INO) then
    Ret (if sector <? Z.shiftr (dir_entries lay) (dir_per_block_bits lay)
         then (0, sector + dir_start lay, 1, ino, s) else (0, 0, 0, ino, s))
  else
    let last_block := Z.shiftr (mmu_private ino + (s_blocksize sb - 1)) (s_blocksize_bits sb) in
    if last_block <=? sector then Ret (0, 0, 0, ino, s) else
    let cluster := s32 (Z.shiftr sector (cluster_bits lay - s_blocksize_bits sb)) in
    let offset := Z.land sector (sec_per_clus lay - 1) in
    '(cluster, ino, s) ← fat_bmap_cluster ino cluster s;
    Ret (if cluster <? 0 then (cluster, 0, 0, ino, s)
         else if cluster =? 0 then (0, 0, 0, ino, s)
         else (0, fat_clus_to_blknr cluster + offset, Z.min (sec_per_clus lay - offset) (last_block - sector), ino, s)).
End file.

(** ** What the cache promises

    [cl] is the chain of the file. *)

Section cached_chain.
Context (cl : list Z).

(** The cluster of the file at a place. *)
Definition at_place (f : Z) : option Z := if f <? 0 then None else cl !! Z.to_nat f.

(** A run is a part of the chain that is contiguous on disk. *)
Definition run_ok (p : fat_cache) : Prop :=
  1 ≤ fcluster p ∧ 0 ≤ nr_contig p ∧ ∀ j, 0 ≤ j ≤ nr_contig p → at_place (fcluster p + j) = Some (dcluster p + j).

(** All runs are true, and the counter counts them with [k] allocations in
    flight. *)
Definition cache_ok (k : Z) (ino : finode) : Prop :=
  Forall run_ok (cache_lru ino) ∧ nr_caches ino = Z.of_nat (length (cache_lru ino)) + k.

(** Everything but the cache. *)
Definition same_file (a b : finode) : Prop := set_valid_id 0 (set_lru [] 0 a) = set_valid_id 0 (set_lru [] 0 b).

(** Other tasks may add to the cache of the same chain while one sleeps. *)
Definition sleep_ok (sleep : finode → finode) : Prop := ∀ ino, cache_ok 1 ino → cache_ok 1 (sleep ino) ∧ same_file ino (sleep ino).

Lemma update_lru_perm k l p : l !! k = Some p → fat_cache_update_lru k l ≡ₚ l.
Proof. intros Hk. unfold fat_cache_update_lru. rewrite Hk. symmetry. by apply delete_Permutation. Qed.

Lemma lookup_loop_spec l k fclus hit offset all :
  (∀ j p, l !! j = Some p → all !! (k + j)%nat = Some p) → Forall run_ok all →
  match hit with
  | Some (i, h) => all !! i = Some h ∧ fcluster h ≤ fclus ∧ offset = nr_contig h ∧ fcluster h + nr_contig h < fclus
  | None => offset = -1
  end →
  match lookup_loop l k fclus hit offset with
  | (Some (i, h), off) => all !! i = Some h ∧ run_ok h ∧ 0 ≤ off ≤ nr_contig h ∧ fcluster h + off ≤ fclus ∧
                          (fcluster h + off < fclus → off = nr_contig h)
  | (None, off) => off = -1
  end.
Proof.
  intros Hall Hok. revert k hit offset Hall. induction l as [|p l IH]; intros k hit offset Hall Hh; cbn [lookup_loop].
  - destruct hit as [[i h]|]; [|done]. destruct Hh as (Hi & ? & -> & ?).
    assert (run_ok h) as Hr by (by eapply Forall_lookup_1). pose proof Hr as (? & ? & _). split_and!; done || lia.
  - assert (all !! k = Some p) as Hp by (specialize (Hall O p eq_refl); by rewrite Nat.add_0_r in Hall).
    assert (∀ j q, l !! j = Some q → all !! (S k + j)%nat = Some q) as Hall'.
    { intros j q Hj. specialize (Hall (S j) q Hj). by replace (S k + j)%nat with (k + S j)%nat by lia. }
    assert (run_ok p) as Hr by (by eapply Forall_lookup_1). pose proof Hr as (? & ? & _).
    destruct (Z.leb_spec (fcluster p) fclus); cbn [andb]; [|by apply IH].
    destruct (_ <? fcluster p); [|by apply IH].
    destruct (Z.ltb_spec (fcluster p + nr_contig p) fclus); [apply IH; [done|]; split_and!; done || lia|].
    split_and!; done || lia.
Qed.

Lemma cache_lookup_spec ino fclus :
  cache_ok 0 ino →
  match fat_cache_lookup ino fclus with
  | (r, Some (cid, f, d), ino') => 0 ≤ r ∧ run_ok (run_of cid) ∧ 1 ≤ f ≤ fclus ∧ at_place f = Some d ∧
      (f < fclus → cid_fcluster cid + cid_contig cid = f) ∧ cache_ok 0 ino' ∧ same_file ino ino'
  | (r, None, ino') => r = -1 ∧ ino' = ino
  end.
Proof.
  intros [Hr Hn]. unfold fat_cache_lookup.
  pose proof (lookup_loop_spec (cache_lru ino) 0 fclus None (-1) (cache_lru ino) ltac:(done) Hr eq_refl) as H.
  destruct (lookup_loop _ _ _ _ _) as [[[k h]|] off]; [|done]. destruct H as (Hk & (H1 & H2 & H3) & Ho & Hle & Hnear).
  pose proof (update_lru_perm k _ h Hk) as Hp. split; [lia|]. split; [done|]. split; [lia|]. split; [by apply H3|].
  split; [cbn; intros; rewrite <- Hnear by lia; lia|]. split; [|done].
  split; cbn [cache_lru nr_caches set_lru]; [by rewrite Hp|]. by rewrite Hn, Hp.
Qed.

Lemma merge_spec l new :
  Forall run_ok l → run_ok (run_of new) →
  ∃ r l', fat_cache_merge l new = Ret (r, l') ∧ Forall run_ok l' ∧ length l' = length l ∧
    match r with Some k => ∃ p, l' !! k = Some p | None => l' = l end.
Proof.
  intros Hl Hn. induction Hl as [|p l Hp Hl IH]; cbn [fat_cache_merge]; [by exists None, []|].
  destruct (Z.eqb_spec (fcluster p) (cid_fcluster new)) as [E|E].
  - destruct Hp as (P1 & P2 & P3), Hn as (N1 & N2 & N3). cbn [run_of fcluster nr_contig dcluster] in *.
    pose proof (P3 0 ltac:(lia)) as A. pose proof (N3 0 ltac:(lia)) as B. rewrite E in A. rewrite A in B.
    assert (dcluster p = cid_dcluster new) as Ed by (injection B; lia). rewrite Ed, Z.eqb_refl. cbn [negb].
    eexists _, _. split; [reflexivity|]. split; [|split; [done|by eexists]].
    constructor; [|done]. split; [done|]. cbn [fcluster nr_contig dcluster]. split; [lia|]. intros j Hj.
    destruct (Z.max_spec (cid_contig new) (nr_contig p)) as [[? Em]|[? Em]]; rewrite Em in Hj.
    + rewrite <- Ed. by apply P3.
    + rewrite E. by apply N3.
  - destruct IH as (r & l' & -> & Hl' & Hlen & Hr). cbn [mbind outcome_bind].
    eexists _, _. split; [reflexivity|]. split; [by constructor|]. split; [simpl; lia|].
    destruct r as [k|]; simpl; [done|by subst].
Qed.

Lemma removelast_ok (l : list fat_cache) p :
  Forall run_ok l → last l = Some p → Forall run_ok (removelast l) ∧ S (length (removelast l)) = length l.
Proof.
  intros Hl [l' ->]%last_Some. rewrite removelast_last, length_app. apply Forall_app in Hl as [? _]. simpl. split; [done|lia].
Qed.

(** A true run or the dummy may be added at any time; [BUG_ON] does not fire. *)
Lemma cache_add_spec sleep ino new :
  sleep_ok sleep → cache_ok 0 ino → (cid_fcluster new = -1 ∨ run_ok (run_of new)) →
  ∃ ino', fat_cache_add true sleep ino new = Ret ino' ∧ cache_ok 0 ino' ∧ same_file ino ino'.
Proof.
  intros Hs [Hr Hn] Hnew. unfold fat_cache_add. destruct (Z.eqb_spec (cid_fcluster new) (-1)); [by exists ino|].
  destruct Hnew as [?|Hnew]; [done|]. destruct (negb _ && negb _); [by exists ino|].
  destruct (merge_spec _ _ Hr Hnew) as (r & l & -> & Hl & El & Hk). cbn [mbind outcome_bind]. destruct r as [k|].
  { destruct Hk as [p Hp]. pose proof (update_lru_perm k l p Hp) as Hperm. eexists. split; [reflexivity|]. split; [|done].
    split; cbn [cache_lru nr_caches set_lru]; [by rewrite Hperm|]. rewrite Hperm. lia. }
  destruct (Z.ltb_spec (nr_caches ino) FAT_MAX_CACHE) as [Hlt|Hge].
  - set (mid := set_lru l (nr_caches ino + 1) ino).
    destruct (Hs mid) as [[Hr2 Hn2] Hf2]; [split; [exact Hl|cbn; lia]|].
    destruct (merge_spec _ _ Hr2 Hnew) as (r & l2 & -> & Hl2 & El2 & Hk2). cbn [mbind outcome_bind]. destruct r as [k|].
    + destruct Hk2 as [p Hp]. pose proof (update_lru_perm k l2 p Hp) as Hperm. eexists. split; [reflexivity|].
      split; [|exact Hf2]. split; cbn [cache_lru nr_caches set_lru]; [by rewrite Hperm|]. rewrite Hperm. lia.
    + eexists. split; [reflexivity|]. split; [|exact Hf2]. split; cbn [cache_lru nr_caches set_lru]; [by constructor|]. simpl. lia.
  - destruct (last l) as [p|] eqn:Ep.
    + destruct (removelast_ok l p Hl Ep) as [Hrl Hll]. eexists. split; [reflexivity|]. split; [|done].
      split; cbn [cache_lru nr_caches set_lru]; [by constructor|]. simpl. lia.
    + apply last_None in Ep. rewrite Ep in El. simpl in El. unfold FAT_MAX_CACHE in Hge. lia.
Qed.
End cached_chain.

(** ** Finding a cluster *)

Section walk.
Context (sb : sb_info) (lay : layout) (ops : fatent_operations) `{!FatentLaws sb ops}.
Context (sleep : finode → finode) (cl : list Z) (s : fatfs).
Context (Hcr : cached_reads sb ops) (Hw : wf sb s) (Hs : sleep_ok cl sleep).
Context (Hlim : Z.of_nat (length cl) ≤ limit lay + 1).

Lemma place_lookup f d : at_place cl f = Some d → 0 ≤ f < Z.of_nat (length cl) ∧ cl !! Z.to_nat f = Some d.
Proof.
  unfold at_place. destruct (Z.ltb_spec f 0); [done|]. intros E. pose proof (lookup_lt_Some _ _ _ E). split; [lia|done].
Qed.

(** The clusters of [cl] follow one another in the table ... *)
Definition linked : Prop := ∀ f d, at_place cl f = Some d →
  ent_ok sb d ∧ ∀ d', at_place cl (f + 1) = Some d' → view s d = d'.

(** ... and the last one is marked as the end. *)
Definition ended : Prop := ∀ f d, at_place cl f = Some d → at_place cl (f + 1) = None → view s d = FAT_ENT_EOF.

Lemma chain_places : chain_in sb ops s cl → linked ∧ ended.
Proof.
  intros [Hnd Hl]. assert (∀ f d, at_place cl f = Some d → ent_ok sb d ∧ view s d = default FAT_ENT_EOF (at_place cl (f + 1))) as H.
  { intros f d (Hf & Hd)%place_lookup. destruct (Hl d (list_elem_of_lookup_2 _ _ _ Hd)) as [Hok Hlk].
    split; [done|]. unfold at_place. destruct (Z.ltb_spec (f + 1) 0); [lia|].
    replace (Z.to_nat (f + 1)) with (S (Z.to_nat f)) by lia. revert Hlk Hd. generalize (Z.to_nat f). clear -Hnd.
    induction cl as [|c l IH]; intros k; [done|]. apply NoDup_cons in Hnd as [Hc Hnd]. simpl.
    destruct k as [|k]; simpl.
    - intros Hlk [= ->]. rewrite decide_True in Hlk by done. injection Hlk as <-. by destruct l.
    - intros Hlk Hd. rewrite decide_False in Hlk by (intros ->; by apply Hc, (list_elem_of_lookup_2 _ k)). by apply IH. }
  split; intros f d Hf; destruct (H f d Hf) as [Hok Hv].
  - split; [done|]. intros d' Hd'. by rewrite Hv, Hd'.
  - intros Hn. by rewrite Hv, Hn.
Qed.

Context (Hlink : linked).

Definition fe_ok (fe : fat_entry) : Prop := fe = fatent_init ∨ ∃ e, ent_ok sb e ∧ fe = canon e.

Lemma read_any fe e : fe_ok fe → ent_ok sb e → fat_ent_read sb ops fe e s = Ret (view s e, canon e, s).
Proof. intros [->|(e1 & He1 & ->)] He; [by apply (read_fresh sb ops)|by apply Hcr]. Qed.

(** The run being built while walking. *)
Definition cid_ok (cluster fclus : Z) (cid : fat_cache_id) : Prop :=
  cid = cache_init (-1) (-1) ∨
  (run_ok cl (run_of cid) ∧ (fclus < cluster → cid_fcluster cid + cid_contig cid = fclus)).

Lemma cid_add cluster fclus cid : cid_ok cluster fclus cid → cid_fcluster cid = -1 ∨ run_ok cl (run_of cid).
Proof. intros [->|[? _]]; [by left|by right]. Qed.

Lemma cid_step cluster fclus d cid :
  cid_ok cluster fclus cid → fclus < cluster → 0 ≤ fclus → at_place cl (fclus + 1) = Some d → 0 < d →
  let '(c, cid') := cache_contiguous cid d in cid_ok cluster (fclus + 1) (if c then cid' else cache_init (fclus + 1) d).
Proof.
  intros Hcid Hlt H0 Hd Hpos. unfold cache_contiguous. cbn [cid_dcluster cid_contig].
  assert (cid_ok cluster (fclus + 1) (cache_init (fclus + 1) d)) as Hinit.
  { right. split; [|cbn; lia]. split; [cbn; lia|]. split; [cbn; lia|]. cbn. intros j Hj. replace j with 0 by lia. by rewrite !Z.add_0_r. }
  destruct (Z.eqb_spec (cid_dcluster cid + (cid_contig cid + 1)) d) as [E|E]; [|done].
  destruct Hcid as [->|[(H1 & H2 & H3) Hf]]; [cbn in E; lia|]. specialize (Hf Hlt). cbn [run_of fcluster nr_contig dcluster] in *.
  right. split; [|cbn; lia]. split; [done|]. split; [cbn; lia|]. cbn. intros j Hj.
  destruct (decide (j = cid_contig cid + 1)) as [->|Hj']; [|apply H3; lia].
  rewrite E. by replace (cid_fcluster cid + (cid_contig cid + 1)) with (fclus + 1) by lia.
Qed.

(** The place the search ends at, and what it returns. *)
Definition place (cluster : Z) : Z := Z.min cluster (Z.of_nat (length cl) - 1).
Definition found_code (cluster : Z) : Z := if cluster <? Z.of_nat (length cl) then 0 else FAT_ENT_EOF.

Lemma get_loop_spec n cluster fclus dclus cid fe ino :
  cluster < Z.of_nat (length cl) ∨ ended →
  fe_ok fe → cache_ok cl 0 ino → cid_ok cluster fclus cid → at_place cl fclus = Some dclus → fclus ≤ cluster →
  (Z.to_nat (limit lay + 1 - fclus) + 1 < n)%nat →
  ∃ d ino', get_loop sb lay ops true sleep n cluster fclus dclus cid fe ino s =
    Ret (found_code cluster, place cluster, d, ino', s) ∧
    at_place cl (place cluster) = Some d ∧ cache_ok cl 0 ino' ∧ same_file ino ino'.
Proof.
  intros Hend. revert fclus dclus cid fe. induction n as [|n IH]; intros fclus dclus cid fe Hfe Hc Hcid Hd Hle Hn; [lia|].
  destruct (place_lookup _ _ Hd) as [Hr _]. destruct (cache_add_spec cl sleep ino cid Hs Hc (cid_add _ _ _ Hcid)) as (ino' & Ha & Hc' & Hf').
  cbn [get_loop]. destruct (Z.ltb_spec fclus cluster) as [Hlt|Hge]; cbn [negb].
  2:{ rewrite Ha. cbn [mbind outcome_bind]. exists dclus, ino'. unfold found_code, place.
      destruct (Z.ltb_spec cluster (Z.of_nat (length cl))); [|lia].
      replace (Z.min cluster (Z.of_nat (length cl) - 1)) with fclus by lia. done. }
  destruct (Z.ltb_spec (limit lay) fclus); [lia|]. destruct (Hlink _ _ Hd) as [Hok Hv].
  rewrite (read_any fe dclus Hfe Hok). cbn [mbind outcome_bind].
  destruct (at_place cl (fclus + 1)) as [d|] eqn:Enext.
  - rewrite (Hv d eq_refl). destruct (Hlink _ _ Enext) as [[Hd1 Hd2] _]. pose proof laws_clusters as Hl.
    unfold FAT_START_ENT in *. destruct (Z.ltb_spec d 0), (Z.eqb_spec d FAT_ENT_FREE), (Z.eqb_spec d FAT_ENT_EOF);
      unfold FAT_ENT_FREE in *; try lia.
    pose proof (cid_step cluster fclus d cid Hcid Hlt ltac:(lia) Enext ltac:(lia)) as Hstep.
    destruct (cache_contiguous cid d) as [c cid']. apply IH; try done; [by right; exists dclus|lia|lia].
  - assert (Z.of_nat (length cl) ≤ fclus + 1) as Hlast.
    { unfold at_place in Enext. destruct (Z.ltb_spec (fclus + 1) 0); [lia|]. apply lookup_ge_None in Enext. lia. }
    destruct Hend as [Hend|Hend]; [lia|]. rewrite (Hend _ _ Hd Enext). change (FAT_ENT_EOF <? 0) with false. change (FAT_ENT_EOF =? FAT_ENT_FREE) with false.
    change (FAT_ENT_EOF =? FAT_ENT_EOF) with true. cbv iota. rewrite Ha. cbn [mbind outcome_bind].
    exists dclus, ino'. unfold found_code, place. destruct (Z.ltb_spec cluster (Z.of_nat (length cl))); [lia|].
    replace (Z.min cluster (Z.of_nat (length cl) - 1)) with fclus by lia. done.
Qed.

Lemma get_cluster_spec ino cluster :
  cluster < Z.of_nat (length cl) ∨ ended →
  head cl = Some (i_start ino) → cache_ok cl 0 ino → 0 ≤ cluster →
  ∃ d ino', fat_get_cluster sb lay ops true sleep ino cluster s = Ret (found_code cluster, place cluster, d, ino', s) ∧
    at_place cl (place cluster) = Some d ∧ cache_ok cl 0 ino' ∧ same_file ino ino'.
Proof.
  intros Hend Hh Hc H0. assert (at_place cl 0 = Some (i_start ino)) as Hat by (unfold at_place; simpl; by rewrite <- head_lookup).
  destruct (place_lookup _ _ Hat) as [Hlen _]. destruct (Hlink _ _ Hat) as [[Hst _] _].
  unfold fat_get_cluster. destruct (Z.eqb_spec (i_start ino) 0); [unfold FAT_START_ENT in Hst; lia|].
  destruct (Z.eqb_spec cluster 0) as [->|Hne].
  { exists (i_start ino), ino. unfold found_code, place. destruct (Z.ltb_spec 0 (Z.of_nat (length cl))); [|lia].
    replace (Z.min 0 (Z.of_nat (length cl) - 1)) with 0 by lia. done. }
  pose proof (cache_lookup_spec cl ino cluster Hc) as Hl.
  destruct (fat_cache_lookup ino cluster) as [[r [[[cid f] d]|]] ino1].
  - destruct Hl as (Hr & Hrun & Hf & Hd & Hnear & Hc1 & Hf1). destruct (Z.ltb_spec r 0); [lia|].
    destruct (get_loop_spec (S (S (Z.to_nat (limit lay + 1)))) cluster f d cid fatent_init ino1) as (d' & ino' & E & ? & ? & Hf');
      [done|by left|done|by right|done|lia|lia|]. exists d', ino'. split; [exact E|]. split_and!; [done..|by unfold same_file in *; rewrite Hf1].
  - destruct Hl as [-> ->]. change (-1 <? 0) with true. cbv iota. apply get_loop_spec; [done|by left|done|by left|done|lia|lia].
Qed.

(** Sectors of a file. *)
Lemma bmap_spec ino sector q d :
  head cl = Some (i_start ino) → cache_ok cl 0 ino → fat_bits sb = 32 ∨ i_ino ino ≠ MSDOS_ROOT_INO →
  s_blocksize_bits sb ≤ cluster_bits lay → sec_per_clus lay = 2 ^ (cluster_bits lay - s_blocksize_bits sb) →
  0 ≤ sector < 2 ^ 31 → q = sector / sec_per_clus lay → at_place cl q = Some d →
  0 ≤ data_start lay < 2 ^ 32 → sec_per_clus lay ≤ 2 ^ 16 →
  let last_block := Z.shiftr (mmu_private ino + (s_blocksize sb - 1)) (s_blocksize_bits sb) in
  sector < last_block →
  ∃ ino', fat_bmap sb lay ops true sleep ino sector s =
    Ret (0, (d - FAT_START_ENT) * sec_per_clus lay + data_start lay + sector mod sec_per_clus lay,
         Z.min (sec_per_clus lay - sector mod sec_per_clus lay) (last_block - sector), ino', s) ∧
    cache_ok cl 0 ino' ∧ same_file ino ino'.
Proof.
  intros Hh Hc Hroot Hbits Hspc Hsec Hq Hd Hdata Hspc16 last_block Hlast. unfold fat_bmap.
  replace (negb (fat_bits sb =? 32) && (i_ino ino =? MSDOS_ROOT_INO)) with false
    by (destruct Hroot as [->|Hr]; [done|destruct (Z.eqb_spec (i_ino ino) MSDOS_ROOT_INO); [done|by rewrite andb_false_r]]).
  fold last_block. destruct (Z.leb_spec last_block sector); [lia|].
  assert (0 < sec_per_clus lay) as Hpos by (rewrite Hspc; apply Z.pow_pos_nonneg; lia).
  assert (s32 (Z.shiftr sector (cluster_bits lay - s_blocksize_bits sb)) = q) as ->.
  { rewrite Z.shiftr_div_pow2, <- Hspc, <- Hq by lia. apply wraps_small; [lia|]. subst q.
    pose proof (Z.div_pos sector (sec_per_clus lay)). pose proof (Z.div_le_upper_bound sector (sec_per_clus lay) sector). nia. }
  assert (Z.land sector (sec_per_clus lay - 1) = sector mod sec_per_clus lay) as ->.
  { replace (sec_per_clus lay - 1) with (Z.ones (cluster_bits lay - s_blocksize_bits sb)) by (rewrite Z.ones_equiv, Hspc; lia).
    rewrite Z.land_ones, <- Hspc by lia. done. }
  destruct (place_lookup _ _ Hd) as [Hql _].
  assert (0 < i_start ino) as Hst.
  { destruct (Hlink 0 (i_start ino)) as [[Hok _] _]; [unfold at_place; simpl; by rewrite <- head_lookup|]. unfold FAT_START_ENT in Hok. lia. }
  unfold fat_bmap_cluster. destruct (Z.eqb_spec (i_start ino) 0); [lia|].
  destruct (get_cluster_spec ino q (or_introl (proj2 Hql)) Hh Hc ltac:(lia)) as (d' & ino' & -> & Hd' & Hc' & Hf'). cbn [mbind outcome_bind].
  unfold found_code, place in *. destruct (Z.ltb_spec q (Z.of_nat (length cl))); [|lia].
  replace (Z.min q (Z.of_nat (length cl) - 1)) with q in Hd' by lia. assert (d' = d) as -> by congruence.
  change (0 <? 0) with false. change (0 =? FAT_ENT_EOF) with false. cbv iota. cbn [mbind outcome_bind].
  destruct (Hlink _ _ Hd) as [[Hd1 Hd2] _]. pose proof laws_clusters as [_ Hmax].
  unfold FAT_START_ENT, FAT_ENT_EOF, EOF_FAT32 in *.
  destruct (Z.ltb_spec d 0), (Z.eqb_spec d 0); try lia. exists ino'. split; [|done]. unfold fat_clus_to_blknr, FAT_START_ENT.
  rewrite wrapu_small by nia. done.
Qed.
End walk.

(** ** Claims *)

(** C25: in the formats where an entry can be read through the buffers of the
    previous one, which the two word formats are and the twelve-bit one is not, and
    for a chain without a cycle: finding a cluster of a file through its cache gives what walking the
    chain from its start gives, whatever true runs the cache holds and whatever
    other tasks add to it meanwhile: the cluster at that place and 0, or past the
    end the last cluster and the end mark.  The cache stays true, at most one entry
    is read per place, and the assertion on merging runs cannot fire. *)
Theorem fat_get_cluster_correct sb lay ops `{!FatentLaws sb ops} sleep cl s ino cluster :
  cached_reads sb ops → wf sb s → chain_in sb ops s cl → sleep_ok cl sleep → Z.of_nat (length cl) ≤ limit lay + 1 →
  head cl = Some (i_start ino) → cache_ok cl 0 ino → 0 ≤ cluster →
  ∃ d ino', fat_get_cluster sb lay ops true sleep ino cluster s = Ret (found_code cl cluster, place cl cluster, d, ino', s) ∧
    at_place cl (place cl cluster) = Some d ∧ cache_ok cl 0 ino' ∧ same_file ino ino'.
Proof.
  intros Hcr Hw Hch Hs Hl Hh Hc H0. destruct (chain_places sb ops cl s Hch). apply (get_cluster_spec sb lay ops); auto.
Qed.

(** [fat_bmap] maps sector [n] of a file to the sector at the same offset in
    the cluster that holds it, and the number of sectors that follow it both in
    the cluster and in the file. *)
Theorem fat_bmap_correct sb lay ops `{!FatentLaws sb ops} sleep cl s ino sector d :
  cached_reads sb ops → wf sb s → chain_in sb ops s cl → sleep_ok cl sleep → Z.of_nat (length cl) ≤ limit lay + 1 →
  head cl = Some (i_start ino) → cache_ok cl 0 ino → fat_bits sb = 32 ∨ i_ino ino ≠ MSDOS_ROOT_INO →
  s_blocksize_bits sb ≤ cluster_bits lay → sec_per_clus lay = 2 ^ (cluster_bits lay - s_blocksize_bits sb) →
  0 ≤ sector < 2 ^ 31 → at_place cl (sector / sec_per_clus lay) = Some d →
  0 ≤ data_start lay < 2 ^ 32 → sec_per_clus lay ≤ 2 ^ 16 →
  let last_block := Z.shiftr (mmu_private ino + (s_blocksize sb - 1)) (s_blocksize_bits sb) in
  sector < last_block →
  ∃ ino', fat_bmap sb lay ops true sleep ino sector s =
    Ret (0, (d - FAT_START_ENT) * sec_per_clus lay + data_start lay + sector mod sec_per_clus lay,
         Z.min (sec_per_clus lay - sector mod sec_per_clus lay) (last_block - sector), ino', s) ∧
    cache_ok cl 0 ino' ∧ same_file ino ino'.
Proof.
  intros Hcr Hw Hch Hs. destruct (chain_places sb ops cl s Hch). intros. by eapply (bmap_spec sb lay ops).
Qed.

(** the check that a run was not invalidated is not repeated after the
    allocation: when the file is truncated while it sleeps, the run of the old
    chain is put into the emptied cache although its number is out of date.  And
    when the allocation fails, its NULL result is used. *)
Theorem fat_cache_add_stale ino new l :
  cid_fcluster new ≠ -1 → cid_id new = cache_valid_id ino → 0 < cache_valid_id ino < 2 ^ 32 →
  fat_cache_merge (cache_lru ino) new = Ret (None, l) → nr_caches ino < FAT_MAX_CACHE →
  (∃ ino', fat_cache_add true fat_cache_inval_inode ino new = Ret ino' ∧
     cache_lru ino' = [run_of new] ∧ cache_valid_id ino' ≠ cid_id new) ∧
  (∀ sleep, (∃ r, fat_cache_merge (cache_lru (sleep (set_lru l (nr_caches ino + 1) ino))) new = Ret r) →
     fat_cache_add false sleep ino new = Undef).
Proof.
  intros Hf Hid Hv Hm Hn. unfold fat_cache_add. destruct (Z.eqb_spec (cid_fcluster new) (-1)); [done|].
  rewrite Hid, Z.eqb_refl, andb_false_r, Hm. cbn [mbind outcome_bind]. destruct (Z.ltb_spec (nr_caches ino) FAT_MAX_CACHE); [|lia]. split.
  - cbn [fat_cache_inval_inode cache_lru set_valid_id set_lru fat_cache_merge mbind outcome_bind].
    eexists. split; [reflexivity|]. split; [done|]. cbn. unfold FAT_CACHE_VALID, wrapu.
    destruct (Z.eqb_spec ((cache_valid_id ino + 1) mod 2 ^ 32) 0); Z.div_mod_to_equations; lia.
  - intros sleep [[r l'] ->]. cbn [mbind outcome_bind]. by destruct r.
Qed.

(** ** Examples *)

(** A file in the clusters 5 and 7 of the sample table, cluster 7 cached. *)
Definition sample_inode : finode := Finode [FatCacheRun 0 1 7] 1 3 5 5 2 1000 1000 9 false false false.
Definition sample_layout : layout := Layout 1 9 4 16 4 20 (2 ^ 20).

Lemma file_chain : chain_in Sample.sb16 fat16_ops (FatentLaws0 := Sample.laws16) (Sample.fs16 4) [5; 7].
Proof.
  split; [apply (bool_decide_unpack _); by vm_compute|].
  intros e [-> | ->%list_elem_of_singleton]%elem_of_cons; (split; [by vm_compute|by vm_compute]).
Qed.

Lemma sample_cache : cache_ok [5; 7] 0 sample_inode.
Proof.
  split; [|done]. apply Forall_singleton. split; [done|]. split; [done|]. cbn. intros j Hj. replace j with 0 by lia. done.
Qed.

Lemma sample_sleep cl : sleep_ok cl (λ i, i).
Proof. by intros ino. Qed.

Definition sample_cached : cached_reads Sample.sb16 fat16_ops (FatentLaws0 := Sample.laws16) :=
  cached_fat16 Sample.sb16 Sample.geo16 Sample.fit16 Sample.max16 eq_refl.

Lemma fat_get_cluster_correct_witness :
  ∃ d ino', fat_get_cluster Sample.sb16 sample_layout fat16_ops true (λ i, i) sample_inode 1 (Sample.fs16 4) = Ret (0, 1, d, ino', Sample.fs16 4).
Proof.
  destruct (fat_get_cluster_correct Sample.sb16 sample_layout fat16_ops (FatentLaws0 := Sample.laws16) (λ i, i) [5; 7] (Sample.fs16 4)
    sample_inode 1 sample_cached (Sample.wf16 4) file_chain (sample_sleep _) ltac:(by vm_compute) eq_refl sample_cache ltac:(lia))
    as (d & ino' & E & _).
  exists d, ino'. exact E.
Defined.

Lemma fat_bmap_correct_witness :
  ∃ ino', fat_bmap Sample.sb16 sample_layout fat16_ops true (λ i, i) sample_inode 1 (Sample.fs16 4) = Ret (0, 25, 1, ino', Sample.fs16 4).
Proof.
  pose proof (fat_bmap_correct Sample.sb16 sample_layout fat16_ops (FatentLaws0 := Sample.laws16) (λ i, i) [5; 7] (Sample.fs16 4)
    sample_inode 1 7 sample_cached (Sample.wf16 4) file_chain (sample_sleep _)) as H.
  destruct H as (ino' & E & _); [by vm_compute|reflexivity|exact sample_cache|right; by vm_compute|by vm_compute|reflexivity|lia|reflexivity|
    split; by vm_compute|by vm_compute|by vm_compute|].
  exists ino'. rewrite E. reflexivity.
Defined.

Lemma fat_cache_add_stale_witness :
  ∃ ino', fat_cache_add true fat_cache_inval_inode sample_inode (Cid 3 0 2 9) = Ret ino' ∧ cache_lru ino' = [FatCacheRun 0 2 9] ∧ cache_valid_id ino' ≠ 3.
Proof.
  refine (proj1 (fat_cache_add_stale sample_inode (Cid 3 0 2 9) [FatCacheRun 0 1 7] _ eq_refl _ eq_refl _)).
  - by vm_compute.
  - by vm_compute.
  - by vm_compute.
Defined.
