(* ===== verification/FatFile.v ===== *)
(** The files of a FAT file system: [fat_chain_add] of [fs/fat/misc.c],
    [fat_add_cluster], [__fat_get_block] and [fat_get_block] of [fs/fat/inode.c],
    [fat_free] and [fat_truncate] of [fs/fat/file.c], on top of the table and the
    cluster cache. *)

From S2P Require Import Prelude Fatent FatentLaws FatAlloc FatCache.

Section file.
Context (env : env) (sb : sb_info) (lay : layout) (ops : fatent_operations).

(** What the functions get from the rest of the kernel: whether the inode is
    written synchronously, how writing it ends, whether a cache entry can be
    allocated and what others do meanwhile. *)
Context (needs_sync : bool) (sync_inode : Z) (alloc : bool) (sleep : finode → finode).

(** [cluster_bits - 9] turns clusters into units of 512 bytes. *)
Definition clus_shift : Z := cluster_bits lay - 9.

(** ** Appending *)

(** The place after the last cluster and the last cluster, 0 for an empty file. *)
Definition chain_end (ino : finode) (s : fatfs) : outcome (Z * Z * Z * finode * fatfs) :=
  if i_start ino =? 0 then Ret (0, 0, 0, ino, s) else
  '(ret, fclus, dclus, ino, s) ← fat_get_cluster sb lay ops alloc sleep ino FAT_ENT_EOF s;
  if ret <? 0 then Ret (ret, 0, 0, ino, s) else Ret (0, fclus + 1, dclus, ino, s).

(** The new cluster entered after [last], or as the first one. *)
Definition chain_link (last new_dclus : Z) (ino : finode) (s : fatfs) : outcome (Z * finode * fatfs) :=
  if negb (last =? 0) then
    '(ret, fe, s) ← fat_ent_read sb ops fatent_init last s;
    '(ret, s) ← (if 0 <=? ret then fat_ent_write env sb ops fe new_dclus needs_sync s else Ret (ret, s));
    Ret (if ret <? 0 then ret else 0, ino, s)
  else
    let ino := set_start new_dclus new_dclus ino in
    Ret (if is_dir ino && is_dirsync ino then (sync_inode, ino, s) else (0, mark_inode_dirty ino, s)).

Definition fat_chain_add (new_dclus nr_cluster : Z) (ino : finode) (s : fatfs) : outcome (Z * finode * fatfs) :=
  '(ret, new_fclus, last, ino, s) ← chain_end ino s;
  if ret <? 0 then Ret (ret, ino, s) else
  '(ret, ino, s) ← chain_link last new_dclus ino s;
  if negb (ret =? 0) then Ret (ret, ino, s) else
  let '(ino, s) := if negb (new_fclus =? Z.shiftr (i_blocks ino) clus_shift)
                   then (fat_cache_inval_inode ino, fat_fs_panic s) else (ino, s) in
  Ret (0, set_blocks (u64 (i_blocks ino + Z.shiftl nr_cluster clus_shift)) ino, s).

Definition fat_add_cluster (ino : finode) (s : fatfs) : outcome (Z * finode * fatfs) :=
  '(err, cl, s) ← fat_alloc_clusters env sb ops needs_sync 1 s;
  if negb (err =? 0) then Ret (err, ino, s) else
  match cl with
  | [] => Undef
  | cluster :: _ =>
    '(err, ino, s) ← fat_chain_add cluster 1 ino s;
    if negb (err =? 0) then '(_, s) ← fat_free_clusters env sb ops cluster s; Ret (err, ino, s)
    else Ret (0, ino, s)
  end.

(** ** Mapping a block *)

(** The result, the block the buffer is mapped to (none for a hole), whether it
    is new, and [max_blocks]. *)
Definition __fat_get_block (iblock max_blocks : Z) (create : bool) (ino : finode) (s : fatfs)
    : outcome (Z * option Z * bool * Z * finode * fatfs) :=
  '(err, phys, mapped_blocks, ino, s) ← fat_bmap sb lay ops alloc sleep ino iblock s;
  if negb (err =? 0) then Ret (err, None, false, max_blocks, ino, s) else
  if negb (phys =? 0) then Ret (0, Some phys, false, Z.min mapped_blocks max_blocks, ino, s) else
  if negb create then Ret (0, None, false, max_blocks, ino, s) else
  if negb (iblock =? Z.shiftr (mmu_private ino) (s_blocksize_bits sb)) then
    Ret (- EIO, None, false, max_blocks, ino, fat_fs_panic s) else
  let offset := Z.land iblock (sec_per_clus lay - 1) in
  '(err, ino, s) ← (if offset =? 0 then fat_add_cluster ino s else Ret (0, ino, s));
  if negb (err =? 0) then Ret (err, None, false, max_blocks, ino, s) else
  let max_blocks := Z.min (sec_per_clus lay - offset) max_blocks in
  let ino := set_mmu (mmu_private ino + Z.shiftl max_blocks (s_blocksize_bits sb)) ino in
  '(err, phys, mapped_blocks, ino, s) ← fat_bmap sb lay ops alloc sleep ino iblock s;
  if negb (err =? 0) then Ret (err, None, false, max_blocks, ino, s) else
  if phys =? 0 then Bug else
  if negb (max_blocks =? mapped_blocks) then Bug else
  Ret (0, Some phys, true, max_blocks, ino, s).

(** [b_size] is the size of the buffer in bytes, before and after. *)
Definition fat_get_block (iblock b_size : Z) (create : bool) (ino : finode) (s : fatfs)
    : outcome (Z * option Z * bool * Z * finode * fatfs) :=
  '(err, phys, new, max_blocks, ino, s) ← __fat_get_block iblock (Z.shiftr b_size (s_blocksize_bits sb)) create ino s;
  if negb (err =? 0) then Ret (err, phys, new, b_size, ino, s)
  else Ret (0, phys, new, Z.shiftl max_blocks (s_blocksize_bits sb), ino, s).

(** ** Truncating *)

(** The end mark written after the first [skip] clusters: the result, or the
    cluster to free from. *)
Definition cut_chain (skip : Z) (ino : finode) (s : fatfs) : outcome ((Z + Z) * finode * fatfs) :=
  '(ret, _, dclus, ino, s) ← fat_get_cluster sb lay ops alloc sleep ino (skip - 1) s;
  if ret <? 0 then Ret (inl ret, ino, s) else
  if ret =? FAT_ENT_EOF then Ret (inl 0, ino, s) else
  '(ret, fe, s) ← fat_ent_read sb ops fatent_init dclus s;
  if ret =? FAT_ENT_EOF then Ret (inl 0, ino, s) else
  '(ret, s) ← (if ret =? FAT_ENT_FREE then Ret (- EIO, fat_fs_panic s)
               else if 0 <? ret then
                 '(err, s) ← fat_ent_write env sb ops fe FAT_ENT_EOF (is_dirsync ino) s;
                 Ret (if err =? 0 then ret else err, s)
               else Ret (ret, s));
  Ret (if ret <? 0 then inl ret else inr ret, ino, s).

(** The times and the archive attribute are not kept. *)
Definition fat_free (skip : Z) (ino : finode) (s : fatfs) : outcome (Z * finode * fatfs) :=
  if i_start ino =? 0 then Ret (0, ino, s) else
  let ino := fat_cache_inval_inode ino in
  let start := i_start ino in
  let logstart := i_logstart ino in
  let ino := if skip =? 0 then set_start 0 0 ino else ino in
  let '(err, ino) := if is_dirsync ino then (sync_inode, ino) else (0, mark_inode_dirty ino) in
  if negb (err =? 0) then Ret (err, set_start start logstart ino, s) else
  '(r, ino, s) ← (if negb (skip =? 0) then cut_chain skip ino s else Ret (inr start, ino, s));
  match r with
  | inl ret => Ret (ret, ino, s)
  | inr free_start =>
    let ino := set_blocks (u64 (Z.shiftl skip clus_shift)) ino in
    '(err, s) ← fat_free_clusters env sb ops free_start s; Ret (err, ino, s)
  end.

(** The result of [fat_free] is dropped; flushing writes nothing new. *)
Definition fat_truncate (ino : finode) (s : fatfs) : outcome (finode * fatfs) :=
  let ino := if i_size ino <? mmu_private ino then set_mmu (i_size ino) ino else ino in
  let nr_clusters := s32 (Z.shiftr (i_size ino + (2 ^ cluster_bits lay - 1)) (cluster_bits lay)) in
  '(_, ino, s) ← fat_free nr_clusters ino s; Ret (ino, s).
End file.

(** ** Files

    [cl] is the chain of clusters of the file. *)

Section files.
Context (env : env) (sb : sb_info) (lay : layout) (ops : fatent_operations) `{!FatentLaws sb ops}.
Context (sleep : finode → finode) (Hq : quiet env) (Hcr : cached_reads sb ops).
Context (Hbits : 9 ≤ cluster_bits lay ≤ 31).

(** The inode describes the chain: its start, its runs and its size on disk. *)
Definition file_ok (cl : list Z) (ino : finode) (s : fatfs) : Prop :=
  chain_in sb ops s cl ∧ i_start ino = default 0 (head cl) ∧ cache_ok cl 0 ino ∧
  i_blocks ino = Z.of_nat (length cl) * 2 ^ clus_shift lay.

Lemma clus_shift_bounds : 0 ≤ clus_shift lay ≤ 22.
Proof. unfold clus_shift. lia. Qed.

Lemma chain_short s cl : chain_in sb ops s cl → Z.of_nat (length cl) < FAT_ENT_EOF.
Proof. intros H%(chain_length sb ops). pose proof laws_clusters. unfold FAT_START_ENT in *. lia. Qed.

Lemma chain_frame s t cl : chain_in sb ops s cl → (∀ e, e ∈ cl → view t e = view s e) → chain_in sb ops t cl.
Proof. intros [Hd Hl] Hv. split; [done|]. intros e He. rewrite Hv by done. by apply Hl. Qed.

Lemma chain_pos s cl e : chain_in sb ops s cl → e ∈ cl → 0 < view s e.
Proof. intros [_ Hl] He. eapply (link_val sb cl e); [intros c Hc; by apply Hl|by apply Hl]. Qed.

Lemma chain_snoc s t c cl x :
  chain_in sb ops s (c :: cl) → ent_ok sb x → x ∉ c :: cl → view t x = FAT_ENT_EOF → view t (lastd c cl) = x →
  (∀ e, e ∈ c :: cl → e ≠ lastd c cl → view t e = view s e) → chain_in sb ops t (c :: cl ++ [x]).
Proof.
  intros [Hd Hl] Hx Hn Vx Vl Vo. split.
  - change (c :: cl ++ [x]) with ((c :: cl) ++ [x]). apply NoDup_app. set_solver by (by apply NoDup_singleton).
  - intros e He. rewrite link_snoc by done. change (c :: cl ++ [x]) with ((c :: cl) ++ [x]) in He.
    apply elem_of_app in He as [He| ->%list_elem_of_singleton].
    + assert (e ≠ x) by (intros ->; done). rewrite decide_False by done. destruct (Hl e He) as [Hok Hlk]. split; [done|].
      destruct (decide (e = lastd c cl)) as [->|Hne]; [by rewrite Vl|by rewrite Vo].
    + rewrite decide_True by done. by rewrite Vx.
Qed.

Lemma run_mono cl cl' p : run_ok cl p → run_ok (cl ++ cl') p.
Proof.
  intros (H1 & H2 & H3). split; [done|]. split; [done|]. intros j Hj. specialize (H3 j Hj).
  unfold at_place in *. destruct (_ <? 0); [done|]. by apply lookup_app_l_Some.
Qed.

Lemma cache_mono cl cl' ino : cache_ok cl 0 ino → cache_ok (cl ++ cl') 0 ino.
Proof. intros [Hr Hn]. split; [|done]. eapply Forall_impl; [exact Hr|]. intros p. apply run_mono. Qed.

(** *** Appending *)

Lemma at_last c cl : at_place (c :: cl) (Z.of_nat (length cl)) = Some (lastd c cl).
Proof.
  unfold at_place. destruct (Z.ltb_spec (Z.of_nat (length cl)) 0); [lia|]. rewrite Nat2Z.id. clear.
  revert c. induction cl as [|c' cl IH]; intros c; [done|]. apply IH.
Qed.

Lemma at_past (cl : list Z) f : Z.of_nat (length cl) ≤ f → at_place cl f = None.
Proof. intros H. unfold at_place. destruct (Z.ltb_spec f 0); [done|]. apply lookup_ge_None. lia. Qed.

Lemma chain_end_spec c cl ino s :
  wf sb s → file_ok (c :: cl) ino s → sleep_ok (c :: cl) sleep → Z.of_nat (length (c :: cl)) ≤ limit lay + 1 →
  ∃ ino', chain_end sb lay ops true sleep ino s = Ret (0, Z.of_nat (length (c :: cl)), lastd c cl, ino', s) ∧
    cache_ok (c :: cl) 0 ino' ∧ same_file ino ino'.
Proof.
  intros Hw (Hch & Hst & Hc & _) Hs Hlim. pose proof (chain_short _ _ Hch) as Hshort. destruct (chain_places sb ops _ s Hch) as [Hl He].
  destruct (chain_head sb ops s c cl Hch) as [[Hc2 _] _]. unfold FAT_START_ENT in Hc2.
  unfold chain_end. rewrite Hst. change (default 0 (head (c :: cl))) with c. destruct (Z.eqb_spec c 0); [lia|].
  destruct (get_cluster_spec sb lay ops sleep (c :: cl) s Hcr Hw Hs Hlim Hl ino FAT_ENT_EOF) as (d & ino' & -> & Hd & Hc' & Hf);
    [by right|by rewrite Hst|done|done|].
  cbn [mbind outcome_bind]. unfold found_code, place in *. destruct (Z.ltb_spec FAT_ENT_EOF (Z.of_nat (length (c :: cl)))); [lia|].
  change (FAT_ENT_EOF <? 0) with false. cbv iota. exists ino'.
  assert (Z.min FAT_ENT_EOF (Z.of_nat (length (c :: cl)) - 1) = Z.of_nat (length cl)) as E by (simpl length in *; lia).
  rewrite E in *. rewrite at_last in Hd. injection Hd as <-. split; [|done].
  simpl length. by replace (Z.of_nat (S (length cl))) with (Z.of_nat (length cl) + 1) by lia.
Qed.

Lemma blocks_step (cl : list Z) ino :
  i_blocks ino = Z.of_nat (length cl) * 2 ^ clus_shift lay → Z.of_nat (length cl) < FAT_ENT_EOF →
  Z.shiftr (i_blocks ino) (clus_shift lay) = Z.of_nat (length cl) ∧
  ∀ x, u64 (i_blocks ino + Z.shiftl 1 (clus_shift lay)) = Z.of_nat (length (cl ++ [x])) * 2 ^ clus_shift lay.
Proof.
  intros -> Hl. pose proof clus_shift_bounds as Hb. assert (0 < 2 ^ clus_shift lay ≤ 2 ^ 22) as Hp.
  { split; [apply Z.pow_pos_nonneg; lia|apply Z.pow_le_mono_r; lia]. }
  rewrite Z.shiftr_div_pow2, Z.div_mul, Z.shiftl_mul_pow2 by lia. split; [done|]. intros x. rewrite length_app. simpl length.
  rewrite wrapu_small; unfold FAT_ENT_EOF, EOF_FAT32 in *; nia.
Qed.

(** The chain [cl] followed by [x], where [x] was free in [s]. *)
Definition appended (cl : list Z) (x : Z) (s t : fatfs) : Prop :=
  wf sb t ∧ mirrored sb t ∧ chain_in sb ops t (cl ++ [x]) ∧ ∀ e, ent_ok sb e → e ∉ cl ++ [x] → view t e = view s e.

Lemma chain_link_spec needs_sync c cl x ino s :
  wf sb s → mirrored sb s → chain_in sb ops s (c :: cl) → ent_ok sb x → x ∉ c :: cl → view s x = FAT_ENT_EOF →
  ∃ t, chain_link env sb ops needs_sync 0 (lastd c cl) x ino s = Ret (0, ino, t) ∧ same_rest s t ∧ appended (c :: cl) x s t.
Proof.
  intros Hw Hm Hch Hx Hn Vx. assert (ent_ok sb (lastd c cl)) as Hlast by (apply Hch, lastd_in).
  unfold chain_link. destruct (Z.eqb_spec (lastd c cl) 0); [unfold ent_ok, FAT_START_ENT in Hlast; lia|]. cbn [negb].
  rewrite (read_fresh sb ops) by done. cbn [mbind outcome_bind].
  destruct (write_canon env sb ops Hq (lastd c cl) x needs_sync s) as (t & Ht & Wt & Mt & Rt & _ & Vt); [done..| |done|].
  { right. unfold ent_ok, FAT_START_ENT in Hx. lia. }
  pose proof (chain_pos s _ _ Hch (lastd_in c cl)) as H0. destruct (Z.leb_spec 0 (view s (lastd c cl))); [|lia]. rewrite Ht. cbn [mbind outcome_bind]. exists t. split; [done|].
  split; [done|]. split; [done|]. split; [done|]. split.
  - apply (chain_snoc s); [done..| | |].
    + rewrite Vt by done. rewrite decide_False; [done|]. intros ->. by apply Hn, lastd_in.
    + by rewrite Vt, decide_True.
    + intros e He Hne. rewrite Vt by (by apply Hch). by rewrite decide_False.
  - intros e He Hne. rewrite Vt by done. rewrite decide_False; [done|]. intros ->. apply Hne, elem_of_app. left. apply lastd_in.
Qed.

Lemma chain_one s x : ent_ok sb x → view s x = FAT_ENT_EOF → chain_in sb ops s [x].
Proof.
  intros Hx Vx. split; [apply NoDup_singleton|]. intros e ->%list_elem_of_singleton. split; [done|]. simpl. by rewrite decide_True, Vx.
Qed.

Lemma same_file_start a b : same_file a b → i_start b = i_start a ∧ i_blocks b = i_blocks a.
Proof. intros [=]. done. Qed.

(** What appending leaves of the inode. *)
Definition same_attrs (a b : finode) : Prop := mmu_private b = mmu_private a ∧ i_size b = i_size a ∧ i_ino b = i_ino a.

Lemma same_file_attrs a b : same_file a b → same_attrs a b.
Proof. intros [=]. done. Qed.

Lemma attrs_trans a b c : same_attrs a b → same_file b c → same_attrs a c.
Proof. intros (? & ? & ?) (? & ? & ?)%same_file_attrs. repeat split; congruence. Qed.

Lemma chain_first needs_sync x ino s :
  cache_ok [] 0 ino →
  ∃ ino', chain_link env sb ops needs_sync 0 0 x ino s = Ret (0, ino', s) ∧ cache_ok [] 0 ino' ∧
    i_start ino' = x ∧ i_blocks ino' = i_blocks ino ∧ same_attrs ino ino'.
Proof. intros Hc. unfold chain_link. cbn [negb Z.eqb]. destruct (_ && _); by eexists. Qed.

Lemma chain_add_spec needs_sync cl x ino s :
  wf sb s → mirrored sb s → file_ok cl ino s → ent_ok sb x → x ∉ cl → view s x = FAT_ENT_EOF →
  sleep_ok cl sleep → Z.of_nat (length cl) ≤ limit lay + 1 →
  ∃ ino' t, fat_chain_add env sb lay ops needs_sync 0 true sleep x 1 ino s = Ret (0, ino', t) ∧
    same_rest s t ∧ appended cl x s t ∧ file_ok (cl ++ [x]) ino' t ∧ same_attrs ino ino'.
Proof.
  intros Hw Hm Hf Hx Hn Vx Hs Hlim. pose proof Hf as (Hch & Hst & Hc & Hb). unfold fat_chain_add.
  destruct (blocks_step cl ino Hb (chain_short _ _ Hch)) as [Hsh Hadd]. destruct cl as [|c cl].
  - unfold chain_end. rewrite Hst. change (default 0 (head []) =? 0) with true. cbn [mbind outcome_bind Z.ltb Z.compare].
    destruct (chain_first needs_sync x ino s Hc) as (ino1 & -> & Hc1 & Hs1 & Hb1 & Ha1). cbn [mbind outcome_bind negb Z.eqb].
    rewrite Hb1, Hsh. cbn [negb Z.eqb Z.of_nat length].
    eexists _, s. split; [reflexivity|]. split; [done|]. split; [split_and!; [done..|by apply chain_one|done]|].
    split; [|done].
    split; [by apply chain_one|]. split; [done|]. split; [by apply (cache_mono [] [x])|]. cbn [set_blocks i_blocks]. rewrite Hb1. apply (Hadd x).
  - destruct (chain_end_spec c cl ino s Hw Hf Hs Hlim) as (ino1 & -> & Hc1 & Hf1). cbn [mbind outcome_bind Z.ltb Z.compare].
    destruct (chain_link_spec needs_sync c cl x ino1 s Hw Hm Hch Hx Hn Vx) as (t & -> & Rt & Ht).
    destruct (same_file_start _ _ Hf1) as [Hs1 Hb1]. cbn [mbind outcome_bind negb Z.eqb]. rewrite Hb1, Hsh, Z.eqb_refl. cbn [negb].
    eexists _, t. split; [reflexivity|]. split; [done|]. split; [done|]. split; [|exact (same_file_attrs _ _ Hf1)].
    split; [apply Ht|].
    split; [cbn [set_blocks i_start]; by rewrite Hs1|]. split; [by apply (cache_mono (c :: cl) [x])|]. cbn [set_blocks i_blocks]. rewrite Hb1. apply (Hadd x).
Qed.

Lemma first_free s :
  FAT_START_ENT ≤ prev_free s < max_cluster sb →
  ∀ c l, found sb ops s (wrap sb (prev_free s + 1)) (span sb) = c :: l → ent_ok sb c ∧ view s c = FAT_ENT_FREE.
Proof.
  intros Hp c l E. assert (c ∈ found sb ops s (wrap sb (prev_free s + 1)) (span sb)) as Hin by (rewrite E; set_solver). split.
  - destruct (found_in _ _ _ _ _ _ Hin) as (j & _ & ->). apply cyc_ok. unfold span. lia.
  - apply list_elem_of_In, filter_In in Hin as [_ Hf]. by apply Z.eqb_eq.
Qed.

Lemma add_cluster_spec needs_sync cl ino s c l :
  wf sb s → mirrored sb s → file_ok cl ino s → FAT_START_ENT ≤ prev_free s < max_cluster sb →
  (free_clusters s = UNKNOWN ∨ 1 ≤ free_clusters s < UNKNOWN) →
  found sb ops s (wrap sb (prev_free s + 1)) (span sb) = c :: l →
  sleep_ok cl sleep → Z.of_nat (length cl) ≤ limit lay + 1 →
  ∃ ino' t, fat_add_cluster env sb lay ops needs_sync 0 true sleep ino s = Ret (0, ino', t) ∧
    appended cl c s t ∧ file_ok (cl ++ [c]) ino' t ∧ same_attrs ino ino' ∧ prev_free t = c ∧
    free_clusters t = if free_clusters s =? UNKNOWN then UNKNOWN else free_clusters s - 1.
Proof.
  intros Hw Hm Hf Hp Hk E Hs Hlim. destruct (first_free s Hp c l E) as [Hok Hfree].
  destruct (alloc_clusters_spec env sb ops Hq needs_sync 1 s Hw Hm ltac:(lia) Hp Hk) as [Ha _].
  rewrite E in Ha. destruct Ha as (s1 & Ea & W1 & M1 & V1 & P1 & F1); [simpl; lia|]. change (take (Z.to_nat 1) (c :: l)) with [c] in *.
  assert (c ∉ cl) as Hn by (intros Hc; pose proof (chain_pos s cl c (proj1 Hf) Hc); rewrite Hfree in *; done).
  assert (∀ e, ent_ok sb e → e ≠ c → view s1 e = view s e) as Hother.
  { intros e He Hne. rewrite V1 by done. simpl. by rewrite decide_False. }
  assert (file_ok cl ino s1) as Hf1.
  { destruct Hf as (Hch & Hf). split; [|done]. apply (chain_frame s); [done|]. intros e He. apply Hother; [by apply Hch|by intros ->]. }
  destruct (chain_add_spec needs_sync cl c ino s1 W1 M1 Hf1 Hok Hn) as (ino' & t & Et & Rt & (Wt & Mt & Ct & Vt) & Ft & At); [|done..|].
  { rewrite V1 by done. simpl. by rewrite decide_True. }
  exists ino', t. split; [unfold fat_add_cluster; rewrite Ea; cbn [mbind outcome_bind negb Z.eqb]; by rewrite Et|].
  split; [split_and!; [done..|]|].
  { intros e He Hne. rewrite Vt by done. apply Hother; [done|]. set_solver. }
  destruct Rt as (-> & -> & _). done.
Qed.

(** *** Truncating *)

Lemma chain_suffix s a b : chain_in sb ops s (a ++ b) → chain_in sb ops s b.
Proof.
  induction a as [|c a IH]; [done|]. intros [[Hc Hd]%NoDup_cons Hl]. apply IH. split; [done|]. intros e He.
  destruct (Hl e) as [Hok Hlk]; [set_solver|]. split; [done|]. simpl in Hlk. by rewrite decide_False in Hlk by set_solver.
Qed.

Lemma link_prefix a l c cl e :
  NoDup (a :: l ++ c :: cl) → e ∈ a :: l →
  link (a :: l) e = if decide (e = lastd a l) then Some FAT_ENT_EOF else link (a :: l ++ c :: cl) e.
Proof.
  revert a. induction l as [|b l IH]; intros a Hd He.
  - apply list_elem_of_singleton in He as ->. simpl. by rewrite !decide_True.
  - change (lastd a (b :: l)) with (lastd b l). apply NoDup_cons in Hd as [Ha Hd]. cbn [link app].
    destruct (decide (e = a)) as [->|Hne].
    + rewrite decide_False; [done|]. intros E. apply Ha. rewrite E. change (lastd b l ∈ (b :: l) ++ c :: cl). apply elem_of_app. left. apply lastd_in.
    + apply IH; [done|]. set_solver.
Qed.

Lemma linked_prefix s cl cl' : linked sb ops (cl ++ cl') s → linked sb ops cl s.
Proof.
  assert (∀ f d, at_place cl f = Some d → at_place (cl ++ cl') f = Some d) as Hm.
  { intros f d. unfold at_place. destruct (_ <? 0); [done|]. apply lookup_app_l_Some. }
  intros Hl f d Hf. destruct (Hl f d (Hm _ _ Hf)) as [Hok Hv]. split; [done|]. intros d' Hd'. by apply Hv, Hm.
Qed.

(** The chain is cut after [a :: l]. *)
Lemma chain_cut s t a l c cl :
  chain_in sb ops s (a :: l ++ c :: cl) →
  (∀ e, ent_ok sb e → view t e = if decide (e = lastd a l) then FAT_ENT_EOF else view s e) →
  view s (lastd a l) = c ∧ chain_in sb ops t (a :: l) ∧ chain_in sb ops t (c :: cl) ∧ lastd a l ∉ c :: cl.
Proof.
  intros Hch Hv. pose proof Hch as [Hd Hl]. change (a :: l ++ c :: cl) with ((a :: l) ++ c :: cl) in *.
  apply NoDup_app in Hd as (Hd1 & Hdis & Hd2). pose proof (chain_suffix s _ _ Hch) as Hsuf.
  assert (lastd a l ∉ c :: cl) as Hn by (apply Hdis, lastd_in). split; [|split; [|split; [|done]]].
  - destruct (chain_places sb ops _ s Hch) as [Hlk _]. destruct (Hlk (Z.of_nat (length l)) (lastd a l)) as [_ Hv'].
    + unfold at_place. destruct (Z.ltb_spec (Z.of_nat (length l)) 0); [lia|]. apply lookup_app_l_Some.
      pose proof (at_last a l) as E. unfold at_place in E. by destruct (Z.ltb_spec (Z.of_nat (length l)) 0); [lia|].
    + apply Hv'. unfold at_place. destruct (Z.ltb_spec (Z.of_nat (length l) + 1) 0); [lia|].
      rewrite list_lookup_middle; [done|]. simpl. lia.
  - split; [done|]. intros e He. destruct (Hl e) as [Hok Hlk]; [by apply elem_of_app; left|]. split; [done|].
    rewrite (link_prefix a l c cl), Hv by (done || by apply Hch). destruct (decide (e = lastd a l)); done.
  - apply (chain_frame s); [done|]. intros e He. rewrite Hv by (by apply Hsuf). rewrite decide_False; [done|]. by intros ->.
Qed.

(** The file keeps its first [skip] clusters and the others are free. *)
Definition truncated (cl : list Z) (skip : nat) (s t : fatfs) : Prop :=
  wf sb t ∧ mirrored sb t ∧
  free_clusters t = add_free (Z.of_nat (length (drop skip cl))) (free_clusters s) ∧
  (∀ e, e ∈ drop skip cl → view t e = FAT_ENT_FREE) ∧
  ∀ e, ent_ok sb e → e ∉ cl → view t e = view s e.

Section cut.
Context (cl : list Z) (skip : nat) (ino : finode) (s : fatfs).
Context (Hw : wf sb s) (Hch : chain_in sb ops s cl) (Hst : head cl = Some (i_start ino)) (Hc : cache_ok (take skip cl) 0 ino).
Context (Hs : sleep_ok (take skip cl) sleep) (Hlim : Z.of_nat (length cl) ≤ limit lay + 1) (Hskip : (0 < skip)%nat).

Lemma find_cut :
  ∃ d ino', fat_get_cluster sb lay ops true sleep ino (Z.of_nat skip - 1) s =
      Ret (if (Nat.leb skip (length cl)) then 0 else FAT_ENT_EOF, place (take skip cl) (Z.of_nat skip - 1), d, ino', s) ∧
    at_place (take skip cl) (place (take skip cl) (Z.of_nat skip - 1)) = Some d ∧ cache_ok (take skip cl) 0 ino' ∧ same_file ino ino'.
Proof.
  destruct (chain_places sb ops _ s Hch) as [Hl He]. assert (linked sb ops (take skip cl) s) as Hl'.
  { apply (linked_prefix s _ (drop skip cl)). by rewrite take_drop. }
  destruct (get_cluster_spec sb lay ops sleep (take skip cl) s Hcr Hw Hs) with (ino := ino) (cluster := Z.of_nat skip - 1) as (d & ino' & E & ?);
    [rewrite length_take; lia|done| | |done|lia|].
  - destruct (decide (skip ≤ length cl)%nat); [left; rewrite length_take; lia|]. right. by rewrite take_ge by lia.
  - destruct cl as [|c l]; [done|]. destruct skip; [lia|done].
  - exists d, ino'. split; [|done]. rewrite E. unfold found_code. rewrite length_take.
    destruct (Z.ltb_spec (Z.of_nat skip - 1) (Z.of_nat (skip `min` length cl))), (Nat.leb_spec skip (length cl)); done || lia.
Qed.

(** Nothing to cut. *)
Lemma cut_none :
  (length cl ≤ skip)%nat → ∃ ino', cut_chain env sb lay ops true sleep (Z.of_nat skip) ino s = Ret (inl 0, ino', s) ∧
    cache_ok cl 0 ino' ∧ same_file ino ino'.
Proof.
  intros Hlen. destruct find_cut as (d & ino' & E & Hd & Hc' & Hf). rewrite take_ge in Hd, Hc' by lia.
  exists ino'. split; [|done]. unfold cut_chain. rewrite E. cbn [mbind outcome_bind]. destruct (Nat.leb_spec skip (length cl)); [|done].
  change (0 <? 0) with false. change (0 =? FAT_ENT_EOF) with false. cbv iota. destruct (chain_places sb ops _ s Hch) as [Hl He].
  destruct (Hl _ _ Hd) as [Hok _]. rewrite (read_fresh sb ops), (He _ _ Hd); [done| |done..].
  apply at_past. unfold place. lia.
Qed.
End cut.

Lemma cut_some a l c r ino s :
  let cl := a :: l ++ c :: r in
  wf sb s → mirrored sb s → chain_in sb ops s cl → i_start ino = a → cache_ok (a :: l) 0 ino → sleep_ok (a :: l) sleep →
  Z.of_nat (length cl) ≤ limit lay + 1 →
  ∃ ino' t, cut_chain env sb lay ops true sleep (Z.of_nat (S (length l))) ino s = Ret (inr c, ino', t) ∧
    cache_ok (a :: l) 0 ino' ∧ same_file ino ino' ∧ wf sb t ∧ mirrored sb t ∧ same_rest s t ∧
    (∀ b, b < fat_start sb → blk t !! b = blk s !! b) ∧ chain_in sb ops t (a :: l) ∧ chain_in sb ops t (c :: r) ∧
    ∀ e, ent_ok sb e → e ∉ a :: l → view t e = view s e.
Proof.
  intros cl Hw Hm Hch Hst Hc Hs Hlim. assert (take (S (length l)) cl = a :: l) as Et by (simpl; by rewrite take_app_length).
  destruct (find_cut cl (S (length l)) ino s) as (d & ino' & E & Hd & Hc' & Hf); [done..|by rewrite Hst|by rewrite Et|by rewrite Et|done|lia|].
  rewrite Et in *. assert (d = lastd a l) as ->.
  { unfold place in Hd. replace (Z.min _ _) with (Z.of_nat (length l)) in Hd by (simpl; lia). rewrite at_last in Hd. congruence. }
  assert (ent_ok sb (lastd a l)) as Hok.
  { apply Hch. change cl with ((a :: l) ++ c :: r). apply elem_of_app. left. apply lastd_in. }
  assert (∀ w, ∃ t, fat_ent_write env sb ops (canon (lastd a l)) FAT_ENT_EOF w s = Ret (0, t) ∧ wf sb t ∧ mirrored sb t ∧ same_rest s t ∧
    (∀ b, b < fat_start sb → blk t !! b = blk s !! b) ∧
    ∀ e, ent_ok sb e → view t e = if decide (e = lastd a l) then FAT_ENT_EOF else view s e) as Hwr.
  { intros w. apply (write_canon env sb ops Hq); [done..|by left|done]. }
  destruct (Hwr (is_dirsync ino')) as (t & Ht & Wt & Mt & Rt & Bt & Vt).
  destruct (chain_cut s t a l c r Hch Vt) as (Ec & C1 & C2 & Hn).
  assert (ent_ok sb c) as [Hc2 Hcm] by (apply C2; set_solver). pose proof laws_clusters as Hmax. unfold FAT_START_ENT in *.
  exists ino', t. split.
  - unfold cut_chain. rewrite E. cbn [mbind outcome_bind]. destruct (Nat.leb_spec (S (length l)) (length cl)) as [_|Hlt];
      [|unfold cl in Hlt; simpl in Hlt; rewrite length_app in Hlt; lia].
    change (0 <? 0) with false. change (0 =? FAT_ENT_EOF) with false. cbv iota. rewrite (read_fresh sb ops) by done.
    cbn [mbind outcome_bind]. rewrite Ec. unfold FAT_ENT_FREE. destruct (Z.eqb_spec c FAT_ENT_EOF), (Z.eqb_spec c 0), (Z.ltb_spec 0 c); try lia.
    rewrite Ht. cbn [mbind outcome_bind]. change (0 =? 0) with true. cbv iota. destruct (Z.ltb_spec c 0); [lia|done].
  - split_and!; try done. intros e He Hne. rewrite Vt by done. rewrite decide_False; [done|]. intros ->. apply Hne, lastd_in.
Qed.

(** The inode as [fat_free] writes it first. *)
Lemma inode_written cl ino sync_inode first :
  sync_inode = 0 → cache_ok cl 0 ino →
  ∃ ino', (let i := fat_cache_inval_inode ino in let i := if first : bool then set_start 0 0 i else i in
           if is_dirsync i then (sync_inode, i) else (0, mark_inode_dirty i)) = (0, ino') ∧
    (∀ cl', cache_ok cl' 0 ino') ∧ i_start ino' = (if first then 0 else i_start ino) ∧
    i_blocks ino' = i_blocks ino ∧ same_attrs ino ino'.
Proof.
  intros -> [_ Hn]. cbn zeta. destruct first, (is_dirsync _); eexists; (split; [reflexivity|]);
    (split; [intros cl'; split; [constructor|cbn; lia]|done]).
Qed.

Lemma blocks_kept (cl : list Z) skip :
  Z.of_nat (length cl) < FAT_ENT_EOF → (skip ≤ length cl)%nat →
  u64 (Z.shiftl (Z.of_nat skip) (clus_shift lay)) = Z.of_nat (length (take skip cl)) * 2 ^ clus_shift lay.
Proof.
  intros Hl Hs. pose proof clus_shift_bounds as Hb. assert (0 < 2 ^ clus_shift lay ≤ 2 ^ 22) as Hp.
  { split; [apply Z.pow_pos_nonneg; lia|apply Z.pow_le_mono_r; lia]. }
  rewrite Z.shiftl_mul_pow2, length_take, Nat.min_l by lia. apply wrapu_small. unfold FAT_ENT_EOF, EOF_FAT32 in *. nia.
Qed.

Lemma truncated_none cl skip s : wf sb s → mirrored sb s → (length cl ≤ skip)%nat → truncated cl skip s s.
Proof.
  intros Hw Hm Hl. unfold truncated. rewrite drop_ge by done. split_and!; try done; [|set_solver].
  unfold add_free. simpl. destruct (Z.eqb_spec (free_clusters s) UNKNOWN); lia.
Qed.

Lemma fsinfo_frame s t : (∀ b, b < fat_start sb → blk t !! b = blk s !! b) → fsinfo_ok sb s → fsinfo_ok sb t.
Proof. intros Hb [?|[Hlt Hf]]; [by left|]. right. split; [done|]. by rewrite Hb. Qed.

Section free.
Context (cl : list Z) (ino : finode) (s : fatfs).
Context (Hw : wf sb s) (Hm : mirrored sb s) (Hf : file_ok cl ino s) (Hfs : fsinfo_ok sb s) (H0 : 0 ≤ free_clusters s).
Context (Hlim : Z.of_nat (length cl) ≤ limit lay + 1).

Lemma free_all :
  (free_clusters s = UNKNOWN ∨ free_clusters s + Z.of_nat (length cl) < UNKNOWN) →
  ∃ ino' t, fat_free env sb lay ops 0 true sleep 0 ino s = Ret (0, ino', t) ∧ file_ok [] ino' t ∧ same_attrs ino ino' ∧ truncated cl 0 s t.
Proof.
  intros Hk. destruct Hf as (Hch & Hst & Hc & Hb). unfold fat_free. rewrite Hst. destruct cl as [|c r].
  { exists ino, s. split; [done|]. split; [done|]. split; [done|]. by apply truncated_none. }
  change (default 0 (head (c :: r))) with c in *. destruct (chain_head sb ops s c r Hch) as [[Hc2 _] _]. unfold FAT_START_ENT in Hc2.
  destruct (Z.eqb_spec c 0); [lia|]. change (0 =? 0) with true. cbn [negb]. cbv iota.
  destruct (inode_written (c :: r) ino 0 true eq_refl Hc) as (ino1 & E1 & Hc1 & Hs1 & _ & Ha1). cbn zeta in E1. rewrite E1. cbn [negb Z.eqb mbind outcome_bind].
  change (i_start (fat_cache_inval_inode ino)) with (i_start ino). rewrite Hst.
  destruct (free_clusters_spec env sb ops Hq c r s Hcr Hch Hw Hm Hfs H0 Hk) as (t & -> & Wt & Mt & Ft & Vt). cbn [mbind outcome_bind].
  eexists _, t. split; [reflexivity|]. split; [split_and!; [|done|apply Hc1|cbn [set_blocks i_blocks]; by rewrite Z.shiftl_0_l]|].
  { split; [constructor|]. intros e He. set_solver. }
  split; [done|]. split_and!; [done..| |]; change (drop 0 (c :: r)) with (c :: r); intros e He.
  - rewrite Vt by (by apply Hch). by rewrite decide_True.
  - intros Hn. rewrite Vt by done. by rewrite decide_False.
Qed.

(** With [skip] clusters kept the work of [fat_free] is that of [cut_chain]. *)
Lemma free_cut skip a l' :
  (0 < skip)%nat → cl = a :: l' →
  ∃ ino1, (∀ cl', cache_ok cl' 0 ino1) ∧ i_start ino1 = a ∧ i_blocks ino1 = i_blocks ino ∧ same_attrs ino ino1 ∧
    fat_free env sb lay ops 0 true sleep (Z.of_nat skip) ino s =
    ('(r, i, t) ← cut_chain env sb lay ops true sleep (Z.of_nat skip) ino1 s;
     match r with
     | inl ret => Ret (ret, i, t)
     | inr free_start =>
       let i := set_blocks (u64 (Z.shiftl (Z.of_nat skip) (clus_shift lay))) i in
       '(err, t) ← fat_free_clusters env sb ops free_start t; Ret (err, i, t)
     end).
Proof.
  intros Hskip Ecl. destruct Hf as (Hch & Hst & Hc & Hb). rewrite Ecl in Hch, Hst. change (default 0 (head (a :: l'))) with a in Hst.
  destruct (chain_head sb ops s a l' Hch) as [[Ha2 _] _]. unfold FAT_START_ENT in Ha2.
  destruct (inode_written cl ino 0 false eq_refl Hc) as (ino1 & E1 & Hc1 & Hs1 & Hb1 & Ha1). exists ino1.
  split; [done|]. split; [congruence|]. split; [done|]. split; [done|]. unfold fat_free. destruct (Z.eqb_spec (i_start ino) 0); [lia|].
  destruct (Z.eqb_spec (Z.of_nat skip) 0); [lia|]. cbn zeta in E1. rewrite E1. reflexivity.
Qed.

(** Some clusters are kept and some are freed. *)
Lemma free_tail a l c r :
  cl = a :: l ++ c :: r →
  (free_clusters s = UNKNOWN ∨ free_clusters s + Z.of_nat (length (c :: r)) < UNKNOWN) → sleep_ok (a :: l) sleep →
  ∃ ino' t, fat_free env sb lay ops 0 true sleep (Z.of_nat (S (length l))) ino s = Ret (0, ino', t) ∧
    file_ok (a :: l) ino' t ∧ same_attrs ino ino' ∧ wf sb t ∧ mirrored sb t ∧
    free_clusters t = add_free (Z.of_nat (length (c :: r))) (free_clusters s) ∧
    (∀ e, e ∈ c :: r → view t e = FAT_ENT_FREE) ∧ ∀ e, ent_ok sb e → e ∉ cl → view t e = view s e.
Proof.
  intros Ecl Hk Hs. destruct (free_cut (S (length l)) a (l ++ c :: r) ltac:(lia) Ecl) as (ino1 & Hc1 & Hs1 & Hb1 & Ha1 & ->).
  pose proof Hf as (Hch & _). rewrite Ecl in Hch.
  destruct (cut_some a l c r ino1 s) as (ino2 & t1 & -> & Hc2 & Hf2 & W1 & M1 & (_ & F1 & _) & B1 & C1 & C2 & V1); [first [done|by rewrite <- Ecl]..|].
  cbn [mbind outcome_bind].
  destruct (free_clusters_spec env sb ops Hq c r t1 Hcr C2 W1 M1 (fsinfo_frame _ _ B1 Hfs)) as (t & -> & Wt & Mt & Ft & Vt); [by rewrite F1..|].
  cbn [mbind outcome_bind]. destruct (same_file_start _ _ Hf2) as [Es Eb]. eexists _, t. split; [reflexivity|].
  pose proof (proj1 Hch) as Hnd. change (a :: l ++ c :: r) with ((a :: l) ++ c :: r) in Hnd. apply NoDup_app in Hnd as (_ & Hdis & _).
  split; [split; [|split; [|split]]|split; [exact (attrs_trans _ _ _ Ha1 Hf2)|split_and!; [done..|by rewrite Ft, F1| |]]].
  - apply (chain_frame t1); [done|]. intros e He. rewrite Vt by (by apply C1). rewrite decide_False by (by apply Hdis). done.
  - cbn [set_blocks i_start]. by rewrite Es, Hs1.
  - exact Hc2.
  - cbn [set_blocks i_blocks]. rewrite (blocks_kept (a :: l)) by (done || by eapply chain_short). by rewrite take_ge by (simpl; lia).
  - intros e He. rewrite Vt by (by apply C2). by rewrite decide_True.
  - intros e He Hn. rewrite Ecl in Hn. change (a :: l ++ c :: r) with ((a :: l) ++ c :: r) in Hn. apply not_elem_of_app in Hn as [Hn1 Hn2].
    rewrite Vt by done. rewrite decide_False by done. by apply V1.
Qed.

Lemma free_none skip :
  (length cl ≤ skip)%nat → sleep_ok cl sleep →
  ∃ ino', fat_free env sb lay ops 0 true sleep (Z.of_nat skip) ino s = Ret (0, ino', s) ∧ file_ok cl ino' s ∧ same_attrs ino ino'.
Proof.
  intros Hle Hs. pose proof Hf as (Hch & Hst & _ & Hb). assert (cl = [] ∨ ∃ a l, cl = a :: l) as [Ecl|(a & l & Ecl)] by (destruct cl; eauto).
  { exists ino. split; [|done]. unfold fat_free. by rewrite Hst, Ecl. }
  destruct (free_cut skip a l) as (ino1 & Hc1 & Hs1 & Hb1 & Ha1 & ->); [rewrite Ecl in Hle; simpl in Hle; lia|done|].
  destruct (cut_none cl skip ino1 s) as (ino2 & -> & Hc2 & Hf2);
    [done..|by rewrite Ecl, Hs1|done|by rewrite take_ge|done|rewrite Ecl in Hle; simpl in Hle; lia|done|].
  cbn [mbind outcome_bind]. destruct (same_file_start _ _ Hf2) as [Es Eb]. exists ino2. split; [done|].
  split; [|exact (attrs_trans _ _ _ Ha1 Hf2)]. split_and!; [done| |done|congruence]. by rewrite Es, Hs1, Ecl.
Qed.

Lemma free_spec skip :
  (free_clusters s = UNKNOWN ∨ free_clusters s + Z.of_nat (length (drop skip cl)) < UNKNOWN) → sleep_ok (take skip cl) sleep →
  ∃ ino' t, fat_free env sb lay ops 0 true sleep (Z.of_nat skip) ino s = Ret (0, ino', t) ∧
    file_ok (take skip cl) ino' t ∧ same_attrs ino ino' ∧ truncated cl skip s t.
Proof.
  intros Hk Hs. destruct skip as [|k]; [by apply free_all|]. destruct (decide (length cl ≤ S k)%nat) as [Hle|Hgt].
  - rewrite take_ge in * by done. destruct (free_none (S k) Hle Hs) as (ino' & E & ? & ?). exists ino', s.
    split; [done|]. split; [done|]. split; [done|]. by apply truncated_none.
  - destruct (drop (S k) cl) as [|c r] eqn:Ed; [apply (f_equal length) in Ed; rewrite length_drop in Ed; simpl in Ed; lia|].
    destruct (take (S k) cl) as [|a l] eqn:Et; [apply (f_equal length) in Et; rewrite length_take, Nat.min_l in Et by lia; simpl in Et; lia|].
    assert (length l = k) as El by (apply (f_equal length) in Et; rewrite length_take, Nat.min_l in Et by lia; simpl in Et; lia).
    destruct (free_tail a l c r) as (ino' & t & E & ? & ? & ?); [|done..|].
    { by rewrite <- (take_drop (S k) cl), Et, Ed. }
    exists ino', t. rewrite El in E. split; [done|]. split; [done|]. split; [done|]. unfold truncated. by rewrite Ed.
Qed.
End free.

(** *** Growing a file by a block *)

Context (Hblk : s_blocksize_bits sb ≤ cluster_bits lay) (Hspc : sec_per_clus lay = 2 ^ (cluster_bits lay - s_blocksize_bits sb)).
Context (Hspc16 : sec_per_clus lay ≤ 2 ^ 16) (Hdata : 0 < data_start lay < 2 ^ 32).

(** The block is mapped once it lies before [mmu_private]. *)
Lemma map_new cl ino s iblock mb d :
  wf sb s → file_ok cl ino s → fat_bits sb = 32 ∨ i_ino ino ≠ MSDOS_ROOT_INO → sleep_ok cl sleep → Z.of_nat (length cl) ≤ limit lay + 1 →
  0 ≤ iblock < 2 ^ 31 → mmu_private ino = iblock * s_blocksize sb →
  at_place cl (iblock / sec_per_clus lay) = Some d → 1 ≤ mb ≤ sec_per_clus lay - iblock mod sec_per_clus lay →
  ∃ ino', fat_bmap sb lay ops true sleep (set_mmu (mmu_private ino + Z.shiftl mb (s_blocksize_bits sb)) ino) iblock s =
    Ret (0, (d - FAT_START_ENT) * sec_per_clus lay + data_start lay + iblock mod sec_per_clus lay, mb, ino', s) ∧
    file_ok cl ino' s ∧ mmu_private ino' = (iblock + mb) * s_blocksize sb.
Proof.
  intros Hw (Hch & Hst & Hc & Hb) Hroot Hs Hlim Hi Hmmu Hd Hmb. destruct (chain_places sb ops _ s Hch) as [Hl _].
  pose proof (geo_bits sb laws_geometry) as Hgb. assert (0 < s_blocksize sb) as Hbs by (apply Z.pow_pos_nonneg; lia).
  set (ino1 := set_mmu _ ino). assert (mmu_private ino1 = (iblock + mb) * s_blocksize sb) as E1.
  { unfold ino1. cbn [set_mmu mmu_private]. rewrite Hmmu, Z.shiftl_mul_pow2 by lia. unfold s_blocksize. lia. }
  assert (Z.shiftr (mmu_private ino1 + (s_blocksize sb - 1)) (s_blocksize_bits sb) = iblock + mb) as El.
  { rewrite E1, Z.shiftr_div_pow2 by lia. fold (s_blocksize sb). rewrite Z.div_add_l, Z.div_small by lia. lia. }
  destruct (bmap_spec sb lay ops sleep cl s Hcr Hw Hs Hlim Hl ino1 iblock (iblock / sec_per_clus lay) d) as (ino' & E & Hc' & Hf'); try done; try lia.
  { destruct (place_lookup _ _ _ Hd) as [Hp _]. change (i_start ino1) with (i_start ino). rewrite Hst. destruct cl; [simpl in Hp; lia|done]. }
  exists ino'. rewrite E, El. split; [|split].
  - by replace (Z.min (sec_per_clus lay - iblock mod sec_per_clus lay) (iblock + mb - iblock)) with mb by lia.
  - destruct (same_file_start _ _ Hf') as [Es Eb]. split; [done|]. split; [by rewrite Es|]. split; [done|]. by rewrite Eb.
  - rewrite <- E1. by injection Hf'.
Qed.

(** The block just after the end is not mapped. *)
Lemma bmap_past ino iblock s :
  fat_bits sb = 32 ∨ i_ino ino ≠ MSDOS_ROOT_INO → 0 ≤ iblock → mmu_private ino = iblock * s_blocksize sb →
  fat_bmap sb lay ops true sleep ino iblock s = Ret (0, 0, 0, ino, s).
Proof.
  intros Hroot Hi Hmmu. pose proof (geo_bits sb laws_geometry) as Hgb. assert (0 < s_blocksize sb) as Hbs by (apply Z.pow_pos_nonneg; lia).
  unfold fat_bmap. replace (negb (fat_bits sb =? 32) && (i_ino ino =? MSDOS_ROOT_INO)) with false
    by (destruct Hroot as [->|Hr]; [done|destruct (Z.eqb_spec (i_ino ino) MSDOS_ROOT_INO); [done|by rewrite andb_false_r]]).
  rewrite Hmmu, Z.shiftr_div_pow2 by lia. fold (s_blocksize sb). rewrite Z.div_add_l, Z.div_small by lia.
  by destruct (Z.leb_spec (iblock + 0) iblock); [|lia].
Qed.

(** What [__fat_get_block] does for the block just after the end, once the chain
    reaches it. *)
Lemma get_block_tail needs_sync cl ino1 t iblock n d ino s :
  fat_bits sb = 32 ∨ i_ino ino ≠ MSDOS_ROOT_INO → same_attrs ino ino1 → 0 ≤ iblock < 2 ^ 31 → mmu_private ino = iblock * s_blocksize sb → 1 ≤ n →
  let offset := iblock mod sec_per_clus lay in
  (if offset =? 0 then fat_add_cluster env sb lay ops needs_sync 0 true sleep ino s else Ret (0, ino, s)) = Ret (0, ino1, t) →
  wf sb t → file_ok cl ino1 t → sleep_ok cl sleep → Z.of_nat (length cl) ≤ limit lay + 1 →
  at_place cl (iblock / sec_per_clus lay) = Some d →
  let mb := Z.min (sec_per_clus lay - offset) n in
  ∃ ino', fat_get_block env sb lay ops needs_sync 0 true sleep iblock (n * s_blocksize sb) true ino s =
    Ret (0, Some ((d - FAT_START_ENT) * sec_per_clus lay + data_start lay + offset), true, mb * s_blocksize sb, ino', t) ∧
    file_ok cl ino' t ∧ mmu_private ino' = (iblock + mb) * s_blocksize sb.
Proof.
  intros Hroot (Am & _ & Ai) Hi Hmmu Hn offset Hadd Hwt Hft Hs Hlim Hd mb.
  pose proof (geo_bits sb laws_geometry) as Hgb. assert (0 < s_blocksize sb) as Hbs by (apply Z.pow_pos_nonneg; lia).
  assert (0 < sec_per_clus lay) as Hpos by (rewrite Hspc; apply Z.pow_pos_nonneg; lia).
  pose proof (Z.mod_pos_bound iblock (sec_per_clus lay) Hpos) as Hoff.
  assert (Z.land iblock (sec_per_clus lay - 1) = offset) as Eoff.
  { replace (sec_per_clus lay - 1) with (Z.ones (cluster_bits lay - s_blocksize_bits sb)) by (rewrite Z.ones_equiv, Hspc; lia).
    rewrite Z.land_ones, <- Hspc by lia. done. }
  destruct (map_new cl ino1 t iblock mb d) as (ino' & E & Hf' & Hm'); try done; try (rewrite Ai || rewrite Am; done); [unfold mb, offset; lia|].
  exists ino'. split; [|done]. unfold fat_get_block, __fat_get_block. rewrite bmap_past by (done || lia).
  cbn [mbind outcome_bind negb Z.eqb]. change (0 =? 0) with true. cbn [negb]. rewrite Hmmu, !Z.shiftr_div_pow2 by lia.
  fold (s_blocksize sb). rewrite !Z.div_mul, Z.eqb_refl, Eoff by lia. cbn [negb]. rewrite Hadd. cbn [mbind outcome_bind negb Z.eqb].
  fold mb. rewrite E. cbn [mbind outcome_bind negb Z.eqb].
  destruct (place_lookup _ _ _ Hd) as [_ Hin%list_elem_of_lookup_2]. destruct (proj1 Hft) as [_ Hl]. destruct (Hl d Hin) as [[Hd2 _] _].
  destruct (Z.eqb_spec ((d - FAT_START_ENT) * sec_per_clus lay + data_start lay + iblock mod sec_per_clus lay) 0); [nia|].
  rewrite Z.eqb_refl. cbn [negb mbind outcome_bind Z.eqb]. rewrite Z.shiftl_mul_pow2 by lia. done.
Qed.
End files.

(** ** Claims *)

(** appending a cluster takes the next free one and enters it after the
    last cluster of the file, as the first one of an empty file: the chain of the
    file grows by it, the inode and the runs cached for it describe the new
    chain, the counters follow, and no entry outside the chain changes. *)
Theorem fat_add_cluster_appends env sb lay ops `{!FatentLaws sb ops} sleep needs_sync cl ino s c l :
  quiet env → cached_reads sb ops → 9 ≤ cluster_bits lay ≤ 31 → wf sb s → mirrored sb s → file_ok sb lay ops cl ino s →
  FAT_START_ENT ≤ prev_free s < max_cluster sb → (free_clusters s = UNKNOWN ∨ 1 ≤ free_clusters s < UNKNOWN) →
  found sb ops s (wrap sb (prev_free s + 1)) (span sb) = c :: l →
  sleep_ok cl sleep → Z.of_nat (length cl) ≤ limit lay + 1 →
  ∃ ino' t, fat_add_cluster env sb lay ops needs_sync 0 true sleep ino s = Ret (0, ino', t) ∧
    appended sb ops cl c s t ∧ file_ok sb lay ops (cl ++ [c]) ino' t ∧ same_attrs ino ino' ∧ prev_free t = c ∧
    free_clusters t = if free_clusters s =? UNKNOWN then UNKNOWN else free_clusters s - 1.
Proof. intros. by eapply (add_cluster_spec env sb lay ops). Qed.

(** C24: in the formats where an entry can be read through the buffers of the
    previous one, which the two word formats are and the twelve-bit one is not, and
    for a file whose chain is in order: [fat_truncate] keeps the clusters the new size needs and frees the rest:
    the end mark is moved, exactly the clusters cut off become free and are
    counted, the inode describes the shorter chain, no run of the old one stays
    cached, and [mmu_private] does not exceed the size.  A file whose chain is
    short enough keeps all of it. *)
Theorem fat_truncate_keeps env sb lay ops `{!FatentLaws sb ops} sleep cl ino s :
  quiet env → cached_reads sb ops → 9 ≤ cluster_bits lay ≤ 31 → wf sb s → mirrored sb s → file_ok sb lay ops cl ino s →
  fsinfo_ok sb s → 0 ≤ free_clusters s → Z.of_nat (length cl) ≤ limit lay + 1 → 0 ≤ i_size ino < 2 ^ 32 →
  let nr := Z.to_nat ((i_size ino + 2 ^ cluster_bits lay - 1) / 2 ^ cluster_bits lay) in
  (free_clusters s = UNKNOWN ∨ free_clusters s + Z.of_nat (length (drop nr cl)) < UNKNOWN) → sleep_ok (take nr cl) sleep →
  ∃ ino' t, fat_truncate env sb lay ops 0 true sleep ino s = Ret (ino', t) ∧
    file_ok sb lay ops (take nr cl) ino' t ∧ truncated sb ops cl nr s t ∧ mmu_private ino' = Z.min (mmu_private ino) (i_size ino).
Proof.
  intros Hq Hcr Hbits Hw Hm Hf Hfs H0 Hlim Hsz nr Hk Hs. unfold fat_truncate. cbn zeta.
  set (ino1 := if i_size ino <? mmu_private ino then set_mmu (i_size ino) ino else ino).
  assert (file_ok sb lay ops cl ino1 s ∧ mmu_private ino1 = Z.min (mmu_private ino) (i_size ino) ∧ i_size ino1 = i_size ino) as (Hf1 & Hm1 & ->).
  { unfold ino1. destruct (Z.ltb_spec (i_size ino) (mmu_private ino)); (split; [done|]); cbn; split; done || lia. }
  assert (512 ≤ 2 ^ cluster_bits lay) by (apply (Z.pow_le_mono_r 2 9); lia).
  assert (2 ^ cluster_bits lay ≤ 2 ^ 31) by (apply Z.pow_le_mono_r; lia).
  assert (0 ≤ (i_size ino + 2 ^ cluster_bits lay - 1) / 2 ^ cluster_bits lay < 2 ^ 24) as Hnr.
  { split; [apply Z.div_pos; lia|]. apply Z.div_lt_upper_bound; nia. }
  replace (s32 _) with (Z.of_nat nr).
  - destruct (free_spec env sb lay ops sleep Hq Hcr Hbits cl ino1 s Hw Hm Hf1 Hfs H0 Hlim nr Hk Hs) as (ino' & t & E & Hf' & Ha & Ht).
    rewrite E. cbn [mbind outcome_bind]. exists ino', t. split; [done|]. split; [done|]. split; [done|]. rewrite <- Hm1. apply Ha.
  - rewrite Z.shiftr_div_pow2 by lia. unfold nr. rewrite Z2Nat.id by lia. symmetry. rewrite Z.add_sub_assoc. apply wraps_small; lia.
Qed.

(** C7: in the formats where an entry can be read through the buffers of the
    previous one, which the two word formats are and the twelve-bit one is not, and
    for a file whose chain is in order: asked to create the block just after the
    end of the file, [fat_get_block] maps it to the right sector and neither assertion fires: at a cluster boundary
    it appends a cluster first, inside the last cluster it changes no entry.
    [mmu_private] moves on by the blocks that were granted. *)
Theorem fat_get_block_grows env sb lay ops `{!FatentLaws sb ops} sleep needs_sync cl ino s n :
  quiet env → cached_reads sb ops → 9 ≤ cluster_bits lay ≤ 31 → s_blocksize_bits sb ≤ cluster_bits lay →
  sec_per_clus lay = 2 ^ (cluster_bits lay - s_blocksize_bits sb) → sec_per_clus lay ≤ 2 ^ 16 → 0 < data_start lay < 2 ^ 32 →
  wf sb s → file_ok sb lay ops cl ino s → fat_bits sb = 32 ∨ i_ino ino ≠ MSDOS_ROOT_INO → 1 ≤ n →
  sleep_ok cl sleep → Z.of_nat (length cl) ≤ limit lay →
  ∀ iblock, 0 ≤ iblock < 2 ^ 31 → mmu_private ino = iblock * s_blocksize sb →
  let offset := iblock mod sec_per_clus lay in
  let mb := Z.min (sec_per_clus lay - offset) n in
  let phys d := (d - FAT_START_ENT) * sec_per_clus lay + data_start lay + offset in
  let result d ino' t := fat_get_block env sb lay ops needs_sync 0 true sleep iblock (n * s_blocksize sb) true ino s =
    Ret (0, Some (phys d), true, mb * s_blocksize sb, ino', t) ∧ mmu_private ino' = (iblock + mb) * s_blocksize sb in
  (iblock = Z.of_nat (length cl) * sec_per_clus lay → mirrored sb s → FAT_START_ENT ≤ prev_free s < max_cluster sb →
   (free_clusters s = UNKNOWN ∨ 1 ≤ free_clusters s < UNKNOWN) → ∀ c l,
   found sb ops s (wrap sb (prev_free s + 1)) (span sb) = c :: l → sleep_ok (cl ++ [c]) sleep →
   ∃ ino' t, result c ino' t ∧ appended sb ops cl c s t ∧ file_ok sb lay ops (cl ++ [c]) ino' t) ∧
  (offset ≠ 0 → ∀ d, at_place cl (iblock / sec_per_clus lay) = Some d → ∃ ino', result d ino' s ∧ file_ok sb lay ops cl ino' s).
Proof.
  intros Hq Hcr Hbits Hblk Hspc Hspc16 Hdata Hw Hf Hroot Hn Hs Hlim iblock Hi Hmmu offset mb phys result.
  assert (0 < sec_per_clus lay) as Hpos by (rewrite Hspc; apply Z.pow_pos_nonneg; lia). split.
  - intros Hib Hm Hp Hk c l E Hs'.
    destruct (add_cluster_spec env sb lay ops sleep Hq Hcr Hbits needs_sync cl ino s c l) as (ino1 & t & Ea & Ht & Hf1 & Ha & _); try done; [lia|].
    destruct (get_block_tail env sb lay ops sleep Hcr Hblk Hspc Hspc16 Hdata needs_sync (cl ++ [c]) ino1 t iblock n c ino s)
      as (ino' & Er & Hf' & Hm'); try done; [rewrite Hib, Z.mod_mul by lia; done|apply Ht|rewrite length_app; simpl; lia| |by exists ino', t].
    rewrite Hib, Z.div_mul by lia. unfold at_place. destruct (Z.ltb_spec (Z.of_nat (length cl)) 0); [lia|]. rewrite Nat2Z.id.
    by apply list_lookup_middle.
  - intros Hoff d Hd.
    destruct (get_block_tail env sb lay ops sleep Hcr Hblk Hspc Hspc16 Hdata needs_sync cl ino s iblock n d ino s)
      as (ino' & Er & Hf' & Hm'); try done; [by destruct (Z.eqb_spec (iblock mod sec_per_clus lay) 0)|lia|by exists ino'].
Qed.

(** ** Examples

    The file in the clusters 5 and 7 of the sample table. *)

Lemma sample_file ino : i_start ino = 5 → cache_ok [5; 7] 0 ino → i_blocks ino = 2 →
  file_ok Sample.sb16 sample_layout fat16_ops (FatentLaws0 := Sample.laws16) [5; 7] ino (Sample.fs16 4).
Proof. intros Hs Hc Hb. split; [exact file_chain|]. split; [done|]. split; [done|]. by rewrite Hb. Qed.

Lemma sample_found :
  found Sample.sb16 fat16_ops (FatentLaws0 := Sample.laws16) (Sample.fs16 4) (wrap Sample.sb16 (prev_free (Sample.fs16 4) + 1)) (span Sample.sb16) = [6; 8; 9; 4].
Proof. vm_compute. reflexivity. Qed.

Lemma fat_add_cluster_appends_witness :
  ∃ ino' t, fat_add_cluster Sample.quiet_env Sample.sb16 sample_layout fat16_ops false 0 true (λ i, i) sample_inode (Sample.fs16 4) = Ret (0, ino', t) ∧
    file_ok Sample.sb16 sample_layout fat16_ops (FatentLaws0 := Sample.laws16) [5; 7; 6] ino' t.
Proof.
  pose proof (fat_add_cluster_appends Sample.quiet_env Sample.sb16 sample_layout fat16_ops (FatentLaws0 := Sample.laws16) (λ i, i) false [5; 7]
    sample_inode (Sample.fs16 4) 6 [8; 9; 4] Sample.quiet_ok sample_cached) as H.
  destruct H as (ino' & t & E & _ & Hf & _);
    [by vm_compute|apply Sample.wf16|apply Sample.mirrored16|exact (sample_file sample_inode eq_refl sample_cache eq_refl)|by vm_compute|right; by vm_compute|
     exact sample_found|exact (sample_sleep _)|by vm_compute|].
  exists ino', t. split; [exact E|exact Hf].
Defined.

(** The file shortened to less than a sector. *)
Definition cut_inode : finode := Finode [FatCacheRun 0 1 7] 1 3 5 5 2 1000 300 9 false false false.

Lemma fat_truncate_keeps_witness :
  ∃ ino' t, fat_truncate Sample.quiet_env Sample.sb16 sample_layout fat16_ops 0 true (λ i, i) cut_inode (Sample.fs16 4) = Ret (ino', t) ∧
    file_ok Sample.sb16 sample_layout fat16_ops (FatentLaws0 := Sample.laws16) [5] ino' t ∧ free_clusters t = 5 ∧ mmu_private ino' = 300.
Proof.
  pose proof (fat_truncate_keeps Sample.quiet_env Sample.sb16 sample_layout fat16_ops (FatentLaws0 := Sample.laws16) (λ i, i) [5; 7]
    cut_inode (Sample.fs16 4) Sample.quiet_ok sample_cached) as H.
  destruct H as (ino' & t & E & Hf & (_ & _ & Hc & _) & Hm);
    [by vm_compute|apply Sample.wf16|apply Sample.mirrored16|exact (sample_file cut_inode eq_refl sample_cache eq_refl)|left; by vm_compute|
     by vm_compute|by vm_compute|by vm_compute|right; by vm_compute|exact (sample_sleep _)|].
  exists ino', t. split; [exact E|]. split; [exact Hf|]. split; [exact Hc|exact Hm].
Defined.

(** The same file with both sectors written. *)
Definition full_inode : finode := Finode [FatCacheRun 0 1 7] 1 3 5 5 2 1024 1024 9 false false false.

Lemma fat_get_block_grows_witness :
  ∃ ino' t, fat_get_block Sample.quiet_env Sample.sb16 sample_layout fat16_ops false 0 true (λ i, i) 2 512 true full_inode (Sample.fs16 4) =
    Ret (0, Some 24, true, 512, ino', t) ∧ mmu_private ino' = 1536.
Proof.
  pose proof (fat_get_block_grows Sample.quiet_env Sample.sb16 sample_layout fat16_ops (FatentLaws0 := Sample.laws16) (λ i, i) false [5; 7]
    full_inode (Sample.fs16 4) 1 Sample.quiet_ok sample_cached) as H.
  destruct (fun h1 h2 h3 h4 h5 h6 h7 h8 h9 h10 h11 => proj1 (H h1 h2 h3 h4 h5 h6 h7 h8 h9 h10 h11 2 ltac:(lia) eq_refl)) with (c := 6) (l := [8; 9; 4])
    as (ino' & t & [E Hm] & _);
    [by vm_compute|by vm_compute|reflexivity|by vm_compute|by vm_compute|apply Sample.wf16|exact (sample_file full_inode eq_refl sample_cache eq_refl)|right; by vm_compute|lia|
     exact (sample_sleep _)|by vm_compute|reflexivity|apply Sample.mirrored16|by vm_compute|right; by vm_compute|exact sample_found|exact (sample_sleep _)|].
  exists ino', t. split; [exact E|exact Hm].
Defined.
