(* ===== verification/FatDir.v ===== *)
(** Directories of a FAT file system: the functions of [fs/fat/dir.c] that walk
    a directory, look up, remove and add short entries and create the first
    cluster of a directory.  Long names are opaque slots here; [FatLong] reads
    them, and [FatSlots] has the theorems on entries with slots. *)

From S2P Require Import Prelude Fatent FatentLaws FatAlloc FatDate FatCache FatFile.

(** ** Data *)

Definition ENOENT : Z := 2.
Definition ENOTEMPTY : Z := 39.
Definition ATTR_VOLUME : Z := 8.
Definition ATTR_DIR : Z := 16.
Definition DELETED_FLAG : Z := 0xe5.
Definition FAT_MAX_DIR_SIZE : Z := Z.shiftl 65536 5.
Definition MSDOS_NAME : nat := 11.
Definition MSDOS_DOT : list Z := 46 :: replicate 10 32.
Definition MSDOS_DOTDOT : list Z := 46 :: 46 :: replicate 9 32.

(** A directory entry is its 32 bytes: the name, which runs on into the
    extension, and the attributes after it. *)
Abbreviation msdos_dir_entry := (list Z).
Definition de_name (e : msdos_dir_entry) : list Z := take MSDOS_NAME e.
Definition de_attr (e : msdos_dir_entry) : Z := default 0 (e !! MSDOS_NAME).

Definition IS_FREE (name : list Z) : bool := let c := default 0 (head name) in (c =? 0) || (c =? DELETED_FLAG).

(** [!strncmp(a, b, n)] *)
Fixpoint strncmp_eq (n : nat) (a b : list Z) : bool :=
  match n, a, b with
  | S n, x :: a, y :: b => (x =? y) && ((x =? 0) || strncmp_eq n a b)
  | _, _, _ => true
  end.

(** [de] and [bh] of the source: an offset into a block. *)
Record fat_slot_info := SlotInfo { i_pos : Z; slot_off : Z; nr_slots : Z; si_de : ptr }.

Section dir.
Context (env : env) (sb : sb_info) (lay : layout) (ops : fatent_operations).
Context (needs_sync : bool) (sync_inode : Z) (alloc : bool) (sleep : finode → finode).

Definition dir_per_block : Z := s_blocksize sb / 32.

Definition fat_make_i_pos (de : ptr) : Z := Z.lor (Z.shiftl de.1 (dir_per_block_bits lay)) (de.2 / 32).

Definition dirent (s : fatfs) (de : ptr) : outcome msdos_dir_entry :=
  bs ← buffer s de.1;
  if decide (0 ≤ de.2 ∧ de.2 + 32 ≤ Z.of_nat (length bs)) then Ret (take 32 (drop (Z.to_nat de.2) bs)) else Undef.

(** ** Walking *)

(** Blocks a walk may visit, and entries in them. *)
Definition dir_blocks (dir : finode) : Z :=
  Z.max (Z.shiftr (mmu_private dir + (s_blocksize sb - 1)) (s_blocksize_bits sb)) (Z.shiftr (dir_entries lay) (dir_per_block_bits lay)).
Definition dir_fuel (dir : finode) : nat := S (Z.to_nat (dir_blocks dir * dir_per_block)).

(** The slow path: a block that cannot be read is skipped.  [None] is the result
    -1 with [*bh] NULL.  Reading ahead has no effect on the values. *)
Fixpoint fat__get_entry (fuel : nat) (pos : Z) (dir : finode) (s : fatfs) : outcome (option ptr * Z * finode * fatfs) :=
  match fuel with
  | O => NoFuel
  | S fuel =>
    let iblock := Z.shiftr pos (s_blocksize_bits sb) in
    '(err, phys, _, dir, s) ← fat_bmap sb lay ops alloc sleep dir iblock s;
    if negb (err =? 0) || (phys =? 0) then Ret (None, pos, dir, s) else
    if negb (sb_bread s phys) then fat__get_entry fuel (Z.shiftl (iblock + 1) (s_blocksize_bits sb)) dir s else
    Ret (Some (phys, Z.land pos (s_blocksize sb - 1)), pos + 32, dir, s)
  end.

Definition fat_get_entry (cur : option ptr) (pos : Z) (dir : finode) (s : fatfs) : outcome (option ptr * Z * finode * fatfs) :=
  match cur with
  | Some (b, o) =>
    if o / 32 <? dir_per_block - 1 then Ret (Some (b, o + 32), pos + 32, dir, s)
    else fat__get_entry (dir_fuel dir) pos dir s
  | None => fat__get_entry (dir_fuel dir) pos dir s
  end.

(** Entries that are neither free nor a long name slot nor the label. *)
Definition is_short (e : msdos_dir_entry) : bool := negb (IS_FREE (de_name e)) && negb (z2b (Z.land (de_attr e) ATTR_VOLUME)).

Fixpoint short_loop (fuel : nat) (cur : option ptr) (pos : Z) (dir : finode) (s : fatfs) : outcome (option ptr * Z * finode * fatfs) :=
  match fuel with
  | O => NoFuel
  | S fuel =>
    '(cur, pos, dir, s) ← fat_get_entry cur pos dir s;
    match cur with
    | None => Ret (None, pos, dir, s)
    | Some de => e ← dirent s de; if is_short e then Ret (cur, pos, dir, s) else short_loop fuel cur pos dir s
    end
  end.

(** [None] is the result [-ENOENT]. *)
Definition fat_get_short_entry (cur : option ptr) (pos : Z) (dir : finode) (s : fatfs) : outcome (option ptr * Z * finode * fatfs) :=
  short_loop (dir_fuel dir) cur pos dir s.

(** [while (fat_get_short_entry(...) >= 0)] with a body that leaves the loop when
    [stop] holds of the entry. *)
Fixpoint while_short (fuel : nat) (stop : msdos_dir_entry → bool) (cur : option ptr) (pos : Z) (dir : finode) (s : fatfs)
    : outcome (option ptr * Z * finode * fatfs) :=
  match fuel with
  | O => NoFuel
  | S fuel =>
    '(cur, pos, dir, s) ← fat_get_short_entry cur pos dir s;
    match cur with
    | None => Ret (None, pos, dir, s)
    | Some de => e ← dirent s de; if stop e then Ret (cur, pos, dir, s) else while_short fuel stop cur pos dir s
    end
  end.

(** The result and on success [bh], [de] and [i_pos]. *)
Definition fat_get_dotdot_entry (dir : finode) (s : fatfs) : outcome (Z * option (ptr * Z) * finode * fatfs) :=
  '(r, _, dir, s) ← while_short (dir_fuel dir) (λ e, strncmp_eq MSDOS_NAME (de_name e) MSDOS_DOTDOT) None 0 dir s;
  Ret (match r with Some de => (0, Some (de, fat_make_i_pos de), dir, s) | None => (- ENOENT, None, dir, s) end).

Definition fat_dir_empty (dir : finode) (s : fatfs) : outcome (Z * finode * fatfs) :=
  '(r, _, dir, s) ← while_short (dir_fuel dir) (λ e, negb (strncmp_eq MSDOS_NAME (de_name e) MSDOS_DOT) &&
                                                     negb (strncmp_eq MSDOS_NAME (de_name e) MSDOS_DOTDOT)) None 0 dir s;
  Ret (match r with Some _ => - ENOTEMPTY | None => 0 end, dir, s).

Fixpoint subdirs_loop (fuel : nat) (count : Z) (cur : option ptr) (pos : Z) (dir : finode) (s : fatfs) : outcome (Z * finode * fatfs) :=
  match fuel with
  | O => NoFuel
  | S fuel =>
    '(cur, pos, dir, s) ← fat_get_short_entry cur pos dir s;
    match cur with
    | None => Ret (count, dir, s)
    | Some de => e ← dirent s de;
                 subdirs_loop fuel (if z2b (Z.land (de_attr e) ATTR_DIR) then count + 1 else count) cur pos dir s
    end
  end.

Definition fat_subdirs (dir : finode) (s : fatfs) : outcome (Z * finode * fatfs) := subdirs_loop (dir_fuel dir) 0 None 0 dir s.

Definition fat_scan (name : list Z) (dir : finode) (s : fatfs) : outcome (Z * option fat_slot_info * finode * fatfs) :=
  '(r, pos, dir, s) ← while_short (dir_fuel dir) (λ e, strncmp_eq MSDOS_NAME (de_name e) name) None 0 dir s;
  Ret (match r with
       | Some de => (0, Some (SlotInfo (fat_make_i_pos de) (pos - 32) 1 de), dir, s)
       | None => (- ENOENT, None, dir, s)
       end).

(** ** Removing *)

Definition sync_dirty_buffer (b : Z) (s : fatfs) : Z * fatfs := (sync_dirty env b, set_dirty (dirty s ∖ {[b]}) s).

(** [if (IS_DIRSYNC(dir)) err = sync_dirty_buffer(bh)] *)
Definition dirsync_buffer (dir : finode) (b : Z) (s : fatfs) : Z * fatfs :=
  if is_dirsync dir then sync_dirty_buffer b s else (0, s).

(** Marking up to [n] entries from an offset on, towards the end of the block or
    towards its start; the result is the number that remains. *)
Fixpoint delete_forward (n : nat) (b o : Z) (s : fatfs) : outcome (nat * fatfs) :=
  match n with
  | O => Ret (O, s)
  | S m => if o <? s_blocksize sb then s ← poke s (b, o) DELETED_FLAG; delete_forward m b (o + 32) s else Ret (n, s)
  end.

Fixpoint delete_backward (n : nat) (b o : Z) (s : fatfs) : outcome (nat * fatfs) :=
  match n with
  | O => Ret (O, s)
  | S m => if 0 <=? o then s ← poke s (b, o) DELETED_FLAG; delete_backward m b (o - 32) s else Ret (n, s)
  end.

(** Each turn of the loop deletes at least one entry. *)
Fixpoint __fat_remove_entries (fuel : nat) (pos : Z) (nr : nat) (dir : finode) (s : fatfs) : outcome (Z * finode * fatfs) :=
  match fuel with
  | O => NoFuel
  | S fuel =>
    if (nr =? 0)%nat then Ret (0, dir, s) else
    '(cur, pos, dir, s) ← fat_get_entry None pos dir s;
    match cur with
    | None => Ret (- EIO, dir, s)
    | Some (b, o) =>
      '(rest, s) ← delete_forward nr b o s;
      let '(err, s) := dirsync_buffer dir b (mark_buffer_dirty b s) in
      if negb (err =? 0) then Ret (err, dir, s) else
      __fat_remove_entries fuel (pos + (Z.of_nat (nr - rest) * 32 - 32)) rest dir s
    end
  end.

(** The times and the version of the directory are not kept. *)
Definition fat_remove_entries (sinfo : fat_slot_info) (dir : finode) (s : fatfs) : outcome (Z * finode * fatfs) :=
  let '(b, o) := si_de sinfo in
  '(rest, s) ← delete_backward (Z.to_nat (nr_slots sinfo)) b o s;
  let '(err, s) := dirsync_buffer dir b (mark_buffer_dirty b s) in
  if negb (err =? 0) then Ret (err, dir, s) else
  '(_, dir, s) ← (if (rest =? 0)%nat then Ret (0, dir, s) else __fat_remove_entries (S rest) (slot_off sinfo) rest dir s);
  Ret (0, if is_dirsync dir then dir else mark_inode_dirty dir, s).

(** ** Adding *)

(** [memcpy] into a buffer. *)
Definition poke_bytes (s : fatfs) (p : ptr) (x : list Z) : outcome fatfs :=
  bs ← buffer s p.1;
  if decide (0 ≤ p.2 ∧ p.2 + Z.of_nat (length x) ≤ Z.of_nat (length bs)) then
    Ret (set_blk (<[p.1 := splice (Z.to_nat p.2) x bs]> (blk s)) s)
  else Undef.

(** A new buffer, filled with [x] and marked. *)
Definition new_buffer (b : Z) (x : list Z) (s : fatfs) : fatfs := mark_buffer_dirty b (set_blk (<[b := x]> (blk s)) s).

(** [bforget] of some buffers; they stay in the cache. *)
Definition bforget (bs : list Z) (s : fatfs) : fatfs := set_dirty (dirty s ∖ list_to_set bs) s.

(** [if (IS_DIRSYNC(dir)) err = fat_sync_bhs(bhs, n)] *)
Definition dirsync_bhs (dir : finode) (bs : list Z) (s : fatfs) : Z * fatfs :=
  if is_dirsync dir then fat_sync_bhs env bs s else (0, s).

(** [k] blocks are left to clear; [bhs] are the buffers held. *)
Fixpoint zero_loop (k : nat) (blknr : Z) (bhs : list Z) (dir : finode) (s : fatfs) : Z * list Z * fatfs :=
  match k with
  | O => (0, bhs, s)
  | S k =>
    if negb (getblk env blknr) then (- ENOMEM, bhs, s) else
    let s := new_buffer blknr (replicate (Z.to_nat (s_blocksize sb)) 0) s in
    let bhs := bhs ++ [blknr] in
    if Z.of_nat (length bhs) =? MAX_BUF_PER_PAGE then
      let '(err, s) := dirsync_bhs dir bhs s in
      if negb (err =? 0) then (err, bhs, s) else zero_loop k (blknr + 1) [] dir s
    else zero_loop k (blknr + 1) bhs dir s
  end.

(** [bhs] are the first [nr_used] buffers. *)
Definition fat_zeroed_cluster (blknr nr_used : Z) (bhs : list Z) (dir : finode) (s : fatfs) : Z * fatfs :=
  let '(err, bhs, s) := zero_loop (Z.to_nat (sec_per_clus lay - nr_used)) (blknr + nr_used) bhs dir s in
  if negb (err =? 0) then (err, bforget bhs s) else
  let '(err, s) := dirsync_bhs dir bhs s in
  if negb (err =? 0) then (err, bforget bhs s) else (0, s).

(** The bytes of an entry of a new directory. *)
Definition dot_entry (isvfat : bool) (name : list Z) (start time date : Z) : msdos_dir_entry :=
  let v x := le_bytes 2 (if isvfat then x else 0) in
  name ++ [ATTR_DIR; 0; 0] ++ v time ++ v date ++ v date ++ le_bytes 2 (Z.shiftr start 16) ++
  le_bytes 2 time ++ le_bytes 2 date ++ le_bytes 2 start ++ le_bytes 4 0.

(** The first cluster of a new directory in [dir]: the cluster, or an error. *)
Definition fat_alloc_new_dir (isvfat : bool) (tz tv_sec : Z) (dir : finode) (s : fatfs) : outcome (Z * fatfs) :=
  '(err, cl, s) ← fat_alloc_clusters env sb ops needs_sync 1 s;
  if negb (err =? 0) then Ret (err, s) else
  match cl with
  | [] => Undef
  | cluster :: _ =>
    let blknr := fat_clus_to_blknr lay cluster in
    if negb (getblk env blknr) then '(_, s) ← fat_free_clusters env sb ops cluster s; Ret (- ENOMEM, s) else
    '(time, date) ← fat_date_unix2dos tz tv_sec;
    let de := dot_entry isvfat MSDOS_DOT cluster time date ++ dot_entry isvfat MSDOS_DOTDOT (i_logstart dir) time date in
    let s := new_buffer blknr (de ++ replicate (Z.to_nat (s_blocksize sb - 64)) 0) s in
    let '(err, s) := fat_zeroed_cluster blknr 1 [blknr] dir s in
    if negb (err =? 0) then '(_, s) ← fat_free_clusters env sb ops cluster s; Ret (err, s) else Ret (cluster, s)
  end.

(** The blocks of one cluster filled with slots: an error or not, the buffer at
    which the slots ran out, the bytes put there, the slots left and the full
    buffers. *)
Fixpoint fill_blocks (k : nat) (blknr : Z) (slots bhs : list Z) (s : fatfs) : outcome (Z * option (Z * Z) * list Z * list Z * fatfs) :=
  match k with
  | O => Ret (0, None, slots, bhs, s)
  | S k =>
    if MAX_BUF_PER_PAGE <=? Z.of_nat (length bhs) then Undef else
    if negb (getblk env blknr) then Ret (- ENOMEM, None, slots, bhs, s) else
    let copy := Z.min (Z.of_nat (length slots)) (s_blocksize sb) in
    let old := default (replicate (Z.to_nat (s_blocksize sb)) 0) (blk s !! blknr) in
    let s := new_buffer blknr (take (Z.to_nat copy) slots ++ drop (Z.to_nat copy) old) s in
    let slots := drop (Z.to_nat copy) slots in
    if bool_decide (slots = []) then Ret (0, Some (blknr, copy), slots, bhs, s)
    else fill_blocks k (blknr + 1) slots (bhs ++ [blknr]) s
  end.

(** The [do ... while] loop over the clusters, with [start_blknr] of the last one. *)
Fixpoint fill_clusters (cl : list Z) (slots bhs : list Z) (s : fatfs) : outcome (Z * option (Z * Z) * Z * list Z * fatfs) :=
  match cl with
  | [] => Undef
  | c :: cl =>
    let start_blknr := fat_clus_to_blknr lay c in
    '(err, last, slots, bhs, s) ← fill_blocks (Z.to_nat (sec_per_clus lay)) start_blknr slots bhs s;
    if negb (err =? 0) then Ret (err, None, start_blknr, bhs, s) else
    match cl with [] => Ret (0, last, start_blknr, bhs, s) | _ => fill_clusters cl slots bhs s end
  end.

(** The cluster or an error, with [nr_cluster] and the last entry. *)
Definition fat_add_new_entries (slots : list Z) (nr : Z) (dir : finode) (s : fatfs) : outcome (Z * Z * option ptr * fatfs) :=
  let nr_cluster := Z.shiftr (nr * 32 + (2 ^ cluster_bits lay - 1)) (cluster_bits lay) in
  if 2 <? nr_cluster then Bug else
  '(err, cl, s) ← fat_alloc_clusters env sb ops needs_sync nr_cluster s;
  if negb (err =? 0) then Ret (err, nr_cluster, None, s) else
  '(err, last, start_blknr, bhs, s) ← fill_clusters cl (take (Z.to_nat (nr * 32)) slots) [] s;
  let first := default 0 (head cl) in
  if negb (err =? 0) then '(_, s) ← fat_free_clusters env sb ops first (bforget bhs s); Ret (err, nr_cluster, None, s) else
  match last with
  | None => Undef
  | Some (b, copy) =>
    s ← poke_bytes s (b, copy) (replicate (Z.to_nat (s_blocksize sb - copy)) 0);
    let bhs := bhs ++ [b] in
    let '(err, s) := fat_zeroed_cluster start_blknr (Z.of_nat (length bhs)) bhs dir s in
    if negb (err =? 0) then '(_, s) ← fat_free_clusters env sb ops first s; Ret (err, nr_cluster, None, s)
    else Ret (first, nr_cluster, Some (b, copy - 32), s)
  end.

(** How the search for free slots ends. *)
Inductive free_search := TooLong | FoundSlots (de : ptr) | AtEnd.

(** [bhs] are the buffers of the free slots seen last, at most three. *)
Fixpoint find_slots (fuel : nat) (nr : Z) (cur : option ptr) (pos free_slots : Z) (bhs : list Z) (prev : option Z) (dir : finode) (s : fatfs)
    : outcome (free_search * Z * Z * list Z * finode * fatfs) :=
  match fuel with
  | O => NoFuel
  | S fuel =>
    '(cur, pos, dir, s) ← fat_get_entry cur pos dir s;
    match cur with
    | None => Ret (AtEnd, pos, free_slots, bhs, dir, s)
    | Some (b, o) =>
      if FAT_MAX_DIR_SIZE <=? pos then Ret (TooLong, pos, free_slots, bhs, dir, s) else
      e ← dirent s (b, o);
      if IS_FREE (de_name e) then
        bhs ← (if bool_decide (prev = Some b) then Ret bhs else if (3 <=? length bhs)%nat then Undef else Ret (bhs ++ [b]));
        if free_slots + 1 =? nr then Ret (FoundSlots (b, o), pos, free_slots + 1, bhs, dir, s)
        else find_slots fuel nr cur pos (free_slots + 1) bhs (Some b) dir s
      else find_slots fuel nr cur pos 0 [] None dir s
    end
  end.

(** Slots copied into the buffers one after the other: the offset, the number of
    bytes and the slots left. *)
Fixpoint fill_slots (bs : list Z) (offset size : Z) (slots : list Z) (s : fatfs) : outcome (Z * Z * list Z * fatfs) :=
  match bs with
  | [] => Ret (offset, size, slots, s)
  | b :: bs =>
    let copy := Z.min (s_blocksize sb - offset) size in
    s ← poke_bytes s (b, offset) (take (Z.to_nat copy) slots);
    fill_slots bs 0 (size - copy) (drop (Z.to_nat copy) slots) (mark_buffer_dirty b s)
  end.

(** Second stage: long name slots first, the short name last. *)
Definition fill_free (all : bool) (pos free_slots : Z) (bhs slots : list Z) (dir : finode) (s : fatfs) : outcome (Z * list Z * fatfs) :=
  if free_slots =? 0 then Ret (0, slots, s) else
  let long_bhs := (length bhs - (if all then 1 else 0))%nat in
  '(offset, size, slots, s) ← fill_slots (take long_bhs bhs) (Z.land pos (s_blocksize sb - 1)) (free_slots * 32) slots s;
  let '(err, s) := if (long_bhs =? 0)%nat then (0, s) else dirsync_bhs dir (take long_bhs bhs) s in
  if negb (err =? 0) then Ret (err, slots, s) else
  match drop long_bhs bhs with
  | [] => Ret (0, slots, s)
  | b :: _ =>
    '(_, _, slots, s) ← fill_slots [b] offset size slots s;
    let '(err, s) := dirsync_buffer dir b s in Ret (err, slots, s)
  end.

(** Third stage: the entries that did not fit, in new clusters at the end of the
    directory; the last entry and the directory grown by the clusters. *)
Definition add_clusters (slots : list Z) (nr : Z) (dir : finode) (s : fatfs) : outcome (Z * option ptr * finode * fatfs) :=
  '(cluster, nr_cluster, de, s) ← fat_add_new_entries slots nr dir s;
  if cluster <? 0 then Ret (cluster, None, dir, s) else
  '(err, dir, s) ← fat_chain_add env sb lay ops needs_sync sync_inode alloc sleep cluster nr_cluster dir s;
  if negb (err =? 0) then '(_, s) ← fat_free_clusters env sb ops cluster s; Ret (err, None, dir, s) else
  let size := 2 ^ cluster_bits lay in
  let '(i_sz, s) := if negb (Z.land (i_size dir) (size - 1) =? 0)
                    then (Z.land (i_size dir + size - 1) (Z.lnot (size - 1)), fat_fs_panic s) else (i_size dir, s) in
  let grow := Z.shiftl nr_cluster (cluster_bits lay) in
  Ret (0, de, set_mmu (mmu_private dir + grow) (set_size (i_sz + grow) dir), s).

Definition fat_add_entries (slots : list Z) (nr : Z) (dir : finode) (s : fatfs) : outcome (Z * option fat_slot_info * finode * fatfs) :=
  '(r, pos, free_slots, bhs, dir, s) ← find_slots (dir_fuel dir) nr None 0 0 [] None dir s;
  match r with
  | TooLong => Ret (- ENOSPC, None, dir, s)
  | _ =>
    let at_end := match r with AtEnd => true | _ => false end in
    if at_end && (i_ino dir =? MSDOS_ROOT_INO) && negb (fat_bits sb =? 32) then Ret (- ENOSPC, None, dir, s) else
    if at_end && negb (i_ino dir =? MSDOS_ROOT_INO) && (i_start dir =? 0) then Ret (- EIO, None, dir, s) else
    let pos := pos - free_slots * 32 in
    let nr_left := nr - free_slots in
    '(err, slots, s) ← fill_free (nr_left =? 0) pos free_slots bhs slots dir s;
    '(err, de, dir, s) ← (if negb (err =? 0) then Ret (err, None, dir, s)
                          else if negb (nr_left =? 0) then add_clusters slots nr_left dir s
                          else Ret (0, match r with FoundSlots de => Some de | _ => None end, dir, s));
    if negb (err =? 0) then
      '(_, dir, s) ← (if negb (free_slots =? 0) then __fat_remove_entries (S (Z.to_nat free_slots)) pos (Z.to_nat free_slots) dir s
                      else Ret (0, dir, s));
      Ret (err, None, dir, s)
    else match de with
         | Some de => Ret (0, Some (SlotInfo (fat_make_i_pos de) pos nr de), dir, s)
         | None => Undef
         end
  end.
End dir.

(** ** The directory as an array of entries

    What a walk needs of the mapping of a directory's blocks: there are [blocks]
    of them, block [i] is at [phys i], whatever inode that satisfies [inv] and
    state that satisfies [good] the mapping is asked on; writing into the blocks
    of the directory does not change the mapping. *)

Class DirMap (sb : sb_info) (lay : layout) (ops : fatent_operations) (alloc : bool) (sleep : finode → finode)
    (inv : finode → Prop) (good : fatfs → Prop) (blocks : Z) (phys : Z → Z) : Prop := {
  map_geometry : geometry sb;
  map_in dir i s : good s → inv dir → 0 ≤ i < blocks →
    ∃ m dir', fat_bmap sb lay ops alloc sleep dir i s = Ret (0, phys i, m, dir', s) ∧ inv dir';
  map_out dir s : good s → inv dir → ∃ m dir', fat_bmap sb lay ops alloc sleep dir blocks s = Ret (0, 0, m, dir', s) ∧ inv dir';
  map_fuel dir : inv dir → 0 ≤ blocks ≤ dir_blocks sb lay dir;
  map_inj i j : 0 ≤ i < blocks → 0 ≤ j < blocks → phys i = phys j → i = j;
  map_block s i : good s → 0 ≤ i < blocks → phys i ≠ 0 ∧ ∃ bs, blk s !! phys i = Some bs ∧ Z.of_nat (length bs) = s_blocksize sb;
  map_put s t i bs : good s → 0 ≤ i < blocks → Z.of_nat (length bs) = s_blocksize sb → blk t = <[phys i := bs]> (blk s) → good t;
  map_dirty dir : inv dir → inv (mark_inode_dirty dir)
}.

Section walk.
Context (env : env) (sb : sb_info) (lay : layout) (ops : fatent_operations) (alloc : bool) (sleep : finode → finode).
Context (inv : finode → Prop) (good : fatfs → Prop) (blocks : Z) (phys : Z → Z) `{!DirMap sb lay ops alloc sleep inv good blocks phys}.

Abbreviation dpb := (dir_per_block sb).

(** The number of entries, where entry [k] is and what it is. *)
Definition nr_entries : Z := blocks * dpb.
Definition place_of (k : Z) : ptr := (phys (k / dpb), k mod dpb * 32).
Definition entry_of (t : fatfs) (k : Z) : msdos_dir_entry :=
  take 32 (drop (Z.to_nat (k mod dpb * 32)) (default [] (blk t !! phys (k / dpb)))).

(** The walk stands before entry [k]. *)
Definition before (k : Z) (cur : option ptr) (pos : Z) : Prop := pos = 32 * k ∧ (cur = None ∨ (0 < k ∧ cur = Some (place_of (k - 1)))).

Lemma dpb_pos : 16 ≤ dpb ∧ s_blocksize sb = dpb * 32.
Proof.
  pose proof (geo_bits sb map_geometry) as Hb. unfold dir_per_block, s_blocksize.
  replace (s_blocksize_bits sb) with (s_blocksize_bits sb - 5 + 5) by lia. rewrite Z.pow_add_r by lia. change (2 ^ 5) with 32.
  rewrite Z.div_mul by lia. split; [|done]. apply (Z.pow_le_mono_r 2 4). all: lia.
Qed.

Lemma pos_block k : 0 ≤ k → Z.shiftr (32 * k) (s_blocksize_bits sb) = k / dpb ∧ Z.land (32 * k) (s_blocksize sb - 1) = k mod dpb * 32.
Proof.
  intros Hk. pose proof (geo_bits sb map_geometry) as Hb. destruct dpb_pos as [Hd E]. split.
  - rewrite Z.shiftr_div_pow2 by lia. fold (s_blocksize sb). rewrite E, (Z.mul_comm dpb). by rewrite Z.div_mul_cancel_l by lia.
  - replace (s_blocksize sb - 1) with (Z.ones (s_blocksize_bits sb)) by (rewrite Z.ones_equiv; unfold s_blocksize; lia).
    rewrite Z.land_ones by lia. fold (s_blocksize sb). rewrite E, (Z.mul_comm 32), Z.mul_mod_distr_r by lia. done.
Qed.

Lemma in_block k : 0 ≤ k < nr_entries → 0 ≤ k / dpb < blocks ∧ 0 ≤ k mod dpb < dpb.
Proof.
  unfold nr_entries. intros Hk. destruct dpb_pos as [Hd _]. pose proof (Z.mod_pos_bound k dpb ltac:(lia)).
  split; [|done]. split; [apply Z.div_pos; lia|]. apply Z.div_lt_upper_bound; lia.
Qed.

Section search.
Context (s : fatfs) (Hs : good s).

(** The slow path finds entry [k] from its position alone. *)
Lemma slow_entry k dir fuel :
  inv dir → fuel ≠ O → 0 ≤ k ≤ nr_entries →
  ∃ dir', fat__get_entry sb lay ops alloc sleep fuel (32 * k) dir s =
    Ret (if k <? nr_entries then (Some (place_of k), 32 * (k + 1), dir', s) else (None, 32 * k, dir', s)) ∧ inv dir'.
Proof.
  intros Hi Hf Hk. destruct fuel as [|fuel]; [done|]. cbn [fat__get_entry]. destruct (pos_block k ltac:(lia)) as [-> ->].
  destruct (Z.ltb_spec k nr_entries).
  - destruct (in_block k ltac:(lia)) as [Hb Ho]. destruct (map_in dir (k / dpb) s Hs Hi Hb) as (m & dir' & -> & Hi'). cbn [mbind outcome_bind].
    destruct (map_block s (k / dpb) Hs Hb) as (Hp & bs & Hbs & _). change (0 =? 0) with true. destruct (Z.eqb_spec (phys (k / dpb)) 0); [done|].
    cbn [negb orb]. unfold sb_bread. rewrite Hbs. cbn [negb]. exists dir'. split; [|done]. unfold place_of. do 3 f_equal. f_equal. lia.
  - destruct dpb_pos as [Hd _]. assert (k / dpb = blocks) as -> by (replace k with nr_entries by lia; apply Z.div_mul; lia).
    destruct (map_out dir s Hs Hi) as (m & dir' & -> & Hi'). cbn [mbind outcome_bind]. by exists dir'.
Qed.

Lemma get_entry_spec k cur pos dir :
  inv dir → before k cur pos → 0 ≤ k ≤ nr_entries →
  ∃ dir', fat_get_entry sb lay ops alloc sleep cur pos dir s =
    Ret (if k <? nr_entries then (Some (place_of k), 32 * (k + 1), dir', s) else (None, 32 * k, dir', s)) ∧ inv dir'.
Proof.
  intros Hi [-> Hc] Hk. destruct Hc as [->|[Hk0 ->]]; [by apply slow_entry|]. unfold fat_get_entry, place_of at 1.
  destruct dpb_pos as [Hd E]. rewrite Z.div_mul by lia. destruct (Z.ltb_spec ((k - 1) mod dpb) (dpb - 1)) as [Hlt|]; [|by apply slow_entry].
  assert (k / dpb = (k - 1) / dpb ∧ k mod dpb = (k - 1) mod dpb + 1) as [Eq Em].
  { pose proof (Z.div_mod (k - 1) dpb ltac:(lia)). pose proof (Z.mod_pos_bound (k - 1) dpb ltac:(lia)).
    assert (k = dpb * ((k - 1) / dpb) + ((k - 1) mod dpb + 1)) as Ek by lia. split.
    - symmetry. by apply (Z.div_unique_pos k dpb _ ((k - 1) mod dpb + 1)); [lia|].
    - symmetry. by apply (Z.mod_unique_pos k dpb ((k - 1) / dpb)); [lia|]. }
  assert (k < nr_entries) as Hn.
  { destruct (decide (k = nr_entries)) as [->|]; [|lia]. unfold nr_entries in Em. rewrite Z.mod_mul in Em by lia.
    pose proof (Z.mod_pos_bound (blocks * dpb - 1) dpb ltac:(lia)). lia. }
  exists dir. destruct (Z.ltb_spec k nr_entries); [|lia]. split; [|done]. unfold place_of. rewrite Eq, Em.
  by replace (((k - 1) mod dpb + 1) * 32) with ((k - 1) mod dpb * 32 + 32) by lia; replace (32 * (k + 1)) with (32 * k + 32) by lia.
Qed.

Lemma before_next k : 0 ≤ k → before (k + 1) (Some (place_of k)) (32 * (k + 1)).
Proof. intros. split; [done|]. right. split; [lia|]. by replace (k + 1 - 1) with k by lia. Qed.

Lemma dirent_spec k : 0 ≤ k < nr_entries → dirent s (place_of k) = Ret (entry_of s k).
Proof.
  intros Hk. destruct (in_block k Hk) as [Hb Ho]. destruct (map_block s (k / dpb) Hs Hb) as (_ & bs & Hbs & Hl). destruct dpb_pos as [Hd E].
  unfold dirent, buffer, entry_of, place_of. cbn [fst snd]. rewrite Hbs. cbn [mbind outcome_bind from_option].
  rewrite decide_True by nia. done.
Qed.

(** The first entry from [k] on with a property, if there is one. *)
Definition first_from (P : Z → bool) (k : Z) (r : option Z) : Prop :=
  match r with
  | Some j => k ≤ j < nr_entries ∧ P j = true ∧ ∀ i, k ≤ i < j → P i = false
  | None => ∀ i, k ≤ i < nr_entries → P i = false
  end.

Lemma first_from_step P k r : P k = false → first_from P (k + 1) r → first_from P k r.
Proof.
  intros Hk. assert (∀ i, k ≤ i → i = k ∨ k + 1 ≤ i) as Hc by lia. destruct r as [j|]; simpl.
  - intros (H1 & H2 & H3). split; [lia|]. split; [done|]. intros i Hi. destruct (Hc i); [lia|by subst|]. apply H3. lia.
  - intros H i Hi. destruct (Hc i); [lia|by subst|]. apply H. lia.
Qed.

Lemma first_from_trans (P Q : Z → bool) k j r :
  first_from P k (Some j) → Q j = false → (∀ i, Q i = true → P i = true) → first_from Q (j + 1) r → first_from Q k r.
Proof.
  intros (H1 & _ & H3) Hq Himp. assert (∀ i, k ≤ i ≤ j → Q i = false) as Hb.
  { intros i Hi. destruct (decide (i = j)) as [->|]; [done|]. specialize (H3 i ltac:(lia)). destruct (Q i) eqn:EQ; [|done]. by rewrite (Himp i EQ) in H3. }
  assert (∀ i, k ≤ i → i ≤ j ∨ j + 1 ≤ i) as Hc by lia. destruct r as [j'|]; simpl.
  - intros (G1 & G2 & G3). split; [lia|]. split; [done|]. intros i Hi. destruct (Hc i); [lia|apply Hb; lia|apply G3; lia].
  - intros G i Hi. destruct (Hc i); [lia|apply Hb; lia|apply G; lia].
Qed.

Definition live (k : Z) : bool := is_short (entry_of s k).

(** Where a search stands after it found [r]. *)
Definition stands (r : option Z) (cur : option ptr) (pos : Z) : Prop :=
  cur = place_of <$> r ∧ match r with Some j => pos = 32 * (j + 1) | None => True end.

Lemma short_loop_spec fuel k cur pos dir :
  inv dir → before k cur pos → 0 ≤ k ≤ nr_entries → (Z.to_nat (nr_entries - k) < fuel)%nat →
  ∃ r cur' pos' dir', short_loop sb lay ops alloc sleep fuel cur pos dir s = Ret (cur', pos', dir', s) ∧ inv dir' ∧
    first_from live k r ∧ stands r cur' pos'.
Proof.
  revert k cur pos dir. induction fuel as [|fuel IH]; intros k cur pos dir Hi Hb Hk Hf; [lia|]. cbn [short_loop].
  destruct (get_entry_spec k cur pos dir Hi Hb Hk) as (dir' & -> & Hi'). destruct (Z.ltb_spec k nr_entries) as [Hlt|Hge]; cbn [mbind outcome_bind].
  - rewrite dirent_spec by lia. cbn [mbind outcome_bind]. destruct (is_short (entry_of s k)) eqn:El.
    + exists (Some k), (Some (place_of k)), (32 * (k + 1)), dir'. split; [done|]. split; [done|]. split; [|done].
      split; [lia|]. split; [done|]. intros; lia.
    + destruct (IH (k + 1) (Some (place_of k)) (32 * (k + 1)) dir' Hi' (before_next k ltac:(lia))) as (r & cur' & pos' & dir2 & E & Hi2 & Hr & Hst); [lia|lia|].
      exists r, cur', pos', dir2. split; [exact E|]. split; [done|]. split; [|done]. by apply first_from_step.
  - exists None, None, (32 * k), dir'. split; [done|]. split; [done|]. split; [|done]. intros i Hi''. lia.
Qed.

Lemma enough_fuel dir k : inv dir → 0 ≤ k → (Z.to_nat (nr_entries - k) < dir_fuel sb lay dir)%nat.
Proof. intros Hi Hk. destruct (map_fuel dir Hi), dpb_pos. unfold dir_fuel, nr_entries. nia. Qed.

Lemma stands_before r j cur pos : stands r cur pos → r = Some j → 0 ≤ j → before (j + 1) cur pos.
Proof. intros [-> Hp] -> Hj. rewrite Hp. by apply before_next. Qed.

Lemma while_short_spec fuel stop k cur pos dir :
  inv dir → before k cur pos → 0 ≤ k ≤ nr_entries → (Z.to_nat (nr_entries - k) < fuel)%nat →
  ∃ r cur' pos' dir', while_short sb lay ops alloc sleep fuel stop cur pos dir s = Ret (cur', pos', dir', s) ∧ inv dir' ∧
    first_from (λ j, live j && stop (entry_of s j)) k r ∧ stands r cur' pos'.
Proof.
  revert k cur pos dir. induction fuel as [|fuel IH]; intros k cur pos dir Hi Hb Hk Hf; [lia|]. cbn [while_short]. unfold fat_get_short_entry.
  destruct (short_loop_spec (dir_fuel sb lay dir) k cur pos dir Hi Hb Hk (enough_fuel dir k Hi ltac:(lia))) as (r & cur1 & pos1 & dir1 & -> & Hi1 & Hr & Hst).
  cbn [mbind outcome_bind]. destruct r as [j|].
  - pose proof Hst as [-> Hp]. destruct Hr as (Hj & Hl & Hn). cbn [fmap option_fmap option_map]. rewrite dirent_spec by lia. cbn [mbind outcome_bind].
    destruct (stop (entry_of s j)) eqn:Est.
    + exists (Some j), (Some (place_of j)), pos1, dir1. split; [done|]. split; [done|]. split; [|done]. split; [lia|]. split; [by rewrite Hl|].
      intros i Hi'. by rewrite Hn.
    + destruct (IH (j + 1) _ pos1 dir1 Hi1 (stands_before _ j _ _ Hst eq_refl ltac:(lia))) as (r & cur' & pos' & dir2 & E & Hi2 & Hr' & Hst'); [lia|lia|].
      exists r, cur', pos', dir2. split; [exact E|]. split; [done|]. split; [|done].
      eapply (first_from_trans live); [done|by rewrite Est, andb_false_r|by intros i [? _]%andb_prop|done].
  - destruct Hst as [-> _]. exists None, None, pos1, dir1. split; [done|]. split; [done|]. split; [|done].
    intros i Hi'. specialize (Hr i Hi'). cbn. by rewrite Hr.
Qed.

Lemma scan_spec name dir :
  inv dir →
  ∃ r dir', fat_scan sb lay ops alloc sleep name dir s =
    Ret (match r with
         | Some j => (0, Some (SlotInfo (fat_make_i_pos lay (place_of j)) (32 * j) 1 (place_of j)), dir', s)
         | None => (- ENOENT, None, dir', s)
         end) ∧ inv dir' ∧ first_from (λ j, live j && strncmp_eq MSDOS_NAME (de_name (entry_of s j)) name) 0 r.
Proof.
  intros Hi. destruct (while_short_spec (dir_fuel sb lay dir) (λ e, strncmp_eq MSDOS_NAME (de_name e) name) 0 None 0 dir Hi)
    as (r & cur & pos & dir' & E & Hi' & Hr & -> & Hp); [by split; [|left]| |by apply enough_fuel|].
  { destruct (map_fuel dir Hi), dpb_pos. unfold nr_entries. nia. }
  exists r, dir'. split; [|done]. unfold fat_scan. rewrite E. cbn [mbind outcome_bind]. destruct r as [j|]; [|done].
  cbn [fmap option_fmap option_map]. rewrite Hp. by replace (32 * (j + 1) - 32) with (32 * j) by lia.
Qed.

(** Counting from the next live entry on. *)
Lemma cnt_first (Q : Z → bool) k r :
  first_from live k r → 0 ≤ k ≤ nr_entries → (∀ i, Q i = true → live i = true) →
  cnt Q (seqZ k (nr_entries - k)) = match r with Some j => b2z (Q j) + cnt Q (seqZ (j + 1) (nr_entries - (j + 1))) | None => 0 end.
Proof.
  intros Hr Hk HQ. assert (∃ n : nat, n = Z.to_nat (match r with Some j => j | None => nr_entries end - k)) as [n Hn] by eauto.
  assert (∀ i, live i = false → Q i = false) as HQ' by (intros i Hl; destruct (Q i) eqn:E; [by rewrite HQ in Hl|done]).
  revert k Hr Hk Hn. induction n as [|n IH]; intros k Hr Hk Hn.
  - destruct r as [j|].
    + destruct Hr as (Hj & _). assert (j = k) as -> by lia. rewrite seqZ_cons by lia.
      replace (Z.succ k) with (k + 1) by lia. by replace (Z.pred (nr_entries - k)) with (nr_entries - (k + 1)) by lia.
    + replace (nr_entries - k) with 0 by lia. done.
  - assert (k < nr_entries) by (destruct r; [destruct Hr; lia|lia]).
    rewrite seqZ_cons by lia. cbn [cnt]. rewrite HQ'; [|destruct r as [j|]; [apply Hr; lia|apply Hr; lia]].
    replace (Z.succ k) with (k + 1) by lia. replace (Z.pred (nr_entries - k)) with (nr_entries - (k + 1)) by lia.
    rewrite (IH (k + 1)); [done| |lia|lia]. destruct r as [j|]; simpl in *; [|intros i Hi; apply Hr; lia].
    destruct Hr as (Hj & Hl & Hb). split; [lia|]. split; [done|]. intros i Hi. apply Hb. lia.
Qed.

Definition live_dir (k : Z) : bool := live k && z2b (Z.land (de_attr (entry_of s k)) ATTR_DIR).

Lemma subdirs_loop_spec fuel count k cur pos dir :
  inv dir → before k cur pos → 0 ≤ k ≤ nr_entries → (Z.to_nat (nr_entries - k) < fuel)%nat →
  ∃ dir', subdirs_loop sb lay ops alloc sleep fuel count cur pos dir s = Ret (count + cnt live_dir (seqZ k (nr_entries - k)), dir', s) ∧ inv dir'.
Proof.
  revert count k cur pos dir. induction fuel as [|fuel IH]; intros count k cur pos dir Hi Hb Hk Hf; [lia|]. cbn [subdirs_loop]. unfold fat_get_short_entry.
  destruct (short_loop_spec (dir_fuel sb lay dir) k cur pos dir Hi Hb Hk (enough_fuel dir k Hi ltac:(lia))) as (r & cur1 & pos1 & dir1 & -> & Hi1 & Hr & Hst).
  rewrite (cnt_first live_dir k r Hr Hk) by (by intros i [? _]%andb_prop). cbn [mbind outcome_bind]. destruct r as [j|].
  - pose proof Hst as [-> Hp]. destruct Hr as (Hj & Hl & Hn). cbn [fmap option_fmap option_map]. rewrite dirent_spec by lia. cbn [mbind outcome_bind].
    destruct (IH (if z2b (Z.land (de_attr (entry_of s j)) ATTR_DIR) then count + 1 else count) (j + 1) _ pos1 dir1 Hi1
      (stands_before _ j _ _ Hst eq_refl ltac:(lia))) as (dir2 & E & Hi2); [lia|lia|]. exists dir2. split; [|done].
    cbn [fmap option_fmap option_map] in E. rewrite E. unfold live_dir at 2. rewrite Hl. cbn [andb]. do 3 f_equal.
    destruct (z2b _); cbn [b2z]; lia.
  - destruct Hst as [-> _]. exists dir1. by rewrite Z.add_0_r.
Qed.

Lemma subdirs_spec dir :
  inv dir → ∃ dir', fat_subdirs sb lay ops alloc sleep dir s = Ret (cnt live_dir (seqZ 0 nr_entries), dir', s) ∧ inv dir'.
Proof.
  intros Hi. destruct (subdirs_loop_spec (dir_fuel sb lay dir) 0 0 None 0 dir Hi) as (dir' & E & Hi'); [by split; [|left]| |by apply enough_fuel|].
  { destruct (map_fuel dir Hi), dpb_pos. unfold nr_entries. nia. }
  exists dir'. rewrite Z.sub_0_r in E. done.
Qed.
End search.

(** ** Changing an entry *)

(** The blocks of [s] with the bytes of entry [k] replaced. *)
Definition put_entry (s : fatfs) (k : Z) (e : msdos_dir_entry) : gmap Z (list Z) :=
  <[phys (k / dpb) := splice (Z.to_nat (k mod dpb * 32)) e (default [] (blk s !! phys (k / dpb)))]> (blk s).

Lemma put_entry_spec s t k e :
  good s → 0 ≤ k < nr_entries → length e = 32%nat → blk t = put_entry s k e →
  good t ∧ ∀ j, 0 ≤ j < nr_entries → entry_of t j = if decide (j = k) then e else entry_of s j.
Proof.
  intros Hs Hk He Et. destruct (in_block k Hk) as [Hb Ho]. destruct (map_block s _ Hs Hb) as (_ & bs & Hbs & Hl). destruct dpb_pos as [Hd E].
  unfold put_entry in Et. rewrite Hbs in Et. cbn [from_option default] in Et. unfold id in Et.
  assert (Z.to_nat (k mod dpb * 32) + 32 ≤ length bs)%nat as Hin by nia.
  split; [eapply map_put; [done|exact Hb| |exact Et]; rewrite length_splice; [done|lia]|].
  intros j Hj. destruct (in_block j Hj) as [Hbj Hoj]. unfold entry_of. rewrite Et. destruct (decide (j / dpb = k / dpb)) as [Eq|Eq].
  - rewrite Eq, lookup_insert_eq, Hbs. cbn [from_option default]. unfold id. destruct (decide (j = k)) as [->|Hne].
    + rewrite <- He at 1. apply splice_at. lia.
    + apply splice_other; [lia|]. assert (j mod dpb ≠ k mod dpb).
      { intros Em. apply Hne. rewrite (Z.div_mod j dpb), (Z.div_mod k dpb) by lia. congruence. }
      lia.
  - rewrite lookup_insert_ne by (intros Ep; apply Eq; symmetry; by apply map_inj in Ep). rewrite decide_False; [done|]. by intros ->.
Qed.

Definition deleted (e : msdos_dir_entry) : msdos_dir_entry := DELETED_FLAG :: drop 1 e.

Lemma deleted_free e : IS_FREE (de_name (deleted e)) = true.
Proof. done. Qed.

Lemma entry_length s k : good s → 0 ≤ k < nr_entries → length (entry_of s k) = 32%nat.
Proof.
  intros Hs Hk. destruct (in_block k Hk) as [Hb Ho]. destruct (map_block s _ Hs Hb) as (_ & bs & Hbs & Hl). destruct dpb_pos as [Hd E].
  unfold entry_of. rewrite Hbs. apply take_drop_slice. cbn. unfold id. nia.
Qed.

(** Marking an entry deleted. *)
Lemma poke_deleted s k :
  good s → 0 ≤ k < nr_entries → ∃ t, poke s (place_of k) DELETED_FLAG = Ret t ∧ blk t = put_entry s k (deleted (entry_of s k)).
Proof.
  intros Hs Hk. destruct (in_block k Hk) as [Hb Ho]. destruct (map_block s _ Hs Hb) as (_ & bs & Hbs & Hl). destruct dpb_pos as [Hd E].
  unfold poke, buffer, place_of. cbn [fst snd]. rewrite Hbs. cbn [mbind outcome_bind]. rewrite aset_in by nia. cbn [mbind outcome_bind].
  eexists. split; [reflexivity|]. unfold put_entry, entry_of. rewrite Hbs. cbn [from_option set_blk blk]. unfold id. f_equal.
  assert (Z.to_nat (k mod dpb * 32) + 32 ≤ length bs)%nat as Hin by nia. set (o := Z.to_nat (k mod dpb * 32)) in *.
  rewrite insert_take_drop by lia. unfold splice, deleted. f_equal. cbn [app length]. f_equal.
  rewrite length_drop, length_take, length_drop, Nat.min_l by lia. rewrite skipn_firstn_comm, drop_drop.
  rewrite <- (take_drop 31 (drop (S o) bs)) at 1. rewrite drop_drop. f_equal; f_equal; lia || (f_equal; lia).
Qed.

Context (Hq : quiet env).

Lemma dirsync_quiet dir b s : ∃ t, dirsync_buffer env dir b s = (0, t) ∧ blk t = blk s.
Proof. destruct Hq as (_ & Hy & _). unfold dirsync_buffer, sync_dirty_buffer. destruct (is_dirsync dir); [rewrite Hy|]; by eexists. Qed.

Lemma remove_one s k i off dir :
  good s → 0 ≤ k < nr_entries → inv dir →
  ∃ dir' t, fat_remove_entries env sb lay ops alloc sleep (SlotInfo i off 1 (place_of k)) dir s = Ret (0, dir', t) ∧
    inv dir' ∧ blk t = put_entry s k (deleted (entry_of s k)).
Proof.
  intros Hs Hk Hi. destruct (poke_deleted s k Hs Hk) as (s1 & Hp & Hb). destruct (in_block k Hk) as [_ Ho].
  unfold fat_remove_entries. cbn [si_de nr_slots]. unfold place_of in *. change (Z.to_nat 1) with 1%nat. cbn [delete_backward].
  destruct (Z.leb_spec 0 (k mod dpb * 32)); [|lia]. rewrite Hp. cbn [mbind outcome_bind].
  destruct (dirsync_quiet dir (phys (k / dpb)) (mark_buffer_dirty (phys (k / dpb)) s1)) as (t & -> & Ht).
  cbn [negb Z.eqb Nat.eqb mbind outcome_bind]. eexists _, t. split; [reflexivity|]. split; [|by rewrite Ht].
  destruct (is_dirsync dir); [done|by apply map_dirty].
Qed.

(** ** Adding one entry *)

Definition free_at (s : fatfs) (k : Z) : bool := IS_FREE (de_name (entry_of s k)).

Lemma find_slots_spec s fuel k cur pos dir :
  good s → nr_entries * 32 < FAT_MAX_DIR_SIZE → inv dir → before k cur pos → 0 ≤ k ≤ nr_entries → (Z.to_nat (nr_entries - k) < fuel)%nat →
  ∃ r dir', find_slots sb lay ops alloc sleep fuel 1 cur pos 0 [] None dir s =
    Ret (match r with
         | Some j => (FoundSlots (place_of j), 32 * (j + 1), 1, [phys (j / dpb)], dir', s)
         | None => (AtEnd, 32 * nr_entries, 0, [], dir', s)
         end) ∧ inv dir' ∧ first_from (free_at s) k r.
Proof.
  intros Hs Hmax. revert k cur pos dir. induction fuel as [|fuel IH]; intros k cur pos dir Hi Hb Hk Hf; [lia|]. cbn [find_slots].
  destruct (get_entry_spec s Hs k cur pos dir Hi Hb Hk) as (dir' & -> & Hi'). destruct (Z.ltb_spec k nr_entries) as [Hlt|Hge]; cbn [mbind outcome_bind].
  - unfold place_of at 1. fold (place_of k). destruct (Z.leb_spec FAT_MAX_DIR_SIZE (32 * (k + 1))); [lia|].
    rewrite dirent_spec by (done || lia). cbn [mbind outcome_bind]. fold (free_at s k). destruct (free_at s k) eqn:Ef.
    + cbn [mbind outcome_bind bool_decide decide length Nat.leb app]. exists (Some k), dir'. split; [done|]. split; [done|].
      split; [lia|]. split; [done|]. intros; lia.
    + destruct (IH (k + 1) (Some (place_of k)) (32 * (k + 1)) dir' Hi' (before_next k ltac:(lia))) as (r & dir2 & E & Hi2 & Hr); [lia|lia|].
      exists r, dir2. split; [exact E|]. split; [done|]. by apply first_from_step.
  - exists None, dir'. replace k with nr_entries by lia. split; [done|]. split; [done|]. intros i Hi''. lia.
Qed.

Lemma poke_slot s k e :
  good s → 0 ≤ k < nr_entries → length e = 32%nat → ∃ t, poke_bytes s (place_of k) e = Ret t ∧ blk t = put_entry s k e.
Proof.
  intros Hs Hk He. destruct (in_block k Hk) as [Hb Ho]. destruct (map_block s _ Hs Hb) as (_ & bs & Hbs & Hl). destruct dpb_pos as [Hd E].
  unfold poke_bytes, buffer, place_of. cbn [fst snd]. rewrite Hbs. cbn [mbind outcome_bind]. rewrite decide_True by nia.
  eexists. split; [reflexivity|]. unfold put_entry. by rewrite Hbs.
Qed.

Lemma fill_free_one s k e dir :
  good s → 0 ≤ k < nr_entries → length e = 32%nat →
  ∃ rest t, fill_free env sb true (32 * k) 1 [phys (k / dpb)] e dir s = Ret (0, rest, t) ∧ blk t = put_entry s k e.
Proof.
  intros Hs Hk He. destruct (poke_slot s k e Hs Hk He) as (s1 & Hp & Hb). destruct (in_block k Hk) as [_ Ho]. destruct dpb_pos as [Hd E].
  unfold fill_free. change (1 =? 0) with false. cbn [length Nat.sub take drop fill_slots mbind outcome_bind Nat.eqb negb Z.eqb].
  destruct (pos_block k ltac:(lia)) as [_ ->]. change (1 * 32) with 32. rewrite Z.min_r by lia. rewrite take_ge by lia.
  fold (place_of k). rewrite Hp. cbn [mbind outcome_bind]. destruct (dirsync_quiet dir (phys (k / dpb)) (mark_buffer_dirty (phys (k / dpb)) s1)) as (t & -> & Ht).
  eexists _, t. split; [reflexivity|]. by rewrite Ht.
Qed.

Lemma add_one needs_sync sync_inode s e dir :
  good s → nr_entries * 32 < FAT_MAX_DIR_SIZE → inv dir → length e = 32%nat →
  ∃ r, first_from (free_at s) 0 r ∧
    match r with
    | Some j => ∃ dir' t, fat_add_entries env sb lay ops needs_sync sync_inode alloc sleep e 1 dir s =
                  Ret (0, Some (SlotInfo (fat_make_i_pos lay (place_of j)) (32 * j) 1 (place_of j)), dir', t) ∧
                  inv dir' ∧ blk t = put_entry s j e
    | None => i_ino dir = MSDOS_ROOT_INO → fat_bits sb ≠ 32 → (∀ d, inv d → i_ino d = i_ino dir) →
              ∃ dir', fat_add_entries env sb lay ops needs_sync sync_inode alloc sleep e 1 dir s = Ret (- ENOSPC, None, dir', s) ∧ inv dir'
    end.
Proof.
  intros Hs Hmax Hi He. destruct (find_slots_spec s (dir_fuel sb lay dir) 0 None 0 dir Hs Hmax Hi) as (r & dir' & E & Hi' & Hr);
    [by split; [|left]| |by apply enough_fuel|].
  { destruct (map_fuel dir Hi), dpb_pos. unfold nr_entries. nia. }
  exists r. split; [done|]. destruct r as [j|].
  - destruct Hr as (Hj & _). destruct (fill_free_one s j e dir' Hs Hj He) as (rest & t & Ef & Ht). exists dir', t. split; [|done].
    unfold fat_add_entries. rewrite E. cbn [mbind outcome_bind andb]. replace (32 * (j + 1) - 1 * 32) with (32 * j) by lia.
    change (1 - 1 =? 0) with true. rewrite Ef. done.
  - intros Hroot Hbits Hino. exists dir'. split; [|done]. unfold fat_add_entries. rewrite E. cbn [mbind outcome_bind andb].
    rewrite (Hino dir' Hi'), Hroot. change (MSDOS_ROOT_INO =? MSDOS_ROOT_INO) with true. by destruct (Z.eqb_spec (fat_bits sb) 32).
Qed.
End walk.

(** ** The two kinds of directory *)

(** The root of a twelve- or sixteen-bit file system lies in consecutive blocks. *)
Section root.
Context (sb : sb_info) (lay : layout) (ops : fatent_operations) (alloc : bool) (sleep : finode → finode) (geo : geometry sb).
Context (Hbits : fat_bits sb ≠ 32) (Hstart : 0 < dir_start lay) (Hent : 0 ≤ dir_entries lay).

Definition root_blocks : Z := Z.shiftr (dir_entries lay) (dir_per_block_bits lay).
Definition root_phys (i : Z) : Z := i + dir_start lay.
Definition root_inv (dir : finode) : Prop := i_ino dir = MSDOS_ROOT_INO.
Definition root_good (s : fatfs) : Prop :=
  ∀ i, 0 ≤ i < root_blocks → ∃ bs, blk s !! root_phys i = Some bs ∧ Z.of_nat (length bs) = s_blocksize sb.

Lemma root_bmap dir i s :
  root_inv dir → fat_bmap sb lay ops alloc sleep dir i s = Ret (if i <? root_blocks then (0, root_phys i, 1, dir, s) else (0, 0, 0, dir, s)).
Proof. intros Hi. unfold fat_bmap. rewrite Hi. by destruct (Z.eqb_spec (fat_bits sb) 32). Qed.

#[export] Instance root_map : DirMap sb lay ops alloc sleep root_inv root_good root_blocks root_phys.
Proof.
  split; [done|..].
  - intros dir i s _ Hi Hr. rewrite root_bmap by done. destruct (Z.ltb_spec i root_blocks); [|lia]. by exists 1, dir.
  - intros dir s _ Hi. rewrite root_bmap by done. destruct (Z.ltb_spec root_blocks root_blocks); [lia|]. by exists 0, dir.
  - intros dir _. unfold dir_blocks. fold root_blocks. assert (0 ≤ root_blocks) by (by apply Z.shiftr_nonneg). lia.
  - intros i j _ _. unfold root_phys. lia.
  - intros s i Hs Hi. split; [unfold root_phys; lia|by apply Hs].
  - intros s t i bs Hs Hi Hl Ht j Hj. rewrite Ht. destruct (decide (root_phys i = root_phys j)) as [<-|Hne].
    + exists bs. by rewrite lookup_insert_eq.
    + rewrite lookup_insert_ne by done. by apply Hs.
  - done.
Qed.
End root.

(** Any other directory is a chain of clusters that fills all of its size. *)
Section chain.
Context (sb : sb_info) (lay : layout) (ops : fatent_operations) `{!FatentLaws sb ops} (sleep : finode → finode) (cl : list Z).
Context (Hcr : cached_reads sb ops) (Hs : sleep_ok cl sleep) (Hlim : Z.of_nat (length cl) ≤ limit lay + 1).
Context (Hblk : s_blocksize_bits sb ≤ cluster_bits lay) (Hspc : sec_per_clus lay = 2 ^ (cluster_bits lay - s_blocksize_bits sb)).
Context (Hspc16 : sec_per_clus lay ≤ 2 ^ 16) (Hdata : fat_start sb + fat_length sb ≤ data_start lay < 2 ^ 32).
Context (Hsize : Z.of_nat (length cl) * sec_per_clus lay < 2 ^ 31).

Definition chain_blocks : Z := Z.of_nat (length cl) * sec_per_clus lay.
Definition chain_phys (i : Z) : Z :=
  (default 0 (at_place cl (i / sec_per_clus lay)) - FAT_START_ENT) * sec_per_clus lay + data_start lay + i mod sec_per_clus lay.
Definition chain_inv (dir : finode) : Prop :=
  i_start dir = default 0 (head cl) ∧ cache_ok cl 0 dir ∧ (fat_bits sb = 32 ∨ i_ino dir ≠ MSDOS_ROOT_INO) ∧
  mmu_private dir = chain_blocks * s_blocksize sb.
Definition chain_good (s : fatfs) : Prop :=
  wf sb s ∧ chain_in sb ops s cl ∧
  ∀ i, 0 ≤ i < chain_blocks → ∃ bs, blk s !! chain_phys i = Some bs ∧ Z.of_nat (length bs) = s_blocksize sb.

Lemma spc_pos : 0 < sec_per_clus lay.
Proof. rewrite Hspc. apply Z.pow_pos_nonneg; lia. Qed.

Lemma chain_at i : 0 ≤ i < chain_blocks → ∃ d, at_place cl (i / sec_per_clus lay) = Some d.
Proof.
  intros Hi. pose proof spc_pos. unfold chain_blocks in Hi. assert (0 ≤ i / sec_per_clus lay < Z.of_nat (length cl)) as Hq.
  { split; [apply Z.div_pos; lia|apply Z.div_lt_upper_bound; lia]. }
  unfold at_place. destruct (Z.ltb_spec (i / sec_per_clus lay) 0); [lia|]. apply lookup_lt_is_Some. lia.
Qed.

Lemma chain_phys_out s i : chain_in sb ops s cl → 0 ≤ i < chain_blocks → data_start lay ≤ chain_phys i.
Proof.
  intros [_ Hl] Hi. pose proof spc_pos. destruct (chain_at i Hi) as [d Hd]. unfold chain_phys. rewrite Hd. cbn. unfold id.
  destruct (place_lookup _ _ _ Hd) as [_ Hin%list_elem_of_lookup_2]. destruct (Hl d Hin) as [[H2 _] _]. unfold FAT_START_ENT in *.
  pose proof (Z.mod_pos_bound i (sec_per_clus lay)). nia.
Qed.

Lemma chain_map_inj i j : NoDup cl → 0 ≤ i < chain_blocks → 0 ≤ j < chain_blocks → chain_phys i = chain_phys j → i = j.
Proof.
  intros Hnd Hi Hj. pose proof spc_pos. destruct (chain_at i Hi) as [d Hd], (chain_at j Hj) as [d' Hd']. unfold chain_phys. rewrite Hd, Hd'. cbn. unfold id.
  intros E. pose proof (Z.mod_pos_bound i (sec_per_clus lay)). pose proof (Z.mod_pos_bound j (sec_per_clus lay)).
  assert (d = d' ∧ i mod sec_per_clus lay = j mod sec_per_clus lay) as [-> Em] by (destruct (Z.lt_trichotomy d d') as [?|[?|?]]; nia).
  apply place_lookup in Hd as [Hr Hd], Hd' as [Hr' Hd']. pose proof (NoDup_lookup _ _ _ _ Hnd Hd Hd').
  rewrite (Z.div_mod i (sec_per_clus lay)), (Z.div_mod j (sec_per_clus lay)) by lia. assert (i / sec_per_clus lay = j / sec_per_clus lay) by lia. congruence.
Qed.

Lemma chain_map : (NoDup cl) → DirMap sb lay ops true sleep chain_inv chain_good chain_blocks chain_phys.
Proof.
  intros Hnd. pose proof spc_pos as Hpos. pose proof (geo_bits sb laws_geometry) as Hgb.
  assert (0 < s_blocksize sb) as Hbs by (apply Z.pow_pos_nonneg; lia). split; [apply laws_geometry|..].
  - intros dir i s (Hw & Hch & _) (Hst & Hc & Hr & Hm) Hi. destruct (chain_at i Hi) as [d Hd]. destruct (chain_places sb ops _ s Hch) as [Hl _].
    assert (Z.shiftr (mmu_private dir + (s_blocksize sb - 1)) (s_blocksize_bits sb) = chain_blocks) as El.
    { rewrite Hm, Z.shiftr_div_pow2 by lia. fold (s_blocksize sb). rewrite Z.div_add_l, Z.div_small by lia. lia. }
    destruct (bmap_spec sb lay ops sleep cl s Hcr Hw Hs Hlim Hl dir i (i / sec_per_clus lay) d) as (dir' & E & Hc' & Hf'); try done; try (unfold chain_blocks in *; lia).
    { destruct (place_lookup _ _ _ Hd) as [Hp _]. rewrite Hst. destruct cl; [simpl in Hp; lia|done]. }
    { pose proof (geo_start sb laws_geometry). pose proof (geo_length sb laws_geometry). lia. }
    eexists _, dir'. unfold chain_phys. rewrite Hd. split; [exact E|]. destruct (same_file_start _ _ Hf') as [Es _]. destruct (same_file_attrs _ _ Hf') as (Em & _ & Ei).
    split; [congruence|]. split; [done|]. split; [by rewrite Ei|]. congruence.
  - intros dir s _ (Hst & Hc & Hr & Hm). exists 0, dir. split; [|done]. apply (bmap_past sb lay ops sleep); [done|unfold chain_blocks; nia|done].
  - intros dir (_ & _ & _ & Hm). unfold dir_blocks. rewrite Hm, Z.shiftr_div_pow2 by lia. fold (s_blocksize sb).
    rewrite Z.div_add_l, Z.div_small by lia. unfold chain_blocks. nia.
  - intros i j. by apply chain_map_inj.
  - intros s i (Hw & Hch & Hg) Hi. split; [|by apply Hg]. pose proof (chain_phys_out s i Hch Hi).
    pose proof (geo_start sb laws_geometry). pose proof (geo_length sb laws_geometry). lia.
  - intros s t i bs (Hw & Hch & Hg) Hi Hl Ht. pose proof (chain_phys_out s i Hch Hi) as Hout.
    assert (∀ b, in_fat sb b → blk t !! b = blk s !! b) as Hfat by (intros b [_ Hb]; rewrite Ht, lookup_insert_ne by lia; done).
    split; [intros b Hb; rewrite Hfat by done; by apply Hw|]. split.
    + apply (chain_frame sb ops s); [done|]. intros e He. apply view_blocks; [by apply Hch|done].
    + intros j Hj. rewrite Ht. destruct (decide (chain_phys i = chain_phys j)) as [<-|Hne].
      * exists bs. by rewrite lookup_insert_eq.
      * rewrite lookup_insert_ne by done. by apply Hg.
  - intros dir (? & ? & ? & ?). done.
Qed.
End chain.

(** ** Claims *)

Lemma strncmp_refl n a : strncmp_eq n a a = true.
Proof. revert a. induction n as [|n IH]; intros [|x a]; simpl; try done. by rewrite Z.eqb_refl, IH, orb_true_r. Qed.

Lemma first_from_none sb blocks P k r :
  first_from sb blocks P k r → (∀ i, k ≤ i < nr_entries sb blocks → P i = false) → r = None.
Proof. intros Hr Hp. destruct r as [j|]; [|done]. destruct Hr as (Hj & Ht & _). by rewrite Hp in Ht. Qed.

Lemma first_from_only sb blocks P k j r :
  first_from sb blocks P k r → k ≤ j < nr_entries sb blocks → P j = true → (∀ i, k ≤ i < nr_entries sb blocks → i ≠ j → P i = false) → r = Some j.
Proof.
  intros Hr Hj Ht Hp. destruct r as [i|]; simpl in Hr.
  - destruct Hr as (Hi & Hti & _). destruct (decide (i = j)) as [->|Hne]; [done|]. by rewrite Hp in Hti.
  - by rewrite Hr in Ht.
Qed.

(** The slot a search reports for entry [j]. *)
Definition found (sb : sb_info) (lay : layout) (phys : Z → Z) (j : Z) : fat_slot_info :=
  SlotInfo (fat_make_i_pos lay (place_of sb phys j)) (32 * j) 1 (place_of sb phys j).

(** Adding an entry whose name is absent: it goes to the first free slot, nothing
    else changes, and it is found from any inode of the directory. *)
Lemma add_found env sb lay ops alloc sleep inv good blocks phys `{!DirMap sb lay ops alloc sleep inv good blocks phys}
    needs_sync sync_inode slot dir dir0 s :
  quiet env → good s → inv dir → nr_entries sb blocks * 32 < FAT_MAX_DIR_SIZE → length slot = 32%nat → is_short slot = true →
  fat_scan sb lay ops alloc sleep (de_name slot) dir s = Ret (- ENOENT, None, dir0, s) →
  (∃ k, 0 ≤ k < nr_entries sb blocks ∧ free_at sb phys s k = true) →
  ∃ j d1 s1, first_from sb blocks (free_at sb phys s) 0 (Some j) ∧ inv d1 ∧ good s1 ∧
    fat_add_entries env sb lay ops needs_sync sync_inode alloc sleep slot 1 dir s = Ret (0, Some (found sb lay phys j), d1, s1) ∧
    (∀ k, 0 ≤ k < nr_entries sb blocks → entry_of sb phys s1 k = if decide (k = j) then slot else entry_of sb phys s k) ∧
    (∀ k, 0 ≤ k < nr_entries sb blocks → k ≠ j → live sb phys s1 k && strncmp_eq MSDOS_NAME (de_name (entry_of sb phys s1 k)) (de_name slot) = false) ∧
    ∀ d, inv d → ∃ d2, fat_scan sb lay ops alloc sleep (de_name slot) d s1 = Ret (0, Some (found sb lay phys j), d2, s1) ∧ inv d2.
Proof.
  intros Hq Hs Hi Hmax Hlen Hshort Habs (k & Hk & Hfree).
  assert (∀ i, 0 ≤ i < nr_entries sb blocks → live sb phys s i && strncmp_eq MSDOS_NAME (de_name (entry_of sb phys s i)) (de_name slot) = false) as Hno.
  { destruct (scan_spec sb lay ops alloc sleep inv good blocks phys s Hs (de_name slot) dir Hi) as (r & d & E & _ & Hr). rewrite E in Habs.
    by destruct r; [|exact Hr]. }
  destruct (add_one env sb lay ops alloc sleep inv good blocks phys Hq needs_sync sync_inode s slot dir Hs Hmax Hi Hlen) as ([j|] & Hr & Ha).
  2:{ by rewrite Hr in Hfree. }
  pose proof Hr as (Hj & _). destruct Ha as (d1 & s1 & Ea & Hi1 & B1).
  destruct (put_entry_spec sb lay ops alloc sleep inv good blocks phys s s1 j slot Hs Hj Hlen B1) as [Hs1 V1].
  assert (∀ i, 0 ≤ i < nr_entries sb blocks → i ≠ j → live sb phys s1 i && strncmp_eq MSDOS_NAME (de_name (entry_of sb phys s1 i)) (de_name slot) = false) as Hno1.
  { intros i Hi' Hne. unfold live. rewrite V1, decide_False by done. by apply Hno. }
  exists j, d1, s1. do 6 (split; [done|]). intros d Hd.
  destruct (scan_spec sb lay ops alloc sleep inv good blocks phys s1 Hs1 (de_name slot) d Hd) as (r1 & d2 & E1 & Hi2 & Hr1).
  assert (r1 = Some j) as ->; [|by exists d2].
  eapply first_from_only; [done|done| |done]. unfold live. rewrite V1, decide_True by done. by rewrite Hshort, strncmp_refl.
Qed.

(** [fat_scan] returns for every directory that is mapped, and finds the first
    entry that is in use, is no label or long name slot and has the name looked
    for; it reports the offset of the entry and its place on disk.  When there is
    none it returns [-ENOENT].  Nothing on disk changes. *)
Theorem fat_scan_first sb lay ops alloc sleep inv good blocks phys `{!DirMap sb lay ops alloc sleep inv good blocks phys} name dir s :
  good s → inv dir →
  ∃ r dir', fat_scan sb lay ops alloc sleep name dir s =
    Ret (match r with
         | Some j => (0, Some (SlotInfo (fat_make_i_pos lay (place_of sb phys j)) (32 * j) 1 (place_of sb phys j)), dir', s)
         | None => (- ENOENT, None, dir', s)
         end) ∧ inv dir' ∧
    first_from sb blocks (λ j, live sb phys s j && strncmp_eq MSDOS_NAME (de_name (entry_of sb phys s j)) name) 0 r.
Proof. intros Hs Hi. by apply (scan_spec sb lay ops alloc sleep inv good). Qed.

(** An entry that is added can be looked up and removed again.  When a name
    is absent and a slot is free, [fat_add_entries] puts the entry into the first
    free slot, [fat_scan] finds it there, [fat_remove_entries] removes what was
    found, after which the slot is free and the name absent again, and no other
    entry has changed at any time. *)
Theorem fat_dir_roundtrip env sb lay ops alloc sleep inv good blocks phys `{!DirMap sb lay ops alloc sleep inv good blocks phys}
    needs_sync sync_inode slot dir dir0 s :
  quiet env → good s → inv dir → nr_entries sb blocks * 32 < FAT_MAX_DIR_SIZE → length slot = 32%nat → is_short slot = true →
  fat_scan sb lay ops alloc sleep (de_name slot) dir s = Ret (- ENOENT, None, dir0, s) →
  (∃ k, 0 ≤ k < nr_entries sb blocks ∧ free_at sb phys s k = true) →
  ∃ j si d1 s1 d2 d3 s2 d4,
    first_from sb blocks (free_at sb phys s) 0 (Some j) ∧ slot_off si = 32 * j ∧
    fat_add_entries env sb lay ops needs_sync sync_inode alloc sleep slot 1 dir s = Ret (0, Some si, d1, s1) ∧
    fat_scan sb lay ops alloc sleep (de_name slot) d1 s1 = Ret (0, Some si, d2, s1) ∧
    fat_remove_entries env sb lay ops alloc sleep si d2 s1 = Ret (0, d3, s2) ∧
    fat_scan sb lay ops alloc sleep (de_name slot) d3 s2 = Ret (- ENOENT, None, d4, s2) ∧
    entry_of sb phys s1 j = slot ∧ free_at sb phys s2 j = true ∧
    ∀ k, 0 ≤ k < nr_entries sb blocks → k ≠ j → entry_of sb phys s1 k = entry_of sb phys s k ∧ entry_of sb phys s2 k = entry_of sb phys s k.
Proof.
  intros Hq Hs Hi Hmax Hlen Hshort Habs Hfree.
  destruct (add_found env sb lay ops alloc sleep inv good blocks phys needs_sync sync_inode slot dir dir0 s Hq Hs Hi Hmax Hlen Hshort Habs Hfree)
    as (j & d1 & s1 & Hr & Hi1 & Hs1 & Ea & V1 & Hno & Hscan). pose proof Hr as (Hj & _). destruct (Hscan d1 Hi1) as (d2 & E1 & Hi2).
  destruct (remove_one env sb lay ops alloc sleep inv good blocks phys Hq s1 j (fat_make_i_pos lay (place_of sb phys j)) (32 * j) d2 Hs1 Hj Hi2) as (d3 & s2 & E2 & Hi3 & B2).
  destruct (put_entry_spec sb lay ops alloc sleep inv good blocks phys s1 s2 j (deleted (entry_of sb phys s1 j)) Hs1 Hj) as [Hs2 V2]; [|done|].
  { unfold deleted. cbn [length]. rewrite length_drop. by rewrite (entry_length sb lay ops alloc sleep inv good blocks phys). }
  destruct (scan_spec sb lay ops alloc sleep inv good blocks phys s2 Hs2 (de_name slot) d3 Hi3) as (r2 & d4 & E3 & _ & Hr2).
  assert (r2 = None) as ->.
  { eapply first_from_none; [done|]. intros i Hi'. unfold live. rewrite V2 by done. destruct (decide (i = j)) as [->|Hne]; [done|]. by apply Hno. }
  exists j, (found sb lay phys j), d1, s1, d2, d3, s2, d4. do 6 (split; [done|]). split; [by rewrite V1, decide_True|].
  split; [unfold free_at; by rewrite V2, decide_True|]. intros i Hi' Hne. by rewrite V2, decide_False, V1, decide_False by done.
Qed.

(** ** Examples

    The root of the sample file system: one file, the label and fourteen free
    slots. *)

Definition entry_bytes (name : list Z) (attr : Z) : msdos_dir_entry := name ++ [attr] ++ replicate 20 0.
Definition name_a : list Z := [65; 32; 32; 32; 32; 32; 32; 32; 84; 88; 84].
Definition name_b : list Z := [66; 32; 32; 32; 32; 32; 32; 32; 84; 88; 84].
Definition root_block : list Z := entry_bytes name_a 32 ++ entry_bytes name_b ATTR_VOLUME ++ replicate 448 0.
Definition root_fs : fatfs := FatFs (<[4 := root_block]> (blk (Sample.fs16 4))) ∅ 5 4 false false.
Definition root_inode : finode := Finode [] 0 1 0 0 1 512 512 MSDOS_ROOT_INO false true false.

Definition sample_root := root_map Sample.sb16 sample_layout fat16_ops true (λ i, i) Sample.geo16 ltac:(by vm_compute) ltac:(by vm_compute) ltac:(by vm_compute).

Lemma root_fs_good : root_good Sample.sb16 sample_layout root_fs.
Proof.
  intros i Hi. assert (i = 0) as -> by (change (root_blocks sample_layout) with 1 in Hi; lia). exists root_block. split; by vm_compute.
Qed.

Lemma fat_scan_first_witness :
  ∃ dir', fat_scan Sample.sb16 sample_layout fat16_ops true (λ i, i) name_a root_inode root_fs =
    Ret (0, Some (SlotInfo 64 0 1 (4, 0)), dir', root_fs).
Proof.
  pose proof (fat_scan_first Sample.sb16 sample_layout fat16_ops true (λ i, i) _ _ _ _ (DirMap0 := sample_root) name_a root_inode root_fs root_fs_good eq_refl) as H.
  destruct H as (r & dir' & E & _ & Hr). exists dir'. rewrite E.
  assert (Hz : live Sample.sb16 (root_phys sample_layout) root_fs 0 && strncmp_eq MSDOS_NAME (de_name (entry_of Sample.sb16 (root_phys sample_layout) root_fs 0)) name_a = true)
    by (vm_compute; reflexivity).
  destruct r as [j|]; cbn [first_from] in Hr.
  - destruct Hr as (Hj & _ & Hn). destruct (decide (j = 0)) as [->|Hne]; [reflexivity|]. rewrite Hn in Hz by lia. discriminate Hz.
  - rewrite Hr in Hz by (split; by vm_compute). discriminate Hz.
Defined.

Lemma fat_dir_roundtrip_witness :
  ∃ si d1 s1 d2 d3 s2 d4,
    fat_add_entries Sample.quiet_env Sample.sb16 sample_layout fat16_ops false 0 true (λ i, i) (entry_bytes name_b 32) 1 root_inode root_fs = Ret (0, Some si, d1, s1) ∧
    fat_scan Sample.sb16 sample_layout fat16_ops true (λ i, i) name_b d1 s1 = Ret (0, Some si, d2, s1) ∧
    fat_remove_entries Sample.quiet_env Sample.sb16 sample_layout fat16_ops true (λ i, i) si d2 s1 = Ret (0, d3, s2) ∧
    fat_scan Sample.sb16 sample_layout fat16_ops true (λ i, i) name_b d3 s2 = Ret (- ENOENT, None, d4, s2).
Proof.
  pose proof (fat_dir_roundtrip Sample.quiet_env Sample.sb16 sample_layout fat16_ops true (λ i, i) _ _ _ _ (DirMap0 := sample_root) false 0
    (entry_bytes name_b 32) root_inode root_inode root_fs Sample.quiet_ok root_fs_good eq_refl) as H.
  destruct H as (j & si & d1 & s1 & d2 & d3 & s2 & d4 & _ & _ & H1 & H2 & H3 & H4 & _).
  - by vm_compute.
  - reflexivity.
  - reflexivity.
  - vm_compute. reflexivity.
  - exists 2. split; [split; by vm_compute|]. vm_compute. reflexivity.
  - exists si, d1, s1, d2, d3, s2, d4. split; [exact H1|]. split; [exact H2|]. split; [exact H3|exact H4].
Defined.
