(* ===== verification/FatSlots.v ===== *)
(** Runs of directory entries: what [fat_remove_entries] and [fat_add_entries] of
    [fs/fat/dir.c] do with an entry that has long name slots before it, across the
    blocks of the directory. *)

From S2P Require Import Prelude Fatent FatentLaws FatAlloc FatDate FatCache FatFile FatDir.

(** ** Entries one after the other *)

Definition entries_ok (es : list msdos_dir_entry) : Prop := Forall (λ e, length e = 32%nat) es.

Lemma length_mjoin es : entries_ok es → length (mjoin es) = (32 * length es)%nat.
Proof. induction 1 as [|e es He _ IH]; [done|]. change (mjoin (e :: es)) with (e ++ mjoin es). rewrite length_app, He, IH. cbn [length]. lia. Qed.

Lemma mjoin_split n es : entries_ok es → mjoin es = mjoin (take n es) ++ mjoin (drop n es).
Proof. intros _. by rewrite <- (take_drop n es) at 1; rewrite join_app. Qed.

Lemma take_mjoin n es : entries_ok es → take (n * 32) (mjoin es) = mjoin (take n es).
Proof.
  intros He. destruct (decide (n ≤ length es)%nat) as [Hn|].
  - rewrite (mjoin_split n es He). apply take_app_exact. rewrite length_mjoin by (by apply Forall_take). rewrite length_take. lia.
  - rewrite !take_ge; [done|lia|]. rewrite length_mjoin by done. lia.
Qed.

Lemma drop_mjoin n es : entries_ok es → drop (n * 32) (mjoin es) = mjoin (drop n es).
Proof.
  intros He. destruct (decide (n ≤ length es)%nat) as [Hn|].
  - rewrite (mjoin_split n es He). apply drop_app_exact. rewrite length_mjoin by (by apply Forall_take). rewrite length_take. lia.
  - rewrite !drop_ge; [done|lia|]. rewrite length_mjoin by done. lia.
Qed.

Lemma mjoin_entry i e es : entries_ok es → es !! i = Some e → take 32 (drop (i * 32) (mjoin es)) = e.
Proof.
  intros He Hi. rewrite drop_mjoin by done. rewrite <- (take_drop_middle es i e Hi) at 1. apply lookup_lt_Some in Hi as Hlt.
  rewrite drop_app_exact by (rewrite length_take; lia). change (mjoin (e :: drop (S i) es)) with (e ++ mjoin (drop (S i) es)). apply take_app_exact. by apply (Forall_lookup_1 _ _ _ _ He Hi).
Qed.

Lemma splice_inner {A} o (x l : list A) p n : (o + length x ≤ length l)%nat → (p + n ≤ length x)%nat → take n (drop (o + p) (splice o x l)) = take n (drop p x).
Proof.
  intros Hl Hp. unfold splice. rewrite <- drop_drop, drop_app_exact by (rewrite length_take; lia). rewrite drop_app_le by lia. apply take_app_le. rewrite length_drop. lia.
Qed.

Section runs.
Context (env : env) (sb : sb_info) (lay : layout) (ops : fatent_operations) (alloc : bool) (sleep : finode → finode).
Context (inv : finode → Prop) (good : fatfs → Prop) (blocks : Z) (phys : Z → Z) `{!DirMap sb lay ops alloc sleep inv good blocks phys}.

Abbreviation dpb := (dir_per_block sb).
Abbreviation entry := (entry_of sb phys).
Abbreviation place := (place_of sb phys).
Abbreviation total := (nr_entries sb blocks).

(** [t] is [s] with the entries from [a] up to [b] changed by [f]. *)
Definition changed (s t : fatfs) (a b : Z) (f : Z → msdos_dir_entry) : Prop :=
  ∀ x, 0 ≤ x < total → entry t x = if decide (a ≤ x < b) then f x else entry s x.

Lemma changed_none s a f : changed s s a a f.
Proof. intros x Hx. by rewrite decide_False by lia. Qed.

(** Two neighbouring changes. *)
Lemma changed_app s t u a b c f : changed s t a b f → changed t u b c f → a ≤ b ≤ c → changed s u a c f.
Proof.
  intros H1 H2 Hle x Hx. rewrite H2 by done. destruct (decide (b ≤ x < c)); [by rewrite decide_True by lia|]. rewrite H1 by done.
  destruct (decide (a ≤ x < b)); [by rewrite decide_True by lia|by rewrite decide_False by lia].
Qed.

Lemma changed_swap s t u a b c f : changed s t b c f → changed t u a b f → a ≤ b ≤ c → changed s u a c f.
Proof.
  intros H1 H2 Hle x Hx. rewrite H2 by done. destruct (decide (a ≤ x < b)); [by rewrite decide_True by lia|]. rewrite H1 by done.
  destruct (decide (b ≤ x < c)); [by rewrite decide_True by lia|by rewrite decide_False by lia].
Qed.

(** Entry [r] of block [q]. *)
Lemma entry_index q r : 0 ≤ q < blocks → 0 ≤ r < dpb → (q * dpb + r) / dpb = q ∧ (q * dpb + r) mod dpb = r ∧ 0 ≤ q * dpb + r < total.
Proof.
  intros Hq Hr. destruct (dpb_pos sb lay ops alloc sleep inv good blocks phys) as [Hd _]. unfold nr_entries.
  split; [rewrite Z.div_add_l, Z.div_small; lia|]. split; [rewrite Z.add_comm, Z.mod_add, Z.mod_small; lia|]. nia.
Qed.

(** ** Removing *)

Definition del (s : fatfs) (x : Z) : msdos_dir_entry := deleted (entry s x).

Lemma poke_del s q r :
  good s → 0 ≤ q < blocks → 0 ≤ r < dpb →
  ∃ t, poke s (phys q, r * 32) DELETED_FLAG = Ret t ∧ good t ∧ changed s t (q * dpb + r) (q * dpb + r + 1) (del s).
Proof.
  intros Hs Hq Hr. destruct (entry_index q r Hq Hr) as (E1 & E2 & Hk). destruct (poke_deleted sb lay ops alloc sleep inv good blocks phys s (q * dpb + r) Hs Hk) as (t & Ht & Hb).
  unfold place_of in Ht. rewrite E1, E2 in Ht. exists t. split; [done|].
  destruct (put_entry_spec sb lay ops alloc sleep inv good blocks phys s t (q * dpb + r) (deleted (entry s (q * dpb + r))) Hs Hk) as [Hg He]; [|done|].
  { unfold deleted. cbn [length]. rewrite length_drop. by rewrite (entry_length sb lay ops alloc sleep inv good blocks phys). }
  split; [done|]. intros x Hx. rewrite He by done. destruct (decide (x = q * dpb + r)) as [->|]; [by rewrite decide_True by lia|by rewrite decide_False by lia].
Qed.

(** Deleting again changes nothing. *)
Lemma del_changed s t a b x : changed s t a b (del s) → 0 ≤ x < total → del t x = del s x.
Proof. intros H Hx. unfold del. rewrite H by done. destruct (decide _); [|done]. unfold del, deleted. cbn. by rewrite drop_0. Qed.

Lemma changed_ext s t a b f g : changed s t a b f → (∀ x, 0 ≤ x < total → f x = g x) → changed s t a b g.
Proof. intros H Hfg x Hx. rewrite H by done. destruct (decide _); [by apply Hfg|done]. Qed.

Lemma delete_forward_spec n q r s :
  good s → 0 ≤ q < blocks → 0 ≤ r ≤ dpb → let c := Nat.min n (Z.to_nat (dpb - r)) in
  ∃ t, delete_forward sb n (phys q) (r * 32) s = Ret ((n - c)%nat, t) ∧ good t ∧ changed s t (q * dpb + r) (q * dpb + r + Z.of_nat c) (del s).
Proof.
  intros Hs Hq Hr. destruct (dpb_pos sb lay ops alloc sleep inv good blocks phys) as [Hd E]. revert r s Hs Hr. induction n as [|n IH]; intros r s Hs Hr; cbn [delete_forward].
  { exists s. split; [done|]. split; [done|]. cbn. rewrite Z.add_0_r. apply changed_none. }
  destruct (Z.ltb_spec (r * 32) (s_blocksize sb)) as [Hlt|Hge].
  - destruct (poke_del s q r Hs Hq ltac:(lia)) as (t & -> & Ht & Hc). cbn [mbind outcome_bind]. replace (r * 32 + 32) with ((r + 1) * 32) by lia.
    destruct (IH (r + 1) t Ht ltac:(lia)) as (u & -> & Hu & Hc'). exists u. replace (Z.to_nat (dpb - r)) with (S (Z.to_nat (dpb - (r + 1)))) by lia.
    split; [by cbn [Nat.min Nat.sub]|]. split; [done|]. apply (changed_app s t u _ (q * dpb + r + 1)); [done| |lia].
    replace (q * dpb + (r + 1)) with (q * dpb + r + 1) in Hc' by lia. cbn [Nat.min]. rewrite Nat2Z.inj_succ.
    replace (q * dpb + r + Z.succ (Z.of_nat (n `min` Z.to_nat (dpb - (r + 1))))) with (q * dpb + r + 1 + Z.of_nat (n `min` Z.to_nat (dpb - (r + 1)))) by lia.
    eapply changed_ext; [exact Hc'|]. intros x Hx. by apply (del_changed s t _ _ x Hc).
  - exists s. replace (Z.to_nat (dpb - r)) with 0%nat by lia. rewrite Nat.min_0_r, Nat.sub_0_r, Z.add_0_r. split; [done|]. split; [done|]. apply changed_none.
Qed.

Lemma delete_backward_spec n q r s :
  good s → 0 ≤ q < blocks → -1 ≤ r < dpb → let c := Nat.min n (Z.to_nat (r + 1)) in
  ∃ t, delete_backward n (phys q) (r * 32) s = Ret ((n - c)%nat, t) ∧ good t ∧ changed s t (q * dpb + r + 1 - Z.of_nat c) (q * dpb + r + 1) (del s).
Proof.
  intros Hs Hq Hr. destruct (dpb_pos sb lay ops alloc sleep inv good blocks phys) as [Hd E]. revert r s Hs Hr. induction n as [|n IH]; intros r s Hs Hr; cbn [delete_backward].
  { exists s. split; [done|]. split; [done|]. cbn. rewrite Z.sub_0_r. apply changed_none. }
  destruct (Z.leb_spec 0 (r * 32)) as [Hlt|Hge].
  - destruct (poke_del s q r Hs Hq ltac:(lia)) as (t & -> & Ht & Hc). cbn [mbind outcome_bind]. replace (r * 32 - 32) with ((r - 1) * 32) by lia.
    destruct (IH (r - 1) t Ht ltac:(lia)) as (u & -> & Hu & Hc'). exists u. replace (Z.to_nat (r + 1)) with (S (Z.to_nat (r - 1 + 1))) by lia.
    split; [by cbn [Nat.min Nat.sub]|]. split; [done|]. apply (changed_swap s t u _ (q * dpb + r)); [done| |lia].
    cbn [Nat.min]. rewrite Nat2Z.inj_succ. replace (q * dpb + r + 1 - Z.succ (Z.of_nat (n `min` Z.to_nat (r - 1 + 1)))) with (q * dpb + r - Z.of_nat (n `min` Z.to_nat (r - 1 + 1))) by lia.
    replace (q * dpb + (r - 1) + 1) with (q * dpb + r) in Hc' by lia. eapply changed_ext; [exact Hc'|]. intros x Hx. by apply (del_changed s t _ _ x Hc).
  - exists s. replace (Z.to_nat (r + 1)) with 0%nat by lia. rewrite Nat.min_0_r, Nat.sub_0_r, Z.sub_0_r. split; [done|]. split; [done|]. apply changed_none.
Qed.

(** The buffers alone decide what the entries are. *)
Lemma good_blk s t q : good s → 0 ≤ q < blocks → blk t = blk s → good t.
Proof.
  intros Hs Hq E. destruct (map_block s q Hs Hq) as (_ & bs & Hb & Hl). apply (map_put s t q bs); [done|done|done|]. by rewrite E, insert_id.
Qed.

Lemma entry_blk s t x : blk t = blk s → entry t x = entry s x.
Proof. intros E. unfold entry_of. by rewrite E. Qed.

Lemma changed_blk s t u a b f : changed s t a b f → blk u = blk t → changed s u a b f.
Proof. intros H E x Hx. by rewrite (entry_blk t u x E), H. Qed.

Context (Hq : quiet env).

Lemma remove_forward_spec fuel nr k dir s :
  good s → inv dir → 0 ≤ k → k + Z.of_nat nr ≤ total → (nr < fuel)%nat →
  ∃ dir' t, __fat_remove_entries env sb lay ops alloc sleep fuel (32 * k) nr dir s = Ret (0, dir', t) ∧ inv dir' ∧ good t ∧ changed s t k (k + Z.of_nat nr) (del s).
Proof.
  revert nr k dir s. induction fuel as [|fuel IH]; intros nr k dir s Hs Hi Hk Hn Hf; [lia|]. cbn [__fat_remove_entries]. destruct (Nat.eqb_spec nr 0) as [->|Hnz].
  { exists dir, s. split; [done|]. split; [done|]. split; [done|]. rewrite Z.add_0_r. apply changed_none. }
  destruct (get_entry_spec sb lay ops alloc sleep inv good blocks phys s Hs k None (32 * k) dir Hi) as (d & -> & Hd); [by split; [|left]|lia|].
  destruct (Z.ltb_spec k total); [|lia]. cbn [mbind outcome_bind]. unfold place_of. destruct (in_block sb lay ops alloc sleep inv good blocks phys k ltac:(lia)) as [Hb Hr].
  destruct (dpb_pos sb lay ops alloc sleep inv good blocks phys) as [Hdp _]. pose proof (Z.div_mod k dpb ltac:(lia)) as Edm. rewrite Z.mul_comm in Edm.
  destruct (delete_forward_spec nr (k / dpb) (k mod dpb) s Hs Hb ltac:(lia)) as (t & -> & Ht & Hc). cbn [mbind outcome_bind]. rewrite <- Edm in Hc.
  set (c := Nat.min nr _) in *. assert (1 ≤ c ≤ nr)%nat as Hc1 by lia. clearbody c.
  destruct (dirsync_quiet env Hq d (phys (k / dpb)) (mark_buffer_dirty (phys (k / dpb)) t)) as (u & -> & Eu). cbn [negb Z.eqb].
  assert (good u) as Hu by (eapply good_blk; [exact Ht|exact Hb|by rewrite Eu]). replace (nr - (nr - c))%nat with c by lia.
  replace (32 * (k + 1) + (Z.of_nat c * 32 - 32)) with (32 * (k + Z.of_nat c)) by lia.
  destruct (IH (nr - c)%nat (k + Z.of_nat c) d u Hu Hd ltac:(lia) ltac:(lia) ltac:(lia)) as (d' & v & -> & Hd' & Hv & Hc'). exists d', v. split; [done|]. split; [done|]. split; [done|].
  assert (changed s u k (k + Z.of_nat c) (del s)) as Hcu by (eapply changed_blk; [exact Hc|by rewrite Eu]).
  apply (changed_app s u v _ (k + Z.of_nat c)); [done| |lia]. replace (k + Z.of_nat nr) with (k + Z.of_nat c + Z.of_nat (nr - c)) by lia.
  eapply changed_ext; [exact Hc'|]. intros x Hx. by apply (del_changed s u _ _ x Hcu).
Qed.

(** All entries of a name are marked, whichever blocks they are in, and no others
    change. *)
Lemma remove_run nr i j dir s :
  good s → inv dir → 0 < nr ≤ j + 1 → j < total →
  ∃ dir' t, fat_remove_entries env sb lay ops alloc sleep (SlotInfo i (32 * (j + 1 - nr)) nr (place j)) dir s = Ret (0, dir', t) ∧ inv dir' ∧ good t ∧
    changed s t (j + 1 - nr) (j + 1) (del s).
Proof.
  intros Hs Hi Hn Hj. unfold fat_remove_entries. cbn [si_de nr_slots slot_off]. unfold place_of. destruct (in_block sb lay ops alloc sleep inv good blocks phys j ltac:(lia)) as [Hb Hr].
  destruct (dpb_pos sb lay ops alloc sleep inv good blocks phys) as [Hdp _]. pose proof (Z.div_mod j dpb ltac:(lia)) as Edm. rewrite Z.mul_comm in Edm.
  destruct (delete_backward_spec (Z.to_nat nr) (j / dpb) (j mod dpb) s Hs Hb ltac:(lia)) as (t & -> & Ht & Hc). cbn [mbind outcome_bind]. rewrite <- Edm in Hc.
  set (c := Nat.min (Z.to_nat nr) _) in *. assert (1 ≤ c ≤ Z.to_nat nr)%nat as Hc1 by lia. clearbody c.
  destruct (dirsync_quiet env Hq dir (phys (j / dpb)) (mark_buffer_dirty (phys (j / dpb)) t)) as (u & -> & Eu). cbn [negb Z.eqb].
  assert (good u) as Hu by (eapply good_blk; [exact Ht|exact Hb|by rewrite Eu]).
  assert (changed s u (j + 1 - Z.of_nat c) (j + 1) (del s)) as Hcu by (eapply changed_blk; [exact Hc|by rewrite Eu]).
  assert (∀ d : finode, inv d → inv (if is_dirsync d then d else mark_inode_dirty d)) as Hmd by (intros d Hd; destruct (is_dirsync d); [done|by apply map_dirty]).
  destruct (Nat.eqb_spec (Z.to_nat nr - c) 0).
  - cbn [mbind outcome_bind]. eexists _, u. split; [reflexivity|]. split; [by apply Hmd|]. split; [done|]. by replace (j + 1 - nr) with (j + 1 - Z.of_nat c) by lia.
  - destruct (remove_forward_spec (S (Z.to_nat nr - c)) (Z.to_nat nr - c) (j + 1 - nr) dir u Hu Hi ltac:(lia) ltac:(lia) ltac:(lia)) as (d & v & -> & Hd & Hv & Hc').
    cbn [mbind outcome_bind]. eexists _, v. split; [reflexivity|]. split; [by apply Hmd|]. split; [done|].
    apply (changed_swap s u v _ (j + 1 - Z.of_nat c)); [done| |lia]. replace (j + 1 - Z.of_nat c) with (j + 1 - nr + Z.of_nat (Z.to_nat nr - c)) by lia.
    eapply changed_ext; [exact Hc'|]. intros x Hx. by apply (del_changed s u _ _ x Hcu).
Qed.

(** ** Finding room *)

(** The blocks of the entries from [a] up to [b]. *)
Definition run_blocks (a b : Z) : list Z := phys <$> seqZ (a / dpb) ((b - 1) / dpb + 1 - a / dpb).

Definition free (s : fatfs) (x : Z) : bool := free_at sb phys s x.
Definition free_run (s : fatfs) (a b : Z) : Prop := ∀ x, a ≤ x < b → free s x = true.

(** The list of buffers, which grows when an entry is in another block than the
    one before it. *)
Lemma run_blocks_next a k :
  0 ≤ a ≤ k → k < total → k - a ≤ 32 →
  let prev := if decide (a = k) then None else Some (phys ((k - 1) / dpb)) in
  let bhs := if decide (a = k) then [] else run_blocks a k in
  (if bool_decide (prev = Some (phys (k / dpb))) then Ret bhs else if (3 <=? length bhs)%nat then Undef else Ret (bhs ++ [phys (k / dpb)])) = Ret (run_blocks a (k + 1)).
Proof.
  intros Ha Hk H32. destruct (dpb_pos sb lay ops alloc sleep inv good blocks phys) as [Hd _]. cbv zeta. unfold run_blocks. replace (k + 1 - 1) with k by lia.
  destruct (decide (a = k)) as [->|Hne]; [cbn [bool_decide decide length Nat.leb app]; by replace (k / dpb + 1 - k / dpb) with 1 by lia|].
  pose proof (in_block sb lay ops alloc sleep inv good blocks phys k ltac:(lia)) as [Hb _]. pose proof (in_block sb lay ops alloc sleep inv good blocks phys (k - 1) ltac:(lia)) as [Hb' _].
  destruct (bool_decide (Some (phys ((k - 1) / dpb)) = Some (phys (k / dpb)))) eqn:E.
  { apply bool_decide_eq_true in E. injection E as E. apply map_inj in E; [|done..]. by rewrite E. }
  assert ((k - 1) / dpb + 1 = k / dpb) as E1.
  { apply bool_decide_eq_false in E. assert ((k - 1) / dpb ≤ k / dpb ≤ (k - 1) / dpb + 1) as Hle.
    { split; [apply Z.div_le_mono; lia|]. rewrite <- Z.div_add by lia. apply Z.div_le_mono; lia. }
    destruct (decide ((k - 1) / dpb = k / dpb)) as [Eq|]; [by rewrite Eq in E|lia]. }
  assert (k / dpb - 2 ≤ a / dpb ≤ (k - 1) / dpb) as Hab.
  { split; [|apply Z.div_le_mono; lia]. replace (k / dpb - 2) with ((k + (-2) * dpb) / dpb) by (rewrite Z.div_add by lia; lia). apply Z.div_le_mono; lia. }
  rewrite length_fmap, length_seqZ. destruct (Nat.leb_spec 3 (Z.to_nat ((k - 1) / dpb + 1 - a / dpb))); [lia|]. f_equal.
  replace (k / dpb + 1 - a / dpb) with ((k - 1) / dpb + 1 - a / dpb + 1) by lia. rewrite seqZ_app by lia. rewrite fmap_app. f_equal. by replace (a / dpb + ((k - 1) / dpb + 1 - a / dpb)) with (k / dpb) by lia.
Qed.

Context (nr : Z) (Hnr : 0 < nr ≤ 32) (Hmax : total * 32 < FAT_MAX_DIR_SIZE).

(** The first run of [nr] free entries that starts at [a0] or after it is at [a]. *)
Definition room_at (s : fatfs) (a0 a : Z) : Prop := a0 ≤ a ∧ a + nr ≤ total ∧ free_run s a (a + nr) ∧ ∀ b, a0 ≤ b → free_run s b (b + nr) → a ≤ b.

Lemma find_run s fuel a k cur pos dir :
  good s → inv dir → before sb phys k cur pos → 0 ≤ a ≤ k → k ≤ total → k - a < nr → (Z.to_nat (total - k) < fuel)%nat →
  free_run s a k → (∃ b, a ≤ b ∧ b + nr ≤ total ∧ free_run s b (b + nr)) →
  ∃ b dir', find_slots sb lay ops alloc sleep fuel nr cur pos (k - a) (if decide (a = k) then [] else run_blocks a k)
      (if decide (a = k) then None else Some (phys ((k - 1) / dpb))) dir s =
    Ret (FoundSlots (place (b + nr - 1)), 32 * (b + nr), nr, run_blocks b (b + nr), dir', s) ∧ inv dir' ∧ room_at s a b.
Proof.
  intros Hs. revert a k cur pos dir. induction fuel as [|fuel IH]; intros a k cur pos dir Hi Hb Ha Hk Hn Hf Hrun (b & Hab & Hbt & Hbr); [lia|]. cbn [find_slots].
  destruct (get_entry_spec sb lay ops alloc sleep inv good blocks phys s Hs k cur pos dir Hi Hb ltac:(lia)) as (d & -> & Hd). destruct (Z.ltb_spec k total); [|lia].
  cbn [mbind outcome_bind]. unfold place_of at 1. fold (place k). destruct (Z.leb_spec FAT_MAX_DIR_SIZE (32 * (k + 1))); [lia|].
  rewrite (dirent_spec sb lay ops alloc sleep inv good blocks phys s Hs) by lia. cbn [mbind outcome_bind]. change (IS_FREE (de_name (entry s k))) with (free s k).
  assert (before sb phys (k + 1) (Some (place k)) (32 * (k + 1))) as Hb1 by (apply before_next; lia). destruct (free s k) eqn:Ef.
  - rewrite run_blocks_next by lia. cbn [mbind outcome_bind]. assert (free_run s a (k + 1)) as Hrun1 by (intros x Hx; destruct (decide (x = k)) as [->|]; [done|apply Hrun; lia]).
    destruct (Z.eqb_spec (k - a + 1) nr) as [En|En].
    + exists a, d. replace (a + nr - 1) with k by lia. replace (a + nr) with (k + 1) by lia. rewrite En. split; [done|]. split; [done|].
      split; [lia|]. split; [lia|]. split; [by replace (a + nr) with (k + 1) by lia|]. by intros.
    + destruct (IH a (k + 1) (Some (place k)) (32 * (k + 1)) d Hd Hb1) as (b' & d' & E & Hd' & Hroom); [lia|lia|lia|lia|done|by exists b|].
      rewrite decide_False in E by lia. rewrite decide_False in E by lia. replace (k + 1 - 1) with k in E by lia. replace (k + 1 - a) with (k - a + 1) in E by lia.
      exists b', d'. split; [exact E|done].
  - destruct (IH (k + 1) (k + 1) (Some (place k)) (32 * (k + 1)) d Hd Hb1) as (b' & d' & E & Hd' & Hroom); [lia|lia|lia|lia|intros x Hx; lia| |].
    + exists b. split; [|done]. destruct (decide (b ≤ k)) as [Hbk|]; [|lia]. rewrite (Hbr k) in Ef by lia. done.
    + rewrite decide_True in E by lia. rewrite decide_True in E by lia. rewrite Z.sub_diag in E. exists b', d'. split; [exact E|]. split; [done|].
      destruct Hroom as (? & ? & ? & Hmin). split; [lia|]. split; [done|]. split; [done|]. intros c Hc Hcr. apply Hmin; [|done].
      destruct (decide (c ≤ k)) as [Hck|]; [|lia]. rewrite (Hcr k) in Ef by lia. done.
Qed.

(** ** Filling *)

(** Entry [x] of a list that starts at entry [a]. *)
Definition at_run (a : Z) (es : list msdos_dir_entry) (x : Z) : msdos_dir_entry := default [] (es !! Z.to_nat (x - a)).

Lemma poke_entries q r es s :
  good s → 0 ≤ q < blocks → 0 ≤ r → r + Z.of_nat (length es) ≤ dpb → entries_ok es →
  ∃ t, poke_bytes s (phys q, r * 32) (mjoin es) = Ret t ∧ good t ∧ changed s t (q * dpb + r) (q * dpb + r + Z.of_nat (length es)) (at_run (q * dpb + r) es).
Proof.
  intros Hs Hqb Hr Hl He. destruct (map_block s q Hs Hqb) as (_ & bs & Hb & Hbl). destruct (dpb_pos sb lay ops alloc sleep inv good blocks phys) as [Hd E].
  unfold poke_bytes, buffer. cbn [fst snd]. rewrite Hb. cbn [mbind outcome_bind]. rewrite (length_mjoin es He). rewrite decide_True by nia.
  set (bs' := splice (Z.to_nat (r * 32)) (mjoin es) bs). eexists. split; [reflexivity|]. cbn [set_blk].
  assert (Z.to_nat (r * 32) + length (mjoin es) ≤ length bs)%nat as Hin by (rewrite length_mjoin by done; nia).
  split; [apply (map_put s _ q bs'); [done|done|unfold bs'; rewrite length_splice; done|done]|]. intros x Hx. unfold entry_of. cbn [blk set_blk].
  destruct (in_block sb lay ops alloc sleep inv good blocks phys x Hx) as [Hbx Hox]. pose proof (Z.div_mod x dpb ltac:(lia)) as Exm.
  destruct (decide (x / dpb = q)) as [Eq|Ne].
  - rewrite Eq, lookup_insert_eq, Hb. cbn [default from_option]. unfold id, bs'. destruct (decide (q * dpb + r ≤ x < q * dpb + r + Z.of_nat (length es))) as [Hx'|Hx'].
    + destruct (lookup_lt_is_Some_2 es (Z.to_nat (x - (q * dpb + r))) ltac:(lia)) as [e Ee]. unfold at_run. rewrite Ee. cbn [default from_option]. unfold id.
      replace (Z.to_nat (x mod dpb * 32)) with (Z.to_nat (r * 32) + Z.to_nat (x - (q * dpb + r)) * 32)%nat by nia.
      rewrite splice_inner; [by apply mjoin_entry|done|]. rewrite length_mjoin by done. lia.
    + apply splice_other; [done|]. rewrite length_mjoin by done. nia.
  - rewrite lookup_insert_ne by (intros Ep; apply Ne; symmetry; by apply map_inj in Ep). rewrite decide_False; [done|]. intros Hx'. apply Ne.
    symmetry. apply (Z.div_unique_pos x dpb q (x - q * dpb)); lia.
Qed.

Lemma fill_slots_spec m q r es s :
  good s → 0 ≤ q → q + Z.of_nat m ≤ blocks → 0 ≤ r < dpb → entries_ok es →
  let c := Nat.min (length es) (Z.to_nat (Z.of_nat m * dpb - r)) in
  ∃ t, fill_slots sb (phys <$> seqZ q (Z.of_nat m)) (r * 32) (Z.of_nat (length es) * 32) (mjoin es) s =
    Ret (if (m =? 0)%nat then r * 32 else 0, Z.of_nat (length es - c) * 32, mjoin (drop c es), t) ∧ good t ∧
    changed s t (q * dpb + r) (q * dpb + r + Z.of_nat c) (at_run (q * dpb + r) es).
Proof.
  intros Hs Hq0. destruct (dpb_pos sb lay ops alloc sleep inv good blocks phys) as [Hd E]. revert q r es s Hs Hq0. induction m as [|m IH]; intros q r es s Hs Hq0 Hqm Hr He; cbv zeta.
  { cbn [seqZ fmap list_fmap fill_slots Nat.eqb]. replace (Z.to_nat (Z.of_nat 0 * dpb - r)) with 0%nat by lia. rewrite Nat.min_0_r, Nat.sub_0_r, Z.add_0_r. exists s. split; [done|]. split; [done|]. apply changed_none. }
  rewrite seqZ_cons by lia. rewrite fmap_cons. cbn [fill_slots Nat.eqb]. set (c1 := Nat.min (length es) (Z.to_nat (dpb - r))).
  replace (Z.min (s_blocksize sb - r * 32) (Z.of_nat (length es) * 32)) with (Z.of_nat (c1 * 32)) by (rewrite E; lia). rewrite Nat2Z.id, take_mjoin, drop_mjoin by done.
  assert (length (take c1 es) = c1) as Hc1 by (rewrite length_take; lia). assert (entries_ok (take c1 es)) as He1 by (by apply Forall_take).
  destruct (poke_entries q r (take c1 es) s Hs ltac:(lia) ltac:(lia) ltac:(lia) He1) as (t & -> & Ht & Hc). cbn [mbind outcome_bind]. rewrite Hc1 in Hc.
  assert (good (mark_buffer_dirty (phys q) t)) as Ht' by (by apply (good_blk t _ q); [|lia|]).
  destruct (IH (q + 1) 0 (drop c1 es) (mark_buffer_dirty (phys q) t) Ht' ltac:(lia) ltac:(lia) ltac:(lia) (Forall_drop _ _ _ He)) as (u & Eu & Hu & Hcu). cbv zeta in Hcu.
  rewrite length_drop in Eu, Hcu. set (c2 := Nat.min (length es - c1) _) in *. replace (Z.succ q) with (q + 1) by lia. replace (Z.pred (Z.of_nat (S m))) with (Z.of_nat m) by lia.
  replace (Z.of_nat (length es) * 32 - Z.of_nat (c1 * 32)) with (Z.of_nat (length es - c1) * 32) by lia.
  assert (Nat.min (length es) (Z.to_nat (Z.of_nat (S m) * dpb - r)) = c1 + c2)%nat as -> by (unfold c1, c2; nia). exists u. change (0 * 32) with 0 in Eu. rewrite Eu.
  split; [rewrite drop_drop; replace (length es - c1 - c2)%nat with (length es - (c1 + c2))%nat by lia; by destruct (m =? 0)%nat|]. split; [done|].
  assert (∀ x, at_run (q * dpb + r) (take c1 es) x = at_run (q * dpb + r) es x ∨ ¬ (q * dpb + r ≤ x < q * dpb + r + Z.of_nat c1)) as Hsame.
  { intros x. destruct (decide (q * dpb + r ≤ x < q * dpb + r + Z.of_nat c1)); [left|by right]. unfold at_run. rewrite lookup_take_lt by lia. done. }
  intros x Hx. rewrite Hcu by done. rewrite (entry_blk t) by done. rewrite Hc by done. destruct (decide (c2 = 0)%nat) as [Ec|Ec].
  - rewrite decide_False by lia. rewrite Ec, Nat.add_0_r. destruct (decide _); [|done]. by destruct (Hsame x).
  - assert (q * dpb + r + Z.of_nat c1 = (q + 1) * dpb + 0) as Eb by (unfold c1, c2 in *; lia).
    destruct (decide ((q + 1) * dpb + 0 ≤ x < (q + 1) * dpb + 0 + Z.of_nat c2)) as [Hx2|Hx2].
    + rewrite decide_True by lia. unfold at_run. rewrite lookup_drop. f_equal. f_equal. lia.
    + destruct (decide (q * dpb + r ≤ x < q * dpb + r + Z.of_nat c1)) as [Hx1|Hx1]; [rewrite decide_True by lia; by destruct (Hsame x)|by rewrite decide_False by lia].
Qed.

(** The blocks of a run: those filled to their end, and the last. *)
Lemma run_blocks_split a b :
  0 ≤ a < b → b ≤ total →
  let q := a / dpb in let m := Z.to_nat ((b - 1) / dpb - q) in
  run_blocks a b = (phys <$> seqZ q (Z.of_nat m)) ++ [phys (q + Z.of_nat m)] ∧ 0 ≤ q ∧ q + Z.of_nat m < blocks ∧
  q * dpb + Z.of_nat m * dpb < b ≤ q * dpb + Z.of_nat m * dpb + dpb.
Proof.
  intros Ha Hb. destruct (dpb_pos sb lay ops alloc sleep inv good blocks phys) as [Hd _]. cbv zeta.
  pose proof (in_block sb lay ops alloc sleep inv good blocks phys a ltac:(lia)) as [Hb1 _]. pose proof (in_block sb lay ops alloc sleep inv good blocks phys (b - 1) ltac:(lia)) as [Hb2 Hm2].
  assert (a / dpb ≤ (b - 1) / dpb) by (apply Z.div_le_mono; lia). pose proof (Z.div_mod (b - 1) dpb ltac:(lia)).
  rewrite Z2Nat.id by lia. split; [|split; [lia|split; [lia|nia]]]. unfold run_blocks.
  replace ((b - 1) / dpb + 1 - a / dpb) with ((b - 1) / dpb - a / dpb + 1) by lia. rewrite seqZ_app by lia. rewrite fmap_app. done.
Qed.

Lemma dirsync_bhs_quiet dir bs s : ∃ t, dirsync_bhs env dir bs s = (0, t) ∧ blk t = blk s.
Proof. unfold dirsync_bhs, fat_sync_bhs. rewrite (sync_wait_quiet env Hq). destruct (is_dirsync dir); by eexists. Qed.

Lemma fill_free_run a es dir s :
  good s → 0 ≤ a → a + nr ≤ total → entries_ok es → Z.of_nat (length es) = nr →
  ∃ rest t, fill_free env sb true (32 * a) nr (run_blocks a (a + nr)) (mjoin es) dir s = Ret (0, rest, t) ∧ good t ∧ changed s t a (a + nr) (at_run a es).
Proof.
  intros Hs Ha Hab He Hl. destruct (run_blocks_split a (a + nr) ltac:(lia) Hab) as (-> & Hq0 & Hqm & Hend). set (q := a / dpb) in *. set (m := Z.to_nat _) in *.
  destruct (dpb_pos sb lay ops alloc sleep inv good blocks phys) as [Hd E]. destruct (in_block sb lay ops alloc sleep inv good blocks phys a ltac:(lia)) as [_ Hr].
  pose proof (Z.div_mod a dpb ltac:(lia)) as Ea. fold q in Ea. rewrite Z.mul_comm in Ea. unfold fill_free. destruct (Z.eqb_spec nr 0); [lia|].
  rewrite length_app, length_fmap, length_seqZ, Nat2Z.id. change (length [phys (q + Z.of_nat m)]) with 1%nat. rewrite Nat.add_sub.
  rewrite take_app_exact, drop_app_exact by (by rewrite length_fmap, length_seqZ, Nat2Z.id).
  destruct (pos_block sb lay ops alloc sleep inv good blocks phys a Ha) as [_ ->]. replace (nr * 32) with (Z.of_nat (length es) * 32) by lia.
  destruct (fill_slots_spec m q (a mod dpb) es s Hs Hq0 ltac:(lia) Hr He) as (t & -> & Ht & Hc). cbn [mbind outcome_bind]. rewrite <- Ea in Hc.
  set (c := Nat.min _ _) in *. assert (∃ t', (if (m =? 0)%nat then (0, t) else dirsync_bhs env dir (phys <$> seqZ q (Z.of_nat m)) t) = (0, t') ∧ blk t' = blk t) as (t' & -> & Et').
  { destruct (m =? 0)%nat; [by exists t|apply dirsync_bhs_quiet]. }
  cbn [negb Z.eqb]. assert (good t') as Ht' by (apply (good_blk t t' q); [done|lia|done]).
  set (r' := if (m =? 0)%nat then a mod dpb else 0). replace (if (m =? 0)%nat then a mod dpb * 32 else 0) with (r' * 32) by (unfold r'; by destruct (m =? 0)%nat).
  assert (0 ≤ r' < dpb ∧ a + Z.of_nat c = (q + Z.of_nat m) * dpb + r' ∧ Z.of_nat (length es - c) ≤ dpb - r' ∧ (c ≤ length es)%nat) as (Hr' & Ec & Hfit & Hcl).
  { unfold r', c. destruct (Nat.eqb_spec m 0) as [->|]; lia || nia. }
  destruct (fill_slots_spec 1 (q + Z.of_nat m) r' (drop c es) t' Ht' ltac:(lia) ltac:(lia) Hr' (Forall_drop _ _ _ He)) as (u & Eu & Hu & Hcu).
  cbv zeta in Hcu. rewrite length_drop in Eu, Hcu. change (phys <$> seqZ (q + Z.of_nat m) (Z.of_nat 1)) with [phys (q + Z.of_nat m)] in Eu.
  rewrite Nat.min_l in Hcu by lia. rewrite Eu. cbn [mbind outcome_bind].
  destruct (dirsync_quiet env Hq dir (phys (q + Z.of_nat m)) u) as (v & -> & Ev). eexists _, v. split; [reflexivity|].
  split; [apply (good_blk u v q); [done|lia|done]|]. rewrite <- Ec in Hcu. intros x Hx. rewrite (entry_blk u v) by done. rewrite Hcu, (entry_blk t t'), Hc by done.
  destruct (decide (a + Z.of_nat c ≤ x < a + Z.of_nat c + Z.of_nat (length es - c))) as [Hx2|Hx2].
  - rewrite decide_True by lia. unfold at_run. rewrite lookup_drop. f_equal. f_equal. lia.
  - destruct (decide (a ≤ x < a + Z.of_nat c)); [by rewrite decide_True by lia|by rewrite decide_False by lia].
Qed.

(** The entries go to the first run of free entries that is long enough, and no
    other entry changes. *)
Lemma add_run needs_sync sync_inode es dir s :
  good s → inv dir → entries_ok es → Z.of_nat (length es) = nr → (∃ b, 0 ≤ b ∧ b + nr ≤ total ∧ free_run s b (b + nr)) →
  ∃ a dir' t, fat_add_entries env sb lay ops needs_sync sync_inode alloc sleep (mjoin es) nr dir s =
    Ret (0, Some (SlotInfo (fat_make_i_pos lay (place (a + nr - 1))) (32 * a) nr (place (a + nr - 1))), dir', t) ∧
    inv dir' ∧ good t ∧ room_at s 0 a ∧ changed s t a (a + nr) (at_run a es).
Proof.
  intros Hs Hi He Hl Hroom. destruct (find_run s (dir_fuel sb lay dir) 0 0 None 0 dir Hs Hi) as (a & d & E & Hd & Ha); [by split; [|left]|lia| |lia| |intros x Hx; lia|done|].
  { destruct Hroom as (b & ? & ? & _). lia. }
  { by apply (enough_fuel sb lay ops alloc sleep inv good blocks phys). }
  cbn [decide] in E. rewrite decide_True in E by done. rewrite decide_True in E by done. rewrite Z.sub_diag in E. pose proof Ha as (Ha0 & Hat & _ & _).
  destruct (fill_free_run a es d s Hs Ha0 Hat He Hl) as (rest & t & Ef & Ht & Hc). exists a, d, t. split; [|done].
  unfold fat_add_entries. rewrite E. cbn [mbind outcome_bind andb]. replace (32 * (a + nr) - nr * 32) with (32 * a) by lia. rewrite Z.sub_diag. change (0 =? 0) with true.
  rewrite Ef. done.
Qed.
End runs.

(** ** Claims *)

(** C12: An entry with its long name slots can be added and removed, over any number
    of blocks.  Where there is a run of free entries for them in the directory as
    it is, [fat_add_entries] puts them into the first one that is long enough and
    reports where; [fat_remove_entries] of what was reported marks exactly these
    entries deleted.  No other entry changes. *)
Theorem fat_slots_roundtrip env sb lay ops alloc sleep inv good blocks phys `{!DirMap sb lay ops alloc sleep inv good blocks phys}
    needs_sync sync_inode nr es dir s :
  quiet env → 0 < nr ≤ 32 → nr_entries sb blocks * 32 < FAT_MAX_DIR_SIZE → good s → inv dir → entries_ok es → Z.of_nat (length es) = nr →
  (∃ b, 0 ≤ b ∧ b + nr ≤ nr_entries sb blocks ∧ free_run sb phys s b (b + nr)) →
  ∃ a si d1 s1 d2 s2,
    fat_add_entries env sb lay ops needs_sync sync_inode alloc sleep (mjoin es) nr dir s = Ret (0, Some si, d1, s1) ∧
    slot_off si = 32 * a ∧ nr_slots si = nr ∧ 0 ≤ a ∧ free_run sb phys s a (a + nr) ∧ (∀ b, 0 ≤ b → free_run sb phys s b (b + nr) → a ≤ b) ∧
    fat_remove_entries env sb lay ops alloc sleep si d1 s1 = Ret (0, d2, s2) ∧
    ∀ x, 0 ≤ x < nr_entries sb blocks →
      if decide (a ≤ x < a + nr) then es !! Z.to_nat (x - a) = Some (entry_of sb phys s1 x) ∧ entry_of sb phys s2 x = deleted (entry_of sb phys s1 x)
      else entry_of sb phys s1 x = entry_of sb phys s x ∧ entry_of sb phys s2 x = entry_of sb phys s x.
Proof.
  intros Hq Hnr Hmax Hs Hi He Hl Hroom.
  destruct (add_run env sb lay ops alloc sleep inv good blocks phys Hq nr Hnr Hmax needs_sync sync_inode es dir s Hs Hi He Hl Hroom) as (a & d1 & s1 & Ea & Hd1 & Hs1 & (H0 & Ht & Hf & Hmin) & Hc).
  destruct (remove_run env sb lay ops alloc sleep inv good blocks phys Hq nr (fat_make_i_pos lay (place_of sb phys (a + nr - 1))) (a + nr - 1) d1 s1 Hs1 Hd1 ltac:(lia) ltac:(lia))
    as (d2 & s2 & Er & _ & _ & Hc2). replace (a + nr - 1 + 1 - nr) with a in * by lia. replace (a + nr - 1 + 1) with (a + nr) in * by lia.
  eexists a, _, d1, s1, d2, s2. split; [exact Ea|]. split; [done|]. split; [done|]. split; [done|]. split; [done|]. split; [done|]. split; [exact Er|]. intros x Hx. specialize (Hc x Hx). specialize (Hc2 x Hx).
  destruct (decide (a ≤ x < a + nr)); [|split; [done|congruence]]. split; [|done]. rewrite Hc. unfold at_run. destruct (lookup_lt_is_Some_2 es (Z.to_nat (x - a)) ltac:(lia)) as [e ->]. done.
Qed.

(** ** An example

    A root of two blocks whose first block has twelve entries in use: five slots
    go over the end of it. *)

Definition two_layout : layout := Layout 1 9 4 32 4 20 (2 ^ 20).
Definition two_root := root_map Sample.sb16 two_layout fat16_ops true (λ i, i) Sample.geo16 ltac:(by vm_compute) ltac:(by vm_compute) ltac:(by vm_compute).
Definition two_fs : fatfs :=
  FatFs (<[4 := mjoin (replicate 12 (entry_bytes name_a 32)) ++ replicate 128 0]> (<[5 := replicate 512 0]> (blk (Sample.fs16 4)))) ∅ 5 4 false false.
Definition five_slots : list msdos_dir_entry := (λ i, entry_bytes (replicate 11 i) 15) <$> [69; 4; 3; 2; 1].

Lemma two_fs_good : root_good Sample.sb16 two_layout two_fs.
Proof.
  intros i Hi. change (root_blocks two_layout) with 2 in Hi. assert (i = 0 ∨ i = 1) as [-> | ->] by lia; eexists; split; [vm_compute; reflexivity|done|vm_compute; reflexivity|done].
Qed.

Lemma two_fs_room : free_run Sample.sb16 (root_phys two_layout) two_fs 12 (12 + 5).
Proof. intros x Hx. assert (x = 12 ∨ x = 13 ∨ x = 14 ∨ x = 15 ∨ x = 16) as [->|[->|[->|[->| ->]]]] by lia; vm_compute; reflexivity. Qed.

Lemma fat_slots_roundtrip_witness :
  ∃ a si d1 s1 d2 s2,
    fat_add_entries Sample.quiet_env Sample.sb16 two_layout fat16_ops false 0 true (λ i, i) (mjoin five_slots) 5 root_inode two_fs = Ret (0, Some si, d1, s1) ∧
    slot_off si = 32 * a ∧ a ≤ 12 ∧ nr_slots si = 5 ∧ fat_remove_entries Sample.quiet_env Sample.sb16 two_layout fat16_ops true (λ i, i) si d1 s1 = Ret (0, d2, s2).
Proof.
  destruct (fat_slots_roundtrip Sample.quiet_env Sample.sb16 two_layout fat16_ops true (λ i, i) _ _ _ _ (DirMap0 := two_root) false 0 5 five_slots root_inode two_fs
    Sample.quiet_ok ltac:(lia) eq_refl two_fs_good eq_refl) as (a & si & d1 & s1 & d2 & s2 & H1 & Ho & H2 & H0 & _ & Hmin & H3 & _).
  - unfold entries_ok, five_slots. apply Forall_fmap, Forall_forall. intros i _. reflexivity.
  - reflexivity.
  - exists 12. split; [lia|]. split; [vm_compute; discriminate|]. exact two_fs_room.
  - exists a, si, d1, s1, d2, s2. split; [exact H1|]. split; [exact Ho|]. split; [apply (Hmin 12); [lia|exact two_fs_room]|]. split; [exact H2|exact H3].
Defined.
