(* ===== verification/Nls.v ===== *)
(** Character sets: the UTF-8 coding of [fs/nls/nls_base.c], its default table and
    the comparisons of [include/linux/nls.h].

    Strings are lists without their terminator; reading at the end of one gives
    the terminator.  An array that is written has a size, and a write past it is
    outside the language. *)

From S2P Require Import Prelude.

(** ** Tables *)

(** [char2uni] gives the number of bytes it took, or a negative number, and the
    character; [uni2char] the bytes of a character, none if it has no
    equivalent; the tables of letters hold 0 where there is no other case. *)
Record nls_table := Nls { char2uni : list Z → Z * Z; uni2char : Z → list Z; charset2lower : Z → Z; charset2upper : Z → Z }.

Definition nls_tolower (t : nls_table) (c : Z) : Z := let nc := charset2lower t c in if nc =? 0 then c else nc.
Definition nls_toupper (t : nls_table) (c : Z) : Z := let nc := charset2upper t c in if nc =? 0 then c else nc.

(** [!nls_strnicmp(t, a, b, n)]; both arrays have [n] bytes. *)
Fixpoint nls_strnicmp (t : nls_table) (n : nat) (a b : list Z) : bool :=
  match n, a, b with
  | S n, x :: a, y :: b => (nls_tolower t x =? nls_tolower t y) && nls_strnicmp t n a b
  | O, _, _ => true
  | _, _, _ => false
  end.

(** The table of the kernel itself, in which [page00] and [charset2uni] are the
    identity. *)
Definition default_char2uni (rawstring : list Z) : Z * Z := let uni := default 0 (head rawstring) in (if uni =? 0 then -22 else 1, uni).
Definition default_uni2char (uni : Z) : list Z :=
  let cl := Z.land uni 0x00ff in if (Z.shiftr uni 8 =? 0) && negb (cl =? 0) then [cl] else [].
Definition default_lower (c : Z) : Z := if (65 <=? c) && (c <=? 90) then c + 32 else c.
Definition default_upper (c : Z) : Z := if (97 <=? c) && (c <=? 122) then c - 32 else c.
Definition default_table : nls_table := Nls default_char2uni default_uni2char default_lower default_upper.

(** ** UTF-8 *)

(** Values written to an array of [size] after those that are there. *)
Definition emit (size : nat) (out x : list Z) : outcome (list Z) := if (length out + length x <=? size)%nat then Ret (out ++ x) else Undef.

Record utf8_row := Utf8Row { cmask : Z; cval : Z; shift : Z; lmask : Z; lval : Z }.

Definition utf8_table : list utf8_row :=
  [Utf8Row 0x80 0x00 0 0x7f 0; Utf8Row 0xe0 0xc0 6 0x7ff 0x80; Utf8Row 0xf0 0xe0 12 0xffff 0x800; Utf8Row 0xf8 0xf0 18 0x1fffff 0x10000;
   Utf8Row 0xfc 0xf8 24 0x3ffffff 0x200000; Utf8Row 0xfe 0xfc 30 0x7fffffff 0x4000000].

(** [s] are the bytes after the one read last; the character and the number of
    its bytes, or [None] for -1. *)
Fixpoint mbtowc_loop (rows : list utf8_row) (c0 l nc : Z) (s : list Z) (n : Z) : option (Z * Z) :=
  match rows with
  | [] => None
  | t :: rows =>
    let nc := nc + 1 in
    if Z.land c0 (cmask t) =? cval t then let l := Z.land l (lmask t) in if l <? lval t then None else Some (u16 l, nc) else
    if n <=? nc then None else
    let c := Z.land (Z.lxor (default 0 (head s)) 0x80) 0xff in
    if z2b (Z.land c 0xc0) then None else mbtowc_loop rows c0 (Z.lor (Z.shiftl l 6) c) nc (tail s) n
  end.

Definition utf8_mbtowc (s : list Z) (n : Z) : option (Z * Z) := let c0 := default 0 (head s) in mbtowc_loop utf8_table c0 c0 0 (tail s) n.

(** Every turn takes a byte at least. *)
Fixpoint mbstowcs_loop (fuel size : nat) (ip : list Z) (n : Z) (out : list Z) : outcome (list Z) :=
  match fuel with
  | O => NoFuel
  | S fuel =>
    match ip with
    | [] => Ret out
    | c :: rest =>
      if (c =? 0) || negb (0 <? n) then Ret out else
      if z2b (Z.land c 0x80) then
        match utf8_mbtowc ip n with
        | None => mbstowcs_loop fuel size rest (n - 1) out
        | Some (wc, k) => out ← emit size out [wc]; mbstowcs_loop fuel size (drop (Z.to_nat k) ip) (n - k) out
        end
      else out ← emit size out [c]; mbstowcs_loop fuel size rest (n - 1) out
    end
  end.

Definition utf8_mbstowcs (size : nat) (s : list Z) (n : Z) : outcome (list Z) := mbstowcs_loop (S (length s)) size s n [].

(** The bytes after the first, [n] of them. *)
Fixpoint utf8_tail (n : nat) (l : Z) : list Z :=
  match n with O => [] | S n => Z.lor 0x80 (Z.land (Z.shiftr l (6 * Z.of_nat n)) 0x3f) :: utf8_tail n l end.

(** [nc] counts the bytes after the first. *)
Fixpoint wctomb_loop (rows : list utf8_row) (nc : nat) (l maxlen : Z) : option (list Z) :=
  match rows with
  | [] => None
  | t :: rows =>
    if maxlen =? 0 then None else
    if l <=? lmask t then Some (u8 (Z.lor (cval t) (Z.shiftr l (shift t))) :: utf8_tail nc l) else wctomb_loop rows (S nc) l (maxlen - 1)
  end.

Definition utf8_wctomb (wc maxlen : Z) : option (list Z) := wctomb_loop utf8_table 0 wc maxlen.

(** A character below 0x80 is not counted against [maxlen]. *)
Fixpoint wcstombs_loop (size : nat) (ip : list Z) (maxlen : Z) (out : list Z) : outcome (list Z) :=
  match ip with
  | [] => Ret out
  | c :: ip =>
    if (c =? 0) || negb (0 <? maxlen) then Ret out else
    if 0x7f <? c then
      match utf8_wctomb c maxlen with
      | None => wcstombs_loop size ip (maxlen - 1) out
      | Some x => out ← emit size out x; wcstombs_loop size ip (maxlen - Z.of_nat (length x)) out
      end
    else out ← emit size out [c]; wcstombs_loop size ip maxlen out
  end.

Definition utf8_wcstombs (size : nat) (pwcs : list Z) (maxlen : Z) : outcome (list Z) := wcstombs_loop size pwcs maxlen [].

(** ** Reading back what was written *)

(** One character: its bytes, how many, and the character again. *)
Definition char_ok (c : Z) : bool :=
  match utf8_wctomb c 3 with
  | Some (b :: x) => z2b (Z.land b 0x80) && negb (b =? 0) && (length x <=? 2)%nat &&
      bool_decide (utf8_mbtowc (b :: x) (Z.of_nat (length (b :: x))) = Some (c, Z.of_nat (length (b :: x))))
  | _ => false
  end.

Lemma chars_ok : forallb (λ h, forallb (λ l, let c := 256 * h + l in (c <? 0x80) || char_ok c) (seqZ 0 256)) (seqZ 0 256) = true.
Proof. by vm_compute. Qed.

Lemma char_ok_all c : 0x80 ≤ c < 0x10000 → char_ok c = true.
Proof.
  intros Hc. pose proof (Z.div_mod c 256 ltac:(lia)) as Hd. pose proof (Z.mod_pos_bound c 256 ltac:(lia)) as Hm. pose proof chars_ok as H. rewrite forallb_forall in H.
  specialize (H (c / 256) ltac:(apply list_elem_of_In, elem_of_seqZ; lia)). cbn beta in H. rewrite forallb_forall in H.
  specialize (H (c mod 256) ltac:(apply list_elem_of_In, elem_of_seqZ; lia)). cbv zeta in H. replace (256 * (c / 256) + c mod 256) with c in H by lia.
  by destruct (Z.ltb_spec c 0x80); [lia|].
Qed.

(** More bytes after a character, and a greater bound, change nothing. *)
Lemma mbtowc_more rows c0 l nc s r n n' x :
  mbtowc_loop rows c0 l nc s n = Some x → 0 ≤ nc → n = nc + 1 + Z.of_nat (length s) → n ≤ n' → mbtowc_loop rows c0 l nc (s ++ r) n' = Some x.
Proof.
  revert l nc s. induction rows as [|t rows IH]; intros l nc s H Hn En Hle; [done|]. cbn [mbtowc_loop] in *.
  destruct (_ =? cval t); [done|]. destruct (Z.leb_spec n (nc + 1)); [done|]. destruct (Z.leb_spec n' (nc + 1)); [lia|].
  destruct s as [|b s]; [cbn [length] in En; lia|]. cbn [head default from_option tail app] in *.
  destruct (z2b _); [done|]. apply IH; [done|lia| |done]. cbn [length] in En. lia.
Qed.

Lemma wctomb_enough c maxlen : c < 0x10000 → 3 ≤ maxlen → utf8_wctomb c maxlen = utf8_wctomb c 3.
Proof.
  intros Hc Hm. unfold utf8_wctomb, utf8_table. cbn [wctomb_loop lmask]. destruct (Z.leb_spec c 0xffff); [|lia].
  destruct (Z.eqb_spec maxlen 0), (Z.eqb_spec (maxlen - 1) 0), (Z.eqb_spec (maxlen - 1 - 1) 0); done || lia.
Qed.

Lemma wctomb_char c maxlen :
  0x80 ≤ c < 0x10000 → 3 ≤ maxlen →
  ∃ b x, utf8_wctomb c maxlen = Some (b :: x) ∧ z2b (Z.land b 0x80) = true ∧ b ≠ 0 ∧ (length x ≤ 2)%nat ∧
    ∀ r n, Z.of_nat (length (b :: x)) ≤ n → utf8_mbtowc ((b :: x) ++ r) n = Some (c, Z.of_nat (length (b :: x))).
Proof.
  intros Hc Hm. rewrite wctomb_enough by lia. pose proof (char_ok_all c Hc) as H. unfold char_ok in H. destruct (utf8_wctomb c 3) as [[|b x]|]; [done| |done].
  apply andb_prop in H as [H Hd%bool_decide_eq_true]. apply andb_prop in H as [H Hl%Nat.leb_le]. apply andb_prop in H as [Hb Hz].
  exists b, x. split; [done|]. split; [done|]. split; [by destruct (Z.eqb_spec b 0)|]. split; [done|]. intros r n Hn.
  unfold utf8_mbtowc in *. cbn [head default from_option tail app] in *. eapply mbtowc_more; [exact Hd|done|cbn [length]; lia|done].
Qed.

Lemma emit_in size out x : (length out + length x ≤ size)%nat → emit size out x = Ret (out ++ x).
Proof. intros H%Nat.leb_le. unfold emit. by rewrite H. Qed.

(** A character of a name: not the terminator, sixteen bits. *)
Definition is_wchar (c : Z) : Prop := 0 < c < 0x10000.

(** What the coding adds, and that decoding it from any point on adds the
    characters again. *)
Lemma wcstombs_spec size w maxlen out :
  Forall is_wchar w → 3 * Z.of_nat (length w) < maxlen → (length out + 3 * length w ≤ size)%nat →
  ∃ x, wcstombs_loop size w maxlen out = Ret (out ++ x) ∧ (length x ≤ 3 * length w)%nat ∧
    ∀ fuel wsize n got, (length x < fuel)%nat → Z.of_nat (length x) ≤ n → (length got + length w ≤ wsize)%nat →
      mbstowcs_loop fuel wsize x n got = Ret (got ++ w).
Proof.
  revert maxlen out. induction w as [|c w IH]; intros maxlen out Hw Hm Hs.
  - exists []. rewrite app_nil_r. split; [done|]. split; [done|]. intros [|fuel] wsize k got Hf Hn Hg; [cbn in Hf; lia|]. by rewrite app_nil_r.
  - apply Forall_cons in Hw as [[Hc1 Hc2] Hw']. cbn [length] in *. cbn [wcstombs_loop].
    destruct (Z.eqb_spec c 0); [lia|]. destruct (Z.ltb_spec 0 maxlen); [|lia]. cbn [orb negb]. destruct (Z.ltb_spec 0x7f c) as [Hbig|Hsmall].
    + destruct (wctomb_char c maxlen) as (b & y & -> & Hb & Hb0 & Hy & Hd); [lia|lia|]. rewrite emit_in by (cbn [length]; lia). cbn [mbind outcome_bind].
      destruct (IH (maxlen - Z.of_nat (length (b :: y))) (out ++ b :: y)) as (x & -> & Hx & Hr); [done|cbn [length]; lia|rewrite length_app; cbn [length]; lia|].
      exists ((b :: y) ++ x). rewrite (assoc_L (++)), length_app. cbn [length] in *. split; [done|]. split; [lia|]. intros [|fuel] wsize k got Hf Hn Hg; [lia|].
      cbn [mbstowcs_loop app]. destruct (Z.eqb_spec b 0); [done|]. destruct (Z.ltb_spec 0 k); [|lia]. cbn [orb negb]. rewrite Hb.
      change (b :: y ++ x) with ((b :: y) ++ x). rewrite Hd by lia. rewrite emit_in by (cbn [length]; lia). cbn [mbind outcome_bind].
      rewrite drop_app_exact by (cbn [length]; lia). rewrite Hr; [by rewrite <- (assoc_L (++))|lia|lia|rewrite length_app; cbn [length]; lia].
    + rewrite emit_in by (cbn [length]; lia). cbn [mbind outcome_bind].
      destruct (IH maxlen (out ++ [c])) as (x & -> & Hx & Hr); [done|lia|rewrite length_app; cbn [length]; lia|].
      exists (c :: x). rewrite <- (assoc_L (++)). cbn [length] in *. split; [done|]. split; [lia|]. intros [|fuel] wsize k got Hf Hn Hg; [lia|].
      cbn [mbstowcs_loop]. destruct (Z.eqb_spec c 0); [lia|]. destruct (Z.ltb_spec 0 k); [|lia]. cbn [orb negb].
      assert (z2b (Z.land c 0x80) = false) as ->.
      { assert (forallb (λ c, negb (z2b (Z.land c 0x80))) (seqZ 0 0x80) = true) as H7 by (by vm_compute). rewrite forallb_forall in H7.
        apply negb_true_iff, H7, list_elem_of_In, elem_of_seqZ. lia. }
      rewrite emit_in by (cbn [length]; lia). cbn [mbind outcome_bind]. rewrite Hr; [by rewrite <- (assoc_L (++))|lia|lia|rewrite length_app; cbn [length]; lia].
Qed.

(** A name of sixteen bit characters that is coded as UTF-8, with room for
    three bytes a character, and decoded again is the same name: both calls
    return and neither writes past its array. *)
Theorem utf8_roundtrip (w : list Z) (size wsize : nat) (n : Z) :
  Forall is_wchar w → (3 * length w < size)%nat → (length w ≤ wsize)%nat → 3 * Z.of_nat (length w) ≤ n →
  ∃ x, utf8_wcstombs size w (Z.of_nat size) = Ret x ∧ utf8_mbstowcs wsize x n = Ret w.
Proof.
  intros Hw Hs Hws Hn. destruct (wcstombs_spec size w (Z.of_nat size) [] Hw) as (x & E & Hx & Hr); [lia|cbn [length]; lia|].
  exists x. split; [done|]. apply Hr; [lia|lia|cbn [length]; lia].
Qed.

(** The characters of the euro and of an umlaut between letters. *)
Lemma utf8_roundtrip_witness :
  ∃ x, utf8_wcstombs 260 [97; 0x20ac; 0xfc; 46; 99] 260 = Ret x ∧ utf8_mbstowcs 256 x 4096 = Ret [97; 0x20ac; 0xfc; 46; 99].
Proof.
  apply (utf8_roundtrip [97; 0x20ac; 0xfc; 46; 99] 260 256 4096); [|cbn; lia..]. repeat (apply Forall_cons; split; [unfold is_wchar; lia|]). apply Forall_nil_2.
Defined.

(** The bound is not kept: a byte for a character below 0x80 is not counted, so
    letters followed by other characters run past an array of the size given. *)
Lemma utf8_wcstombs_overruns : utf8_wcstombs 260 (replicate 195 97 ++ replicate 60 0x20ac) 260 = Undef.
Proof. by vm_compute. Qed.
