(* ===== verification/FatLong.v ===== *)
(** Long names in the directories of a FAT file system: the slots that hold one
    ([fs/vfat/namei.c] and [include/linux/msdos_fs.h]), reading them back and
    searching a directory for a name ([fs/fat/dir.c]).

    Arrays on the kernel's stack and the page for a name have their sizes, and a
    write outside one is outside the language. *)

From stdpp Require Import strings.
From S2P Require Import Prelude Fatent FatentLaws FatAlloc FatDate FatCache FatFile FatDir Nls.

(** ** Slots *)

Definition ATTR_EXT : Z := 15.
Definition CASE_LOWER_BASE : Z := 8.
Definition CASE_LOWER_EXT : Z := 16.
Definition VFAT_SFN_DISPLAY_LOWER : Z := 1.
Definition VFAT_SFN_DISPLAY_WIN95 : Z := 2.
Definition VFAT_SFN_DISPLAY_WINNT : Z := 4.

Definition fat_checksum (name : list Z) : Z :=
  match name with [] => 0 | c :: name => foldl (λ s c, u8 (Z.shiftl s 7 + Z.shiftr s 1 + c)) c name end.

(** [fat16_towchar] and [fatwchar_to16]: characters of sixteen bits, low byte
    first. *)
Fixpoint fat16_towchar (l : list Z) : list Z := match l with a :: b :: l => le_val [a; b] :: fat16_towchar l | _ => [] end.
Definition fatwchar_to16 (l : list Z) : list Z := l ≫= le_bytes 2.

Definition slot_id (e : msdos_dir_entry) : Z := default 0 (head e).
Definition slot_checksum (e : msdos_dir_entry) : Z := default 0 (e !! 13%nat).
Definition slot_chars (e : msdos_dir_entry) : list Z := fat16_towchar (take 10 (drop 1 e)) ++ fat16_towchar (take 12 (drop 14 e)) ++ fat16_towchar (take 4 (drop 28 e)).

(** The slots [vfat_build_slots] makes of a name filled up to a multiple of
    thirteen, the last part of the name first. *)
Definition name_slot (id cksum : Z) (chars : list Z) : msdos_dir_entry :=
  id :: fatwchar_to16 (take 5 chars) ++ [ATTR_EXT; 0; cksum] ++ fatwchar_to16 (take 6 (drop 5 chars)) ++ le_bytes 2 0 ++ fatwchar_to16 (take 2 (drop 11 chars)).

Fixpoint slots_loop (i : nat) (first : bool) (cksum : Z) (uname : list Z) : list msdos_dir_entry :=
  match i with
  | O => []
  | S j => name_slot (if first then Z.lor (Z.of_nat i) 0x40 else Z.of_nat i) cksum (drop (j * 13) uname) :: slots_loop j false cksum uname
  end.

Definition long_slots (msdos_name uname : list Z) : list msdos_dir_entry := slots_loop (length uname / 13) true (fat_checksum msdos_name) uname.

(** The end of [xlate_to_uni]: a terminator and a filling up to a multiple of
    thirteen characters. *)
Definition fill_name (uname : list Z) : list Z :=
  if (length uname mod 13 =? 0)%nat then uname else
  let l := uname ++ [0] in
  if (length l mod 13 =? 0)%nat then l else l ++ replicate (13 - length l mod 13) 0xffff.

(** ** Reading a long name *)

Inductive parse_status := PARSE_OK (nr_slots : Z) | PARSE_INVALID | PARSE_NOT_LONGNAME | PARSE_EOF.

(** A slot that starts a name: the number of slots and the checksum. *)
Definition begin_long (e : msdos_dir_entry) : option (Z * Z) :=
  let id := slot_id e in
  let slots := u8 (Z.land id (Z.lnot 0x40)) in
  if negb (z2b (Z.land id 0x40)) then None else if (20 <? slots) || (slots =? 0) then None else Some (slots, slot_checksum e).

(** Characters stored into the page of the name. *)
Definition put_at (offset : nat) (x uni : list Z) : outcome (list Z) :=
  if (offset + length x <=? length uni)%nat then Ret (splice offset x uni) else Undef.

Definition put_chars (uni : list Z) (slot : Z) (e : msdos_dir_entry) : outcome (list Z) :=
  let offset := Z.to_nat (slot * 13) in
  uni ← put_at offset (slot_chars e) uni;
  if z2b (Z.land (slot_id e) 0x40) then put_at (offset + 13) [0] uni else Ret uni.

Section long.
Context (sb : sb_info) (lay : layout) (ops : fatent_operations) (alloc : bool) (sleep : finode → finode).

(** From the loop on; the current slot is [de], and [slot] the number it has. *)
Fixpoint long_loop (fuel : nat) (slots slot cksum : Z) (de : ptr) (pos : Z) (uni : list Z) (dir : finode) (s : fatfs)
    : outcome (parse_status * option ptr * Z * list Z * finode * fatfs) :=
  match fuel with
  | O => NoFuel
  | S fuel =>
    ds ← dirent s de;
    let slot := slot - 1 in
    uni ← put_chars uni slot ds;
    '(cur, pos, dir, s) ← fat_get_entry sb lay ops alloc sleep (Some de) pos dir s;
    match cur with
    | None => Ret (PARSE_EOF, None, pos, uni, dir, s)
    | Some de =>
      e ← dirent s de;
      let parse_long :=
        match begin_long e with
        | None => Ret (PARSE_INVALID, cur, pos, uni, dir, s)
        | Some (slots, cksum) => long_loop fuel slots slots cksum de pos uni dir s
        end in
      if slot =? 0 then
        if slot_id e =? DELETED_FLAG then Ret (PARSE_INVALID, cur, pos, uni, dir, s) else
        if de_attr e =? ATTR_EXT then parse_long else
        if IS_FREE (de_name e) || z2b (Z.land (de_attr e) ATTR_VOLUME) then Ret (PARSE_INVALID, cur, pos, uni, dir, s) else
        Ret (PARSE_OK (if fat_checksum (de_name e) =? cksum then slots else 0), cur, pos, uni, dir, s)
      else
        if negb (de_attr e =? ATTR_EXT) then Ret (PARSE_NOT_LONGNAME, cur, pos, uni, dir, s) else
        if negb (Z.land (slot_id e) (Z.lnot 0x40) =? slot) then parse_long else
        if negb (slot_checksum e =? cksum) then parse_long else
        long_loop fuel slots slot cksum de pos uni dir s
    end
  end.

(** [page] is the buffer if there is one yet, [new_page] what an allocation gives.
    The left side is [-ENOMEM]. *)
Definition fat_parse_long (new_page page : option (list Z)) (de : ptr) (pos : Z) (dir : finode) (s : fatfs)
    : outcome (option (parse_status * option ptr * Z) * option (list Z) * finode * fatfs) :=
  match (match page with Some uni => Some uni | None => new_page end) with
  | None => Ret (None, None, dir, s)
  | Some uni =>
    e ← dirent s de;
    match begin_long e with
    | None => Ret (Some (PARSE_INVALID, Some de, pos), Some uni, dir, s)
    | Some (slots, cksum) =>
      '(st, cur, pos, uni, dir, s) ← long_loop (dir_fuel sb lay dir) slots slots cksum de pos uni dir s;
      Ret (Some (st, cur, pos), Some uni, dir, s)
    end
  end.
End long.

(** ** Names as bytes *)

Definition hex_digit (nc : Z) : Z := if 9 <? nc then nc + 87 else nc + 48.
Definition escape (ec : Z) : list Z := 58 :: ((λ k, hex_digit (Z.land (Z.shiftr ec (4 * k)) 0xf)) <$> [3; 2; 1; 0]).

(** [uni16_to_x8]: the length is looked at only after the bytes are written. *)
Fixpoint x8_loop (size : nat) (uni_xlate : bool) (t : nls_table) (ip out : list Z) : outcome (list Z) :=
  match ip with
  | [] => Ret out
  | ec :: ip =>
    if ec =? 0 then Ret out else
    out ← emit size out (match uni2char t ec with [] => if uni_xlate then escape ec else [63] | x => x end);
    if (256 <? length out)%nat then Ret (take 256 out) else x8_loop size uni_xlate t ip out
  end.

Definition uni16_to_x8 (size : nat) (uni_xlate : bool) (t : nls_table) (uni : list Z) : outcome (list Z) :=
  out ← x8_loop size uni_xlate t uni []; _ ← emit size out [0]; Ret out.

(** The length in bytes of the character at the start of [c], and the character. *)
Definition fat_short2uni (t : nls_table) (c : list Z) : Z * Z := let '(charlen, uni) := char2uni t c in if charlen <? 0 then (1, 0x3f) else (charlen, uni).

Definition fat_short2lower_uni (t : nls_table) (c : list Z) : Z * Z :=
  let '(charlen, wc) := char2uni t c in
  if charlen <? 0 then (1, 0x3f) else
  if charlen <=? 1 then fat_short2uni t [nls_tolower t (default 0 (head c))] else (charlen, wc).

Definition fat_shortname2uni (t : nls_table) (buf : list Z) (opt : Z) (lower : bool) : Z * Z :=
  if z2b (Z.land opt VFAT_SFN_DISPLAY_LOWER) then fat_short2lower_uni t buf else
  if z2b (Z.land opt VFAT_SFN_DISPLAY_WIN95) then fat_short2uni t buf else
  if z2b (Z.land opt VFAT_SFN_DISPLAY_WINNT) then if lower then fat_short2lower_uni t buf else fat_short2uni t buf
  else fat_short2uni t buf.

(** One part of a short name from byte [work] on: the characters in [bufuname],
    [j] of them, and [last_u].  A character of no bytes would keep the loop where
    it is. *)
Fixpoint part_loop (fuel : nat) (t : nls_table) (opt : Z) (lower : bool) (work buf : list Z) (last_u : nat) : outcome (list Z * nat) :=
  match fuel with
  | O => NoFuel
  | S fuel =>
    match work with
    | [] => Ret (buf, last_u)
    | c :: _ =>
      if c =? 0 then Ret (buf, last_u) else
      let '(chl, uc) := fat_shortname2uni t work opt lower in
      buf ← emit 14 buf [uc];
      part_loop fuel t opt lower (drop (Z.to_nat chl) work) buf (if (chl <=? 1) && (c =? 32) then last_u else length buf)
    end
  end.

Definition de_lcase (e : msdos_dir_entry) : Z := default 0 (e !! 12%nat).

(** The short name of an entry in [bufuname], up to the terminator. *)
Definition short_uname (t : nls_table) (opt : Z) (e : msdos_dir_entry) : outcome (list Z) :=
  let work := match take 8 e with c :: l => (if c =? 5 then 0xe5 else c) :: l | [] => [] end in
  '(buf, last_u) ← part_loop 9 t opt (z2b (Z.land (de_lcase e) CASE_LOWER_BASE)) work [] 0;
  let '(_, dot) := fat_short2uni t [46] in
  buf ← emit 14 (take last_u buf) [dot];
  '(buf, last_u) ← part_loop 4 t opt (z2b (Z.land (de_lcase e) CASE_LOWER_EXT)) (take 3 (drop 8 e)) buf last_u;
  _ ← emit 14 (take last_u buf) [0];
  Ret (take last_u buf).

(** The mount options that names depend on, and the two character sets. *)
Record vfat_options := VfatOptions {
  unicode_xlate : bool; opt_utf8 : bool; anycase : bool; opt_shortname : Z; numtail : bool; nls_io : nls_table; nls_disk : nls_table
}.

(** The comparison of the name wanted with a name of the directory, converted
    into [bufname]; [xlate_len] has eight bits. *)
Definition same_name (o : vfat_options) (name uni : list Z) : outcome bool :=
  bufname ← (if opt_utf8 o then utf8_wcstombs 260 uni 260 else uni16_to_x8 260 (unicode_xlate o) (nls_io o) uni);
  let xlate_len := u8 (Z.of_nat (length bufname)) in
  Ret ((xlate_len =? Z.of_nat (length name)) &&
       (if anycase o then nls_strnicmp (nls_io o) (Z.to_nat xlate_len) name bufname else bool_decide (name = take (Z.to_nat xlate_len) bufname))).

(** The entry that a name is compared with: its short name, then the long one. *)
Definition matches_entry (o : vfat_options) (name : list Z) (e : msdos_dir_entry) (nr : Z) (unicode : option (list Z)) : outcome bool :=
  uname ← short_uname (nls_disk o) (opt_shortname o) e;
  if bool_decide (uname = []) then Ret false else
  short ← same_name o name uname;
  if (short : bool) then Ret true else
  if nr =? 0 then Ret false else match unicode with Some uni => same_name o name uni | None => Undef end.

(** ** Searching for a name *)

Section find.
Context (sb : sb_info) (lay : layout) (ops : fatent_operations) (alloc : bool) (sleep : finode → finode).
Context (o : vfat_options) (name : list Z) (new_page : option (list Z)).

(** [have] says that the entry at [cur] is still to be looked at ([parse_record]);
    [unicode] is the page once there is one.  The error, and on success where the
    entries of the name are. *)
Fixpoint search_loop (fuel : nat) (have : bool) (unicode : option (list Z)) (cur : option ptr) (pos : Z) (dir : finode) (s : fatfs)
    : outcome (Z * option fat_slot_info * finode * fatfs) :=
  match fuel with
  | O => NoFuel
  | S fuel =>
    '(cur, pos, dir, s) ← (if have then Ret (cur, pos, dir, s) else fat_get_entry sb lay ops alloc sleep cur pos dir s);
    match cur with
    | None => Ret (- ENOENT, None, dir, s)
    | Some de =>
      e ← dirent s de;
      let continue unicode cur pos dir s := search_loop fuel false unicode cur pos dir s in
      if slot_id e =? DELETED_FLAG then continue unicode cur pos dir s else
      if negb (de_attr e =? ATTR_EXT) && z2b (Z.land (de_attr e) ATTR_VOLUME) then continue unicode cur pos dir s else
      if negb (de_attr e =? ATTR_EXT) && IS_FREE (de_name e) then continue unicode cur pos dir s else
      '(st, unicode, dir, s) ← (if de_attr e =? ATTR_EXT then fat_parse_long sb lay ops alloc sleep new_page unicode de pos dir s
                                else Ret (Some (PARSE_OK 0, cur, pos), unicode, dir, s));
      match st with
      | None => Ret (- ENOMEM, None, dir, s)
      | Some (PARSE_INVALID, cur, pos) => continue unicode cur pos dir s
      | Some (PARSE_NOT_LONGNAME, cur, pos) => search_loop fuel true unicode cur pos dir s
      | Some (PARSE_EOF, _, _) | Some (PARSE_OK _, None, _) => Ret (- ENOENT, None, dir, s)
      | Some (PARSE_OK nr, Some de, pos) =>
        e ← dirent s de;
        found ← matches_entry o name e nr unicode;
        if (found : bool) then Ret (0, Some (SlotInfo (fat_make_i_pos lay de) (pos - (nr + 1) * 32) (nr + 1) de), dir, s)
        else continue unicode (Some de) pos dir s
      end
    end
  end.

Definition fat_search_long (dir : finode) (s : fatfs) : outcome (Z * option fat_slot_info * finode * fatfs) :=
  search_loop (dir_fuel sb lay dir) false None None 0 dir s.
End find.

(** ** Slots as they are read *)

Lemma splice_lookup_in {A} o (x l : list A) i : (o + length x ≤ length l)%nat → (i < length x)%nat → splice o x l !! (o + i)%nat = x !! i.
Proof.
  intros Hl Hi. unfold splice. rewrite lookup_app_r by (rewrite length_take; lia). rewrite length_take, Nat.min_l by lia.
  replace (o + i - o)%nat with i by lia. by apply lookup_app_l.
Qed.

Lemma char16 a : 0 ≤ a < 0x10000 → le_val [a mod 256; a / 256 mod 256] = a.
Proof. intros. cbn [le_val]. rewrite (Z.mod_small (a / 256)); [|split; [apply Z.div_pos|apply Z.div_lt_upper_bound]; lia]. pose proof (Z.div_mod a 256). lia. Qed.

Definition is_char16 (c : Z) : Prop := 0 ≤ c < 0x10000.

(** The parts of a slot that is made of thirteen characters. *)
Lemma name_slot_parts id ck chars :
  (13 ≤ length chars)%nat → Forall is_char16 chars →
  let e := name_slot id ck chars in
  length e = 32%nat ∧ slot_id e = id ∧ slot_checksum e = ck ∧ de_attr e = ATTR_EXT ∧ slot_chars e = take 13 chars.
Proof.
  intros Hl Hc. do 13 (destruct chars as [|? chars]; [cbn in Hl; lia|]; apply Forall_cons in Hc as [? Hc]).
  cbv zeta. repeat split. cbn -[le_val Z.modulo Z.div]. by rewrite !char16 by done.
Qed.

Lemma slots_loop_lookup i first ck u j :
  (j < i)%nat → slots_loop i first ck u !! j =
    Some (name_slot (if first && (j =? 0)%nat then Z.lor (Z.of_nat i) 0x40 else Z.of_nat (i - j)) ck (drop ((i - 1 - j) * 13) u)).
Proof.
  revert first j. induction i as [|i IH]; intros first j Hj; [lia|]. cbn [slots_loop]. destruct j as [|j].
  - cbn [lookup list_lookup]. rewrite andb_true_r. by replace (S i - 1 - 0)%nat with i by lia.
  - cbn [lookup list_lookup]. rewrite IH by lia. cbn [andb Nat.eqb]. rewrite andb_false_r. by replace (S i - 1 - S j)%nat with (i - 1 - j)%nat by lia.
Qed.

(** The identifier of a first slot. *)
Lemma first_id n : 0 < n ≤ 20 → u8 (Z.land (Z.lor n 0x40) (Z.lnot 0x40)) = n ∧ z2b (Z.land (Z.lor n 0x40) 0x40) = true.
Proof.
  intros Hn. assert (forallb (λ n, (u8 (Z.land (Z.lor n 0x40) (Z.lnot 0x40)) =? n) && z2b (Z.land (Z.lor n 0x40) 0x40)) (seqZ 1 20) = true) as H by (by vm_compute).
  rewrite forallb_forall in H. specialize (H n ltac:(apply list_elem_of_In, elem_of_seqZ; lia)). apply andb_prop in H as [H%Z.eqb_eq ->]. done.
Qed.

Lemma next_id n : 0 < n ≤ 20 → Z.land n (Z.lnot 0x40) = n ∧ z2b (Z.land n 0x40) = false.
Proof.
  intros Hn. assert (forallb (λ n, (Z.land n (Z.lnot 0x40) =? n) && negb (z2b (Z.land n 0x40))) (seqZ 1 20) = true) as H by (by vm_compute).
  rewrite forallb_forall in H. specialize (H n ltac:(apply list_elem_of_In, elem_of_seqZ; lia)). apply andb_prop in H as [H%Z.eqb_eq H2%negb_true_iff]. done.
Qed.

(** A name is filled to whole slots with a terminator after it, if there is room
    for one, and stays within twenty slots. *)
Lemma fill_name_spec w :
  let f := fill_name w in
  ∃ n : nat, length f = (13 * n)%nat ∧ (length w ≤ 13 * n)%nat ∧ (13 * n < length w + 13)%nat ∧ (∀ i, (i < length w)%nat → f !! i = w !! i) ∧
    ((length w < 13 * n)%nat → f !! length w = Some 0) ∧ (Forall is_char16 w → Forall is_char16 f).
Proof.
  cbv zeta. unfold fill_name. pose proof (Nat.div_mod (length w) 13 ltac:(lia)) as Hd. pose proof (Nat.mod_upper_bound (length w) 13 ltac:(lia)) as Hm.
  destruct (Nat.eqb_spec (length w mod 13) 0); [exists (length w / 13)%nat; repeat split; lia || done|].
  assert (Forall is_char16 [0]) as H0 by (apply Forall_cons; split; [unfold is_char16; lia|done]).
  pose proof (Nat.div_mod (length (w ++ [0])) 13 ltac:(lia)) as Hd'. pose proof (Nat.mod_upper_bound (length (w ++ [0])) 13 ltac:(lia)) as Hm'.
  rewrite length_app in *. cbn [length] in *. destruct (Nat.eqb_spec ((length w + 1) mod 13) 0).
  - exists ((length w + 1) / 13)%nat. rewrite length_app. cbn [length]. split; [lia|]. split; [lia|]. split; [lia|].
    split; [intros i Hi; by apply lookup_app_l|]. split; [intros _; by apply list_lookup_middle|]. intros; by apply Forall_app.
  - exists (S ((length w + 1) / 13)). rewrite !length_app, length_replicate. cbn [length]. split; [lia|]. split; [lia|]. split; [lia|].
    split; [intros i Hi; rewrite <- (assoc_L (++)); by apply lookup_app_l|].
    split; [intros _; rewrite <- (assoc_L (++)); by apply list_lookup_middle|].
    intros; rewrite !Forall_app. split; [done|]. apply Forall_replicate. unfold is_char16; lia.
Qed.

(** ** Comparing names *)

(** What the source takes for granted of a character set: a character of a byte
    string has at least one byte, and one is written as at most four, none of
    which is a terminator. *)
Record nls_ok (t : nls_table) : Prop := NlsOk {
  char_takes c l : (char2uni t (c :: l)).1 ≠ 0;
  char_bytes u : (length (uni2char t u) ≤ 4)%nat;
  char_nonzero u : 0 ∉ uni2char t u
}.

Lemma shortname_takes t c l opt lower : nls_ok t → 1 ≤ (fat_shortname2uni t (c :: l) opt lower).1.
Proof.
  intros [Ht _ _]. assert (∀ c l, 1 ≤ (fat_short2uni t (c :: l)).1) as H1.
  { intros x y. specialize (Ht x y). unfold fat_short2uni. destruct (char2uni t (x :: y)) as [n u]. cbn in Ht. destruct (Z.ltb_spec n 0); cbn; lia. }
  assert (1 ≤ (fat_short2lower_uni t (c :: l)).1) as H2.
  { unfold fat_short2lower_uni. destruct (char2uni t (c :: l)) as [n u]. destruct (Z.ltb_spec n 0); [cbn; lia|]. destruct (Z.leb_spec n 1); [apply H1|cbn; lia]. }
  unfold fat_shortname2uni. by repeat destruct (z2b _); [|..|destruct lower|].
Qed.

Lemma part_loop_ok t opt lower fuel work buf last_u :
  nls_ok t → (length work < fuel)%nat → (length buf + length work ≤ 14)%nat → (last_u ≤ length buf)%nat →
  ∃ buf' last', part_loop fuel t opt lower work buf last_u = Ret (buf', last') ∧ (last' ≤ length buf' ≤ length buf + length work)%nat.
Proof.
  intros Ht. revert work buf last_u. induction fuel as [|fuel IH]; intros work buf last_u Hf Hb Hl; [lia|]. cbn [part_loop].
  destruct work as [|c l]; [exists buf, last_u; split; [done|lia]|]. destruct (c =? 0); [exists buf, last_u; split; [done|lia]|].
  pose proof (shortname_takes t c l opt lower Ht) as Hn. destruct (fat_shortname2uni t (c :: l) opt lower) as [chl uc]. cbn [fst] in Hn.
  rewrite emit_in by (cbn [length] in *; lia). cbn [mbind outcome_bind]. set (b := buf ++ [uc]). assert (length b = length buf + 1)%nat as Eb by (unfold b; by rewrite length_app).
  assert (length (drop (Z.to_nat chl) (c :: l)) ≤ length l)%nat as Hd by (rewrite length_drop; cbn [length]; lia). cbn [length] in *.
  destruct (IH (drop (Z.to_nat chl) (c :: l)) b (if (chl <=? 1) && (c =? 32) then last_u else length b)) as (b' & l' & E & H'); [lia|lia|by destruct (_ && _); lia|].
  exists b', l'. split; [exact E|lia].
Qed.

Lemma short_uname_ok t opt e : nls_ok t → ∃ u, short_uname t opt e = Ret u.
Proof.
  intros Ht. unfold short_uname. match goal with |- context [part_loop 9 _ _ _ ?w _ _] => assert (length w ≤ 8)%nat as Hw end.
  { pose proof (length_take e 8) as H. destruct (take 8 e); cbn [length] in *; lia. }
  match goal with |- context [part_loop 9 _ _ ?lo ?w _ _] => destruct (part_loop_ok t opt lo 9 w [] 0 Ht) as (b & l & -> & Hb) end; [lia|cbn; lia|done|].
  cbn [mbind outcome_bind]. destruct (fat_short2uni t [46]) as [_ dot]. cbn [length] in Hb. rewrite emit_in by (rewrite length_take; cbn [length]; lia). cbn [mbind outcome_bind].
  match goal with |- context [part_loop 4 _ _ ?lo ?w ?x _] => destruct (part_loop_ok t opt lo 4 w x l Ht) as (b' & l' & -> & Hb') end.
  - rewrite length_take. lia.
  - rewrite length_app, !length_take. cbn [length]. lia.
  - rewrite length_app, length_take. cbn [length]. lia.
  - cbn [mbind outcome_bind]. rewrite length_app, !length_take in Hb'. cbn [length] in Hb'.
    rewrite emit_in by (rewrite length_take; cbn [length]; lia). eexists. reflexivity.
Qed.

Lemma x8_loop_ok size t ip out : nls_ok t → (260 ≤ size)%nat → (length out ≤ 256)%nat → ∃ x, x8_loop size false t ip out = Ret x ∧ (length x ≤ 256)%nat.
Proof.
  intros Ht Hsz. revert out. induction ip as [|ec ip IH]; intros out Ho; cbn [x8_loop]; [by exists out|]. destruct (ec =? 0); [by exists out|].
  match goal with |- context [emit _ _ ?y] => assert (length y ≤ 4)%nat as Hy by (pose proof (char_bytes t Ht ec); destruct (uni2char t ec); cbn [length] in *; lia) end.
  rewrite emit_in by lia. cbn [mbind outcome_bind]. destruct (Nat.ltb_spec 256 (length (out ++ match uni2char t ec with [] => [63] | z => z end))); [|by apply IH].
  eexists. split; [reflexivity|]. rewrite length_take. lia.
Qed.

(** Options under which no name overruns a buffer. *)
Definition options_ok (o : vfat_options) : Prop := opt_utf8 o = false ∧ unicode_xlate o = false ∧ nls_ok (nls_io o) ∧ nls_ok (nls_disk o).

Lemma same_name_ok o name uni : options_ok o → ∃ b, same_name o name uni = Ret b.
Proof.
  intros (Hu & Hx & Hi & _). unfold same_name, uni16_to_x8. rewrite Hu, Hx. destruct (x8_loop_ok 260 (nls_io o) uni [] Hi) as (x & -> & Hl); [lia|cbn; lia|].
  cbn [mbind outcome_bind]. rewrite emit_in by (cbn [length]; lia). cbn [mbind outcome_bind]. by eexists.
Qed.

(** A terminator ends the name. *)
Lemma x8_loop_end size b t w rest out : Forall (λ c, c ≠ 0) w → x8_loop size b t (w ++ 0 :: rest) out = x8_loop size b t w out.
Proof.
  intros Hw. revert out. induction Hw as [|c w Hc Hw IH]; intros out; [done|]. cbn [x8_loop app]. destruct (c =? 0); [done|].
  destruct (emit size out _); [|done..]. cbn [mbind outcome_bind]. by destruct (256 <? _)%nat.
Qed.

(** An entry with [nr] slots for the long name [w] has a name: it is the entry's short
    name, or there are slots and it is the long one.  An entry whose short name is
    empty has none. *)
Definition has_name (o : vfat_options) (name : list Z) (e : msdos_dir_entry) (nr : Z) (w : list Z) : Prop :=
  ∃ u, short_uname (nls_disk o) (opt_shortname o) e = Ret u ∧ u ≠ [] ∧ (same_name o name u = Ret true ∨ nr ≠ 0 ∧ same_name o name w = Ret true).

Lemma same_name_end o name w rest : options_ok o → Forall (λ c, c ≠ 0) w → same_name o name (w ++ 0 :: rest) = same_name o name w.
Proof. intros (Hu & _) Hw. unfold same_name, uni16_to_x8. rewrite Hu. by rewrite x8_loop_end. Qed.

Lemma matches_spec o name e nr unicode w :
  options_ok o → Forall (λ c, c ≠ 0) w → (nr ≠ 0 → ∃ rest, unicode = Some (w ++ 0 :: rest)) →
  ∃ b : bool, matches_entry o name e nr unicode = Ret b ∧ (b = true ↔ has_name o name e nr w).
Proof.
  intros Ho Hw Hn. unfold matches_entry, has_name. destruct (short_uname_ok (nls_disk o) (opt_shortname o) e) as (u & ->); [apply Ho|]. cbn [mbind outcome_bind].
  destruct (bool_decide (u = [])) eqn:Eu; [apply bool_decide_eq_true in Eu; exists false; split; [done|]; split; [done|]; by intros (? & [= <-] & ? & _)|].
  apply bool_decide_eq_false in Eu. destruct (same_name_ok o name u Ho) as (b & Eb). rewrite Eb. cbn [mbind outcome_bind].
  destruct b; [exists true; split; [done|]; split; [intros _; exists u; split; [done|]; split; [done|by left]|done]|].
  destruct (Z.eqb_spec nr 0) as [->|Hnz].
  - exists false. split; [done|]. split; [done|]. intros (? & [= <-] & _ & [?|[? _]]); [congruence|done].
  - destruct (Hn Hnz) as [rest ->]. rewrite same_name_end by done. destruct (same_name_ok o name w Ho) as (b & Ew). rewrite Ew. exists b. split; [done|].
    split; [intros ->; exists u; split; [done|]; split; [done|by right]|]. intros (? & [= <-] & _ & [?|[_ ?]]); congruence.
Qed.

(** ** Parsing in a directory *)

Section parse.
Context (sb : sb_info) (lay : layout) (ops : fatent_operations) (alloc : bool) (sleep : finode → finode).
Context (inv : finode → Prop) (good : fatfs → Prop) (blocks : Z) (phys : Z → Z) `{!DirMap sb lay ops alloc sleep inv good blocks phys}.
Context (s : fatfs) (Hs : good s).

Abbreviation entry := (entry_of sb phys s).
Abbreviation place := (place_of sb phys).
Abbreviation total := (nr_entries sb blocks).

(** The entries from [i] up to but not including [j] are slots of long names. *)
Definition ext_run (i j : Z) : Prop := ∀ x, i ≤ x < j → de_attr (entry x) = ATTR_EXT.

(** Where the parser can stop that stood at entry [k]: it has passed over slots
    only. *)
Definition parsed (k : Z) (st : parse_status) (cur : option ptr) (pos : Z) : Prop :=
  match st with
  | PARSE_EOF => cur = None ∧ pos = 32 * total ∧ ext_run k total
  | PARSE_INVALID => ∃ j, k ≤ j < total ∧ cur = Some (place j) ∧ pos = 32 * (j + 1) ∧ ext_run k j ∧ is_short (entry j) = false
  | PARSE_NOT_LONGNAME => ∃ j, k < j < total ∧ cur = Some (place j) ∧ pos = 32 * (j + 1) ∧ ext_run k j ∧ de_attr (entry j) ≠ ATTR_EXT
  | PARSE_OK nr => ∃ j, k < j < total ∧ cur = Some (place j) ∧ pos = 32 * (j + 1) ∧ ext_run k j ∧
                        0 ≤ nr ≤ 20 ∧ k ≤ j - nr ∧ ext_run (j - nr) j ∧ is_short (entry j) = true
  end.

Lemma ext_run_app a k j : ext_run a k → ext_run k j → ext_run a j.
Proof. intros Ha Hr x Hx. destruct (decide (x < k)); [apply Ha; lia|apply Hr; lia]. Qed.

Lemma parsed_back a k st cur pos : a ≤ k → ext_run a k → parsed k st cur pos → parsed a st cur pos.
Proof.
  intros Hak Ha. destruct st; cbn; [intros (j & ? & ? & ? & ? & Hj)..|intros (? & ? & ?); split; [done|]; split; [done|by apply (ext_run_app a k)]];
    exists j; (split; [lia|]); (split; [done|]); (split; [done|]); (split; [by apply (ext_run_app a k)|]); [|done..].
  destruct Hj as (? & ? & ?). split; [done|]. split; [lia|done].
Qed.

Lemma ext_not_short e : de_attr e = ATTR_EXT → is_short e = false.
Proof. intros He. unfold is_short. by rewrite He, andb_false_r. Qed.

Lemma begin_long_bounds e slots ck : begin_long e = Some (slots, ck) → 0 < slots ≤ 20.
Proof.
  unfold begin_long. destruct (negb _); [done|]. pose proof (Z.mod_pos_bound (Z.land (slot_id e) (Z.lnot 0x40)) (2 ^ 8) ltac:(lia)) as Hb.
  fold (u8 (Z.land (slot_id e) (Z.lnot 0x40))) in Hb. set (n := u8 _) in *. destruct (Z.ltb_spec 20 n); [done|].
  destruct (Z.eqb_spec n 0); [done|]. cbn [orb]. intros [= <- _]. lia.
Qed.

Lemma put_at_in offset x uni : (offset + length x ≤ length uni)%nat → put_at offset x uni = Ret (splice offset x uni) ∧ length (splice offset x uni) = length uni.
Proof. intros H. unfold put_at. rewrite (proj2 (Nat.leb_le _ _) H). split; [done|]. by apply length_splice. Qed.

Lemma slot_chars_length e : length e = 32%nat → length (slot_chars e) = 13%nat.
Proof. intros He. do 33 (destruct e as [|? e]; [done || discriminate He|]); discriminate He. Qed.

(** A slot's characters go to their place in the page, and the terminator if the
    slot starts a name; nothing else of the page changes. *)
Lemma put_chars_in uni slot e :
  length e = 32%nat → 0 ≤ slot < 20 → (261 ≤ length uni)%nat →
  ∃ uni', put_chars uni slot e = Ret uni' ∧ length uni' = length uni ∧
    (∀ i, (i < 13)%nat → uni' !! (13 * Z.to_nat slot + i)%nat = slot_chars e !! i) ∧
    (z2b (Z.land (slot_id e) 0x40) = true → uni' !! (13 * Z.to_nat slot + 13)%nat = Some 0) ∧
    (∀ i, (13 * Z.to_nat slot + 14 ≤ i)%nat ∨ (13 * Z.to_nat slot + 13 ≤ i)%nat ∧ z2b (Z.land (slot_id e) 0x40) = false → uni' !! i = uni !! i).
Proof.
  intros He Hslot Hu. pose proof (slot_chars_length e He) as Hc.
  unfold put_chars. replace (Z.to_nat (slot * 13)) with (13 * Z.to_nat slot)%nat by lia. set (o := (13 * Z.to_nat slot)%nat). assert (o ≤ 247)%nat by (unfold o; lia).
  destruct (put_at_in o (slot_chars e) uni ltac:(lia)) as [-> Hl]. cbn [mbind outcome_bind]. set (u := splice o (slot_chars e) uni) in *.
  assert (∀ i, (i < 13)%nat → u !! (o + i)%nat = slot_chars e !! i) as Hin by (intros; apply splice_lookup_in; lia).
  assert (∀ i, (o + 13 ≤ i)%nat → u !! i = uni !! i) as Hout by (intros; apply splice_lookup; lia).
  destruct (z2b _) eqn:Ez; [|exists u; repeat split; try done; intros i [?|[? _]]; apply Hout; lia].
  destruct (put_at_in (o + 13) [0] u ltac:(cbn [length]; lia)) as [-> Hl']. exists (splice (o + 13) [0] u). split; [done|]. split; [lia|]. split.
  - intros i Hi. rewrite splice_lookup by (cbn [length]; lia). by apply Hin.
  - pose proof (splice_lookup_in (o + 13) [0] u 0) as Hz. rewrite Nat.add_0_r in Hz. split; [intros _; rewrite Hz; [done|cbn [length]; lia..]|].
    intros i [Hi|[_ ?]]; [|done]. rewrite splice_lookup by (cbn [length]; lia). apply Hout. lia.
Qed.

Lemma deleted_not_short e : (slot_id e =? DELETED_FLAG) = true → is_short e = false.
Proof.
  unfold is_short, IS_FREE, slot_id, de_name. destruct e as [|c e]; [done|]. cbn -[DELETED_FLAG]. intros ->. by rewrite orb_true_r.
Qed.

(** The next entry, from the entry the walk stands at. *)
Lemma next_entry k dir :
  inv dir → 0 ≤ k < total →
  ∃ dir', fat_get_entry sb lay ops alloc sleep (Some (place k)) (32 * (k + 1)) dir s =
    Ret (if k + 1 <? total then (Some (place (k + 1)), 32 * (k + 1 + 1), dir', s) else (None, 32 * (k + 1), dir', s)) ∧ inv dir'.
Proof. intros Hi Hk. apply (get_entry_spec sb lay ops alloc sleep inv good blocks phys s Hs); [done|apply before_next; lia|lia]. Qed.

Lemma long_loop_spec fuel slots slot ck k uni dir :
  inv dir → 0 ≤ k < total → (Z.to_nat (total - k) ≤ fuel)%nat → 0 < slot ≤ slots → slots ≤ 20 → (261 ≤ length uni)%nat →
  0 ≤ k - (slots - slot) → ext_run (k - (slots - slot)) (k + 1) →
  ∃ st cur pos uni' dir', long_loop sb lay ops alloc sleep fuel slots slot ck (place k) (32 * (k + 1)) uni dir s = Ret (st, cur, pos, uni', dir', s) ∧
    inv dir' ∧ length uni' = length uni ∧ parsed (k - (slots - slot)) st cur pos.
Proof.
  revert slots slot ck k uni dir. induction fuel as [|fuel IH]; intros slots slot ck k uni dir Hi Hk Hf Hslot Hmax Hu H0 Hrun; [lia|]. cbn [long_loop].
  rewrite (dirent_spec sb lay ops alloc sleep inv good blocks phys s Hs) by lia. cbn [mbind outcome_bind].
  destruct (put_chars_in uni (slot - 1) (entry k)) as (u & -> & Hl & _); [by apply (entry_length sb lay ops alloc sleep inv good blocks phys)|lia|done|].
  cbn [mbind outcome_bind]. destruct (next_entry k dir Hi Hk) as (d & -> & Hd). destruct (Z.ltb_spec (k + 1) total) as [Hlt|Hge]; cbn [mbind outcome_bind].
  2:{ eexists PARSE_EOF, None, _, u, d. split; [done|]. split; [done|]. split; [done|]. split; [done|]. split; [lia|]. by replace total with (k + 1) by lia. }
  rewrite (dirent_spec sb lay ops alloc sleep inv good blocks phys s Hs) by lia. cbn [mbind outcome_bind].
  assert (∀ st, (st = PARSE_INVALID ∧ is_short (entry (k + 1)) = false) ∨ (st = PARSE_NOT_LONGNAME ∧ de_attr (entry (k + 1)) ≠ ATTR_EXT) → ∃ st' cur' pos' uni' dir',
    Ret (st, Some (place (k + 1)), 32 * (k + 1 + 1), u, d, s) = Ret (st', cur', pos', uni', dir', s) ∧ inv dir' ∧ length uni' = length uni ∧ parsed (k - (slots - slot)) st' cur' pos') as Hstop.
  { intros st [[-> ?]|[-> ?]]; eexists _, _, _, u, d; (split; [done|]); (split; [done|]); (split; [done|]); exists (k + 1); (split; [lia|done]). }
  assert (de_attr (entry (k + 1)) = ATTR_EXT → ∃ st cur pos uni' dir',
    match begin_long (entry (k + 1)) with
    | None => Ret (PARSE_INVALID, Some (place (k + 1)), 32 * (k + 1 + 1), u, d, s)
    | Some (slots, cksum) => long_loop sb lay ops alloc sleep fuel slots slots cksum (place (k + 1)) (32 * (k + 1 + 1)) u d s
    end = Ret (st, cur, pos, uni', dir', s) ∧ inv dir' ∧ length uni' = length uni ∧ parsed (k - (slots - slot)) st cur pos) as Hagain.
  { intros Hext. destruct (begin_long (entry (k + 1))) as [[slots' ck']|] eqn:Eb; [|apply Hstop; left; split; [done|by apply ext_not_short]]. apply begin_long_bounds in Eb.
    destruct (IH slots' slots' ck' (k + 1) u d) as (st & cur & pos & u' & d' & E & Hd' & Hl' & Hp); [done|lia|lia|lia|lia|lia|lia| |].
    { intros x Hx. by replace x with (k + 1) by lia. }
    exists st, cur, pos, u', d'. split; [exact E|]. split; [done|]. split; [lia|]. rewrite Z.sub_diag, Z.sub_0_r in Hp. by apply (parsed_back _ (k + 1)); [lia|..]. }
  destruct (Z.eqb_spec (slot - 1) 0) as [Hz|Hz].
  - destruct (slot_id (entry (k + 1)) =? DELETED_FLAG) eqn:Edel; [apply Hstop; left; split; [done|by apply deleted_not_short]|]. destruct (Z.eqb_spec (de_attr (entry (k + 1))) ATTR_EXT); [by apply Hagain|].
    destruct (IS_FREE (de_name (entry (k + 1))) || z2b (Z.land (de_attr (entry (k + 1))) ATTR_VOLUME)) eqn:Efree; [apply Hstop; left; split; [done|unfold is_short; by rewrite <- negb_orb, Efree]|].
    eexists _, _, _, u, d. split; [reflexivity|]. split; [done|]. split; [done|]. exists (k + 1). split; [lia|]. split; [done|]. split; [done|]. split; [done|].
    apply orb_false_elim in Efree as [Ef1 Ef2]. unfold is_short. rewrite Ef1, Ef2. destruct (_ =? ck); (split; [lia|]); (split; [lia|]); (split; [|done]).
    + intros x Hx. apply Hrun. lia.
    + intros x Hx. lia.
  - destruct (Z.eqb_spec (de_attr (entry (k + 1))) ATTR_EXT) as [Hext|Hext]; cbn [negb]; [|apply Hstop; by right].
    destruct (Z.land (slot_id (entry (k + 1))) (Z.lnot 0x40) =? slot - 1); cbn [negb]; [|by apply Hagain].
    destruct (slot_checksum (entry (k + 1)) =? ck); cbn [negb]; [|by apply Hagain].
    destruct (IH slots (slot - 1) ck (k + 1) u d) as (st & cur & pos & u' & d' & E & Hd' & Hl' & Hp); [done|lia|lia|lia|lia|lia|lia| |].
    { intros x Hx. destruct (decide (x = k + 1)) as [->|]; [done|]. apply Hrun. lia. }
    exists st, cur, pos, u', d'. split; [exact E|]. split; [done|]. split; [lia|]. by replace (k - (slots - slot)) with (k + 1 - (slots - (slot - 1))) by lia.
Qed.

(** The page, when there is one, holds the longest name and its terminator. *)
Definition page_ok (page : option (list Z)) : Prop := match page with Some uni => (261 ≤ length uni)%nat | None => True end.

Lemma parse_long_spec new_page page k dir :
  inv dir → 0 ≤ k < total → de_attr (entry k) = ATTR_EXT → page_ok new_page → page_ok page →
  ∃ r page' dir', fat_parse_long sb lay ops alloc sleep new_page page (place k) (32 * (k + 1)) dir s = Ret (r, page', dir', s) ∧ inv dir' ∧ page_ok page' ∧
    match r with
    | Some (st, cur, pos) => is_Some (match page with Some uni => Some uni | None => new_page end) ∧ is_Some page' ∧ parsed k st cur pos
    | None => new_page = None
    end.
Proof.
  intros Hi Hk Hext Hn Hp. unfold fat_parse_long. destruct (match page with Some uni => Some uni | None => new_page end) as [uni|] eqn:Ep.
  2:{ exists None, None, dir. by destruct page. }
  assert (261 ≤ length uni)%nat as Hu by (destruct page; [injection Ep as ->; done|rewrite Ep in Hn; done]).
  rewrite (dirent_spec sb lay ops alloc sleep inv good blocks phys s Hs) by lia. cbn [mbind outcome_bind]. destruct (begin_long (entry k)) as [[slots ck]|] eqn:Eb.
  - apply begin_long_bounds in Eb. pose proof (enough_fuel sb lay ops alloc sleep inv good blocks phys dir k Hi ltac:(lia)) as Hf.
    destruct (long_loop_spec (dir_fuel sb lay dir) slots slots ck k uni dir) as (st & cur & pos & u & d & -> & Hd & Hl & Hr); try done; try lia.
    { intros x Hx. by replace x with k by lia. }
    eexists _, _, d. split; [reflexivity|]. split; [done|]. split; [cbn; lia|]. split; [by eexists|]. rewrite Z.sub_diag, Z.sub_0_r in Hr. by split.
  - eexists _, _, dir. split; [reflexivity|]. split; [done|]. split; [done|]. split; [by eexists|]. split; [done|]. exists k. split; [lia|]. split; [done|]. split; [done|].
    split; [intros x Hx; lia|by apply ext_not_short].
Qed.

(** ** A stored name is read back *)

(** The entries from [k] on are the slots of name [w] for the short entry [j]
    that follows them. *)
Definition stored_long (k j : Z) (w : list Z) : Prop := entry <$> seqZ k (j - k) = long_slots (de_name (entry j)) (fill_name w).

Section stored.
Context (k j : Z) (w : list Z) (Hstored : stored_long k j w) (Hkj : 0 ≤ k ∧ j < total) (Hw : Forall is_char16 w).

Lemma stored_slot n i :
  length (fill_name w) = (13 * n)%nat → (i < n)%nat → j = k + Z.of_nat n ∧
  entry (k + Z.of_nat i) = name_slot (if (i =? 0)%nat then Z.lor (Z.of_nat n) 0x40 else Z.of_nat (n - i)) (fat_checksum (de_name (entry j))) (drop ((n - 1 - i) * 13) (fill_name w)).
Proof.
  intros Hl Hi. pose proof Hstored as Hst. unfold stored_long, long_slots in Hst. rewrite Hl, Nat.mul_comm, Nat.div_mul in Hst by lia.
  assert (j = k + Z.of_nat n) as ->.
  { assert (∀ m f c u, length (slots_loop m f c u) = m) as Hlen by (induction m; intros; cbn; congruence).
    apply (f_equal length) in Hst. rewrite length_fmap, length_seqZ, Hlen in Hst. lia. }
  split; [done|]. pose proof (slots_loop_lookup n true (fat_checksum (de_name (entry (k + Z.of_nat n)))) (fill_name w) i Hi) as E. rewrite <- Hst in E.
  rewrite list_lookup_fmap, lookup_seqZ_lt in E by lia. by injection E.
Qed.

(** What the page holds once the slots above [slot] are read. *)
Definition read_from (n slot : nat) (uni : list Z) : Prop :=
  (∀ i, (13 * slot ≤ i < 13 * n)%nat → uni !! i = fill_name w !! i) ∧ ((slot < n)%nat → uni !! (13 * n)%nat = Some 0).

Lemma read_slot n slot uni :
  length (fill_name w) = (13 * n)%nat → (slot < n ≤ 20)%nat → (261 ≤ length uni)%nat → read_from n (S slot) uni →
  ∃ uni', put_chars uni (Z.of_nat slot) (entry (k + Z.of_nat (n - S slot))) = Ret uni' ∧ length uni' = length uni ∧ read_from n slot uni'.
Proof.
  intros Hl Hs' Hu [Hr Hz]. destruct (stored_slot n (n - S slot) Hl ltac:(lia)) as [_ ->]. replace (n - 1 - (n - S slot))%nat with slot by lia.
  destruct (fill_name_spec w) as (_ & _ & _ & _ & _ & _ & Hc). specialize (Hc Hw).
  match goal with |- context [name_slot ?i ?c ?u] => destruct (name_slot_parts i c u) as (He & Hid & _ & _ & Hch); [rewrite length_drop; lia|by apply Forall_drop|] end.
  match goal with |- context [put_chars _ _ ?e] => set (sl := e) in * end.
  destruct (put_chars_in uni (Z.of_nat slot) sl He ltac:(lia) Hu) as (u & -> & Hlu & Hin & Hend & Hout). rewrite Nat2Z.id in *. exists u. split; [done|]. split; [done|]. split.
  - intros i Hi. destruct (decide (i < 13 * slot + 13)%nat).
    + replace i with (13 * slot + (i - 13 * slot))%nat at 1 by lia. rewrite Hin, Hch, lookup_take_lt, lookup_drop by lia. f_equal. lia.
    + destruct (Z.eq_dec (Z.of_nat slot) (Z.of_nat n - 1)); [lia|]. rewrite Hout; [apply Hr; lia|]. right. split; [lia|]. rewrite Hid.
      destruct (Nat.eqb_spec (n - S slot) 0); [lia|]. apply next_id. lia.
  - intros _. destruct (Nat.eqb_spec (n - S slot) 0) as [E|E].
    + replace (13 * n)%nat with (13 * slot + 13)%nat by lia. apply Hend. rewrite Hid. apply first_id. lia.
    + rewrite Hout; [apply Hz; lia|]. right. split; [lia|]. rewrite Hid. apply next_id. lia.
Qed.

Lemma short_not_slot e : is_short e = true → (slot_id e =? DELETED_FLAG) = false ∧ (de_attr e =? ATTR_EXT) = false ∧ IS_FREE (de_name e) || z2b (Z.land (de_attr e) ATTR_VOLUME) = false.
Proof.
  intros [Hf%negb_true_iff Hv%negb_true_iff]%andb_prop. rewrite Hf, Hv. split; [|split; [|done]].
  - unfold IS_FREE, slot_id, de_name in *. destruct e; [done|]. cbn in *. apply orb_false_elim in Hf as [_ Hf]. done.
  - destruct (Z.eqb_spec (de_attr e) ATTR_EXT) as [E|]; [|done]. by rewrite E in Hv.
Qed.

Lemma read_loop n slot fuel uni dir :
  length (fill_name w) = (13 * n)%nat → (slot < n ≤ 20)%nat → (261 ≤ length uni)%nat → read_from n (S slot) uni → is_short (entry j) = true →
  inv dir → (slot < fuel)%nat →
  ∃ uni' dir', long_loop sb lay ops alloc sleep fuel (Z.of_nat n) (Z.of_nat (S slot)) (fat_checksum (de_name (entry j)))
      (place (k + Z.of_nat (n - S slot))) (32 * (k + Z.of_nat (n - S slot) + 1)) uni dir s =
    Ret (PARSE_OK (Z.of_nat n), Some (place j), 32 * (j + 1), uni', dir', s) ∧ inv dir' ∧ length uni' = length uni ∧ read_from n 0 uni'.
Proof.
  intros Hl Hsn Hu Hr Hshort. revert fuel uni dir Hsn Hu Hr. induction slot as [|slot IH]; intros [|fuel] uni dir Hsn Hu Hr Hi Hf; try lia; cbn [long_loop];
    destruct (stored_slot n (n - 1) Hl ltac:(lia)) as [Ej _]; rewrite (dirent_spec sb lay ops alloc sleep inv good blocks phys s Hs) by lia; cbn [mbind outcome_bind];
    match goal with |- context [Z.of_nat (S ?x) - 1] => replace (Z.of_nat (S x) - 1) with (Z.of_nat x) by lia end;
    match goal with |- context [put_chars _ (Z.of_nat ?x) _] => destruct (read_slot n x uni Hl ltac:(lia) Hu Hr) as (u & -> & Hlu & Hr') end; cbn [mbind outcome_bind];
    match goal with |- context [fat_get_entry _ _ _ _ _ (Some (place ?x))] => destruct (next_entry x dir Hi ltac:(lia)) as (d & -> & Hd);
      destruct (Z.ltb_spec (x + 1) total); [|lia] end; cbn [mbind outcome_bind]; rewrite (dirent_spec sb lay ops alloc sleep inv good blocks phys s Hs) by lia; cbn [mbind outcome_bind].
  - replace (k + Z.of_nat (n - 1) + 1) with j by lia. destruct (short_not_slot _ Hshort) as (-> & -> & ->). cbn [Z.of_nat Z.eqb]. rewrite !Z.eqb_refl. by exists u, d.
  - replace (k + Z.of_nat (n - S (S slot)) + 1) with (k + Z.of_nat (n - S slot)) by lia. destruct (Z.eqb_spec (Z.of_nat (S slot)) 0); [lia|].
    destruct (IH fuel u d ltac:(lia) ltac:(lia) Hr' Hd ltac:(lia)) as (u' & d' & E & Hd' & Hlu' & Hr0). rewrite E. clear E IH.
    destruct (stored_slot n (n - S slot) Hl ltac:(lia)) as [_ ->]. destruct (Nat.eqb_spec (n - S slot) 0); [lia|].
    replace (n - (n - S slot))%nat with (S slot) by lia. replace (n - 1 - (n - S slot))%nat with slot by lia. destruct (fill_name_spec w) as (_ & _ & _ & _ & _ & _ & Hc).
    match goal with |- context [name_slot ?i ?c ?x] => destruct (name_slot_parts i c x) as (_ & -> & -> & -> & _); [rewrite length_drop; lia|apply Forall_drop; auto|] end.
    rewrite (proj1 (next_id (Z.of_nat (S slot)) ltac:(lia))), !Z.eqb_refl. cbn [negb]. exists u', d'. split; [done|]. split; [done|]. split; [lia|done].
Qed.

Lemma read_back new_page page uni dir :
  (match page with Some uni => Some uni | None => new_page end) = Some uni → (261 ≤ length uni)%nat → (0 < length w ≤ 260)%nat →
  is_short (entry j) = true → inv dir →
  ∃ uni' dir', fat_parse_long sb lay ops alloc sleep new_page page (place k) (32 * (k + 1)) dir s =
    Ret (Some (PARSE_OK (j - k), Some (place j), 32 * (j + 1)), Some uni', dir', s) ∧ inv dir' ∧ length uni' = length uni ∧
    take (length w) uni' = w ∧ uni' !! length w = Some 0.
Proof.
  intros Hp Hu Hlw Hshort Hi. destruct (fill_name_spec w) as (n & Hl & H1 & H2 & Hlook & Hterm & Hc). specialize (Hc Hw).
  destruct (stored_slot n 0 Hl ltac:(lia)) as [Ej Ek]. rewrite Z.add_0_r in Ek. unfold fat_parse_long. rewrite Hp.
  rewrite (dirent_spec sb lay ops alloc sleep inv good blocks phys s Hs) by lia. cbn [mbind outcome_bind].
  assert (begin_long (entry k) = Some (Z.of_nat n, fat_checksum (de_name (entry j)))) as ->.
  { rewrite Ek. cbn [Nat.eqb]. match goal with |- context [name_slot ?i ?c ?x] => destruct (name_slot_parts i c x) as (_ & Hid & Hck & _); [rewrite length_drop; lia|by apply Forall_drop|] end.
    unfold begin_long. rewrite Hid, Hck. destruct (first_id (Z.of_nat n) ltac:(lia)) as [-> ->]. cbn [negb].
    destruct (Z.ltb_spec 20 (Z.of_nat n)); [lia|]. destruct (Z.eqb_spec (Z.of_nat n) 0); [lia|done]. }
  pose proof (enough_fuel sb lay ops alloc sleep inv good blocks phys dir k Hi ltac:(lia)) as Hf.
  destruct (read_loop n (n - 1) (dir_fuel sb lay dir) uni dir Hl ltac:(lia) Hu) as (u & d & E & Hd & Hlu & Hr & Hz); [split; lia|done|done|lia|].
  replace (S (n - 1)) with n in E by lia. rewrite Nat.sub_diag, Z.add_0_r in E. rewrite E. cbn [mbind outcome_bind]. exists u, d.
  split; [by replace (j - k) with (Z.of_nat n) by lia|]. split; [done|]. split; [done|]. split.
  - apply list_eq_same_length with (length w); [done|rewrite length_take; lia|]. intros i x y Hi' Hx Hy.
    rewrite lookup_take_lt, Hr, Hlook in Hx by lia. congruence.
  - destruct (decide (length w = 13 * n)%nat) as [->|]; [apply Hz; lia|]. rewrite Hr by lia. apply Hterm. lia.
Qed.
End stored.

(** ** The slots of an entry *)

Definition marked (e : msdos_dir_entry) : bool := z2b (Z.land (slot_id e) 0x40).

(** Before entry [j] stand the slots [hi] down to [lo] of a name with checksum [ck]:
    slot [i] is the entry [j - i], and slot [hi] is marked as the first one. *)
Record chain (j hi lo ck : Z) : Prop := Chain {
  ch_range : 0 < lo ≤ hi ∧ hi ≤ 20 ∧ hi ≤ j;
  ch_slot i : lo ≤ i ≤ hi → de_attr (entry (j - i)) = ATTR_EXT ∧ slot_checksum (entry (j - i)) = ck;
  ch_first : marked (entry (j - hi)) = true ∧ u8 (Z.land (slot_id (entry (j - hi))) (Z.lnot 0x40)) = hi;
  ch_next i : lo ≤ i < hi → Z.land (slot_id (entry (j - i))) (Z.lnot 0x40) = i
}.

(** The [n] entries before entry [j] are a long name of it, and the number of the
    slots of its long name, which is none when there is no such name. *)
Definition own_slots (j n : Z) : Prop := chain j n 1 (fat_checksum (de_name (entry j))).
Definition slots_of (j nr : Z) : Prop := (nr = 0 ∨ own_slots j nr) ∧ ∀ n, own_slots j n → n ≤ nr.

(** The characters of the slots from [i] on, up to one that is marked, and the long
    name they are. *)
Fixpoint slots_text (j i : Z) (n : nat) : list Z :=
  match n with
  | O => []
  | S n => slot_chars (entry (j - i)) ++ (if marked (entry (j - i)) then [0] else slots_text j (i + 1) n)
  end.

Fixpoint until_zero (l : list Z) : list Z :=
  match l with [] => [] | c :: l => if c =? 0 then [] else c :: until_zero l end.

Definition long_name (j nr : Z) : list Z := until_zero (slots_text j 1 (Z.to_nat nr)).

Lemma slot_number j hi lo ck i : chain j hi lo ck → lo ≤ i ≤ hi → u8 (Z.land (slot_id (entry (j - i))) (Z.lnot 0x40)) = i.
Proof.
  intros [Hr _ [_ H1] H2] Hi. destruct (decide (i = hi)) as [->|]; [done|]. rewrite H2 by lia. apply wrapu_small. lia.
Qed.

Lemma slots_of_unique j a b : slots_of j a → slots_of j b → a = b.
Proof.
  intros [[->|Ha] Ha'] [[->|Hb] Hb']; [done|..].
  - specialize (Ha' _ Hb). pose proof (ch_range _ _ _ _ Hb). lia.
  - specialize (Hb' _ Ha). pose proof (ch_range _ _ _ _ Ha). lia.
  - specialize (Ha' _ Hb). specialize (Hb' _ Ha). lia.
Qed.

Lemma until_zero_nonzero l : Forall (λ c, c ≠ 0) (until_zero l).
Proof. induction l as [|c l IH]; cbn; [done|]. destruct (Z.eqb_spec c 0); [done|]. by apply Forall_cons. Qed.

Lemma until_zero_split l : 0 ∈ l → ∃ rest, l = until_zero l ++ 0 :: rest.
Proof.
  induction l as [|c l IH]; [by intros ?%not_elem_of_nil|]. intros H. cbn. destruct (Z.eqb_spec c 0) as [->|Hc]; [by exists l|].
  apply elem_of_cons in H as [?|H]; [lia|]. destruct (IH H) as [rest E]. exists rest. cbn. by rewrite <- E.
Qed.

Lemma until_zero_app w rest : Forall (λ c, c ≠ 0) w → until_zero (w ++ 0 :: rest) = w.
Proof. induction 1 as [|c w Hc _ IH]; [done|]. cbn. destruct (Z.eqb_spec c 0); [done|]. by rewrite IH. Qed.

(** What is known of a page: the characters at and after a position. *)
Definition holds_at (uni : list Z) (o : nat) (l : list Z) : Prop := ∀ i x, l !! i = Some x → uni !! (o + i)%nat = Some x.

Lemma holds_split uni l : holds_at uni 0 l → 0 ∈ l → ∃ rest, uni = until_zero l ++ 0 :: rest.
Proof.
  intros Hh H0. destruct (until_zero_split l H0) as [r E]. set (w := until_zero l) in *. clearbody w. subst l. exists (drop (S (length w)) uni).
  rewrite <- (take_drop_middle uni (length w) 0 (Hh (length w) 0 ltac:(by apply list_lookup_middle))) at 1. f_equal.
  apply list_eq_same_length with (length w); [done| |].
  - rewrite length_take. pose proof (lookup_lt_Some _ _ _ (Hh (length w) 0 ltac:(by apply list_lookup_middle))). cbn in *. lia.
  - intros i x y Hi Hx Hy. rewrite lookup_take_lt in Hx by done. specialize (Hh i y ltac:(by rewrite lookup_app_l)). cbn in Hh. congruence.
Qed.

(** The last slot is marked, so the name ends. *)
Lemma slots_text_ends j hi lo ck : chain j hi lo ck → 0 ∈ slots_text j lo (Z.to_nat (hi - lo + 1)).
Proof.
  intros [Hr _ [H1 _] _]. remember (Z.to_nat (hi - lo)) as m eqn:Em. revert lo Hr Em. induction m as [|m IH]; intros lo Hr Em.
  - replace lo with hi by lia. replace (Z.to_nat (hi - hi + 1)) with 1%nat by lia. cbn [slots_text]. rewrite H1. apply elem_of_app. right. by apply list_elem_of_singleton.
  - replace (Z.to_nat (hi - lo + 1)) with (S (Z.to_nat (hi - (lo + 1) + 1))) by lia. cbn [slots_text]. specialize (IH (lo + 1) ltac:(lia) ltac:(lia)).
    apply elem_of_app. right. destruct (marked (entry (j - lo))); [by apply list_elem_of_singleton|done].
Qed.

(** One slot more is read into the page. *)
Lemma put_holds uni uni' j slot n :
  0 < slot → length (slot_chars (entry (j - slot))) = 13%nat → holds_at uni (13 * Z.to_nat slot) (slots_text j (slot + 1) n) →
  (∀ i, (i < 13)%nat → uni' !! (13 * Z.to_nat (slot - 1) + i)%nat = slot_chars (entry (j - slot)) !! i) →
  (marked (entry (j - slot)) = true → uni' !! (13 * Z.to_nat (slot - 1) + 13)%nat = Some 0) →
  (∀ i, (13 * Z.to_nat (slot - 1) + 14 ≤ i)%nat ∨ (13 * Z.to_nat (slot - 1) + 13 ≤ i)%nat ∧ marked (entry (j - slot)) = false → uni' !! i = uni !! i) →
  holds_at uni' (13 * Z.to_nat (slot - 1)) (slots_text j slot (S n)).
Proof.
  intros Hpos Hl Hh Hin Hend Hout i x Hi. cbn [slots_text] in Hi. destruct (decide (i < 13)%nat); [rewrite lookup_app_l in Hi by lia; by rewrite Hin|].
  rewrite lookup_app_r, Hl in Hi by lia. destruct (marked (entry (j - slot))).
  - destruct (decide (i = 13)%nat) as [->|]; [injection Hi as <-; by apply Hend|]. apply lookup_lt_Some in Hi. cbn in Hi. lia.
  - rewrite Hout by (right; split; [lia|done]). specialize (Hh _ _ Hi). rewrite <- Hh. f_equal. lia.
Qed.

(** No long name of an entry from [y] on begins before [x]. *)
Definition starts_from (x y : Z) : Prop := ∀ j n, own_slots j n → y ≤ j → x ≤ j - n.

Lemma starts_skip x : de_attr (entry x) ≠ ATTR_EXT → starts_from (x + 1) (x + 1).
Proof.
  intros He j n [Hr Hs' _ _] Hj. destruct (decide (x + 1 ≤ j - n)); [done|]. destruct (Hs' (j - x) ltac:(lia)) as [H _]. by replace (j - (j - x)) with x in H by lia.
Qed.

(** Two entries one after the other in a name. *)
Lemma own_pair j n k hi slot ck :
  own_slots j n → j - n ≤ k → k + 1 < j → chain (k + slot) hi slot ck →
  1 < slot ∧ de_attr (entry (k + 1)) = ATTR_EXT ∧ Z.land (slot_id (entry (k + 1))) (Z.lnot 0x40) = slot - 1 ∧ slot_checksum (entry (k + 1)) = ck.
Proof.
  intros Ho H1 H2 Hc. pose proof (ch_range _ _ _ _ Hc) as Hr. pose proof (ch_range _ _ _ _ Ho) as Hr'.
  pose proof (slot_number _ _ _ _ (j - k) Ho ltac:(lia)) as E1. pose proof (slot_number _ _ _ _ slot Hc ltac:(lia)) as E2.
  replace (j - (j - k)) with k in E1 by lia. replace (k + slot - slot) with k in E2 by lia. rewrite E1 in E2. split; [lia|].
  destruct (ch_slot _ _ _ _ Ho (j - (k + 1)) ltac:(lia)) as [A B]. pose proof (ch_next _ _ _ _ Ho (j - (k + 1)) ltac:(lia)) as C.
  destruct (ch_slot _ _ _ _ Ho (j - k) ltac:(lia)) as [_ B']. destruct (ch_slot _ _ _ _ Hc slot ltac:(lia)) as [_ D]. replace (k + slot - slot) with k in D by lia.
  replace (j - (j - (k + 1))) with (k + 1) in * by lia. replace (j - (j - k)) with k in B' by lia. split; [done|]. split; [lia|congruence].
Qed.

(** A slot that does not continue the name that is being read: names that began
    before it do not go on after it. *)
Lemma starts_break k hi slot ck :
  chain (k + slot) hi slot ck →
  slot = 1 ∨ de_attr (entry (k + 1)) ≠ ATTR_EXT ∨ Z.land (slot_id (entry (k + 1))) (Z.lnot 0x40) ≠ slot - 1 ∨ slot_checksum (entry (k + 1)) ≠ ck →
  starts_from (k + 1) (k + 2).
Proof.
  intros Hc Hb j n Ho Hj. destruct (decide (k + 1 ≤ j - n)); [done|]. destruct (own_pair j n k hi slot ck Ho ltac:(lia) ltac:(lia) Hc) as (? & ? & ? & ?).
  destruct Hb as [?|[?|[?|?]]]; done || lia.
Qed.

(** An entry that is no slot where one is missing has no long name. *)
Lemma starts_stop k hi slot ck : chain (k + slot) hi slot ck → 1 < slot → de_attr (entry (k + 1)) ≠ ATTR_EXT → starts_from (k + 1) (k + 1).
Proof.
  intros Hc Hs' Ha j n Ho Hj. destruct (decide (k + 1 ≤ j - n)) as [|Hn]; [done|]. pose proof (ch_range _ _ _ _ Hc).
  destruct (decide (j = k + 1)) as [->|]; [|apply (starts_skip _ Ha) in Ho; lia]. pose proof (ch_range _ _ _ _ Ho).
  pose proof (slot_number _ _ _ _ 1 Ho ltac:(lia)) as E1. pose proof (slot_number _ _ _ _ slot Hc ltac:(lia)) as E2.
  replace (k + 1 - 1) with k in E1 by lia. replace (k + slot - slot) with k in E2 by lia. lia.
Qed.

(** No name begins at a slot that cannot begin one. *)
Lemma own_begins j n : own_slots j n → begin_long (entry (j - n)) = Some (n, fat_checksum (de_name (entry j))).
Proof.
  intros Ho. pose proof (ch_range _ _ _ _ Ho) as Hr. destruct (ch_first _ _ _ _ Ho) as [Hm Hn]. destruct (ch_slot _ _ _ _ Ho n ltac:(lia)) as [_ Hk].
  unfold begin_long, marked in *. rewrite Hm, Hn, Hk. cbn [negb]. destruct (Z.ltb_spec 20 n); [lia|]. by destruct (Z.eqb_spec n 0); [lia|].
Qed.

Lemma starts_begin x : starts_from x (x + 1) → begin_long (entry x) = None → starts_from (x + 1) (x + 1).
Proof.
  intros Hf Hb j n Ho Hj. specialize (Hf j n Ho ltac:(lia)). destruct (decide (j - n = x)) as [E|]; [|lia]. apply own_begins in Ho. rewrite E in Ho. congruence.
Qed.

Lemma chain_begin x slots ck : 0 ≤ x → begin_long (entry x) = Some (slots, ck) → de_attr (entry x) = ATTR_EXT → chain (x + slots) slots slots ck.
Proof.
  intros Hx Hb He. pose proof (begin_long_bounds _ _ _ Hb) as Hr. unfold begin_long in Hb. destruct (z2b (Z.land (slot_id (entry x)) 0x40)) eqn:Em; [|done]. cbn [negb] in Hb.
  destruct (_ || _); [done|]. injection Hb as Hn Hck. split; [lia| | |intros; lia].
  - intros i Hi. replace (x + slots - i) with x by lia. done.
  - replace (x + slots - slots) with x by lia. done.
Qed.

Lemma chain_next k hi slot ck :
  chain (k + slot) hi slot ck → 1 < slot → de_attr (entry (k + 1)) = ATTR_EXT → Z.land (slot_id (entry (k + 1))) (Z.lnot 0x40) = slot - 1 → slot_checksum (entry (k + 1)) = ck →
  chain (k + 1 + (slot - 1)) hi (slot - 1) ck.
Proof.
  intros [Hr H1 H2 H3] Hs' Ha Hn Hk. replace (k + 1 + (slot - 1)) with (k + slot) by lia. split; [lia| |done|].
  - intros i Hi. destruct (decide (i = slot - 1)) as [->|]; [by replace (k + slot - (slot - 1)) with (k + 1) by lia|apply H1; lia].
  - intros i Hi. destruct (decide (i = slot - 1)) as [->|]; [by replace (k + slot - (slot - 1)) with (k + 1) by lia|apply H3; lia].
Qed.

(** What a parse that began at the first slot it came to says about long names. *)
Definition parsed_name (st : parse_status) (cur : option ptr) (pos : Z) (uni : list Z) : Prop :=
  match st with
  | PARSE_OK nr => ∃ j, pos = 32 * (j + 1) ∧ slots_of j nr ∧ (nr ≠ 0 → ∃ rest, uni = long_name j nr ++ 0 :: rest)
  | PARSE_INVALID => ∃ j, pos = 32 * (j + 1) ∧ starts_from (j + 1) (j + 1)
  | PARSE_NOT_LONGNAME => ∃ j, pos = 32 * (j + 1) ∧ starts_from j j
  | PARSE_EOF => True
  end.

(** The short entry that a complete name ends at. *)
Lemma loop_done k slots ck uni :
  chain (k + 1) slots 1 ck → starts_from (k + 1 - slots) (k + 1) → holds_at uni 0 (slots_text (k + 1) 1 (Z.to_nat slots)) →
  parsed_name (PARSE_OK (if fat_checksum (de_name (entry (k + 1))) =? ck then slots else 0)) (Some (place (k + 1))) (32 * (k + 1 + 1)) uni.
Proof.
  intros Hc Hf Hh. exists (k + 1). split; [done|]. destruct (Z.eqb_spec (fat_checksum (de_name (entry (k + 1)))) ck) as [E|E].
  - split; [|intros _; apply holds_split; [done|]; pose proof (slots_text_ends _ _ _ _ Hc) as H; by replace (slots - 1 + 1) with slots in H by lia].
    split; [right; unfold own_slots; by rewrite E|]. intros n Hn. specialize (Hf _ _ Hn). lia.
  - split; [|done]. split; [by left|]. intros n Hn. pose proof (ch_range _ _ _ _ Hn). destruct (ch_slot _ _ _ _ Hn 1 ltac:(lia)) as [_ A].
    destruct (ch_slot _ _ _ _ Hc 1 ltac:(pose proof (ch_range _ _ _ _ Hc); lia)) as [_ B]. congruence.
Qed.

Lemma long_loop_name fuel slots slot ck k uni dir st cur pos uni' dir' s' :
  inv dir → 0 ≤ k < total → (261 ≤ length uni)%nat → chain (k + slot) slots slot ck → starts_from (k + slot - slots) (k + 1) →
  holds_at uni (13 * Z.to_nat slot) (slots_text (k + slot) (slot + 1) (Z.to_nat (slots - slot))) →
  long_loop sb lay ops alloc sleep fuel slots slot ck (place k) (32 * (k + 1)) uni dir s = Ret (st, cur, pos, uni', dir', s') → parsed_name st cur pos uni'.
Proof.
  revert slots slot ck k uni dir. induction fuel as [|fuel IH]; intros slots slot ck k uni dir Hi Hk Hu Hc Hf Hh; [done|]. cbn [long_loop].
  pose proof (ch_range _ _ _ _ Hc) as Hr. rewrite (dirent_spec sb lay ops alloc sleep inv good blocks phys s Hs) by lia. cbn [mbind outcome_bind].
  assert (length (entry k) = 32%nat) as He by (by apply (entry_length sb lay ops alloc sleep inv good blocks phys)).
  destruct (put_chars_in uni (slot - 1) (entry k) He) as (u & -> & Hl & Hin & Hend & Hout); [lia|done|]. cbn [mbind outcome_bind].
  destruct (next_entry k dir Hi Hk) as (d & -> & Hd). destruct (Z.ltb_spec (k + 1) total); cbn [mbind outcome_bind]; [|by intros [= <- _ _ _ _ _]].
  rewrite (dirent_spec sb lay ops alloc sleep inv good blocks phys s Hs) by lia. cbn [mbind outcome_bind].
  assert (holds_at u (13 * Z.to_nat (slot - 1)) (slots_text (k + slot) slot (S (Z.to_nat (slots - slot))))) as Hh'.
  { apply (put_holds uni); replace (k + slot - slot) with k by lia; try done; [lia|]. by apply slot_chars_length. }
  clear Hh Hin Hend Hout. assert (starts_from (k + 1) (k + 2) → de_attr (entry (k + 1)) = ATTR_EXT → match begin_long (entry (k + 1)) with
    | None => Ret (PARSE_INVALID, Some (place (k + 1)), 32 * (k + 1 + 1), u, d, s)
    | Some (slots, cksum) => long_loop sb lay ops alloc sleep fuel slots slots cksum (place (k + 1)) (32 * (k + 1 + 1)) u d s
    end = Ret (st, cur, pos, uni', dir', s') → parsed_name st cur pos uni') as Hrest.
  { intros Hfr Ha. destruct (begin_long (entry (k + 1))) as [[slots' ck']|] eqn:Eb.
    - apply (IH slots' slots' ck' (k + 1) u d Hd); [lia|lia|by apply chain_begin; [lia|..]|replace (k + 1 + slots' - slots') with (k + 1) by lia; by replace (k + 1 + 1) with (k + 2) by lia|].
      rewrite Z.sub_diag. by intros i x Hx.
    - intros [= <- _ <- _ _ _]. exists (k + 1). split; [done|]. apply starts_begin; [by replace (k + 1 + 1) with (k + 2) by lia|done]. }
  destruct (Z.eqb_spec (slot - 1) 0) as [Hz|Hz].
  - assert (slot = 1) as -> by lia. destruct (Z.eqb_spec (de_attr (entry (k + 1))) ATTR_EXT) as [Ha|Ha].
    + destruct (Z.eqb_spec (slot_id (entry (k + 1))) DELETED_FLAG) as [Ed|]; [|apply Hrest; [apply (starts_break k slots 1 ck); [done|by left]|done]]. intros [= <- _ <- _ _ _].
      exists (k + 1). split; [done|]. apply starts_begin; [replace (k + 1 + 1) with (k + 2) by lia; apply (starts_break k slots 1 ck); [done|by left]|].
      unfold begin_long. rewrite Ed. done.
    + assert (parsed_name PARSE_INVALID (Some (place (k + 1))) (32 * (k + 1 + 1)) u) as Hinv by (exists (k + 1); split; [done|by apply starts_skip]).
      destruct (_ =? DELETED_FLAG); [by intros [= <- <- <- <- _ _]|]. destruct (_ || _); [by intros [= <- <- <- <- _ _]|]. intros [= <- <- <- <- _ _].
      apply loop_done; [done|done|]. replace (Z.to_nat slots) with (S (Z.to_nat (slots - 1))) by lia. exact Hh'.
  - destruct (Z.eqb_spec (de_attr (entry (k + 1))) ATTR_EXT) as [Ha|Ha]; cbn [negb].
    2:{ intros [= <- _ <- _ _ _]. exists (k + 1). split; [done|]. by apply (starts_stop k slots slot ck); [done|lia|]. }
    destruct (Z.eqb_spec (Z.land (slot_id (entry (k + 1))) (Z.lnot 0x40)) (slot - 1)) as [En|En]; cbn [negb].
    2:{ apply Hrest; [|done]. apply (starts_break k slots slot ck); [done|]. right. right. by left. }
    destruct (Z.eqb_spec (slot_checksum (entry (k + 1))) ck) as [Ek|Ek]; cbn [negb].
    2:{ apply Hrest; [|done]. apply (starts_break k slots slot ck); [done|]. right. right. by right. }
    apply (IH slots (slot - 1) ck (k + 1) u d Hd); [lia|lia|apply chain_next; [done|lia|done..]|replace (k + 1 + (slot - 1) - slots) with (k + slot - slots) by lia|].
    + intros j n Ho Hj. apply (Hf j n Ho). lia.
    + replace (k + 1 + (slot - 1)) with (k + slot) by lia. replace (slot - 1 + 1) with slot by lia. by replace (Z.to_nat (slots - (slot - 1))) with (S (Z.to_nat (slots - slot))) by lia.
Qed.

Lemma parse_long_name new_page page x dir st cur pos page' dir' s' :
  inv dir → 0 ≤ x < total → de_attr (entry x) = ATTR_EXT → page_ok new_page → page_ok page → starts_from x x →
  fat_parse_long sb lay ops alloc sleep new_page page (place x) (32 * (x + 1)) dir s = Ret (Some (st, cur, pos), page', dir', s') →
  ∃ uni, page' = Some uni ∧ parsed_name st cur pos uni.
Proof.
  intros Hi Hx Ha Hn Hp Hf. assert (starts_from x (x + 1)) as Hf1 by (intros j n Ho Hj; apply Hf; [done|lia]). unfold fat_parse_long.
  destruct (match page with Some uni => Some uni | None => new_page end) as [uni|] eqn:Ep; [|done].
  assert (261 ≤ length uni)%nat as Hu by (destruct page; [injection Ep as ->; done|rewrite Ep in Hn; done]).
  rewrite (dirent_spec sb lay ops alloc sleep inv good blocks phys s Hs) by lia. cbn [mbind outcome_bind]. destruct (begin_long (entry x)) as [[slots ck]|] eqn:Eb.
  - destruct (long_loop _ _ _ _ _ _ _ _ _ _ _ _ _ _) as [[[[[[st1 cur1] pos1] u1] d1] s1]| | |] eqn:El; [|done..]. cbn [mbind outcome_bind]. intros [= -> -> -> <- _ _]. exists u1. split; [done|].
    apply (long_loop_name _ _ _ _ _ _ _ _ _ _ _ _ _ Hi Hx Hu (chain_begin x slots ck ltac:(lia) Eb Ha)) in El; [done|by replace (x + slots - slots) with x by lia|].
    rewrite Z.sub_diag. by intros i y Hy.
  - intros [= <- _ <- <- _ _]. exists uni. split; [done|]. exists x. split; [done|]. by apply starts_begin.
Qed.

(** ** Searching *)

(** A long name that the search can see: its slots do not follow other slots. *)
Record visible_long (o : vfat_options) (k j : Z) (w : list Z) : Prop := VisibleLong {
  vl_stored : stored_long k j w;
  vl_place : 0 ≤ k ∧ j < total;
  vl_chars : Forall is_wchar w;
  vl_length : (0 < length w ≤ 260)%nat;
  vl_alone : k = 0 ∨ de_attr (entry (k - 1)) ≠ ATTR_EXT;
  vl_short : is_short (entry j) = true;
  vl_shown : short_uname (nls_disk o) (opt_shortname o) (entry j) ≠ Ret []
}.

Lemma wchar_char16 w : Forall is_wchar w → Forall is_char16 w.
Proof. intros H. eapply Forall_impl; [exact H|]. unfold is_wchar, is_char16. intros; lia. Qed.

Lemma visible_first o k j w : visible_long o k j w → de_attr (entry k) = ATTR_EXT ∧ (slot_id (entry k) =? DELETED_FLAG) = false ∧ k < j.
Proof.
  intros [Hst Hp Hw Hl _ _ _]. destruct (fill_name_spec w) as (n & Hn & H1 & H2 & _ & _ & Hc). destruct (stored_slot k j w Hst Hp n 0 Hn ltac:(lia)) as [Ej Ek].
  rewrite Z.add_0_r in Ek. cbn [Nat.eqb] in Ek. rewrite Ek. match goal with |- context [name_slot ?i ?c ?x] => destruct (name_slot_parts i c x) as (_ & -> & _ & -> & _) end;
    [rewrite length_drop; lia|by apply Forall_drop, Hc, wchar_char16|]. split; [done|]. split; [|lia]. destruct (Z.eqb_spec (Z.lor (Z.of_nat n) 0x40) DELETED_FLAG) as [E|]; [|done].
  destruct (first_id (Z.of_nat n) ltac:(lia)) as [E2 _]. rewrite E in E2. change (u8 _) with 165 in E2. lia.
Qed.

(** The slots that are made of a name are the slots of the entry, and hold the
    name. *)
Lemma stored_text k j w n m :
  stored_long k j w → 0 ≤ k ∧ j < total → Forall is_char16 w → length (fill_name w) = (13 * n)%nat → (n ≤ 20)%nat → (0 < m ≤ n)%nat →
  slots_text j (Z.of_nat (n - m) + 1) m = drop ((n - m) * 13) (fill_name w) ++ [0].
Proof.
  intros Hst Hp Hw Hn H20 Hm. destruct (fill_name_spec w) as (_ & _ & _ & _ & _ & _ & Hc). specialize (Hc Hw). induction m as [|m IH]; [lia|]. cbn [slots_text].
  destruct (stored_slot k j w Hst Hp n m Hn ltac:(lia)) as [Ej Ek]. replace (j - (Z.of_nat (n - S m) + 1)) with (k + Z.of_nat m) by lia. rewrite Ek.
  replace (n - 1 - m)%nat with (n - S m)%nat by lia. assert (13 ≤ length (drop ((n - S m) * 13) (fill_name w)))%nat as Hl by (rewrite length_drop; lia).
  match goal with |- context [name_slot ?i ?c ?x] => destruct (name_slot_parts i c x Hl (Forall_drop _ _ _ Hc)) as (_ & Hid & _ & _ & ->) end. unfold marked. rewrite Hid.
  destruct (Nat.eqb_spec m 0) as [->|Hnz].
  - rewrite (proj2 (first_id (Z.of_nat n) ltac:(lia))). rewrite take_ge; [done|]. rewrite length_drop. lia.
  - rewrite (proj2 (next_id (Z.of_nat (n - m)) ltac:(lia))). replace (Z.of_nat (n - S m) + 1 + 1) with (Z.of_nat (n - m) + 1) by lia. rewrite IH by lia.
    replace ((n - m) * 13)%nat with ((n - S m) * 13 + 13)%nat by lia. by rewrite <- drop_drop, (assoc_L (++)), take_drop.
Qed.

Lemma stored_own k j w : stored_long k j w → 0 ≤ k ∧ j < total → Forall is_char16 w → (0 < length w ≤ 260)%nat → own_slots j (j - k).
Proof.
  intros Hst Hp Hw Hl. destruct (fill_name_spec w) as (n & Hn & H1 & H2 & _ & _ & Hc). specialize (Hc Hw).
  assert (∀ i, 1 ≤ i ≤ Z.of_nat n → j = k + Z.of_nat n ∧ slot_id (entry (j - i)) = (if decide (i = Z.of_nat n) then Z.lor (Z.of_nat n) 0x40 else i) ∧
    slot_checksum (entry (j - i)) = fat_checksum (de_name (entry j)) ∧ de_attr (entry (j - i)) = ATTR_EXT) as H.
  { intros i Hi. destruct (stored_slot k j w Hst Hp n (n - Z.to_nat i) Hn ltac:(lia)) as [Ej Ek]. replace (k + Z.of_nat (n - Z.to_nat i)) with (j - i) in Ek by lia. rewrite Ek.
    match goal with |- context [name_slot ?i ?c ?x] => destruct (name_slot_parts i c x) as (_ & -> & -> & -> & _); [rewrite length_drop; lia|by apply Forall_drop|] end.
    split; [done|]. split; [|done]. destruct (Nat.eqb_spec (n - Z.to_nat i) 0); [by rewrite decide_True by lia|]. rewrite decide_False by lia. lia. }
  destruct (H 1 ltac:(lia)) as [Ej _]. replace (j - k) with (Z.of_nat n) by lia. split; [lia| | |].
  - intros i Hi. destruct (H i Hi) as (_ & _ & -> & ->). done.
  - destruct (H (Z.of_nat n) ltac:(lia)) as (_ & Hid & _). rewrite decide_True in Hid by done. unfold marked. rewrite Hid. destruct (first_id (Z.of_nat n) ltac:(lia)) as [-> ->]. done.
  - intros i Hi. destruct (H i ltac:(lia)) as (_ & -> & _). rewrite decide_False by lia. by apply next_id; lia.
Qed.

Lemma fill_name_text w : Forall (λ c, c ≠ 0) w → until_zero (fill_name w ++ [0]) = w.
Proof.
  intros Hw. unfold fill_name. destruct (_ =? 0)%nat; [by apply until_zero_app|]. destruct (_ =? 0)%nat; rewrite <- !(assoc_L (++)); by apply until_zero_app.
Qed.

Lemma visible_slots o k j w : visible_long o k j w → slots_of j (j - k) ∧ long_name j (j - k) = w.
Proof.
  intros [Hst Hp Hw Hl Ha _ _]. pose proof (wchar_char16 _ Hw) as Hw'. pose proof (stored_own k j w Hst Hp Hw' Hl) as Ho. split.
  - split; [by right|]. intros m Hm. destruct (decide (m ≤ j - k)); [done|]. pose proof (ch_range _ _ _ _ Hm). destruct Ha as [->|Ha]; [lia|].
    destruct (ch_slot _ _ _ _ Hm (j - (k - 1)) ltac:(pose proof (ch_range _ _ _ _ Ho); lia)) as [He _]. by replace (j - (j - (k - 1))) with (k - 1) in He by lia.
  - destruct (fill_name_spec w) as (n & Hn & H1 & H2 & _). destruct (stored_slot k j w Hst Hp n 0 Hn ltac:(lia)) as [Ej _].
    pose proof (stored_text k j w n n Hst Hp Hw' Hn ltac:(lia) ltac:(lia)) as E. rewrite Nat.sub_diag in E. cbn [drop Nat.mul] in E.
    unfold long_name. replace (Z.to_nat (j - k)) with n by lia. change 1 with (Z.of_nat 0 + 1). rewrite E. apply fill_name_text.
    eapply Forall_impl; [exact Hw|]. unfold is_wchar. intros; lia.
Qed.

Context (o : vfat_options) (Ho : options_ok o) (name : list Z) (new_page : option (list Z)) (Hnew : page_ok new_page).

(** Entry [j] has the name, with the slots it has. *)
Definition named (j : Z) : Prop := ∃ nr, slots_of j nr ∧ has_name o name (entry j) nr (long_name j nr).

(** No entry in use from [x] up to [y] has the name. *)
Definition missed (x y : Z) : Prop := ∀ j, x ≤ j < y → is_short (entry j) = true → ¬ named j.

(** The first entry from [x] on that has the name, with its own slots. *)
Definition located (x : Z) (r : fat_slot_info) : Prop :=
  ∃ j nr, r = SlotInfo (fat_make_i_pos lay (place j)) (32 * (j - nr)) (nr + 1) (place j) ∧ x ≤ j < total ∧ is_short (entry j) = true ∧
    slots_of j nr ∧ has_name o name (entry j) nr (long_name j nr) ∧ missed x j.

Definition searched (x : Z) (err : Z) (r : option fat_slot_info) : Prop :=
  match r with
  | Some r => err = 0 ∧ located x r
  | None => (err = - ENOENT ∧ missed x total) ∨ (err = - ENOMEM ∧ new_page = None)
  end.

Lemma missed_app x y z : missed x y → missed y z → missed x z.
Proof. intros H1 H2 j Hj. destruct (decide (j < y)); [apply H1; lia|apply H2; lia]. Qed.

Lemma missed_ext x j : ext_run x j → missed x j.
Proof. intros Hr i Hi Hsh. by rewrite (ext_not_short _ (Hr i Hi)) in Hsh. Qed.

Lemma missed_one x : (is_short (entry x) = true → ¬ named x) → missed x (x + 1).
Proof. intros H j Hj. by replace j with x by lia. Qed.

Lemma searched_back x y err r : x ≤ y → missed x y → searched y err r → searched x err r.
Proof.
  intros Hx Hm. destruct r as [r|]; cbn [searched].
  - intros (-> & j & nr & -> & Hj & Hsh & Hsl & Hn & Hy). split; [done|]. exists j, nr. split; [done|]. split; [lia|]. do 3 (split; [done|]). by apply (missed_app x y).
  - intros [[-> Hy]|?]; [left|by right]. split; [done|]. by apply (missed_app x y).
Qed.

(** What the parser gives where a name can be seen. *)
Lemma visible_parse page k j w dir :
  visible_long o k j w → inv dir → page_ok page → is_Some (match page with Some uni => Some uni | None => new_page end) →
  ∃ uni rest dir', fat_parse_long sb lay ops alloc sleep new_page page (place k) (32 * (k + 1)) dir s =
    Ret (Some (PARSE_OK (j - k), Some (place j), 32 * (j + 1)), Some uni, dir', s) ∧ uni = w ++ 0 :: rest.
Proof.
  intros Hv Hi Hp [uni Hu]. pose proof (wchar_char16 _ (vl_chars _ _ _ _ Hv)) as Hw.
  assert (261 ≤ length uni)%nat as Hl by (destruct page; [injection Hu as ->; done|rewrite Hu in Hnew; done]).
  destruct (read_back k j w (vl_stored _ _ _ _ Hv) (vl_place _ _ _ _ Hv) Hw new_page page uni dir Hu Hl (vl_length _ _ _ _ Hv) (vl_short _ _ _ _ Hv) Hi)
    as (u & d & E & _ & _ & Ht & Hz). exists u, (drop (S (length w)) u), d. split; [exact E|]. rewrite <- Ht at 1. symmetry. by apply take_drop_middle.
Qed.

(** The walk is about to read entry [k], or has read entry [k - 1] and it is no
    slot. *)
Definition standing (have : bool) (k : Z) (cur : option ptr) (pos : Z) : Prop :=
  if have then 0 < k ∧ cur = Some (place (k - 1)) ∧ pos = 32 * k ∧ de_attr (entry (k - 1)) ≠ ATTR_EXT else before sb phys k cur pos.

(** The entry looked at next. *)
Definition looks_at (have : bool) (k : Z) : Z := if have then k - 1 else k.

Lemma stand_entry have k cur pos dir :
  inv dir → standing have k cur pos → 0 ≤ k ≤ total →
  ∃ dir', (if have then Ret (cur, pos, dir, s) else fat_get_entry sb lay ops alloc sleep cur pos dir s) =
    Ret (if looks_at have k <? total then (Some (place (looks_at have k)), 32 * (looks_at have k + 1), dir', s) else (None, 32 * k, dir', s)) ∧ inv dir'.
Proof.
  intros Hi Hst Hk. destruct have; cbn [standing looks_at] in *.
  - destruct Hst as (H0 & -> & -> & _). exists dir. destruct (Z.ltb_spec (k - 1) total); [|lia]. by replace (k - 1 + 1) with k by lia.
  - by apply (get_entry_spec sb lay ops alloc sleep inv good blocks phys s Hs).
Qed.

Abbreviation loop := (search_loop sb lay ops alloc sleep o name new_page).

(** How a loop that looks at entry [x] ends. *)
Definition ends (x : Z) (run : outcome (Z * option fat_slot_info * finode * fatfs)) : Prop :=
  ∃ err r dir', run = Ret (err, r, dir', s) ∧ inv dir' ∧ searched x err r.

Lemma ends_back x y run : x ≤ y → missed x y → ends y run → ends x run.
Proof. intros Hx Hm (err & r & d & E & Hd & Hr). exists err, r, d. split; [done|]. split; [done|]. by apply (searched_back x y). Qed.

(** The comparison with the short entry [j] and its [nr] slots, and going on after
    it. *)
Lemma compare_ends j nr unicode d next :
  0 ≤ j < total → is_short (entry j) = true → slots_of j nr → (nr ≠ 0 → ∃ rest, unicode = Some (long_name j nr ++ 0 :: rest)) → inv d → ends (j + 1) next →
  ends j (e ← dirent s (place j);
          found ← matches_entry o name e nr unicode;
          if (found : bool) then Ret (0, Some (SlotInfo (fat_make_i_pos lay (place j)) (32 * (j + 1) - (nr + 1) * 32) (nr + 1) (place j)), d, s) else next).
Proof.
  intros Hj Hshort Hsl Hu Hd Hnext. rewrite (dirent_spec sb lay ops alloc sleep inv good blocks phys s Hs) by lia. cbn [mbind outcome_bind].
  destruct (matches_spec o name (entry j) nr unicode (long_name j nr) Ho (until_zero_nonzero _) Hu) as (b & -> & Hb). cbn [mbind outcome_bind]. destruct b.
  - eexists _, _, d. split; [reflexivity|]. split; [done|]. split; [done|]. exists j, nr. replace (32 * (j + 1) - (nr + 1) * 32) with (32 * (j - nr)) by lia.
    split; [done|]. split; [lia|]. split; [done|]. split; [done|]. split; [by apply Hb|]. intros i Hi. lia.
  - apply (ends_back j (j + 1)); [lia| |done]. apply missed_one. intros _ (nr' & Hsl' & Hn). rewrite (slots_of_unique _ _ _ Hsl' Hsl) in Hn. by apply Hb in Hn.
Qed.

(** The rest of a turn after the parser was called at entry [x]. *)
Lemma parsed_ends x dir unicode fuel :
  inv dir → 0 ≤ x < total → de_attr (entry x) = ATTR_EXT → starts_from x x → page_ok unicode → (Z.to_nat (total - x) ≤ fuel)%nat →
  (∀ have k unicode cur pos dir, inv dir → standing have k cur pos → 0 ≤ k ≤ total → starts_from (looks_at have k) (looks_at have k) →
    (Z.to_nat (total - k) + (if have then 1 else 0) < fuel)%nat → page_ok unicode → ends (looks_at have k) (loop fuel have unicode cur pos dir s)) →
  ends x ('(st, unicode, dir, s) ← fat_parse_long sb lay ops alloc sleep new_page unicode (place x) (32 * (x + 1)) dir s;
          match st with
          | None => Ret (- ENOMEM, None, dir, s)
          | Some (PARSE_INVALID, cur, pos) => loop fuel false unicode cur pos dir s
          | Some (PARSE_NOT_LONGNAME, cur, pos) => loop fuel true unicode cur pos dir s
          | Some (PARSE_EOF, _, _) | Some (PARSE_OK _, None, _) => Ret (- ENOENT, None, dir, s)
          | Some (PARSE_OK nr, Some de, pos) =>
            e ← dirent s de;
            found ← matches_entry o name e nr unicode;
            if (found : bool) then Ret (0, Some (SlotInfo (fat_make_i_pos lay de) (pos - (nr + 1) * 32) (nr + 1) de), dir, s)
            else loop fuel false unicode (Some de) pos dir s
          end).
Proof.
  intros Hi Hx Hext Hfr Hp Hf IH. destruct (parse_long_spec new_page unicode x dir Hi Hx Hext Hnew Hp) as (r & page & d & E & Hd & Hp' & Hr). rewrite E. cbn [mbind outcome_bind].
  destruct r as [[[st cur] pos]|]; [|eexists _, None, d; split; [reflexivity|]; split; [done|by right]].
  destruct (parse_long_name new_page unicode x dir st cur pos page d s Hi Hx Hext Hnew Hp Hfr E) as (uni & -> & Hn). destruct Hr as (_ & _ & Hr).
  destruct st as [nr| | |]; cbn [parsed parsed_name] in Hr, Hn.
  - destruct Hr as (j & Hj & -> & -> & Hrun & _ & _ & _ & Hshort). destruct Hn as (j' & Ej & Hsl & Hu). assert (j' = j) as -> by lia.
    apply (ends_back x j); [lia|by apply missed_ext|]. apply compare_ends; [lia|done|done|intros Hnz; destruct (Hu Hnz) as [rest ->]; by exists rest|done|].
    apply (IH false (j + 1)); [done|by apply before_next; lia|lia| |cbn; lia|done]. apply starts_skip. destruct (short_not_slot _ Hshort) as (_ & Ha & _). by apply Z.eqb_neq in Ha.
  - destruct Hr as (j & Hj & -> & -> & Hrun & Hns). destruct Hn as (j' & Ej & Hfr'). assert (j' = j) as -> by lia. apply (ends_back x (j + 1)); [lia| |].
    + apply (missed_app x j); [by apply missed_ext|]. apply missed_one. by rewrite Hns.
    + apply (IH false (j + 1)); [done|by apply before_next; lia|lia|done|cbn; lia|done].
  - destruct Hr as (j & Hj & -> & -> & Hrun & Hne). destruct Hn as (j' & Ej & Hfr'). assert (j' = j) as -> by lia. apply (ends_back x j); [lia|by apply missed_ext|].
    assert (looks_at true (j + 1) = j) as El by (cbn; lia). rewrite <- El at 1. apply IH; [done| |lia|by rewrite El|lia|done]. cbn [standing]. replace (j + 1 - 1) with j by lia. split; [lia|done].
  - destruct Hr as (-> & _ & Hrun). eexists _, None, d. split; [reflexivity|]. split; [done|]. left. split; [done|by apply missed_ext].
Qed.

Lemma search_loop_spec fuel have k unicode cur pos dir :
  inv dir → standing have k cur pos → 0 ≤ k ≤ total → starts_from (looks_at have k) (looks_at have k) → (Z.to_nat (total - k) + (if have then 1 else 0) < fuel)%nat → page_ok unicode →
  ends (looks_at have k) (loop fuel have unicode cur pos dir s).
Proof.
  revert have k unicode cur pos dir. induction fuel as [|fuel IH]; intros have k unicode cur pos dir Hi Hst Hk Hfr Hf Hp; [lia|]. cbn [search_loop].
  destruct (stand_entry have k cur pos dir Hi Hst Hk) as (d & -> & Hd). assert (looks_at have k = k - 1 ∧ 0 < k ∧ have = true ∨ looks_at have k = k ∧ have = false) as Hx.
  { destruct have; [left|by right]. by destruct Hst as (? & _). }
  set (x := looks_at have k) in *. clearbody x.
  assert (Z.to_nat (total - x) ≤ fuel)%nat as Hfx by (destruct Hx as [(-> & ? & ->)|(-> & ->)]; lia). clear Hf Hst.
  destruct (Z.ltb_spec x total) as [Hlt|Hge]; cbn [mbind outcome_bind].
  2:{ eexists _, None, d. split; [reflexivity|]. split; [done|]. left. split; [done|]. intros j Hj. lia. }
  rewrite (dirent_spec sb lay ops alloc sleep inv good blocks phys s Hs) by lia. cbn [mbind outcome_bind].
  assert (is_short (entry x) = false → starts_from (x + 1) (x + 1) → ends x (loop fuel false unicode (Some (place x)) (32 * (x + 1)) d s)) as Hgo.
  { intros Hns Hfr'. apply (ends_back x (x + 1)); [lia|apply missed_one; by rewrite Hns|]. apply (IH false (x + 1)); [done|by apply before_next; lia|lia|done|lia|done]. }
  destruct (slot_id (entry x) =? DELETED_FLAG) eqn:Edel.
  { apply Hgo; [by apply deleted_not_short|]. apply starts_begin; [intros j n Ho' Hj; apply Hfr; [done|lia]|]. apply Z.eqb_eq in Edel. unfold begin_long. by rewrite Edel. }
  destruct (Z.eqb_spec (de_attr (entry x)) ATTR_EXT) as [Hext|Hext]; cbn [negb andb]; [by apply parsed_ends; try done; lia|].
  pose proof (starts_skip x Hext) as Hfr1.
  destruct (z2b (Z.land (de_attr (entry x)) ATTR_VOLUME)) eqn:Evol; [apply Hgo; [unfold is_short; by rewrite Evol, andb_false_r|done]|].
  destruct (IS_FREE (de_name (entry x))) eqn:Efree; [apply Hgo; [unfold is_short; by rewrite Efree|done]|].
  cbn [mbind outcome_bind]. apply compare_ends; [lia|unfold is_short; by rewrite Efree, Evol| |done|done|].
  - split; [by left|]. intros n Ho'. specialize (Hfr x n Ho'). lia.
  - apply (IH false (x + 1)); [done|by apply before_next; lia|lia|done|lia|done].
Qed.

Lemma search_spec dir :
  inv dir → ∃ err r dir', fat_search_long sb lay ops alloc sleep o name new_page dir s = Ret (err, r, dir', s) ∧ inv dir' ∧ searched 0 err r.
Proof.
  intros Hi. apply (search_loop_spec (dir_fuel sb lay dir) false 0 None None 0 dir Hi); [by split; [|left]| | | |done].
  - destruct (map_fuel dir Hi), (dpb_pos sb lay ops alloc sleep inv good blocks phys). unfold nr_entries. nia.
  - intros j n Ho' _. pose proof (ch_range _ _ _ _ Ho'). cbn. lia.
  - rewrite Nat.add_0_r. by apply (enough_fuel sb lay ops alloc sleep inv good blocks phys).
Qed.
End parse.

(** ** Claims *)

(** C27: A long name is read back from its slots.  Where the entries from [k] on
    are the slots that are made of a name of at most 260 characters for the short
    entry [j] after them, [fat_parse_long] returns there with the number of the
    slots, stands at the short entry, and the page it filled begins with the name
    and its terminator. *)
Theorem long_name_roundtrip sb lay ops alloc sleep inv good blocks phys `{!DirMap sb lay ops alloc sleep inv good blocks phys} new_page page uni k j w dir s :
  good s → inv dir → 0 ≤ k ∧ j < nr_entries sb blocks → stored_long sb phys s k j w → Forall is_char16 w → (0 < length w ≤ 260)%nat →
  is_short (entry_of sb phys s j) = true → (match page with Some uni => Some uni | None => new_page end) = Some uni → (261 ≤ length uni)%nat →
  ∃ uni' dir', fat_parse_long sb lay ops alloc sleep new_page page (place_of sb phys k) (32 * (k + 1)) dir s =
    Ret (Some (PARSE_OK (j - k), Some (place_of sb phys j), 32 * (j + 1)), Some uni', dir', s) ∧ inv dir' ∧
    take (length w) uni' = w ∧ uni' !! length w = Some 0.
Proof.
  intros Hs Hi Hkj Hst Hw Hl Hshort Hp Hu.
  destruct (read_back sb lay ops alloc sleep inv good blocks phys s Hs k j w Hst Hkj Hw new_page page uni dir Hp Hu Hl Hshort Hi) as (u & d & E & Hd & _ & Ht). by exists u, d.
Qed.

(** C11: [fat_search_long] finds exactly what is there.  It returns for every
    directory that is mapped, whatever its entries are, and writes past no buffer,
    when the character sets write at most four bytes for a character, and neither
    UTF-8 nor escapes are asked for.  What it reports is the first entry in use that
    has the name, as its short name or as the long name that its slots hold, with
    the number and the offset of exactly these slots: those before it that are
    numbered down to one from a marked one and carry the checksum of its short name.
    When it reports that there is none, no entry in use has the name.  The one other
    end is [-ENOMEM], when there is no page for a name. *)
Theorem fat_search_long_correct sb lay ops alloc sleep inv good blocks phys `{!DirMap sb lay ops alloc sleep inv good blocks phys} o name new_page dir s :
  good s → inv dir → options_ok o → page_ok new_page →
  ∃ err r dir', fat_search_long sb lay ops alloc sleep o name new_page dir s = Ret (err, r, dir', s) ∧ inv dir' ∧
    match r with
    | Some r => err = 0 ∧ located sb lay blocks phys s o name 0 r
    | None => (err = - ENOENT ∧ missed sb phys s o name 0 (nr_entries sb blocks)) ∨ (err = - ENOMEM ∧ new_page = None)
    end.
Proof. intros Hs Hi Ho Hn. by apply (search_spec sb lay ops alloc sleep inv good). Qed.

(** ** Examples

    The sample root with a file whose long name takes two slots. *)

Definition name_l : list Z := bytes_of "LONGNA~1TXT".
Definition long_w : list Z := bytes_of "long name of a.txt".
Definition long_block : list Z :=
  entry_bytes name_a 32 ++ mjoin (long_slots name_l (fill_name long_w)) ++ entry_bytes name_l 32 ++ replicate 384 0.
Definition long_fs : fatfs := FatFs (<[4 := long_block]> (blk (Sample.fs16 4))) ∅ 5 4 false false.
Definition new_name_page : list Z := replicate 2048 0.
Definition plain_options : vfat_options := VfatOptions false false true 0x101 true default_table default_table.

Lemma long_fs_good : root_good Sample.sb16 sample_layout long_fs.
Proof. intros i Hi. assert (i = 0) as -> by (change (root_blocks sample_layout) with 1 in Hi; lia). exists long_block. split; by vm_compute. Qed.

Lemma plain_options_ok : options_ok plain_options.
Proof.
  assert (nls_ok default_table) as H.
  { split; [intros c l; cbn; unfold default_char2uni; cbn; by destruct (c =? 0)|..]; intros u; cbn; unfold default_uni2char; destruct (_ && _) eqn:E; cbn; [lia|lia| |by apply not_elem_of_nil].
    apply andb_prop in E as [_ E%negb_true_iff%Z.eqb_neq]. intros H%list_elem_of_singleton. congruence. }
  by split; [|split; [|split]].
Qed.

Lemma long_name_roundtrip_witness :
  ∃ uni dir', fat_parse_long Sample.sb16 sample_layout fat16_ops true (λ i, i) (Some new_name_page) None (4, 32) 64 root_inode long_fs =
    Ret (Some (PARSE_OK 2, Some (4, 96), 128), Some uni, dir', long_fs) ∧ take 18 uni = long_w ∧ uni !! 18%nat = Some 0.
Proof.
  pose proof (long_name_roundtrip Sample.sb16 sample_layout fat16_ops true (λ i, i) _ _ _ _ (DirMap0 := sample_root) (Some new_name_page) None new_name_page 1 3 long_w
    root_inode long_fs long_fs_good eq_refl) as H.
  destruct H as (uni & dir' & E & _ & Ht); [split; by vm_compute|vm_compute; reflexivity| |vm_compute; lia|vm_compute; reflexivity|reflexivity|vm_compute; lia|].
  - apply Forall_fmap, Forall_forall. intros a _. unfold is_char16, compose. pose proof (Ascii.N_ascii_bounded a). lia.
  - exists uni, dir'. split; [exact E|exact Ht].
Defined.

(** The file is found by its long name, in either case of the letters. *)
Example long_found :
  ∃ dir', fat_search_long Sample.sb16 sample_layout fat16_ops true (λ i, i) plain_options (bytes_of "Long Name of A.txt") (Some new_name_page) root_inode long_fs =
    Ret (0, Some (SlotInfo 67 32 3 (4, 96)), dir', long_fs).
Proof. eexists. vm_compute. reflexivity. Qed.

Lemma fat_search_long_correct_witness :
  ∃ r dir', fat_search_long Sample.sb16 sample_layout fat16_ops true (λ i, i) plain_options (bytes_of "Long Name of A.txt") (Some new_name_page) root_inode long_fs = Ret (0, Some r, dir', long_fs) ∧
    located Sample.sb16 sample_layout (root_blocks sample_layout) (root_phys sample_layout) long_fs plain_options (bytes_of "Long Name of A.txt") 0 r.
Proof.
  destruct (fat_search_long_correct Sample.sb16 sample_layout fat16_ops true (λ i, i) _ _ _ _ (DirMap0 := sample_root) plain_options (bytes_of "Long Name of A.txt") (Some new_name_page)
    root_inode long_fs long_fs_good eq_refl plain_options_ok) as (err & r & dir' & E & _ & H); [vm_compute; lia|].
  assert (err = 0 ∧ r = Some (SlotInfo 67 32 3 (4, 96))) as [-> ->] by (clear H; vm_compute in E; injection E; intros; subst; split; reflexivity).
  exists (SlotInfo 67 32 3 (4, 96)), dir'. split; [exact E|exact (proj2 H)].
Defined.

(** ** Names the buffers do not hold *)

(** A character written as an escape may end one byte past the buffer. *)
Lemma uni16_to_x8_overruns : uni16_to_x8 260 true default_table (97 :: replicate 52 0x20ac) = Undef.
Proof. by vm_compute. Qed.

(** With UTF-8 names a long name of letters before other characters overruns the
    buffer of the search. *)
Lemma search_utf8_overruns name :
  same_name (VfatOptions false true true VFAT_SFN_DISPLAY_LOWER true default_table default_table) name (replicate 195 97 ++ replicate 60 0x20ac) = Undef.
Proof. by vm_compute. Qed.

(** A name of more than 255 bytes is taken for the name of its first few. *)
Lemma long_name_truncated :
  same_name (VfatOptions false true true VFAT_SFN_DISPLAY_LOWER true default_table default_table) (bytes_of "aa") (replicate 252 97 ++ replicate 3 0xfc) = Ret true.
Proof. by vm_compute. Qed.
