(* ===== verification/Msdos.v ===== *)
(** Names of the MS-DOS file system: [fs/msdos/namei.c] up to the creation of
    directory entries, with the name hash of [include/linux/dcache.h].  The calls
    on names ([msdos_lookup], [msdos_create] and the like) are in [MsdosOps]. *)

From stdpp Require Import strings.
From S2P Require Import Prelude Fat12 Fatent FatentLaws FatAlloc FatDate FatCache FatFile FatDir.

(** ** Options *)

(** The members of [struct fat_mount_options] that names depend on. *)
Record fat_mount_options := NameOptions { dotsOK : bool; atari : bool; nocase : bool; name_check : Z }.

Definition RELAXED : Z := 114.
Definition STRICT : Z := 115.
Definition DOT : Z := 46.
Definition SPACE : Z := 32.
Definition ATTR_HIDDEN : Z := 2.
Definition ATTR_ARCH : Z := 32.
Definition EINVAL : Z := 22.

Definition bad_chars : list Z := [42; 63; 60; 62; 124; 34].
Definition bad_if_strict_pc : list Z := [43; 61; 44; 59; 32].
Definition bad_if_strict_atari : list Z := [32].
Definition bad_if_strict (opts : fat_mount_options) : list Z := if atari opts then bad_if_strict_atari else bad_if_strict_pc.

(** [strchr(s, c) != NULL]: the NUL at the end counts. *)
Definition strchr (s : list Z) (c : Z) : bool := (c =? 0) || bool_decide (c ∈ s).

Definition is_upper (c : Z) : bool := (65 <=? c) && (c <=? 90).
Definition is_lower (c : Z) : bool := (97 <=? c) && (c <=? 122).

(** ** Formatting a name *)

Section format.
Context (opts : fat_mount_options).

Definition relaxed : bool := name_check opts =? RELAXED.
Definition strict : bool := name_check opts =? STRICT.

(** The tests both loops make of a character. *)
Definition rejected (c : Z) : bool :=
  (negb relaxed && strchr bad_chars c) || (strict && strchr (bad_if_strict opts) c) || ((c <? SPACE) || (c =? 58) || (c =? 92)).

Definition fold_case (c : Z) : Z := if negb (nocase opts) && is_lower c then c - 32 else c.

(** The loop over the first eight characters: [None] is [-EINVAL], otherwise what
    was written, [space], the last character read and the rest of the name. *)
Fixpoint base_loop (n : nat) (first : bool) (name : list Z) (space : bool) (c : Z) : option (list Z * bool * Z * list Z) :=
  match n, name with
  | S n, c :: name =>
    if rejected c || (strict && is_upper c) then None else
    let c := if first && (c =? 0xe5) then 5 else c in
    if c =? DOT then Some ([], space, c, name) else
    '(res, space, c', name) ← base_loop n false name (c =? SPACE) c;
    Some (fold_case c :: res, space, c', name)
  | _, _ => Some ([], space, c, name)
  end.

(** [while (c != '.' && len--) c = *name++] *)
Fixpoint skip_to_dot (c : Z) (name : list Z) : Z * list Z :=
  if c =? DOT then (c, name) else match name with [] => (c, []) | c :: name => skip_to_dot c name end.

(** The loop over the extension. *)
Fixpoint ext_loop (n : nat) (name : list Z) (space : bool) : option (list Z * bool * list Z) :=
  match n, name with
  | S n, c :: name =>
    if rejected c then None else
    if c =? DOT then if strict then None else Some ([], space, name) else
    if strict && is_upper c then None else
    '(res, space, name) ← ext_loop n name (c =? SPACE);
    Some (fold_case c :: res, space, name)
  | _, _ => Some ([], space, name)
  end.

Definition pad (n : nat) (res : list Z) : list Z := res ++ replicate (n - length res) SPACE.

(** [msdos_format_name]: the eleven characters of the name on disk, or [None] for
    [-EINVAL]. *)
Definition msdos_format_name (name : list Z) : option (list Z) :=
  let starts := default 0 (head name) =? DOT in
  if starts && negb (dotsOK opts) && negb (atari opts) then None else
  let name := if starts && dotsOK opts then drop 1 name else name in
  '(base, space, c, name) ← base_loop 8 true name (negb (atari opts)) 0;
  if (space : bool) then None else
  '(c, name) ← (if strict && negb (c =? DOT) then
                  match name with [] => Some (c, name) | c :: name => if c =? DOT then Some (c, name) else None end
                else Some (c, name));
  let '(c, name) := skip_to_dot c name in
  if c =? DOT then
    '(ext, space, name) ← ext_loop 3 name false;
    if (space : bool) then None else
    if strict && negb (bool_decide (name = [])) then None else
    Some (pad 11 (pad 8 base ++ ext))
  else Some (pad 11 base).

(** ** Comparing and hashing *)

Definition partial_name_hash (c prevhash : Z) : Z := u64 (u64 (prevhash + u64 (Z.shiftl c 4) + Z.shiftr c 4) * 11).

Definition full_name_hash (name : list Z) : Z := u32 (foldl (λ h c, partial_name_hash c h) 0 name).

(** [msdos_hash]: a name that is not valid keeps the hash it has. *)
Definition msdos_hash (name : list Z) (hash : Z) : Z :=
  match msdos_format_name name with Some msdos_name => full_name_hash msdos_name | None => hash end.

Fixpoint memcmp (a b : list Z) : Z :=
  match a, b with
  | x :: a, y :: b => if x =? y then memcmp a b else x - y
  | _, _ => 0
  end.

Definition msdos_cmp (a b : list Z) : Z :=
  match msdos_format_name a, msdos_format_name b with
  | Some a, Some b => memcmp a b
  | _, _ => if Z.of_nat (length a) =? Z.of_nat (length b) then memcmp a b else 1
  end.
End format.

(** ** Entries by name *)

Section entries.
Context (opts : fat_mount_options) (env : env) (sb : sb_info) (lay : layout) (ops : fatent_operations).
Context (needs_sync : bool) (sync_inode : Z) (alloc : bool) (sleep : finode → finode).

Definition starts_with_dot (name : list Z) : bool := default 0 (head name) =? DOT.

Definition msdos_find (name : list Z) (dir : finode) (s : fatfs) : outcome (Z * option fat_slot_info * finode * fatfs) :=
  match msdos_format_name opts name with
  | None => Ret (- ENOENT, None, dir, s)
  | Some msdos_name =>
    '(err, si, dir, s) ← fat_scan sb lay ops alloc sleep msdos_name dir s;
    match si with
    | Some sinfo =>
      if (err =? 0) && dotsOK opts then
        e ← dirent s (si_de sinfo);
        let hidden := z2b (Z.land (de_attr e) ATTR_HIDDEN) in
        if Bool.eqb (starts_with_dot name) hidden then Ret (0, si, dir, s) else Ret (- ENOENT, None, dir, s)
      else Ret (err, si, dir, s)
    | None => Ret (err, None, dir, s)
    end
  end.

(** The entry of a new file or directory. *)
Definition new_entry (name : list Z) (is_dir is_hid : bool) (cluster time date : Z) : msdos_dir_entry :=
  let attr := if is_dir then ATTR_DIR else ATTR_ARCH in
  name ++ [if is_hid then Z.lor attr ATTR_HIDDEN else attr; 0; 0] ++ le_bytes 2 0 ++ le_bytes 2 0 ++ le_bytes 2 0 ++
  le_bytes 2 (Z.shiftr cluster 16) ++ le_bytes 2 time ++ le_bytes 2 date ++ le_bytes 2 cluster ++ le_bytes 4 0.

(** [msdos_add_entry] up to the entry; what follows concerns the inode of the
    directory. *)
Definition msdos_add_de (name : list Z) (is_dir is_hid : bool) (cluster tz tv_sec : Z) (dir : finode) (s : fatfs)
    : outcome (Z * option fat_slot_info * finode * fatfs) :=
  '(time, date) ← fat_date_unix2dos tz tv_sec;
  fat_add_entries env sb lay ops needs_sync sync_inode alloc sleep (new_entry name is_dir is_hid cluster time date) 1 dir s.

(** [is_hid] of [msdos_create] and [msdos_mkdir]. *)
Definition is_hidden (name msdos_name : list Z) : bool := starts_with_dot name && negb (default 0 (head msdos_name) =? DOT).
End entries.

(** ** What a formatted name looks like *)

Section shape.
Context (opts : fat_mount_options).

(** A character that is written to disk as it is. *)
Record plain (c : Z) : Prop := {
  plain_byte : is_byte c;
  plain_ok : rejected opts c = false;
  plain_case : fold_case opts c = c;
  plain_dot : c ≠ DOT
}.

Lemma rejected_ge c : rejected opts c = false → SPACE ≤ c.
Proof. unfold rejected. intros H. apply orb_false_iff in H as [_ H]. destruct (Z.ltb_spec c SPACE); [done|lia]. Qed.

Lemma upper_cases c : 65 ≤ c ≤ 90 → rejected opts c = false.
Proof.
  intros Hc. assert (c ∉ bad_chars ∧ c ∉ bad_if_strict opts) as [H1 H2].
  { unfold bad_chars, bad_if_strict, bad_if_strict_atari, bad_if_strict_pc. destruct (atari opts); set_unfold; lia. }
  unfold rejected, strchr, SPACE. rewrite !bool_decide_eq_false_2 by done.
  destruct (Z.eqb_spec c 0), (Z.ltb_spec c 32), (Z.eqb_spec c 58), (Z.eqb_spec c 92); lia.
Qed.

Lemma plain_fold c : is_byte c → rejected opts c = false → c ≠ DOT → plain (fold_case opts c).
Proof.
  intros Hb Hr Hd. unfold fold_case. destruct (negb (nocase opts) && is_lower c) eqn:E.
  - apply andb_true_iff in E as [_ E]. unfold is_lower in E. assert (97 ≤ c ≤ 122) by lia. unfold is_byte in *.
    split; [unfold is_byte; lia|apply upper_cases; lia| |unfold DOT; lia].
    unfold fold_case, is_lower. destruct (Z.leb_spec 97 (c - 32)); [lia|]. by rewrite andb_false_r.
  - split; [done|done| |done]. unfold fold_case. by rewrite E.
Qed.

Lemma fold_space c : (fold_case opts c =? SPACE) = (c =? SPACE).
Proof.
  unfold fold_case, is_lower, SPACE. destruct (negb _); [|done]. destruct (Z.leb_spec 97 c), (Z.leb_spec c 122); try done. cbn [andb].
  destruct (Z.eqb_spec (c - 32) 32), (Z.eqb_spec c 32); lia || done.
Qed.

(** Eight or three characters: plain ones, of which the first may stand for the
    mark of a deleted file. *)
Definition start_char (first : bool) (c : Z) : Prop := plain c ∧ (first = true → c ≠ DELETED_FLAG) ∨ first = true ∧ c = 5.

Definition written (first : bool) (l : list Z) : Prop := match l with [] => True | c :: l => start_char first c ∧ Forall plain l end.

Definition ends_in_space (l : list Z) (sp : bool) : bool := match last l with Some c => c =? SPACE | None => sp end.

Lemma ends_cons c l sp : ends_in_space (c :: l) sp = ends_in_space l (c =? SPACE).
Proof.
  destruct l as [|d l]; [done|]. unfold ends_in_space. change (last (c :: d :: l)) with (last (d :: l)).
  destruct (last (d :: l)) eqn:E; [done|]. by apply last_None in E.
Qed.

Lemma written_plain l : written false l → Forall plain l.
Proof. destruct l as [|c l]; [done|]. intros [[[? _]|[? _]] ?]; [by constructor|done]. Qed.

Lemma base_loop_spec n first name sp c b sp' c' rest :
  Forall is_byte name → base_loop opts n first name sp c = Some (b, sp', c', rest) →
  (length b ≤ n)%nat ∧ written first b ∧ sp' = ends_in_space b sp ∧ Forall is_byte rest.
Proof.
  intros Hb. revert first name sp c b Hb. induction n as [|n IH]; intros first name sp c b Hb.
  { intros [= <- <- <- <-]. by cbn. }
  destruct Hb as [|d name Hd Hb]; cbn [base_loop]; [intros [= <- <- <- <-]; cbn; split_and!; lia || done|].
  destruct (rejected opts d || _) eqn:Hr; [done|]. apply orb_false_iff in Hr as [Hr _].
  set (d' := if first && (d =? 0xe5) then 5 else d). destruct (Z.eqb_spec d' DOT) as [Ed|Ed].
  { intros [= <- <- <- <-]. cbn. split_and!; lia || done. }
  destruct (base_loop opts n false name (d' =? SPACE) d') as [[[[b' sp1] c1] r1]|] eqn:E; [|done]. intros [= <- <- <- <-].
  apply IH in E as (Hl & Hw & -> & Hrest); [|done]. rewrite ends_cons, fold_space. cbn [length]. split_and!; [lia| |done|done].
  split; [|by apply written_plain]. subst d'. unfold start_char. destruct first; cbn [andb] in *.
  - destruct (Z.eqb_spec d 0xe5) as [->|Hne].
    + right. split; [done|]. unfold fold_case. by rewrite andb_false_r.
    + left. split; [by apply plain_fold|]. intros _. unfold fold_case, is_lower, DELETED_FLAG. destruct (negb _); [|done].
      destruct (Z.leb_spec 97 d), (Z.leb_spec d 122); cbn [andb]; lia || done.
  - left. split; [by apply plain_fold|done].
Qed.

Lemma ext_loop_spec n name sp e sp' rest :
  Forall is_byte name → ext_loop opts n name sp = Some (e, sp', rest) → (length e ≤ n)%nat ∧ Forall plain e ∧ sp' = ends_in_space e sp.
Proof.
  intros Hb. revert name sp e Hb. induction n as [|n IH]; intros name sp e Hb.
  { by intros [= <- <- <-]. }
  destruct Hb as [|d name Hd Hb]; cbn [ext_loop]; [intros [= <- <- <-]; cbn; split_and!; lia || done|].
  destruct (rejected opts d) eqn:Hr; [done|]. destruct (Z.eqb_spec d DOT) as [Ed|Ed].
  { destruct (strict opts); [done|]. intros [= <- <- <-]. cbn. split_and!; lia || done. }
  destruct (strict opts && is_upper d); [done|].
  destruct (ext_loop opts n name (d =? SPACE)) as [[[e' sp1] r1]|] eqn:E; [|done]. intros [= <- <- <-].
  apply IH in E as (Hl & Hw & ->); [|done]. rewrite ends_cons, fold_space. cbn [length]. split_and!; [lia| |done].
  constructor; [by apply plain_fold|done].
Qed.
Lemma skip_bytes c name c' rest : Forall is_byte name → skip_to_dot c name = (c', rest) → Forall is_byte rest.
Proof.
  intros H. revert c. induction H as [|d name Hd Hn IH]; intros c; cbn [skip_to_dot]; destruct (c =? DOT); try (by intros [= _ <-]).
  - intros [= _ <-]. by constructor.
  - apply IH.
Qed.

Lemma length_pad n l : (length l ≤ n)%nat → length (pad n l) = n.
Proof. intros. unfold pad. rewrite length_app, length_replicate. lia. Qed.

Lemma pad_parts b e : (length b ≤ 8)%nat → pad 11 (pad 8 b ++ e) = pad 8 b ++ pad 3 e.
Proof. intros. unfold pad at 1 3. rewrite <- app_assoc, length_app, length_pad by done. do 3 f_equal. Qed.

Lemma pad_base b : (length b ≤ 8)%nat → pad 11 b = pad 8 b ++ pad 3 [].
Proof.
  intros. unfold pad. cbn [length app]. rewrite <- app_assoc, <- replicate_add. do 2 f_equal. lia.
Qed.

Lemma format_parts name res :
  Forall is_byte name → msdos_format_name opts name = Some res →
  ∃ b e, res = pad 8 b ++ pad 3 e ∧ (length b ≤ 8)%nat ∧ (length e ≤ 3)%nat ∧ written true b ∧ Forall plain e ∧
    ends_in_space b (negb (atari opts)) = false ∧ ends_in_space e false = false.
Proof.
  intros Hb. unfold msdos_format_name. destruct (_ && _ && _); [done|]. set (name' := if _ : bool then _ else _).
  assert (Forall is_byte name') as Hn by (unfold name'; destruct (_ && _); [by apply Forall_drop|done]). clearbody name'.
  destruct (base_loop opts 8 true name' _ 0) as [[[[b sp] c] nm]|] eqn:E; [|done]. cbn [mbind option_bind].
  apply base_loop_spec in E as (Hl & Hw & Esp & Hnm); [|done]. destruct sp; [done|].
  match goal with |- context [mbind ?f ?x] => destruct x as [[c1 nm1]|] eqn:E1; [|done] end. cbn [mbind option_bind].
  assert (Forall is_byte nm1) as Hnm1.
  { destruct (_ && _); [|by injection E1 as <- <-]. destruct Hnm as [|d nm Hd Hnm]; [by injection E1 as <- <-|].
    destruct (d =? DOT); [by injection E1 as <- <-|done]. }
  destruct (skip_to_dot c1 nm1) as [c2 nm2] eqn:E2. apply skip_bytes in E2; [|done]. destruct (c2 =? DOT).
  - destruct (ext_loop opts 3 nm2 false) as [[[e sp] rest]|] eqn:E3; [|done]. cbn [mbind option_bind].
    apply ext_loop_spec in E3 as (Hl3 & He & Es3); [|done]. destruct sp; [done|]. destruct (strict opts && negb (bool_decide (rest = []))); [done|]. intros [= <-].
    exists b, e. by rewrite pad_parts.
  - intros [= <-]. exists b, []. rewrite pad_base by done. split_and!; try done. cbn. lia.
Qed.

(** ** Names as they are shown

    A formatted name shown again: the parts without the blanks they were filled up
    with, the extension after a dot. *)

Fixpoint strip (l : list Z) : list Z :=
  match l with
  | [] => []
  | c :: l => match strip l with [] => if c =? SPACE then [] else [c] | l' => c :: l' end
  end.

Definition show_first (b : list Z) : list Z := match b with c :: b => (if c =? 5 then DELETED_FLAG else c) :: b | [] => [] end.

Definition show_name (res : list Z) : list Z :=
  let b := strip (take 8 res) in let e := strip (drop 8 res) in
  show_first b ++ match e with [] => [] | _ => DOT :: e end.

Lemma strip_spaces n : strip (replicate n SPACE) = [].
Proof. induction n as [|n IH]; [done|]. cbn. by rewrite IH. Qed.

Lemma strip_pad n l : ends_in_space l false = false → strip (pad n l) = l.
Proof.
  intros Hl. unfold pad. generalize (n - length l)%nat. intros k. induction l as [|c l IH]; [apply strip_spaces|].
  rewrite ends_cons in Hl. cbn [app strip]. destruct l as [|d l].
  - cbn [app]. rewrite strip_spaces. unfold ends_in_space in Hl. cbn in Hl. by rewrite Hl.
  - rewrite IH; [done|]. by rewrite ends_cons in Hl |- *.
Qed.
End shape.

Section run.
Context (opts : fat_mount_options) (Hstrict : strict opts = false).

Lemma strict_off b : strict opts && b = false.
Proof. by rewrite Hstrict. Qed.

Lemma skip_dot rest : skip_to_dot DOT rest = (DOT, rest).
Proof. by destruct rest. Qed.

Lemma base_loop_plain n b c0 sp :
  (length b ≤ n)%nat → Forall (plain opts) b → c0 ≠ DOT →
  (∃ c, base_loop opts n false b sp c0 = Some (b, ends_in_space b sp, c, []) ∧ c ≠ DOT) ∧
  (∀ rest, ∃ c nm, base_loop opts n false (b ++ DOT :: rest) sp c0 = Some (b, ends_in_space b sp, c, nm) ∧ skip_to_dot c nm = (DOT, rest)).
Proof.
  intros Hl Hb. revert n c0 sp Hl. induction Hb as [|x b [Hx1 Hx2 Hx3 Hx4] Hb IH]; intros n c0 sp Hl Hc.
  - split; [exists c0; by destruct n|]. intros rest. destruct n as [|n]; cbn [app base_loop].
    + exists c0, (DOT :: rest). split; [done|]. cbn [skip_to_dot]. destruct (Z.eqb_spec c0 DOT); [done|apply skip_dot].
    + rewrite strict_off. assert (rejected opts DOT = false) as ->.
      { unfold rejected. rewrite strict_off. destruct (relaxed opts); by vm_compute. }
      exists DOT, rest. split; [done|apply skip_dot].
  - cbn [length] in Hl. destruct n as [|n]; [lia|]. cbn [app base_loop]. rewrite Hx2, strict_off. cbn [orb andb].
    destruct (Z.eqb_spec x DOT); [done|]. destruct (IH n x (x =? SPACE)) as [(c & -> & Hcd) IH2]; [lia|done|]. cbn [mbind option_bind].
    rewrite Hx3, ends_cons. split; [by exists c|]. intros rest. destruct (IH2 rest) as (c' & nm & -> & Hs). by exists c', nm.
Qed.

Lemma base_loop_shown n b c0 sp :
  (length b ≤ n)%nat → written opts true b → b ≠ [] →
  (∃ c, base_loop opts n true (show_first b) sp c0 = Some (b, ends_in_space b sp, c, []) ∧ c ≠ DOT) ∧
  (∀ rest, ∃ c nm, base_loop opts n true (show_first b ++ DOT :: rest) sp c0 = Some (b, ends_in_space b sp, c, nm) ∧ skip_to_dot c nm = (DOT, rest)).
Proof.
  intros Hl Hw Hne. destruct b as [|x b]; [done|]. destruct Hw as [Hx Hb]. cbn [length] in Hl. destruct n as [|n]; [lia|].
  set (y := if x =? 5 then DELETED_FLAG else x).
  assert (rejected opts y = false ∧ (if true && (y =? 0xe5) then 5 else y) = x ∧ x ≠ DOT ∧ fold_case opts x = x) as (Hy1 & Hy2 & Hx4 & Hx3).
  { unfold y. destruct Hx as [[[Hp1 Hp2 Hp3 Hp4] Hp5]|[_ ->]].
    - pose proof (rejected_ge opts x Hp2) as Hge. unfold SPACE in Hge. destruct (Z.eqb_spec x 5); [lia|]. split; [done|].
      destruct (Z.eqb_spec x 0xe5) as [E|]; [|done]. by destruct Hp5.
    - split; [|unfold fold_case; by rewrite andb_false_r]. unfold rejected. rewrite strict_off. destruct (relaxed opts); by vm_compute. }
  cbn [show_first app base_loop]. fold y. rewrite Hy1, strict_off, Hy2. cbn [orb]. destruct (Z.eqb_spec x DOT); [done|].
  destruct (base_loop_plain n b x (x =? SPACE)) as [(c & -> & Hcd) H2]; [lia|done|done|]. cbn [mbind option_bind]. rewrite Hx3, ends_cons.
  split; [by exists c|]. intros rest. destruct (H2 rest) as (c' & nm & -> & Hs). by exists c', nm.
Qed.

Lemma ext_loop_plain n e sp : (length e ≤ n)%nat → Forall (plain opts) e → ext_loop opts n e sp = Some (e, ends_in_space e sp, []).
Proof.
  intros Hl He. revert n sp Hl. induction He as [|x e [Hx1 Hx2 Hx3 Hx4] He IH]; intros n sp Hl; [by destruct n|].
  cbn [length] in Hl. destruct n as [|n]; [lia|]. cbn [ext_loop]. rewrite Hx2, strict_off. destruct (Z.eqb_spec x DOT); [done|].
  rewrite IH by lia. cbn [mbind option_bind]. by rewrite Hx3, ends_cons.
Qed.

Lemma show_start b t : written opts true b → b ≠ [] → (default 0 (head (show_first b ++ t)) =? DOT) = false.
Proof.
  destruct b as [|x b]; [done|]. intros [Hx _] _. cbn. destruct Hx as [[[_ Hr _ Hd] _]|[_ ->]]; [|done].
  pose proof (rejected_ge opts x Hr) as Hge. unfold SPACE in Hge. destruct (Z.eqb_spec x 5); [lia|]. by apply Z.eqb_neq.
Qed.

Lemma format_shown b e :
  atari opts = false → (length b ≤ 8)%nat → (length e ≤ 3)%nat → written opts true b → Forall (plain opts) e →
  ends_in_space b true = false → ends_in_space e false = false →
  msdos_format_name opts (show_first b ++ match e with [] => [] | _ => DOT :: e end) = Some (pad 8 b ++ pad 3 e).
Proof.
  intros Ha Hb He Hw Hp Eb Ee. assert (b ≠ []) as Hne by (by intros ->). unfold msdos_format_name. rewrite show_start by done. cbn [andb]. rewrite Ha. cbn [negb].
  destruct (base_loop_shown 8 b 0 true Hb Hw Hne) as [(c & E1 & Hc) E2]. destruct e as [|x e].
  - rewrite app_nil_r, E1. cbn [mbind option_bind]. rewrite Eb, strict_off. cbn [mbind option_bind skip_to_dot].
    destruct (Z.eqb_spec c DOT) as [|Hn]; [done|]. rewrite (proj2 (Z.eqb_neq c DOT) Hn). by rewrite pad_base.
  - destruct (E2 (x :: e)) as (c' & nm & -> & Hs). cbn [mbind option_bind]. rewrite Eb, strict_off. cbn [mbind option_bind]. rewrite Hs.
    change (DOT =? DOT) with true. cbv iota. rewrite ext_loop_plain by done. cbn [mbind option_bind]. rewrite Ee, strict_off. by rewrite pad_parts.
Qed.
End run.

Lemma bytes_of_range s : Forall is_byte (bytes_of s).
Proof.
  unfold bytes_of. apply Forall_fmap, Forall_true. intros a. cbn. unfold is_byte. pose proof (Ascii.N_ascii_bounded a). lia.
Qed.

(** What may stand at a place of a formatted name. *)
Lemma formatted_char opts b e i c :
  written opts true b → Forall (plain opts) e → (pad 8 b ++ pad 3 e) !! i = Some c →
  c = SPACE ∨ plain opts c ∧ (i = 0%nat → c ≠ DELETED_FLAG) ∨ i = 0%nat ∧ c = 5.
Proof.
  intros Hw He Hi. assert (∀ n (P : Prop), replicate n SPACE !! i = Some c → c = SPACE ∨ P) as Hs by (intros n P H; apply lookup_replicate in H; tauto).
  destruct b as [|x b]; unfold pad in Hi.
  - apply lookup_app_Some in Hi as [Hi|[Hlen Hi]]; [cbn [app] in Hi; apply lookup_replicate in Hi; tauto|].
    apply lookup_app_Some in Hi as [Hi|[_ Hi]]; [|apply lookup_replicate in Hi; tauto].
    right. left. split; [exact (Forall_lookup_1 _ _ _ _ He Hi)|]. intros ->. cbn in Hlen. lia.
  - destruct Hw as [Hx Hb]. destruct i as [|i].
    { cbn in Hi. injection Hi as <-. destruct Hx as [[Hp Hd]|[_ ->]]; auto. }
    rewrite <- app_assoc in Hi. cbn [app lookup list_lookup] in Hi. apply lookup_app_Some in Hi as [Hi|[_ Hi]].
    { right. left. split; [exact (Forall_lookup_1 _ _ _ _ Hb Hi)|done]. }
    apply lookup_app_Some in Hi as [Hi|[_ Hi]]; [apply lookup_replicate in Hi; tauto|].
    apply lookup_app_Some in Hi as [Hi|[_ Hi]]; [|apply lookup_replicate in Hi; tauto].
    right. left. split; [exact (Forall_lookup_1 _ _ _ _ He Hi)|done].
Qed.

(** A formatted name is one that may stand in a directory: eleven characters,
    never the mark of a free or deleted entry in front, no dot anywhere, so that
    it is not one of the entries [.] and [..], nothing below a blank but the 5
    that stands for 0xE5 in front, and no lower case unless [nocase] is set. *)
Theorem format_name_valid opts name res :
  Forall is_byte name → msdos_format_name opts name = Some res →
  length res = MSDOS_NAME ∧ IS_FREE res = false ∧ DOT ∉ res ∧
  (∀ i c, res !! i = Some c → 32 ≤ c < 256 ∨ i = 0%nat ∧ c = 5) ∧
  (nocase opts = false → Forall (λ c, is_lower c = false) res).
Proof.
  intros Hn E. destruct (format_parts opts name res Hn E) as (b & e & -> & Hb & He & Hw & Hp & _).
  assert (∀ c, plain opts c → 32 ≤ c < 256 ∧ c ≠ DOT ∧ (nocase opts = false → is_lower c = false)) as Hplain.
  { intros c [Hc1 Hc2 Hc3 Hc4]. pose proof (rejected_ge opts c Hc2). unfold SPACE, is_byte in *. split; [lia|]. split; [done|].
    intros Hno. unfold fold_case in Hc3. rewrite Hno in Hc3. destruct (is_lower c) eqn:El; [|done]. cbn [negb andb] in Hc3. lia. }
  pose proof (λ i c, formatted_char opts b e i c Hw Hp) as Hchar. assert (length (pad 8 b ++ pad 3 e) = 11%nat) as Hlen by (by rewrite length_app, !length_pad).
  set (res := pad 8 b ++ pad 3 e) in *. split; [done|]. split_and!.
  - destruct res as [|c res]; [done|]. unfold IS_FREE. cbn [head default]. unfold id.
    destruct (Hchar 0%nat c eq_refl) as [-> | [[Hc Hd]|[_ ->]]]; [done| |done]. apply Hplain in Hc as [Hr _].
    destruct (Z.eqb_spec c 0), (Z.eqb_spec c DELETED_FLAG); lia.
  - intros (i & Hi)%list_elem_of_lookup_1. destruct (Hchar i DOT Hi) as [?|[[Hc _]|[_ ?]]]; [done| |done]. by apply Hplain in Hc as (_ & ? & _).
  - intros i c Hi. destruct (Hchar i c Hi) as [-> | [[Hc _]|[-> ->]]]; [by left| |by right]. left. by apply Hplain.
  - intros Hno. apply Forall_lookup_2. intros i c Hi. destruct (Hchar i c Hi) as [-> | [[Hc _]|[_ ->]]]; [done| |done]. by apply Hplain.
Qed.

Lemma format_name_valid_witness :
  msdos_format_name (NameOptions false false false 110) (bytes_of "a.txt") = Some (bytes_of "A       TXT") ∧ IS_FREE (bytes_of "A       TXT") = false.
Proof.
  destruct (format_name_valid (NameOptions false false false 110) (bytes_of "a.txt") (bytes_of "A       TXT")) as (_ & H & _).
  - apply bytes_of_range.
  - vm_compute. reflexivity.
  - split; [vm_compute; reflexivity|exact H].
Defined.

(** Showing a formatted name and formatting it again gives the same name, for
    every name that is accepted with the checks [n] and [r]. *)
Theorem format_name_roundtrip opts name res :
  Forall is_byte name → strict opts = false → atari opts = false → msdos_format_name opts name = Some res →
  msdos_format_name opts (show_name res) = Some res.
Proof.
  intros Hn Hs Ha E. destruct (format_parts opts name res Hn E) as (b & e & -> & Hb & He & Hw & Hp & Eb & Ee). rewrite Ha in Eb. cbn [negb] in Eb.
  assert (ends_in_space b false = false) as Eb' by (unfold ends_in_space in *; by destruct (last b)).
  unfold show_name. rewrite take_app_exact, drop_app_exact, !strip_pad by (done || by rewrite length_pad). by apply format_shown.
Qed.

Lemma format_name_roundtrip_witness :
  show_name (bytes_of "A       TXT") = bytes_of "A.TXT" ∧
  msdos_format_name (NameOptions false false false 110) (show_name (bytes_of "A       TXT")) = Some (bytes_of "A       TXT").
Proof.
  split; [vm_compute; reflexivity|]. apply (format_name_roundtrip _ (bytes_of "a.txt")); [apply bytes_of_range|reflexivity..].
Defined.

(** ** Names that are the same *)

Lemma memcmp_refl a : memcmp a a = 0.
Proof. induction a as [|x a IH]; [done|]. cbn. by rewrite Z.eqb_refl. Qed.

Lemma memcmp_zero a b : length a = length b → memcmp a b = 0 ↔ a = b.
Proof.
  intros Hl. split; [|intros ->; apply memcmp_refl]. revert b Hl. induction a as [|x a IH]; intros [|y b] Hl; try done. cbn [memcmp].
  destruct (Z.eqb_spec x y) as [->|]; [|lia]. intros H. f_equal. apply IH; [by injection Hl|done].
Qed.

Section same.
Context (opts : fat_mount_options).

Lemma format_length name res : Forall is_byte name → msdos_format_name opts name = Some res → length res = 11%nat.
Proof. intros Hn E. destruct (format_parts opts name res Hn E) as (b & e & -> & ? & ? & _). by rewrite length_app, !length_pad. Qed.

(** What the comparison looks at: the formatted name, or the name itself. *)
Definition name_key (name : list Z) : list Z + list Z := match msdos_format_name opts name with Some res => inl res | None => inr name end.

Lemma msdos_cmp_key a b : Forall is_byte a → Forall is_byte b → msdos_cmp opts a b = 0 ↔ name_key a = name_key b.
Proof.
  intros Ha Hb. unfold msdos_cmp, name_key. assert ((if Z.of_nat (length a) =? Z.of_nat (length b) then memcmp a b else 1) = 0 ↔ a = b) as Hab.
  { destruct (Z.eqb_spec (Z.of_nat (length a)) (Z.of_nat (length b))); [apply memcmp_zero; lia|]. split; [done|by intros ->]. }
  destruct (msdos_format_name opts a) as [ra|] eqn:Ea, (msdos_format_name opts b) as [rb|] eqn:Eb.
  - rewrite memcmp_zero by (by rewrite (format_length a ra), (format_length b rb)). split; [by intros ->|by intros [= ->]].
  - rewrite Hab. split; [intros ->; by rewrite Ea in Eb|done].
  - rewrite Hab. split; [intros ->; by rewrite Ea in Eb|done].
  - rewrite Hab. split; [by intros ->|by intros [= ->]].
Qed.
End same.

(** What the directory cache asks of its comparison and hash: the comparison
    of MS-DOS names is an equivalence, and names that compare equal hash equal,
    when the cache starts the same name with the same hash. *)
Theorem msdos_names_hash opts a b c ha hb :
  Forall is_byte a → Forall is_byte b → Forall is_byte c → (a = b → ha = hb) →
  msdos_cmp opts a a = 0 ∧
  (msdos_cmp opts a b = 0 → msdos_cmp opts b a = 0) ∧
  (msdos_cmp opts a b = 0 → msdos_cmp opts b c = 0 → msdos_cmp opts a c = 0) ∧
  (msdos_cmp opts a b = 0 → msdos_hash opts a ha = msdos_hash opts b hb).
Proof.
  intros Ha Hb Hc Hh. rewrite !msdos_cmp_key by done. split; [done|]. split; [done|]. split; [by intros -> ->|].
  unfold name_key, msdos_hash. destruct (msdos_format_name opts a), (msdos_format_name opts b); intros [= E]; [by rewrite E|by apply Hh].
Qed.

Lemma msdos_names_hash_witness :
  let opts := NameOptions false false false 110 in
  msdos_cmp opts (bytes_of "a.txt") (bytes_of "A.Txt") = 0 ∧
  msdos_hash opts (bytes_of "a.txt") 1 = msdos_hash opts (bytes_of "A.Txt") 2.
Proof.
  intros opts. destruct (msdos_names_hash opts (bytes_of "a.txt") (bytes_of "A.Txt") [] 1 2) as (_ & _ & _ & H).
  - apply bytes_of_range.
  - apply bytes_of_range.
  - constructor.
  - discriminate.
  - split; [vm_compute; reflexivity|]. apply H. vm_compute. reflexivity.
Defined.

(** With [dotsOK] a name and the name with a dot in front compare equal, so that
    the directory cache takes one for the other, while a search of the directory
    finds at most one of them. *)
Theorem msdos_dots_confused opts sb lay ops alloc sleep name res dir s :
  Forall is_byte name → dotsOK opts = true → starts_with_dot name = false → msdos_format_name opts name = Some res →
  msdos_cmp opts (DOT :: name) name = 0 ∧
  ∀ si d1 s1 si' d2 s2,
    msdos_find opts sb lay ops alloc sleep (DOT :: name) dir s = Ret (0, Some si, d1, s1) →
    msdos_find opts sb lay ops alloc sleep name dir s ≠ Ret (0, Some si', d2, s2).
Proof.
  intros Hn Hdots Hstart E. assert (msdos_format_name opts (DOT :: name) = Some res) as E'.
  { rewrite <- E. unfold msdos_format_name. unfold starts_with_dot in Hstart. rewrite Hstart, Hdots. cbn [head default negb andb].
    change (id DOT =? DOT) with true. reflexivity. }
  split; [unfold msdos_cmp; rewrite E, E'; apply memcmp_refl|]. intros si d1 s1 si' d2 s2. unfold msdos_find. rewrite E, E', Hdots, Hstart.
  change (starts_with_dot (DOT :: name)) with true.
  destruct (fat_scan sb lay ops alloc sleep res dir s) as [[[[err r] d] t]| | |]; [|done..]. cbn [mbind outcome_bind].
  destruct r as [r|]; [|done]. destruct (Z.eqb_spec err 0) as [->|]; cbn [andb]; [|by intros [= ? _ _ _]].
  destruct (dirent t (si_de r)) as [e| | |]; [|done..]. cbn [mbind outcome_bind]. by destruct (z2b (Z.land (de_attr e) ATTR_HIDDEN)).
Qed.

(** ** Creating and finding *)

Lemma new_entry_spec opts name res dir hid cluster time date :
  Forall is_byte name → msdos_format_name opts name = Some res →
  let e := new_entry res dir hid cluster time date in
  length e = 32%nat ∧ de_name e = res ∧ is_short e = true ∧ z2b (Z.land (de_attr e) ATTR_HIDDEN) = hid.
Proof.
  intros Hn E e. pose proof (format_length opts name res Hn E) as Hl. destruct (format_parts opts name res Hn E) as (b & x & Er & _ & _ & Hw & Hp & _).
  assert (de_name e = res) as Hname by (unfold de_name, e, new_entry; by rewrite take_app_exact).
  assert (de_attr e = if hid then Z.lor (if dir then ATTR_DIR else ATTR_ARCH) ATTR_HIDDEN else if dir then ATTR_DIR else ATTR_ARCH) as Hattr.
  { unfold de_attr, e, new_entry. rewrite lookup_app_r by (rewrite Hl; unfold MSDOS_NAME; lia). by rewrite Hl. }
  split; [unfold e, new_entry; rewrite !length_app, !length_le_bytes, Hl; done|]. split; [done|]. split; [|rewrite Hattr; by destruct hid, dir].
  unfold is_short. rewrite Hname, Hattr. assert (IS_FREE res = false) as ->; [|by destruct hid, dir].
  destruct res as [|c res]; [done|]. unfold IS_FREE. cbn [head default]. unfold id.
  assert ((pad 8 b ++ pad 3 x) !! 0%nat = Some c) as Hc by (by rewrite <- Er).
  apply (formatted_char opts) in Hc as [-> | [[[_ Hr _ _] Hd]|[_ ->]]]; try done. apply rejected_ge in Hr. unfold SPACE in Hr.
  destruct (Z.eqb_spec c 0), (Z.eqb_spec c DELETED_FLAG); lia.
Qed.

Lemma hidden_by_dot opts name res :
  Forall is_byte name → msdos_format_name opts name = Some res → is_hidden name res = starts_with_dot name.
Proof.
  intros Hn E. destruct (format_parts opts name res Hn E) as (b & x & -> & _ & _ & Hw & Hp & _). unfold is_hidden.
  destruct (head (pad 8 b ++ pad 3 x)) as [c|] eqn:Hh; [|by rewrite andb_true_r].
  rewrite head_lookup in Hh. apply (formatted_char opts) in Hh as [-> | [[[_ _ _ Hd] _]|[_ ->]]]; try done; cbn [default]; unfold id; [by rewrite andb_true_r| |by rewrite andb_true_r].
  rewrite (proj2 (Z.eqb_neq c DOT) Hd). by rewrite andb_true_r.
Qed.

(** A file that is created is found under every spelling of its name.  When
    the formatted name is absent and a slot is free, the entry goes to the first
    free slot, other entries stay as they are, and a search for any name with the
    same formatted name finds it, where [dotsOK] takes names with and without a
    dot in front apart. *)
Theorem msdos_add_find opts env sb lay ops alloc sleep inv good blocks phys `{!DirMap sb lay ops alloc sleep inv good blocks phys}
    needs_sync sync_inode name other res is_dir cluster tz now dir dir0 s :
  quiet env → good s → inv dir → nr_entries sb blocks * 32 < FAT_MAX_DIR_SIZE →
  Forall is_byte name → msdos_format_name opts name = Some res →
  Forall is_byte other → msdos_format_name opts other = Some res → starts_with_dot other = starts_with_dot name →
  fat_scan sb lay ops alloc sleep res dir s = Ret (- ENOENT, None, dir0, s) →
  (∃ k, 0 ≤ k < nr_entries sb blocks ∧ free_at sb phys s k = true) →
  ∃ j d1 s1 d2, first_from sb blocks (free_at sb phys s) 0 (Some j) ∧
    msdos_add_de env sb lay ops needs_sync sync_inode alloc sleep res is_dir (is_hidden name res) cluster tz now dir s =
      Ret (0, Some (found sb lay phys j), d1, s1) ∧
    msdos_find opts sb lay ops alloc sleep other d1 s1 = Ret (0, Some (found sb lay phys j), d2, s1) ∧
    de_name (entry_of sb phys s1 j) = res ∧
    ∀ k, 0 ≤ k < nr_entries sb blocks → k ≠ j → entry_of sb phys s1 k = entry_of sb phys s k.
Proof.
  intros Hq Hs Hi Hmax Hn E Ho Eo Hdot Habs Hfree.
  destruct (unix2dos_total tz now) as (time & date & Ed).
  destruct (new_entry_spec opts name res is_dir (is_hidden name res) cluster time date Hn E) as (Hlen & Hname & Hshort & Hhid).
  set (slot := new_entry res is_dir (is_hidden name res) cluster time date) in *. rewrite <- Hname in Habs.
  destruct (add_found env sb lay ops alloc sleep inv good blocks phys needs_sync sync_inode slot dir dir0 s Hq Hs Hi Hmax Hlen Hshort Habs Hfree)
    as (j & d1 & s1 & Hr & Hi1 & Hs1 & Ea & V1 & _ & Hscan). pose proof Hr as (Hj & _). rewrite Hname in Hscan.
  destruct (Hscan _ Hi1) as (d2 & E2 & _). eexists j, _, s1, d2. split; [exact Hr|]. split.
  { unfold msdos_add_de. rewrite Ed. cbn [mbind outcome_bind]. fold slot. by rewrite Ea. }
  split; [|split; [by rewrite V1, decide_True|by intros k Hk Hne; rewrite V1, decide_False]].
  unfold msdos_find. rewrite Eo, E2. cbn [mbind outcome_bind]. change (0 =? 0) with true. cbn [andb]. destruct (dotsOK opts); [|done].
  change (si_de (found sb lay phys j)) with (place_of sb phys j). rewrite (dirent_spec sb lay ops alloc sleep inv good blocks phys s1 Hs1 j Hj). cbn [mbind outcome_bind].
  rewrite V1, decide_True by done. rewrite Hhid, (hidden_by_dot opts name res Hn E), Hdot. by rewrite Bool.eqb_reflx.
Qed.

(** ** Examples *)

Definition normal_opts : fat_mount_options := NameOptions true false false 110.

Lemma msdos_add_find_witness :
  ∃ j d1 s1 d2,
    msdos_add_de Sample.quiet_env Sample.sb16 sample_layout fat16_ops false 0 true (λ i, i) (bytes_of "C       TXT") false true 0 0 1400000001 root_inode root_fs =
      Ret (0, Some (found Sample.sb16 sample_layout (root_phys sample_layout) j), d1, s1) ∧
    msdos_find normal_opts Sample.sb16 sample_layout fat16_ops true (λ i, i) (bytes_of ".C.Txt") d1 s1 =
      Ret (0, Some (found Sample.sb16 sample_layout (root_phys sample_layout) j), d2, s1).
Proof.
  pose proof (msdos_add_find normal_opts Sample.quiet_env Sample.sb16 sample_layout fat16_ops true (λ i, i) _ _ _ _ (DirMap0 := sample_root) false 0
    (bytes_of ".c.txt") (bytes_of ".C.Txt") (bytes_of "C       TXT") false 0 0 1400000001 root_inode root_inode root_fs Sample.quiet_ok root_fs_good eq_refl) as H.
  destruct H as (j & d1 & s1 & d2 & _ & H1 & H2 & _).
  - by vm_compute.
  - apply bytes_of_range.
  - vm_compute. reflexivity.
  - apply bytes_of_range.
  - vm_compute. reflexivity.
  - reflexivity.
  - vm_compute. reflexivity.
  - exists 2. split; [split; by vm_compute|]. vm_compute. reflexivity.
  - exists j, d1, s1, d2. split; [exact H1|exact H2].
Defined.
