(* ===== verification/Vfat.v ===== *)
(** Names of the VFAT file system: [fs/vfat/namei.c] up to the creation of
    directory entries.  A long name is translated to sixteen bit characters, gets a
    short name that is not in use in the directory, and becomes the slots of
    [FatLong].  The calls on names are in [VfatOps]. *)

From stdpp Require Import strings.
From S2P Require Import Prelude Fat12 Fatent FatentLaws FatAlloc FatDate FatCache FatFile FatDir FatSlots Nls FatLong Msdos.

Definition EEXIST : Z := 17.
Definition ENAMETOOLONG : Z := 36.
Definition VFAT_SFN_CREATE_WIN95 : Z := 0x100.
Definition VFAT_SFN_CREATE_WINNT : Z := 0x200.

(** ** Comparing and hashing *)

Fixpoint strip_dots (rev_name : list Z) : list Z := match rev_name with c :: l => if c =? DOT then strip_dots l else rev_name | [] => [] end.

(** The name less the dots at its end; the source has its length. *)
Definition vfat_striptail (name : list Z) : list Z := reverse (strip_dots (reverse name)).

Definition vfat_hash (name : list Z) : Z := full_name_hash (vfat_striptail name).
Definition vfat_hashi (t : nls_table) (name : list Z) : Z := full_name_hash (nls_tolower t <$> vfat_striptail name).

Definition vfat_cmpi (t : nls_table) (a b : list Z) : Z :=
  let a := vfat_striptail a in
  let b := vfat_striptail b in
  if (length a =? length b)%nat && nls_strnicmp t (length a) a b then 0 else 1.

Definition vfat_cmp (a b : list Z) : Z :=
  let a := vfat_striptail a in
  let b := vfat_striptail b in
  if (length a =? length b)%nat && strncmp_eq (length a) a b then 0 else 1.

(** ** Characters *)

Definition vfat_bad_char (w : Z) : bool := (w <? 0x20) || bool_decide (w ∈ [42; 63; 60; 62; 124; 34; 58; 47; 92]).
Definition vfat_replace_char (w : Z) : bool := bool_decide (w ∈ [91; 93; 59; 44; 43; 61]).
Definition vfat_skip_char (w : Z) : bool := (w =? 46) || (w =? 32).

Definition vfat_is_used_badchars (s : list Z) : Z := if existsb vfat_bad_char s then - EINVAL else 0.

Definition vfat_valid_longname (name : list Z) : Z :=
  if default 0 (last name) =? 32 then - EINVAL else if (256 <=? length name)%nat then - ENAMETOOLONG else 0.

Record shortname_info := ShortInfo { sn_lower : bool; sn_upper : bool; sn_valid : bool }.
Definition INIT_SHORTNAME_INFO : shortname_info := ShortInfo true true true.
Definition not_valid (i : shortname_info) : shortname_info := ShortInfo (sn_lower i) (sn_upper i) false.
Definition no_case (i : shortname_info) : shortname_info := ShortInfo false false (sn_valid i).

(** [isalpha] of the kernel. *)
Definition k_isalpha (c : Z) : bool :=
  is_upper c || is_lower c || ((192 <=? c) && (c <=? 214)) || ((216 <=? c) && (c <=? 246)) || ((248 <=? c) && (c <=? 255)).

(** The bytes of a character in a short name, none if it is left out. *)
Definition to_shortname_char (t : nls_table) (src : Z) (info : shortname_info) : list Z * shortname_info :=
  if vfat_skip_char src then ([], not_valid info) else
  if vfat_replace_char src then ([95], not_valid info) else
  match uni2char t src with
  | [] => ([95], not_valid info)
  | [prev] =>
    let info := if 0x7f <=? prev then no_case info else info in
    let c := nls_toupper t prev in
    ([c], if k_isalpha c then if c =? prev then ShortInfo false (sn_upper info) (sn_valid info) else ShortInfo (sn_lower info) false (sn_valid info) else info)
  | x => (x, no_case info)
  end.

(** ** Making a short name *)

(** The parts before and after the last dot, as the source takes them: all of the
    name where it has no dot, ends in one, or has nothing else before it. *)
Definition split_name (uname : list Z) : list Z * option (list Z) :=
  match list_find (λ c, c = DOT) (reverse uname) with
  | None => (uname, None)
  | Some (n, _) =>
    let base := take (length uname - 1 - n) uname in
    if (n =? 0)%nat || forallb vfat_skip_char base then (uname, None) else (base, Some (drop (length uname - n) uname))
  end.

(** What the first loop computes: the base name and where a number may start. *)
Record base_part := BasePart { bp_base : list Z; numtail_baselen : nat; numtail2_baselen : nat; bp_info : shortname_info; bp_short : bool }.

Fixpoint shortbase_loop (t : nls_table) (ip : list Z) (b : base_part) : base_part :=
  match ip with
  | [] => b
  | c :: ip =>
    let '(x, info) := to_shortname_char t c (bp_info b) in
    let baselen := length (bp_base b) in
    let chl := length x in
    if (chl =? 0)%nat then shortbase_loop t ip (BasePart (bp_base b) (numtail_baselen b) (numtail2_baselen b) info (bp_short b)) else
    let n2 := if (baselen <? 2)%nat && (2 <? baselen + chl)%nat then baselen else numtail2_baselen b in
    let n := if (baselen <? 6)%nat && (6 <? baselen + chl)%nat then baselen else numtail_baselen b in
    let base := bp_base b ++ take (8 - baselen) x in
    if (8 <=? length base)%nat
    then BasePart base n n2 info (if (8 - baselen <? chl)%nat || negb (bool_decide (ip = [])) then false else bp_short b)
    else shortbase_loop t ip (BasePart base n n2 info (bp_short b))
  end.

(** The extension, its characters and whether the name is short still. *)
Fixpoint shortext_loop (t : nls_table) (ip ext : list Z) (info : shortname_info) (short : bool) : list Z * shortname_info * bool :=
  match ip with
  | [] => (ext, info, short)
  | c :: ip =>
    if (3 <=? length ext)%nat then (ext, info, short) else
    let '(x, info) := to_shortname_char t c info in
    if (length x =? 0)%nat then shortext_loop t ip ext info short else
    if (3 <? length ext + length x)%nat then (ext, info, false) else
    let ext := ext ++ x in
    if (3 <=? length ext)%nat then (ext, info, if bool_decide (ip = []) then short else false) else shortext_loop t ip ext info short
  end.

(** [sprintf(buf, "%04X", i)] of a number of four digits. *)
Definition hex4 (i : Z) : list Z := (λ k, let d := Z.land (Z.shiftr i (4 * k)) 0xf in if 9 <? d then d + 55 else d + 48) <$> [3; 2; 1; 0].

Section short.
Context (sb : sb_info) (lay : layout) (ops : fatent_operations) (alloc : bool) (sleep : finode → finode).

(** Whether the name is in use. *)
Definition vfat_find_form (name : list Z) (dir : finode) (s : fatfs) : outcome (bool * finode * fatfs) :=
  '(err, _, dir, s) ← fat_scan sb lay ops alloc sleep name dir s; Ret (err =? 0, dir, s).

(** The names with [~1] to [~9]: the first that is free, or the last one tried. *)
Fixpoint digit_loop (n : nat) (i baselen : Z) (name_res : list Z) (dir : finode) (s : fatfs) : outcome (bool * list Z * finode * fatfs) :=
  match n with
  | O => Ret (false, name_res, dir, s)
  | S n =>
    name_res ← aset name_res (baselen + 1) (i + 48);
    '(used, dir, s) ← vfat_find_form name_res dir s;
    if (used : bool) then digit_loop n (i + 1) baselen name_res dir s else Ret (true, name_res, dir, s)
  end.

(** The names with four digits from the clock.  A negative number has eight
    digits, and with its terminator does not fit into [buf]. *)
Fixpoint jiffies_loop (fuel : nat) (i baselen : Z) (name_res : list Z) (dir : finode) (s : fatfs) : outcome (list Z * finode * fatfs) :=
  match fuel with
  | O => NoFuel
  | S fuel =>
    if i <? 0 then Undef else
    name_res ← put_at (Z.to_nat baselen) (hex4 i) name_res;
    '(used, dir, s) ← vfat_find_form name_res dir s;
    if (used : bool) then jiffies_loop fuel (i - 11) baselen name_res dir s else Ret (name_res, dir, s)
  end.

(** A number after the base name, up to [baselen] characters of which are kept;
    the clock is read twice. *)
Definition numbered_name (jiffies jiffies' : Z) (b : base_part) (name_res : list Z) (dir : finode) (s : fatfs) : outcome (list Z * finode * fatfs) :=
  let baselen := Z.of_nat (length (bp_base b)) in
  '(baselen, name_res) ← (if 6 <? baselen then name_res ← aset name_res 7 SPACE; Ret (Z.of_nat (numtail_baselen b), name_res) else Ret (baselen, name_res));
  name_res ← aset name_res baselen 126;
  '(free, name_res, dir, s) ← digit_loop 9 1 baselen name_res dir s;
  if (free : bool) then Ret (name_res, dir, s) else
  let i := Z.land jiffies 0xffff in
  let sz := Z.land (Z.shiftr jiffies' 16) 7 in
  '(baselen, name_res) ← (if 2 <? baselen then name_res ← aset name_res 7 SPACE; Ret (Z.of_nat (numtail2_baselen b), name_res) else Ret (baselen, name_res));
  name_res ← aset name_res (baselen + 4) 126;
  name_res ← aset name_res (baselen + 5) (49 + sz);
  jiffies_loop (S (S (Z.to_nat i))) i baselen name_res dir s.

(** The result, and the name and case flags if it is not negative. *)
Definition vfat_create_shortname (o : vfat_options) (jiffies jiffies' : Z) (uname : list Z) (dir : finode) (s : fatfs) : outcome (Z * list Z * Z * finode * fatfs) :=
  let t := nls_disk o in
  let '(upart, ext_start) := split_name uname in
  let b := shortbase_loop t upart (BasePart [] 6 2 INIT_SHORTNAME_INFO true) in
  if bool_decide (bp_base b = []) then Ret (- EINVAL, [], 0, dir, s) else
  let '(ext, ext_info, is_shortname) :=
    match ext_start with Some ip => shortext_loop t ip [] INIT_SHORTNAME_INFO (bp_short b) | None => ([], INIT_SHORTNAME_INFO, bp_short b) end in
  let base_info := bp_info b in
  let base := match bp_base b with c :: l => (if c =? DELETED_FLAG then 5 else c) :: l | [] => [] end in
  let name_res := pad 8 base ++ pad 3 ext in
  if is_shortname && sn_valid base_info && sn_valid ext_info then
    '(used, dir, s) ← vfat_find_form name_res dir s;
    if (used : bool) then Ret (- EEXIST, name_res, 0, dir, s) else
    if z2b (Z.land (opt_shortname o) VFAT_SFN_CREATE_WIN95) then Ret (b2z (sn_upper base_info && sn_upper ext_info), name_res, 0, dir, s) else
    if z2b (Z.land (opt_shortname o) VFAT_SFN_CREATE_WINNT) then
      if (sn_upper base_info || sn_lower base_info) && (sn_upper ext_info || sn_lower ext_info) then
        let lcase := Z.lor (if negb (sn_upper base_info) && sn_lower base_info then CASE_LOWER_BASE else 0)
                           (if negb (sn_upper ext_info) && sn_lower ext_info then CASE_LOWER_EXT else 0) in
        Ret (1, name_res, lcase, dir, s)
      else Ret (0, name_res, 0, dir, s)
    else Bug
  else
    '(free, dir, s) ← (if numtail o then Ret (false, dir, s) else '(used, dir, s) ← vfat_find_form name_res dir s; Ret (negb used, dir, s));
    if (free : bool) then Ret (0, name_res, 0, dir, s) else
    '(name_res, dir, s) ← numbered_name jiffies jiffies' b name_res dir s;
    Ret (0, name_res, 0, dir, s).
End short.

(** ** Translating a name *)

Definition hex_value (nc : Z) : option Z :=
  if (48 <=? nc) && (nc <=? 57) then Some (nc - 48) else if (97 <=? nc) && (nc <=? 102) then Some (nc - 87) else
  if (65 <=? nc) && (nc <=? 70) then Some (nc - 55) else None.

(** The four digits of an escape. *)
Fixpoint escaped (n : nat) (ip : list Z) (ec : Z) : option Z :=
  match n with
  | O => Some ec
  | S n => d ← hex_value (default 0 (head ip)); escaped n (tail ip) (Z.lor (Z.shiftl ec 4) d)
  end.

(** [ip] is what is left of the first [len] bytes; [None] is [-EINVAL].  The loop
    stops when there are 261 characters. *)
Fixpoint xlate_loop (n : nat) (escape : bool) (t : nls_table) (ip out : list Z) : option (list Z) :=
  match n, ip with
  | S n, c :: rest =>
    if escape && (c =? 58) then
      if (length ip <? 5)%nat then None else ec ← escaped 4 rest 0; xlate_loop n escape t (drop 5 ip) (out ++ [ec])
    else
      let '(charlen, u) := char2uni t ip in
      if charlen <? 0 then None else xlate_loop n escape t (drop (Z.to_nat charlen) ip) (out ++ [u])
  | _, _ => Some out
  end.

(** [name] is the whole name and [len] the number of its bytes to translate; the
    error, or the characters ([longlen] of them) and the filled characters. *)
Definition xlate_to_uni (name : list Z) (len : nat) (escape utf8 : bool) (nls : option nls_table) : outcome (Z + list Z * list Z) :=
  out ← (if utf8 then w ← utf8_mbstowcs 2048 name 4096; Ret (Some (take (length w - (length name - len)) w))
         else match nls with
              | Some t => Ret (xlate_loop 261 escape t (take len name) [])
              | None => Ret (Some (take 261 (take len name)))
              end);
  match out with
  | None => Ret (inl (- EINVAL))
  | Some w => if (260 <? length w)%nat then Ret (inl (- ENAMETOOLONG)) else Ret (inr (w, fill_name w))
  end.

(** ** Making the slots *)

Definition vfat_entry (msdos_name : list Z) (is_dir : bool) (lcase cluster time date : Z) : msdos_dir_entry :=
  msdos_name ++ [if is_dir then ATTR_DIR else ATTR_ARCH; lcase; 0] ++ le_bytes 2 time ++ le_bytes 2 date ++ le_bytes 2 date ++
  le_bytes 2 (Z.shiftr cluster 16) ++ le_bytes 2 time ++ le_bytes 2 date ++ le_bytes 2 cluster ++ le_bytes 4 0.

Section build.
Context (sb : sb_info) (lay : layout) (ops : fatent_operations) (alloc : bool) (sleep : finode → finode).
Context (o : vfat_options) (page : bool) (jiffies jiffies' tz tv_sec : Z).

(** The error, or the slots with the short entry last.  [page] says whether the
    page for the name could be allocated. *)
Definition vfat_build_slots (name : list Z) (len : nat) (is_dir : bool) (cluster : Z) (dir : finode) (s : fatfs)
    : outcome (Z * list msdos_dir_entry * finode * fatfs) :=
  let err := vfat_valid_longname (take len name) in
  if negb (err =? 0) then Ret (err, [], dir, s) else
  if negb page then Ret (- ENOMEM, [], dir, s) else
  r ← xlate_to_uni name len (unicode_xlate o) (opt_utf8 o) (Some (nls_io o));
  match r with
  | inl err => Ret (err, [], dir, s)
  | inr (w, uname) =>
    let err := vfat_is_used_badchars w in
    if negb (err =? 0) then Ret (err, [], dir, s) else
    '(err, msdos_name, lcase, dir, s) ← vfat_create_shortname sb lay ops alloc sleep o jiffies jiffies' w dir s;
    if err <? 0 then Ret (err, [], dir, s) else
    let slots := if err =? 1 then [] else long_slots msdos_name uname in
    '(time, date) ← fat_date_unix2dos tz tv_sec;
    Ret (0, slots ++ [vfat_entry msdos_name is_dir lcase cluster time date], dir, s)
  end.

Definition vfat_find (name new_page : list Z) (dir : finode) (s : fatfs) : outcome (Z * option fat_slot_info * finode * fatfs) :=
  let qname := vfat_striptail name in
  if bool_decide (qname = []) then Ret (- ENOENT, None, dir, s) else
  fat_search_long sb lay ops alloc sleep o qname (if page then Some new_page else None) dir s.

Context (env : env) (needs_sync : bool) (sync_inode : Z) (slots_ok : bool).

(** [vfat_add_entry] up to the entries; what follows concerns the inode of the
    directory.  [slots_ok] says whether there was memory for the slots. *)
Definition vfat_add_de (name : list Z) (is_dir : bool) (cluster : Z) (dir : finode) (s : fatfs)
    : outcome (Z * option fat_slot_info * finode * fatfs) :=
  let len := length (vfat_striptail name) in
  if (len =? 0)%nat then Ret (- ENOENT, None, dir, s) else
  if negb slots_ok then Ret (- ENOMEM, None, dir, s) else
  '(err, slots, dir, s) ← vfat_build_slots name len is_dir cluster dir s;
  if negb (err =? 0) then Ret (err, None, dir, s) else
  fat_add_entries env sb lay ops needs_sync sync_inode alloc sleep (mjoin slots) (Z.of_nat (length slots)) dir s.
End build.

(** ** Short names are free *)

(** A character set in which only the space is written as one. *)
Record nls_spaces (t : nls_table) : Prop := NlsSpaces {
  space_char u : u ≠ 32 → 32 ∉ uni2char t u;
  space_upper c : nls_toupper t c = 32 → c = 32
}.

Lemma toupper_nonzero t c : c ≠ 0 → nls_toupper t c ≠ 0.
Proof. unfold nls_toupper. intros. by destruct (Z.eqb_spec (charset2upper t c) 0). Qed.

Lemma to_shortname_char_ok t src info : nls_ok t → nls_spaces t → let x := (to_shortname_char t src info).1 in 0 ∉ x ∧ 32 ∉ x.
Proof.
  intros Ht Hsp. pose proof (char_nonzero t Ht src) as Hz. unfold to_shortname_char.
  assert (∀ c, c ≠ 95 → c ∉ [95]) as H95 by (by intros c Hc H%list_elem_of_singleton).
  destruct (vfat_skip_char src) eqn:Es; [cbn; split; by apply not_elem_of_nil|]. destruct (vfat_replace_char src); [cbn; split; by apply H95|].
  apply orb_false_elim in Es as [_ Es%Z.eqb_neq]. pose proof (space_char t Hsp src Es) as H32.
  destruct (uni2char t src) as [|c [|d l]]; [cbn; split; by apply H95| |done]. cbn. split; intros H%list_elem_of_singleton.
  - apply (toupper_nonzero t c); [|done]. intros ->. apply Hz. by left.
  - symmetry in H. apply (space_upper t Hsp) in H as ->. apply H32. by left.
Qed.

(** The base name fits its place, and so does a number after it. *)
Record base_ok (b : base_part) : Prop := BaseOk {
  bo_length : (length (bp_base b) ≤ 8)%nat;
  bo_numtail : (numtail_baselen b ≤ 6)%nat;
  bo_numtail2 : (numtail2_baselen b ≤ 2)%nat;
  bo_nonzero : 0 ∉ bp_base b ∧ 32 ∉ bp_base b
}.

Lemma shortbase_ok t ip b : nls_ok t → nls_spaces t → base_ok b → base_ok (shortbase_loop t ip b).
Proof.
  intros Ht Hsp. revert b. induction ip as [|c ip IH]; intros b Hb; [done|]. cbn [shortbase_loop]. pose proof (to_shortname_char_ok t c (bp_info b) Ht Hsp) as [Hz Hz'].
  destruct (to_shortname_char t c (bp_info b)) as [x info]. cbn [fst] in *. destruct Hb as [H1 H2 H3 [H4 H5]]. destruct (length x =? 0)%nat; [by apply IH|].
  assert (∀ a, a ∉ bp_base b → a ∉ x → a ∉ bp_base b ++ take (8 - length (bp_base b)) x) as H0.
  { intros a Ha Hx [?|Hin]%elem_of_app; [done|]. apply Hx. rewrite <- (take_drop (8 - length (bp_base b)) x). apply elem_of_app. by left. }
  assert (length (bp_base b ++ take (8 - length (bp_base b)) x) ≤ 8)%nat as H8 by (rewrite length_app, length_take; lia).
  match goal with |- context [if (8 <=? ?l)%nat then _ else _] => destruct (8 <=? l)%nat; [|apply IH] end;
    (split; cbn [bp_base numtail_baselen numtail2_baselen]; [done| | |split; by apply H0]);
    match goal with |- context [(?a <? ?b)%nat && _] => destruct (Nat.ltb_spec a b); cbn [andb]; [destruct (_ <? _)%nat; lia|done] end.
Qed.

Lemma shortext_ok t ip ext info short : (length ext ≤ 3)%nat → (length (shortext_loop t ip ext info short).1.1 ≤ 3)%nat.
Proof.
  revert ext info short. induction ip as [|c ip IH]; intros ext info short He; [done|]. cbn [shortext_loop]. destruct (3 <=? length ext)%nat; [done|].
  destruct (to_shortname_char t c info) as [x info']. destruct (length x =? 0)%nat; [by apply IH|]. destruct (Nat.ltb_spec 3 (length ext + length x)); [done|].
  assert (length (ext ++ x) ≤ 3)%nat by (rewrite length_app; lia). destruct (3 <=? length (ext ++ x))%nat; [done|by apply IH].
Qed.

Lemma splice_splice {A} o (x y l : list A) : length x = length y → (o + length x ≤ length l)%nat → splice o x (splice o y l) = splice o x l.
Proof.
  intros E Hl. unfold splice. rewrite take_app_le by (rewrite length_take; lia). rewrite take_take, Nat.min_id. f_equal. f_equal.
  rewrite (assoc_L (++)), drop_app_ge by (rewrite length_app, length_take; lia). rewrite length_app, length_take, drop_drop. f_equal. lia.
Qed.

Section fresh.
Context (sb : sb_info) (lay : layout) (ops : fatent_operations) (alloc : bool) (sleep : finode → finode).
Context (inv : finode → Prop) (good : fatfs → Prop) (blocks : Z) (phys : Z → Z) `{!DirMap sb lay ops alloc sleep inv good blocks phys}.
Context (s : fatfs) (Hs : good s).

(** No entry in use has the name. *)
Definition absent (name : list Z) : Prop :=
  ∀ j, 0 ≤ j < nr_entries sb blocks → live sb phys s j && strncmp_eq MSDOS_NAME (de_name (entry_of sb phys s j)) name = false.

Lemma find_form_spec name dir :
  inv dir → ∃ used dir', vfat_find_form sb lay ops alloc sleep name dir s = Ret (used, dir', s) ∧ inv dir' ∧ (used = false ↔ absent name).
Proof.
  intros Hi. destruct (scan_spec sb lay ops alloc sleep inv good blocks phys s Hs name dir Hi) as (r & d & E & Hd & Hr).
  unfold vfat_find_form. rewrite E. destruct r as [j|]; cbn [mbind outcome_bind].
  - exists true, d. split; [done|]. split; [done|]. split; [done|]. intros Ha. destruct Hr as (Hj & Hl & _). by rewrite Ha in Hl by done.
  - exists false, d. split; [done|]. split; [done|]. by split.
Qed.

Lemma digit_loop_spec n i baselen name dir :
  inv dir → length name = 11%nat → 0 ≤ baselen ≤ 6 →
  ∃ free name' dir', digit_loop sb lay ops alloc sleep n i baselen name dir s = Ret (free, name', dir', s) ∧ inv dir' ∧ length name' = 11%nat ∧
    head name' = head name ∧ (free = true → absent name').
Proof.
  intros Hi Hl Hb. revert i name dir Hi Hl. induction n as [|n IH]; intros i name dir Hi Hl; cbn [digit_loop]; [by exists false, name, dir|].
  rewrite aset_in by lia. cbn [mbind outcome_bind]. set (name1 := <[_ := _]> name). assert (length name1 = 11%nat) as Hl1 by (unfold name1; by rewrite length_insert).
  assert (head name1 = head name) as Hh by (unfold name1; replace (Z.to_nat (baselen + 1)) with (S (Z.to_nat baselen)) by lia; by destruct name).
  destruct (find_form_spec name1 dir Hi) as (used & d & -> & Hd & Hu). cbn [mbind outcome_bind]. destruct used.
  - destruct (IH (i + 1) name1 d Hd Hl1) as (free & name' & d' & E & Hd' & Hl' & Hh' & Hf). exists free, name', d'. rewrite E. split; [done|]. split; [done|].
    split; [done|]. split; [congruence|done].
  - exists true, name1, d. split; [done|]. split; [done|]. split; [done|]. split; [done|]. intros _. by apply Hu.
Qed.

(** Every name the clock can give is in use. *)
Definition crowded (i baselen : Z) (name : list Z) : Prop := ∀ m, 0 ≤ m → 0 ≤ i - 11 * m → ¬ absent (splice (Z.to_nat baselen) (hex4 (i - 11 * m)) name).

Lemma jiffies_loop_spec fuel i baselen name dir :
  inv dir → length name = 11%nat → 0 ≤ baselen ≤ 2 → (Z.to_nat i + 1 < fuel)%nat →
  (∃ name' dir', jiffies_loop sb lay ops alloc sleep fuel i baselen name dir s = Ret (name', dir', s) ∧ inv dir' ∧ length name' = 11%nat ∧ absent name' ∧
     ∃ k, name' = splice (Z.to_nat baselen) (hex4 k) name) ∨
  (jiffies_loop sb lay ops alloc sleep fuel i baselen name dir s = Undef ∧ crowded i baselen name).
Proof.
  intros Hi Hl Hb. revert i name dir Hi Hl. induction fuel as [|fuel IH]; intros i name dir Hi Hl Hf; [lia|]. cbn [jiffies_loop].
  destruct (Z.ltb_spec i 0); [right; split; [done|]; intros m ? ?; lia|].
  destruct (put_at_in (Z.to_nat baselen) (hex4 i) name) as [-> Hl1]; [cbn [hex4 fmap list_fmap length]; lia|]. cbn [mbind outcome_bind].
  set (name1 := splice _ _ name) in *. destruct (find_form_spec name1 dir Hi) as (used & d & -> & Hd & Hu). cbn [mbind outcome_bind]. destruct used.
  2:{ left. exists name1, d. split; [done|]. split; [done|]. split; [lia|]. split; [by apply Hu|]. by exists i. }
  assert (∀ k, splice (Z.to_nat baselen) (hex4 k) name1 = splice (Z.to_nat baselen) (hex4 k) name) as Hss.
  { intros k. apply splice_splice; [done|]. cbn [hex4 fmap list_fmap length]. lia. }
  destruct (decide (i < 11)) as [Hlt|Hge].
  - right. destruct fuel as [|fuel]; [lia|]. cbn [jiffies_loop]. destruct (Z.ltb_spec (i - 11) 0); [|lia]. split; [done|]. intros m Hm Hm'.
    assert (m = 0) as -> by lia. rewrite Z.mul_0_r, Z.sub_0_r. intros Ha. by apply Hu in Ha.
  - destruct (IH (i - 11) name1 d Hd ltac:(lia) ltac:(lia)) as [(n' & d' & E & Hd' & Hl' & Ha & k & ->)|[E Hc]].
    + left. eexists _, d'. split; [exact E|]. split; [done|]. split; [done|]. split; [done|]. exists k. apply Hss.
    + right. split; [done|]. intros m Hm Hm'. destruct (decide (m = 0)) as [->|]; [rewrite Z.mul_0_r, Z.sub_0_r; intros Ha; by apply Hu in Ha|].
      specialize (Hc (m - 1) ltac:(lia) ltac:(lia)). rewrite Hss in Hc. by replace (i - 11 * m) with (i - 11 - 11 * (m - 1)) by lia.
Qed.

(** A name that marks its entry in use, and shows. *)
Definition marks_use (name : list Z) : Prop := ∃ c l, name = c :: l ∧ c ≠ 0 ∧ c ≠ DELETED_FLAG ∧ c ≠ 32.

Lemma marks_insert name i c : marks_use name → c ≠ 0 → c ≠ DELETED_FLAG → c ≠ 32 → marks_use (<[i := c]> name).
Proof. intros (x & l & -> & ?) Hc Hd. destruct i; [by exists c, l|by eexists x, _]. Qed.

Lemma marks_head name name' : marks_use name → head name' = head name → marks_use name'.
Proof. intros (x & l & -> & ?) E. destruct name'; [done|]. injection E as ->. by eexists x, _. Qed.

Lemma marks_later name i c : marks_use name → marks_use (<[S i := c]> name).
Proof. intros (x & l & -> & ?). by eexists x, _. Qed.

Lemma hex_digit_marks i k : let d := Z.land (Z.shiftr i k) 0xf in let c := if 9 <? d then d + 55 else d + 48 in c ≠ 0 ∧ c ≠ DELETED_FLAG ∧ c ≠ 32.
Proof.
  cbv zeta. assert (0 ≤ Z.land (Z.shiftr i k) 0xf < 16) as Hd by (change 0xf with (Z.ones 4); rewrite Z.land_ones by lia; apply Z.mod_pos_bound; lia).
  unfold DELETED_FLAG. destruct (Z.ltb_spec 9 (Z.land (Z.shiftr i k) 0xf)); lia.
Qed.

Lemma marks_splice name o i : marks_use name → marks_use (splice o (hex4 i) name).
Proof.
  intros (x & l & -> & ?). unfold splice, hex4. destruct o; [|by eexists x, _]. cbn [take app fmap list_fmap].
  pose proof (hex_digit_marks i (4 * 3)) as Ha. by eexists _, _.
Qed.

Lemma numbered_spec jiffies jiffies' b name dir :
  inv dir → base_ok b → length name = 11%nat → marks_use name →
  (∃ name' dir', numbered_name sb lay ops alloc sleep jiffies jiffies' b name dir s = Ret (name', dir', s) ∧ inv dir' ∧
     length name' = 11%nat ∧ marks_use name' ∧ absent name') ∨
  (numbered_name sb lay ops alloc sleep jiffies jiffies' b name dir s = Undef ∧ ∃ baselen name', 0 ≤ baselen ≤ 2 ∧ crowded (Z.land jiffies 0xffff) baselen name').
Proof.
  intros Hi [Hb6 Hbn Hb2 _] Hl Hm. unfold numbered_name.
  assert (∃ baselen name1, (if 6 <? Z.of_nat (length (bp_base b)) then name_res ← aset name 7 SPACE; Ret (Z.of_nat (numtail_baselen b), name_res)
    else Ret (Z.of_nat (length (bp_base b)), name)) = Ret (baselen, name1) ∧ 0 ≤ baselen ≤ 6 ∧ length name1 = 11%nat ∧ marks_use name1) as (n1 & name1 & -> & Hn1 & Hl1 & Hm1).
  { destruct (Z.ltb_spec 6 (Z.of_nat (length (bp_base b)))); [|by eexists _, name; repeat split; try lia]. rewrite aset_in by lia. cbn [mbind outcome_bind]. eexists _, _.
    split; [done|]. split; [lia|]. rewrite length_insert. split; [done|]. by apply (marks_later _ 6). }
  cbn [mbind outcome_bind]. rewrite aset_in by lia. cbn [mbind outcome_bind]. set (name2 := <[_ := 126]> name1).
  destruct (digit_loop_spec 9 1 n1 name2 dir Hi) as (free & name3 & d & -> & Hd & Hl3 & Hh3 & Hf3); [unfold name2; by rewrite length_insert|lia|].
  assert (marks_use name3) as Hm3 by (eapply marks_head; [|exact Hh3]; by apply marks_insert). cbn [mbind outcome_bind].
  destruct free; [left; exists name3, d; split; [done|]; split; [done|]; split; [done|]; split; [done|]; by apply Hf3|].
  assert (∃ baselen name4, (if 2 <? n1 then name_res ← aset name3 7 SPACE; Ret (Z.of_nat (numtail2_baselen b), name_res) else Ret (n1, name3)) = Ret (baselen, name4) ∧
    0 ≤ baselen ≤ 2 ∧ length name4 = 11%nat ∧ marks_use name4) as (n4 & name4 & -> & Hn4 & Hl4 & Hm4).
  { destruct (Z.ltb_spec 2 n1); [|by eexists _, name3; repeat split; try lia]. rewrite aset_in by lia. cbn [mbind outcome_bind]. eexists _, _.
    split; [done|]. split; [lia|]. rewrite length_insert. split; [done|]. by apply (marks_later _ 6). }
  cbn [mbind outcome_bind]. rewrite aset_in by lia. cbn [mbind outcome_bind]. rewrite aset_in by (rewrite length_insert; lia). cbn [mbind outcome_bind].
  assert (0 ≤ Z.land (Z.shiftr jiffies' 16) 7 < 8) as H7 by (change 7 with (Z.ones 3); rewrite Z.land_ones by lia; apply Z.mod_pos_bound; lia).
  match goal with |- context [jiffies_loop _ _ _ _ _ _ _ _ ?n d s] => set (name6 := n) end. assert (length name6 = 11%nat) as Hl6 by (unfold name6; by rewrite !length_insert).
  assert (marks_use name6) as Hm6 by (unfold name6; apply marks_insert; [by apply marks_insert|lia|unfold DELETED_FLAG; lia|lia]).
  destruct (jiffies_loop_spec (S (S (Z.to_nat (Z.land jiffies 0xffff)))) (Z.land jiffies 0xffff) n4 name6 d Hd Hl6 Hn4 ltac:(lia))
    as [(n' & d' & E & Hd' & Hl' & Ha & k & ->)|[E Hc]].
  - left. eexists _, d'. split; [exact E|]. split; [done|]. split; [done|]. split; [by apply marks_splice|done].
  - right. split; [done|]. by exists n4, name6.
Qed.

(** The options of a mount that creates names. *)
Definition creates_names (o : vfat_options) : Prop :=
  z2b (Z.land (opt_shortname o) VFAT_SFN_CREATE_WIN95) = true ∨ z2b (Z.land (opt_shortname o) VFAT_SFN_CREATE_WINNT) = true.

(** A result of [vfat_create_shortname]. *)
Definition fresh_name (res : Z) (name : list Z) : Prop :=
  res = - EINVAL ∨ res = - EEXIST ∨ (0 ≤ res ≤ 1 ∧ length name = 11%nat ∧ marks_use name ∧ absent name).

Lemma create_shortname_spec o jiffies jiffies' uname dir :
  inv dir → nls_ok (nls_disk o) → nls_spaces (nls_disk o) → creates_names o →
  (∃ res name lcase dir', vfat_create_shortname sb lay ops alloc sleep o jiffies jiffies' uname dir s = Ret (res, name, lcase, dir', s) ∧ inv dir' ∧ fresh_name res name) ∨
  (vfat_create_shortname sb lay ops alloc sleep o jiffies jiffies' uname dir s = Undef ∧ ∃ baselen name, 0 ≤ baselen ≤ 2 ∧ crowded (Z.land jiffies 0xffff) baselen name).
Proof.
  intros Hi Ht Hsp Hc. unfold vfat_create_shortname. destruct (split_name uname) as [upart ext_start].
  pose proof (shortbase_ok (nls_disk o) upart (BasePart [] 6 2 INIT_SHORTNAME_INFO true) Ht Hsp) as Hb. set (b := shortbase_loop _ _ _) in *.
  specialize (Hb ltac:(split; cbn; [lia|lia|lia|split; by apply not_elem_of_nil])). destruct (bool_decide (bp_base b = [])) eqn:Eb; [left; eexists _, _, _, dir; split; [done|]; split; [done|by left]|].
  set (r := match ext_start with Some ip => shortext_loop (nls_disk o) ip [] INIT_SHORTNAME_INFO (bp_short b) | None => ([], INIT_SHORTNAME_INFO, bp_short b) end).
  assert (length r.1.1 ≤ 3)%nat as He by (unfold r; destruct ext_start; [apply shortext_ok; cbn; lia|cbn; lia]). clearbody r. destruct r as [[ext ext_info] short]. cbn [fst] in He. set (base := match bp_base b with [] => [] | _ => _ end).
  set (name := pad 8 base ++ pad 3 ext). apply bool_decide_eq_false in Eb. pose proof Hb as [Hb8 _ _ [Hbz Hbs]].
  assert (length base = length (bp_base b) ∧ marks_use base) as [Elen Hmb].
  { unfold base. destruct (bp_base b) as [|c l]; [done|]. split; [done|]. eexists _, l. split; [reflexivity|]. destruct (Z.eqb_spec c DELETED_FLAG); [done|].
    split; [intros ->; apply Hbz; by left|]. split; [done|]. intros ->. apply Hbs. by left. }
  assert (length name = 11%nat) as Hl by (unfold name; rewrite length_app, !length_pad by lia; done).
  assert (marks_use name) as Hm by (unfold name, pad; destruct Hmb as (c & l & -> & ?); by eexists c, _).
  assert (∀ (res lc : Z) (d : finode), 0 ≤ res ≤ 1 → inv d → absent name → ∃ res' name' lcase d', Ret (res, name, lc, d, s) = Ret (res', name', lcase, d', s) ∧ inv d' ∧ fresh_name res' name') as Hret.
  { intros res lc d Hr Hd Ha. eexists _, _, _, d. split; [reflexivity|]. split; [done|]. right; right. done. }
  destruct (short && sn_valid (bp_info b) && sn_valid ext_info).
  - destruct (find_form_spec name dir Hi) as (used & d & -> & Hd & Hu). cbn [mbind outcome_bind]. left. destruct used.
    { eexists _, _, _, d. split; [reflexivity|]. split; [done|]. by right; left. }
    specialize (proj1 Hu eq_refl) as Ha. destruct (z2b (Z.land (opt_shortname o) VFAT_SFN_CREATE_WIN95)) eqn:E95; [apply Hret; [by destruct (_ && _)|done|done]|].
    destruct Hc as [?|Hc]; [congruence|]. rewrite Hc. destruct (_ && _); by apply Hret.
  - assert (∃ free d, (if numtail o then Ret (false, dir, s) else '(used, dir, s) ← vfat_find_form sb lay ops alloc sleep name dir s; Ret (negb used, dir, s)) = Ret (free, d, s) ∧
      inv d ∧ (free = true → absent name)) as (free & d & -> & Hd & Hf).
    { destruct (numtail o); [by exists false, dir|]. destruct (find_form_spec name dir Hi) as (used & d & -> & Hd & Hu). cbn [mbind outcome_bind]. exists (negb used), d.
      split; [done|]. split; [done|]. destruct used; [done|]. intros _. by apply Hu. }
    cbn [mbind outcome_bind]. destruct free; [left; apply Hret; [done|done|by apply Hf]|].
    destruct (numbered_spec jiffies jiffies' b name d Hd Hb Hl Hm) as [(n' & d' & -> & Hd' & Hl' & Hm' & Ha)|[-> Hcr]]; cbn [mbind outcome_bind]; [left|by right].
    eexists _, _, _, d'. split; [reflexivity|]. split; [done|]. right; right. done.
Qed.
End fresh.

(** ** A name that was created is found *)

(** A character set in which translating a name loses nothing. *)
Record nls_inverts (t : nls_table) : Prop := NlsInverts {
  inv_bytes l n u : Forall is_byte l → char2uni t l = (n, u) → 0 ≤ n → uni2char t u = take (Z.to_nat n) l ∧ 0 ≤ u < 0x10000
}.

Lemma xlate_back t n ip out w :
  nls_ok t → nls_inverts t → Forall is_byte ip → xlate_loop n false t ip out = Some w → (length w < length out + n)%nat →
  ∃ w', w = out ++ w' ∧ Forall is_char16 w' ∧ (length w' ≤ length ip)%nat ∧
    ∀ o, (length o + length ip ≤ 256)%nat → Forall (λ c, c ≠ 0) w' → x8_loop 260 false t w' o = Ret (o ++ ip).
Proof.
  intros Ht Hv. revert ip out. induction n as [|n IH]; intros ip out Hip H Hl; cbn [xlate_loop] in H; [injection H as <-; lia|]. destruct ip as [|c ip].
  { injection H as <-. exists []. rewrite app_nil_r. split; [done|]. split; [done|]. split; [done|]. intros o _ _. cbn [x8_loop]. by rewrite app_nil_r. }
  cbn [andb] in H. pose proof (char_takes t Ht c ip) as Hn. destruct (char2uni t (c :: ip)) as [len u] eqn:Eu. cbn [fst] in Hn.
  destruct (Z.ltb_spec len 0); [done|]. destruct (inv_bytes t Hv _ _ _ Hip Eu ltac:(lia)) as [Eb Hu].
  destruct (IH _ _ (Forall_drop _ _ _ Hip) H) as (w' & -> & Hw & Hlw & Hx); [rewrite length_app; cbn [length]; lia|]. exists (u :: w'). rewrite <- (assoc_L (++)). split; [done|].
  split; [by apply Forall_cons|]. rewrite length_drop in Hlw. cbn [length] in *. split; [lia|]. intros o Ho [Hu0 Hw0]%Forall_cons. cbn [x8_loop].
  destruct (Z.eqb_spec u 0); [done|]. rewrite Eb.
  destruct (take (Z.to_nat len) (c :: ip)) as [|x l] eqn:Et; [apply (f_equal length) in Et; rewrite length_take in Et; cbn [length] in Et; lia|]. rewrite <- Et.
  assert (length o + length (take (Z.to_nat len) (c :: ip)) ≤ 256)%nat as H256 by (rewrite length_take; cbn [length]; lia).
  rewrite emit_in by lia. cbn [mbind outcome_bind]. destruct (Nat.ltb_spec 256 (length (o ++ take (Z.to_nat len) (c :: ip)))) as [Hb|_]; [rewrite length_app in Hb; lia|].
  rewrite Hx; [|rewrite length_app, length_take, length_drop; cbn [length]; lia|done]. by rewrite <- (assoc_L (++)), take_drop.
Qed.

Lemma strnicmp_refl t n a : (n ≤ length a)%nat → nls_strnicmp t n a a = true.
Proof. revert a. induction n as [|n IH]; intros [|x a] Hn; cbn in *; try done; [lia|]. rewrite Z.eqb_refl. apply IH. lia. Qed.

Lemma same_name_back o name w :
  options_ok o → nls_inverts (nls_io o) → Forall is_byte name → xlate_loop 261 false (nls_io o) name [] = Some w → (length w ≤ 260)%nat → (length name < 256)%nat →
  Forall (λ c, c ≠ 0) w → same_name o name w = Ret true ∧ Forall is_char16 w.
Proof.
  intros (Hu & Hx & Ht & _) Hv Hby H Hl Hn Hw. destruct (xlate_back _ _ _ _ _ Ht Hv Hby H) as (w' & -> & Hc & _ & Hb); [cbn [length]; lia|]. cbn [app] in *. split; [|done].
  unfold same_name, uni16_to_x8. rewrite Hu, Hx, Hb by (done || (cbn [length]; lia)). cbn [app mbind outcome_bind]. rewrite emit_in by (cbn [length]; lia). cbn [mbind outcome_bind].
  unfold wrapu. rewrite Z.mod_small by lia. rewrite Z.eqb_refl, Nat2Z.id. cbn [andb]. destruct (anycase o); [by rewrite strnicmp_refl|].
  rewrite take_ge by lia. by rewrite bool_decide_eq_true_2.
Qed.

Lemma emit_out size out x y : emit size out x = Ret y → y = out ++ x.
Proof. unfold emit. destruct (_ <=? size)%nat; [|done]. by intros [= <-]. Qed.

(** An entry whose name does not start with a space is shown. *)
Lemma part_loop_last t opt lower fuel work buf last_u buf' last' :
  part_loop fuel t opt lower work buf last_u = Ret (buf', last') → (last_u ≤ length buf)%nat → (last_u ≤ last' ≤ length buf')%nat.
Proof.
  revert work buf last_u. induction fuel as [|fuel IH]; intros work buf last_u H Hl; cbn [part_loop] in H; [done|]. destruct work as [|c l]; [injection H as <- <-; lia|].
  destruct (c =? 0); [injection H as <- <-; lia|]. destruct (fat_shortname2uni t (c :: l) opt lower) as [chl uc]. unfold emit in H.
  destruct (_ <=? 14)%nat; [|done]. cbn [mbind outcome_bind] in H. apply IH in H; rewrite ?length_app in *; cbn [length] in *; destruct (_ && _); lia.
Qed.

Lemma part_loop_first t opt lower fuel c l b last :
  part_loop (S fuel) t opt lower (c :: l) [] 0 = Ret (b, last) → c ≠ 0 → c ≠ 32 → (1 ≤ last ≤ length b)%nat.
Proof.
  intros H H0 H32. cbn [part_loop] in H. destruct (Z.eqb_spec c 0); [done|]. destruct (fat_shortname2uni t (c :: l) opt lower) as [chl uc].
  rewrite emit_in in H by (cbn [length]; lia). cbn [mbind outcome_bind app] in H. destruct (Z.eqb_spec c 32); [done|]. rewrite andb_false_r in H.
  apply part_loop_last in H; cbn [length] in *; lia.
Qed.

Lemma shown_name t opt e c l : e = c :: l → c ≠ 0 → c ≠ 32 → short_uname t opt e ≠ Ret [].
Proof.
  intros -> H0 H32. unfold short_uname. cbn [take]. set (c' := if c =? 5 then 0xe5 else c). assert (c' ≠ 0 ∧ c' ≠ 32) as [Hc0 Hc32] by (unfold c'; by destruct (c =? 5)).
  match goal with |- context [part_loop 9 ?t ?p ?lo ?wk ?bf ?la] => destruct (part_loop 9 t p lo wk bf la) as [[b last]| | |] eqn:E1; [|done..] end.
  apply part_loop_first in E1; [|done..]. cbn [mbind outcome_bind]. destruct (fat_short2uni t [46]) as [_ dot]. destruct (emit 14 (take last b) [dot]) as [b1| | |] eqn:Eb; [|done..].
  apply emit_out in Eb as ->. cbn [mbind outcome_bind].
  match goal with |- context [part_loop 4 ?t ?p ?lo ?wk ?bf ?la] => destruct (part_loop 4 t p lo wk bf la) as [[b' last']| | |] eqn:E2; [|done..] end.
  apply part_loop_last in E2; [|rewrite length_app, length_take; cbn [length]; lia].
  cbn [mbind outcome_bind]. destruct (emit 14 (take last' b') [0]); [|done..]. cbn [mbind outcome_bind]. intros [= E]. apply (f_equal length) in E. rewrite length_take in E. cbn [length] in E. lia.
Qed.

(** The slots are in the directory from entry [k] on, alone. *)
Record placed (sb : sb_info) (blocks : Z) (phys : Z → Z) (s : fatfs) (k : Z) (slots : list msdos_dir_entry) : Prop := Placed {
  pl_range : 0 ≤ k ∧ k + Z.of_nat (length slots) ≤ nr_entries sb blocks;
  pl_entry i e : slots !! i = Some e → entry_of sb phys s (k + Z.of_nat i) = e;
  pl_alone : k = 0 ∨ de_attr (entry_of sb phys s (k - 1)) ≠ ATTR_EXT
}.

Lemma vfat_entry_parts name is_dir lcase cluster time date :
  length name = 11%nat → marks_use name →
  let e := vfat_entry name is_dir lcase cluster time date in de_name e = name ∧ is_short e = true ∧ ∃ c l, e = c :: l ∧ c ≠ 0 ∧ c ≠ 32.
Proof.
  intros Hl Hm. cbv zeta. unfold vfat_entry. assert (de_name (vfat_entry name is_dir lcase cluster time date) = name) as En by (unfold vfat_entry, de_name; by apply take_app_exact).
  unfold vfat_entry in En. split; [done|]. split.
  - unfold is_short. rewrite En. unfold de_attr. rewrite lookup_app_r by (rewrite Hl; done). rewrite Hl. destruct Hm as (c & l & -> & ? & ? & _). unfold IS_FREE. cbn [head default from_option]. unfold id.
    destruct (Z.eqb_spec c 0), (Z.eqb_spec c DELETED_FLAG); [done..|]. by destruct is_dir.
  - destruct Hm as (c & l & -> & ? & _ & ?). by eexists c, _.
Qed.

Lemma striptail_take name : take (length (vfat_striptail name)) name = vfat_striptail name.
Proof.
  assert (∀ l, ∃ p, l = p ++ strip_dots l) as H.
  { induction l as [|c l [p IH]]; [by exists []|]. cbn [strip_dots]. destruct (c =? DOT); [|by exists []]. exists (c :: p). cbn. by rewrite <- IH. }
  destruct (H (reverse name)) as [p E]. unfold vfat_striptail. apply (f_equal reverse) in E. rewrite reverse_involutive, reverse_app in E. rewrite E at 2. by apply take_app_exact.
Qed.

Lemma badchars_nonzero w : vfat_is_used_badchars w = 0 → Forall (λ c, c ≠ 0) w.
Proof.
  unfold vfat_is_used_badchars. destruct (existsb vfat_bad_char w) eqn:E; [done|]. intros _. apply Forall_forall. intros c Hc ->.
  assert (existsb vfat_bad_char w = true); [|congruence]. apply existsb_exists. exists 0. split; [by apply list_elem_of_In|done].
Qed.

Section created.
Context (sb : sb_info) (lay : layout) (ops : fatent_operations) (alloc : bool) (sleep : finode → finode).
Context (inv : finode → Prop) (good : fatfs → Prop) (blocks : Z) (phys : Z → Z) `{!DirMap sb lay ops alloc sleep inv good blocks phys}.
Context (o : vfat_options) (Ho : options_ok o) (Hinv : nls_inverts (nls_io o)) (Hsp : nls_spaces (nls_disk o)) (Hcr : creates_names o).

Lemma xlate_plain t name len w fw :
  xlate_to_uni name len false false (Some t) = Ret (inr (w, fw)) → xlate_loop 261 false t (take len name) [] = Some w ∧ (length w ≤ 260)%nat ∧ fw = fill_name w.
Proof.
  unfold xlate_to_uni. generalize (xlate_loop 261 false t (take len name) []) as r. intros [v|] H; [|done]. cbn [mbind outcome_bind] in H.
  destruct (Nat.ltb_spec 260 (length v)); [done|]. injection H as <- <-. done.
Qed.

Lemma built_entries_ok name w is_dir lcase cluster time date :
  length name = 11%nat → Forall is_char16 w → entries_ok (long_slots name (fill_name w) ++ [vfat_entry name is_dir lcase cluster time date]).
Proof.
  intros Hl Hw. apply Forall_app. split; [|apply Forall_singleton; unfold vfat_entry; rewrite length_app, Hl; done].
  destruct (fill_name_spec w) as (n & Hn & _ & _ & _ & _ & Hc). specialize (Hc Hw). unfold long_slots. rewrite Hn, Nat.mul_comm, Nat.div_mul by lia.
  apply Forall_lookup_2. intros i e Hi. assert (i < n)%nat as Hin.
  { apply lookup_lt_Some in Hi. assert (∀ m f c u, length (slots_loop m f c u) = m) as E by (induction m; intros; cbn; congruence). by rewrite E in Hi. }
  rewrite slots_loop_lookup in Hi by done. injection Hi as <-. apply name_slot_parts; [rewrite length_drop; lia|by apply Forall_drop].
Qed.

(** What [vfat_build_slots] made when it made a long name. *)
Lemma build_slots_long page jiffies jiffies' tz tv_sec name len is_dir cluster dir d s t slots :
  good s → inv dir → Forall is_byte name → vfat_build_slots sb lay ops alloc sleep o page jiffies jiffies' tz tv_sec name len is_dir cluster dir s = Ret (0, slots, d, t) → (1 < length slots)%nat →
  t = s ∧ inv d ∧ entries_ok slots ∧ ∃ w msdos_name e, slots = long_slots msdos_name (fill_name w) ++ [e] ∧ de_name e = msdos_name ∧ is_short e = true ∧
    (∃ c l, e = c :: l ∧ c ≠ 0 ∧ c ≠ 32) ∧ take len name ≠ [] ∧ same_name o (take len name) w = Ret true ∧ Forall is_wchar w ∧ (0 < length w ≤ 260)%nat.
Proof.
  intros Hs Hi Hby H Hlen. pose proof Ho as (Hu & Hx & _ & Ht). unfold vfat_build_slots in H. destruct (Z.eqb_spec (vfat_valid_longname (take len name)) 0) as [Ev|Ev]; cbn [negb] in H; [|by injection H].
  assert (length (take len name) < 256)%nat as H256.
  { unfold vfat_valid_longname in Ev. destruct (_ =? 32); [done|]. destruct (Nat.leb_spec 256 (length (take len name))); [done|lia]. }
  destruct page; cbn [negb] in H; [|by injection H]. rewrite Hu, Hx in H.
  destruct (xlate_to_uni name len false false (Some (nls_io o))) as [[err|[w fw]]| | |] eqn:Exl; cbn [mbind outcome_bind] in H; [|apply xlate_plain in Exl as (Ew & Hw260 & ->)|done..].
  { exfalso. injection H as -> <- _ _. cbn in Hlen. lia. }
  destruct (Z.eqb_spec (vfat_is_used_badchars w) 0) as [Eb|Eb]; cbn [negb] in H; [|by injection H]. apply badchars_nonzero in Eb.
  destruct (create_shortname_spec sb lay ops alloc sleep inv good blocks phys s Hs o jiffies jiffies' w dir Hi Ht Hsp Hcr) as [(res & mn & lc & d' & E & Hd & Hf)|[E _]];
    rewrite E in H; cbn [mbind outcome_bind] in H; [|done]. destruct (Z.ltb_spec res 0); [injection H as -> _ _ _; lia|].
  assert (length mn = 11%nat ∧ marks_use mn) as [Hmn Hmu] by (destruct Hf as [->|[->|(? & ? & ? & ?)]]; [done..|done]).
  destruct (fat_date_unix2dos tz tv_sec) as [[time date]| | |]; [|done..]. cbn [mbind outcome_bind] in H. injection H as <- <- <-.
  destruct (Z.eqb_spec res 1); [cbn in Hlen; lia|]. destruct (vfat_entry_parts mn is_dir lc cluster time date Hmn Hmu) as (Hen & Hesh & Hec).
  destruct (same_name_back o (take len name) w Ho Hinv (Forall_take _ _ _ Hby) Ew ltac:(lia) H256 Eb) as [Hsame Hc].
  split; [done|]. split; [done|]. split; [by apply built_entries_ok|].
  exists w, mn, (vfat_entry mn is_dir lc cluster time date). split; [done|]. split; [done|]. split; [done|]. split; [done|].
  assert (w ≠ []) as Hne by (intros ->; cbn in Hlen; lia). split; [intros E0; rewrite E0 in Ew; cbn in Ew; congruence|]. split; [done|]. split.
  - rewrite Forall_forall in Eb, Hc |- *. intros c Hin. specialize (Eb c Hin). specialize (Hc c Hin). unfold is_char16, is_wchar in *. cbn beta in Eb. lia.
  - split; [|lia]. destruct w; [done|cbn [length]; lia].
Qed.

Lemma placed_visible s1 k w e msdos_name :
  placed sb blocks phys s1 k (long_slots msdos_name (fill_name w) ++ [e]) → de_name e = msdos_name → is_short e = true →
  (∃ c l, e = c :: l ∧ c ≠ 0 ∧ c ≠ 32) → Forall is_wchar w → (0 < length w ≤ 260)%nat →
  visible_long sb blocks phys s1 o k (k + Z.of_nat (length (long_slots msdos_name (fill_name w)))) w.
Proof.
  intros [Hr He Ha] Hn Hsh (c & l & Ee & H0 & H32) Hw Hl. rewrite length_app in Hr. cbn [length] in Hr. set (sl := long_slots msdos_name (fill_name w)) in *.
  assert (entry_of sb phys s1 (k + Z.of_nat (length sl)) = e) as Ej by (apply He; by apply list_lookup_middle).
  split; [|lia|done|done|done|by rewrite Ej|rewrite Ej; by apply (shown_name _ _ e c l)].
  unfold stored_long. rewrite Ej, Hn. replace (k + Z.of_nat (length sl) - k) with (Z.of_nat (length sl)) by lia. fold sl.
  apply list_eq_same_length with (length sl); [done|by rewrite length_fmap, length_seqZ, Nat2Z.id|]. intros i x y Hi Hx Hy.
  rewrite list_lookup_fmap, lookup_seqZ_lt in Hx by lia. injection Hx as <-. apply He. by apply lookup_app_l_Some.
Qed.
End created.

(** No slot of a long name stands before a free entry. *)
Definition no_orphans (sb : sb_info) (blocks : Z) (phys : Z → Z) (s : fatfs) : Prop :=
  ∀ x, 0 ≤ x → x + 1 < nr_entries sb blocks → de_attr (entry_of sb phys s x) = ATTR_EXT → free sb phys s x = false → free sb phys s (x + 1) = false.

Lemma slots_few name w (e : msdos_dir_entry) : (length w ≤ 260)%nat → Z.of_nat (length (long_slots name (fill_name w) ++ [e])) ≤ 32.
Proof.
  intros Hl. destruct (fill_name_spec w) as (n & Hn & _ & Hlt & _). rewrite length_app. unfold long_slots. rewrite Hn, Nat.mul_comm, Nat.div_mul by lia.
  assert (∀ m f c u, length (slots_loop m f c u) = m) as -> by (induction m; intros; cbn; congruence). cbn [length]. lia.
Qed.

(** ** Entries that were added *)

Section added.
Context (sb : sb_info) (lay : layout) (ops : fatent_operations) (alloc : bool) (sleep : finode → finode).
Context (inv : finode → Prop) (good : fatfs → Prop) (blocks : Z) (phys : Z → Z) `{!DirMap sb lay ops alloc sleep inv good blocks phys}.
Context (s s1 : fatfs) (a : Z) (slots : list msdos_dir_entry).
Abbreviation len := (Z.of_nat (length slots)).
Context (Hlen : (0 < length slots)%nat) (Hroom : room_at sb blocks phys len s 0 a) (Hc : changed sb blocks phys s s1 a (a + len) (at_run a slots)).

(** They stand in the directory, and their slots do not follow others. *)
Lemma added_placed : no_orphans sb blocks phys s → placed sb blocks phys s1 a slots.
Proof.
  intros Horph. destruct Hroom as (Ha0 & Hat & Hfree & Hmin). split; [lia| |].
  - intros i e Hi. pose proof (lookup_lt_Some _ _ _ Hi). rewrite Hc by lia. rewrite decide_True by lia. unfold at_run. replace (Z.to_nat (a + Z.of_nat i - a)) with i by lia. by rewrite Hi.
  - destruct (decide (a = 0)); [by left|]. right. rewrite Hc by lia. rewrite decide_False by lia. intros Hext. destruct (free sb phys s (a - 1)) eqn:Ef.
    + specialize (Hmin (a - 1) ltac:(lia)). destruct (Z.le_gt_cases a (a - 1)) as [?|?]; [lia|]. enough (a ≤ a - 1) by lia. apply Hmin.
      intros x Hx. destruct (decide (x = a - 1)) as [->|]; [done|apply Hfree; lia].
    + specialize (Horph (a - 1) ltac:(lia) ltac:(lia) Hext Ef). replace (a - 1 + 1) with a in Horph by lia. by rewrite Hfree in Horph by lia.
Qed.

Lemma added_same x : 0 ≤ x < nr_entries sb blocks → ¬ a ≤ x < a + len → entry_of sb phys s1 x = entry_of sb phys s x.
Proof. intros Hx Ho. rewrite Hc by done. by rewrite decide_False. Qed.

(** A slot of a name is no free entry. *)
Lemma slot_not_free j n i : own_slots sb phys s j n → 1 ≤ i ≤ n → free sb phys s (j - i) = false.
Proof.
  intros Ho Hi. pose proof (ch_range _ _ _ _ _ _ _ Ho). pose proof (slot_number _ _ _ _ _ _ _ i Ho ltac:(lia)) as Hn. unfold free, free_at, IS_FREE, de_name, slot_id in *.
  destruct (entry_of sb phys s (j - i)) as [|c e]; [change (u8 _) with 0 in Hn; lia|]. cbn -[DELETED_FLAG Z.land u8] in *.
  destruct (Z.eqb_spec c 0) as [->|]; [change (u8 _) with 0 in Hn; lia|]. destruct (Z.eqb_spec c DELETED_FLAG) as [->|]; [change (u8 _) with 165 in Hn; lia|done].
Qed.

(** The names of the entries that were there before. *)
Lemma own_ext u v j n : (∀ x, j - n ≤ x ≤ j → entry_of sb phys v x = entry_of sb phys u x) → own_slots sb phys u j n → own_slots sb phys v j n.
Proof.
  intros He Ho. pose proof (ch_range _ _ _ _ _ _ _ Ho) as Hr. destruct Ho as [_ H1 H2 H3]. unfold own_slots. rewrite (He j ltac:(lia)).
  split; [done| |by rewrite He by lia|intros i Hi; rewrite He by lia; by apply H3]. intros i Hi. rewrite He by lia. by apply H1.
Qed.

Lemma text_ext u v j i n : (∀ x, j - i - Z.of_nat n < x ≤ j - i → entry_of sb phys v x = entry_of sb phys u x) → slots_text sb phys v j i n = slots_text sb phys u j i n.
Proof.
  revert i. induction n as [|n IH]; intros i He; [done|]. cbn [slots_text]. rewrite !He by lia. rewrite IH; [done|]. intros x Hx. apply He. lia.
Qed.

Lemma own_old j n :
  0 ≤ j < nr_entries sb blocks → ¬ a ≤ j < a + len → is_short (entry_of sb phys s1 (a + len - 1)) = true →
  own_slots sb phys s j n ∨ own_slots sb phys s1 j n → ∀ x, j - n ≤ x ≤ j → entry_of sb phys s1 x = entry_of sb phys s x.
Proof.
  destruct Hroom as (Ha0 & Hat & Hfree & _). intros Hj Hout Hlast Ho x Hx. assert (n ≤ j) as Hnj by (destruct Ho as [Ho|Ho]; pose proof (ch_range _ _ _ _ _ _ _ Ho); lia).
  destruct (decide (a ≤ x < a + len)) as [Hin|]; [|apply added_same; [lia|done]]. exfalso. destruct Ho as [Ho|Ho].
  - pose proof (slot_not_free j n (j - x) Ho ltac:(lia)) as Hf. replace (j - (j - x)) with x in Hf by lia. by rewrite Hfree in Hf.
  - destruct (ch_slot _ _ _ _ _ _ _ Ho (j - (a + len - 1)) ltac:(lia)) as [He _]. replace (j - (j - (a + len - 1))) with (a + len - 1) in He by lia.
    by rewrite (ext_not_short _ He) in Hlast.
Qed.

Lemma named_old o name j :
  0 ≤ j < nr_entries sb blocks → ¬ a ≤ j < a + len → is_short (entry_of sb phys s1 (a + len - 1)) = true → named sb phys s1 o name j → named sb phys s o name j.
Proof.
  intros Hj Hout Hlast (nr & [Hown Hmax] & Hn). pose proof (own_old j) as Hold. exists nr. rewrite (added_same j Hj Hout) in Hn. split.
  - split; [destruct Hown as [?|Ho]; [by left|right]|].
    + apply (own_ext s1); [|done]. intros x Hx. symmetry. by apply (Hold nr); [..|right|].
    + intros n Ho. apply Hmax. apply (own_ext s); [|done]. intros x Hx. by apply (Hold n); [..|left|].
  - destruct Hn as (u & Eu & Hu & [Hs'|[Hnz Hl]]); exists u; (split; [done|]); (split; [done|]); [by left|right]. split; [done|]. destruct Hown as [?|Ho]; [done|].
    pose proof (ch_range _ _ _ _ _ _ _ Ho). unfold long_name in *. rewrite (text_ext s s1) in Hl; [done|]. intros x Hx. apply (Hold nr); [done|done|done|by right|lia].
Qed.

(** A search that found nothing before finds what was added, and a search always
    finds something. *)
Lemma found_added o name w r :
  visible_long sb blocks phys s1 o a (a + len - 1) w → missed sb phys s o name 0 (nr_entries sb blocks) → located sb lay blocks phys s1 o name 0 r →
  r = SlotInfo (fat_make_i_pos lay (place_of sb phys (a + len - 1))) (32 * a) len (place_of sb phys (a + len - 1)).
Proof.
  intros Hv Hm (j & nr & -> & Hj & Hsh & Hsl & Hn & _). pose proof (vl_short _ _ _ _ _ _ _ _ Hv) as Hlast. destruct (visible_slots _ _ _ _ _ _ _ _ Hv) as [Hsl' _].
  destruct (decide (a ≤ j < a + len)) as [Hin|Hout].
  2:{ exfalso. apply (Hm j Hj); [by rewrite <- added_same|]. apply named_old; [done..|]. by exists nr. }
  destruct (decide (j = a + len - 1)) as [->|].
  - rewrite (slots_of_unique _ _ _ _ _ _ Hsl Hsl'). by replace (a + len - 1 - (a + len - 1 - a)) with a by lia; replace (a + len - 1 - a + 1) with len by lia.
  - exfalso. pose proof (stored_own _ _ _ _ _ _ _ (vl_stored _ _ _ _ _ _ _ _ Hv) (vl_place _ _ _ _ _ _ _ _ Hv) (wchar_char16 _ (vl_chars _ _ _ _ _ _ _ _ Hv)) (vl_length _ _ _ _ _ _ _ _ Hv)) as Ho.
    destruct (ch_slot _ _ _ _ _ _ _ Ho (a + len - 1 - j) ltac:(lia)) as [He _]. replace (a + len - 1 - (a + len - 1 - j)) with j in He by lia. by rewrite (ext_not_short _ He) in Hsh.
Qed.
End added.

Lemma visible_named sb blocks phys s o name k j w : options_ok o → visible_long sb blocks phys s o k j w → same_name o name w = Ret true → named sb phys s o name j.
Proof.
  intros Ho Hv Hsame. destruct (visible_slots _ _ _ _ _ _ _ _ Hv) as [Hsl Ew]. pose proof (visible_first _ _ _ _ _ _ _ _ Hv) as (_ & _ & Hlt). exists (j - k). split; [done|]. rewrite Ew.
  destruct (short_uname_ok (nls_disk o) (opt_shortname o) (entry_of sb phys s j)) as [u Eu]; [apply Ho|]. exists u. split; [done|].
  split; [intros ->; by apply (vl_shown _ _ _ _ _ _ _ _ Hv)|]. right. split; [lia|done].
Qed.

(** C26: [vfat_create_shortname] gives names that are free.  For every directory
    that is mapped and every name it returns: an error for a name with no
    characters or a short name in use, or a name of eleven characters that marks
    its entry in use and that no entry of the directory has.  The one other end is
    a write past the buffer of the number, when every name the clock can give is
    taken. *)
Theorem vfat_shortname_fresh sb lay ops alloc sleep inv good blocks phys `{!DirMap sb lay ops alloc sleep inv good blocks phys} o jiffies jiffies' uname dir s :
  good s → inv dir → nls_ok (nls_disk o) → nls_spaces (nls_disk o) → creates_names o →
  (∃ res name lcase dir', vfat_create_shortname sb lay ops alloc sleep o jiffies jiffies' uname dir s = Ret (res, name, lcase, dir', s) ∧ inv dir' ∧
     (res = - EINVAL ∨ res = - EEXIST ∨ (0 ≤ res ≤ 1 ∧ length name = 11%nat ∧ marks_use name ∧ absent sb blocks phys s name))) ∨
  (vfat_create_shortname sb lay ops alloc sleep o jiffies jiffies' uname dir s = Undef ∧
   ∃ baselen name, 0 ≤ baselen ≤ 2 ∧ crowded sb blocks phys s (Z.land jiffies 0xffff) baselen name).
Proof. intros Hs Hi Ht Hsp Hc. by apply (create_shortname_spec sb lay ops alloc sleep inv good). Qed.

(** C10: A long name that was added is found.  When [vfat_build_slots] makes the
    slots of a long name and the directory has room for them, [vfat_add_de] adds
    them, and from then on [vfat_find] finds by the name the first entry that has
    it, with exactly its slots.  This is the entry that was added, with the place
    and the number of slots that [vfat_add_de] reported, when [vfat_find] reported
    [-ENOENT] for the name before.  The character set must lose nothing of the
    name, neither UTF-8 nor escapes are asked for, and no slot was left without its
    entry. *)
Theorem vfat_add_find env sb lay ops alloc sleep inv good blocks phys `{!DirMap sb lay ops alloc sleep inv good blocks phys} o new_page needs_sync sync_inode
    page jiffies jiffies' tz tv_sec name is_dir cluster dir d s t slots :
  quiet env → options_ok o → nls_inverts (nls_io o) → nls_spaces (nls_disk o) → creates_names o → (261 ≤ length new_page)%nat → good s → inv dir → Forall is_byte name →
  nr_entries sb blocks * 32 < FAT_MAX_DIR_SIZE → no_orphans sb blocks phys s →
  vfat_build_slots sb lay ops alloc sleep o page jiffies jiffies' tz tv_sec name (length (vfat_striptail name)) is_dir cluster dir s = Ret (0, slots, d, t) →
  (1 < length slots)%nat → (∃ b, 0 ≤ b ∧ b + Z.of_nat (length slots) ≤ nr_entries sb blocks ∧ free_run sb phys s b (b + Z.of_nat (length slots))) →
  ∃ si d1 s1, vfat_add_de sb lay ops alloc sleep o page jiffies jiffies' tz tv_sec env needs_sync sync_inode true name is_dir cluster dir s = Ret (0, Some si, d1, s1) ∧
    inv d1 ∧ good s1 ∧ nr_slots si = Z.of_nat (length slots) ∧
    ∀ d2, inv d2 → ∃ r d3, vfat_find sb lay ops alloc sleep o true name new_page d2 s1 = Ret (0, Some r, d3, s1) ∧ located sb lay blocks phys s1 o (vfat_striptail name) 0 r ∧
      ((∃ d0 d0', inv d0 ∧ vfat_find sb lay ops alloc sleep o true name new_page d0 s = Ret (- ENOENT, None, d0', s)) → r = si).
Proof.
  intros Hq Ho Hinv Hsp Hcr Hp Hs Hi Hby Hmax Horph Hb Hlen Hroom.
  destruct (build_slots_long sb lay ops alloc sleep inv good blocks phys o Ho Hinv Hsp Hcr _ _ _ _ _ _ _ _ _ _ _ _ _ _ Hs Hi Hby Hb Hlen)
    as (-> & Hd & Hok & w & mn & e & Esl & Hn & Hsh & Hce & Hne & Hsame & Hw & Hl). rewrite striptail_take in Hsame, Hne.
  assert (0 < Z.of_nat (length slots) ≤ 32) as H32 by (split; [lia|rewrite Esl; apply slots_few; lia]).
  destruct (add_run env sb lay ops alloc sleep inv good blocks phys Hq _ H32 Hmax needs_sync sync_inode slots d s Hs Hd Hok eq_refl Hroom) as (a & d1 & s1 & Ea & Hd1 & Hs1 & Hra & Hc).
  eexists _, d1, s1. split.
  { unfold vfat_add_de. destruct (Nat.eqb_spec (length (vfat_striptail name)) 0) as [E0|]; [by destruct (vfat_striptail name)|]. rewrite Hb. exact Ea. }
  split; [done|]. split; [done|]. split; [done|]. intros d2 Hd2. pose proof (added_placed sb blocks phys s s1 a slots ltac:(lia) Hra Hc Horph) as Hpl.
  assert (visible_long sb blocks phys s1 o a (a + Z.of_nat (length slots) - 1) w) as Hvis.
  { rewrite Esl in Hpl. pose proof (placed_visible sb blocks phys o s1 a w e mn Hpl Hn Hsh Hce Hw Hl) as H. rewrite Esl, length_app. cbn [length].
    by replace (a + Z.of_nat (length (long_slots mn (fill_name w)) + 1) - 1) with (a + Z.of_nat (length (long_slots mn (fill_name w)))) by lia. }
  unfold vfat_find. rewrite bool_decide_eq_false_2 by done.
  destruct (search_spec sb lay ops alloc sleep inv good blocks phys s1 Hs1 o Ho (vfat_striptail name) (Some new_page) Hp d2 Hd2) as (err & r & d3 & E & Hd3 & Hr).
  rewrite E. destruct r as [r|].
  - destruct Hr as [-> Hr]. exists r, d3. split; [done|]. split; [done|]. intros (d0 & d0' & Hd0 & E0).
    destruct (search_spec sb lay ops alloc sleep inv good blocks phys s Hs o Ho (vfat_striptail name) (Some new_page) Hp d0 Hd0) as (err0 & r0 & d0'' & E0' & _ & Hr0).
    rewrite E0 in E0'. injection E0' as <- <- <-. destruct Hr0 as [[_ Hm]|[_ ?]]; [|done]. by apply (found_added sb lay blocks phys s s1 a slots ltac:(lia) Hra Hc o (vfat_striptail name) w).
  - destruct Hr as [[_ Hm]|[_ ?]]; [|done]. exfalso. pose proof (vl_place _ _ _ _ _ _ _ _ Hvis). apply (Hm (a + Z.of_nat (length slots) - 1)); [lia|apply (vl_short _ _ _ _ _ _ _ _ Hvis)|].
    by apply (visible_named _ _ _ _ _ _ _ _ _ Ho Hvis).
Qed.

(** ** Examples *)

Definition vname : list Z := bytes_of "A long name.text..".

(** The slots for the name in the sample root. *)
Definition vslots : list msdos_dir_entry :=
  match vfat_build_slots Sample.sb16 sample_layout fat16_ops true (λ i, i) plain_options true 0 0 0 1000000000 vname 16 false 0 root_inode root_fs with
  | Ret (_, slots, _, _) => slots
  | _ => []
  end.

Lemma default_inverts : nls_inverts default_table.
Proof.
  split. intros l n u Hl. cbn [char2uni default_table]. unfold default_char2uni. destruct l as [|c l]; cbn [head default from_option]; unfold id; [by intros [= <- <-]|].
  apply Forall_cons in Hl as [Hc _]. destruct (Z.eqb_spec c 0); [by intros [= <- <-]|]. intros [= <- <-] _. unfold is_byte in Hc. split; [|lia].
  cbn [uni2char default_table]. unfold default_uni2char. change 0x00ff with (Z.ones 8). rewrite Z.land_ones, Z.mod_small, Z.shiftr_div_pow2, Z.div_small by lia.
  by destruct (Z.eqb_spec c 0).
Qed.

Lemma default_spaces : nls_spaces default_table.
Proof.
  split.
  - intros u Hu. cbn [uni2char default_table]. unfold default_uni2char. destruct (_ && _) eqn:E; [|by apply not_elem_of_nil]. apply andb_prop in E as [E%Z.eqb_eq _].
    intros H%list_elem_of_singleton. rewrite Z.shiftr_div_pow2 in E by lia. change 0x00ff with (Z.ones 8) in H. rewrite Z.land_ones in H by lia.
    pose proof (Z.div_mod u (2 ^ 8) ltac:(lia)). lia.
  - intros c. unfold nls_toupper. cbn [charset2upper default_table]. unfold default_upper. destruct (Z.leb_spec 97 c), (Z.leb_spec c 122); cbn [andb]; [|by destruct (c =? 0)..].
    destruct (Z.eqb_spec (c - 32) 0); lia.
Qed.

Lemma bytes_of_byte str : Forall is_byte (bytes_of str).
Proof. apply Forall_fmap, Forall_forall. intros a _. unfold is_byte, compose. pose proof (Ascii.N_ascii_bounded a). lia. Qed.

Lemma root_no_orphans : no_orphans Sample.sb16 (root_blocks sample_layout) (root_phys sample_layout) root_fs.
Proof.
  intros x Hx Hx1 Hext _. assert (forallb (λ x, negb (de_attr (entry_of Sample.sb16 (root_phys sample_layout) root_fs x) =? ATTR_EXT)) (seqZ 0 16) = true) as H by (by vm_compute).
  change (nr_entries Sample.sb16 (root_blocks sample_layout)) with 16 in Hx1. rewrite forallb_forall in H. specialize (H x ltac:(apply list_elem_of_In, elem_of_seqZ; lia)).
  rewrite Hext in H. discriminate H.
Qed.

Lemma vfat_add_find_witness :
  ∃ si d1 s1 d3,
    vfat_add_de Sample.sb16 sample_layout fat16_ops true (λ i, i) plain_options true 0 0 0 1000000000 Sample.quiet_env false 0 true vname false 0 root_inode root_fs = Ret (0, Some si, d1, s1) ∧
    vfat_find Sample.sb16 sample_layout fat16_ops true (λ i, i) plain_options true vname new_name_page root_inode s1 = Ret (0, Some si, d3, s1).
Proof.
  destruct (vfat_add_find Sample.quiet_env Sample.sb16 sample_layout fat16_ops true (λ i, i) _ _ _ _ (DirMap0 := sample_root) plain_options new_name_page false 0
    true 0 0 0 1000000000 vname false 0 root_inode root_inode root_fs root_fs vslots) as (si & d1 & s1 & E & _ & _ & _ & H);
    [exact Sample.quiet_ok|exact plain_options_ok|exact default_inverts|exact default_spaces|left; reflexivity|vm_compute; lia|exact root_fs_good|reflexivity|exact (bytes_of_byte _)
    |vm_compute; reflexivity|exact root_no_orphans|vm_compute; reflexivity|vm_compute; lia| |].
  - exists 2. split; [lia|]. split; [vm_compute; discriminate|]. intros x Hx. change (Z.of_nat (length vslots)) with 3 in Hx.
    assert (x = 2 ∨ x = 3 ∨ x = 4) as [->|[->| ->]] by lia; vm_compute; reflexivity.
  - destruct (H root_inode eq_refl) as (r & d3 & E' & _ & Hr). assert (r = si) as ->.
    { apply Hr. exists root_inode. eexists. split; [reflexivity|]. vm_compute. reflexivity. }
    exists si, d1, s1, d3. split; [exact E|exact E'].
Defined.

Lemma vfat_shortname_fresh_witness :
  ∃ name lcase dir', vfat_create_shortname Sample.sb16 sample_layout fat16_ops true (λ i, i) plain_options 0 0 (bytes_of "a longer name.text") root_inode root_fs =
    Ret (0, name, lcase, dir', root_fs) ∧ name = bytes_of "ALONGE~1TEX".
Proof.
  destruct (vfat_shortname_fresh Sample.sb16 sample_layout fat16_ops true (λ i, i) _ _ _ _ (DirMap0 := sample_root) plain_options 0 0 (bytes_of "a longer name.text")
    root_inode root_fs root_fs_good eq_refl) as [(res & name & lcase & d & E & _)|[E _]]; [apply plain_options_ok|exact default_spaces|left; reflexivity| |].
  - exists name, lcase, d. assert (res = 0 ∧ name = bytes_of "ALONGE~1TEX") as [-> En] by (vm_compute in E; injection E; intros; subst; split; reflexivity). split; [exact E|exact En].
  - vm_compute in E. discriminate E.
Defined.

(** When the nine numbers are taken and the name from the clock is too, the next
    number is negative and its digits do not fit. *)
Definition crowded_names : list (list Z) :=
  bytes_of <$> ["ABCDEF~1TXT"; "ABCDEF~2TXT"; "ABCDEF~3TXT"; "ABCDEF~4TXT"; "ABCDEF~5TXT"; "ABCDEF~6TXT"; "ABCDEF~7TXT"; "ABCDEF~8TXT"; "ABCDEF~9TXT"; "AB0005~1TXT"]%string.
Definition crowded_fs : fatfs :=
  FatFs (<[4 := mjoin ((λ n, entry_bytes n 32) <$> crowded_names) ++ replicate 192 0]> (blk (Sample.fs16 4))) ∅ 5 4 false false.

Lemma shortname_overruns :
  vfat_create_shortname Sample.sb16 sample_layout fat16_ops true (λ i, i) plain_options 5 0 (bytes_of "abcdefghi.txt") root_inode crowded_fs = Undef.
Proof. by vm_compute. Qed.
