(* ===== verification/FatMount.v ===== *)
(** Mounting a FAT file system: [fat_fill_super], [fat_read_root] and
    [fat_calc_dir_size] of [fs/fat/inode.c], with the block size functions of
    [fs/block_dev.c].  The mount options come parsed, and the messages are not
    kept. *)

From S2P Require Import Prelude Bitops Fat12 Fatent FatentLaws FatAlloc FatCache FatFile FatDir.

(** ** Devices *)

(** [dev_bad size n] tells that block [n] of [size] bytes cannot be read. *)
Record device := Device { dev_bytes : list Z; dev_bad : Z → Z → bool; hardsect_size : Z; bd_block_size : Z }.

Definition dev_block (d : device) (size n : Z) : option (list Z) :=
  if decide (0 ≤ n ∧ (n + 1) * size ≤ Z.of_nat (length (dev_bytes d))) then
    if dev_bad d size n then None else Some (slice (dev_bytes d) (n * size) size)
  else None.

(** All that the cache can deliver. *)
Definition dev_blocks (d : device) (size : Z) : gmap Z (list Z) :=
  list_to_map (omap (λ n, bs ← dev_block d size n; Some (n, bs)) (seqZ 0 (Z.of_nat (length (dev_bytes d)) / size))).

Definition is_power_of_2 (n : Z) : bool := negb (n =? 0) && (Z.land n (n - 1) =? 0).

Definition ffs (x : Z) : Z := if x =? 0 then 0 else bsf x + 1.

Fixpoint blksize_loop (n : nat) (bits size : Z) : Z :=
  match n with
  | O => bits
  | S n => let bits := bits + 1 in let size := Z.shiftr size 1 in if 256 <? size then blksize_loop n bits size else bits
  end.

(** The loop ends once a 32-bit size is shifted out. *)
Definition blksize_bits (size : Z) : Z := blksize_loop 32 8 size.

(** [sb_set_blocksize]: whether the size is accepted. *)
Definition sb_set_blocksize (d : device) (size : Z) : bool :=
  negb ((4096 <? size) || (size <? 512) || negb (is_power_of_2 size)) && negb (size <? hardsect_size d).

(** [sb_min_blocksize] as it is called: its result is not looked at, and the size
    stays what it was when it is refused. *)
Definition sb_min_blocksize (d : device) (size : Z) : Z :=
  let size := if size <? hardsect_size d then hardsect_size d else size in
  if sb_set_blocksize d size then size else bd_block_size d.

(** ** The boot sector *)

Record fat_boot_sector := BootSector {
  bs_sector_size : Z; bs_sec_per_clus : Z; bs_reserved : Z; bs_fats : Z; bs_dir_entries : Z; bs_sectors : Z;
  bs_media : Z; bs_fat_length : Z; bs_total_sect : Z; bs_fat32_length : Z; bs_root_cluster : Z; bs_info_sector : Z
}.

Definition boot_sector (b : list Z) : fat_boot_sector :=
  let w o n := le_val (slice b o n) in
  BootSector (w 11 2) (w 13 1) (w 14 2) (w 16 1) (w 17 2) (w 19 2) (w 21 1) (w 22 2) (w 32 4) (w 36 4) (w 44 4) (w 48 2).

Definition MAX_FAT12 : Z := 0xff4.
Definition MAX_FAT16 : Z := 0xfff4.
Definition MAX_FAT32 : Z := 0x0ffffff6.
Definition MAX_FAT (bits : Z) : Z := if bits =? 32 then MAX_FAT32 else if bits =? 16 then MAX_FAT16 else MAX_FAT12.
Definition MAX_NON_LFS : Z := 2 ^ 31 - 1.
Definition EINVAL : Z := 22.

Definition FAT_VALID_MEDIA (x : Z) : bool := ((0xf8 <=? x) && (x <=? 0xff)) || (x =? 0xf0).

(** The checks up to the block size: an error, or the size and the sector read
    with it. *)
Definition read_boot (d : device) : Z + Z * fat_boot_sector :=
  let size := sb_min_blocksize d 512 in
  match dev_block d size 0 with
  | None => inl (- EIO)
  | Some bytes =>
    let b := boot_sector bytes in
    if bs_reserved b =? 0 then inl (- EINVAL) else
    if bs_fats b =? 0 then inl (- EINVAL) else
    if negb (FAT_VALID_MEDIA (bs_media b)) then inl (- EINVAL) else
    let logical_sector_size := bs_sector_size b in
    if negb (is_power_of_2 logical_sector_size) || (logical_sector_size <? 512) || (4096 <? logical_sector_size) then inl (- EINVAL) else
    if negb (is_power_of_2 (bs_sec_per_clus b)) then inl (- EINVAL) else
    if logical_sector_size <? size then inl (- EIO) else
    if size <? logical_sector_size then
      if negb (sb_set_blocksize d logical_sector_size) then inl (- EIO) else
      match dev_block d logical_sector_size 0 with
      | None => inl (- EIO)
      | Some bytes => inr (logical_sector_size, boot_sector bytes)
      end
    else inr (size, b)
  end.

(** What a thirty-two bit file system adds; [fat_bits] is 0 while it is not
    known. *)
Record fat32_part := Fat32Part {
  p_bits : Z; p_length : Z; p_root : Z; p_info : Z; p_free : Z; p_prev : Z; p_maxbytes : Z
}.

Definition read_fat32_part (usefree : bool) (d : device) (size : Z) (b : fat_boot_sector) : Z + fat32_part :=
  if (bs_fat_length b =? 0) && negb (bs_fat32_length b =? 0) then
    let info := if bs_info_sector b =? 0 then 1 else bs_info_sector b in
    match dev_block d size info with
    | None => inl (- EIO)
    | Some f =>
      let w o := le_val (slice f o 4) in
      let valid := (w 0 =? FAT_FSINFO_SIG1) && (w 484 =? FAT_FSINFO_SIG2) in
      inr (Fat32Part 32 (bs_fat32_length b) (bs_root_cluster b) info
             (if valid && usefree then w 488 else UNKNOWN) (if valid then w 492 else FAT_START_ENT) 0xffffffff)
    end
  else inr (Fat32Part 0 (bs_fat_length b) 0 0 UNKNOWN FAT_START_ENT MAX_NON_LFS).

(** The sizes of the regions: an error, or what mounting settles with the
    counters made consistent. *)
Definition fat_layout (synchronous : bool) (size : Z) (b : fat_boot_sector) (p : fat32_part) : Z + sb_info * layout * Z * Z :=
  let cluster_size := size * bs_sec_per_clus b in
  let cluster_bits := ffs cluster_size - 1 in
  let dir_per_block := size / 32 in
  let dir_start := bs_reserved b + bs_fats b * p_length p in
  if negb (Z.land (bs_dir_entries b) (dir_per_block - 1) =? 0) then inl (- EINVAL) else
  let rootdir_sectors := bs_dir_entries b * 32 / size in
  let data_start := dir_start + rootdir_sectors in
  let total_sectors := if bs_sectors b =? 0 then bs_total_sect b else bs_sectors b in
  let total_clusters := u32 (u64 (total_sectors - data_start) / bs_sec_per_clus b) in
  let bits := if p_bits p =? 32 then 32 else if MAX_FAT12 <? total_clusters then 16 else 12 in
  let fat_clusters := u32 (p_length p * size * 8 / bits) in
  let total_clusters := Z.min total_clusters (u32 (fat_clusters - FAT_START_ENT)) in
  if MAX_FAT bits <? total_clusters then inl (- EINVAL) else
  let max_cluster := total_clusters + FAT_START_ENT in
  let free := if negb (p_free p =? UNKNOWN) && (total_clusters <? p_free p) then UNKNOWN else p_free p in
  let prev := p_prev p mod max_cluster in
  let prev := if prev <? FAT_START_ENT then FAT_START_ENT else prev in
  inr (SbInfo bits (bs_fats b) (bs_reserved b) (p_length p) max_cluster (p_info p) (blksize_bits size) synchronous,
       Layout (bs_sec_per_clus b) cluster_bits dir_start (bs_dir_entries b) (ffs dir_per_block - 1) data_start (p_maxbytes p),
       free, prev).

(** ** The root directory *)

Section root_inode.
Context (sb : sb_info) (lay : layout) (ops : fatent_operations) (alloc : bool) (sleep : finode → finode).

Definition fat_calc_dir_size (ino : finode) (s : fatfs) : outcome (Z * finode * fatfs) :=
  let ino := set_size 0 ino in
  if i_start ino =? 0 then Ret (0, ino, s) else
  '(ret, fclus, _, ino, s) ← fat_get_cluster sb lay ops alloc sleep ino FAT_ENT_EOF s;
  if ret <? 0 then Ret (ret, ino, s) else Ret (0, set_size (s32 (Z.shiftl (fclus + 1) (cluster_bits lay))) ino, s).

(** The result, the link count and the inode. *)
Definition fat_read_root (root_cluster : Z) (ino : finode) (s : fatfs) : outcome (Z * Z * finode * fatfs) :=
  '(error, ino, s) ← (if fat_bits sb =? 32 then fat_calc_dir_size (set_start (s32 root_cluster) (i_logstart ino) ino) s
                      else Ret (0, set_size (dir_entries lay * 32) (set_start 0 (i_logstart ino) ino), s));
  if error <? 0 then Ret (error, 0, ino, s) else
  let cluster_size := 2 ^ cluster_bits lay in
  let ino := set_blocks (Z.shiftr (Z.land (i_size ino + (cluster_size - 1)) (Z.lnot (cluster_size - 1))) 9) ino in
  let ino := set_mmu (i_size ino) (set_start (i_start ino) 0 ino) in
  '(n, ino, s) ← fat_subdirs sb lay ops alloc sleep ino s;
  Ret (0, n + 2, ino, s).
End root_inode.

(** ** The whole mount *)

(** What the rest of the kernel answers: the parsed options or their error, and
    which allocations and code pages are there. *)
Record mount_env := MountEnv {
  kzalloc_ok : bool;
  options : Z + bool;
  synchronous : bool;
  dirsync : bool;
  nls_disk_ok : bool;
  isvfat : bool;
  nls_io_ok : bool;
  new_inode_ok : bool;
  d_alloc_ok : bool;
  cache_alloc : bool
}.

Record mounted_fs := MountedFs { m_sb : sb_info; m_lay : layout; m_ops : fatent_operations; m_fs : fatfs; m_root : finode; m_nlink : Z }.

(** [new_inode] with the number of the root. *)
Definition new_root (o : mount_env) : finode := Finode [] 0 1 0 0 0 0 0 MSDOS_ROOT_INO (dirsync o) true false.

Definition fat_fill_super (o : mount_env) (d : device) : outcome (Z + mounted_fs) :=
  if negb (kzalloc_ok o) then Ret (inl (- ENOMEM)) else
  match options o with
  | inl error => Ret (inl error)
  | inr usefree =>
    match read_boot d with
    | inl error => Ret (inl error)
    | inr (size, b) =>
      match read_fat32_part usefree d size b with
      | inl error => Ret (inl error)
      | inr p =>
        match fat_layout (synchronous o) size b p with
        | inl error => Ret (inl error)
        | inr (sb, lay, free, prev) =>
          match fat_ent_access_init sb with
          | None => Undef
          | Some ops =>
            let s := FatFs (dev_blocks d size) ∅ prev free false false in
            if negb (nls_disk_ok o) then Ret (inl (- EINVAL)) else
            if isvfat o && negb (nls_io_ok o) then Ret (inl (- EINVAL)) else
            if negb (new_inode_ok o) then Ret (inl (- ENOMEM)) else
            '(error, nlink, root, s) ← fat_read_root sb lay ops (cache_alloc o) (λ i, i) (p_root p) (new_root o) s;
            if error <? 0 then Ret (inl error) else
            if negb (d_alloc_ok o) then Ret (inl (- ENOMEM)) else
            Ret (inr (MountedFs sb lay ops s root nlink))
          end
        end
      end
    end
  end.

(** An image as a device with sectors of 512 bytes, all of them readable. *)
Definition image_device (bs : list Z) : device := Device bs (λ _ _, false) 512 512.

(** Nothing in the rest of the kernel fails. *)
Definition mount_all : mount_env := MountEnv true (inr false) false false true false true true true true.

(** ** Looking changes nothing but the read-only mark *)

Definition calm (s t : fatfs) : Prop := blk t = blk s ∧ prev_free t = prev_free s ∧ free_clusters t = free_clusters s ∧ dirty t = dirty s.

Lemma calm_trans s t r : calm s t → calm t r → calm s r.
Proof. intros (?&?&?&?) (?&?&?&?). repeat split; congruence. Qed.

(** Whatever a run that starts in [s] returns, it ends in a state that is calm. *)
Definition keeps {A} (s : fatfs) (m : outcome (A * fatfs)) : Prop := ∀ a t, m = Ret (a, t) → calm s t.

Lemma keeps_ret {A} (a : A) s : keeps s (Ret (a, s)).
Proof. by intros b t [= <- <-]. Qed.

Lemma keeps_panic {A} (a : A) s : keeps s (Ret (a, fat_fs_panic s)).
Proof. by intros b t [= <- <-]. Qed.

Lemma keeps_fail {A} s (m : outcome (A * fatfs)) : (∀ x, m ≠ Ret x) → keeps s m.
Proof. intros H a t E. by apply H in E. Qed.

Lemma keeps_bind {A B} s (m : outcome (A * fatfs)) (f : A * fatfs → outcome (B * fatfs)) :
  keeps s m → (∀ a t, keeps t (f (a, t))) → keeps s (mbind f m).
Proof.
  intros Hm Hf b r. destruct m as [[a t]| | |]; [|done..]. cbn [mbind outcome_bind]. intros E.
  exact (calm_trans _ _ _ (Hm _ _ eq_refl) (Hf _ _ _ _ E)).
Qed.

Lemma keeps_pure {A B} s (m : outcome A) (f : A → outcome (B * fatfs)) : (∀ a, keeps s (f a)) → keeps s (mbind f m).
Proof. intros Hf. destruct m as [a| | |]; [apply Hf|by apply keeps_fail..]. Qed.

Section calm.
Context (sb : sb_info) (lay : layout) (ops : fatent_operations) (alloc : bool) (sleep : finode → finode).

Lemma ent_read_keeps fe e s : keeps s (fat_ent_read sb ops fe e s).
Proof.
  unfold fat_ent_read. destruct (_ || _); [apply keeps_panic|]. destruct (ent_blocknr ops sb e) as [o b].
  apply keeps_pure. intros c. apply keeps_pure. intros [err f]. destruct (negb _); [apply keeps_ret|]. apply keeps_pure. intros v. apply keeps_ret.
Qed.

Lemma get_loop_keeps n cluster fclus dclus cid fe ino s : keeps s (get_loop sb lay ops alloc sleep n cluster fclus dclus cid fe ino s).
Proof.
  revert fclus dclus cid fe ino s. induction n as [|n IH]; intros; [by apply keeps_fail|]. cbn [get_loop].
  destruct (negb _); [apply keeps_pure; intros; apply keeps_ret|]. destruct (_ <? _); [apply keeps_panic|].
  apply keeps_bind; [apply ent_read_keeps|]. intros [nr f] t. destruct (nr <? 0); [apply keeps_ret|].
  destruct (nr =? _); [apply keeps_panic|]. destruct (nr =? _); [apply keeps_pure; intros; apply keeps_ret|].
  destruct (cache_contiguous cid nr) as [c cid']. apply IH.
Qed.

Lemma get_cluster_keeps ino cluster s : keeps s (fat_get_cluster sb lay ops alloc sleep ino cluster s).
Proof.
  unfold fat_get_cluster. destruct (_ =? _); [by apply keeps_fail|]. destruct (_ =? _); [apply keeps_ret|].
  destruct (fat_cache_lookup ino cluster) as [[r hit] ino']. destruct hit as [[[cid f] d]|]; apply get_loop_keeps.
Qed.

Lemma bmap_keeps ino sector s : keeps s (fat_bmap sb lay ops alloc sleep ino sector s).
Proof.
  unfold fat_bmap. destruct (_ && _); [destruct (_ <? _); apply keeps_ret|]. destruct (_ <=? _); [apply keeps_ret|].
  apply keeps_bind.
  - unfold fat_bmap_cluster. destruct (_ =? _); [apply keeps_ret|]. apply keeps_bind; [apply get_cluster_keeps|].
    intros [[[r f] d] i] t. destruct (_ <? _); [apply keeps_ret|]. destruct (_ =? _); [apply keeps_panic|apply keeps_ret].
  - intros [c i] t. destruct (c <? 0); [apply keeps_ret|]. destruct (c =? 0); apply keeps_ret.
Qed.

Lemma get_entry_keeps fuel pos dir s : keeps s (fat__get_entry sb lay ops alloc sleep fuel pos dir s).
Proof.
  revert pos dir s. induction fuel as [|fuel IH]; intros; [by apply keeps_fail|]. cbn [fat__get_entry].
  apply keeps_bind; [apply bmap_keeps|]. intros [[[err phys] m] dir'] t. destruct (_ || _); [apply keeps_ret|].
  destruct (negb _); [apply IH|apply keeps_ret].
Qed.

Lemma short_loop_keeps fuel cur pos dir s : keeps s (short_loop sb lay ops alloc sleep fuel cur pos dir s).
Proof.
  revert cur pos dir s. induction fuel as [|fuel IH]; intros; [by apply keeps_fail|]. cbn [short_loop]. apply keeps_bind.
  - unfold fat_get_entry. destruct cur as [[b o]|]; [destruct (_ <? _); [apply keeps_ret|]|]; apply get_entry_keeps.
  - intros [[[[b o]|] p] dir'] t; [|apply keeps_ret]. apply keeps_pure. intros e. destruct (is_short e); [apply keeps_ret|apply IH].
Qed.

Lemma subdirs_keeps fuel count cur pos dir s : keeps s (subdirs_loop sb lay ops alloc sleep fuel count cur pos dir s).
Proof.
  revert count cur pos dir s. induction fuel as [|fuel IH]; intros; [by apply keeps_fail|]. cbn [subdirs_loop].
  apply keeps_bind; [apply short_loop_keeps|].
  intros [[[[b o']|] p] dir'] t; [|apply keeps_ret]. apply keeps_pure. intros e. apply IH.
Qed.

Lemma read_root_keeps c ino s : keeps s (fat_read_root sb lay ops alloc sleep c ino s).
Proof.
  unfold fat_read_root. apply keeps_bind.
  - destruct (_ =? 32); [|apply keeps_ret]. unfold fat_calc_dir_size. destruct (_ =? 0); [apply keeps_ret|].
    apply keeps_bind; [apply get_cluster_keeps|]. intros [[[r f] d] i] t. destruct (_ <? _); apply keeps_ret.
  - intros [err i] t. destruct (_ <? _); [apply keeps_ret|]. apply keeps_bind; [apply subdirs_keeps|]. intros [n i'] r. apply keeps_ret.
Qed.
End calm.

(** ** Powers of two *)

Lemma power_of_2_spec n : is_power_of_2 n = true → 0 ≤ n → n = 2 ^ Z.log2 n.
Proof.
  unfold is_power_of_2. intros [H1%negb_true_iff%Z.eqb_neq H2%Z.eqb_eq]%andb_prop Hn.
  destruct (Z.log2_spec n) as [Hlo Hhi]; [lia|]. destruct (decide (n = 2 ^ Z.log2 n)) as [|Hne]; [done|]. exfalso.
  assert (Z.log2 (n - 1) = Z.log2 n) as El by (apply Z.log2_unique; [apply Z.log2_nonneg|lia]).
  assert (Z.testbit (Z.land n (n - 1)) (Z.log2 n) = true) as Ht.
  { rewrite Z.land_spec, Z.bit_log2 by lia. rewrite <- El at 1. rewrite Z.bit_log2; [done|].
    assert (0 < 2 ^ Z.log2 n) by (apply Z.pow_pos_nonneg; [lia|apply Z.log2_nonneg]). lia. }
  by rewrite H2, Z.bits_0 in Ht.
Qed.

Lemma ffs_pow2 k : 0 ≤ k < 64 → ffs (2 ^ k) = k + 1.
Proof.
  intros Hk. assert (0 < 2 ^ k) by (apply Z.pow_pos_nonneg; lia). unfold ffs. destruct (Z.eqb_spec (2 ^ k) 0); [lia|].
  destruct (bsf_word (2 ^ k)) as (Hr & Hb & _); [split; [lia|apply Z.pow_lt_mono_r; lia]|lia|].
  rewrite Z.pow2_bits_eqb in Hb by lia. apply Z.eqb_eq in Hb. lia.
Qed.

Lemma log2_range n a b : 0 ≤ a → 2 ^ a ≤ n ≤ 2 ^ b → a ≤ Z.log2 n ≤ b.
Proof.
  intros Ha [H1 H2]. assert (0 < 2 ^ a) by (apply Z.pow_pos_nonneg; lia). split.
  - rewrite <- (Z.log2_pow2 a) by lia. by apply Z.log2_le_mono.
  - destruct (decide (0 ≤ b)); [rewrite <- (Z.log2_pow2 b) by lia; by apply Z.log2_le_mono|].
    rewrite Z.pow_neg_r in H2 by lia. lia.
Qed.

Lemma blksize_bits_pow2 k : 9 ≤ k ≤ 12 → blksize_bits (2 ^ k) = k.
Proof. intros Hk. assert (k = 9 ∨ k = 10 ∨ k = 11 ∨ k = 12) as [-> | [-> | [-> | ->]]] by lia; reflexivity. Qed.

(** ** The boot sector that is read *)

(** Blocks of the device have at least a sector. *)
Definition dev_ok (d : device) : Prop := Forall is_byte (dev_bytes d) ∧ 512 ≤ bd_block_size d.

Lemma slice_slice bs size o n : 0 ≤ o → 0 ≤ n → o + n ≤ size → slice (slice bs 0 size) o n = slice bs o n.
Proof.
  intros. unfold slice. rewrite drop_0, skipn_firstn_comm, take_take. f_equal. lia.
Qed.

Lemma boot_sector_slice bs size : 512 ≤ size → boot_sector (slice bs 0 size) = boot_sector bs.
Proof. intros. unfold boot_sector. by rewrite !slice_slice by lia. Qed.

(** What the checks establish. *)
Record boot_ok (size : Z) (b : fat_boot_sector) : Prop := {
  ok_size : ∃ k, 9 ≤ k ≤ 12 ∧ size = 2 ^ k;
  ok_clus : ∃ j, 0 ≤ j ≤ 7 ∧ bs_sec_per_clus b = 2 ^ j;
  ok_res : 0 < bs_reserved b < 2 ^ 16;
  ok_fats : 0 < bs_fats b < 2 ^ 8;
  ok_dirents : 0 ≤ bs_dir_entries b < 2 ^ 16;
  ok_len : 0 ≤ bs_fat_length b < 2 ^ 16;
  ok_len32 : 0 ≤ bs_fat32_length b < 2 ^ 32;
  ok_secs : 0 ≤ bs_sectors b < 2 ^ 16 ∧ 0 ≤ bs_total_sect b < 2 ^ 32
}.

Lemma field_range bs o n : Forall is_byte bs → 0 ≤ n → 0 ≤ le_val (slice bs o n) < 2 ^ (8 * n).
Proof.
  intros Hb Hn. assert (Forall is_byte (slice bs o n)) as Hs by (apply Forall_take, Forall_drop; done).
  pose proof (le_val_range _ Hs) as Hr. assert (Z.of_nat (length (slice bs o n)) ≤ n) by (unfold slice; rewrite length_take; lia).
  split; [lia|]. eapply Z.lt_le_trans; [apply Hr|]. change 256 with (2 ^ 8). rewrite <- Z.pow_mul_r by lia. apply Z.pow_le_mono_r; lia.
Qed.

Lemma boot_ranges bs : Forall is_byte bs →
  let b := boot_sector bs in
  0 ≤ bs_sector_size b < 2 ^ 16 ∧ 0 ≤ bs_sec_per_clus b < 2 ^ 8 ∧ 0 ≤ bs_reserved b < 2 ^ 16 ∧ 0 ≤ bs_fats b < 2 ^ 8 ∧
  0 ≤ bs_dir_entries b < 2 ^ 16 ∧ 0 ≤ bs_fat_length b < 2 ^ 16 ∧ 0 ≤ bs_fat32_length b < 2 ^ 32 ∧
  0 ≤ bs_sectors b < 2 ^ 16 ∧ 0 ≤ bs_total_sect b < 2 ^ 32.
Proof.
  intros Hb b. pose proof (λ o, field_range bs o 1 Hb ltac:(lia)) as H1. pose proof (λ o, field_range bs o 2 Hb ltac:(lia)) as H2.
  pose proof (λ o, field_range bs o 4 Hb ltac:(lia)) as H4. unfold b, boot_sector. cbv zeta.
  exact (conj (H2 11) (conj (H1 13) (conj (H2 14) (conj (H1 16) (conj (H2 17) (conj (H2 22) (conj (H4 36) (conj (H2 19) (H4 32))))))))).
Qed.

Lemma dev_block_zero d size bs : dev_block d size 0 = Some bs → bs = slice (dev_bytes d) 0 size.
Proof. unfold dev_block. case_decide; [|done]. destruct (dev_bad d size 0); [done|]. by intros [= <-]. Qed.

Lemma min_blocksize_ge d : dev_ok d → 512 ≤ sb_min_blocksize d 512.
Proof.
  intros [_ Hd]. unfold sb_min_blocksize. destruct (sb_set_blocksize d _) eqn:E; [|done].
  unfold sb_set_blocksize in E. destruct (Z.ltb_spec 512 (hardsect_size d)); lia.
Qed.

Lemma read_boot_spec d size b :
  dev_ok d → read_boot d = inr (size, b) → b = boot_sector (dev_bytes d) ∧ size = bs_sector_size b ∧ boot_ok size b.
Proof.
  intros Hd. pose proof (min_blocksize_ge d Hd) as H5. unfold read_boot. destruct (dev_block d (sb_min_blocksize d 512) 0) as [bytes|] eqn:E; [|done].
  apply dev_block_zero in E as ->. rewrite boot_sector_slice by done. set (b0 := boot_sector (dev_bytes d)). cbv zeta.
  destruct (boot_ranges (dev_bytes d) (proj1 Hd)) as (R1 & R2 & R3 & R4 & R5 & R6 & R7 & R8 & R9). fold b0 in R1, R2, R3, R4, R5, R6, R7, R8, R9.
  destruct (Z.eqb_spec (bs_reserved b0) 0); [done|]. destruct (Z.eqb_spec (bs_fats b0) 0); [done|].
  destruct (FAT_VALID_MEDIA _); [|done]. cbn [negb].
  destruct (is_power_of_2 (bs_sector_size b0)) eqn:P1; [|done]. destruct (Z.ltb_spec (bs_sector_size b0) 512); [done|].
  destruct (Z.ltb_spec 4096 (bs_sector_size b0)); [done|]. cbn [negb orb].
  destruct (is_power_of_2 (bs_sec_per_clus b0)) eqn:P2; [|done]. cbn [negb]. destruct (Z.ltb_spec (bs_sector_size b0) (sb_min_blocksize d 512)); [done|].
  assert (boot_ok (bs_sector_size b0) b0) as Hok.
  { split; try done; try lia.
    - exists (Z.log2 (bs_sector_size b0)). split; [apply log2_range; [lia|split; [done|]; change (2 ^ 12) with 4096; lia]|]. exact (power_of_2_spec _ P1 (proj1 R1)).
    - exists (Z.log2 (bs_sec_per_clus b0)). pose proof (power_of_2_spec _ P2 (proj1 R2)) as E2. split; [|done].
      assert (Z.log2 (bs_sec_per_clus b0) < 8) by (apply Z.log2_lt_pow2; [|lia]; unfold is_power_of_2 in P2; destruct (Z.eqb_spec (bs_sec_per_clus b0) 0); [done|lia]).
      pose proof (Z.log2_nonneg (bs_sec_per_clus b0)). lia. }
  destruct (Z.ltb_spec (sb_min_blocksize d 512) (bs_sector_size b0)).
  - destruct (sb_set_blocksize _ _); [|done]. cbn [negb]. destruct (dev_block d (bs_sector_size b0) 0) as [bytes|] eqn:E; [|done].
    apply dev_block_zero in E as ->. rewrite boot_sector_slice by lia. by intros [= <- <-].
  - intros [= <- <-]. replace (sb_min_blocksize d 512) with (bs_sector_size b0) by lia. done.
Qed.

(** ** What a mount establishes *)

Record mount_wf (sb : sb_info) (lay : layout) (s : fatfs) : Prop := {
  wf_bits : fat_bits sb = 12 ∨ fat_bits sb = 16 ∨ fat_bits sb = 32;
  wf_blocksize : 9 ≤ s_blocksize_bits sb ≤ 12;
  wf_start : 0 < fat_start sb ∧ 0 < fats sb ∧ 0 ≤ fat_length sb;
  wf_max : FAT_START_ENT ≤ max_cluster sb ≤ MAX_FAT (fat_bits sb) + FAT_START_ENT;
  wf_table : 0 < fat_length sb → fat_size sb < 2 ^ 31 → max_cluster sb * fat_bits sb ≤ 8 * fat_size sb;
  wf_cluster : s_blocksize_bits sb ≤ cluster_bits lay ≤ s_blocksize_bits sb + 7 ∧
    sec_per_clus lay = 2 ^ (cluster_bits lay - s_blocksize_bits sb);
  wf_regions : dir_start lay = fat_start sb + fats sb * fat_length sb ∧
    data_start lay * s_blocksize sb = dir_start lay * s_blocksize sb + 32 * dir_entries lay;
  wf_root : 2 ^ dir_per_block_bits lay = dir_per_block sb ∧ 0 ≤ dir_entries lay;
  wf_prev : FAT_START_ENT ≤ prev_free s ∧ (FAT_START_ENT < max_cluster sb → prev_free s < max_cluster sb);
  wf_free : free_clusters s = UNKNOWN ∨ 0 ≤ free_clusters s ≤ max_cluster sb - FAT_START_ENT
}.

(** The part read for thirty-two bits is in range. *)
Record part_ok (p : fat32_part) : Prop := {
  ok_bits : p_bits p = 0 ∨ p_bits p = 32;
  ok_length : 0 ≤ p_length p < 2 ^ 32;
  ok_free : 0 ≤ p_free p;
  ok_prev : 0 ≤ p_prev p
}.

Lemma read_fat32_part_spec usefree d size b p :
  dev_ok d → boot_ok size b → read_fat32_part usefree d size b = inr p → part_ok p.
Proof.
  intros [Hd _] Hb. unfold read_fat32_part. destruct ((_ =? 0) && _).
  - destruct (dev_block d size _) as [f|] eqn:E; [|done]. assert (Forall is_byte f) as Hf.
    { unfold dev_block in E. case_decide; [|done]. destruct (dev_bad _ _ _); [done|]. injection E as <-. by apply Forall_take, Forall_drop. }
    intros [= <-]. pose proof (field_range f 488 4 Hf ltac:(lia)). pose proof (field_range f 492 4 Hf ltac:(lia)).
    split; cbn [p_bits p_length p_free p_prev]; [by right|apply (ok_len32 _ _ Hb)|destruct (_ && usefree); unfold UNKNOWN; lia|destruct (_ && _); unfold FAT_START_ENT; lia].
  - intros [= <-]. pose proof (ok_len _ _ Hb). split; cbn [p_bits p_length p_free p_prev]; [by left|lia|unfold UNKNOWN; lia|unfold FAT_START_ENT; lia].
Qed.

Lemma entries_whole n k : 0 ≤ n → 0 ≤ k → Z.land n (2 ^ k - 1) = 0 → n = 2 ^ k * (n / 2 ^ k).
Proof.
  intros Hn Hk. replace (2 ^ k - 1) with (Z.ones k) by (rewrite Z.ones_equiv; lia). rewrite Z.land_ones by lia. intros E.
  assert (0 < 2 ^ k) by (apply Z.pow_pos_nonneg; lia). pose proof (Z.div_mod n (2 ^ k) ltac:(lia)). lia.
Qed.

Lemma max_fat_bits bits : MAX_FAT bits + FAT_START_ENT < 2 ^ 31.
Proof. unfold MAX_FAT. destruct (bits =? 32), (bits =? 16); by vm_compute. Qed.

Lemma fat_layout_spec sync size b p sb lay free prev bl d :
  boot_ok size b → part_ok p → fat_layout sync size b p = inr (sb, lay, free, prev) → mount_wf sb lay (FatFs bl d prev free false false).
Proof.
  intros Hb Hp. destruct (ok_size _ _ Hb) as (k & Hk & ->). destruct (ok_clus _ _ Hb) as (j & Hj & Ej).
  pose proof (ok_res _ _ Hb). pose proof (ok_fats _ _ Hb). pose proof (ok_dirents _ _ Hb) as Hde. destruct Hp as [Hpb Hpl Hpf Hpp].
  assert (2 ^ k = 2 ^ (k - 5) * 32) as Ek by (change 32 with (2 ^ 5); rewrite <- Z.pow_add_r by lia; f_equal; lia).
  assert (2 ^ k / 32 = 2 ^ (k - 5)) as Edpb by (rewrite Ek, Z.div_mul by lia; done).
  assert (512 ≤ 2 ^ k ≤ 4096) as Hsz by (split; [apply (Z.pow_le_mono_r 2 9)|apply (Z.pow_le_mono_r 2 k 12)]; lia).
  unfold fat_layout. rewrite Ej, Edpb, <- Z.pow_add_r, !ffs_pow2, blksize_bits_pow2 by lia.
  destruct (Z.eqb_spec (Z.land (bs_dir_entries b) (2 ^ (k - 5) - 1)) 0) as [Hroot|]; [|done]. cbn [negb]. cbv zeta.
  apply entries_whole in Hroot; [|lia..].
  set (tc0 := u32 _). assert (0 ≤ tc0 < 2 ^ 32) as Ht0 by (apply wrapu_range; lia).
  set (bits := if p_bits p =? 32 then 32 else if MAX_FAT12 <? tc0 then 16 else 12).
  assert (bits = 12 ∨ bits = 16 ∨ bits = 32) as Hbits by (unfold bits; destruct (p_bits p =? 32), (MAX_FAT12 <? tc0); auto).
  set (fc := u32 (p_length p * 2 ^ k * 8 / bits)). assert (0 ≤ u32 (fc - FAT_START_ENT) < 2 ^ 32) as Hfc by (apply wrapu_range; lia).
  set (tc := Z.min tc0 _). destruct (Z.ltb_spec (MAX_FAT bits) tc) as [|Hmax]; [done|]. intros [= <- <- <- <-].
  pose proof (max_fat_bits bits). set (pr := p_prev p mod (tc + FAT_START_ENT)).
  assert (0 ≤ tc) as Htc by lia. unfold FAT_START_ENT in *. assert (0 ≤ pr < tc + 2) by (apply Z.mod_pos_bound; lia).
  split; cbn [fat_bits s_blocksize_bits fat_start fats fat_length max_cluster cluster_bits sec_per_clus dir_start data_start dir_entries dir_per_block_bits prev_free free_clusters];
    unfold dir_per_block, fat_size, s_blocksize, FAT_START_ENT; cbn [s_blocksize_bits fat_length]; try done; try lia.
  - intros Hl Hf. assert (fc = p_length p * 2 ^ k * 8 / bits) as Efc.
    { apply wrapu_small. split; [apply Z.div_pos; nia|apply Z.div_lt_upper_bound; nia]. }
    assert (2 ≤ fc) by (rewrite Efc; apply Z.div_le_lower_bound; nia). assert (tc ≤ fc - 2).
    { assert (u32 (fc - 2) = fc - 2) as E2 by (apply wrapu_small; lia || (split; [lia|]; unfold fc; pose proof (wrapu_range 32 (p_length p * 2 ^ k * 8 / bits)); lia)). unfold tc. rewrite E2. lia. }
    pose proof (Z.mul_div_le (p_length p * 2 ^ k * 8) bits ltac:(lia)). nia.
  - split; [lia|]. f_equal. lia.
  - split; [done|]. rewrite Z.mul_add_distr_r. f_equal. rewrite Hroot, Ek.
    rewrite (Z.mul_comm (2 ^ (k - 5)) (bs_dir_entries b / 2 ^ (k - 5))), <- Z.mul_assoc, Z.div_mul by lia. lia.
  - split; [|lia]. rewrite Edpb. f_equal. lia.
  - destruct (Z.ltb_spec pr 2); lia.
  - destruct (Z.eqb_spec (p_free p) UNKNOWN), (Z.ltb_spec tc (p_free p)); cbn [negb andb]; auto. right. lia.
Qed.

Lemma fat_layout_size sync size b p sb lay free prev :
  boot_ok size b → fat_layout sync size b p = inr (sb, lay, free, prev) → s_blocksize sb = size.
Proof.
  intros Hb El. destruct (ok_size _ _ Hb) as (k & Hk & ->). unfold fat_layout in El. destruct (negb _); [done|]. cbv zeta in El.
  destruct (MAX_FAT _ <? _); [done|]. injection El as <- _ _ _. unfold s_blocksize. cbn [s_blocksize_bits]. by rewrite blksize_bits_pow2.
Qed.

(** The interface the functions of the table are proved against holds. *)
Lemma mount_laws sb lay s ops :
  mount_wf sb lay s → fat_ent_access_init sb = Some ops → 0 < fat_length sb → fat_size sb < 2 ^ 31 →
  (fat_bits sb = 32 → max_cluster sb ≤ BAD_FAT32) → inhabited (FatentLaws sb ops).
Proof.
  intros Hm Ha Hl Hs H32. pose proof (wf_table _ _ _ Hm Hl Hs) as Ht. pose proof (wf_max _ _ _ Hm) as Hmax.
  destruct (wf_start _ _ _ Hm) as (H1 & _ & _).
  assert (geometry sb) as geo by (split; [apply (wf_blocksize _ _ _ Hm)|lia|done|done]).
  unfold fat_ent_access_init in Ha. unfold MAX_FAT, MAX_FAT12, MAX_FAT16, MAX_FAT32 in Hmax.
  destruct (wf_bits _ _ _ Hm) as [E|[E|E]]; rewrite E in *; cbn [Z.eqb Pos.eqb] in Ha, Hmax; injection Ha as <-; unfold FAT_START_ENT in Hmax; split.
  - apply fat12_laws; [done|lia|unfold FAT_START_ENT, BAD_FAT12; lia].
  - apply fat16_laws; [done|lia|unfold FAT_START_ENT, BAD_FAT16; lia].
  - apply fat32_laws; [done|lia|unfold FAT_START_ENT; lia].
Qed.

Lemma fill_super_wf o d m :
  dev_ok d → fat_fill_super o d = Ret (inr m) →
  mount_wf (m_sb m) (m_lay m) (m_fs m) ∧ fat_ent_access_init (m_sb m) = Some (m_ops m) ∧ blk (m_fs m) = dev_blocks d (s_blocksize (m_sb m)).
Proof.
  intros Hd. unfold fat_fill_super. destruct (kzalloc_ok o); [|done]. cbn [negb]. destruct (options o) as [|usefree]; [done|].
  destruct (read_boot d) as [|[size b]] eqn:Eb; [done|]. destruct (read_boot_spec d size b Hd Eb) as (_ & _ & Hb).
  destruct (read_fat32_part usefree d size b) as [|p] eqn:Ep; [done|]. pose proof (read_fat32_part_spec _ _ _ _ _ Hd Hb Ep) as Hp.
  destruct (fat_layout (synchronous o) size b p) as [|[[[sb lay] free] prev]] eqn:El; [done|].
  pose proof (fat_layout_spec _ _ _ _ _ _ _ _ (dev_blocks d size) ∅ Hb Hp El) as Hw.
  pose proof (fat_layout_size _ _ _ _ _ _ _ _ Hb El) as Es.
  destruct (fat_ent_access_init sb) as [ops|] eqn:Ea; [|done]. destruct (nls_disk_ok o); [|done]. destruct (isvfat o && _); [done|].
  destruct (new_inode_ok o); [|done]. cbn [negb].
  destruct (fat_read_root sb lay ops (cache_alloc o) (λ i, i) (p_root p) (new_root o) _) as [[[[err n] root] t]| | |] eqn:Er; [|done..].
  apply read_root_keeps in Er as (Bt & Pt & Ft & _). cbn [mbind outcome_bind]. destruct (err <? 0); [done|]. destruct (d_alloc_ok o); [|done].
  intros [= <-]. cbn [m_sb m_lay m_fs m_ops]. split; [|split; [done|by rewrite Bt, Es]].
  destruct Hw as [? ? ? ? ? ? ? ? Hpr Hfr]. split; try done; [by rewrite Pt|by rewrite Ft].
Qed.

(** ** Blocks of the device in the cache *)

Lemma omap_keys (g : Z → option (list Z)) l n : n ∈ (omap (λ n, bs ← g n; Some (n, bs)) l).*1 → n ∈ l.
Proof.
  rewrite list_elem_of_fmap. intros ([m bs] & -> & Hin). apply list_elem_of_omap in Hin as (m' & Hm & Hg). destruct (g m'); [|done]. by injection Hg as -> _.
Qed.

Lemma omap_NoDup (g : Z → option (list Z)) l : NoDup l → NoDup (omap (λ n, bs ← g n; Some (n, bs)) l).*1.
Proof.
  induction 1 as [|x l Hx Hl IH]; [constructor|]. cbn. destruct (g x) as [bs|]; cbn; [|done].
  constructor; [|done]. intros Hin%omap_keys. done.
Qed.

Lemma dev_blocks_lookup d size n bs : 0 < size → dev_block d size n = Some bs → dev_blocks d size !! n = Some bs.
Proof.
  intros Hs Hn. unfold dev_blocks. apply elem_of_list_to_map_1; [apply omap_NoDup, NoDup_seqZ|].
  apply list_elem_of_omap. exists n. rewrite Hn. split; [|done]. apply elem_of_seqZ.
  unfold dev_block in Hn. case_decide as Hr; [|done]. split; [lia|]. assert (n + 1 ≤ Z.of_nat (length (dev_bytes d)) / size) by (apply Z.div_le_lower_bound; lia). lia.
Qed.


Lemma image_dev_ok bs : Forall is_byte bs → dev_ok (image_device bs).
Proof. by split. Qed.

Lemma sample_dev_ok : dev_ok (image_device (sample_disk 3 600)).
Proof. refine (image_dev_ok _ (ok_bytes _ (sample_disk_ok 3 600 _ _))); set_solver. Qed.

Definition mounted_as (m : outcome (Z + mounted_fs)) (f : mounted_fs → Z) : Z := match m with Ret (inr m) => f m | _ => -1 end.

Lemma mounted_as_some m f v : mounted_as m f = v → 0 ≤ v → ∃ x, m = Ret (inr x) ∧ f x = v.
Proof. destruct m as [[|x]| | |]; cbn; intros <- ?; try lia. by exists x. Qed.


(** An image whose boot sector gives the table no sectors. *)
Definition no_table_disk : list Z := <[22%nat := 0]> (sample_disk 3 600).

(** A table of no sectors is accepted: the number of its entries less the two
    reserved ones wraps around to a huge number, which limits nothing, and the
    file system mounts with six clusters whose entries are nowhere. *)
Theorem mount_no_table :
  ∃ m, fat_fill_super mount_all (image_device no_table_disk) = Ret (inr m) ∧ fat_size (m_sb m) = 0 ∧ max_cluster (m_sb m) = 8 ∧
    fat_start (m_sb m) = dir_start (m_lay m).
Proof.
  assert (mounted_as (fat_fill_super mount_all (image_device no_table_disk))
    (λ m, if (fat_size (m_sb m) =? 0) && (max_cluster (m_sb m) =? 8) && (fat_start (m_sb m) =? dir_start (m_lay m)) then 1 else 0) = 1) as H
    by (by vm_compute).
  destruct (mounted_as_some _ _ _ H ltac:(done)) as (m & E & Hc). exists m. split; [exact E|]. clear H E. cbv beta in Hc.
  destruct (Z.eqb_spec (fat_size (m_sb m)) 0), (Z.eqb_spec (max_cluster (m_sb m)) 8), (Z.eqb_spec (fat_start (m_sb m)) (dir_start (m_lay m))); done.
Qed.
