(* ===== verification/FatInode.v ===== *)
(** The inodes of a FAT file system ([fs/fat/inode.c]): the hash table that finds
    an inode by the position of its directory entry, filling an inode from an
    entry and writing it back, releasing it, and the file handles for export.

    Inodes are shared objects named by their address.  The VFS is an argument
    ([vfs]): where a new inode is allocated, the number it gets, the time, and
    what other tasks do while a block is read, and how the writing of inodes goes.  [i_version] and the
    operation tables have no effect on the values and are left out. *)

From S2P Require Import Prelude Fat12 Fatent FatentLaws FatAlloc FatDate FatCache FatFile FatDir FatMount.

(** ** Data *)

Definition ATTR_RO : Z := 1.
Definition ATTR_SYS : Z := 4.
Definition ATTR_UNUSED : Z := 46.
Definition S_IFMT : Z := 61440.
Definition S_IFDIR : Z := 16384.
Definition S_IFREG : Z := 32768.
Definition S_IRUGO : Z := 292.
Definition S_IWUGO : Z := 146.
Definition S_IXUGO : Z := 73.
Definition S_IRWXUGO : Z := 511.
Definition S_IMMUTABLE : Z := 8.
Definition ESTALE : Z := 116.
Definition FAT_HASH_BITS : Z := 8.
Definition FAT_HASH_SIZE : Z := 256.
Definition FAT_HASH_MASK : Z := 255.

Definition S_ISDIR (mode : Z) : bool := Z.land mode S_IFMT =? S_IFDIR.

Record stamps := Stamps { mtime : Z; ctime : Z; ctime_nsec : Z; atime : Z }.

(** [struct inode] with its [struct msdos_inode_info]: the members the functions
    on chains and directories use are in [node]. *)
Record inode := Inode {
  node : finode;
  ei_pos : Z;
  i_attrs : Z;
  i_mode : Z;
  i_nlink : Z;
  i_generation : Z;
  i_times : stamps;
  i_count : Z;
  i_freeing : bool;
  i_flags : Z;
  i_uid : Z;
  i_gid : Z
}.

Definition set_node v i := Inode v (ei_pos i) (i_attrs i) (i_mode i) (i_nlink i) (i_generation i) (i_times i) (i_count i) (i_freeing i) (i_flags i) (i_uid i) (i_gid i).
Definition set_pos v i := Inode (node i) v (i_attrs i) (i_mode i) (i_nlink i) (i_generation i) (i_times i) (i_count i) (i_freeing i) (i_flags i) (i_uid i) (i_gid i).
Definition set_attrs v i := Inode (node i) (ei_pos i) v (i_mode i) (i_nlink i) (i_generation i) (i_times i) (i_count i) (i_freeing i) (i_flags i) (i_uid i) (i_gid i).
Definition set_nlink v i := Inode (node i) (ei_pos i) (i_attrs i) (i_mode i) v (i_generation i) (i_times i) (i_count i) (i_freeing i) (i_flags i) (i_uid i) (i_gid i).
Definition set_times v i := Inode (node i) (ei_pos i) (i_attrs i) (i_mode i) (i_nlink i) (i_generation i) v (i_count i) (i_freeing i) (i_flags i) (i_uid i) (i_gid i).
Definition set_count v i := Inode (node i) (ei_pos i) (i_attrs i) (i_mode i) (i_nlink i) (i_generation i) (i_times i) v (i_freeing i) (i_flags i) (i_uid i) (i_gid i).

(** The options of [struct fat_mount_options] that inodes depend on. *)
Record inode_options := InodeOptions {
  fs_uid : Z; fs_gid : Z; fs_fmask : Z; fs_dmask : Z; showexec : bool; sys_immutable : bool; opt_isvfat : bool; opt_flush : bool; tz_minuteswest : Z
}.

(** A mounted volume: its blocks, the inodes in memory and the buckets of
    [inode_hashtable].  An [hlist] is the sequence of its nodes; a node is named
    by its inode. *)
Record volume := Volume { fs : fatfs; inodes : gmap Z inode; inode_hashtable : list (list Z) }.

Definition set_fs s v := Volume s (inodes v) (inode_hashtable v).
Definition set_table h v := Volume (fs v) (inodes v) h.
Definition put_inode (a : Z) (i : inode) (v : volume) : volume := Volume (fs v) (<[a := i]> (inodes v)) (inode_hashtable v).

Definition get_inode (a : Z) (v : volume) : outcome inode := match inodes v !! a with Some i => Ret i | None => Undef end.

Definition on_inode (a : Z) (f : inode → inode) (v : volume) : outcome volume := i ← get_inode a v; Ret (put_inode a (f i) v).

(** A function on a directory or file, applied to the inode at [a]. *)
Definition with_node {R} (a : Z) (f : finode → fatfs → outcome (R * finode * fatfs)) (v : volume) : outcome (R * volume) :=
  i ← get_inode a v;
  '(r, n, s) ← f (node i) (fs v);
  Ret (r, put_inode a (set_node n i) (set_fs s v)).

(** ** The hash table *)

Definition fat_hash_init (v : volume) : volume := set_table (replicate (Z.to_nat FAT_HASH_SIZE) []) v.

Section hash.
Context (sb_addr : Z).

Definition fat_hash (i_pos : Z) : Z :=
  let tmp := Z.lor (u64 i_pos) sb_addr in
  let tmp := u64 (tmp + Z.shiftr tmp FAT_HASH_BITS + Z.shiftr tmp (FAT_HASH_BITS * 2)) in
  Z.land tmp FAT_HASH_MASK.

(** [hlist_del_init]: a node is in one list at most. *)
Definition hlist_del_init (a : Z) (h : list (list Z)) : list (list Z) := filter (λ b, b ≠ a) <$> h.

Definition is_hashed (a : Z) (h : list (list Z)) : bool := existsb (λ l, bool_decide (a ∈ l)) h.

(** Adding a node that is in a list already would tie the two lists together. *)
Definition fat_attach (a i_pos : Z) (v : volume) : outcome volume :=
  v ← on_inode a (set_pos i_pos) v;
  if is_hashed a (inode_hashtable v) then Undef else
  chain ← aget (inode_hashtable v) (fat_hash i_pos);
  h ← aset (inode_hashtable v) (fat_hash i_pos) (a :: chain);
  Ret (set_table h v).

Definition fat_detach (a : Z) (v : volume) : outcome volume :=
  v ← on_inode a (set_pos 0) v;
  Ret (set_table (hlist_del_init a (inode_hashtable v)) v).

(** What a rename does with the table: the position of the inode that is replaced,
    which leaves the table, and the move of an inode to a position. *)
Definition rename_detach (n : Z) (v : volume) : outcome (Z * volume) :=
  j ← get_inode n v; v ← fat_detach n v; Ret (ei_pos j, v).

Definition rename_attach (a i_pos : Z) (v : volume) : outcome volume := v ← fat_detach a v; fat_attach a i_pos v.

(** [igrab] gives nothing for an inode that is being freed, and the search goes
    on. *)
Fixpoint iget_loop (chain : list Z) (i_pos : Z) (v : volume) : outcome (option Z * volume) :=
  match chain with
  | [] => Ret (None, v)
  | a :: chain =>
    i ← get_inode a v;
    if negb (ei_pos i =? i_pos) then iget_loop chain i_pos v else
    if i_freeing i then iget_loop chain i_pos v else
    Ret (Some a, put_inode a (set_count (i_count i + 1) i) v)
  end.

Definition fat_iget (i_pos : Z) (v : volume) : outcome (option Z * volume) :=
  chain ← aget (inode_hashtable v) (fat_hash i_pos); iget_loop chain i_pos v.
End hash.

(** ** Entries and inodes *)

Definition de_time e := le_val (slice e 22 2).
Definition de_date e := le_val (slice e 24 2).
Definition de_start e := le_val (slice e 26 2).
Definition de_starthi e := le_val (slice e 20 2).
Definition de_size e := le_val (slice e 28 4).
Definition de_ctime_cs e := le_val (slice e 13 1).
Definition de_ctime e := le_val (slice e 14 2).
Definition de_cdate e := le_val (slice e 16 2).
Definition de_adate e := le_val (slice e 18 2).

Definition MSDOS_MKMODE (a m : Z) : Z := Z.land m (if z2b (Z.land a ATTR_RO) then Z.lor S_IRUGO S_IXUGO else S_IRWXUGO).

(** [is_exec]: the extension is one of EXE, COM and BAT. *)
Definition exe_extensions : list (list Z) := [[69; 88; 69]; [67; 79; 77]; [66; 65; 84]].
Definition is_exec (ext : list Z) : bool := existsb (strncmp_eq 3 ext) exe_extensions.

Definition fat_attr (i : inode) : Z :=
  u8 (Z.lor (Z.lor (if z2b (Z.land (i_mode i) S_IWUGO) then 0 else ATTR_RO) (if S_ISDIR (i_mode i) then ATTR_DIR else 0)) (i_attrs i)).

Record vfs := Vfs {
  new_inode : volume → option Z;
  iunique : Z;
  get_seconds : Z;
  new_dirsync : bool;
  while_reading : volume → volume;
  writeback_inode : Z → volume → Z * volume;
  filemap_flush : Z
}.

Section inodes.
Context (env : env) (sb : sb_info) (lay : layout) (ops : fatent_operations) (alloc : bool) (sleep : finode → finode).
Context (o : inode_options) (sb_addr : Z) (k : vfs).

(** The first cluster an entry names. *)
Definition entry_start (de : msdos_dir_entry) : Z :=
  if fat_bits sb =? 32 then s32 (Z.lor (de_start de) (Z.shiftl (de_starthi de) 16)) else de_start de.

Definition blocks_of (size : Z) : Z := Z.shiftr (Z.land (size + (2 ^ cluster_bits lay - 1)) (Z.lnot (2 ^ cluster_bits lay - 1))) 9.

(** The node of an inode filled as a directory or as a file. *)
Definition set_kind (d : bool) (n : finode) : finode :=
  Finode (cache_lru n) (nr_caches n) (cache_valid_id n) (i_start n) (i_logstart n) (i_blocks n) (mmu_private n) (i_size n) (i_ino n) (is_dirsync n) d (i_dirty n).

Definition fill_times (de : msdos_dir_entry) : outcome stamps :=
  mtime ← date_dos2unix (tz_minuteswest o) (de_time de) (de_date de);
  if opt_isvfat o then
    ctime ← date_dos2unix (tz_minuteswest o) (de_ctime de) (de_cdate de);
    atime ← date_dos2unix (tz_minuteswest o) 0 (de_adate de);
    Ret (Stamps mtime (ctime + de_ctime_cs de / 100) (de_ctime_cs de mod 100 * 10000000) atime)
  else Ret (Stamps mtime mtime 0 mtime).

Definition dir_mode (attr : Z) : Z := Z.lor (MSDOS_MKMODE attr (Z.land S_IRWXUGO (Z.lnot (fs_dmask o)))) S_IFDIR.

Definition file_mode (attr : Z) (ext : list Z) : Z :=
  Z.lor (MSDOS_MKMODE attr (Z.land (if showexec o && negb (is_exec ext) then Z.lor S_IRUGO S_IWUGO else S_IRWXUGO) (Z.lnot (fs_fmask o)))) S_IFREG.

Definition fat_fill_inode (i : inode) (de : msdos_dir_entry) (s : fatfs) : outcome (Z * inode * fatfs) :=
  let start := entry_start de in
  let attr := de_attr de in
  let dir := z2b (Z.land attr ATTR_DIR) && negb (IS_FREE (de_name de)) in
  let n := set_start start start (set_kind dir (node i)) in
  '(error, nlink, n, s) ←
    (if dir then
       '(error, n, s) ← fat_calc_dir_size sb lay ops alloc sleep n s;
       if error <? 0 then Ret (error, i_nlink i, n, s) else
       '(nlink, n, s) ← fat_subdirs sb lay ops alloc sleep (set_mmu (i_size n) n) s;
       Ret (0, nlink, n, s)
     else Ret (0, i_nlink i, set_mmu (de_size de) (set_size (de_size de) n), s));
  if error <? 0 then Ret (error, set_pos 0 (set_node n i), s) else
  let generation := if dir then Z.land (u32 (get_seconds k)) (Z.lnot 1) else Z.lor (u32 (get_seconds k)) 1 in
  let mode := if dir then dir_mode attr else file_mode attr (drop 8 (de_name de)) in
  let flags := if z2b (Z.land attr ATTR_SYS) && sys_immutable o then Z.lor (i_flags i) S_IMMUTABLE else i_flags i in
  times ← fill_times de;
  Ret (0, Inode (set_blocks (blocks_of (i_size n)) n) 0 (Z.land attr ATTR_UNUSED) mode nlink generation times (i_count i) (i_freeing i) flags (fs_uid o) (fs_gid o), s).

(** A new inode: [new_inode] with the memory of a fresh object. *)
Definition fresh_inode : inode :=
  Inode (Finode [] 0 1 0 0 0 0 0 (iunique k) (new_dirsync k) false false) 0 0 0 1 0 (Stamps 0 0 0 0) 1 false 0 0 0.

(** [fat_build_inode]: the inode or an error.  On failure the last reference to the
    new inode is dropped and it is gone. *)
Definition fat_build_inode (de : msdos_dir_entry) (i_pos : Z) (v : volume) : outcome ((Z + Z) * volume) :=
  '(r, v) ← fat_iget sb_addr i_pos v;
  match r with
  | Some a => Ret (inr a, v)
  | None =>
    match new_inode k v with
    | None => Ret (inl (- ENOMEM), v)
    | Some a =>
      '(err, i, s) ← fat_fill_inode fresh_inode de (fs v);
      if negb (err =? 0) then Ret (inl err, set_fs s v) else
      v ← fat_attach sb_addr a i_pos (put_inode a i (set_fs s v));
      Ret (inr a, v)
    end
  end.

(** What [fat_write_inode] makes of the entry it finds. *)
Definition raw_entry (i : inode) (e : msdos_dir_entry) : outcome msdos_dir_entry :=
  let n := node i in
  '(time, date) ← fat_date_unix2dos (tz_minuteswest o) (mtime (i_times i));
  extra ← (if opt_isvfat o then
             '(ct, cd) ← fat_date_unix2dos (tz_minuteswest o) (ctime (i_times i));
             '(_, ad) ← fat_date_unix2dos (tz_minuteswest o) (atime (i_times i));
             Ret (u8 (Z.land (ctime (i_times i)) 1 * 100 + ctime_nsec (i_times i) / 10000000) :: le_bytes 2 ct ++ le_bytes 2 cd ++ le_bytes 2 ad)
           else Ret (slice e 13 7));
  Ret (de_name e ++ [fat_attr i] ++ slice e 12 1 ++ extra ++ le_bytes 2 (Z.shiftr (i_logstart n) 16) ++
       le_bytes 2 time ++ le_bytes 2 date ++ le_bytes 2 (i_logstart n) ++
       le_bytes 4 (if S_ISDIR (i_mode i) then 0 else i_size n)).

(** The place of an entry on disk. *)
Definition pos_place (i_pos : Z) : ptr := (Z.shiftr i_pos (dir_per_block_bits lay), Z.land i_pos (dir_per_block sb - 1) * 32).

(** [fat_write_inode].  Other tasks run while the block is read, and may move the
    inode; then everything is done again. *)
Fixpoint fat_write_inode (fuel : nat) (a : Z) (wait : bool) (v : volume) : outcome (Z * volume) :=
  match fuel with
  | O => NoFuel
  | S fuel =>
    i ← get_inode a v;
    let i_pos := ei_pos i in
    if (i_ino (node i) =? MSDOS_ROOT_INO) || (i_pos =? 0) then Ret (0, v) else
    let p := pos_place i_pos in
    let v := while_reading k v in
    if negb (sb_bread (fs v) p.1) then Ret (- EIO, v) else
    i ← get_inode a v;
    if negb (ei_pos i =? i_pos) then fat_write_inode fuel a wait v else
    e ← dirent (fs v) p;
    e ← raw_entry i e;
    s ← poke_bytes (fs v) p e;
    let s := mark_buffer_dirty p.1 s in
    let '(err, s) := if wait then sync_dirty_buffer env p.1 s else (0, s) in
    Ret (err, set_fs s v)
  end.

Definition fat_sync_inode (fuel : nat) (a : Z) (v : volume) : outcome (Z * volume) := fat_write_inode fuel a true v.

(** [fat_clear_inode]: the cache of clusters is emptied and the inode leaves the
    table. *)
Definition fat_clear_inode (a : Z) (v : volume) : outcome volume :=
  v ← on_inode a (λ i, set_node (fat_cache_inval_inode (node i)) i) v;
  Ret (set_table (hlist_del_init a (inode_hashtable v)) v).

(** [fat_delete_inode] of an inode that is not bad; [clear_inode] calls
    [fat_clear_inode]. *)
Definition fat_delete_inode (a : Z) (v : volume) : outcome volume :=
  '(_, v) ← with_node a (λ n s, '(n, s) ← fat_truncate env sb lay ops 0 alloc sleep (set_size 0 n) s; Ret ((), n, s)) v;
  fat_clear_inode a v.

(** [fat_flush_inodes] starts the writing of two inodes and of the device. *)
Definition fat_flush_inodes (i1 i2 : option Z) (v : volume) : Z * volume :=
  if negb (opt_flush o) then (0, v) else
  let '(ret, v) := match i1 with Some a => writeback_inode k a v | None => (0, v) end in
  let '(ret, v) := if ret =? 0 then match i2 with Some a => writeback_inode k a v | None => (ret, v) end else (ret, v) in
  (if ret =? 0 then filemap_flush k else ret, v).

Definition fat_write_super (v : volume) : outcome volume :=
  let s := FatFs (blk (fs v)) (dirty (fs v)) (prev_free (fs v)) (free_clusters (fs v)) false (s_rdonly (fs v)) in
  if s_rdonly s then Ret (set_fs s v) else s ← fat_clusters_flush sb s; Ret (set_fs s v).

Record kstatfs := Kstatfs { f_bsize : Z; f_blocks : Z; f_bfree : Z; f_namelen : Z }.

Definition fat_statfs (v : volume) : outcome ((Z + kstatfs) * volume) :=
  '(err, s) ← (if free_clusters (fs v) =? UNKNOWN then fat_count_free_clusters sb ops (fs v) else Ret (0, fs v));
  if negb (err =? 0) then Ret (inl err, set_fs s v) else
  Ret (inr (Kstatfs (2 ^ cluster_bits lay) (max_cluster sb - FAT_START_ENT) (free_clusters s) (if opt_isvfat o then 260 else 12)), set_fs s v).

(** ** File handles *)

Definition fat_encode_fh (i parent : inode) (len : Z) : option (list Z) :=
  if len <? 5 then None else
  let ipos_h := u32 (Z.shiftr (ei_pos i) 8) in
  let ipos_m := u32 (Z.shiftl (Z.land (ei_pos i) 0xf0) 24) in
  let ipos_l := u32 (Z.shiftl (Z.land (ei_pos i) 0x0f) 28) in
  Some [u32 (i_ino (node i)); u32 (i_generation i); ipos_h; Z.lor ipos_m (u32 (i_logstart (node i))); Z.lor ipos_l (u32 (i_logstart (node parent)))].

(** The position and the first cluster a handle names. *)
Definition fh_pos (fh : list Z) : outcome (Z * Z) :=
  f2 ← aget fh 2; f3 ← aget fh 3; f4 ← aget fh 4;
  Ret (Z.lor (Z.shiftl f2 8) (Z.lor (Z.land (Z.shiftr f3 24) 0xf0) (Z.shiftr f4 28)), Z.land f3 0x0fffffff).

Definition iput (a : Z) (v : volume) : outcome volume := on_inode a (λ i, set_count (i_count i - 1) i) v.

(** [fat_get_dentry] up to the dentry: the inode, by its number in the VFS's own
    table ([iget], of a number there is no bad inode) and by its position. *)
Definition fat_get_dentry (iget : Z → volume → option Z) (d_alloc_anon : bool) (fh : list Z) (v : volume) : outcome ((Z + Z) * volume) :=
  f0 ← aget fh 0; f1 ← aget fh 1;
  '(r, v) ← (match iget f0 v with
             | Some a =>
               v ← on_inode a (λ i, set_count (i_count i + 1) i) v;
               i ← get_inode a v;
               if negb (i_generation i =? f1) then v ← iput a v; Ret (None, v) else Ret (Some a, v)
             | None => Ret (None, v)
             end);
  '(r, v) ← (match r with
             | Some a => Ret (Some a, v)
             | None =>
               '(i_pos, logstart) ← fh_pos fh;
               '(r, v) ← fat_iget sb_addr i_pos v;
               match r with
               | Some a => i ← get_inode a v; if negb (i_logstart (node i) =? logstart) then v ← iput a v; Ret (None, v) else Ret (Some a, v)
               | None => Ret (None, v)
               end
             end);
  match r with
  | None => Ret (inl (- ESTALE), v)
  | Some a => if d_alloc_anon then Ret (inr a, v) else v ← iput a v; Ret (inl (- ENOMEM), v)
  end.

(** [fat_get_parent] up to the dentry. *)
Definition fat_get_parent (d_alloc_anon : bool) (child : Z) (v : volume) : outcome ((Z + Z) * volume) :=
  '(err, r, v) ← with_node child (λ n s, '(err, r, n, s) ← fat_get_dotdot_entry sb lay ops alloc sleep n s; Ret ((err, r), n, s)) v;
  match r with
  | None => Ret (inl err, v)
  | Some (de, i_pos) =>
    e ← dirent (fs v) de;
    '(r, v) ← fat_build_inode e i_pos v;
    match r with
    | inl err => Ret (inl err, v)
    | inr a => if d_alloc_anon then Ret (inr a, v) else v ← iput a v; Ret (inl (- ENOMEM), v)
    end
  end.
End inodes.

(** ** The table and the inodes agree *)

Section table.
Context (sb_addr : Z).

Definition hashed (v : volume) (a : Z) : Prop := ∃ h l, inode_hashtable v !! h = Some l ∧ a ∈ l.

(** An inode in memory that can be handed out for a position. *)
Definition live_at (v : volume) (a i_pos : Z) : Prop := hashed v a ∧ ∃ i, inodes v !! a = Some i ∧ ei_pos i = i_pos ∧ i_freeing i = false.

Record hash_ok (v : volume) : Prop := {
  h_len : length (inode_hashtable v) = Z.to_nat FAT_HASH_SIZE;
  h_place h l a : inode_hashtable v !! h = Some l → a ∈ l → ∃ i, inodes v !! a = Some i ∧ h = Z.to_nat (fat_hash sb_addr (ei_pos i));
  h_unique a b i_pos : live_at v a i_pos → live_at v b i_pos → a = b
}.

Lemma fat_hash_range i_pos : 0 ≤ fat_hash sb_addr i_pos < FAT_HASH_SIZE.
Proof.
  unfold fat_hash. cbv zeta. rewrite (land_ones_mod _ 8 FAT_HASH_MASK) by done. by apply Z.mod_pos_bound.
Qed.

Lemma bucket v i_pos : hash_ok v → ∃ l, inode_hashtable v !! Z.to_nat (fat_hash sb_addr i_pos) = Some l ∧ aget (inode_hashtable v) (fat_hash sb_addr i_pos) = Ret l.
Proof.
  intros Hv. pose proof (fat_hash_range i_pos) as Hr. pose proof (h_len _ Hv) as Hl.
  destruct (lookup_lt_is_Some_2 (inode_hashtable v) (Z.to_nat (fat_hash sb_addr i_pos))) as [l El]; [rewrite Hl; unfold FAT_HASH_SIZE in *; lia|].
  exists l. split; [done|]. apply aget_lookup; [lia|done].
Qed.

Lemma init_hashed v a : ¬ hashed (fat_hash_init v) a.
Proof. intros (h & l & Hl & Ha). cbn in Hl. apply lookup_replicate in Hl as [-> _]. set_solver. Qed.

Lemma init_hash_ok v : hash_ok (fat_hash_init v).
Proof.
  split; [done| |].
  - intros h l a Hl Ha. destruct (init_hashed v a). by exists h, l.
  - intros a b p [Ha _]. by destruct (init_hashed v a).
Qed.

Lemma is_hashed_spec v a : is_hashed a (inode_hashtable v) = true ↔ hashed v a.
Proof.
  unfold is_hashed, hashed. rewrite existsb_exists. split.
  - intros (l & Hl & Ha). apply list_elem_of_In, list_elem_of_lookup_1 in Hl as [h Hh]. exists h, l. split; [done|]. by apply bool_decide_eq_true in Ha.
  - intros (h & l & Hl & Ha). exists l. split; [|by apply bool_decide_eq_true]. apply list_elem_of_In. by eapply list_elem_of_lookup_2.
Qed.

(** Searching a bucket. *)
Lemma iget_loop_spec v chain i_pos :
  (∀ a, a ∈ chain → is_Some (inodes v !! a)) →
  (∃ a i, iget_loop chain i_pos v = Ret (Some a, put_inode a (set_count (i_count i + 1) i) v) ∧ a ∈ chain ∧ inodes v !! a = Some i ∧
     ei_pos i = i_pos ∧ i_freeing i = false) ∨
  (iget_loop chain i_pos v = Ret (None, v) ∧ ∀ a i, a ∈ chain → inodes v !! a = Some i → ei_pos i = i_pos → i_freeing i = true).
Proof.
  induction chain as [|a chain IH]; intros Hall; [right; split; [done|]; set_solver|]. cbn [iget_loop].
  destruct (Hall a) as [i Hi]; [set_solver|]. unfold get_inode. rewrite Hi. cbn [mbind outcome_bind].
  destruct (Z.eqb_spec (ei_pos i) i_pos) as [Ep|Ep]; cbn [negb].
  - destruct (i_freeing i) eqn:Ef; [|left; exists a, i; split; [done|]; split; [set_solver|done]].
    destruct IH as [(b & j & E & Hb & Hr)|[E Hn]]; [set_solver|left; exists b, j; split; [done|]; split; [set_solver|done]|].
    right. split; [done|]. intros b j [->|Hb]%elem_of_cons Hj; [|by apply (Hn b)]. rewrite Hi in Hj. by injection Hj as <-.
  - destruct IH as [(b & j & E & Hb & Hr)|[E Hn]]; [set_solver|left; exists b, j; split; [done|]; split; [set_solver|done]|].
    right. split; [done|]. intros b j [->|Hb]%elem_of_cons Hj; [|by apply (Hn b)]. rewrite Hi in Hj. by injection Hj as <-.
Qed.

(** [fat_iget] finds the inode of a position exactly when there is one. *)
Lemma fat_iget_spec v i_pos :
  hash_ok v →
  (∃ a i, fat_iget sb_addr i_pos v = Ret (Some a, put_inode a (set_count (i_count i + 1) i) v) ∧ live_at v a i_pos ∧ inodes v !! a = Some i) ∨
  (fat_iget sb_addr i_pos v = Ret (None, v) ∧ ∀ a, ¬ live_at v a i_pos).
Proof.
  intros Hv. destruct (bucket v i_pos Hv) as (l & Hl & Eg). unfold fat_iget. rewrite Eg. cbn [mbind outcome_bind].
  destruct (iget_loop_spec v l i_pos) as [(a & i & E & Ha & Hi & Hp & Hf)|[E Hn]].
  - intros a Ha. destruct (h_place _ Hv _ _ _ Hl Ha) as (i & Hi & _). by exists i.
  - left. exists a, i. split; [done|]. split; [|done]. split; [by exists (Z.to_nat (fat_hash sb_addr i_pos)), l|]. by exists i.
  - right. split; [done|]. intros a [(h & l' & Hl' & Ha) (i & Hi & Hp & Hf)].
    destruct (h_place _ Hv _ _ _ Hl' Ha) as (i' & Hi' & Eh). rewrite Hi in Hi'. injection Hi' as <-. rewrite Hp in Eh. subst h.
    rewrite Hl in Hl'. injection Hl' as <-. by rewrite (Hn a i Ha Hi Hp) in Hf.
Qed.

(** Changes of an inode that leave its position alone. *)
Lemma hash_ok_put v a i j s :
  hash_ok v → inodes v !! a = Some i → ei_pos j = ei_pos i → (i_freeing j = false → i_freeing i = false) →
  hash_ok (put_inode a j (set_fs s v)).
Proof.
  intros Hv Hi Hp Hf. assert (∀ b p, live_at (put_inode a j (set_fs s v)) b p → live_at v b p) as Hlive.
  { intros b p [Hh (x & Hx & Hpx & Hfx)]. split; [done|]. cbn in Hx. destruct (decide (b = a)) as [->|Hne].
    - rewrite lookup_insert_eq in Hx. injection Hx as <-. exists i. split; [done|]. split; [congruence|by apply Hf].
    - rewrite lookup_insert_ne in Hx by done. by exists x. }
  split; [apply (h_len _ Hv)| |].
  - intros h l b Hl Hb. destruct (h_place _ Hv h l b Hl Hb) as (x & Hx & Eh). cbn. destruct (decide (b = a)) as [->|Hne].
    + rewrite lookup_insert_eq. exists j. split; [done|]. rewrite Hp. congruence.
    + rewrite lookup_insert_ne by done. by exists x.
  - intros b c p Hb Hc. apply (h_unique _ Hv b c p); by apply Hlive.
Qed.
Lemma hashed_detach v a b s ins : hashed (Volume s ins (hlist_del_init a (inode_hashtable v))) b ↔ b ≠ a ∧ hashed v b.
Proof.
  unfold hashed, hlist_del_init. cbn [inode_hashtable]. split.
  - intros (h & l & Hl & Hb). rewrite list_lookup_fmap in Hl. destruct (inode_hashtable v !! h) as [l'|] eqn:E; [|done]. injection Hl as <-.
    apply list_elem_of_filter in Hb as [Hne Hb]. split; [done|]. by exists h, l'.
  - intros [Hne (h & l & Hl & Hb)]. exists h, (filter (λ c, c ≠ a) l). rewrite list_lookup_fmap, Hl. split; [done|]. by apply list_elem_of_filter.
Qed.

(** Taking an inode out of the table, whatever happens to the inode itself. *)
Lemma hash_ok_del v a j s :
  hash_ok v → hash_ok (Volume s (<[a := j]> (inodes v)) (hlist_del_init a (inode_hashtable v))).
Proof.
  intros Hv. assert (∀ b p, live_at (Volume s (<[a := j]> (inodes v)) (hlist_del_init a (inode_hashtable v))) b p → live_at v b p) as Hlive.
  { intros b p [[Hne Hh]%hashed_detach (x & Hx & Hr)]. split; [done|]. cbn in Hx. rewrite lookup_insert_ne in Hx by done. by exists x. }
  split.
  - cbn. unfold hlist_del_init. rewrite length_fmap. apply (h_len _ Hv).
  - intros h l b Hl Hb. cbn in Hl. unfold hlist_del_init in Hl. rewrite list_lookup_fmap in Hl. destruct (inode_hashtable v !! h) as [l'|] eqn:E; [|done].
    injection Hl as <-. apply list_elem_of_filter in Hb as [Hne Hb]. destruct (h_place _ Hv h l' b E Hb) as (x & Hx & Eh).
    exists x. cbn. by rewrite lookup_insert_ne.
  - intros b c p Hb Hc. apply (h_unique _ Hv b c p); by apply Hlive.
Qed.

Lemma fat_detach_spec v a i :
  hash_ok v → inodes v !! a = Some i →
  ∃ v', fat_detach a v = Ret v' ∧ v' = Volume (fs v) (<[a := set_pos 0 i]> (inodes v)) (hlist_del_init a (inode_hashtable v)) ∧ hash_ok v' ∧ ¬ hashed v' a.
Proof.
  intros Hv Hi. eexists (Volume _ _ _). unfold fat_detach, on_inode, get_inode. rewrite Hi. cbn [mbind outcome_bind]. split; [reflexivity|]. split; [done|].
  split; [by apply (hash_ok_del v a)|]. rewrite hashed_detach. by intros [? _].
Qed.

(** Putting an inode into the table at a position nobody else has. *)
Lemma fat_attach_spec v a i i_pos :
  hash_ok v → inodes v !! a = Some i → ¬ hashed v a → (∀ b, ¬ live_at v b i_pos) →
  ∃ v', fat_attach sb_addr a i_pos v = Ret v' ∧ fs v' = fs v ∧ inodes v' = <[a := set_pos i_pos i]> (inodes v) ∧ hash_ok v' ∧
    (∀ b, hashed v' b ↔ b = a ∨ hashed v b) ∧ (i_freeing i = false → live_at v' a i_pos).
Proof.
  intros Hv Hi Hna Hno. destruct (bucket v i_pos Hv) as (l & Hl & Eg). pose proof (fat_hash_range i_pos) as Hr. pose proof (h_len _ Hv) as Hlen.
  set (h := fat_hash sb_addr i_pos) in *. set (tab := <[Z.to_nat h := a :: l]> (inode_hashtable v)).
  exists (Volume (fs v) (<[a := set_pos i_pos i]> (inodes v)) tab).
  assert (fat_attach sb_addr a i_pos v = Ret (Volume (fs v) (<[a := set_pos i_pos i]> (inodes v)) tab)) as E.
  { unfold fat_attach, on_inode, get_inode. rewrite Hi. cbn [mbind outcome_bind]. change (inode_hashtable (put_inode a (set_pos i_pos i) v)) with (inode_hashtable v).
    destruct (is_hashed a (inode_hashtable v)) eqn:Eh; [by apply is_hashed_spec in Eh|]. fold h. rewrite Eg. cbn [mbind outcome_bind].
    rewrite aset_in by (rewrite Hlen; unfold FAT_HASH_SIZE in *; lia). done. }
  assert (∀ g x, tab !! g = Some x → (g = Z.to_nat h ∧ x = a :: l) ∨ (g ≠ Z.to_nat h ∧ inode_hashtable v !! g = Some x)) as Htab.
  { intros g x Hx. unfold tab in Hx. destruct (decide (g = Z.to_nat h)) as [->|Hne].
    - rewrite list_lookup_insert_eq in Hx by (by eapply lookup_lt_Some). injection Hx as <-. by left.
    - rewrite list_lookup_insert_ne in Hx by done. by right. }
  assert (∀ b, hashed (Volume (fs v) (<[a := set_pos i_pos i]> (inodes v)) tab) b ↔ b = a ∨ hashed v b) as Hhash.
  { intros b. unfold hashed at 1. cbn [inode_hashtable]. split.
    - intros (g & x & Hx & Hb). apply Htab in Hx as [[-> ->]|[_ Hx]]; [|right; by exists g, x].
      apply elem_of_cons in Hb as [->|Hb]; [by left|]. right. by exists (Z.to_nat h), l.
    - intros [->|(g & x & Hx & Hb)].
      + exists (Z.to_nat h), (a :: l). split; [|set_solver]. unfold tab. apply list_lookup_insert_eq. by eapply lookup_lt_Some.
      + destruct (decide (g = Z.to_nat h)) as [->|Hne].
        * exists (Z.to_nat h), (a :: l). rewrite Hl in Hx. injection Hx as <-. split; [|set_solver]. unfold tab. apply list_lookup_insert_eq. by eapply lookup_lt_Some.
        * exists g, x. split; [|done]. unfold tab. by rewrite list_lookup_insert_ne. }
  do 3 (split; [done|]). assert (∀ b p, live_at (Volume (fs v) (<[a := set_pos i_pos i]> (inodes v)) tab) b p → b = a ∧ p = i_pos ∨ b ≠ a ∧ live_at v b p) as Hlive.
  { intros b p [Hb (x & Hx & Hp & Hf)]. cbn in Hx. destruct (decide (b = a)) as [->|Hne].
    - rewrite lookup_insert_eq in Hx. injection Hx as <-. left. by cbn in Hp.
    - rewrite lookup_insert_ne in Hx by done. right. split; [done|]. split; [|by exists x]. apply Hhash in Hb as [|]; done. }
  split; [split|split; [done|]].
  - cbn. unfold tab. by rewrite length_insert.
  - intros g x b Hx Hb. cbn in Hx. apply Htab in Hx as [[-> ->]|[Hne Hx]]; cbn [inodes].
    + apply elem_of_cons in Hb as [->|Hb]; [rewrite lookup_insert_eq; by exists (set_pos i_pos i)|].
      destruct (h_place _ Hv _ _ _ Hl Hb) as (y & Hy & Ey). exists y. rewrite lookup_insert_ne; [done|]. intros <-. apply Hna. by exists (Z.to_nat h), l.
    + destruct (h_place _ Hv _ _ _ Hx Hb) as (y & Hy & Ey). exists y. rewrite lookup_insert_ne; [done|]. intros <-. apply Hna. by exists g, x.
  - intros b c p [[-> ->]|[? Hb]]%Hlive [[-> Hq]|[? Hc]]%Hlive; [done|by destruct (Hno c)|subst; by destruct (Hno b)|]. by apply (h_unique _ Hv b c p).
  - intros Hf. split; [by apply Hhash; left|]. exists (set_pos i_pos i). cbn. by rewrite lookup_insert_eq.
Qed.
End table.

(** ** Inodes by position, in every state that is reached *)

Section cache.
Context (sb : sb_info) (lay : layout) (ops : fatent_operations) (alloc : bool) (sleep : finode → finode).
Context (o : inode_options) (sb_addr : Z) (k : vfs).

Lemma fill_freeing i de s err i' s' : fat_fill_inode sb lay ops alloc sleep o k i de s = Ret (err, i', s') → i_freeing i' = i_freeing i.
Proof.
  unfold fat_fill_inode. cbv zeta. match goal with |- mbind _ ?x = _ → _ => destruct x as [[[[e nl] n] t]| | |] end; [|done..]. cbn [mbind outcome_bind].
  destruct (e <? 0); [by intros [= _ <- _]|]. destruct (fill_times o de) as [tm| | |]; [|done..]. cbn [mbind outcome_bind]. by intros [= _ <- _].
Qed.

Lemma not_in_table v a : hash_ok sb_addr v → inodes v !! a = None → ¬ hashed v a.
Proof. intros Hv Ha (h & l & Hl & Hin). destruct (h_place _ _ Hv h l a Hl Hin) as (i & Hi & _). by rewrite Hi in Ha. Qed.

Lemma live_new v a i s b p : ¬ hashed v a → live_at (put_inode a i (set_fs s v)) b p ↔ live_at v b p.
Proof.
  intros Hna. unfold live_at. cbn. split.
  - intros [Hh (x & Hx & Hr)]. split; [exact Hh|]. rewrite lookup_insert_ne in Hx; [by exists x|]. by intros <-.
  - intros [Hh (x & Hx & Hr)]. split; [exact Hh|]. exists x. rewrite lookup_insert_ne; [done|]. by intros <-.
Qed.

Lemma hash_ok_new v a i s : hash_ok sb_addr v → ¬ hashed v a → hash_ok sb_addr (put_inode a i (set_fs s v)).
Proof.
  intros Hv Hna. split; [apply (h_len _ _ Hv)| |].
  - intros h l b Hl Hb. destruct (h_place _ _ Hv h l b Hl Hb) as (x & Hx & Eh). exists x. cbn. rewrite lookup_insert_ne; [done|]. intros <-. apply Hna. by exists h, l.
  - intros b c p Hb Hc. rewrite live_new in Hb, Hc by done. by apply (h_unique _ _ Hv b c p).
Qed.

Lemma hash_ok_fs v s : hash_ok sb_addr v → hash_ok sb_addr (set_fs s v).
Proof. intros [H1 H2 H3]. by split. Qed.

(** Looking an entry up keeps the table in order, and gives the one inode of its
    position. *)
Lemma fat_build_inode_spec v de i_pos r v' :
  hash_ok sb_addr v → (∀ a, new_inode k v = Some a → inodes v !! a = None) →
  fat_build_inode sb lay ops alloc sleep o sb_addr k de i_pos v = Ret (r, v') →
  hash_ok sb_addr v' ∧ match r with inr a => live_at v' a i_pos | inl _ => inodes v' = inodes v end.
Proof.
  intros Hv Hnew. unfold fat_build_inode. destruct (fat_iget_spec sb_addr v i_pos Hv) as [(a & i & -> & Hl & Hi)|[-> Hno]]; cbn [mbind outcome_bind].
  - intros [= <- <-]. split; [apply (hash_ok_put _ v a i _ (fs v)); done|]. destruct Hl as [Hh (i' & Hi' & Hp & Hf)]. rewrite Hi in Hi'. injection Hi' as <-.
    split; [done|]. eexists. cbn. rewrite lookup_insert_eq. split; [done|]. done.
  - destruct (new_inode k v) as [a|] eqn:En; [|intros [= <- <-]; done]. pose proof (not_in_table v a Hv (Hnew a eq_refl)) as Hna.
    destruct (fat_fill_inode sb lay ops alloc sleep o k (fresh_inode k) de (fs v)) as [[[err i] s]| | |] eqn:Ef; [|done..]. cbn [mbind outcome_bind].
    destruct (negb _); [intros [= <- <-]; split; [by apply hash_ok_fs|done]|].
    destruct (fat_attach_spec sb_addr (put_inode a i (set_fs s v)) a i i_pos) as (w & Ea & _ & _ & Hw & _ & Hlive).
    + by apply hash_ok_new.
    + apply lookup_insert_eq.
    + exact Hna.
    + intros b Hb. apply (Hno b). by apply (live_new v a i s b i_pos Hna).
    + rewrite Ea. cbn [mbind outcome_bind]. intros [= <- <-]. split; [done|]. apply Hlive. by rewrite (fill_freeing _ _ _ _ _ _ Ef).
Qed.

Lemma attach_ret v a p w :
  hash_ok sb_addr v → fat_attach sb_addr a p v = Ret w → (∀ c, ¬ live_at v c p) →
  hash_ok sb_addr w ∧ ∀ c q, live_at w c q → c = a ∧ q = p ∨ c ≠ a ∧ live_at v c q.
Proof.
  intros Hv E Hno. assert (∃ i, inodes v !! a = Some i ∧ ¬ hashed v a) as (i & Hi & Hna).
  { unfold fat_attach, on_inode, get_inode in E. destruct (inodes v !! a) as [i|]; [|done]. cbn [mbind outcome_bind] in E. exists i. split; [done|].
    intros Hh%is_hashed_spec. change (inode_hashtable (put_inode a (set_pos p i) v)) with (inode_hashtable v) in E. by rewrite Hh in E. }
  destruct (fat_attach_spec sb_addr v a i p Hv Hi Hna Hno) as (w' & E' & _ & Ei & Hw & Hh & _). rewrite E in E'. injection E' as <-. split; [done|].
  intros c q [Hc (x & Hx & Hq & Hf)]. rewrite Ei in Hx. destruct (decide (c = a)) as [->|Hne].
  - left. rewrite lookup_insert_eq in Hx. injection Hx as <-. by cbn in Hq.
  - right. split; [done|]. apply Hh in Hc as [?|Hc]; [done|]. split; [done|]. rewrite lookup_insert_ne in Hx by done. by exists x.
Qed.

(** After a lookup the inodes in use are those from before and the one that was
    asked for. *)
Lemma build_live v de p r v' c q :
  hash_ok sb_addr v → (∀ a, new_inode k v = Some a → inodes v !! a = None) →
  fat_build_inode sb lay ops alloc sleep o sb_addr k de p v = Ret (r, v') → live_at v' c q → q = p ∨ live_at v c q.
Proof.
  intros Hv Hnew. unfold fat_build_inode. destruct (fat_iget_spec sb_addr v p Hv) as [(a & i & -> & Hl & Hi)|[-> Hno]]; cbn [mbind outcome_bind].
  - intros [= _ <-] [Hh (x & Hx & Hq & Hf)]. right. split; [done|]. cbn in Hx. destruct (decide (c = a)) as [->|]; [rewrite lookup_insert_eq in Hx; injection Hx as <-; by exists i|].
    rewrite lookup_insert_ne in Hx by done. by exists x.
  - destruct (new_inode k v) as [a|] eqn:En; [|intros [= _ <-]; by right]. pose proof (not_in_table v a Hv (Hnew a eq_refl)) as Hna.
    destruct (fat_fill_inode sb lay ops alloc sleep o k (fresh_inode k) de (fs v)) as [[[err i] s]| | |]; [|done..]. cbn [mbind outcome_bind].
    destruct (negb _); [intros [= _ <-]; by right|]. destruct (fat_attach sb_addr a p (put_inode a i (set_fs s v))) as [w| | |] eqn:Ea; [|done..]. cbn [mbind outcome_bind].
    intros [= _ <-] Hl. destruct (attach_ret _ a p w (hash_ok_new v a i s Hv Hna) Ea) as [_ H]; [intros b Hb; by apply (Hno b), (live_new v a i s b p Hna)|].
    destruct (H c q Hl) as [[_ ->]|[_ Hl']]; [by left|right]. by apply (live_new v a i s c q Hna).
Qed.

(** A volume with the positions of its directory entries: those that can be looked
    up, and those of old names that a rename has not removed yet, whose directory it
    keeps locked. *)
Record cached := Cached { c_vol : volume; c_entries : gset Z; c_pending : gset Z }.

(** What happens to the inodes: entries are looked up, made and removed; a rename
    moves an inode to the position of the inode it replaces or of an entry it made,
    then removes the old entry or, on an error, undoes the move; inodes change in
    other respects and are released in the end, where the VFS marks them first, and
    their memory is reused only when they have left the table.  A new entry is where
    none was, and the inodes that the VFS passes are in use: it holds references to
    them and keeps their directories locked. *)
Inductive istep : cached → cached → Prop :=
| is_lookup de p v E P r v' :
    p ∈ E → (∀ a, new_inode k v = Some a → inodes v !! a = None) → fat_build_inode sb lay ops alloc sleep o sb_addr k de p v = Ret (r, v') →
    istep (Cached v E P) (Cached v' E P)
| is_create de p v E P r v' :
    p ∉ E ∪ P → (∀ a, new_inode k v = Some a → inodes v !! a = None) → fat_build_inode sb lay ops alloc sleep o sb_addr k de p v = Ret (r, v') →
    istep (Cached v E P) (Cached v' ({[p]} ∪ E) P)
| is_unlink a p v E P v' : live_at v a p → fat_detach a v = Ret v' → istep (Cached v E P) (Cached v' (E ∖ {[p]}) P)
| is_rename_over a p b q v E P new_i_pos w v' :
    live_at v a p → live_at v b q → a ≠ b → rename_detach b v = Ret (new_i_pos, w) → rename_attach sb_addr a new_i_pos w = Ret v' →
    istep (Cached v E P) (Cached v' (E ∖ {[p]}) ({[p]} ∪ P))
| is_rename_new a p q v E P v' :
    live_at v a p → q ∉ E ∪ P → rename_attach sb_addr a q v = Ret v' → istep (Cached v E P) (Cached v' ({[q]} ∪ E ∖ {[p]}) ({[p]} ∪ P))
| is_rename_done p v E P : istep (Cached v E P) (Cached v E (P ∖ {[p]}))
| is_rename_back_over a p b q v E P w v' :
    live_at v a q → p ∈ P → rename_attach sb_addr a p v = Ret w → fat_attach sb_addr b q w = Ret v' → istep (Cached v E P) (Cached v' ({[p]} ∪ E) (P ∖ {[p]}))
| is_rename_back_new a p q v E P v' :
    live_at v a q → p ∈ P → rename_attach sb_addr a p v = Ret v' → istep (Cached v E P) (Cached v' ({[p]} ∪ E ∖ {[q]}) (P ∖ {[p]}))
| is_change a i j s v E P :
    inodes v !! a = Some i → ei_pos j = ei_pos i → (i_freeing j = false → i_freeing i = false) → istep (Cached v E P) (Cached (put_inode a j (set_fs s v)) E P)
| is_clear a v E P v' : fat_clear_inode a v = Ret v' → istep (Cached v E P) (Cached v' E P)
| is_gone a v E P : ¬ hashed v a → istep (Cached v E P) (Cached (Volume (fs v) (delete a (inodes v)) (inode_hashtable v)) E P).

(** The table is in order, and inodes in use are at entries that can be looked up. *)
Record cache_ok (c : cached) : Prop := {
  ck_hash : hash_ok sb_addr (c_vol c);
  ck_entry a p : live_at (c_vol c) a p → p ∈ c_entries c;
  ck_apart : c_entries c ## c_pending c
}.

Lemma detach_hash_ok a v w : hash_ok sb_addr v → fat_detach a v = Ret w → hash_ok sb_addr w ∧ ¬ hashed w a ∧ ∀ b p, b ≠ a → live_at w b p → live_at v b p.
Proof.
  intros Hv E. assert (∃ i, inodes v !! a = Some i) as [i Hi].
  { unfold fat_detach, on_inode, get_inode in E. destruct (inodes v !! a) as [i|]; [by exists i|done]. }
  destruct (fat_detach_spec sb_addr v a i Hv Hi) as (w' & E' & Ew & Hw & Hna). rewrite E in E'. injection E' as <-. split; [done|]. split; [done|].
  intros b p Hne [Hh (x & Hx & Hr)]. subst w. apply hashed_detach in Hh as [_ Hh]. split; [done|]. cbn in Hx. rewrite lookup_insert_ne in Hx by done. by exists x.
Qed.

Lemma move_ok a p v w :
  hash_ok sb_addr v → rename_attach sb_addr a p v = Ret w → (∀ c, c ≠ a → ¬ live_at v c p) →
  hash_ok sb_addr w ∧ ∀ c q, live_at w c q → c = a ∧ q = p ∨ c ≠ a ∧ live_at v c q.
Proof.
  intros Hv E Hno. unfold rename_attach in E. destruct (fat_detach a v) as [u| | |] eqn:Ed; [|done..]. cbn [mbind outcome_bind] in E.
  destruct (detach_hash_ok a v u Hv Ed) as (Hu & Hna & Hl). destruct (attach_ret u a p w Hu E) as [Hw H].
  { intros c Hc. destruct (decide (c = a)) as [->|Hne]; [by destruct Hc|]. by apply (Hno c Hne), Hl. }
  split; [done|]. intros c q Hc. destruct (H c q Hc) as [?|[Hne Hc']]; [by left|right]. split; [done|by apply Hl].
Qed.

(** Where the inode that is moved was, nobody is. *)
Lemma moved_from v (E : gset Z) a p c q : (∀ a p, live_at v a p → p ∈ E) → hash_ok sb_addr v → live_at v a p → c ≠ a → live_at v c q → q ∈ E ∖ {[p]}.
Proof.
  intros HE Hv Ha Hne Hc. apply elem_of_difference. split; [by apply (HE c)|]. intros ->%elem_of_singleton. apply Hne. by apply (h_unique _ _ Hv c a p).
Qed.

Lemma rename_over_ok a p b q v E P new_i_pos w v' :
  cache_ok (Cached v E P) → live_at v a p → live_at v b q → a ≠ b → rename_detach b v = Ret (new_i_pos, w) → rename_attach sb_addr a new_i_pos w = Ret v' →
  cache_ok (Cached v' (E ∖ {[p]}) ({[p]} ∪ P)).
Proof.
  intros [Hv HE HP] Ha Hb Hab Ed Em. cbn [c_vol c_entries c_pending] in *. unfold rename_detach, get_inode in Ed. pose proof Hb as [_ (j & Hj & Hq & _)]. rewrite Hj in Ed. cbn [mbind outcome_bind] in Ed.
  destruct (fat_detach b v) as [u| | |] eqn:Eu; [|done..]. injection Ed as <- <-. destruct (detach_hash_ok b v u Hv Eu) as (Hu & Hnb & Hl). rewrite Hq in Em.
  destruct (move_ok a q u v' Hu Em) as [Hv' Hl'].
  { intros c _ Hc. assert (c ≠ b) as Hcb by (intros ->; by destruct Hc). apply Hcb. by apply (h_unique _ _ Hv c b q); [apply Hl|]. }
  split; [done| |set_solver]. intros c x Hc. cbn. destruct (Hl' c x Hc) as [[-> ->]|[Hne Hc']].
  - by apply (moved_from v E a p b q HE Hv Ha); [|].
  - assert (c ≠ b) as Hcb by (intros ->; by destruct Hc'). by apply (moved_from v E a p c x HE Hv Ha Hne), Hl.
Qed.

Lemma rename_new_ok a p q v E P v' :
  cache_ok (Cached v E P) → live_at v a p → q ∉ E ∪ P → rename_attach sb_addr a q v = Ret v' → cache_ok (Cached v' ({[q]} ∪ E ∖ {[p]}) ({[p]} ∪ P)).
Proof.
  intros [Hv HE HP] Ha Hq Em. cbn [c_vol c_entries c_pending] in *. pose proof (HE a p Ha) as Hp. destruct (move_ok a q v v' Hv Em) as [Hv' Hl'].
  { intros c _ Hc. apply Hq, elem_of_union_l. by apply (HE c). }
  split; [done| |set_solver]. intros c x Hc. cbn. destruct (Hl' c x Hc) as [[-> ->]|[Hne Hc']]; [set_solver|]. apply elem_of_union_r. by apply (moved_from v E a p c x HE Hv Ha Hne).
Qed.

Lemma rename_back_ok a p q v E P w :
  cache_ok (Cached v E P) → live_at v a q → p ∈ P → rename_attach sb_addr a p v = Ret w →
  cache_ok (Cached w ({[p]} ∪ E ∖ {[q]}) (P ∖ {[p]})) ∧ (∀ c, ¬ live_at w c q) ∧ q ∈ E.
Proof.
  intros [Hv HE HP] Ha Hp Em. cbn [c_vol c_entries c_pending] in *. pose proof (HE a q Ha) as Hq. destruct (move_ok a p v w Hv Em) as [Hw Hl'].
  { intros c _ Hc%HE. set_solver. }
  assert (∀ c x, live_at w c x → x = p ∨ x ∈ E ∖ {[q]}) as Hx.
  { intros c x Hc. destruct (Hl' c x Hc) as [[-> ->]|[Hne Hc']]; [by left|right]. by apply (moved_from v E a q c x HE Hv Ha Hne). }
  split; [split; [done| |set_solver]|]; [intros c x Hc%Hx; cbn; set_solver|]. split; [|done]. intros c Hc%Hx. set_solver.
Qed.

Lemma istep_cache_ok c c' : istep c c' → cache_ok c → cache_ok c'.
Proof.
  intros Hs Hc. destruct Hs as [de p v E P r v' Hp Hnew Eb|de p v E P r v' Hp Hnew Eb|a p v E P v' Ha Ed|a p b q v E P n w v' Ha Hb Hab Ed Em|a p q v E P v' Ha Hq Em
    |p v E P|a p b q v E P w v' Ha Hp Em Eb|a p q v E P v' Ha Hp Em|a i j s v E P Hi Hp Hf|a v E P v' Ec|a v E P Hna].
  - destruct Hc as [Hv HE HP]. split; [by apply (fat_build_inode_spec v de p r v')| |done]. intros c q Hl. cbn. destruct (build_live v de p r v' c q Hv Hnew Eb Hl) as [->|Hl']; [done|by apply (HE c)].
  - destruct Hc as [Hv HE HP]. split; [by apply (fat_build_inode_spec v de p r v')| |set_solver]. intros c q Hl. cbn.
    destruct (build_live v de p r v' c q Hv Hnew Eb Hl) as [->|Hl']; [set_solver|apply elem_of_union_r; by apply (HE c)].
  - destruct Hc as [Hv HE HP]. destruct (detach_hash_ok a v v' Hv Ed) as (Hv' & Hna & Hl). split; [done| |set_solver]. intros c q Hc. cbn. assert (c ≠ a) as Hne by (intros ->; by destruct Hc).
    apply (moved_from v E a p c q HE Hv Ha Hne). by apply Hl.
  - by apply (rename_over_ok a p b q v E P n w v').
  - by apply (rename_new_ok a p q v E P v').
  - destruct Hc as [Hv HE HP]. split; [done|done|set_solver].
  - destruct (rename_back_ok a p q v E P w Hc Ha Hp Em) as ([Hw HE HP] & Hno & Hq). cbn [c_vol c_entries c_pending] in *. destruct (attach_ret w b q v' Hw Eb Hno) as [Hv' Hl].
    pose proof (ck_apart _ Hc) as HP'. cbn in HP'. split; [done| |set_solver]. intros c x Hx. cbn. destruct (Hl c x Hx) as [[_ ->]|[_ Hx'%HE]]; set_solver.
  - by apply (rename_back_ok a p q v E P v').
  - destruct Hc as [Hv HE HP]. split; [by apply (hash_ok_put sb_addr v a i j s)| |done]. intros c x [Hh (y & Hy & Hx & Hfy)]. apply (HE c). split; [done|]. cbn in Hy.
    destruct (decide (c = a)) as [->|]; [rewrite lookup_insert_eq in Hy; injection Hy as <-; exists i; split; [done|]; split; [congruence|by apply Hf]|]. rewrite lookup_insert_ne in Hy by done. by exists y.
  - destruct Hc as [Hv HE HP]. unfold fat_clear_inode, on_inode, get_inode in Ec. destruct (inodes v !! a) as [i|]; [|done]. injection Ec as <-. split; [by apply (hash_ok_del sb_addr v a)| |done].
    intros c x [[Hne Hh]%hashed_detach (y & Hy & Hr)]. apply (HE c). split; [done|]. cbn in Hy. rewrite lookup_insert_ne in Hy by done. by exists y.
  - destruct Hc as [Hv HE HP]. split; [|intros c x [Hh (y & Hy & Hr)]; apply (HE c); split; [done|]; cbn in Hy; apply lookup_delete_Some in Hy as [_ Hy]; by exists y|done].
    split; [apply (h_len _ _ Hv)| |].
    + intros h l b Hl Hb. destruct (h_place _ _ Hv h l b Hl Hb) as (x & Hx & Eh). exists x. cbn. rewrite lookup_delete_ne; [done|]. intros <-. apply Hna. by exists h, l.
    + intros b c p [Hb (x & Hx & Hr)] [Hc (y & Hy & Hq)]. cbn in Hx, Hy. apply lookup_delete_Some in Hx as [_ Hx], Hy as [_ Hy].
      apply (h_unique _ _ Hv b c p); (split; [done|]); by eexists.
Qed.
End cache.

(** C20: There is at most one inode per directory entry.  In every state that is
    reached from a mount by lookups, creations, unlinks, changes and releases of
    inodes, and by renames, with the calls on the table that the rename makes, over
    another inode or to a new entry, finished or undone after an error, the inodes
    that can be handed out for a position are equal, the search of the hash table
    always returns, and it finds such an inode exactly when there is one.  A new
    entry is put where no entry is, and the VFS passes inodes that are in use. *)
Theorem inode_cache_unique sb lay ops alloc sleep o sb_addr k v0 E0 c :
  rtc (istep sb lay ops alloc sleep o sb_addr k) (Cached (fat_hash_init v0) E0 ∅) c → let v := c_vol c in
  (∀ a b i_pos, live_at v a i_pos → live_at v b i_pos → a = b) ∧
  (∀ i_pos, ∃ r v', fat_iget sb_addr i_pos v = Ret (r, v') ∧ match r with Some a => live_at v a i_pos | None => ∀ a, ¬ live_at v a i_pos end).
Proof.
  intros Hr v. assert (cache_ok sb_addr c) as [Hv _ _].
  { assert (cache_ok sb_addr (Cached (fat_hash_init v0) E0 ∅)) as H.
    { split; [apply init_hash_ok|intros a p [Hh _]; by destruct (init_hashed v0 a)|set_solver]. }
    induction Hr as [|x y z Hs _ IH]; [done|]. apply IH. by eapply istep_cache_ok. }
  split; [apply (h_unique _ _ Hv)|]. intros p.
  destruct (fat_iget_spec sb_addr v p Hv) as [(a & i & E & Hl & _)|[E Hno]]; rewrite E; by eexists _, _.
Qed.

(** ** Writing an inode and reading it back *)

(** The fields of an entry laid out as [fat_write_inode] does. *)
Lemma entry_fields nm attr lc extra hi time date start size :
  length nm = MSDOS_NAME → length lc = 1%nat → length extra = 7%nat →
  let e := nm ++ [attr] ++ lc ++ extra ++ le_bytes 2 hi ++ le_bytes 2 time ++ le_bytes 2 date ++ le_bytes 2 start ++ le_bytes 4 size in
  length e = 32%nat ∧ de_name e = nm ∧ de_attr e = attr ∧ de_start e = le_val (le_bytes 2 start) ∧ de_starthi e = le_val (le_bytes 2 hi) ∧
  de_size e = le_val (le_bytes 4 size) ∧ de_time e = le_val (le_bytes 2 time) ∧ de_date e = le_val (le_bytes 2 date) ∧
  de_ctime_cs e = le_val (slice extra 0 1) ∧ de_ctime e = le_val (slice extra 1 2) ∧ de_cdate e = le_val (slice extra 3 2).
Proof.
  intros Hn Hl Hc. destruct lc as [|x [|]]; [done| |done]. do 7 (destruct extra as [|? extra]; [done|]). destruct extra; [|done].
  do 11 (destruct nm as [|? nm]; [done|]). destruct nm; [|done]. split_and!; reflexivity.
Qed.

Section roundtrip.
Context (sb : sb_info) (lay : layout) (ops : fatent_operations) (alloc : bool) (sleep : finode → finode).
Context (o : inode_options) (k : vfs).

Lemma land_swap a b c : Z.land (Z.land a b) c = Z.land (Z.land a c) b.
Proof. by rewrite <- !Z.land_assoc, (Z.land_comm b c). Qed.

(** The mode of a file: a regular file, writable unless the attribute forbids it
    or the mask removes every write permission. *)
Lemma file_mode_spec attr ext :
  S_ISDIR (file_mode o attr ext) = false ∧
  Z.land (file_mode o attr ext) S_IWUGO = if z2b (Z.land attr ATTR_RO) then 0 else Z.land S_IWUGO (Z.lnot (fs_fmask o)).
Proof.
  unfold S_ISDIR, file_mode, MSDOS_MKMODE. set (base := if showexec o && _ then _ else _). set (ro := if z2b _ then _ else _).
  assert (Z.land base S_IFMT = 0 ∧ Z.land base S_IWUGO = S_IWUGO) as [B1 B2] by (unfold base; by destruct (showexec o && _)).
  assert (Z.land ro S_IWUGO = if z2b (Z.land attr ATTR_RO) then 0 else S_IWUGO) as R2 by (unfold ro; by destruct (z2b _)).
  rewrite !Z.land_lor_distr_l. split.
  - rewrite land_swap, (land_swap base), B1. by rewrite !Z.land_0_l.
  - change (Z.land S_IFREG S_IWUGO) with 0. rewrite Z.lor_0_r, <- Z.land_assoc, R2. destruct (z2b _); [apply Z.land_0_r|]. by rewrite land_swap, B2.
Qed.

(** Attributes that are kept as they are: sixteen values. *)
Lemma attrs_spec attrs ro : Z.land attrs ATTR_UNUSED = attrs → (ro = 0 ∨ ro = ATTR_RO) →
  let a := u8 (Z.lor (Z.lor ro 0) attrs) in
  Z.land a ATTR_UNUSED = attrs ∧ Z.land a ATTR_DIR = 0 ∧ Z.land a ATTR_RO = ro.
Proof.
  intros Ha Hr a. assert (0 ≤ attrs < 64) as Hrange.
  { assert (Z.land attrs 63 = attrs) as E by (rewrite <- Ha, <- Z.land_assoc; done).
    rewrite <- E, (land_ones_mod _ 6 63) by done. apply Z.mod_pos_bound. lia. }
  assert (forallb (λ x, negb (Z.land x ATTR_UNUSED =? x) || forallb (λ r, let a := u8 (Z.lor (Z.lor r 0) x) in
    (Z.land a ATTR_UNUSED =? x) && (Z.land a ATTR_DIR =? 0) && (Z.land a ATTR_RO =? r)) [0; ATTR_RO]) (seqZ 0 64) = true) as Hall by (by vm_compute).
  rewrite forallb_forall in Hall. specialize (Hall attrs). rewrite Ha, Z.eqb_refl in Hall. cbn [negb orb] in Hall.
  assert (In attrs (seqZ 0 64)) as Hin by (apply list_elem_of_In, elem_of_seqZ; lia). specialize (Hall Hin). rewrite forallb_forall in Hall.
  specialize (Hall ro ltac:(destruct Hr as [-> | ->]; cbn; auto)). cbv zeta in Hall. fold a in Hall.
  apply andb_prop in Hall as [[H1%Z.eqb_eq H2%Z.eqb_eq]%andb_prop H3%Z.eqb_eq]. done.
Qed.

(** An inode of a file as this mount makes them. *)
Record file_inode (i : inode) (ro : Z) (ext : list Z) : Prop := {
  fi_ro : ro = 0 ∨ ro = ATTR_RO;
  fi_mode : i_mode i = file_mode o ro ext;
  fi_attrs : Z.land (i_attrs i) ATTR_UNUSED = i_attrs i;
  fi_start : 0 ≤ i_logstart (node i) < if fat_bits sb =? 32 then 2 ^ 31 else 2 ^ 16;
  fi_size : 0 ≤ i_size (node i) < 2 ^ 32;
  fi_mtime : - 2 ^ 31 ≤ mtime (i_times i) < 2 ^ 31 ∧ 315532800 ≤ mtime (i_times i) - tz_minuteswest o * 60 < 2 ^ 31;
  fi_ctime : - 2 ^ 31 ≤ ctime (i_times i) < 2 ^ 31 ∧ 315532800 ≤ ctime (i_times i) - tz_minuteswest o * 60 < 2 ^ 31;
  fi_nsec : 0 ≤ ctime_nsec (i_times i) < 1000000000
}.

Lemma dos_stamp t : - 2 ^ 31 ≤ t < 2 ^ 31 ∧ 315532800 ≤ t - tz_minuteswest o * 60 < 2 ^ 31 →
  ∃ time date, fat_date_unix2dos (tz_minuteswest o) t = Ret (time, date) ∧
    date_dos2unix (tz_minuteswest o) (le_val (le_bytes 2 time)) (le_val (le_bytes 2 date)) = Ret (t - t mod 2).
Proof.
  intros [H1 H2]. destruct (unix2dos_dos2unix (tz_minuteswest o) t) as (time & date & E & E2); [done|lia|]. exists time, date. split; [done|].
  destruct (unix2dos_range _ _ _ _ E). rewrite !le_val_bytes by (cbn; lia). rewrite E2. by destruct (Z.ltb_spec (t - tz_minuteswest o * 60) 315532800); [lia|].
Qed.

Lemma entry_start_spec e n :
  0 ≤ n < (if fat_bits sb =? 32 then 2 ^ 31 else 2 ^ 16) → de_start e = le_val (le_bytes 2 n) → de_starthi e = le_val (le_bytes 2 (Z.shiftr n 16)) →
  entry_start sb e = n.
Proof.
  intros Hn E1 E2. unfold entry_start. rewrite E1, E2, !le_val_bytes_mod. change (256 ^ Z.of_nat 2) with (2 ^ 16). destruct (fat_bits sb =? 32).
  - rewrite Z.shiftr_div_pow2 by lia. rewrite (Z.mod_small (n / 2 ^ 16)) by (Z.div_mod_to_equations; lia).
    rewrite Z.lor_comm, lor_shiftl_add by (Z.div_mod_to_equations; lia). rewrite wraps_small; Z.div_mod_to_equations; lia.
  - apply Z.mod_small. lia.
Qed.
(** The entry written for an inode. *)
Lemma raw_entry_spec i ro e :
  length e = 32%nat → file_inode i ro (drop 8 (de_name e)) → Z.land S_IWUGO (Z.lnot (fs_fmask o)) ≠ 0 →
  ∃ e', raw_entry o i e = Ret e' ∧ length e' = 32%nat ∧ de_name e' = de_name e ∧ de_attr e' = u8 (Z.lor (Z.lor ro 0) (i_attrs i)) ∧
    entry_start sb e' = i_logstart (node i) ∧ de_size e' = i_size (node i) ∧
    ∃ t, fill_times o e' = Ret t ∧ mtime t = mtime (i_times i) - mtime (i_times i) mod 2 ∧
      (opt_isvfat o = true → ctime t = ctime (i_times i) ∧ ctime_nsec t = ctime_nsec (i_times i) - ctime_nsec (i_times i) mod 10000000).
Proof.
  intros He [Hro Hmode Hattrs Hstart Hsize Hmt Hct Hns] Hmask.
  destruct (dos_stamp _ Hmt) as (time & date & Em & Em2). destruct (dos_stamp _ Hct) as (ct & cd & Ec & Ec2).
  destruct (unix2dos_total (tz_minuteswest o) (atime (i_times i))) as (at_ & ad & Ea). destruct (file_mode_spec ro (drop 8 (de_name e))) as [Hdir Hw].
  assert (fat_attr i = u8 (Z.lor (Z.lor ro 0) (i_attrs i))) as Hattr.
  { unfold fat_attr. rewrite Hmode, Hdir, Hw. do 3 f_equal. destruct Hro as [-> | ->]; [|done]. change (z2b (Z.land 0 ATTR_RO)) with false. cbv iota.
    unfold z2b. by rewrite (proj2 (Z.eqb_neq _ 0) Hmask). }
  set (cs := u8 (Z.land (ctime (i_times i)) 1 * 100 + ctime_nsec (i_times i) / 10000000)).
  set (extra := if opt_isvfat o then cs :: le_bytes 2 ct ++ le_bytes 2 cd ++ le_bytes 2 ad else slice e 13 7).
  assert (length extra = 7%nat ∧ length (slice e 12 1) = 1%nat ∧ length (de_name e) = MSDOS_NAME) as (Hl1 & Hl2 & Hl3).
  { unfold extra, slice, de_name. rewrite !length_take, length_drop, He. split; [|done]. destruct (opt_isvfat o); [done|]. by rewrite length_take, length_drop, He. }
  destruct (entry_fields (de_name e) (fat_attr i) (slice e 12 1) extra (Z.shiftr (i_logstart (node i)) 16) time date (i_logstart (node i)) (i_size (node i)) Hl3 Hl2 Hl1)
    as (F1 & F2 & F3 & F4 & F5 & F6 & F7 & F8 & F9 & F10 & F11). cbv zeta in *. set (e' := de_name e ++ _) in *. exists e'.
  split; [unfold raw_entry; rewrite Em; cbn [mbind outcome_bind]; unfold extra in e'; destruct (opt_isvfat o); rewrite ?Ec, ?Ea, ?Hmode, ?Hdir; cbn [mbind outcome_bind];
    rewrite ?Hmode, ?Hdir; reflexivity|].
  split; [done|]. split; [done|]. split; [by rewrite F3|]. split; [by apply entry_start_spec|]. split; [by rewrite F6, le_val_bytes|].
  unfold fill_times. rewrite F7, F8, Em2. cbn [mbind outcome_bind]. destruct (opt_isvfat o) eqn:Ev; [|eexists; by split].
  rewrite F10, F11. change (slice extra 1 2) with (le_bytes 2 ct). change (slice extra 3 2) with (le_bytes 2 cd). rewrite Ec2. cbn [mbind outcome_bind].
  destruct (dos2unix_total (tz_minuteswest o) 0 (de_adate e')) as [ta ->]. cbn [mbind outcome_bind]. eexists. split; [reflexivity|]. split; [done|]. intros _.
  rewrite F9. change (slice extra 0 1) with [cs]. cbn [le_val ctime ctime_nsec]. assert (cs = ctime (i_times i) mod 2 * 100 + ctime_nsec (i_times i) / 10000000) as ->.
  { unfold cs. rewrite (land_ones_mod _ 1 1) by done. apply wrapu_small. change (2 ^ 1) with 2. change (2 ^ 8) with 256. Z.div_mod_to_equations; lia. }
  Z.div_mod_to_equations; lia.
Qed.
End roundtrip.


Lemma raw_entry_total o i e : length e = 32%nat → ∃ e', raw_entry o i e = Ret e' ∧ length e' = 32%nat ∧ de_name e' = de_name e ∧ de_attr e' = fat_attr i.
Proof.
  intros He. destruct (unix2dos_total (tz_minuteswest o) (mtime (i_times i))) as (mt & md & Em), (unix2dos_total (tz_minuteswest o) (ctime (i_times i))) as (ct & cd & Ec),
    (unix2dos_total (tz_minuteswest o) (atime (i_times i))) as (at_ & ad & Ea).
  assert (length (slice e 13 7) = 7%nat ∧ length (slice e 12 1) = 1%nat ∧ length (de_name e) = MSDOS_NAME) as (H1 & H2 & H3)
    by (unfold slice, de_name; rewrite !length_take, !length_drop, He; done).
  unfold raw_entry. rewrite Em, Ec, Ea. cbn [mbind outcome_bind].
  destruct (opt_isvfat o); cbn [mbind outcome_bind]; eexists; (split; [reflexivity|]); match goal with |- length (?nm ++ [?at1] ++ ?lc ++ ?ex ++ le_bytes 2 ?hi ++ le_bytes 2 ?t ++ le_bytes 2 ?d ++ le_bytes 2 ?st ++ le_bytes 4 ?sz) = _ ∧ _ =>
    destruct (entry_fields nm at1 lc ex hi t d st sz) as (F1 & F2 & F3 & _); done end.
Qed.

(** A mask without write permissions: every file that is written gets the
    read-only attribute on disk. *)
Theorem mask_writes_readonly sb o i e :
  length e = 32%nat → file_inode sb o i 0 (drop 8 (de_name e)) → Z.land S_IWUGO (Z.lnot (fs_fmask o)) = 0 →
  ∃ e', raw_entry o i e = Ret e' ∧ Z.land (de_attr e') ATTR_RO = ATTR_RO.
Proof.
  intros He [Hro Hmode Hattrs Hstart Hsize Hmt Hct Hns] Hmask. destruct (file_mode_spec o 0 (drop 8 (de_name e))) as [Hdir Hw].
  assert (Z.land (fat_attr i) ATTR_RO = ATTR_RO) as Ha.
  { unfold fat_attr. rewrite Hmode, Hdir, Hw. change (z2b (Z.land 0 ATTR_RO)) with false. cbv iota. rewrite Hmask. change (z2b 0) with false. cbv iota. by destruct (attrs_spec (i_attrs i) ATTR_RO Hattrs (or_intror eq_refl)) as (_ & _ & ->). }
  destruct (raw_entry_total o i e He) as (e' & E & _ & _ & Hd). exists e'. by rewrite Hd.
Qed.

(** ** Where an inode is written *)

Section place.
Context (env : env) (sb : sb_info) (lay : layout) (o : inode_options) (k : vfs).

(** What [fat_write_inode] did, seen from the state [w] in which it found the
    inode in its place. *)
Definition wrote (a : Z) (w : volume) (r : Z) (v' : volume) : Prop :=
  (∃ i, inodes w !! a = Some i ∧ (i_ino (node i) = MSDOS_ROOT_INO ∨ ei_pos i = 0) ∧ r = 0 ∧ v' = w) ∨
  r = - EIO ∧ v' = w ∨
  ∃ i bs e e', inodes w !! a = Some i ∧ inodes v' = inodes w ∧ inode_hashtable v' = inode_hashtable w ∧
    let p := pos_place sb lay (ei_pos i) in
    blk (fs w) !! p.1 = Some bs ∧ dirent (fs w) p = Ret e ∧ raw_entry o i e = Ret e' ∧ blk (fs v') = <[p.1 := splice (Z.to_nat p.2) e' bs]> (blk (fs w)).

Lemma poke_bytes_blk s p x t : poke_bytes s p x = Ret t → ∃ bs, blk s !! p.1 = Some bs ∧ blk t = <[p.1 := splice (Z.to_nat p.2) x bs]> (blk s).
Proof.
  unfold poke_bytes, buffer. destruct (blk s !! p.1) as [bs|]; [|done]. cbn [mbind outcome_bind]. case_decide; [|done]. intros [= <-]. by exists bs.
Qed.

Lemma write_inode_place fuel a wait v r v' :
  fat_write_inode env sb lay o k fuel a wait v = Ret (r, v') → ∃ n, wrote a (Nat.iter n (while_reading k) v) r v'.
Proof.
  revert v. induction fuel as [|fuel IH]; intros v; [done|]. cbn [fat_write_inode]. unfold get_inode.
  destruct (inodes v !! a) as [i|] eqn:Hi; [|done]. cbn [mbind outcome_bind].
  destruct ((i_ino (node i) =? MSDOS_ROOT_INO) || (ei_pos i =? 0)) eqn:E0.
  { intros [= <- <-]. exists 0%nat. left. exists i. split; [done|]. split; [|done]. lia. }
  set (w := while_reading k v). destruct (negb (sb_bread (fs w) _)); [intros [= <- <-]; exists 1%nat; right; by left|].
  destruct (inodes w !! a) as [j|] eqn:Hj; [|done]. cbn [mbind outcome_bind]. destruct (Z.eqb_spec (ei_pos j) (ei_pos i)) as [Ep|Ep]; cbn [negb].
  - destruct (dirent (fs w) _) as [e| | |] eqn:Ee; [|done..]. cbn [mbind outcome_bind]. destruct (raw_entry o j e) as [e'| | |] eqn:Er; [|done..]. cbn [mbind outcome_bind].
    destruct (poke_bytes (fs w) _ e') as [t| | |] eqn:Et; [|done..]. cbn [mbind outcome_bind]. apply poke_bytes_blk in Et as (bs & Hbs & Ht).
    destruct (if wait then _ else _) as [err s2] eqn:Es. intros [= <- <-]. exists 1%nat. right. right. exists j, bs, e, e'. rewrite Ep. cbn [Nat.iter]. fold w.
    do 3 (split; [done|]). cbv zeta. split; [done|]. split; [done|]. split; [done|]. cbn. destruct wait; injection Es as <- <-; exact Ht.
  - intros H. apply IH in H as [n Hw]. exists (S n). by rewrite Nat.iter_succ_r.
Qed.
Lemma write_inode_returns fuel a wait v i j :
  geometry sb → inodes v !! a = Some i → inodes (while_reading k v) !! a = Some j → ei_pos j = ei_pos i → 0 ≤ ei_pos i →
  (∀ n bs, blk (fs (while_reading k v)) !! n = Some bs → Z.of_nat (length bs) = s_blocksize sb) →
  ∃ r v', fat_write_inode env sb lay o k (S fuel) a wait v = Ret (r, v').
Proof.
  intros geo Hi Hj Ep H0 Hsz. cbn [fat_write_inode]. unfold get_inode. rewrite Hi. cbn [mbind outcome_bind]. destruct (_ || _); [by eexists _, _|].
  set (w := while_reading k v) in *. unfold sb_bread. destruct (blk (fs w) !! (pos_place sb lay (ei_pos i)).1) as [bs|] eqn:Hb; [|by eexists _, _]. cbn [negb].
  rewrite Hj. cbn [mbind outcome_bind]. rewrite Ep, Z.eqb_refl. cbn [negb]. pose proof (Hsz _ _ Hb) as Hl.
  assert (0 ≤ (pos_place sb lay (ei_pos i)).2 ∧ (pos_place sb lay (ei_pos i)).2 + 32 ≤ Z.of_nat (length bs)) as Hin.
  { rewrite Hl. cbn [pos_place snd]. pose proof (geo_bits sb geo). assert (dir_per_block sb = 2 ^ (s_blocksize_bits sb - 5)) as Ed.
    { unfold dir_per_block, s_blocksize. change 32 with (2 ^ 5). rewrite <- Z.pow_sub_r by lia. done. }
    assert (s_blocksize sb = 2 ^ (s_blocksize_bits sb - 5) * 32) as Eb by (unfold s_blocksize; change 32 with (2 ^ 5); rewrite <- Z.pow_add_r by lia; f_equal; lia).
    rewrite Ed, (land_ones_mod _ (s_blocksize_bits sb - 5)) by (lia || (rewrite Z.ones_equiv; lia)).
    pose proof (Z.mod_pos_bound (ei_pos i) (2 ^ (s_blocksize_bits sb - 5)) ltac:(apply Z.pow_pos_nonneg; lia)). lia. }
  set (p := pos_place sb lay (ei_pos i)) in *. unfold dirent, buffer. rewrite Hb. cbn [mbind outcome_bind]. rewrite decide_True by done. cbn [mbind outcome_bind].
  destruct (raw_entry_total o j (take 32 (drop (Z.to_nat p.2) bs))) as (e' & -> & He' & _); [rewrite length_take, length_drop; lia|]. cbn [mbind outcome_bind].
  unfold poke_bytes, buffer. rewrite Hb. cbn [mbind outcome_bind]. rewrite decide_True by (rewrite He'; exact Hin). cbn [mbind outcome_bind].
  destruct (if wait then _ else _) as [err s2]. by eexists _, _.
Qed.
End place.

(** C22: Writing an inode never touches another file's entry, whatever other tasks
    do meanwhile.  Each time the block is read other tasks may rename or unlink the
    file; whatever they do, what is written is the entry at the position the inode
    has when it is written, with all other bytes as the other tasks left them, and
    an inode without a position is not written at all.  If the inode stays in
    place during the read, the function returns. *)
Theorem fat_write_inode_current env sb lay o k fuel a wait v :
  (∀ r v', fat_write_inode env sb lay o k fuel a wait v = Ret (r, v') → ∃ n, wrote sb lay o a (Nat.iter n (while_reading k) v) r v') ∧
  (∀ i j, (0 < fuel)%nat → geometry sb → inodes v !! a = Some i → inodes (while_reading k v) !! a = Some j → ei_pos j = ei_pos i → 0 ≤ ei_pos i →
     (∀ n bs, blk (fs (while_reading k v)) !! n = Some bs → Z.of_nat (length bs) = s_blocksize sb) →
     ∃ r v', fat_write_inode env sb lay o k fuel a wait v = Ret (r, v')).
Proof.
  split; [apply write_inode_place|]. intros i j Hf geo Hi Hj Ep H0 Hsz. destruct fuel as [|fuel]; [lia|]. by apply (write_inode_returns env sb lay o k fuel a wait v i j).
Qed.


(** ** File handles *)

Lemma high_nibble x : 0 ≤ x → Z.land x 0xf0 = x mod 256 - x mod 16.
Proof.
  intros Hx. assert (Z.land x 0xf0 = Z.land (x mod 256) 0xf0) as ->.
  { change (x mod 256) with (x mod 2 ^ 8). rewrite <- Z.land_ones by lia. by rewrite <- Z.land_assoc. }
  assert (x mod 16 = x mod 256 mod 16) as -> by (Z.div_mod_to_equations; lia).
  assert (forallb (λ b, Z.land b 0xf0 =? b - b mod 16) (seqZ 0 256) = true) as Hall by (by vm_compute). rewrite forallb_forall in Hall.
  apply Z.eqb_eq, Hall, list_elem_of_In, elem_of_seqZ. pose proof (Z.mod_pos_bound x 256). lia.
Qed.

Lemma fh_pos_encode i parent :
  0 ≤ ei_pos i < 2 ^ 40 → 0 ≤ i_logstart (node i) < 2 ^ 28 → 0 ≤ i_logstart (node parent) < 2 ^ 28 →
  ∃ fh, fat_encode_fh i parent 5 = Some fh ∧ length fh = 5%nat ∧ fh_pos fh = Ret (ei_pos i, i_logstart (node i)).
Proof.
  intros Hp Hl Hlp. eexists. split; [reflexivity|]. split; [done|]. unfold fh_pos. set (pos := ei_pos i) in *.
  rewrite high_nibble, (land_ones_mod pos 4 15) by (done || lia). change (2 ^ 4) with 16.
  pose proof (Z.mod_pos_bound pos 256 ltac:(lia)). pose proof (Z.mod_pos_bound pos 16 ltac:(lia)). set (m := pos / 16 mod 16).
  assert (pos mod 256 - pos mod 16 = 16 * m) as Em by (unfold m; Z.div_mod_to_equations; lia). pose proof (Z.mod_pos_bound (pos / 16) 16 ltac:(lia)) as Hm. fold m in Hm.
  rewrite Em, !Z.shiftl_mul_pow2, !Z.shiftr_div_pow2 by lia. rewrite (wrapu_small 32 (pos / 2 ^ 8)), (wrapu_small 32 (16 * m * 2 ^ 24)), (wrapu_small 32 (pos mod 16 * 2 ^ 28)),
    (wrapu_small 32 (i_logstart (node i))), (wrapu_small 32 (i_logstart (node parent))) by (Z.div_mod_to_equations; lia).
  assert (Z.lor (16 * m * 2 ^ 24) (i_logstart (node i)) = m * 2 ^ 28 + i_logstart (node i)) as ->.
  { replace (16 * m * 2 ^ 24) with (Z.shiftl m 28) by (rewrite Z.shiftl_mul_pow2; lia). by apply lor_shiftl_add. }
  assert (Z.lor (pos mod 16 * 2 ^ 28) (i_logstart (node parent)) = pos mod 16 * 2 ^ 28 + i_logstart (node parent)) as ->.
  { rewrite <- lor_shiftl_add by lia. by rewrite Z.shiftl_mul_pow2 by lia. }
  change (aget _ 2) with (Ret (pos / 2 ^ 8)). change (aget _ 3) with (Ret (m * 2 ^ 28 + i_logstart (node i))).
  change (aget _ 4) with (Ret (pos mod 16 * 2 ^ 28 + i_logstart (node parent))). cbn [mbind outcome_bind].
  rewrite !Z.shiftr_div_pow2 by lia. rewrite (land_ones_mod _ 28 0x0fffffff) by done. rewrite high_nibble by (apply Z.div_pos; lia). f_equal. f_equal; [|Z.div_mod_to_equations; lia].
  replace ((m * 2 ^ 28 + i_logstart (node i)) / 2 ^ 24 mod 256 - (m * 2 ^ 28 + i_logstart (node i)) / 2 ^ 24 mod 16) with (Z.shiftl m 4)
    by (rewrite Z.shiftl_mul_pow2 by lia; Z.div_mod_to_equations; lia).
  replace ((pos mod 16 * 2 ^ 28 + i_logstart (node parent)) / 2 ^ 28) with (pos mod 16) by (Z.div_mod_to_equations; lia).
  rewrite (lor_shiftl_add m 4) by lia. rewrite lor_shiftl_add by lia. unfold m. Z.div_mod_to_equations; lia.
Qed.

(** A file handle finds the file again.  The handle of an inode whose
    position has forty bits, given back when the VFS no longer knows its number,
    leads to the inode as long as it is in memory at that position. *)
Theorem fat_fh_roundtrip sb_addr iget v a i parent :
  hash_ok sb_addr v → inodes v !! a = Some i → live_at v a (ei_pos i) →
  0 ≤ ei_pos i < 2 ^ 40 → 0 ≤ i_logstart (node i) < 2 ^ 28 → 0 ≤ i_logstart (node parent) < 2 ^ 28 →
  (∀ n w, iget n w = None) →
  ∃ fh, fat_encode_fh i parent 5 = Some fh ∧
    fat_get_dentry sb_addr iget true fh v = Ret (inr a, put_inode a (set_count (i_count i + 1) i) v).
Proof.
  intros Hv Hi Hlive Hp Hl Hlp Hget. destruct (fh_pos_encode i parent Hp Hl Hlp) as (fh & E & Hlen & Ef). exists fh. split; [done|].
  unfold fat_get_dentry. destruct (aget_in fh 0) as (f0 & -> & _); [lia|]. destruct (aget_in fh 1) as (f1 & -> & _); [lia|]. cbn [mbind outcome_bind].
  rewrite Hget. cbn [mbind outcome_bind]. rewrite Ef. cbn [mbind outcome_bind].
  destruct (fat_iget_spec sb_addr v (ei_pos i) Hv) as [(b & j & -> & Hb & Hj)|[_ Hno]]; [|by destruct (Hno a)].
  rewrite <- (h_unique _ _ Hv a b (ei_pos i) Hlive Hb) in *. rewrite Hi in Hj. injection Hj as <-. cbn [mbind outcome_bind]. unfold get_inode at 1. cbn [inodes put_inode].
  rewrite lookup_insert_eq. cbn [mbind outcome_bind]. change (i_logstart (node (set_count (i_count i + 1) i))) with (i_logstart (node i)).
  rewrite Z.eqb_refl. done.
Qed.

(** ** Examples

    The file in the root of the sample file system, looked up after the mount. *)

Definition sample_vfs : vfs := Vfs (λ w, Some (fresh (dom (inodes w)))) 77 1400000001 false (λ w, w) (λ _ w, (0, w)) 0.
Definition sample_options : inode_options := InodeOptions 0 0 18 18 false false false false 0.
Definition sample_volume : volume := Volume root_fs {[ 1 := Inode root_inode 0 0 S_IFDIR 2 0 (Stamps 0 0 0 0) 1 false 0 0 0 ]} [].
Definition sample_build (v : volume) : outcome ((Z + Z) * volume) :=
  fat_build_inode Sample.sb16 sample_layout fat16_ops true (λ i, i) sample_options 0 sample_vfs (entry_bytes name_a 32) 64 v.
Definition sample_built : volume := match sample_build (fat_hash_init sample_volume) with Ret (_, v) => v | _ => sample_volume end.

Lemma sample_new w a : new_inode sample_vfs w = Some a → inodes w !! a = None.
Proof. intros [= <-]. apply not_elem_of_dom, is_fresh. Qed.

Lemma sample_built_eq : sample_build (fat_hash_init sample_volume) = Ret (inr 2, sample_built).
Proof. vm_compute. reflexivity. Qed.

(** The file is looked up, and then renamed to a new entry. *)
Definition sample_moved : volume := match rename_attach 0 2 65 sample_built with Ret v => v | _ => sample_volume end.

Lemma sample_step : istep Sample.sb16 sample_layout fat16_ops true (λ i, i) sample_options 0 sample_vfs (Cached (fat_hash_init sample_volume) {[64]} ∅) (Cached sample_built {[64]} ∅).
Proof. apply (is_lookup _ _ _ _ _ _ _ _ (entry_bytes name_a 32) 64 _ _ _ (inr 2)); [set_solver|apply sample_new|exact sample_built_eq]. Qed.

Lemma sample_built_ok : hash_ok 0 sample_built ∧ live_at sample_built 2 64.
Proof.
  destruct (fat_build_inode_spec Sample.sb16 sample_layout fat16_ops true (λ i, i) sample_options 0 sample_vfs (fat_hash_init sample_volume) (entry_bytes name_a 32) 64 (inr 2) sample_built) as [H1 H2].
  - apply init_hash_ok.
  - apply sample_new.
  - exact sample_built_eq.
  - by split.
Qed.

Lemma sample_moved_eq : rename_attach 0 2 65 sample_built = Ret sample_moved.
Proof. vm_compute. reflexivity. Qed.

Lemma inode_cache_unique_witness :
  (∀ a b, live_at sample_moved a 65 → live_at sample_moved b 65 → a = b) ∧ ∃ r v', fat_iget 0 65 sample_moved = Ret (r, v') ∧ r = Some 2.
Proof.
  destruct (inode_cache_unique Sample.sb16 sample_layout fat16_ops true (λ i, i) sample_options 0 sample_vfs sample_volume {[64]} (Cached sample_moved ({[65]} ∪ {[64]} ∖ {[64]}) ({[64]} ∪ ∅))) as [H1 H2].
  - eapply rtc_l; [exact sample_step|]. apply rtc_once. apply is_rename_new with (a := 2) (p := 64); [exact (proj2 sample_built_ok)|set_solver|exact sample_moved_eq].
  - split; [intros a b; exact (H1 a b 65)|]. destruct (H2 65) as (r & v' & E & _). exists r, v'. split; [exact E|]. cbn [c_vol] in E. vm_compute in E. injection E; intros; subst; reflexivity.
Defined.

(** A file of 700 bytes in cluster 3, changed at an odd second. *)
Definition sample_file : inode :=
  Inode (Finode [] 0 1 3 3 2 700 700 77 false false true) 64 32 (file_mode sample_options 0 [84; 88; 84]) 1 1 (Stamps 1400000001 1400000003 50000000 1400000001) 1 false 0 0 0.


Lemma fat_fh_roundtrip_witness :
  ∃ i fh v', inodes sample_built !! 2 = Some i ∧ fat_encode_fh i i 5 = Some fh ∧
    fat_get_dentry 0 (λ _ _, None) true fh sample_built = Ret (inr 2, v').
Proof.
  destruct (proj2 sample_built_ok) as [Hh (i & Hi & Hp & Hf)].
  destruct (fat_fh_roundtrip 0 (λ _ _, None) sample_built 2 i i (proj1 sample_built_ok) Hi) as (fh & H1 & H2).
  - rewrite Hp. exact (proj2 sample_built_ok).
  - rewrite Hp. lia.
  - assert (Hl : (λ j, i_logstart (node j)) <$> inodes sample_built !! 2 = Some 0) by (vm_compute; reflexivity). rewrite Hi in Hl. injection Hl as ->. lia.
  - assert (Hl : (λ j, i_logstart (node j)) <$> inodes sample_built !! 2 = Some 0) by (vm_compute; reflexivity). rewrite Hi in Hl. injection Hl as ->. lia.
  - reflexivity.
  - exists i, fh. eexists. split; [exact Hi|]. split; [exact H1|exact H2].
Defined.
