(* ===== verification/MsdosOps.v ===== *)
(** The calls on names of the MS-DOS file system: lookup, create, mkdir, unlink,
    rmdir and rename of [fs/msdos/namei.c], on directories and inodes.

    A dentry is the name and the inode it stands for; the big kernel lock makes a
    call one step, except for what [fat_write_inode] lets happen.  [i_version] of a
    directory is not kept. *)

From stdpp Require Import strings.
From S2P Require Import Prelude Fat12 Fatent FatentLaws FatAlloc FatDate FatCache FatFile FatDir Msdos FatMount FatInode.

Section namei.
Context (opts : fat_mount_options) (env : env) (sb : sb_info) (lay : layout) (ops : fatent_operations).
Context (needs_sync : bool) (sync_inode : Z) (alloc : bool) (sleep : finode → finode).
Context (o : inode_options) (sb_addr : Z) (k : vfs) (wfuel : nat).

(** [CURRENT_TIME_SEC] *)
Abbreviation now := (get_seconds k).

Definition touch_cm (i : inode) : inode := set_times (Stamps now now 0 (atime (i_times i))) i.
Definition touch_c (i : inode) : inode := set_times (Stamps (mtime (i_times i)) now 0 (atime (i_times i))) i.
Definition touch_ma (i : inode) : inode := set_times (Stamps now (ctime (i_times i)) (ctime_nsec (i_times i)) now) i.
Definition touch_all (i : inode) : inode := set_times (Stamps now now 0 now) i.

(** ** The directory functions on a directory inode *)

Definition scan (dir : Z) (name : list Z) (v : volume) : outcome (Z * option fat_slot_info * volume) :=
  with_node dir (λ n s, '(err, si, n, s) ← fat_scan sb lay ops alloc sleep name n s; Ret ((err, si), n, s)) v.

Definition find_name (dir : Z) (name : list Z) (v : volume) : outcome (Z * option fat_slot_info * volume) :=
  with_node dir (λ n s, '(err, si, n, s) ← msdos_find opts sb lay ops alloc sleep name n s; Ret ((err, si), n, s)) v.

Definition is_sync (dir : Z) (v : volume) : outcome bool := i ← get_inode dir v; Ret (is_dirsync (node i)).

(** [if (IS_DIRSYNC(dir)) err = fat_sync_inode(inode); else mark_inode_dirty(inode);] *)
Definition sync_or_mark (sync : bool) (a : Z) (v : volume) : outcome (Z * volume) :=
  if sync then fat_sync_inode env sb lay o k wfuel a v
  else v ← on_inode a (λ i, set_node (mark_inode_dirty (node i)) i) v; Ret (0, v).

Definition msdos_add_entry (dir : Z) (name : list Z) (is_dir is_hid : bool) (cluster : Z) (v : volume)
    : outcome (Z * option fat_slot_info * volume) :=
  '(err, si, v) ← with_node dir (λ n s,
    '(err, si, n, s) ← msdos_add_de env sb lay ops needs_sync sync_inode alloc sleep name is_dir is_hid cluster (tz_minuteswest o) now n s;
    Ret ((err, si), n, s)) v;
  if negb (err =? 0) then Ret (err, si, v) else
  v ← on_inode dir touch_cm v;
  sync ← is_sync dir v;
  '(_, v) ← sync_or_mark sync dir v;
  Ret (0, si, v).

(** [fat_remove_entries] with the times of the directory. *)
Definition remove_entries (dir : Z) (si : fat_slot_info) (v : volume) : outcome (Z * volume) :=
  '(err, v) ← with_node dir (λ n s, fat_remove_entries env sb lay ops alloc sleep si n s) v;
  if negb (err =? 0) then Ret (err, v) else
  v ← on_inode dir touch_ma v;
  sync ← is_sync dir v;
  '(_, v) ← (if (sync : bool) then fat_sync_inode env sb lay o k wfuel dir v else Ret (0, v));
  Ret (0, v).

(** The inode of the entry a search or an addition gave. *)
Definition build (si : fat_slot_info) (v : volume) : outcome ((Z + Z) * volume) :=
  e ← dirent (fs v) (si_de si); fat_build_inode sb lay ops alloc sleep o sb_addr k e (i_pos si) v.

(** ** The calls *)

(** [msdos_lookup]: an error, or the inode for the dentry if there is one. *)
Definition msdos_lookup (dir : Z) (name : list Z) (v : volume) : outcome ((Z + option Z) * volume) :=
  '(res, si, v) ← find_name dir name v;
  match si with
  | Some si =>
    '(r, v) ← build si v;
    Ret (match r with inl err => inl err | inr a => inr (Some a) end, v)
  | None => Ret (if res =? - ENOENT then inr None else inl res, v)
  end.

Definition flush (err : Z) (i1 i2 : option Z) (v : volume) : outcome (Z * volume) :=
  if err =? 0 then Ret (fat_flush_inodes o k i1 i2 v) else Ret (err, v).

(** [msdos_create]: the result and the new inode. *)
Definition msdos_create (dir : Z) (name : list Z) (v : volume) : outcome (Z * option Z * volume) :=
  match msdos_format_name opts name with
  | None => Ret (- EINVAL, None, v)
  | Some msdos_name =>
    let is_hid := is_hidden name msdos_name in
    '(err, _, v) ← scan dir msdos_name v;
    if err =? 0 then Ret (- EINVAL, None, v) else
    '(err, si, v) ← msdos_add_entry dir msdos_name false is_hid 0 v;
    if negb (err =? 0) then Ret (err, None, v) else
    match si with
    | None => Undef
    | Some si =>
      '(r, v) ← build si v;
      match r with
      | inl err => Ret (err, None, v)
      | inr a => v ← on_inode a touch_all v; '(err, v) ← flush 0 (Some dir) (Some a) v; Ret (err, Some a, v)
      end
    end
  end.

(** [msdos_unlink] and the end of [msdos_rmdir]: the entry goes and the inode
    leaves the table. *)
Definition drop_entry (dir : Z) (name : list Z) (a : Z) (last : volume → outcome volume) (v : volume) : outcome (Z * volume) :=
  '(err, si, v) ← find_name dir name v;
  if negb (err =? 0) then Ret (err, v) else
  match si with
  | None => Undef
  | Some si =>
    '(err, v) ← remove_entries dir si v;
    if negb (err =? 0) then Ret (err, v) else
    v ← last v;
    v ← on_inode a (λ i, touch_c (set_nlink 0 i)) v;
    v ← fat_detach a v;
    flush 0 (Some dir) (Some a) v
  end.

Definition msdos_unlink (dir : Z) (name : list Z) (a : Z) (v : volume) : outcome (Z * volume) := drop_entry dir name a (λ v, Ret v) v.

Definition drop_nlink (a : Z) (v : volume) : outcome volume := on_inode a (λ i, set_nlink (u32 (i_nlink i - 1)) i) v.
Definition inc_nlink (a : Z) (v : volume) : outcome volume := on_inode a (λ i, set_nlink (u32 (i_nlink i + 1)) i) v.

Definition msdos_rmdir (dir : Z) (name : list Z) (a : Z) (v : volume) : outcome (Z * volume) :=
  '(err, v) ← with_node a (λ n s, fat_dir_empty sb lay ops alloc sleep n s) v;
  if negb (err =? 0) then Ret (err, v) else drop_entry dir name a (drop_nlink dir) v.

(** [msdos_mkdir]: the result and the new inode. *)
Definition msdos_mkdir (dir : Z) (name : list Z) (v : volume) : outcome (Z * option Z * volume) :=
  match msdos_format_name opts name with
  | None => Ret (- EINVAL, None, v)
  | Some msdos_name =>
    let is_hid := is_hidden name msdos_name in
    '(err, _, v) ← scan dir msdos_name v;
    if err =? 0 then Ret (- EINVAL, None, v) else
    '(cluster, v) ← with_node dir (λ n s,
      '(c, s) ← fat_alloc_new_dir env sb lay ops needs_sync (opt_isvfat o) (tz_minuteswest o) now n s; Ret (c, n, s)) v;
    if cluster <? 0 then Ret (cluster, None, v) else
    '(err, si, v) ← msdos_add_entry dir msdos_name true is_hid cluster v;
    if negb (err =? 0) then '(_, s) ← fat_free_clusters env sb ops cluster (fs v); Ret (err, None, set_fs s v) else
    v ← inc_nlink dir v;
    match si with
    | None => Undef
    | Some si =>
      '(r, v) ← build si v;
      match r with
      | inl err => Ret (err, None, v)
      | inr a =>
        v ← on_inode a (λ i, touch_all (set_nlink 2 i)) v;
        '(_, v) ← flush 0 (Some dir) (Some a) v;
        Ret (0, Some a, v)
      end
    end
  end.
(** ** Renaming *)

(** [dotdot_de->start] and [starthi] set to a cluster. *)
Definition set_dotdot (de : ptr) (start : Z) (v : volume) : outcome volume :=
  s ← poke_bytes (fs v) (de.1, de.2 + 26) (le_bytes 2 start);
  s ← poke_bytes s (de.1, de.2 + 20) (le_bytes 2 (Z.shiftr start 16));
  Ret (set_fs (mark_buffer_dirty de.1 s) v).

Definition logstart_of (a : Z) (v : volume) : outcome Z := i ← get_inode a v; Ret (i_logstart (node i)).

Definition sync_buffer (b : Z) (v : volume) : Z * volume := let '(err, s) := sync_dirty_buffer env b (fs v) in (err, set_fs s v).

(** The two inodes, the two directories and what the first searches gave. *)
Record rename_args := RenameArgs {
  old_dir : Z; new_dir : Z; old_inode : Z; new_ino : option Z;
  old_sinfo : fat_slot_info; dotdot : option ptr; old_attrs : Z; r_is_hid : bool; r_is_dir : bool
}.

Section rename.
Context (r : rename_args).

Definition set_hidden (v : volume) : outcome volume :=
  on_inode (old_inode r) (λ i, set_attrs (if r_is_hid r then Z.lor (i_attrs i) ATTR_HIDDEN else Z.land (i_attrs i) (Z.lnot ATTR_HIDDEN)) i) v.

(** [error_inode]: everything back to the old place. *)
Definition error_inode (corrupt : Z) (new_i_pos : Z) (sinfo : fat_slot_info) (v : volume) : outcome volume :=
  v ← rename_attach sb_addr (old_inode r) (i_pos (old_sinfo r)) v;
  v ← on_inode (old_inode r) (set_attrs (old_attrs r)) v;
  '(corrupt, v) ← (match new_ino r with
    | Some n =>
      v ← fat_attach sb_addr n new_i_pos v;
      if negb (corrupt =? 0) then '(e, v) ← fat_sync_inode env sb lay o k wfuel n v; Ret (Z.lor corrupt e, v) else Ret (corrupt, v)
    | None =>
      '(err2, v) ← remove_entries (new_dir r) sinfo v;
      Ret (if negb (corrupt =? 0) then Z.lor corrupt err2 else corrupt, v)
    end);
  Ret (if corrupt <? 0 then set_fs (fat_fs_panic (fs v)) v else v).

(** [error_dotdot]: the entry [..] back to the old directory first. *)
Definition error_dotdot (new_i_pos : Z) (sinfo : fat_slot_info) (v : volume) : outcome volume :=
  match dotdot r with
  | None => error_inode 1 new_i_pos sinfo v
  | Some de =>
    start ← logstart_of (old_dir r) v;
    v ← set_dotdot de start v;
    let '(err, v) := sync_buffer de.1 v in
    error_inode (Z.lor 1 err) new_i_pos sinfo v
  end.

(** The name differs in the dot in front only: just the attribute changes. *)
Definition rename_hidden (v : volume) : outcome (Z * volume) :=
  v ← set_hidden v;
  sync ← is_sync (old_dir r) v;
  '(err, v) ← sync_or_mark sync (old_inode r) v;
  if negb (err =? 0) then v ← on_inode (old_inode r) (set_attrs (old_attrs r)) v; Ret (err, v) else
  v ← on_inode (old_dir r) touch_cm v;
  '(_, v) ← sync_or_mark sync (old_dir r) v;
  Ret (0, v).

(** From the new position on: the inode moves, [..] is updated and the old entry
    removed. *)
Definition rename_move (new_i_pos : Z) (sinfo : fat_slot_info) (v : volume) : outcome (Z * volume) :=
  v ← rename_attach sb_addr (old_inode r) new_i_pos v;
  v ← set_hidden v;
  sync ← is_sync (new_dir r) v;
  '(err, v) ← sync_or_mark sync (old_inode r) v;
  if negb (err =? 0) then v ← error_inode 0 new_i_pos sinfo v; Ret (err, v) else
  '(err, v) ← (match dotdot r with
    | None => Ret (0, v)
    | Some de =>
      start ← logstart_of (new_dir r) v;
      v ← set_dotdot de start v;
      let '(err, v) := if (sync : bool) then sync_buffer de.1 v else (0, v) in
      if negb (err =? 0) then Ret (err, v) else
      v ← drop_nlink (old_dir r) v;
      v ← (match new_ino r with None => inc_nlink (new_dir r) v | Some _ => Ret v end);
      Ret (0, v)
    end);
  if negb (err =? 0) then v ← error_dotdot new_i_pos sinfo v; Ret (err, v) else
  '(err, v) ← remove_entries (old_dir r) (old_sinfo r) v;
  if negb (err =? 0) then v ← error_dotdot new_i_pos sinfo v; Ret (err, v) else
  v ← on_inode (old_dir r) touch_cm v;
  sync ← is_sync (old_dir r) v;
  '(_, v) ← sync_or_mark sync (old_dir r) v;
  v ← (match new_ino r with
       | Some n => v ← drop_nlink n v; v ← (if r_is_dir r then drop_nlink n v else Ret v); on_inode n touch_c v
       | None => Ret v
       end);
  Ret (0, v).
End rename.

Definition do_msdos_rename (old_dir : Z) (old_name : list Z) (old_inode new_dir : Z) (new_name : list Z) (new_ino : option Z) (is_hid : bool)
    (v : volume) : outcome (Z * volume) :=
  '(err, osi, v) ← scan old_dir old_name v;
  match osi with
  | None => Ret (- EIO, v)
  | Some osi =>
    i ← get_inode old_inode v;
    let is_dir := S_ISDIR (i_mode i) in
    let update_dotdot := is_dir && negb (old_dir =? new_dir) in
    '(dd, v) ← (if (update_dotdot : bool) then
                  '(err, r, v) ← with_node old_inode (λ n s, '(err, r, n, s) ← fat_get_dotdot_entry sb lay ops alloc sleep n s; Ret ((err, r), n, s)) v;
                  Ret (match r with Some (de, _) => inr (Some de) | None => inl (- EIO) end, v)
                else Ret (inr None, v));
    match (dd : Z + option ptr) with
    | inl err => Ret (err, v)
    | inr dd =>
      i ← get_inode old_inode v;
      let r := RenameArgs old_dir new_dir old_inode new_ino osi dd (i_attrs i) is_hid is_dir in
      '(err, nsi, v) ← scan new_dir new_name v;
      match new_ino with
      | None =>
        match nsi with
        | Some nsi => if bool_decide (si_de nsi = si_de osi) then rename_hidden r v else Ret (- EINVAL, v)
        | None =>
          '(err, si, v) ← msdos_add_entry new_dir new_name is_dir is_hid 0 v;
          if negb (err =? 0) then Ret (err, v) else
          match si with Some si => rename_move r (i_pos si) si v | None => Undef end
        end
      | Some n =>
        match nsi with
        | None => Ret (err, v)
        | Some nsi =>
          '(err, v) ← (if is_dir then with_node n (λ m s, fat_dir_empty sb lay ops alloc sleep m s) v else Ret (0, v));
          if negb (err =? 0) then Ret (err, v) else
          '(new_i_pos, v) ← rename_detach n v;
          rename_move r new_i_pos nsi v
        end
      end
    end
  end.

Definition msdos_rename (old_dir : Z) (old_name : list Z) (old_inode new_dir : Z) (new_name : list Z) (new_ino : option Z) (v : volume)
    : outcome (Z * volume) :=
  match msdos_format_name opts old_name, msdos_format_name opts new_name with
  | Some old_msdos_name, Some new_msdos_name =>
    '(err, v) ← do_msdos_rename old_dir old_msdos_name old_inode new_dir new_msdos_name new_ino (is_hidden new_name new_msdos_name) v;
    flush err (Some old_dir) (Some new_dir) v
  | _, _ => Ret (- EINVAL, v)
  end.
End namei.
