(* ===== verification/VfatOps.v ===== *)
(** The calls on names of the VFAT file system: lookup, create, unlink, rmdir, mkdir
    and rename of [fs/vfat/namei.c], on directories and inodes.

    A dentry is the name and the inode it stands for; which of several dentries
    gets an inode is left to the dentry cache.  [i_version] of a directory and the
    times of dentries are not kept. *)

From stdpp Require Import strings.
From S2P Require Import Prelude Fat12 Fatent FatentLaws FatAlloc FatDate FatCache FatFile FatDir Nls FatLong Msdos FatMount FatInode MsdosOps Vfat.

Section namei.
Context (vo : vfat_options) (env : env) (sb : sb_info) (lay : layout) (ops : fatent_operations).
Context (needs_sync : bool) (sync_inode : Z) (alloc : bool) (sleep : finode → finode).
Context (o : inode_options) (sb_addr : Z) (k : vfs) (wfuel : nat).

(** Memory for the name and for the slots, what a new page holds, and the clock. *)
Context (page slots_ok : bool) (new_page : list Z) (jiffies jiffies' : Z).

Abbreviation now := (get_seconds k).
Abbreviation sync_or_mark := (sync_or_mark env sb lay o k wfuel).
Abbreviation remove_entries := (remove_entries env sb lay ops alloc sleep o k wfuel).
Abbreviation build := (build sb lay ops alloc sleep o sb_addr k).

(** ** Finding and adding in a directory inode *)

Definition vfind (dir : Z) (name : list Z) (v : volume) : outcome (Z * option fat_slot_info * volume) :=
  with_node dir (λ n s, '(err, si, n, s) ← vfat_find sb lay ops alloc sleep vo page name new_page n s; Ret ((err, si), n, s)) v.

Definition vfat_add_entry (dir : Z) (name : list Z) (is_dir : bool) (cluster : Z) (v : volume) : outcome (Z * option fat_slot_info * volume) :=
  '(err, si, v) ← with_node dir (λ n s,
    '(err, si, n, s) ← vfat_add_de sb lay ops alloc sleep vo page jiffies jiffies' (tz_minuteswest o) now env needs_sync sync_inode slots_ok name is_dir cluster n s;
    Ret ((err, si), n, s)) v;
  if negb (err =? 0) then Ret (err, si, v) else
  v ← on_inode dir (touch_all k) v;
  sync ← is_sync dir v;
  '(_, v) ← sync_or_mark sync dir v;
  Ret (0, si, v).

(** ** The calls *)

(** An error, or the inode for the dentry if there is one. *)
Definition vfat_lookup (dir : Z) (name : list Z) (v : volume) : outcome ((Z + option Z) * volume) :=
  '(err, si, v) ← vfind dir name v;
  match si with
  | Some si => '(r, v) ← build si v; Ret (match r with inl err => inl err | inr a => inr (Some a) end, v)
  | None => Ret (inr None, v)
  end.

Definition vfat_create (dir : Z) (name : list Z) (v : volume) : outcome (Z * option Z * volume) :=
  '(err, si, v) ← vfat_add_entry dir name false 0 v;
  if negb (err =? 0) then Ret (err, None, v) else
  match si with
  | None => Undef
  | Some si =>
    '(r, v) ← build si v;
    match r with
    | inl err => Ret (err, None, v)
    | inr a => v ← on_inode a (touch_all k) v; Ret (0, Some a, v)
    end
  end.

(** The end of [vfat_unlink] and of [vfat_rmdir]. *)
Definition vfat_drop (dir : Z) (name : list Z) (a : Z) (last : volume → outcome volume) (v : volume) : outcome (Z * volume) :=
  '(err, si, v) ← vfind dir name v;
  if negb (err =? 0) then Ret (err, v) else
  match si with
  | None => Undef
  | Some si =>
    '(err, v) ← remove_entries dir si v;
    if negb (err =? 0) then Ret (err, v) else
    v ← last v;
    v ← on_inode a (λ i, touch_ma k (set_nlink 0 i)) v;
    v ← fat_detach a v;
    Ret (0, v)
  end.

Definition vfat_unlink (dir : Z) (name : list Z) (a : Z) (v : volume) : outcome (Z * volume) := vfat_drop dir name a (λ v, Ret v) v.

Definition vfat_rmdir (dir : Z) (name : list Z) (a : Z) (v : volume) : outcome (Z * volume) :=
  '(err, v) ← with_node a (λ n s, fat_dir_empty sb lay ops alloc sleep n s) v;
  if negb (err =? 0) then Ret (err, v) else vfat_drop dir name a (drop_nlink dir) v.

Definition vfat_mkdir (dir : Z) (name : list Z) (v : volume) : outcome (Z * option Z * volume) :=
  '(cluster, v) ← with_node dir (λ n s,
    '(c, s) ← fat_alloc_new_dir env sb lay ops needs_sync (opt_isvfat o) (tz_minuteswest o) now n s; Ret (c, n, s)) v;
  if cluster <? 0 then Ret (cluster, None, v) else
  '(err, si, v) ← vfat_add_entry dir name true cluster v;
  if negb (err =? 0) then '(_, s) ← fat_free_clusters env sb ops cluster (fs v); Ret (err, None, set_fs s v) else
  v ← inc_nlink dir v;
  match si with
  | None => Undef
  | Some si =>
    '(r, v) ← build si v;
    match r with
    | inl err => Ret (err, None, v)
    | inr a => v ← on_inode a (λ i, touch_all k (set_nlink 2 i)) v; Ret (0, Some a, v)
    end
  end.

(** ** Renaming *)

(** The inodes, the directories, the entry of the old name and [..]; the last is
    set when it has to be updated. *)
Record vrename := VRename { v_old_dir : Z; v_new_dir : Z; v_old_inode : Z; v_new_inode : option Z; v_old_sinfo : fat_slot_info; v_dotdot : option ptr; v_is_dir : bool }.

Section rename.
Context (r : vrename) (new_i_pos : Z) (sinfo : option fat_slot_info).

(** [error_inode]: everything back to the old place; [sinfo] is the new entry. *)
Definition verror_inode (corrupt : Z) (v : volume) : outcome volume :=
  v ← rename_attach sb_addr (v_old_inode r) (i_pos (v_old_sinfo r)) v;
  '(corrupt, v) ← (match v_new_inode r, sinfo with
    | Some n, _ =>
      v ← fat_attach sb_addr n new_i_pos v;
      if negb (corrupt =? 0) then '(e, v) ← fat_sync_inode env sb lay o k wfuel n v; Ret (Z.lor corrupt e, v) else Ret (corrupt, v)
    | None, Some si =>
      '(err2, v) ← remove_entries (v_new_dir r) si v;
      Ret (if negb (corrupt =? 0) then Z.lor corrupt err2 else corrupt, v)
    | None, None => Undef
    end);
  Ret (if corrupt <? 0 then set_fs (fat_fs_panic (fs v)) v else v).

Definition verror_dotdot (v : volume) : outcome volume :=
  match v_dotdot r with
  | None => verror_inode 1 v
  | Some de =>
    start ← logstart_of (v_old_dir r) v;
    v ← set_dotdot de start v;
    let '(err, v) := sync_buffer env de.1 v in
    verror_inode (Z.lor 1 err) v
  end.

(** From the new position on. *)
Definition vrename_move (v : volume) : outcome (Z * volume) :=
  v ← rename_attach sb_addr (v_old_inode r) new_i_pos v;
  sync ← is_sync (v_new_dir r) v;
  '(err, v) ← sync_or_mark sync (v_old_inode r) v;
  if negb (err =? 0) then v ← verror_inode 0 v; Ret (err, v) else
  '(err, v) ← (match v_dotdot r with
    | None => Ret (0, v)
    | Some de =>
      start ← logstart_of (v_new_dir r) v;
      v ← set_dotdot de start v;
      let '(err, v) := if (sync : bool) then sync_buffer env de.1 v else (0, v) in
      if negb (err =? 0) then Ret (err, v) else
      v ← drop_nlink (v_old_dir r) v;
      v ← (match v_new_inode r with None => inc_nlink (v_new_dir r) v | Some _ => Ret v end);
      Ret (0, v)
    end);
  if negb (err =? 0) then v ← verror_dotdot v; Ret (err, v) else
  '(err, v) ← remove_entries (v_old_dir r) (v_old_sinfo r) v;
  if negb (err =? 0) then v ← verror_dotdot v; Ret (err, v) else
  v ← on_inode (v_old_dir r) (touch_cm k) v;
  sync ← is_sync (v_old_dir r) v;
  '(_, v) ← sync_or_mark sync (v_old_dir r) v;
  v ← (match v_new_inode r with
       | Some n => v ← drop_nlink n v; v ← (if v_is_dir r then drop_nlink n v else Ret v); on_inode n (touch_c k) v
       | None => Ret v
       end);
  Ret (0, v).
End rename.

Definition vfat_rename (old_dir : Z) (old_name : list Z) (old_inode new_dir : Z) (new_name : list Z) (new_inode : option Z) (v : volume)
    : outcome (Z * volume) :=
  '(err, osi, v) ← vfind old_dir old_name v;
  match osi with
  | None => Ret (err, v)
  | Some osi =>
    i ← get_inode old_inode v;
    let is_dir := S_ISDIR (i_mode i) in
    '(dd, v) ← (if is_dir && negb (old_dir =? new_dir) then
                  '(err, r, v) ← with_node old_inode (λ n s, '(err, r, n, s) ← fat_get_dotdot_entry sb lay ops alloc sleep n s; Ret ((err, r), n, s)) v;
                  Ret (match r with Some (de, _) => inr (Some de) | None => inl (- EIO) end, v)
                else Ret (inr None, v));
    match (dd : Z + option ptr) with
    | inl err => Ret (err, v)
    | inr dd =>
      let r := VRename old_dir new_dir old_inode new_inode osi dd is_dir in
      match new_inode with
      | Some n =>
        '(err, v) ← (if is_dir then with_node n (λ m s, fat_dir_empty sb lay ops alloc sleep m s) v else Ret (0, v));
        if negb (err =? 0) then Ret (err, v) else
        '(new_i_pos, v) ← rename_detach n v;
        vrename_move r new_i_pos None v
      | None =>
        '(err, si, v) ← vfat_add_entry new_dir new_name is_dir 0 v;
        if negb (err =? 0) then Ret (err, v) else
        match si with Some si => vrename_move r (i_pos si) (Some si) v | None => Undef end
      end
    end
  end.
End namei.

(** ** An example

    In the sample root a file with a long name is created, found under another
    spelling, renamed to a short name, found under that and removed. *)

Abbreviation sample_find := (vfat_lookup plain_options Sample.sb16 sample_layout fat16_ops true (λ i, i) sample_options 0 sample_vfs true new_name_page 1).
Abbreviation sample_create :=
  (vfat_create plain_options Sample.quiet_env Sample.sb16 sample_layout fat16_ops false 0 true (λ i, i) sample_options 0 sample_vfs 1 true true 0 0 1).
Abbreviation sample_unlink := (vfat_unlink plain_options Sample.quiet_env Sample.sb16 sample_layout fat16_ops true (λ i, i) sample_options sample_vfs 1 true new_name_page 1).
Abbreviation sample_rename :=
  (vfat_rename plain_options Sample.quiet_env Sample.sb16 sample_layout fat16_ops false 0 true (λ i, i) sample_options 0 sample_vfs 1 true true new_name_page 0 0 1).

Definition session : outcome (Z * (Z + option Z) * (Z + option Z) * Z * (Z + option Z) * (Z + option Z) * Z * (Z + option Z)) :=
  '(r1, _, v) ← sample_create (bytes_of "A long name.text") (fat_hash_init sample_volume);
  '(r2, v) ← sample_find (bytes_of "a LONG name.text...") v;
  '(r3, v) ← sample_find (bytes_of "alongn~1.tex") v;
  '(r4, v) ← sample_rename (bytes_of "A long name.text") 2 1 (bytes_of "SHORT") None v;
  '(r5, v) ← sample_find (bytes_of "A long name.text") v;
  '(r6, v) ← sample_find (bytes_of "short") v;
  '(r7, v) ← sample_unlink (bytes_of "SHORT") 2 v;
  '(r8, v) ← sample_find (bytes_of "short") v;
  Ret (r1, r2, r3, r4, r5, r6, r7, r8).

Example session_ok : session = Ret (0, inr (Some 2), inr (Some 2), 0, inr None, inr (Some 2), 0, inr None).
Proof. vm_compute. reflexivity. Qed.
