(* ===== verification/FatReaddir.v ===== *)
(** Listing a directory: [readdir] and its ioctls of [fs/fat/dir.c].

    The caller's function that takes one name is an argument, with the state it
    keeps; a negative result stops the listing.  The numbers of inodes and of the
    parent come from the inodes in memory ([FatInode]). *)

From stdpp Require Import strings.
From S2P Require Import Prelude Fat12 Fatent FatentLaws FatAlloc FatDate FatCache FatFile FatDir Nls FatLong Msdos FatMount FatInode.

(** ** Data *)

(** The names of one entry as they are handed out: one of them, or with the ioctl
    for both the long and the short one. *)
Inductive shown := OneName (name : list Z) | BothNames (longname shortname : list Z).

Record dir_item := DirItem { it_name : shown; it_off : Z; it_ino : Z; it_dir : bool }.

Definition PAGE_REST : nat := 3574.
Definition EFAULT : Z := 14.

Section readdir.
Context (sb : sb_info) (lay : layout) (ops : fatent_operations) (alloc : bool) (sleep : finode → finode).
Context (o : vfat_options) (isvfat dots nocase : bool) (new_page : option (list Z)) (inum_at : Z → outcome Z) (parent_ino : Z).
Context {B : Type} (filldir : B → dir_item → B * Z) (short_only both : bool).

(** ** The short name *)

(** One part of the name from byte [work] on: [nm] is what is in [ptname] and
    [buf] what is in [bufuname]. *)
Fixpoint list_part (fuel : nat) (lower : bool) (work nm : list Z) (last : nat) (buf : list Z) (last_u : nat) : outcome (list Z * nat * list Z * nat) :=
  match fuel with
  | O => NoFuel
  | S fuel =>
    match work with
    | [] => Ret (nm, last, buf, last_u)
    | c :: rest =>
      if c =? 0 then Ret (nm, last, buf, last_u) else
      let '(chl, uc) := fat_shortname2uni (nls_disk o) work (opt_shortname o) lower in
      buf ← emit 14 buf [uc];
      if chl <=? 1 then
        let nm := nm ++ [if negb nocase && is_upper c then c + 32 else c] in
        if c =? 32 then list_part fuel lower rest nm last buf last_u else list_part fuel lower rest nm (length nm) buf (length buf)
      else
        let nm := nm ++ take (Z.to_nat chl) work in
        list_part fuel lower (drop (Z.to_nat chl) work) nm (length nm) buf (length buf)
    end
  end.

(** The bytes and the characters of a short name, or nothing if it is blank. *)
Definition list_name (e : msdos_dir_entry) : outcome (option (list Z * list Z)) :=
  let work := match take 8 e with c :: l => (if c =? 5 then 0xe5 else c) :: l | [] => [] end in
  '(nm, last, buf, last_u) ← list_part 9 (z2b (Z.land (de_lcase e) CASE_LOWER_BASE)) work [] 0 [] 0;
  let '(_, dot) := fat_short2uni (nls_disk o) [46] in
  buf ← emit 14 (take last_u buf) [dot];
  '(nm, last, buf, last_u) ← list_part 4 (z2b (Z.land (de_lcase e) CASE_LOWER_EXT)) (take 3 (drop 8 e)) (take last nm ++ [46]) last buf last_u;
  if (last =? 0)%nat then Ret None else Ret (Some (take last nm, take last_u buf)).

(** The short name as it is shown, in the 56 bytes of [bufname]. *)
Definition short_shown (e : msdos_dir_entry) (nm uname : list Z) : outcome (list Z) :=
  if isvfat then
    _ ← emit 14 uname [0];
    if opt_utf8 o then utf8_wcstombs 56 uname 56 else uni16_to_x8 56 (unicode_xlate o) (nls_io o) uname
  else Ret ((if dots && z2b (Z.land (de_attr e) ATTR_HIDDEN) then [46] else []) ++ nm).

(** The long name, in what the page has left. *)
Definition long_shown (uni : list Z) : outcome (list Z) :=
  if opt_utf8 o then utf8_wcstombs PAGE_REST uni (Z.of_nat PAGE_REST) else uni16_to_x8 PAGE_REST (unicode_xlate o) (nls_io o) uni.

(** [!memcmp(de->name, name, MSDOS_NAME)] *)
Definition is_name (e : msdos_dir_entry) (name : list Z) : bool := bool_decide (de_name e = name).

Definition item_ino (dir : finode) (e : msdos_dir_entry) (de : ptr) : outcome Z :=
  if is_name e MSDOS_DOT then Ret (i_ino dir) else if is_name e MSDOS_DOTDOT then Ret parent_ino else inum_at (fat_make_i_pos lay de).

(** What is handed out for an entry, if it is not blank; [off] is the position. *)
Definition item_of (dir : finode) (e : msdos_dir_entry) (de : ptr) (off nr : Z) (unicode : option (list Z)) : outcome (option dir_item) :=
  r ← list_name e;
  match r with
  | None => Ret None
  | Some (nm, uname) =>
    ino ← item_ino dir e de;
    short ← short_shown e nm uname;
    name ← (if negb short_only && negb (nr =? 0) then
              match unicode with
              | Some uni => long ← long_shown uni; Ret (if both then BothNames long short else OneName long)
              | None => Undef
              end
            else Ret (OneName short));
    Ret (Some (DirItem name off ino (z2b (Z.land (de_attr e) ATTR_DIR))))
  end.

(** ** The loop *)

(** As [search_loop]; [fpos] is the position of the file, [dummy] the one that is
    reported for the first entry of a root directory. *)
Fixpoint readdir_loop (fuel : nat) (have : bool) (unicode : option (list Z)) (cur : option ptr) (pos fpos : Z) (dummy : option Z) (b : B) (dir : finode) (s : fatfs)
    : outcome (Z * Z * B * finode * fatfs) :=
  match fuel with
  | O => NoFuel
  | S fuel =>
    '(cur, pos, dir, s) ← (if have then Ret (cur, pos, dir, s) else fat_get_entry sb lay ops alloc sleep cur pos dir s);
    match cur with
    | None => Ret (0, pos, b, dir, s)
    | Some de =>
      e ← dirent s de;
      let rec_end unicode cur pos b dir s := readdir_loop fuel false unicode cur pos pos None b dir s in
      let ext := isvfat && (de_attr e =? ATTR_EXT) in
      if (if isvfat then (slot_id e =? DELETED_FLAG) || negb (de_attr e =? ATTR_EXT) && (z2b (Z.land (de_attr e) ATTR_VOLUME) || IS_FREE (de_name e))
          else z2b (Z.land (de_attr e) ATTR_VOLUME) || IS_FREE (de_name e)) then rec_end unicode cur pos b dir s else
      '(st, unicode, dir, s) ← (if ext then fat_parse_long sb lay ops alloc sleep new_page unicode de pos dir s
                                else Ret (Some (PARSE_OK 0, cur, pos), unicode, dir, s));
      match st with
      | None => Ret (- ENOMEM, pos, b, dir, s)
      | Some (PARSE_INVALID, cur, pos) => rec_end unicode cur pos b dir s
      | Some (PARSE_NOT_LONGNAME, cur, pos) => readdir_loop fuel true unicode cur pos fpos dummy b dir s
      | Some (PARSE_EOF, _, pos) | Some (PARSE_OK _, None, pos) => Ret (0, pos, b, dir, s)
      | Some (PARSE_OK nr, Some de, pos) =>
        e ← dirent s de;
        it ← item_of dir e de (default (pos - (nr + 1) * 32) dummy) nr unicode;
        match it with
        | None => rec_end unicode (Some de) pos b dir s
        | Some it => let '(b, err) := filldir b it in if err <? 0 then Ret (0, fpos, b, dir, s) else rec_end unicode (Some de) pos b dir s
        end
      end
    end
  end.

(** The entries [.] and [..] of a root directory, [n] of which are left. *)
Fixpoint root_dots (n : nat) (fpos : Z) (b : B) : bool * Z * B :=
  match n with
  | O => (true, fpos, b)
  | S n =>
    let '(b, err) := filldir b (DirItem (OneName (replicate (Z.to_nat (fpos + 1)) 46)) fpos MSDOS_ROOT_INO true) in
    if err <? 0 then (false, fpos, b) else root_dots n (fpos + 1) b
  end.

(** The result, [f_pos] and the state of the caller's function. *)
Definition __fat_readdir (fpos : Z) (b : B) (dir : finode) (s : fatfs) : outcome (Z * Z * B * finode * fatfs) :=
  let root := i_ino dir =? MSDOS_ROOT_INO in
  let '(go, fpos, b) := if root then root_dots (Z.to_nat (2 - fpos)) fpos b else (true, fpos, b) in
  if negb go then Ret (0, fpos, b, dir, s) else
  let '(cpos, dummy) := if root && (fpos =? 2) then (0, Some 2) else (fpos, None) in
  if negb (Z.land cpos 31 =? 0) then Ret (- ENOENT, fpos, b, dir, s) else
  readdir_loop (dir_fuel sb lay dir) false None None cpos fpos dummy b dir s.
End readdir.

(** ** The calls *)

Section calls.
Context (sb : sb_info) (lay : layout) (ops : fatent_operations) (alloc : bool) (sleep : finode → finode).
Context (o : vfat_options) (isvfat dots nocase : bool) (new_page : option (list Z)) (sb_addr : Z) (k : vfs) (parent_ino : Z).

(** The number of the inode at a position: its own while it is in memory.  The
    reference that is taken is given back. *)
Definition entry_ino (v : volume) (i_pos : Z) : outcome Z :=
  '(r, _) ← fat_iget sb_addr i_pos v;
  match r with Some a => i ← get_inode a v; Ret (i_ino (node i)) | None => Ret (iunique k) end.

Definition readdir_on {B} (filldir : B → dir_item → B * Z) (short_only both : bool) (a fpos : Z) (b : B) (v : volume) : outcome (Z * Z * B * volume) :=
  with_node a (λ n s,
    '(ret, fpos, b, n, s) ← __fat_readdir sb lay ops alloc sleep o isvfat dots nocase new_page (entry_ino v) parent_ino filldir short_only both fpos b n s;
    Ret ((ret, fpos, b), n, s)) v.

Definition fat_readdir {B} (filldir : B → dir_item → B * Z) (a fpos : Z) (b : B) (v : volume) : outcome (Z * Z * B * volume) :=
  readdir_on filldir false false a fpos b v.

(** ** The ioctls *)

(** The two [struct dirent] of the caller; [result] is what the call gives. *)
Record user_dirent := UserDirent { d_name : list Z; d_reclen : Z; d_ino : Z; d_off : Z }.
Record filldir_callback := Callback { cb_result : Z; cb_d1 : user_dirent; cb_d2 : user_dirent }.

(** A name cut to the 256 bytes of [d_name] with the terminator. *)
Definition cut_name (name : list Z) : list Z := take 255 name.

(** [writable] says whether the caller's memory is; what a fault left there is not
    kept. *)
Definition fat_ioctl_filldir (writable : bool) (b : filldir_callback) (it : dir_item) : filldir_callback * Z :=
  if negb (cb_result b =? 0) then (b, - EINVAL) else
  if negb writable then (Callback (- EFAULT) (cb_d1 b) (cb_d2 b), - EFAULT) else
  let put nm d := UserDirent (cut_name nm) (Z.of_nat (length (cut_name nm))) (d_ino d) (d_off d) in
  match it_name it with
  | OneName name => (Callback 1 (put name (cb_d1 b)) (UserDirent [] 0 (d_ino (cb_d2 b)) (d_off (cb_d2 b))), 0)
  | BothNames long short =>
    (Callback 1 (put short (cb_d1 b)) (UserDirent (cut_name long) (Z.of_nat (length (cut_name long))) (it_ino it) (it_off it)), 0)
  end.

(** [dead] says that the directory was removed. *)
Definition fat_ioctl_readdir (writable dead short_only both : bool) (d1 d2 : user_dirent) (a fpos : Z) (v : volume) : outcome (Z * Z * filldir_callback * volume) :=
  let buf := Callback 0 d1 d2 in
  if dead then Ret (- ENOENT, fpos, buf, v) else
  '(ret, fpos, buf, v) ← readdir_on (fat_ioctl_filldir writable) short_only both a fpos buf v;
  Ret (if 0 <=? ret then cb_result buf else ret, fpos, buf, v).

(** The commands that list; every other one is for [fat_generic_ioctl]. *)
Inductive dir_cmd := READDIR_SHORT | READDIR_BOTH.

Definition fat_dir_ioctl (cmd : dir_cmd) (access writable dead : bool) (d1 d2 : user_dirent) (a fpos : Z) (v : volume) : outcome (Z * Z * filldir_callback * volume) :=
  if negb access || negb writable then Ret (- EFAULT, fpos, Callback 0 d1 d2, v) else
  let d1 := UserDirent (d_name d1) 0 (d_ino d1) (d_off d1) in
  match cmd with
  | READDIR_SHORT => fat_ioctl_readdir writable dead true false d1 d2 a fpos v
  | READDIR_BOTH => fat_ioctl_readdir writable dead false true d1 d2 a fpos v
  end.
End calls.

(** ** Every name is listed once *)

Lemma list_part_ok o nocase fuel lower work nm last buf last_u :
  nls_ok (nls_disk o) → (length work < fuel)%nat → (length buf + length work ≤ 14)%nat → (last_u ≤ length buf)%nat → (last ≤ length nm)%nat →
  ∃ nm' last' buf' last_u', list_part o nocase fuel lower work nm last buf last_u = Ret (nm', last', buf', last_u') ∧
    (last_u' ≤ length buf' ≤ length buf + length work)%nat ∧ (last' ≤ length nm')%nat.
Proof.
  intros Ht. revert work nm last buf last_u. induction fuel as [|fuel IH]; intros work nm last buf last_u Hf Hb Hu Hl; [lia|]. cbn [list_part].
  destruct work as [|c l]; [by eexists _, _, _, _; split; [done|]; cbn; lia|]. destruct (c =? 0); [by eexists _, _, _, _; split; [done|]; cbn; lia|].
  pose proof (shortname_takes (nls_disk o) c l (opt_shortname o) lower Ht) as Hn. destruct (fat_shortname2uni (nls_disk o) (c :: l) (opt_shortname o) lower) as [chl uc].
  cbn [fst] in Hn. rewrite emit_in by (cbn [length] in *; lia). cbn [mbind outcome_bind length] in *. set (b := buf ++ [uc]). assert (length b = length buf + 1)%nat as Eb by (unfold b; by rewrite length_app).
  assert (length (drop (Z.to_nat chl) (c :: l)) ≤ length l)%nat as Hd by (rewrite length_drop; cbn [length]; lia).
  destruct (chl <=? 1); [destruct (c =? 32)|];
    match goal with |- ∃ _ _ _ _, list_part _ _ _ _ ?w ?m ?la ?bu ?lu = _ ∧ _ =>
      destruct (IH w m la bu lu) as (n' & l' & b' & u' & E & H1 & H2); [lia|lia|lia|rewrite ?length_app; cbn [length]; lia|exists n', l', b', u'; split; [exact E|]; split; [lia|done]] end.
Qed.

Lemma list_name_ok o nocase e :
  nls_ok (nls_disk o) → ∃ r, list_name o nocase e = Ret r ∧ match r with Some (_, uname) => (length uname ≤ 12)%nat | None => True end.
Proof.
  intros Ht. unfold list_name. match goal with |- context [list_part _ _ 9 _ ?w _ _ _ _] => assert (length w ≤ 8)%nat as Hw end.
  { pose proof (length_take e 8) as H. destruct (take 8 e); cbn [length] in *; lia. }
  match goal with |- context [list_part _ _ 9 ?lo ?w _ _ _ _] => destruct (list_part_ok o nocase 9 lo w [] 0 [] 0 Ht) as (nm & la & b & l & -> & Hb & Hla) end; [lia|cbn; lia|done|done|].
  cbn [mbind outcome_bind]. destruct (fat_short2uni (nls_disk o) [46]) as [_ dot]. cbn [length] in Hb. rewrite emit_in by (rewrite length_take; cbn [length]; lia). cbn [mbind outcome_bind].
  pose proof (length_take (drop 8 e) 3) as Hl3. match goal with |- context [list_part _ _ 4 ?lo ?w ?m ?la' ?x ?lu] => destruct (list_part_ok o nocase 4 lo w m la' x lu Ht) as (nm' & la2 & b' & l' & -> & Hb' & Hla') end.
  - lia.
  - rewrite length_app, length_take. cbn [length]. lia.
  - rewrite length_app, length_take. cbn [length]. lia.
  - rewrite length_app, length_take. cbn [length]. lia.
  - cbn [mbind outcome_bind]. rewrite length_app, length_take in Hb'. cbn [length] in Hb'. destruct (la2 =? 0)%nat; [by exists None|].
    eexists. split; [reflexivity|]. cbn beta iota. rewrite length_take. lia.
Qed.

Lemma x8_small size t ip out :
  nls_ok t → (length out + 4 * length ip ≤ size)%nat → (size ≤ 256)%nat → ∃ x, x8_loop size false t ip out = Ret x ∧ (length x ≤ length out + 4 * length ip)%nat.
Proof.
  intros Ht Hsz H256. revert out Hsz. induction ip as [|ec ip IH]; intros out Ho; cbn [x8_loop length] in *; [exists out; split; [done|lia]|]. destruct (ec =? 0); [exists out; split; [done|lia]|].
  match goal with |- context [emit _ _ ?y] => assert (length y ≤ 4)%nat as Hy by (pose proof (char_bytes t Ht ec); destruct (uni2char t ec); cbn [length] in *; lia); set (z := y) in * end.
  rewrite emit_in by lia. cbn [mbind outcome_bind]. assert (length (out ++ z) ≤ length out + 4)%nat as Hz by (rewrite length_app; lia). destruct (Nat.ltb_spec 256 (length (out ++ z))); [lia|].
  destruct (IH (out ++ z) ltac:(lia)) as (x & E & Hx). exists x. split; [done|lia].
Qed.

Section listing.
Context (sb : sb_info) (lay : layout) (ops : fatent_operations) (alloc : bool) (sleep : finode → finode).
Context (inv : finode → Prop) (good : fatfs → Prop) (blocks : Z) (phys : Z → Z) `{!DirMap sb lay ops alloc sleep inv good blocks phys}.
Context (o : vfat_options) (Ho : options_ok o) (isvfat dots nocase : bool) (new_page : option (list Z)) (Hnew : page_ok new_page).
Context (inum_at : Z → outcome Z) (Hinum : ∀ p, ∃ n, inum_at p = Ret n) (parent_ino : Z) (short_only both : bool).
Context (s : fatfs) (Hs : good s).

Abbreviation entry := (entry_of sb phys s).
Abbreviation place := (place_of sb phys).
Abbreviation total := (nr_entries sb blocks).
Abbreviation item_of := (item_of lay o isvfat dots nocase inum_at parent_ino short_only both).

Lemma item_ok dir e de off nr unicode :
  nr = 0 ∨ is_Some unicode → ∃ r, item_of dir e de off nr unicode = Ret r ∧ (r = None ↔ list_name o nocase e = Ret None).
Proof.
  intros Hn. destruct Ho as (Hu & Hx & Hi & Hd). unfold FatReaddir.item_of. destruct (list_name_ok o nocase e Hd) as (r & -> & Hr). cbn [mbind outcome_bind].
  destruct r as [[nm uname]|]; [|by exists None]. assert (∃ ino, item_ino lay inum_at parent_ino dir e de = Ret ino) as [ino ->].
  { unfold item_ino. destruct (is_name e MSDOS_DOT); [by eexists|]. destruct (is_name e MSDOS_DOTDOT); [by eexists|apply Hinum]. }
  cbn [mbind outcome_bind]. assert (∃ sh, short_shown o isvfat dots e nm uname = Ret sh) as [sh ->].
  { unfold short_shown. destruct isvfat; [|by eexists]. rewrite emit_in by (cbn [length]; lia). cbn [mbind outcome_bind]. rewrite Hu, Hx. unfold uni16_to_x8.
    destruct (x8_small 56 (nls_io o) uname [] Hi) as (x & -> & Hl); [cbn [length]; lia|lia|]. cbn [mbind outcome_bind length] in *. rewrite emit_in by (cbn [length]; lia). by eexists. }
  cbn [mbind outcome_bind]. destruct (negb short_only && negb (nr =? 0)) eqn:En; [|by eexists].
  apply andb_prop in En as [_ En%negb_true_iff%Z.eqb_neq]. destruct Hn as [?|[uni ->]]; [done|]. assert (∃ lg, long_shown o uni = Ret lg) as [lg ->]; [|by eexists].
  unfold long_shown. rewrite Hu, Hx. unfold uni16_to_x8. destruct (x8_loop_ok PAGE_REST (nls_io o) uni [] Hi) as (x & -> & Hl); [unfold PAGE_REST; lia|cbn; lia|].
  cbn [mbind outcome_bind]. rewrite emit_in by (cbn [length]; unfold PAGE_REST; lia). by eexists.
Qed.

(** A caller that takes [cap] names, and the kind of the directory. *)
Context (cap : nat) (root : bool) (Hroot : root = true → 0 < total).
Definition collect (l : list dir_item) (it : dir_item) : list dir_item * Z := if (length l <? cap)%nat then (l ++ [it], 0) else (l, -1).

(** The position of the file for an entry, and what is reported for it. *)
Definition entry_pos (k : Z) : Z := if root && (k =? 0) then 2 else 32 * k.
Definition entry_dummy (k : Z) : option Z := if root && (k =? 0) then Some 2 else None.

(** The entries that are to be listed, and what is handed out for one: from its
    own place, with the slots right before it, and with the long name where its
    slots stand alone and are not before [x0].  From the offset that is reported
    for it on, it is the next entry to be listed. *)
Definition wanted (j : Z) : bool := is_short (entry j) && match list_name o nocase (entry j) with Ret None => false | _ => true end.

Definition listed (x0 j : Z) (it : dir_item) : Prop :=
  ∃ dir k0 nr unicode, item_of dir (entry j) (place j) (entry_pos k0) nr unicode = Ret (Some it) ∧ inv dir ∧
    0 ≤ nr ≤ 20 ∧ 0 ≤ k0 ≤ j - nr ∧ ext_run sb phys s (j - nr) j ∧ (∀ y, k0 ≤ y < j → wanted y = false) ∧
    ∀ k w, isvfat = true → x0 ≤ k → visible_long sb blocks phys s o k j w → nr = j - k ∧ ∃ rest, unicode = Some (w ++ 0 :: rest).

(** How a listing that is at entry [kf] ends. *)
Definition lists (x0 kf : Z) (b : list dir_item) (run : outcome (Z * Z * list dir_item * finode * fatfs)) : Prop :=
  ∃ ret fpos items dir', run = Ret (ret, fpos, b ++ items, dir', s) ∧ inv dir' ∧
    ((ret = - ENOMEM ∧ new_page = None) ∨
     (ret = 0 ∧ ∃ k', fpos = entry_pos k' ∧ kf ≤ k' ≤ total ∧ Forall2 (listed x0) (filter (λ j, wanted j = true) (seqZ kf (k' - kf))) items ∧
        (k' = total ∨ (cap ≤ length (b ++ items))%nat))).

Lemma entry_pos_next j : 0 ≤ j → 32 * (j + 1) = entry_pos (j + 1) ∧ None = entry_dummy (j + 1).
Proof. intros H. unfold entry_pos, entry_dummy. destruct (Z.eqb_spec (j + 1) 0); [lia|]. by rewrite andb_false_r. Qed.

Lemma filter_split (kf j k' : Z) :
  kf ≤ j ≤ k' → filter (λ j, wanted j = true) (seqZ kf (k' - kf)) = filter (λ j, wanted j = true) (seqZ kf (j - kf)) ++ filter (λ j, wanted j = true) (seqZ j (k' - j)).
Proof.
  intros H. replace (k' - kf) with ((j - kf) + (k' - j)) by lia. rewrite seqZ_app, filter_app by lia. by replace (kf + (j - kf)) with j by lia.
Qed.

Lemma filter_none kf j : (∀ x, kf ≤ x < j → wanted x = false) → filter (λ j, wanted j = true) (seqZ kf (j - kf)) = [].
Proof.
  intros H. destruct (filter (λ j, wanted j = true) (seqZ kf (j - kf))) as [|x l] eqn:E; [done|]. assert (x ∈ x :: l) as Hx by (by left).
  rewrite <- E in Hx. apply list_elem_of_filter in Hx as [Hw Hx%elem_of_seqZ]. rewrite H in Hw by lia. done.
Qed.

Lemma lists_skip x0 kf j b run : kf ≤ j → (∀ x, kf ≤ x < j → wanted x = false) → lists x0 j b run → lists x0 kf b run.
Proof.
  intros Hj Hn (ret & fpos & items & d & E & Hd & H). exists ret, fpos, items, d. split; [done|]. split; [done|]. destruct H as [?|(-> & k' & Ha & Hk & Hf & Hend)]; [by left|right].
  split; [done|]. exists k'. split; [done|]. split; [lia|]. rewrite (filter_split kf j k') by lia. by rewrite filter_none.
Qed.

Lemma lists_item x0 kf j b it run :
  kf ≤ j → (∀ x, kf ≤ x < j → wanted x = false) → wanted j = true → listed x0 j it → lists x0 (j + 1) (b ++ [it]) run → lists x0 kf b run.
Proof.
  intros Hj Hn Hw Hl (ret & fpos & items & d & E & Hd & H). exists ret, fpos, (it :: items), d. rewrite <- (assoc_L (++)) in E. split; [done|]. split; [done|].
  destruct H as [?|(-> & k' & Ha & Hk & Hf & Hend)]; [by left|right]. split; [done|]. exists k'. split; [done|]. split; [lia|].
  rewrite (filter_split kf j k'), filter_none by (done || lia). rewrite (filter_split j (j + 1) k') by lia. replace (j + 1 - j) with 1 by lia. cbn [seqZ app].
  change (seqZ j 1) with [j]. rewrite filter_cons_True by done. split; [|by rewrite <- (assoc_L (++)) in Hend]. cbn [app]. by constructor.
Qed.

Lemma lists_end x0 kf b dir : inv dir → kf ≤ total → (∀ x, kf ≤ x < total → wanted x = false) → lists x0 kf b (Ret (0, 32 * total, b, dir, s)).
Proof.
  intros Hd Hk Hn. eexists 0, _, [], dir. rewrite app_nil_r. split; [reflexivity|]. split; [done|]. right. split; [done|]. exists total. split; [|split; [lia|]; rewrite filter_none by done; split; [constructor|by left]].
  unfold entry_pos. destruct (Z.eqb_spec total 0) as [E|]; [|by rewrite andb_false_r]. destruct root; [lia|done].
Qed.

Context (x0 : Z).

(** Entry [x] is not within the slots of a name that starts at [x0] or later. *)
Definition clear_of (x : Z) : Prop := ∀ k j w, isvfat = true → x0 ≤ k → visible_long sb blocks phys s o k j w → x ≤ k ∨ j < x.

Lemma not_short_unwanted j : is_short (entry j) = false → wanted j = false.
Proof. intros H. unfold wanted. by rewrite H. Qed.

Lemma ext_unwanted a j : ext_run sb phys s a j → ∀ x, a ≤ x < j → wanted x = false.
Proof. intros H x Hx. by apply not_short_unwanted, ext_not_short, H. Qed.

(** The short entry [j] after [nr] slots is handed out, and the listing goes on. *)
Lemma compare_lists kf j nr unicode d fpos dummy b (next : list dir_item → outcome (Z * Z * list dir_item * finode * fatfs)) :
  0 ≤ kf ≤ j → j < total → (∀ y, kf ≤ y < j → wanted y = false) → 0 ≤ nr ≤ 20 → kf ≤ j - nr → ext_run sb phys s (j - nr) j → is_short (entry j) = true →
  nr = 0 ∨ is_Some unicode → inv d → fpos = entry_pos kf → dummy = entry_dummy kf →
  (∀ k w, isvfat = true → x0 ≤ k → visible_long sb blocks phys s o k j w → nr = j - k ∧ ∃ rest, unicode = Some (w ++ 0 :: rest)) →
  (∀ b, lists x0 (j + 1) b (next b)) →
  lists x0 kf b (e ← dirent s (place j);
                 it ← item_of d e (place j) (default (32 * (j + 1) - (nr + 1) * 32) dummy) nr unicode;
                 match it with
                 | None => next b
                 | Some it => let '(b, err) := collect b it in if err <? 0 then Ret (0, fpos, b, d, s) else next b
                 end).
Proof.
  intros Hkf Hj Hno Hnr Hnj Hrun Hshort Hu Hd Hat Hdum Hvis Hnext. rewrite (dirent_spec sb lay ops alloc sleep inv good blocks phys s Hs) by lia. cbn [mbind outcome_bind].
  assert (∃ k0, default (32 * (j + 1) - (nr + 1) * 32) dummy = entry_pos k0 ∧ 0 ≤ k0 ≤ j - nr ∧ ∀ y, k0 ≤ y < j → wanted y = false) as (k0 & Eoff & Hk0 & Hno0).
  { rewrite Hdum. unfold entry_dummy, entry_pos. destruct (Z.eqb_spec kf 0) as [Ek|Ek]; [destruct root|]; cbn [andb].
    - exists 0. split_and!; [done|lia|lia|intros y Hy; apply Hno; lia].
    - exists (j - nr). split_and!; [cbn; lia|lia|lia|by apply ext_unwanted].
    - exists (j - nr). rewrite andb_false_r. destruct (Z.eqb_spec (j - nr) 0); [lia|]. rewrite andb_false_r. split_and!; [cbn; lia|lia|lia|by apply ext_unwanted]. }
  set (off := default _ dummy) in *. destruct (item_ok d (entry j) (place j) off nr unicode Hu) as (r & Er & Hr). rewrite Er. cbn [mbind outcome_bind]. destruct r as [it|].
  - assert (wanted j = true) as Hw.
    { unfold wanted. rewrite Hshort. cbn [andb]. destruct (list_name o nocase (entry j)) as [[x|]| | |] eqn:E; try done. by pose proof (proj2 Hr eq_refl). }
    assert (listed x0 j it) as Hl by (exists d, k0, nr, unicode; rewrite <- Eoff; split_and!; try done; lia).
    unfold collect. destruct (Nat.ltb_spec (length b) cap) as [Hc|Hc]; cbn [Z.ltb Z.compare].
    + apply (lists_item x0 kf j b it); [lia|done|done|done|apply Hnext].
    + eexists 0, fpos, [], d. rewrite app_nil_r. split; [reflexivity|]. split; [done|]. right. split; [done|]. exists kf. split; [done|]. split; [lia|].
      rewrite Z.sub_diag. split; [constructor|by right].
  - apply (lists_skip x0 kf (j + 1)); [lia| |apply Hnext]. intros y Hy. destruct (decide (y = j)) as [->|]; [|apply Hno; lia]. unfold wanted. by rewrite (proj1 Hr eq_refl), andb_false_r.
Qed.

Abbreviation loop := (readdir_loop sb lay ops alloc sleep o isvfat dots nocase new_page inum_at parent_ino collect short_only both).

(** The rest of a turn after the parser was called at entry [x]. *)
Lemma parsed_lists kf x dir unicode fuel fpos dummy b :
  isvfat = true → inv dir → 0 ≤ kf ≤ x → x < total → de_attr (entry x) = ATTR_EXT → page_ok unicode → (Z.to_nat (total - x) ≤ fuel)%nat →
  fpos = entry_pos kf → dummy = entry_dummy kf → (∀ y, kf ≤ y < x → wanted y = false) → clear_of x →
  (∀ kf have k unicode cur pos fpos dummy b dir, inv dir → standing sb phys s have k cur pos → 0 ≤ k ≤ total → (Z.to_nat (total - k) + (if have then 1 else 0) < fuel)%nat →
    page_ok unicode → 0 ≤ kf ≤ looks_at have k → fpos = entry_pos kf → dummy = entry_dummy kf → (∀ y, kf ≤ y < looks_at have k → wanted y = false) → clear_of (looks_at have k) →
    lists x0 kf b (loop fuel have unicode cur pos fpos dummy b dir s)) →
  lists x0 kf b ('(st, unicode, dir, s) ← fat_parse_long sb lay ops alloc sleep new_page unicode (place x) (32 * (x + 1)) dir s;
    match st with
    | None => Ret (- ENOMEM, 32 * (x + 1), b, dir, s)
    | Some (PARSE_INVALID, cur, pos) => loop fuel false unicode cur pos pos None b dir s
    | Some (PARSE_NOT_LONGNAME, cur, pos) => loop fuel true unicode cur pos fpos dummy b dir s
    | Some (PARSE_EOF, _, pos) | Some (PARSE_OK _, None, pos) => Ret (0, pos, b, dir, s)
    | Some (PARSE_OK nr, Some de, pos) =>
      e ← dirent s de;
      it ← item_of dir e de (default (pos - (nr + 1) * 32) dummy) nr unicode;
      match it with
      | None => loop fuel false unicode (Some de) pos pos None b dir s
      | Some it => let '(b, err) := collect b it in if err <? 0 then Ret (0, fpos, b, dir, s) else loop fuel false unicode (Some de) pos pos None b dir s
      end
    end).
Proof.
  intros Hvf Hi Hkf Hx Hext Hp Hf Hat Hdum Hno Hclr IH. destruct (parse_long_spec sb lay ops alloc sleep inv good blocks phys s Hs new_page unicode x dir Hi ltac:(lia) Hext Hnew Hp) as (r & page & d & E & Hd & Hp' & Hr).
  rewrite E. cbn [mbind outcome_bind]. destruct r as [[[st cur] pos]|].
  2:{ eexists _, _, [], d. rewrite app_nil_r. split; [reflexivity|]. split; [done|]. by left. }
  destruct Hr as (Hu & Hsp & Hr).
  assert (∀ i w, visible_long sb blocks phys s o x i w → ∃ rest, st = PARSE_OK (i - x) ∧ cur = Some (place i) ∧ pos = 32 * (i + 1) ∧ page = Some (w ++ 0 :: rest)) as Hv'.
  { intros i w Hv. destruct (visible_parse sb lay ops alloc sleep inv good blocks phys s Hs o new_page Hnew unicode x i w dir Hv Hi Hp Hu) as (uni & rest & d' & E' & ->).
    rewrite E in E'. injection E' as -> -> -> -> _. by exists rest. }
  assert (∀ j, x ≤ j → ext_run sb phys s x j → ∀ k i w, x0 ≤ k → visible_long sb blocks phys s o k i w → k = x ∨ j < k ∨ i < x) as Hbeyond.
  { intros j Hj Hrun k i w Hk Hv. destruct (Hclr k i w Hvf Hk Hv) as [?|?]; [|by right; right]. destruct (decide (k = x)); [by left|]. right; left. destruct (decide (j < k)); [done|].
    destruct (vl_alone _ _ _ _ _ _ _ _ Hv) as [?|Hne]; [lia|]. destruct Hne. apply Hrun. lia. }
  assert (∀ j, x ≤ j → ext_run sb phys s x j → (∀ y, kf ≤ y < j → wanted y = false)) as Hno'.
  { intros j Hj Hrun y Hy. destruct (decide (y < x)); [apply Hno; lia|]. apply (ext_unwanted x j Hrun). lia. }
  assert (∀ j b, x ≤ j < total → ext_run sb phys s x j → (∀ i w, visible_long sb blocks phys s o x i w → i = j) →
    lists x0 (j + 1) b (loop fuel false page (Some (place j)) (32 * (j + 1)) (32 * (j + 1)) None b d s)) as Hgo.
  { intros j b' Hj Hrun Hxj. apply (IH (j + 1) false (j + 1)); [done|apply before_next; lia|lia|lia|done|cbn; lia|apply entry_pos_next; lia|apply entry_pos_next; lia|cbn; intros y Hy; lia|]. cbn [looks_at].
    intros k i w _ Hk Hv. destruct (Hbeyond j ltac:(lia) Hrun k i w Hk Hv) as [->|[?|?]]; [|lia|lia]. rewrite (Hxj i w Hv). lia. }
  destruct st as [nr| | |]; cbn [parsed] in Hr.
  - destruct Hr as (j & Hj & -> & -> & Hrun & Hn & Hnj & Hrun' & Hshort). assert (∀ i w, visible_long sb blocks phys s o x i w → i = j) as Hxj.
    { intros i w Hv. destruct (Hv' i w Hv) as (rest & _ & _ & Hpos & _). lia. }
    apply (compare_lists kf j nr page d fpos dummy b (λ b, loop fuel false page (Some (place j)) (32 * (j + 1)) (32 * (j + 1)) None b d s)); try done; try lia; [apply Hno'; [lia|done]|by right| |].
    + intros k w _ Hk Hv. destruct (Hbeyond j ltac:(lia) Hrun k j w Hk Hv) as [->|[?|?]]; [|pose proof (visible_first sb blocks phys s o k j w Hv); lia|lia].
      destruct (Hv' j w Hv) as (rest & [= ->] & _ & _ & ->). split; [done|]. by exists rest.
    + intros b'. apply Hgo; [lia|done|done].
  - destruct Hr as (j & Hj & -> & -> & Hrun & Hns). apply (lists_skip x0 kf (j + 1)); [lia| |apply Hgo; [lia|done|]].
    + intros y Hy. destruct (decide (y = j)) as [->|]; [by apply not_short_unwanted|]. apply (Hno' j); [lia|done|lia].
    + intros i w Hv. by destruct (Hv' i w Hv) as (? & ? & _).
  - destruct Hr as (j & Hj & -> & -> & Hrun & Hne). apply (IH kf true (j + 1)); cbn [standing looks_at]; replace (j + 1 - 1) with j by lia; try done; try lia; [split; [lia|done]|apply Hno'; [lia|done]|].
    intros k i w _ Hk Hv. destruct (Hbeyond j ltac:(lia) Hrun k i w Hk Hv) as [->|[?|?]]; [by destruct (Hv' i w Hv) as (? & ? & _)|lia|lia].
  - destruct Hr as (-> & -> & Hrun). apply lists_end; [done|lia|]. apply Hno'; [lia|done].
Qed.

(** What the checks before the parser let through. *)
Definition passed_over (e : msdos_dir_entry) : bool :=
  if isvfat then (slot_id e =? DELETED_FLAG) || negb (de_attr e =? ATTR_EXT) && (z2b (Z.land (de_attr e) ATTR_VOLUME) || IS_FREE (de_name e))
  else z2b (Z.land (de_attr e) ATTR_VOLUME) || IS_FREE (de_name e).

Lemma passed_over_spec e :
  if passed_over e then is_short e = false ∧ (isvfat = true → de_attr e = ATTR_EXT → (slot_id e =? DELETED_FLAG) = true)
  else is_short e = true ∧ (isvfat = true → de_attr e ≠ ATTR_EXT) ∨ (isvfat = true ∧ de_attr e = ATTR_EXT).
Proof.
  pose proof (deleted_not_short e) as Hdel. unfold passed_over, is_short in *. destruct (z2b (Z.land (de_attr e) ATTR_VOLUME)) eqn:Ev, (IS_FREE (de_name e)) eqn:Ef, isvfat,
    (slot_id e =? DELETED_FLAG) eqn:Ed, (Z.eqb_spec (de_attr e) ATTR_EXT) as [Ee|Ee]; cbn in *; naive_solver.
Qed.

Lemma readdir_loop_spec fuel kf have k unicode cur pos fpos dummy b dir :
  inv dir → standing sb phys s have k cur pos → 0 ≤ k ≤ total → (Z.to_nat (total - k) + (if have then 1 else 0) < fuel)%nat → page_ok unicode →
  0 ≤ kf ≤ looks_at have k → fpos = entry_pos kf → dummy = entry_dummy kf → (∀ y, kf ≤ y < looks_at have k → wanted y = false) → clear_of (looks_at have k) →
  lists x0 kf b (loop fuel have unicode cur pos fpos dummy b dir s).
Proof.
  revert kf have k unicode cur pos fpos dummy b dir. induction fuel as [|fuel IH]; intros kf have k unicode cur pos fpos dummy b dir Hi Hst Hk Hf Hp Hkf Hat Hdum Hno Hclr; [lia|].
  cbn [readdir_loop]. destruct (stand_entry sb lay ops alloc sleep inv good blocks phys s Hs have k cur pos dir Hi Hst Hk) as (d & -> & Hd).
  assert (looks_at have k = k - 1 ∧ 0 < k ∧ have = true ∨ looks_at have k = k ∧ have = false) as Hx by (destruct have; [left; by destruct Hst as (? & _)|by right]).
  set (x := looks_at have k) in *. clearbody x.
  assert (Z.to_nat (total - x) ≤ fuel)%nat as Hfx by (destruct Hx as [(-> & ? & ->)|(-> & ->)]; lia). assert (x ≤ k ≤ total ∧ (x = total → k = x)) as Hxk by (destruct Hx as [(-> & ? & ->)|(-> & ->)]; lia).
  clear Hf Hst Hx. destruct (Z.ltb_spec x total) as [Hlt|Hge]; cbn [mbind outcome_bind].
  2:{ replace k with total by lia. apply lists_end; [done|lia|]. by replace total with x by lia. }
  rewrite (dirent_spec sb lay ops alloc sleep inv good blocks phys s Hs) by lia. cbn [mbind outcome_bind]. fold (passed_over (entry x)). pose proof (passed_over_spec (entry x)) as Hpass.
  assert (∀ b, (isvfat = true → de_attr (entry x) = ATTR_EXT → (slot_id (entry x) =? DELETED_FLAG) = true) →
    lists x0 (x + 1) b (loop fuel false unicode (Some (place x)) (32 * (x + 1)) (32 * (x + 1)) None b d s)) as Hgo.
  { intros b' Hx. apply (IH (x + 1) false (x + 1)); [done|apply before_next; lia|lia|lia|done|cbn; lia|apply entry_pos_next; lia|apply entry_pos_next; lia|cbn; intros y Hy; lia|]. cbn [looks_at].
    intros k' i w Hvf Hk' Hv. destruct (Hclr k' i w Hvf Hk' Hv) as [?|?]; [|lia]. destruct (decide (k' = x)) as [->|]; [|lia].
    destruct (visible_first sb blocks phys s o x i w Hv) as (He & Hd' & _). by rewrite (Hx Hvf He) in Hd'. }
  destruct (passed_over (entry x)).
  { destruct Hpass as [Hns Hx]. apply (lists_skip x0 kf (x + 1)); [lia| |by apply Hgo]. intros y Hy. destruct (decide (y = x)) as [->|]; [by apply not_short_unwanted|apply Hno; lia]. }
  destruct Hpass as [[Hshort Hne]|[Hvf Hext]].
  - assert (isvfat && (de_attr (entry x) =? ATTR_EXT) = false) as ->.
    { destruct isvfat; [|done]. destruct (Z.eqb_spec (de_attr (entry x)) ATTR_EXT); [by destruct Hne|done]. }
    cbn [mbind outcome_bind]. apply (compare_lists kf x 0 unicode d fpos dummy b (λ b, loop fuel false unicode (Some (place x)) (32 * (x + 1)) (32 * (x + 1)) None b d s)); try done; try lia.
    + intros y Hy. lia.
    + intros k' w Hvf Hk' Hv. destruct (visible_first sb blocks phys s o k' x w Hv) as (_ & _ & ?). destruct (Hclr k' x w Hvf Hk' Hv); lia.
    + intros b'. apply Hgo. intros Hvf He. by destruct (Hne Hvf).
  - assert (isvfat && (de_attr (entry x) =? ATTR_EXT) = true) as -> by (by rewrite Hvf, Hext, Z.eqb_refl). apply parsed_lists; try done; try lia.
Qed.

Lemma readdir_from kf b dir :
  x0 = kf → inv dir → 0 ≤ kf ≤ total → lists x0 kf b (loop (dir_fuel sb lay dir) false None None (32 * kf) (entry_pos kf) (entry_dummy kf) b dir s).
Proof.
  intros <- Hi Hk. apply (readdir_loop_spec _ _ _ x0); cbn [looks_at standing]; try done; try lia.
  - split; [done|by left].
  - rewrite Nat.add_0_r. apply (enough_fuel sb lay ops alloc sleep inv good blocks phys); [done|lia].
  - intros k j w _ ? _. by left.
Qed.
End listing.

(** ** The entries of a root directory that are not stored *)

Definition dot_item (p : Z) : dir_item := DirItem (OneName (replicate (Z.to_nat (p + 1)) 46)) p MSDOS_ROOT_INO true.

(** Position [fpos] of the file is before entry [kf], and the dots that are listed
    between two positions. *)
Definition starts_at (root : bool) (fpos kf : Z) : Prop := if root then (0 ≤ fpos ≤ 2 ∧ kf = 0) ∨ (fpos = 32 * kf ∧ 0 < kf) else fpos = 32 * kf ∧ 0 ≤ kf.
Definition dots_between (root : bool) (fpos fpos' : Z) : list dir_item := if root then dot_item <$> seqZ fpos (2 `min` fpos' - fpos) else [].

Lemma dots_between_root fpos m : (m ≤ Z.to_nat (2 - fpos))%nat → dots_between true fpos (fpos + Z.of_nat m) = dot_item <$> seqZ fpos (Z.of_nat m).
Proof.
  intros Hm. unfold dots_between. destruct (decide (fpos ≤ 2)); [by replace (2 `min` (fpos + Z.of_nat m) - fpos) with (Z.of_nat m) by lia|].
  assert (m = 0)%nat as -> by lia. by rewrite !seqZ_nil by lia.
Qed.

Lemma root_dots_spec cap n fpos b :
  ∃ m, (m ≤ n)%nat ∧ root_dots (collect cap) n fpos b = ((m =? n)%nat, fpos + Z.of_nat m, b ++ (dot_item <$> seqZ fpos (Z.of_nat m))) ∧
    ((m < n)%nat → (cap ≤ length (b ++ (dot_item <$> seqZ fpos (Z.of_nat m))))%nat).
Proof.
  revert fpos b. induction n as [|n IH]; intros fpos b; cbn [root_dots]; [exists 0%nat; rewrite app_nil_r, Z.add_0_r; split_and!; [done|done|lia]|].
  unfold collect at 1. destruct (Nat.ltb_spec (length b) cap) as [Hc|Hc]; cbn [Z.ltb Z.compare].
  - destruct (IH (fpos + 1) (b ++ [dot_item fpos])) as (m & Hm & E & Hl). exists (S m). rewrite <- (assoc_L (++)) in E, Hl. cbn [app] in E, Hl.
    rewrite (seqZ_cons fpos (Z.of_nat (S m))) by lia. replace (Z.pred (Z.of_nat (S m))) with (Z.of_nat m) by lia. change (Z.succ fpos) with (fpos + 1).
    split_and!; [lia| |cbn [fmap list_fmap]; intros; apply Hl; lia]. unfold dot_item at 1 in E. rewrite E. cbn [Nat.eqb]. do 2 f_equal. lia.
  - exists 0%nat. rewrite app_nil_r, Z.add_0_r. split_and!; [lia|done|done].
Qed.

Lemma entry_ino_total sb_addr k v p : hash_ok sb_addr v → ∃ n, entry_ino sb_addr k v p = Ret n.
Proof.
  intros Hv. unfold entry_ino. destruct (fat_iget_spec sb_addr v p Hv) as [(a & i & -> & _ & Hi)|[-> _]]; cbn [mbind outcome_bind]; [|by eexists].
  unfold get_inode. rewrite Hi. by eexists.
Qed.

Section whole.
Context (sb : sb_info) (lay : layout) (ops : fatent_operations) (alloc : bool) (sleep : finode → finode).
Context (inv : finode → Prop) (good : fatfs → Prop) (blocks : Z) (phys : Z → Z) `{!DirMap sb lay ops alloc sleep inv good blocks phys}.
Context (o : vfat_options) (Ho : options_ok o) (isvfat dots nocase : bool) (new_page : option (list Z)) (Hnew : page_ok new_page).
Context (inum_at : Z → outcome Z) (Hinum : ∀ p, ∃ n, inum_at p = Ret n) (parent_ino : Z) (short_only both : bool).
Context (s : fatfs) (Hs : good s) (cap : nat) (root : bool) (Hroot : root = true → 0 < nr_entries sb blocks).

(** What a call from position [fpos], before entry [kf], gives: the dots and then
    the names, up to the end or to what the caller takes. *)
Definition listing (fpos kf ret fpos' : Z) (items : list dir_item) : Prop :=
  (ret = - ENOMEM ∧ new_page = None) ∨
  (ret = 0 ∧ ∃ k' names, starts_at root fpos' k' ∧ kf ≤ k' ≤ nr_entries sb blocks ∧ items = dots_between root fpos fpos' ++ names ∧
     Forall2 (listed sb lay inv blocks phys o isvfat dots nocase inum_at parent_ino short_only both s root kf)
       (filter (λ j, wanted sb phys o nocase s j = true) (seqZ kf (k' - kf))) names ∧
     (k' = nr_entries sb blocks ∨ (cap ≤ length items)%nat)).

Abbreviation readdir := (__fat_readdir sb lay ops alloc sleep o isvfat dots nocase new_page inum_at parent_ino (collect cap) short_only both).

(** The part of the call after the dots. *)
Lemma readdir_after_dots fpos p kf dir :
  inv dir → 0 ≤ kf ≤ nr_entries sb blocks → p = entry_pos root kf → starts_at root fpos kf → (root = true → p `max` fpos = p) →
  ∃ ret fpos' items dir',
    (let '(cpos, dummy) := if root && (p =? 2) then (0, Some 2) else (p, None) in
     if negb (Z.land cpos 31 =? 0) then Ret (- ENOENT, p, dots_between root fpos p, dir, s)
     else readdir_loop sb lay ops alloc sleep o isvfat dots nocase new_page inum_at parent_ino (collect cap) short_only both
       (dir_fuel sb lay dir) false None None cpos p dummy (dots_between root fpos p) dir s) = Ret (ret, fpos', items, dir', s) ∧
    inv dir' ∧ listing fpos kf ret fpos' items.
Proof.
  intros Hi Hkf -> Hst Hmax. assert ((if root && (entry_pos root kf =? 2) then (0, Some 2) else (entry_pos root kf, None)) = (32 * kf, entry_dummy root kf)) as ->.
  { unfold entry_pos, entry_dummy. destruct root; [|done]. cbn [andb]. destruct (Z.eqb_spec kf 0) as [->|]; [done|]. destruct (Z.eqb_spec (32 * kf) 2); [lia|done]. }
  assert (Z.land (32 * kf) 31 = 0) as ->. { change 31 with (Z.ones 5). rewrite Z.land_ones by lia. change (2 ^ 5) with 32. rewrite Z.mul_comm. apply Z_mod_mult. }
  cbn [Z.eqb negb].
  destruct (readdir_from sb lay ops alloc sleep inv good blocks phys o Ho isvfat dots nocase new_page Hnew inum_at Hinum parent_ino short_only both s Hs cap root Hroot
    kf kf (dots_between root fpos (entry_pos root kf)) dir eq_refl Hi Hkf) as (ret & fpos' & items & d & E & Hd & H).
  eexists ret, fpos', _, d. split; [exact E|]. split; [done|]. destruct H as [?|(-> & k' & -> & Hk' & Hf & Hend)]; [by left|right]. split; [done|]. exists k', items.
  assert (dots_between root fpos (entry_pos root k') = dots_between root fpos (entry_pos root kf)) as Ed.
  { unfold dots_between, entry_pos. destruct root; [|done]. cbn [andb]. do 2 f_equal. destruct (Z.eqb_spec k' 0), (Z.eqb_spec kf 0); lia. }
  rewrite Ed. split_and!; [|lia|lia|done|done|done]. unfold starts_at, entry_pos in *. destruct root; cbn [andb]; [|lia]. destruct (Z.eqb_spec k' 0); [left|right]; lia.
Qed.

Lemma readdir_spec fpos kf dir :
  inv dir → root = (i_ino dir =? MSDOS_ROOT_INO) → starts_at root fpos kf → kf ≤ nr_entries sb blocks →
  ∃ ret fpos' items dir', readdir fpos [] dir s = Ret (ret, fpos', items, dir', s) ∧ inv dir' ∧ listing fpos kf ret fpos' items.
Proof.
  intros Hi Er Hst Hkf. unfold __fat_readdir. rewrite <- Er. pose proof (λ p, readdir_after_dots fpos p kf dir Hi) as H. unfold listing in *. destruct root.
  - destruct (root_dots_spec cap (Z.to_nat (2 - fpos)) fpos []) as (m & Hm & -> & Hcap). cbn [app] in *. destruct (Nat.eqb_spec m (Z.to_nat (2 - fpos))) as [Em|Em]; cbn [negb].
    + assert (fpos + Z.of_nat m = entry_pos true kf) as Ep. { unfold entry_pos, starts_at in *. cbn [andb]. destruct (Z.eqb_spec kf 0); lia. }
      specialize (H (fpos + Z.of_nat m)). rewrite dots_between_root in H by lia. apply H; [unfold starts_at in Hst; lia|done|done|lia].
    + eexists 0, _, _, dir. split; [reflexivity|]. split; [done|]. right. split; [done|]. unfold starts_at in Hst. assert (kf = 0) as -> by lia. exists 0, [].
      rewrite app_nil_r, dots_between_root by lia. split_and!; [left; lia|lia|lia|done|constructor|right; apply Hcap; lia].
  - cbn [negb]. apply H; [unfold starts_at in Hst; lia| |done|done].
    unfold entry_pos, starts_at in *. cbn [andb]. lia.
Qed.
End whole.

(** ** Claims *)

(** C13: [fat_readdir] lists a directory.  From any position within the directory that
    stands for an entry or, in a root directory, for one of the dots, with a caller
    that takes a given number of names and neither UTF-8 nor escapes asked for, the
    call returns without writing past a buffer, and changes nothing on the disk.  It hands out the two
    dots a root directory does not store, and then one name for each entry in use
    up to the new position, in their order and none twice, each with the number
    of its inode and its long name where it has one.  The new position stands for
    an entry again; it is the end of the directory unless the caller took all it
    takes.  When no page is left, -ENOMEM is the only other result. *)
Theorem fat_readdir_lists sb lay ops alloc sleep inv good blocks phys `{!DirMap sb lay ops alloc sleep inv good blocks phys}
    o isvfat dots nocase new_page sb_addr k parent_ino cap a fpos kf i v :
  options_ok o → page_ok new_page → hash_ok sb_addr v → inodes v !! a = Some i → good (fs v) → inv (node i) →
  let root := i_ino (node i) =? MSDOS_ROOT_INO in
  (root = true → 0 < nr_entries sb blocks) → starts_at root fpos kf → kf ≤ nr_entries sb blocks →
  ∃ ret fpos' items n, fat_readdir sb lay ops alloc sleep o isvfat dots nocase new_page sb_addr k parent_ino (collect cap) a fpos [] v =
      Ret (ret, fpos', items, put_inode a (set_node n i) v) ∧ inv n ∧
    listing sb lay inv blocks phys o isvfat dots nocase new_page (entry_ino sb_addr k v) parent_ino false false (fs v) cap root fpos kf ret fpos' items.
Proof.
  intros Ho Hnew Hh Ha Hs Hi root Hroot Hst Hkf. unfold fat_readdir, readdir_on, with_node, get_inode. rewrite Ha. cbn [mbind outcome_bind].
  destruct (readdir_spec sb lay ops alloc sleep inv good blocks phys o Ho isvfat dots nocase new_page Hnew (entry_ino sb_addr k v) (λ p, entry_ino_total sb_addr k v p Hh)
    parent_ino false false (fs v) Hs cap root Hroot fpos kf (node i) Hi eq_refl Hst Hkf) as (ret & fpos' & items & n & -> & Hn & H).
  cbn [mbind outcome_bind]. exists ret, fpos', items, n. split; [by destruct v|done].
Qed.

(** ** Examples *)

(** The sample root with a long name, and its listing with a caller of four names
    and then of one. *)
Definition long_root : inode := Inode root_inode 0 0 S_IFDIR 2 0 (Stamps 0 0 0 0) 1 false 0 0 0.
Definition long_volume : volume := fat_hash_init (Volume long_fs {[ 1 := long_root ]} []).
Definition list_sample (cap : nat) (fpos : Z) (v : volume) : outcome (Z * Z * list dir_item * volume) :=
  fat_readdir Sample.sb16 sample_layout fat16_ops true (λ i, i) plain_options true false false (Some new_name_page) 0 sample_vfs MSDOS_ROOT_INO (collect cap) 1 fpos [] v.

Example long_root_listed :
  ∃ v, list_sample 4 0 long_volume = Ret (0, 512, [dot_item 0; dot_item 1; DirItem (OneName (bytes_of "a.txt")) 2 77 false; DirItem (OneName long_w) 32 77 false], v).
Proof. eexists. vm_compute. reflexivity. Qed.

Example long_root_resumed : ∃ v, list_sample 1 32 long_volume = Ret (0, 512, [DirItem (OneName long_w) 32 77 false], v).
Proof. eexists. vm_compute. reflexivity. Qed.

Lemma fat_readdir_lists_witness :
  ∃ ret fpos items v, list_sample 3 0 long_volume = Ret (ret, fpos, items, v) ∧ ret = 0 ∧ ∃ k, starts_at true fpos k ∧ (k = 16 ∨ (3 ≤ length items)%nat).
Proof.
  destruct (fat_readdir_lists Sample.sb16 sample_layout fat16_ops true (λ i, i) _ _ _ _ (DirMap0 := sample_root) plain_options true false false (Some new_name_page) 0 sample_vfs
    MSDOS_ROOT_INO 3 1 0 0 long_root long_volume plain_options_ok) as (ret & fpos & items & n & E & _ & H).
  - vm_compute. lia.
  - apply init_hash_ok.
  - reflexivity.
  - exact long_fs_good.
  - reflexivity.
  - intros _. vm_compute. reflexivity.
  - left. lia.
  - vm_compute. discriminate.
  - exists ret, fpos, items. eexists. split; [exact E|]. destruct H as [[_ H]|(-> & k & names & Hk & _ & _ & _ & Hend)]; [discriminate H|]. split; [reflexivity|]. exists k. split; [exact Hk|exact Hend].
Defined.

(** Both names of an entry at once, and the end that the length 0 reports. *)
Example both_names :
  ∃ cb v, fat_dir_ioctl Sample.sb16 sample_layout fat16_ops true (λ i, i) plain_options true false false (Some new_name_page) 0 sample_vfs MSDOS_ROOT_INO READDIR_BOTH
      true true false (UserDirent [] 9 0 0) (UserDirent [] 9 0 0) 1 32 long_volume = Ret (1, 512, cb, v) ∧
    d_name (cb_d2 cb) = long_w ∧ d_off (cb_d2 cb) = 32 ∧ d_name (cb_d1 cb) = bytes_of "longna~1.txt".
Proof. eexists _, _. split; [vm_compute; reflexivity|]. by vm_compute. Qed.

(** ** A short name the buffer does not hold *)

(** Box characters, as a code page has them above the letters. *)
Definition box_table : nls_table := Nls (λ s, match s with c :: _ => (1, if c <? 128 then c else 0x2500 + c) | [] => (0, 0) end) (uni2char default_table) (λ c, c) (λ c, c).

(** With escapes asked for, an entry of eleven characters that are not in the
    set of the output takes 56 bytes and the terminator, one past [bufname]. *)
Lemma readdir_overruns :
  fat_readdir Sample.sb16 sample_layout fat16_ops true (λ i, i) (VfatOptions true false true VFAT_SFN_DISPLAY_LOWER true default_table box_table) true false false
    (Some new_name_page) 0 sample_vfs MSDOS_ROOT_INO (collect 4) 1 2 []
    (fat_hash_init (Volume (FatFs (<[4 := entry_bytes (replicate 11 200) 32 ++ replicate 480 0]> (blk (Sample.fs16 4))) ∅ 5 4 false false) {[ 1 := long_root ]} [])) = Undef.
Proof. by vm_compute. Qed.
