(* ===== verification/FatOptions.v ===== *)
(** Mount options of the FAT file systems: [parse_options] and [fat_show_options]
    of [fs/fat/inode.c], with [seq_printf] and [seq_puts] of [fs/seq_file.c].

    The defaults the kernel is configured with are parameters.  Messages are not
    kept. *)

From stdpp Require Import strings.
From S2P Require Import Prelude Ctype Vsprintf Parser FatLong.

(** ** Data *)

Definition VFAT_SFN_CREATE_WIN95 : Z := 0x100.
Definition VFAT_SFN_CREATE_WINNT : Z := 0x200.

(** [fat_default_iocharset], or a string from [kmalloc]. *)
Inductive charset_ptr := DefaultCharset | OnHeap (a : Z).

(** [struct fat_mount_options]; nothing sets [atari]. *)
Record mount_options := MountOptions {
  o_uid : Z; o_gid : Z; o_fmask : Z; o_dmask : Z; o_codepage : Z; o_iocharset : charset_ptr; o_shortname : Z; o_name_check : Z;
  o_quiet : bool; o_showexec : bool; o_sys_immutable : bool; o_dotsOK : bool; o_isvfat : bool; o_utf8 : bool; o_unicode_xlate : bool;
  o_numtail : bool; o_flush : bool; o_nocase : bool; o_usefree : bool
}.

Definition with_uid v o := MountOptions v (o_gid o) (o_fmask o) (o_dmask o) (o_codepage o) (o_iocharset o) (o_shortname o) (o_name_check o) (o_quiet o) (o_showexec o) (o_sys_immutable o) (o_dotsOK o) (o_isvfat o) (o_utf8 o) (o_unicode_xlate o) (o_numtail o) (o_flush o) (o_nocase o) (o_usefree o).
Definition with_gid v o := MountOptions (o_uid o) v (o_fmask o) (o_dmask o) (o_codepage o) (o_iocharset o) (o_shortname o) (o_name_check o) (o_quiet o) (o_showexec o) (o_sys_immutable o) (o_dotsOK o) (o_isvfat o) (o_utf8 o) (o_unicode_xlate o) (o_numtail o) (o_flush o) (o_nocase o) (o_usefree o).
Definition with_fmask v o := MountOptions (o_uid o) (o_gid o) v (o_dmask o) (o_codepage o) (o_iocharset o) (o_shortname o) (o_name_check o) (o_quiet o) (o_showexec o) (o_sys_immutable o) (o_dotsOK o) (o_isvfat o) (o_utf8 o) (o_unicode_xlate o) (o_numtail o) (o_flush o) (o_nocase o) (o_usefree o).
Definition with_dmask v o := MountOptions (o_uid o) (o_gid o) (o_fmask o) v (o_codepage o) (o_iocharset o) (o_shortname o) (o_name_check o) (o_quiet o) (o_showexec o) (o_sys_immutable o) (o_dotsOK o) (o_isvfat o) (o_utf8 o) (o_unicode_xlate o) (o_numtail o) (o_flush o) (o_nocase o) (o_usefree o).
Definition with_codepage v o := MountOptions (o_uid o) (o_gid o) (o_fmask o) (o_dmask o) v (o_iocharset o) (o_shortname o) (o_name_check o) (o_quiet o) (o_showexec o) (o_sys_immutable o) (o_dotsOK o) (o_isvfat o) (o_utf8 o) (o_unicode_xlate o) (o_numtail o) (o_flush o) (o_nocase o) (o_usefree o).
Definition with_iocharset v o := MountOptions (o_uid o) (o_gid o) (o_fmask o) (o_dmask o) (o_codepage o) v (o_shortname o) (o_name_check o) (o_quiet o) (o_showexec o) (o_sys_immutable o) (o_dotsOK o) (o_isvfat o) (o_utf8 o) (o_unicode_xlate o) (o_numtail o) (o_flush o) (o_nocase o) (o_usefree o).
Definition with_shortname v o := MountOptions (o_uid o) (o_gid o) (o_fmask o) (o_dmask o) (o_codepage o) (o_iocharset o) v (o_name_check o) (o_quiet o) (o_showexec o) (o_sys_immutable o) (o_dotsOK o) (o_isvfat o) (o_utf8 o) (o_unicode_xlate o) (o_numtail o) (o_flush o) (o_nocase o) (o_usefree o).
Definition with_name_check v o := MountOptions (o_uid o) (o_gid o) (o_fmask o) (o_dmask o) (o_codepage o) (o_iocharset o) (o_shortname o) v (o_quiet o) (o_showexec o) (o_sys_immutable o) (o_dotsOK o) (o_isvfat o) (o_utf8 o) (o_unicode_xlate o) (o_numtail o) (o_flush o) (o_nocase o) (o_usefree o).
Definition with_quiet v o := MountOptions (o_uid o) (o_gid o) (o_fmask o) (o_dmask o) (o_codepage o) (o_iocharset o) (o_shortname o) (o_name_check o) v (o_showexec o) (o_sys_immutable o) (o_dotsOK o) (o_isvfat o) (o_utf8 o) (o_unicode_xlate o) (o_numtail o) (o_flush o) (o_nocase o) (o_usefree o).
Definition with_showexec v o := MountOptions (o_uid o) (o_gid o) (o_fmask o) (o_dmask o) (o_codepage o) (o_iocharset o) (o_shortname o) (o_name_check o) (o_quiet o) v (o_sys_immutable o) (o_dotsOK o) (o_isvfat o) (o_utf8 o) (o_unicode_xlate o) (o_numtail o) (o_flush o) (o_nocase o) (o_usefree o).
Definition with_sys_immutable v o := MountOptions (o_uid o) (o_gid o) (o_fmask o) (o_dmask o) (o_codepage o) (o_iocharset o) (o_shortname o) (o_name_check o) (o_quiet o) (o_showexec o) v (o_dotsOK o) (o_isvfat o) (o_utf8 o) (o_unicode_xlate o) (o_numtail o) (o_flush o) (o_nocase o) (o_usefree o).
Definition with_dotsOK v o := MountOptions (o_uid o) (o_gid o) (o_fmask o) (o_dmask o) (o_codepage o) (o_iocharset o) (o_shortname o) (o_name_check o) (o_quiet o) (o_showexec o) (o_sys_immutable o) v (o_isvfat o) (o_utf8 o) (o_unicode_xlate o) (o_numtail o) (o_flush o) (o_nocase o) (o_usefree o).
Definition with_utf8 v o := MountOptions (o_uid o) (o_gid o) (o_fmask o) (o_dmask o) (o_codepage o) (o_iocharset o) (o_shortname o) (o_name_check o) (o_quiet o) (o_showexec o) (o_sys_immutable o) (o_dotsOK o) (o_isvfat o) v (o_unicode_xlate o) (o_numtail o) (o_flush o) (o_nocase o) (o_usefree o).
Definition with_unicode_xlate v o := MountOptions (o_uid o) (o_gid o) (o_fmask o) (o_dmask o) (o_codepage o) (o_iocharset o) (o_shortname o) (o_name_check o) (o_quiet o) (o_showexec o) (o_sys_immutable o) (o_dotsOK o) (o_isvfat o) (o_utf8 o) v (o_numtail o) (o_flush o) (o_nocase o) (o_usefree o).
Definition with_numtail v o := MountOptions (o_uid o) (o_gid o) (o_fmask o) (o_dmask o) (o_codepage o) (o_iocharset o) (o_shortname o) (o_name_check o) (o_quiet o) (o_showexec o) (o_sys_immutable o) (o_dotsOK o) (o_isvfat o) (o_utf8 o) (o_unicode_xlate o) v (o_flush o) (o_nocase o) (o_usefree o).
Definition with_flush v o := MountOptions (o_uid o) (o_gid o) (o_fmask o) (o_dmask o) (o_codepage o) (o_iocharset o) (o_shortname o) (o_name_check o) (o_quiet o) (o_showexec o) (o_sys_immutable o) (o_dotsOK o) (o_isvfat o) (o_utf8 o) (o_unicode_xlate o) (o_numtail o) v (o_nocase o) (o_usefree o).
Definition with_nocase v o := MountOptions (o_uid o) (o_gid o) (o_fmask o) (o_dmask o) (o_codepage o) (o_iocharset o) (o_shortname o) (o_name_check o) (o_quiet o) (o_showexec o) (o_sys_immutable o) (o_dotsOK o) (o_isvfat o) (o_utf8 o) (o_unicode_xlate o) (o_numtail o) (o_flush o) v (o_usefree o).
Definition with_usefree v o := MountOptions (o_uid o) (o_gid o) (o_fmask o) (o_dmask o) (o_codepage o) (o_iocharset o) (o_shortname o) (o_name_check o) (o_quiet o) (o_showexec o) (o_sys_immutable o) (o_dotsOK o) (o_isvfat o) (o_utf8 o) (o_unicode_xlate o) (o_numtail o) (o_flush o) (o_nocase o) v.

Inductive fat_opt :=
| Opt_check_n | Opt_check_r | Opt_check_s | Opt_uid | Opt_gid
| Opt_umask | Opt_dmask | Opt_fmask | Opt_codepage | Opt_usefree | Opt_nocase
| Opt_quiet | Opt_showexec | Opt_debug | Opt_immutable
| Opt_dots | Opt_nodots
| Opt_charset | Opt_shortname_lower | Opt_shortname_win95
| Opt_shortname_winnt | Opt_shortname_mixed | Opt_utf8_no | Opt_utf8_yes
| Opt_uni_xl_no | Opt_uni_xl_yes | Opt_nonumtail_no | Opt_nonumtail_yes
| Opt_obsolate | Opt_flush | Opt_err.

#[export] Instance fat_opt_eq : EqDecision fat_opt.
Proof. solve_decision. Defined.

Definition tok (t : fat_opt) (s : string) : fat_opt * option (list Z) := (t, Some (bytes_of s)).

Definition fat_tokens : list (fat_opt * option (list Z)) := [
  tok Opt_check_r "check=relaxed";
  tok Opt_check_s "check=strict";
  tok Opt_check_n "check=normal";
  tok Opt_check_r "check=r";
  tok Opt_check_s "check=s";
  tok Opt_check_n "check=n";
  tok Opt_uid "uid=%u";
  tok Opt_gid "gid=%u";
  tok Opt_umask "umask=%o";
  tok Opt_dmask "dmask=%o";
  tok Opt_fmask "fmask=%o";
  tok Opt_codepage "codepage=%u";
  tok Opt_usefree "usefree";
  tok Opt_nocase "nocase";
  tok Opt_quiet "quiet";
  tok Opt_showexec "showexec";
  tok Opt_debug "debug";
  tok Opt_immutable "sys_immutable";
  tok Opt_obsolate "conv=binary";
  tok Opt_obsolate "conv=text";
  tok Opt_obsolate "conv=auto";
  tok Opt_obsolate "conv=b";
  tok Opt_obsolate "conv=t";
  tok Opt_obsolate "conv=a";
  tok Opt_obsolate "fat=%u";
  tok Opt_obsolate "blocksize=%u";
  tok Opt_obsolate "cvf_format=%20s";
  tok Opt_obsolate "cvf_options=%100s";
  tok Opt_obsolate "posix";
  tok Opt_flush "flush";
  (Opt_err, None)
].

Definition msdos_tokens : list (fat_opt * option (list Z)) := [
  tok Opt_nodots "nodots";
  tok Opt_nodots "dotsOK=no";
  tok Opt_dots "dots";
  tok Opt_dots "dotsOK=yes";
  (Opt_err, None)
].

Definition vfat_tokens : list (fat_opt * option (list Z)) := [
  tok Opt_charset "iocharset=%s";
  tok Opt_shortname_lower "shortname=lower";
  tok Opt_shortname_win95 "shortname=win95";
  tok Opt_shortname_winnt "shortname=winnt";
  tok Opt_shortname_mixed "shortname=mixed";
  tok Opt_utf8_no "utf8=0";
  tok Opt_utf8_no "utf8=no";
  tok Opt_utf8_no "utf8=false";
  tok Opt_utf8_yes "utf8=1";
  tok Opt_utf8_yes "utf8=yes";
  tok Opt_utf8_yes "utf8=true";
  tok Opt_utf8_yes "utf8";
  tok Opt_uni_xl_no "uni_xlate=0";
  tok Opt_uni_xl_no "uni_xlate=no";
  tok Opt_uni_xl_no "uni_xlate=false";
  tok Opt_uni_xl_yes "uni_xlate=1";
  tok Opt_uni_xl_yes "uni_xlate=yes";
  tok Opt_uni_xl_yes "uni_xlate=true";
  tok Opt_uni_xl_yes "uni_xlate";
  tok Opt_nonumtail_no "nonumtail=0";
  tok Opt_nonumtail_no "nonumtail=no";
  tok Opt_nonumtail_no "nonumtail=false";
  tok Opt_nonumtail_yes "nonumtail=1";
  tok Opt_nonumtail_yes "nonumtail=yes";
  tok Opt_nonumtail_yes "nonumtail=true";
  tok Opt_nonumtail_yes "nonumtail";
  (Opt_err, None)
].

(** ** Parsing *)

Section parsing.
Context (fat_default_codepage current_uid current_gid current_umask : Z).

Definition default_options (is_vfat : bool) : mount_options :=
  MountOptions current_uid current_gid (u16 current_umask) (u16 current_umask) (u16 fat_default_codepage) DefaultCharset
    (if is_vfat then Z.lor VFAT_SFN_DISPLAY_LOWER VFAT_SFN_CREATE_WIN95 else 0) 110
    false false false false is_vfat false false true false false false.

(** What one option does: a value that is returned at once, or nothing. *)
Definition parsed_one : Type := option Z * mount_options * bool * kmem.

(** [arg] is the text of [args[0]]. *)
Definition numeric (conv : list Z → kmem → outcome (Z * Z * kmem)) (args : list (list Z)) (set : Z → mount_options → mount_options)
    (opts : mount_options) (debug : bool) (m : kmem) : outcome parsed_one :=
  match args with
  | [] => Undef
  | a :: _ => '(err, option, m) ← conv a m; Ret (if negb (err =? 0) then (Some 0, opts, debug, m) else (None, set option opts, debug, m))
  end.

Definition set_option (is_vfat : bool) (token : fat_opt) (args : list (list Z)) (opts : mount_options) (debug : bool) (m : kmem) : outcome parsed_one :=
  let go opts := Ret (None, opts, debug, m) in
  match token with
  | Opt_check_s => go (with_name_check 115 opts)
  | Opt_check_r => go (with_name_check 114 opts)
  | Opt_check_n => go (with_name_check 110 opts)
  | Opt_usefree => go (with_usefree true opts)
  | Opt_nocase => go (if negb is_vfat then with_nocase true opts else with_shortname (Z.lor VFAT_SFN_DISPLAY_WIN95 VFAT_SFN_CREATE_WIN95) opts)
  | Opt_quiet => go (with_quiet true opts)
  | Opt_showexec => go (with_showexec true opts)
  | Opt_debug => Ret (None, opts, true, m)
  | Opt_immutable => go (with_sys_immutable true opts)
  | Opt_uid => numeric match_int args (λ v, with_uid (u32 v)) opts debug m
  | Opt_gid => numeric match_int args (λ v, with_gid (u32 v)) opts debug m
  | Opt_umask => numeric match_octal args (λ v opts, with_fmask (u16 v) (with_dmask (u16 v) opts)) opts debug m
  | Opt_dmask => numeric match_octal args (λ v, with_dmask (u16 v)) opts debug m
  | Opt_fmask => numeric match_octal args (λ v, with_fmask (u16 v)) opts debug m
  | Opt_codepage => numeric match_int args (λ v, with_codepage (u16 v)) opts debug m
  | Opt_flush => go (with_flush true opts)
  | Opt_dots => go (with_dotsOK true opts)
  | Opt_nodots => go (with_dotsOK false opts)
  | Opt_charset =>
    m ← match o_iocharset opts with OnHeap a => kfree a m | DefaultCharset => Ret m end;
    match args with
    | [] => Undef
    | a :: _ => Ret (match match_strdup a m with (None, m) => (Some (- ENOMEM), opts, debug, m) | (Some p, m) => (None, with_iocharset (OnHeap p) opts, debug, m) end)
    end
  | Opt_shortname_lower => go (with_shortname (Z.lor VFAT_SFN_DISPLAY_LOWER VFAT_SFN_CREATE_WIN95) opts)
  | Opt_shortname_win95 => go (with_shortname (Z.lor VFAT_SFN_DISPLAY_WIN95 VFAT_SFN_CREATE_WIN95) opts)
  | Opt_shortname_winnt => go (with_shortname (Z.lor VFAT_SFN_DISPLAY_WINNT VFAT_SFN_CREATE_WINNT) opts)
  | Opt_shortname_mixed => go (with_shortname (Z.lor VFAT_SFN_DISPLAY_WINNT VFAT_SFN_CREATE_WIN95) opts)
  | Opt_utf8_no => go (with_utf8 false opts)
  | Opt_utf8_yes => go (with_utf8 true opts)
  | Opt_uni_xl_no => go (with_unicode_xlate false opts)
  | Opt_uni_xl_yes => go (with_unicode_xlate true opts)
  | Opt_nonumtail_no => go (with_numtail true opts)
  | Opt_nonumtail_yes => go (with_numtail false opts)
  | Opt_obsolate => go opts
  | Opt_err => Ret (Some (- EINVAL), opts, debug, m)
  end.

(** The two tables, one after the other. *)
Definition find_token (is_vfat : bool) (p : list Z) : outcome (fat_opt * list (list Z)) :=
  '(token, args) ← match_token p fat_tokens;
  if bool_decide (token = Opt_err) then match_token p (if is_vfat then vfat_tokens else msdos_tokens) else Ret (token, args).

Fixpoint options_loop (fuel : nat) (is_vfat : bool) (options : option (list Z)) (opts : mount_options) (debug : bool) (m : kmem) : outcome parsed_one :=
  match options with
  | None => Ret (None, opts, debug, m)
  | Some s =>
    match fuel with
    | O => NoFuel
    | S fuel =>
      let '(p, rest) := strsep s in
      if (length p =? 0)%nat then options_loop fuel is_vfat rest opts debug m else
      '(token, args) ← find_token is_vfat p;
      '(ret, opts, debug, m) ← set_option is_vfat token args opts debug m;
      match ret with Some r => Ret (Some r, opts, debug, m) | None => options_loop fuel is_vfat rest opts debug m end
    end
  end.

(** The result, the options, whether [debug] was asked for, and the memory. *)
Definition parse_options (options : option (list Z)) (is_vfat : bool) (m : kmem) : outcome (Z * mount_options * bool * kmem) :=
  let opts := default_options is_vfat in
  match options with
  | None => Ret (0, opts, false, m)
  | Some s =>
    '(ret, opts, debug, m) ← options_loop (S (length s)) is_vfat (Some s) opts false m;
    Ret (match ret with Some r => (r, opts, debug, m) | None => (0, if o_unicode_xlate opts then with_utf8 false opts else opts, debug, m) end)
  end.
End parsing.

(** ** Showing *)

(** [struct seq_file]: the buffer, its size and what is used of it. *)
Record seq_file := SeqFile { s_buf : list Z; s_count : Z }.

Definition s_size (m : seq_file) : Z := Z.of_nat (length (s_buf m)).

Definition seq_printf (addr : Z) (f : list Z) (args : list varg) (m : seq_file) : outcome (Z * seq_file) :=
  if s_count m <? s_size m then
    '(n, _, b) ← vsnprintf (addr + s_count m) (drop (Z.to_nat (s_count m)) (s_buf m)) (s_size m - s_count m) f args;
    let buf := take (Z.to_nat (s_count m)) (s_buf m) ++ b in
    Ret (if s_count m + n <? s_size m then (0, SeqFile buf (s_count m + n)) else (-1, SeqFile buf (s_size m)))
  else Ret (-1, SeqFile (s_buf m) (s_size m)).

Definition seq_puts (s : list Z) (m : seq_file) : Z * seq_file :=
  let n := Z.of_nat (length s) in
  if s_count m + n <? s_size m then (0, SeqFile (take (Z.to_nat (s_count m)) (s_buf m) ++ s ++ drop (Z.to_nat (s_count m + n)) (s_buf m)) (s_count m + n))
  else (-1, SeqFile (s_buf m) (s_size m)).

Section showing.
Context (addr : Z).

Definition print_if (b : bool) (f : string) (args : list varg) (m : seq_file) : outcome seq_file :=
  if b then '(_, m) ← seq_printf addr (bytes_of f) args m; Ret m else Ret m.

Definition puts_if (b : bool) (s : string) (m : seq_file) : outcome seq_file := if b then Ret (seq_puts (bytes_of s) m).2 else Ret m.

(** [nls_disk] and [nls_io] are the names of the tables that are loaded.  What the
    printing functions return is not looked at. *)
Definition fat_show_options (opts : mount_options) (nls_disk nls_io : option (list Z)) (m : seq_file) : outcome seq_file :=
  let isvfat := o_isvfat opts in
  m ← print_if (negb (o_uid opts =? 0)) ",uid=%u" [VInt (o_uid opts)] m;
  m ← print_if (negb (o_gid opts =? 0)) ",gid=%u" [VInt (o_gid opts)] m;
  m ← print_if true ",fmask=%04o" [VInt (o_fmask opts)] m;
  m ← print_if true ",dmask=%04o" [VInt (o_dmask opts)] m;
  m ← print_if (bool_decide (is_Some nls_disk)) ",codepage=%s" [VStr nls_disk] m;
  m ← (if isvfat then
         m ← print_if (bool_decide (is_Some nls_io)) ",iocharset=%s" [VStr nls_io] m;
         let name := o_shortname opts in
         if name =? Z.lor VFAT_SFN_DISPLAY_WIN95 VFAT_SFN_CREATE_WIN95 then puts_if true ",shortname=win95" m else
         if name =? Z.lor VFAT_SFN_DISPLAY_WINNT VFAT_SFN_CREATE_WINNT then puts_if true ",shortname=winnt" m else
         if name =? Z.lor VFAT_SFN_DISPLAY_WINNT VFAT_SFN_CREATE_WIN95 then puts_if true ",shortname=mixed" m else
         if name =? Z.lor VFAT_SFN_DISPLAY_LOWER VFAT_SFN_CREATE_WIN95 then Ret m else puts_if true ",shortname=unknown" m
       else Ret m);
  m ← print_if (negb (o_name_check opts =? 110)) ",check=%c" [VInt (o_name_check opts)] m;
  m ← puts_if (o_usefree opts) ",usefree" m;
  m ← puts_if (o_quiet opts) ",quiet" m;
  m ← puts_if (o_showexec opts) ",showexec" m;
  m ← puts_if (o_sys_immutable opts) ",sys_immutable" m;
  if negb isvfat then
    m ← puts_if (o_dotsOK opts) ",dotsOK=yes" m;
    puts_if (o_nocase opts) ",nocase" m
  else
    m ← puts_if (o_utf8 opts) ",utf8" m;
    m ← puts_if (o_unicode_xlate opts) ",uni_xlate" m;
    puts_if (negb (o_numtail opts)) ",nonumtail" m.
End showing.

(** ** Parsing is safe *)

(** The conversion in the pattern of an option that takes an argument, and the base
    its number is read in. *)
Definition conv_of (t : fat_opt) : option Z :=
  match t with
  | Opt_uid | Opt_gid | Opt_codepage => Some 117
  | Opt_umask | Opt_dmask | Opt_fmask => Some 111
  | Opt_charset => Some 115
  | _ => None
  end.

Definition base_of (c : Z) : Z := if c =? 111 then 8 else 0.

Definition ends_in (c : Z) (p : option (list Z)) : bool := match p with Some p => match split_at 37 p with (_, Some [d]) => d =? c | _ => false end | None => false end.

Lemma tokens_args (is_vfat : bool) t p c : (t, p) ∈ fat_tokens ++ (if is_vfat then vfat_tokens else msdos_tokens) → conv_of t = Some c → ends_in c p = true.
Proof.
  intros Hin Hn. assert (forallb (λ e, match conv_of e.1 with Some c => ends_in c e.2 | None => true end) (fat_tokens ++ (if is_vfat then vfat_tokens else msdos_tokens)) = true) as H
    by (destruct is_vfat; by vm_compute).
  rewrite forallb_forall in H. specialize (H (t, p) ltac:(by apply list_elem_of_In)). cbn [fst snd] in H. by rewrite Hn in H.
Qed.

(** The argument of a number is all read by the conversion that follows. *)
Definition arg_ok (c : Z) (args : list (list Z)) : Prop := ∃ a, args = [a] ∧ a ≠ [] ∧ (c ≠ 115 → (simple_strtol a (base_of c)).2 = []).

Lemma strtol_same s base v : base = 0 ∨ base = 8 → s ≠ [] → simple_strtoul s base = (v, []) → simple_strtol s base = (s64 v, []).
Proof.
  intros Hb Hne E. unfold simple_strtol. destruct (Z.eqb_spec (at_ptr s) 45) as [Es|]; [|by rewrite E]. destruct s as [|c s]; [done|]. cbn in Es. subst c.
  by destruct Hb as [-> | ->].
Qed.

Lemma matched_arg s p c args : c = 115 ∨ c = 117 ∨ c = 111 → ends_in c p = true → match_one s p = Ret (Some args) → arg_ok c args.
Proof.
  intros Hc. destruct p as [p|]; [|done]. cbn [ends_in]. destruct (split_at 37 p) as [pre [[|d [|]]|]] eqn:E; try done. intros ->%Z.eqb_eq.
  rewrite (match_one_arg s p pre c E) by (destruct Hc as [->|[->| ->]]; done || lia). destruct (after_prefix pre s) as [u|]; [|done].
  destruct (match_arg c (-1) u) as [[a [|]]|] eqn:Em; try done. intros [= <-]. exists a. split; [done|].
  destruct Hc as [->|Hc]; unfold match_arg in Em.
  - cbn [Z.eqb Pos.eqb orb] in Em. destruct (Nat.eqb_spec (length u) 0); [done|]. injection Em as <- _. rewrite take_ge by lia. split; [by destruct u|done].
  - assert (∀ base, (if (length (simple_strtoul u base).2 =? length u)%nat then None else Some (take (length u - length (simple_strtoul u base).2) u, (simple_strtoul u base).2)) = Some (a, []) →
      a ≠ [] ∧ (base = 0 ∨ base = 8 → (simple_strtol a base).2 = [])) as H.
    { intros base. destruct (Nat.eqb_spec (length (simple_strtoul u base).2) (length u)) as [|Hl]; [done|]. intros [= <- E2]. rewrite E2 in *. cbn [length] in *. rewrite Nat.sub_0_r, take_ge by lia.
      assert (u ≠ []) as Hu by (by destruct u). split; [done|]. intros Hb. destruct (simple_strtoul u base) as [v r] eqn:Ev. cbn [snd] in E2. subst r. by rewrite (strtol_same u base v). }
    destruct Hc as [->| ->]; cbn [Z.eqb Pos.eqb] in Em; apply H in Em as [? Em]; (split; [done|]); intros _; apply Em; [by left|by right].
Qed.

Lemma conv_chars t c : conv_of t = Some c → c = 115 ∨ c = 117 ∨ c = 111.
Proof. destruct t; cbn; intros [= <-]; lia. Qed.

Lemma find_token_ok is_vfat s : ∃ t args, find_token is_vfat s = Ret (t, args) ∧ ∀ c, conv_of t = Some c → arg_ok c args.
Proof.
  unfold find_token. destruct (match_token_total s (removelast fat_tokens) Opt_err) as [[t args] E]. change (removelast fat_tokens ++ [(Opt_err, None)]) with fat_tokens in E.
  rewrite E. cbn [mbind outcome_bind]. destruct (bool_decide (t = Opt_err)) eqn:Et.
  - assert (∃ r, match_token s (if is_vfat then vfat_tokens else msdos_tokens) = Ret r) as [[t' args'] E'].
    { destruct is_vfat; [destruct (match_token_total s (removelast vfat_tokens) Opt_err) as [r H]|destruct (match_token_total s (removelast msdos_tokens) Opt_err) as [r H]]; by exists r. }
    exists t', args'. split; [done|]. intros c Hn. apply match_token_in in E' as (p & Hp & Em). eapply matched_arg; [by eapply conv_chars| |exact Em]. apply (tokens_args is_vfat t'); [set_solver|done].
  - exists t, args. split; [done|]. intros c Hn. apply match_token_in in E as (p & Hp & Em). eapply matched_arg; [by eapply conv_chars| |exact Em]. apply (tokens_args is_vfat t); [set_solver|done].
Qed.

(** ** The name of the character set *)

(** The texts between the commas. *)
Fixpoint pieces (s : list Z) : list (list Z) :=
  match s with
  | [] => [[]]
  | c :: s => if c =? 44 then [] :: pieces s else match pieces s with p :: l => (c :: p) :: l | [] => [[c]] end
  end.

(** What follows iocharset= in an option of the vfat file system, and the last such
    text among some options. *)
Definition charset_arg (is_vfat : bool) (p : list Z) : option (list Z) :=
  if is_vfat then match after_prefix (bytes_of "iocharset=") p with Some [] => None | r => r end else None.

Definition charset_text (is_vfat : bool) (t : option (list Z)) (items : list (list Z)) : option (list Z) :=
  foldl (λ t p, match charset_arg is_vfat p with Some a => Some a | None => t end) t items.

Lemma pieces_split s p rest : split_at 44 s = (p, rest) → pieces s = p :: match rest with Some r => pieces r | None => [] end.
Proof.
  revert p rest. induction s as [|c s IH]; intros p rest; cbn [split_at pieces]; [by intros [= <- <-]|]. destruct (c =? 44); [by intros [= <- <-]|].
  destruct (split_at 44 s) as [a b] eqn:E. intros [= <- <-]. by rewrite (IH a b eq_refl).
Qed.

(** An option is taken for the character set exactly when it is one. *)
Lemma find_charset n : n ≠ [] → find_token true (bytes_of "iocharset=" ++ n) = Ret (Opt_charset, [n]).
Proof.
  intros Hn. unfold find_token. assert (match_token (bytes_of "iocharset=" ++ n) fat_tokens = Ret (Opt_err, [])) as -> by reflexivity. cbn [mbind outcome_bind]. rewrite bool_decide_true by done.
  unfold vfat_tokens, tok. cbn [match_token]. rewrite (match_one_arg (bytes_of "iocharset=" ++ n) (bytes_of "iocharset=%s") (bytes_of "iocharset=") 115 eq_refl eq_refl ltac:(lia)). rewrite (proj2 (after_prefix_spec _ (bytes_of "iocharset=" ++ n) n) eq_refl).
  unfold match_arg. cbn [Z.eqb Pos.eqb orb]. destruct (Nat.eqb_spec (length n) 0) as [E|E]; [by destruct n|]. by rewrite take_ge, drop_ge by lia.
Qed.

Lemma charset_matched p args : match_one p (Some (bytes_of "iocharset=%s")) = Ret (Some args) → ∃ a, args = [a] ∧ charset_arg true p = Some a.
Proof.
  rewrite (match_one_arg p (bytes_of "iocharset=%s") (bytes_of "iocharset=") 115 eq_refl eq_refl ltac:(lia)). unfold charset_arg.
  destruct (after_prefix (bytes_of "iocharset=") p) as [u|]; [|done]. unfold match_arg. cbn [Z.eqb Pos.eqb orb]. destruct (Nat.eqb_spec (length u) 0) as [|Hu]; [done|].
  rewrite take_ge, drop_ge by lia. intros [= <-]. exists u. by destruct u.
Qed.

Lemma charset_found is_vfat p t args : find_token is_vfat p = Ret (t, args) → match charset_arg is_vfat p with Some a => t = Opt_charset ∧ args = [a] | None => t ≠ Opt_charset end.
Proof.
  intros E. destruct (charset_arg is_vfat p) as [a|] eqn:Ea.
  - destruct is_vfat; [|done]. cbn [charset_arg] in Ea. destruct (after_prefix (bytes_of "iocharset=") p) as [[|c u]|] eqn:Ep; [done| |done]. injection Ea as <-.
    apply after_prefix_spec in Ep as ->. rewrite find_charset in E by done. by injection E as <- <-.
  - intros ->. assert (∃ pat, (Opt_charset, pat) ∈ (if is_vfat then vfat_tokens else msdos_tokens) ∧ match_one p pat = Ret (Some args)) as (pat & Hin & Em).
    { unfold find_token in E. destruct (match_token p fat_tokens) as [[t' a']| | |] eqn:Et; [|done..]. cbn [mbind outcome_bind] in E. destruct (bool_decide (t' = Opt_err)); [by apply match_token_in|].
      injection E as -> ->. apply match_token_in in Et as (pat & Hin & _). exfalso. revert Hin. by apply (bool_decide_unpack (¬ _)) || (unfold fat_tokens, tok; set_solver). }
    destruct is_vfat; [|unfold msdos_tokens, tok in Hin; set_solver]. assert (pat = Some (bytes_of "iocharset=%s")) as -> by (unfold vfat_tokens, tok in Hin; set_solver).
    apply charset_matched in Em as (a & _ & Ea'). congruence.
Qed.

(** The memory is what it was at the start and the string of the options, if they
    have one, which is [t]. *)
Definition holds_text (h : gmap Z (list Z)) (opts : mount_options) (m : kmem) (t : option (list Z)) : Prop :=
  match o_iocharset opts, t with
  | DefaultCharset, None => heap m = h
  | OnHeap a, Some s => h !! a = None ∧ heap m = <[a := s]> h
  | _, _ => False
  end.

(** The same for a string that does not matter. *)
Definition holds (h : gmap Z (list Z)) (opts : mount_options) (m : kmem) : Prop :=
  match o_iocharset opts with DefaultCharset => heap m = h | OnHeap a => h !! a = None ∧ ∃ s, heap m = <[a := s]> h end.

Lemma holds_any h opts m t : holds_text h opts m t → holds h opts m.
Proof. unfold holds_text, holds. destruct (o_iocharset opts), t as [s|]; try done. intros [? ?]. split; [done|by exists s]. Qed.

(** The options after -ENOMEM: the string they had is freed, and a pointer to it is
    still there. *)
Definition dangles (opts : mount_options) (m : kmem) : Prop := match o_iocharset opts with DefaultCharset => True | OnHeap a => heap m !! a = None end.

Lemma holds_charset h opts opts' m m' t : holds_text h opts m t → o_iocharset opts' = o_iocharset opts → heap m' = heap m → holds_text h opts' m' t.
Proof. unfold holds_text. by intros H -> ->. Qed.

(** How an option [p] may end: early only when an allocation failed or it is not
    known. *)
Definition ended (is_vfat : bool) (p : list Z) (h : gmap Z (list Z)) (m : kmem) (t : option (list Z)) (r : option Z) (opts' : mount_options) (m' : kmem) : Prop :=
  match r with
  | Some r => (r = - ENOMEM ∧ heap m' = h ∧ dangles opts' m' ∧ failing m ≠ []) ∨ (r = 0 ∧ holds_text h opts' m' t ∧ failing m ≠ []) ∨
              (r = - EINVAL ∧ holds_text h opts' m' t ∧ ∃ args, find_token is_vfat p = Ret (Opt_err, args))
  | None => holds_text h opts' m' (charset_text is_vfat t [p])
  end ∧ (failing m = [] → failing m' = []).

Lemma numeric_ok is_vfat p conv c args set opts debug m h t :
  holds_text h opts m t → charset_arg is_vfat p = None → (∀ a m, conv a m = match_number a (base_of c) m) → (∀ v, o_iocharset (set v opts) = o_iocharset opts) → c ≠ 115 → arg_ok c args →
  ∃ r opts' debug' m', numeric conv args set opts debug m = Ret (r, opts', debug', m') ∧ ended is_vfat p h m t r opts' m'.
Proof.
  intros Hm Hp Hconv Hset Hc (a & -> & Ha & Hr). unfold numeric. rewrite Hconv. destruct (match_number_spec a (base_of c) m) as (err & v & l & -> & Hl). cbn [mbind outcome_bind].
  destruct (Z.eqb_spec err 0) as [->|Hne]; cbn [negb].
  - eexists None, _, debug, _. split; [reflexivity|]. split; [cbn; rewrite Hp; by apply (holds_charset h opts _ m)|]. intros E. by destruct (Hl E) as (? & _).
  - eexists (Some 0), opts, debug, _. split; [reflexivity|]. assert (failing m ≠ []) as Hf.
    { intros E. destruct (Hl E) as (_ & Herr & _). destruct Hne. rewrite Herr, (Hr Hc). by destruct a. }
    split; [|done]. right. left. split; [done|]. split; [by apply (holds_charset h opts _ m)|done].
Qed.

Lemma charset_ok is_vfat p a opts (debug : bool) m h t :
  holds_text h opts m t → charset_arg is_vfat p = Some a →
  ∃ r opts' debug' m', (m ← (match o_iocharset opts with OnHeap a => kfree a m | DefaultCharset => Ret m end : outcome kmem);
    Ret (match match_strdup a m with (None, m) => (Some (- ENOMEM), opts, debug, m) | (Some p, m) => (None, with_iocharset (OnHeap p) opts, debug, m) end)) =
    Ret (r, opts', debug', m') ∧ ended is_vfat p h m t r opts' m'.
Proof.
  intros Hm Hp. assert (∃ m1, match o_iocharset opts with OnHeap a => kfree a m | DefaultCharset => Ret m end = Ret m1 ∧ heap m1 = h ∧ failing m1 = failing m) as (m1 & -> & Hh & Hf).
  { unfold holds_text in Hm. destruct (o_iocharset opts) as [|q], t as [s|]; try done; [by exists m|]. destruct Hm as [Hn Hs]. unfold kfree. rewrite Hs, lookup_insert_eq. eexists. split; [reflexivity|].
    cbn. split; [by rewrite delete_insert_eq, delete_id|done]. }
  assert (∀ l, dangles opts (Kmem h l)) as Hd by (intros l; unfold dangles, holds_text in *; destruct (o_iocharset opts), t; try done; by destruct Hm).
  cbn [mbind outcome_bind]. unfold match_strdup, kmalloc_str. rewrite Hf, Hh.
  assert (∀ l, (failing m = [] → l = []) → ended is_vfat p h m t None (with_iocharset (OnHeap (fresh (dom h))) opts) (Kmem (<[fresh (dom h) := a]> h) l)) as Hok.
  { intros l Hl. split; [|done]. cbn [charset_text foldl]. rewrite Hp. split; [apply not_elem_of_dom, is_fresh|done]. }
  destruct (failing m) as [|[] l] eqn:E.
  - eexists None, _, debug, _. split; [reflexivity|]. by apply Hok.
  - eexists (Some _), opts, debug, _. split; [reflexivity|]. split; [left|by rewrite E]. split; [done|]. split; [done|]. split; [done|by rewrite E].
  - eexists None, _, debug, _. split; [reflexivity|]. by apply Hok.
Qed.

Lemma set_option_ok is_vfat p tk args opts debug m h t :
  holds_text h opts m t → find_token is_vfat p = Ret (tk, args) → (∀ c, conv_of tk = Some c → arg_ok c args) →
  ∃ r opts' debug' m', set_option is_vfat tk args opts debug m = Ret (r, opts', debug', m') ∧ ended is_vfat p h m t r opts' m'.
Proof.
  intros Hm Hp Ha. pose proof (charset_found is_vfat p tk args Hp) as Hc. destruct (charset_arg is_vfat p) as [a|] eqn:Ea.
  { destruct Hc as [-> ->]. cbn [set_option]. by apply charset_ok. }
  destruct tk; try done; cbn [set_option conv_of] in *;
    try (eexists None, _, _, m; split; [reflexivity|]; split; [cbn; rewrite Ea; exact Hm|done]);
    try (by eapply (numeric_ok _ _ _ 117); [exact Hm|done|done|done|lia|apply Ha]); try (by eapply (numeric_ok _ _ _ 111); [exact Hm|done|done|done|lia|apply Ha]).
  - eexists None, _, _, m. split; [reflexivity|]. split; [cbn; rewrite Ea; by destruct is_vfat|done].
  - eexists (Some _), opts, debug, m. split; [reflexivity|]. split; [|done]. right; right. split; [done|]. split; [done|by exists args].
Qed.

(** How all of them may end; [n] of them were done. *)
Definition parsed_to (is_vfat : bool) (items : list (list Z)) (h : gmap Z (list Z)) (failed : Prop) (t : option (list Z)) (n : nat) (r : option Z) (opts' : mount_options) (m' : kmem) : Prop :=
  match r with
  | Some r => (r = - ENOMEM ∧ heap m' = h ∧ dangles opts' m' ∧ failed) ∨ (r = 0 ∧ holds_text h opts' m' (charset_text is_vfat t (take n items)) ∧ failed) ∨
              (r = - EINVAL ∧ holds_text h opts' m' (charset_text is_vfat t (take n items)) ∧ ∃ p args, items !! n = Some p ∧ find_token is_vfat p = Ret (Opt_err, args))
  | None => holds_text h opts' m' (charset_text is_vfat t items)
  end.

Lemma options_loop_ok fuel is_vfat options opts debug m h t :
  holds_text h opts m t → (match options with Some s => S (length s) | None => 0 end ≤ fuel)%nat →
  ∃ r opts' debug' m' n, options_loop fuel is_vfat options opts debug m = Ret (r, opts', debug', m') ∧
    parsed_to is_vfat (match options with Some s => pieces s | None => [] end) h (failing m ≠ []) t n r opts' m'.
Proof.
  revert options opts debug m t. induction fuel as [|fuel IH]; intros options opts debug m t Hm Hf; destruct options as [s|]; cbn [options_loop]; try lia;
    try (by eexists None, opts, debug, m, 0%nat; split; [reflexivity|]).
  unfold strsep. destruct (split_at 44 s) as [p rest] eqn:E. rewrite (pieces_split s p rest E).
  assert (match rest with Some s => S (length s) | None => 0 end ≤ fuel)%nat as Hr by (destruct rest as [u|]; [apply split_at_len in E|]; lia).
  set (items := match rest with Some r => pieces r | None => [] end) in *.
  assert (∀ t1 m1 r o2 m2 n, parsed_to is_vfat items h (failing m1 ≠ []) t1 n r o2 m2 → t1 = charset_text is_vfat t [p] → (failing m = [] → failing m1 = []) →
    parsed_to is_vfat (p :: items) h (failing m ≠ []) t (S n) r o2 m2) as Hcons.
  { intros t1 m1 r o2 m2 n H -> Hm1. destruct r as [r|]; unfold parsed_to in H |- *; [|exact H].
    change (charset_text is_vfat t (take (S n) (p :: items))) with (charset_text is_vfat (charset_text is_vfat t [p]) (take n items)). change ((p :: items) !! S n) with (items !! n). destruct H as [(-> & A & B & C)|[(-> & A & C)|(-> & A & q & ar & B & C)]].
    - left. split; [done|]. split; [done|]. split; [done|]. intros F. by apply C, Hm1.
    - right; left. split; [done|]. split; [exact A|]. intros F. by apply C, Hm1.
    - right; right. split; [done|]. split; [exact A|]. by exists q, ar. }
  destruct (Nat.eqb_spec (length p) 0) as [El|_].
  { destruct (IH rest opts debug m t Hm Hr) as (r & o2 & d2 & m2 & n & E2 & H2). exists r, o2, d2, m2, (S n). split; [exact E2|]. apply (Hcons t m); [exact H2| |done].
    destruct p; [by destruct is_vfat|done]. }
  destruct (find_token_ok is_vfat p) as (tk & args & Et & Ha). rewrite Et. cbn [mbind outcome_bind].
  destruct (set_option_ok is_vfat p tk args opts debug m h t Hm Et Ha) as (r & o1 & d1 & m1 & -> & Hend & Hf1). cbn [mbind outcome_bind].
  destruct r as [r|]; [exists (Some r), o1, d1, m1, 0%nat; split; [done|]; destruct Hend as [H|[H|(-> & H & ar & Ht)]]; [by left|by right; left|right; right; split; [done|]; split; [done|by exists p, ar]]|].
  destruct (IH rest o1 d1 m1 _ Hend Hr) as (r & o2 & d2 & m2 & n & E2 & H2). exists r, o2, d2, m2, (S n). split; [exact E2|]. by apply (Hcons (charset_text is_vfat t [p]) m1).
Qed.

Lemma parse_options_ok codepage uid gid umask options is_vfat m :
  let items := match options with Some s => pieces s | None => [] end in
  ∃ ret opts debug m' n, parse_options codepage uid gid umask options is_vfat m = Ret (ret, opts, debug, m') ∧
    ((ret = 0 ∧ holds_text (heap m) opts m' (charset_text is_vfat None (take n items)) ∧ (failing m = [] → take n items = items)) ∨
     (ret = - EINVAL ∧ holds_text (heap m) opts m' (charset_text is_vfat None (take n items)) ∧ ∃ p args, items !! n = Some p ∧ find_token is_vfat p = Ret (Opt_err, args)) ∨
     (ret = - ENOMEM ∧ heap m' = heap m ∧ dangles opts m' ∧ failing m ≠ [])).
Proof.
  intros items. unfold parse_options. set (o0 := default_options codepage uid gid umask is_vfat). assert (holds_text (heap m) o0 m None) as H0 by done.
  destruct options as [s|]; [|by eexists 0, o0, false, m, 0%nat; split; [reflexivity|]; left].
  destruct (options_loop_ok (S (length s)) is_vfat (Some s) o0 false m (heap m) None H0 ltac:(cbn; lia)) as (r & opts & debug & m' & n & -> & Hend). cbn [mbind outcome_bind].
  fold items in Hend. destruct r as [r|].
  - exists r, opts, debug, m', n. split; [done|]. destruct Hend as [H|[(-> & H & Hf)|H]]; [by right; right|left; by split; [|split]|by right; left].
  - eexists 0, _, debug, m', (length items). split; [reflexivity|]. left. rewrite take_ge by done. split; [done|]. split; [|done].
    eapply holds_charset; [exact Hend| |done]. by destruct (o_unicode_xlate opts).
Qed.

(** ** Claims *)

(** C19: [parse_options] returns for every text of options, whichever allocations
    fail, and frees nothing twice.  It returns 0, after all options unless an
    allocation failed, or -EINVAL at an option that is in neither table; then the
    memory holds what it held before and the one string the options point to, if
    they do, and this is the argument of the last iocharset option that was done.
    Or it returns -ENOMEM, only when an allocation failed; then that string is
    gone, and the options may still point to where it was. *)
Theorem parse_options_safe codepage uid gid umask options is_vfat m :
  let items := match options with Some s => pieces s | None => [] end in
  ∃ ret opts debug m' n, parse_options codepage uid gid umask options is_vfat m = Ret (ret, opts, debug, m') ∧
    ((ret = 0 ∧ holds_text (heap m) opts m' (charset_text is_vfat None (take n items)) ∧ (failing m = [] → take n items = items)) ∨
     (ret = - EINVAL ∧ holds_text (heap m) opts m' (charset_text is_vfat None (take n items)) ∧ ∃ p args, items !! n = Some p ∧ find_token is_vfat p = Ret (Opt_err, args)) ∨
     (ret = - ENOMEM ∧ heap m' = heap m ∧ dangles opts m' ∧ failing m ≠ [])).
Proof. apply parse_options_ok. Qed.
