(* ===== verification/FatShow.v ===== *)
(** Mount options that are shown and parsed again: what [fat_show_options] writes is
    a text of options that [parse_options] turns into the same options once the code
    page is written as the number it is, and refuses as it is. *)

From stdpp Require Import strings.
From S2P Require Import Prelude Ctype Vsprintf Parser FatLong FatOptions.

(** ** The text *)

Definition item_if (b : bool) (i : list Z) : list (list Z) := if b then [i] else [].

Definition short_items (name : Z) : list (list Z) :=
  if name =? 0x102 then [bytes_of "shortname=win95"] else if name =? 0x204 then [bytes_of "shortname=winnt"] else
  if name =? 0x104 then [bytes_of "shortname=mixed"] else if name =? 0x101 then [] else [bytes_of "shortname=unknown"].

Definition named_item (s : string) (name : option (list Z)) : list (list Z) := match name with Some n => [bytes_of s ++ n] | None => [] end.

Definition decimal (n : Z) : list Z := number_text (u64 (u32 n)) 10 (-1) (-1) 0.
Definition octal4 (n : Z) : list Z := number_text (u64 (u32 n)) 8 4 (-1) ZEROPAD.

Definition shown_items (o : mount_options) (nls_disk nls_io : option (list Z)) : list (list Z) :=
  item_if (negb (o_uid o =? 0)) (bytes_of "uid=" ++ decimal (o_uid o)) ++
  item_if (negb (o_gid o =? 0)) (bytes_of "gid=" ++ decimal (o_gid o)) ++
  [bytes_of "fmask=" ++ octal4 (o_fmask o)] ++
  [bytes_of "dmask=" ++ octal4 (o_dmask o)] ++
  named_item "codepage=" nls_disk ++
  (if o_isvfat o then named_item "iocharset=" nls_io ++ short_items (o_shortname o) else []) ++
  item_if (negb (o_name_check o =? 110)) (bytes_of "check=" ++ [u8 (o_name_check o)]) ++
  item_if (o_usefree o) (bytes_of "usefree") ++
  item_if (o_quiet o) (bytes_of "quiet") ++
  item_if (o_showexec o) (bytes_of "showexec") ++
  item_if (o_sys_immutable o) (bytes_of "sys_immutable") ++
  (if negb (o_isvfat o) then item_if (o_dotsOK o) (bytes_of "dotsOK=yes") ++ item_if (o_nocase o) (bytes_of "nocase")
   else item_if (o_utf8 o) (bytes_of "utf8") ++ item_if (o_unicode_xlate o) (bytes_of "uni_xlate") ++ item_if (negb (o_numtail o)) (bytes_of "nonumtail")).

Definition items_text (items : list (list Z)) : list Z := mjoin (cons 44 <$> items).

Lemma items_text_app a b : items_text (a ++ b) = items_text a ++ items_text b.
Proof. unfold items_text. by rewrite fmap_app, join_app. Qed.

(** ** What is written *)

(** The file holds [t] after what it held. *)
Definition wrote (m : seq_file) (t : list Z) (m' : seq_file) : Prop :=
  length (s_buf m') = length (s_buf m) ∧ s_count m' = s_count m + Z.of_nat (length t) ∧
  take (Z.to_nat (s_count m')) (s_buf m') = take (Z.to_nat (s_count m)) (s_buf m) ++ t.

Lemma wrote_nil m : wrote m [] m.
Proof. unfold wrote. rewrite app_nil_r. cbn. split; [done|]. split; [lia|done]. Qed.

Lemma wrote_app m t m1 t' m2 : wrote m t m1 → wrote m1 t' m2 → wrote m (t ++ t') m2.
Proof.
  intros (L1 & C1 & T1) (L2 & C2 & T2). split; [congruence|]. rewrite length_app. split; [lia|]. by rewrite T2, T1, (assoc_L (++)).
Qed.

Section written.
Context (addr : Z).

(** A file with room for more text. *)
Definition fits (m : seq_file) (t : list Z) : Prop := 0 ≤ s_count m ∧ s_count m + Z.of_nat (length t) < s_size m < 2 ^ 31 ∧ addr + s_size m < 2 ^ 64.

Lemma fits_wrote m t t' m' : fits m (t ++ t') → wrote m t m' → fits m' t'.
Proof. unfold fits, wrote, s_size. rewrite length_app. intros (? & ? & ?) (L & C & _). lia. Qed.

Lemma seq_printf_wrote f args t lens m : printed f args = Ret (t, lens) → fits m t → ∃ m', seq_printf addr f args m = Ret (0, m') ∧ wrote m t m'.
Proof.
  intros Hp (H0 & Hc & Ha). unfold seq_printf. destruct (Z.ltb_spec (s_count m) (s_size m)); [|lia]. set (b := drop (Z.to_nat (s_count m)) (s_buf m)).
  assert (Z.of_nat (length b) = s_size m - s_count m) as Hb by (unfold b, s_size in *; rewrite length_drop; lia).
  pose proof (vsnprintf_spec f args (addr + s_count m) b (s_size m - s_count m) ltac:(lia) ltac:(lia)) as Hv. rewrite Hp in Hv. rewrite Hv by lia. cbn [mbind outcome_bind].
  assert (s32 (Z.of_nat (length t)) = Z.of_nat (length t)) as -> by cint. destruct (Z.ltb_spec (s_count m + Z.of_nat (length t)) (s_size m)); [|lia].
  destruct (Z.eqb_spec (s_size m - s_count m) 0); [lia|]. eexists. split; [reflexivity|]. rewrite (take_ge t) by lia. rewrite Nat.min_l by lia. unfold wrote, s_size in *. cbn [s_buf s_count].
  assert (length (take (Z.to_nat (s_count m)) (s_buf m)) = Z.to_nat (s_count m)) as Ht by (rewrite length_take; lia).
  split; [rewrite !length_app, Ht; cbn [length]; rewrite length_drop; lia|]. split; [done|]. rewrite (assoc_L (++)). rewrite take_app_le by (rewrite length_app; lia). apply take_ge. rewrite length_app. lia.
Qed.

Lemma seq_puts_wrote s m : fits m s → wrote m s (seq_puts s m).2.
Proof.
  intros (H0 & Hc & Ha). unfold seq_puts. destruct (Z.ltb_spec (s_count m + Z.of_nat (length s)) (s_size m)); [|lia]. unfold wrote, s_size in *. cbn [snd s_buf s_count].
  assert (length (take (Z.to_nat (s_count m)) (s_buf m)) = Z.to_nat (s_count m)) as Ht by (rewrite length_take; lia).
  split; [rewrite !length_app, Ht, length_drop; lia|]. split; [done|]. rewrite (assoc_L (++)). rewrite take_app_le by (rewrite length_app; lia). apply take_ge. rewrite length_app. lia.
Qed.

(** One step of the function, and the steps after it. *)
Definition writes (t : list Z) (run : seq_file → outcome seq_file) : Prop := ∀ m, fits m t → ∃ m', run m = Ret m' ∧ wrote m t m'.

Lemma writes_bind t t' run next : writes t run → writes t' next → writes (t ++ t') (λ m, m ← run m; next m).
Proof.
  intros H1 H2 m Hf. destruct (H1 m) as (m1 & -> & W1); [unfold fits in *; rewrite length_app in Hf; lia|]. cbn [mbind outcome_bind].
  destruct (H2 m1) as (m2 & -> & W2); [by eapply fits_wrote|]. exists m2. split; [done|]. by eapply wrote_app.
Qed.

Lemma writes_nothing : writes [] Ret.
Proof. intros m _. exists m. split; [done|apply wrote_nil]. Qed.

Lemma print_if_writes b f args i lens : (b = true → printed (bytes_of f) args = Ret (44 :: i, lens)) → writes (items_text (item_if b i)) (print_if addr b f args).
Proof.
  intros Hp m Hf. unfold print_if. destruct b; [|exists m; split; [done|apply wrote_nil]]. cbn [item_if] in *. unfold items_text in *. cbn [fmap list_fmap mjoin list_join] in *. rewrite app_nil_r in *.
  destruct (seq_printf_wrote (bytes_of f) args (44 :: i) lens m (Hp eq_refl) Hf) as (m' & -> & W). by exists m'.
Qed.

Lemma puts_if_writes b s i : bytes_of s = 44 :: i → writes (items_text (item_if b i)) (puts_if b s).
Proof.
  intros Hs m Hf. unfold puts_if. destruct b; [|exists m; split; [done|apply wrote_nil]]. cbn [item_if] in *. unfold items_text in *. cbn [fmap list_fmap mjoin list_join] in *. rewrite app_nil_r in *.
  eexists. split; [done|]. rewrite Hs. by apply seq_puts_wrote.
Qed.
End written.

Lemma printed_uid u : printed (bytes_of ",uid=%u") [VInt u] = Ret (44 :: bytes_of "uid=" ++ decimal u, []).
Proof. rewrite <- (app_nil_r (decimal u)). reflexivity. Qed.

Lemma printed_gid u : printed (bytes_of ",gid=%u") [VInt u] = Ret (44 :: bytes_of "gid=" ++ decimal u, []).
Proof. rewrite <- (app_nil_r (decimal u)). reflexivity. Qed.

Lemma printed_fmask u : printed (bytes_of ",fmask=%04o") [VInt u] = Ret (44 :: bytes_of "fmask=" ++ octal4 u, []).
Proof. rewrite <- (app_nil_r (octal4 u)). reflexivity. Qed.

Lemma printed_dmask u : printed (bytes_of ",dmask=%04o") [VInt u] = Ret (44 :: bytes_of "dmask=" ++ octal4 u, []).
Proof. rewrite <- (app_nil_r (octal4 u)). reflexivity. Qed.

Lemma field_plain s : field_text 0 (-1) s = s.
Proof. unfold field_text. change (has 0 LEFT) with false. cbn iota zeta. by replace (Z.to_nat (-1 - Z.of_nat (length s))) with 0%nat by lia. Qed.

Lemma printed_codepage s : printed (bytes_of ",codepage=%s") [VStr (Some s)] = Ret (44 :: bytes_of "codepage=" ++ s, []).
Proof. rewrite <- (app_nil_r s) at 2. rewrite <- (field_plain s) at 2. reflexivity. Qed.

Lemma printed_iocharset s : printed (bytes_of ",iocharset=%s") [VStr (Some s)] = Ret (44 :: bytes_of "iocharset=" ++ s, []).
Proof. rewrite <- (app_nil_r s) at 2. rewrite <- (field_plain s) at 2. reflexivity. Qed.

Lemma printed_check c : printed (bytes_of ",check=%c") [VInt c] = Ret (44 :: bytes_of "check=" ++ [u8 c], []).
Proof. reflexivity. Qed.

Lemma named_writes addr f s name :
  (∀ n, printed (bytes_of f) [VStr (Some n)] = Ret (44 :: bytes_of s ++ n, [])) → writes addr (items_text (named_item s name)) (print_if addr (bool_decide (is_Some name)) f [VStr name]).
Proof.
  intros Hp. destruct name as [n|]; [|by intros m _; exists m; split; [|apply wrote_nil]]. exact (print_if_writes addr true f [VStr (Some n)] (bytes_of s ++ n) [] (λ _, Hp n)).
Qed.

Lemma short_writes addr name :
  writes addr (items_text (short_items name)) (λ m,
    if name =? Z.lor VFAT_SFN_DISPLAY_WIN95 VFAT_SFN_CREATE_WIN95 then puts_if true ",shortname=win95" m else
    if name =? Z.lor VFAT_SFN_DISPLAY_WINNT VFAT_SFN_CREATE_WINNT then puts_if true ",shortname=winnt" m else
    if name =? Z.lor VFAT_SFN_DISPLAY_WINNT VFAT_SFN_CREATE_WIN95 then puts_if true ",shortname=mixed" m else
    if name =? Z.lor VFAT_SFN_DISPLAY_LOWER VFAT_SFN_CREATE_WIN95 then Ret m else puts_if true ",shortname=unknown" m).
Proof.
  unfold short_items. change (Z.lor VFAT_SFN_DISPLAY_WIN95 VFAT_SFN_CREATE_WIN95) with 0x102. change (Z.lor VFAT_SFN_DISPLAY_WINNT VFAT_SFN_CREATE_WINNT) with 0x204.
  change (Z.lor VFAT_SFN_DISPLAY_WINNT VFAT_SFN_CREATE_WIN95) with 0x104. change (Z.lor VFAT_SFN_DISPLAY_LOWER VFAT_SFN_CREATE_WIN95) with 0x101.
  destruct (name =? 0x102); [by apply (puts_if_writes addr true)|]. destruct (name =? 0x204); [by apply (puts_if_writes addr true)|]. destruct (name =? 0x104); [by apply (puts_if_writes addr true)|].
  destruct (name =? 0x101); [apply writes_nothing|by apply (puts_if_writes addr true)].
Qed.

(** The options are shown as their text. *)
Lemma show_writes addr o nls_disk nls_io : writes addr (items_text (shown_items o nls_disk nls_io)) (fat_show_options addr o nls_disk nls_io).
Proof.
  unfold shown_items, fat_show_options. cbv zeta. rewrite !items_text_app.
  apply writes_bind; [apply print_if_writes with []; intros _; apply printed_uid|]. apply writes_bind; [apply print_if_writes with []; intros _; apply printed_gid|].
  apply writes_bind; [apply (print_if_writes addr true) with []; intros _; apply printed_fmask|]. apply writes_bind; [apply (print_if_writes addr true) with []; intros _; apply printed_dmask|].
  apply writes_bind; [apply named_writes, printed_codepage|]. apply writes_bind.
  { destruct (o_isvfat o); [|apply writes_nothing]. rewrite items_text_app. apply writes_bind; [apply named_writes, printed_iocharset|apply short_writes]. }
  apply writes_bind; [apply print_if_writes with []; intros _; apply printed_check|].
  do 4 (apply writes_bind; [by apply puts_if_writes|]). destruct (o_isvfat o); cbn [negb]; rewrite !items_text_app.
  - do 2 (apply writes_bind; [by apply puts_if_writes|]). by apply puts_if_writes.
  - apply writes_bind; by apply puts_if_writes.
Qed.

(** ** Parsing the text *)

Fixpoint run_items (is_vfat : bool) (items : list (list Z)) (opts : mount_options) (debug : bool) (m : kmem) : outcome parsed_one :=
  match items with
  | [] => Ret (None, opts, debug, m)
  | p :: items =>
    '(token, args) ← find_token is_vfat p;
    '(ret, opts, debug, m) ← set_option is_vfat token args opts debug m;
    match ret with Some r => Ret (Some r, opts, debug, m) | None => run_items is_vfat items opts debug m end
  end.

Definition is_item (p : list Z) : Prop := p ≠ [] ∧ 44 ∉ p.

Lemma options_joined is_vfat fuel items opts debug m :
  Forall is_item items → (length items ≤ fuel)%nat →
  options_loop fuel is_vfat (match items with [] => None | i :: l => Some (i ++ items_text l) end) opts debug m = run_items is_vfat items opts debug m.
Proof.
  intros Hi. revert fuel opts debug m. induction Hi as [|p items [Hne Hp] Hi IH]; intros fuel opts debug m Hf; cbn [run_items]; [by destruct fuel|].
  destruct fuel as [|fuel]; [cbn in Hf; lia|]. cbn [options_loop length] in *.
  assert (strsep (p ++ items_text items) = (p, match items with [] => None | i :: l => Some (i ++ items_text l) end)) as ->.
  { destruct (split_at_join 44 p Hp) as [E1 E2]. unfold strsep. destruct items as [|i l]; [by rewrite app_nil_r|]. apply E2. }
  destruct (Nat.eqb_spec (length p) 0) as [E|]; [by destruct p|]. destruct (find_token is_vfat p) as [[t args]| | |]; [|done..]. cbn [mbind outcome_bind].
  destruct (set_option is_vfat t args opts debug m) as [[[[r o'] d'] m']| | |]; [|done..]. cbn [mbind outcome_bind]. destruct r; [done|]. apply IH. lia.
Qed.

Lemma parse_items codepage uid gid umask is_vfat items m :
  Forall is_item items →
  parse_options codepage uid gid umask (Some (items_text items)) is_vfat m =
  ('(ret, opts, debug, m) ← run_items is_vfat items (default_options codepage uid gid umask is_vfat) false m;
   Ret (match ret with Some r => (r, opts, debug, m) | None => (0, if o_unicode_xlate opts then with_utf8 false opts else opts, debug, m) end)).
Proof.
  intros Hi. unfold parse_options. set (o0 := default_options _ _ _ _ _). clearbody o0. destruct items as [|p items]; [done|].
  assert (options_loop (S (length (items_text (p :: items)))) is_vfat (Some (items_text (p :: items))) o0 false m = run_items is_vfat (p :: items) o0 false m) as ->; [|done].
  rewrite <- (options_joined is_vfat (length (items_text (p :: items)))); [done|done|]. clear. unfold items_text. induction (p :: items) as [|q l IH]; [done|].
  change (mjoin (cons 44 <$> q :: l)) with ((44 :: q) ++ mjoin (cons 44 <$> l)). rewrite length_app. cbn [length]. lia.
Qed.

Lemma run_app is_vfat a b opts debug m opts' debug' m' :
  run_items is_vfat a opts debug m = Ret (None, opts', debug', m') → run_items is_vfat (a ++ b) opts debug m = run_items is_vfat b opts' debug' m'.
Proof.
  revert opts debug m. induction a as [|p a IH]; intros opts debug m; cbn [run_items app]; [by intros [= -> -> ->]|].
  destruct (find_token is_vfat p) as [[t args]| | |]; [|done..]. cbn [mbind outcome_bind].
  destruct (set_option is_vfat t args opts debug m) as [[[[r o'] d'] m0]| | |]; [|done..]. cbn [mbind outcome_bind]. destruct r; [done|]. apply IH.
Qed.

(** ** One option *)

Lemma number_text_digits n base width : base = 8 ∨ base = 10 → 0 ≤ n → number_text n base width (-1) ZEROPAD ≠ [] ∧ 44 ∉ number_text n base width (-1) ZEROPAD.
Proof.
  intros Hb Hn. destruct (number_shape n base width (-1) ZEROPAD eq_refl ltac:(by left)) as [k ->]. assert (prefix_text base ZEROPAD = []) as -> by done.
  change (sign_text n ZEROPAD) with (@nil Z). cbn [app]. unfold digits_text. change (has ZEROPAD SIGN) with false. cbn [andb]. split; [apply digits_nonempty|].
  intros Hin. pose proof (digits_are n (has ZEROPAD LARGE) base k ltac:(lia)) as H. unfold is_digit_text in H. rewrite Forall_forall in H. by destruct (H 44 Hin) as [? _].
Qed.

Lemma decimal_ok n : decimal n ≠ [] ∧ 44 ∉ decimal n.
Proof.
  unfold decimal. destruct (number_shape (u64 (u32 n)) 10 (-1) (-1) 0 eq_refl ltac:(by right)) as [k ->]. change (sign_text (u64 (u32 n)) 0) with (@nil Z). change (prefix_text 10 0) with (@nil Z).
  cbn [app]. unfold digits_text. change (has 0 SIGN) with false. cbn [andb]. split; [apply digits_nonempty|].
  intros Hin. pose proof (digits_are (u64 (u32 n)) (has 0 LARGE) 10 k ltac:(lia)) as H. unfold is_digit_text in H. rewrite Forall_forall in H. by destruct (H 44 Hin) as [? _].
Qed.

Lemma decimal_read n : 0 ≤ n < 2 ^ 32 → simple_strtoul (decimal n) 0 = (n, []).
Proof.
  intros Hn. unfold decimal. rewrite strtoul_decimal by (apply (wrapu_range 64); lia). rewrite (wrapu_small 32), wrapu_small by lia. done.
Qed.

Lemma octal_read n : 0 ≤ n < 2 ^ 16 → simple_strtoul (octal4 n) 8 = (n, []).
Proof.
  intros Hn. unfold octal4. assert (u64 (u32 n) = n) as -> by (rewrite (wrapu_small 32), wrapu_small by lia; done).
  pose proof (strtoul_number n 8 4 (-1) ZEROPAD [] ltac:(by left) ltac:(lia) eq_refl ltac:(by left) I eq_refl) as H. by rewrite app_nil_r in H.
Qed.

Lemma match_unsigned s v (c base : Z) : c = 117 ∧ base = 0 ∨ c = 111 ∧ base = 8 → s ≠ [] → simple_strtoul s base = (v, []) → match_arg c (-1) s = Some (s, []).
Proof.
  intros Hc Hs E. destruct Hc as [[-> ->]|[-> ->]]; unfold match_arg; cbn [Z.eqb Pos.eqb]; rewrite E; cbn [snd length]; destruct (length s) as [|k] eqn:El; try (by destruct s);
    cbn [Nat.eqb]; rewrite Nat.sub_0_r, take_ge by lia; done.
Qed.

Lemma find_argument is_vfat s p pre c base v t tail :
  match_token (pre ++ s) fat_tokens = (r ← match_one (pre ++ s) (Some p); match r with Some args => Ret (t, args) | None => tail end) →
  split_at 37 p = (pre, Some [c]) → c = 117 ∧ base = 0 ∨ c = 111 ∧ base = 8 → t ≠ Opt_err → s ≠ [] → simple_strtoul s base = (v, []) →
  find_token is_vfat (pre ++ s) = Ret (t, [s]).
Proof.
  intros Ht Hp Hc Hne Hs Hv. unfold find_token. rewrite Ht, (match_one_arg _ p pre c Hp) by (destruct Hc as [[-> _]|[-> _]]; done).
  rewrite (proj2 (after_prefix_spec pre (pre ++ s) s) eq_refl), (match_unsigned s v c base Hc Hs Hv). cbn [mbind outcome_bind]. by rewrite bool_decide_false.
Qed.

Lemma read_number s base v h : base = 0 ∨ base = 8 → s ≠ [] → simple_strtoul s base = (v, []) → match_number s base (Kmem h []) = Ret (0, s32 (s64 v), Kmem h []).
Proof.
  intros Hb Hs Hv. destruct (match_number_spec s base (Kmem h [])) as (err & x & l & -> & H). destruct (H eq_refl) as (-> & -> & ->). rewrite (strtol_same s base v Hb Hs Hv).
  cbn [fst snd length heap]. destruct (length s) eqn:E; [by destruct s|]. done.
Qed.

(** A number as an option of the common table. *)
Lemma run_number is_vfat s p pre c base v t set opts debug h tail :
  match_token (pre ++ s) fat_tokens = (r ← match_one (pre ++ s) (Some p); match r with Some args => Ret (t, args) | None => tail end) →
  split_at 37 p = (pre, Some [c]) → c = 117 ∧ base = 0 ∨ c = 111 ∧ base = 8 → t ≠ Opt_err → s ≠ [] → simple_strtoul s base = (v, []) →
  (∀ m, set_option is_vfat t [s] opts debug m = numeric (λ a, match_number a base) [s] set opts debug m) →
  run_items is_vfat [pre ++ s] opts debug (Kmem h []) = Ret (None, set (s32 (s64 v)) opts, debug, Kmem h []).
Proof.
  intros Ht Hp Hc Hne Hs Hv Hset. cbn [run_items]. rewrite (find_argument is_vfat s p pre c base v t tail Ht Hp Hc Hne Hs Hv). cbn [mbind outcome_bind]. rewrite Hset. unfold numeric.
  rewrite (read_number s base v h); [done|lia|done|done].
Qed.

Lemma run_uid is_vfat u opts debug h : 0 ≤ u < 2 ^ 32 → run_items is_vfat [bytes_of "uid=" ++ decimal u] opts debug (Kmem h []) = Ret (None, with_uid u opts, debug, Kmem h []).
Proof.
  intros Hu. replace (with_uid u opts) with (with_uid (u32 (s32 (s64 u))) opts) by (f_equal; cint).
  apply (run_number is_vfat (decimal u) (bytes_of "uid=%u") (bytes_of "uid=") 117 0 u Opt_uid (λ v, with_uid (u32 v)) opts debug h (match_token (bytes_of "uid=" ++ decimal u) (drop 7 fat_tokens)));
    [reflexivity|reflexivity|by left|done|apply decimal_ok|by apply decimal_read|done].
Qed.

Lemma run_gid is_vfat u opts debug h : 0 ≤ u < 2 ^ 32 → run_items is_vfat [bytes_of "gid=" ++ decimal u] opts debug (Kmem h []) = Ret (None, with_gid u opts, debug, Kmem h []).
Proof.
  intros Hu. replace (with_gid u opts) with (with_gid (u32 (s32 (s64 u))) opts) by (f_equal; cint).
  apply (run_number is_vfat (decimal u) (bytes_of "gid=%u") (bytes_of "gid=") 117 0 u Opt_gid (λ v, with_gid (u32 v)) opts debug h (match_token (bytes_of "gid=" ++ decimal u) (drop 8 fat_tokens)));
    [reflexivity|reflexivity|by left|done|apply decimal_ok|by apply decimal_read|done].
Qed.

Lemma run_fmask is_vfat u opts debug h : 0 ≤ u < 2 ^ 16 → run_items is_vfat [bytes_of "fmask=" ++ octal4 u] opts debug (Kmem h []) = Ret (None, with_fmask u opts, debug, Kmem h []).
Proof.
  intros Hu. replace (with_fmask u opts) with (with_fmask (u16 (s32 (s64 u))) opts) by (f_equal; cint).
  apply (run_number is_vfat (octal4 u) (bytes_of "fmask=%o") (bytes_of "fmask=") 111 8 u Opt_fmask (λ v, with_fmask (u16 v)) opts debug h (match_token (bytes_of "fmask=" ++ octal4 u) (drop 11 fat_tokens)));
    [reflexivity|reflexivity|by right|done| |by apply octal_read|done].
  apply number_text_digits; [by left|apply (wrapu_range 64); lia].
Qed.

Lemma run_dmask is_vfat u opts debug h : 0 ≤ u < 2 ^ 16 → run_items is_vfat [bytes_of "dmask=" ++ octal4 u] opts debug (Kmem h []) = Ret (None, with_dmask u opts, debug, Kmem h []).
Proof.
  intros Hu. replace (with_dmask u opts) with (with_dmask (u16 (s32 (s64 u))) opts) by (f_equal; cint).
  apply (run_number is_vfat (octal4 u) (bytes_of "dmask=%o") (bytes_of "dmask=") 111 8 u Opt_dmask (λ v, with_dmask (u16 v)) opts debug h (match_token (bytes_of "dmask=" ++ octal4 u) (drop 10 fat_tokens)));
    [reflexivity|reflexivity|by right|done| |by apply octal_read|done].
  apply number_text_digits; [by left|apply (wrapu_range 64); lia].
Qed.

Lemma run_codepage is_vfat u opts debug h : 0 ≤ u < 2 ^ 16 → run_items is_vfat [bytes_of "codepage=" ++ decimal u] opts debug (Kmem h []) = Ret (None, with_codepage u opts, debug, Kmem h []).
Proof.
  intros Hu. replace (with_codepage u opts) with (with_codepage (u16 (s32 (s64 u))) opts) by (f_equal; cint).
  apply (run_number is_vfat (decimal u) (bytes_of "codepage=%u") (bytes_of "codepage=") 117 0 u Opt_codepage (λ v, with_codepage (u16 v)) opts debug h (match_token (bytes_of "codepage=" ++ decimal u) (drop 12 fat_tokens)));
    [reflexivity|reflexivity|by left|done|apply decimal_ok|apply decimal_read; lia|done].
Qed.

Lemma run_charset n opts debug h :
  n ≠ [] → o_iocharset opts = DefaultCharset →
  run_items true [bytes_of "iocharset=" ++ n] opts debug (Kmem h []) = Ret (None, with_iocharset (OnHeap (fresh (dom h))) opts, debug, Kmem (<[fresh (dom h) := n]> h) []).
Proof.
  intros Hn Ho. cbn [run_items]. rewrite find_charset by done. cbn [mbind outcome_bind set_option]. by rewrite Ho.
Qed.

Lemma run_short name opts debug m :
  o_shortname opts = 0x101 → name ∈ [0x101; 0x102; 0x104; 0x204] → run_items true (short_items name) opts debug m = Ret (None, with_shortname name opts, debug, m).
Proof.
  intros Ho Hn. assert (name = 0x101 ∨ name = 0x102 ∨ name = 0x104 ∨ name = 0x204) as [->|[->|[->| ->]]] by set_solver; try reflexivity.
  cbn. rewrite <- Ho. by destruct opts.
Qed.

Lemma run_check is_vfat c opts debug m : c = 114 ∨ c = 115 → run_items is_vfat [bytes_of "check=" ++ [u8 c]] opts debug m = Ret (None, with_name_check c opts, debug, m).
Proof. by intros [->| ->]. Qed.

Lemma run_if is_vfat (b : bool) i rest opts debug m opts' m' R :
  (b = true → run_items is_vfat [i] opts debug m = Ret (None, opts', debug, m')) → (b = false → (opts', m') = (opts, m)) →
  run_items is_vfat rest opts' debug m' = R → run_items is_vfat (item_if b i ++ rest) opts debug m = R.
Proof. intros Ht Hf <-. destruct b; [by apply run_app, Ht|]. by injection (Hf eq_refl) as -> ->. Qed.

(** ** The round trip *)

(** Options that a mount can have and that are shown; [flush] is not, and is off. *)
Record shown_ok (o : mount_options) : Prop := {
  ok_uid : 0 ≤ o_uid o < 2 ^ 32; ok_gid : 0 ≤ o_gid o < 2 ^ 32; ok_fmask : 0 ≤ o_fmask o < 2 ^ 16; ok_dmask : 0 ≤ o_dmask o < 2 ^ 16;
  ok_check : o_name_check o = 110 ∨ o_name_check o = 114 ∨ o_name_check o = 115;
  ok_codepage : 0 ≤ o_codepage o < 2 ^ 16;
  ok_flush : o_flush o = false;
  ok_kind : if o_isvfat o then o_shortname o ∈ [0x101; 0x102; 0x104; 0x204] ∧ o_dotsOK o = false ∧ o_nocase o = false ∧ (o_unicode_xlate o = true → o_utf8 o = false)
            else o_shortname o = 0 ∧ o_utf8 o = false ∧ o_unicode_xlate o = false ∧ o_numtail o = true
}.

(** The options that are parsed: the character set is a copy of its name, or the
    default. *)
Definition parsed_as (nls_io : option (list Z)) (h : gmap Z (list Z)) (o : mount_options) : mount_options * gmap Z (list Z) :=
  match (if o_isvfat o then nls_io else None) with
  | Some n => (with_iocharset (OnHeap (fresh (dom h))) o, <[fresh (dom h) := n]> h)
  | None => (with_iocharset DefaultCharset o, h)
  end.

(** The items up to those that differ between the two kinds of file system. *)
Lemma run_common codepage umask nls_io h o rest R :
  shown_ok o → (∀ n, nls_io = Some n → n ≠ []) →
  (let '(p, h') := parsed_as nls_io h o in
   run_items (o_isvfat o) rest (MountOptions (o_uid o) (o_gid o) (o_fmask o) (o_dmask o) (o_codepage o) (o_iocharset p) (o_shortname o) (o_name_check o)
     (o_quiet o) (o_showexec o) (o_sys_immutable o) false (o_isvfat o) false false true false false (o_usefree o)) false (Kmem h' []) = R) →
  run_items (o_isvfat o)
    (item_if (negb (o_uid o =? 0)) (bytes_of "uid=" ++ decimal (o_uid o)) ++ item_if (negb (o_gid o =? 0)) (bytes_of "gid=" ++ decimal (o_gid o)) ++
     [bytes_of "fmask=" ++ octal4 (o_fmask o)] ++ [bytes_of "dmask=" ++ octal4 (o_dmask o)] ++ named_item "codepage=" (Some (decimal (o_codepage o))) ++
     (if o_isvfat o then named_item "iocharset=" nls_io ++ short_items (o_shortname o) else []) ++
     item_if (negb (o_name_check o =? 110)) (bytes_of "check=" ++ [u8 (o_name_check o)]) ++ item_if (o_usefree o) (bytes_of "usefree") ++ item_if (o_quiet o) (bytes_of "quiet") ++
     item_if (o_showexec o) (bytes_of "showexec") ++ item_if (o_sys_immutable o) (bytes_of "sys_immutable") ++ rest)
    (default_options codepage 0 0 umask (o_isvfat o)) false (Kmem h []) = R.
Proof.
  intros [Hu Hg Hfm Hdm Hch Hcp Hfl Hk] Hn HR.
  eapply run_if; [intros _; by apply run_uid|intros E%negb_false_iff%Z.eqb_eq; by rewrite E|]. eapply run_if; [intros _; by apply run_gid|intros E%negb_false_iff%Z.eqb_eq; by rewrite E|].
  eapply (run_if _ true); [intros _; by apply run_fmask|done|]. eapply (run_if _ true); [intros _; by apply run_dmask|done|]. eapply (run_if _ true); [intros _; by apply run_codepage|done|].
  assert (∀ c h', (let '(p, h'') := parsed_as nls_io h o in c = o_iocharset p ∧ h' = h'') → ∀ dbg, dbg = false →
    run_items (o_isvfat o) (item_if (negb (o_name_check o =? 110)) (bytes_of "check=" ++ [u8 (o_name_check o)]) ++ item_if (o_usefree o) (bytes_of "usefree") ++
      item_if (o_quiet o) (bytes_of "quiet") ++ item_if (o_showexec o) (bytes_of "showexec") ++ item_if (o_sys_immutable o) (bytes_of "sys_immutable") ++ rest)
      (MountOptions (o_uid o) (o_gid o) (o_fmask o) (o_dmask o) (o_codepage o) c (o_shortname o) 110 false false false false (o_isvfat o) false false true false false false) dbg (Kmem h' []) = R) as Hrest.
  { intros c h' Hc dbg ->. destruct (parsed_as nls_io h o) as [p h'']. destruct Hc as [-> ->].
    eapply run_if; [intros E%negb_true_iff%Z.eqb_neq; apply run_check; lia|intros E%negb_false_iff%Z.eqb_eq; by rewrite E|].
    eapply (run_if _ (o_usefree o) _ _ _ _ _ (with_usefree (o_usefree o) _)); [intros ->; reflexivity|by intros ->|].
    eapply (run_if _ (o_quiet o) _ _ _ _ _ (with_quiet (o_quiet o) _)); [intros ->; reflexivity|by intros ->|].
    eapply (run_if _ (o_showexec o) _ _ _ _ _ (with_showexec (o_showexec o) _)); [intros ->; reflexivity|by intros ->|].
    eapply (run_if _ (o_sys_immutable o) _ _ _ _ _ (with_sys_immutable (o_sys_immutable o) _)); [intros ->; reflexivity|by intros ->|]. exact HR. }
  unfold parsed_as in Hrest. destruct (o_isvfat o).
  - destruct Hk as (Hsh & _). destruct nls_io as [n|]; cbn [named_item app]; rewrite <- ?(assoc_L (++)).
    + eapply (run_if _ true); [intros _; apply run_charset; [by apply Hn|done]|done|]. erewrite run_app by (apply run_short; [reflexivity|done]). by apply Hrest.
    + erewrite run_app by (apply run_short; [reflexivity|done]). by apply Hrest.
  - destruct Hk as (Hsh & _). cbn [app]. rewrite Hsh in Hrest. by apply Hrest.
Qed.

(** *** The items are items *)

Lemma no_comma s : bool_decide (44 ∉ bytes_of s) = true → 44 ∉ bytes_of s.
Proof. intros H. by apply bool_decide_eq_true in H. Qed.

Lemma literal_item s : bool_decide (bytes_of s ≠ [] ∧ 44 ∉ bytes_of s) = true → is_item (bytes_of s).
Proof. intros H. by apply bool_decide_eq_true in H. Qed.

Lemma argument_item s t : bool_decide (44 ∉ bytes_of s) = true → t ≠ [] ∧ 44 ∉ t → is_item (bytes_of s ++ t).
Proof.
  intros Hs%no_comma [Ht Hc]. split; [intros E; by apply app_nil in E as [_ ?]|]. by apply not_elem_of_app.
Qed.

Lemma item_if_items b i : (b = true → is_item i) → Forall is_item (item_if b i).
Proof. intros H. destruct b; [constructor; [by apply H|constructor]|constructor]. Qed.

Lemma shown_are_items o nls_disk nls_io :
  shown_ok o → (∀ n, nls_disk = Some n → n ≠ [] ∧ 44 ∉ n) → (∀ n, nls_io = Some n → n ≠ [] ∧ 44 ∉ n) → Forall is_item (shown_items o nls_disk nls_io).
Proof.
  intros Ho Hd Hn. unfold shown_items. repeat (apply Forall_app; split); try (apply item_if_items; intros _; by apply literal_item).
  - apply item_if_items. intros _. apply argument_item; [done|apply decimal_ok].
  - apply item_if_items. intros _. apply argument_item; [done|apply decimal_ok].
  - constructor; [|done]. apply argument_item; [done|]. apply number_text_digits; [by left|apply (wrapu_range 64); lia].
  - constructor; [|done]. apply argument_item; [done|]. apply number_text_digits; [by left|apply (wrapu_range 64); lia].
  - destruct nls_disk as [n|]; [|done]. constructor; [|done]. apply argument_item; [done|by apply Hd].
  - destruct (o_isvfat o); [|done]. apply Forall_app. split.
    + destruct nls_io as [n|]; [|done]. constructor; [|done]. apply argument_item; [done|by apply Hn].
    + unfold short_items. repeat case_match; repeat constructor; by apply literal_item.
  - apply item_if_items. intros _. apply argument_item; [done|]. destruct (ok_check o Ho) as [->|[->| ->]]; split; try done; by apply (bool_decide_unpack (44 ∉ _)).
  - destruct (o_isvfat o); cbn [negb]; repeat (apply Forall_app; split); apply item_if_items; intros _; by apply literal_item.
Qed.

(** The items of one kind of file system. *)
Lemma run_kind opts debug m o :
  opts = with_dotsOK false (with_utf8 false (with_unicode_xlate false (with_numtail true (with_flush false (with_nocase false opts))))) →
  run_items (o_isvfat o)
    (if negb (o_isvfat o) then item_if (o_dotsOK o) (bytes_of "dotsOK=yes") ++ item_if (o_nocase o) (bytes_of "nocase")
     else item_if (o_utf8 o) (bytes_of "utf8") ++ item_if (o_unicode_xlate o) (bytes_of "uni_xlate") ++ item_if (negb (o_numtail o)) (bytes_of "nonumtail")) opts debug m =
  Ret (None, if o_isvfat o then with_utf8 (o_utf8 o) (with_unicode_xlate (o_unicode_xlate o) (with_numtail (o_numtail o) opts))
             else with_dotsOK (o_dotsOK o) (with_nocase (o_nocase o) opts), debug, m).
Proof.
  intros E. rewrite E. destruct (o_isvfat o); cbn [negb].
  - destruct (o_utf8 o), (o_unicode_xlate o), (o_numtail o); reflexivity.
  - destruct (o_dotsOK o), (o_nocase o); reflexivity.
Qed.

(** Parsing the text of the options, with the code page as a number. *)
Lemma parse_shown codepage umask nls_io h o :
  shown_ok o → (∀ n, nls_io = Some n → n ≠ [] ∧ 44 ∉ n) →
  parse_options codepage 0 0 umask (Some (items_text (shown_items o (Some (decimal (o_codepage o))) nls_io))) (o_isvfat o) (Kmem h []) =
  Ret (0, (parsed_as nls_io h o).1, false, Kmem (parsed_as nls_io h o).2 []).
Proof.
  intros Ho Hn. rewrite parse_items by (apply shown_are_items; [done|intros n E; apply (inj Some) in E as <-; apply decimal_ok|done]).
  assert (∀ c h', parsed_as nls_io h o = (with_iocharset c o, h') → ∀ R,
    Ret (None, with_iocharset c o, false, Kmem h' []) = R →
    run_items (o_isvfat o) (shown_items o (Some (decimal (o_codepage o))) nls_io) (default_options codepage 0 0 umask (o_isvfat o)) false (Kmem h []) = R) as H.
  { intros c h' Ep R HR. unfold shown_items. apply run_common; [done|intros n E; by apply Hn|]. rewrite Ep, <- HR. rewrite run_kind by done. destruct Ho as [_ _ _ _ _ _ Hfl Hk]. destruct o as [uid gid fm dm cp io sh nc q se si dk vf u8' ux nt fl ncs uf]; cbn in *.
    destruct vf; cbn in *; naive_solver. }
  assert (∃ c h', parsed_as nls_io h o = (with_iocharset c o, h')) as (c & h' & Ep) by (unfold parsed_as; case_match; by eexists _, _).
  rewrite Ep. rewrite (H c h' Ep _ eq_refl). cbn [mbind outcome_bind fst snd]. destruct Ho as [_ _ _ _ _ _ _ Hk]. do 4 f_equal. destruct o as [uid gid fm dm cp io sh nc q se si dk vf u8' ux nt fl ncs uf]; cbn in *. destruct vf, ux; naive_solver.
Qed.

Lemma codepage_refused codepage umask number nls_io o h :
  shown_ok o → (∀ n, nls_io = Some n → n ≠ [] ∧ 44 ∉ n) → 44 ∉ number →
  ∃ opts, parse_options codepage 0 0 umask (Some (items_text (shown_items o (Some (bytes_of "cp" ++ number)) nls_io))) (o_isvfat o) (Kmem h []) =
    Ret (- EINVAL, opts, false, Kmem h []).
Proof.
  intros Ho Hn Hnum. rewrite parse_items.
  2:{ apply shown_are_items; [done| |done]. intros n E. apply (inj Some) in E as <-. split; [done|]. apply not_elem_of_app. split; [by apply no_comma|done]. }
  eexists. unfold shown_items. assert (∀ opts rest, run_items (o_isvfat o) (named_item "codepage=" (Some (bytes_of "cp" ++ number)) ++ rest) opts false (Kmem h []) = Ret (Some (- EINVAL), opts, false, Kmem h [])) as Hcp.
  { intros opts rest. cbn [named_item app run_items]. assert (find_token (o_isvfat o) (bytes_of "codepage=" ++ bytes_of "cp" ++ number) = Ret (Opt_err, [])) as ->; [|done].
    set (s := bytes_of "cp" ++ number). unfold find_token. assert (match_token (bytes_of "codepage=" ++ s) fat_tokens = (r ← match_one (bytes_of "codepage=" ++ s) (Some (bytes_of "codepage=%u"));
      match r with Some args => Ret (Opt_codepage, args) | None => match_token (bytes_of "codepage=" ++ s) (drop 12 fat_tokens) end)) as -> by reflexivity.
    rewrite (match_one_arg (bytes_of "codepage=" ++ s) (bytes_of "codepage=%u") (bytes_of "codepage=") 117 eq_refl eq_refl ltac:(lia)), (proj2 (after_prefix_spec _ (bytes_of "codepage=" ++ s) s) eq_refl).
    assert (match_arg 117 (-1) s = None) as ->; [|by destruct (o_isvfat o)]. unfold match_arg. cbn [Z.eqb Pos.eqb]. assert (simple_strtoul s 0 = (0, s)) as -> by reflexivity. cbn [snd]. by rewrite Nat.eqb_refl. }
  destruct Ho as [Hu Hg Hfm Hdm _ _ _ _].
  erewrite run_if; [|intros _; by apply run_uid|intros E%negb_false_iff%Z.eqb_eq; by rewrite E|reflexivity].
  erewrite run_if; [|intros _; by apply run_gid|intros E%negb_false_iff%Z.eqb_eq; by rewrite E|reflexivity].
  erewrite run_app by (by apply run_fmask). erewrite run_app by (by apply run_dmask). rewrite Hcp. reflexivity.
Qed.

(** Where the code page stands in the text. *)
Lemma text_around a b c d s n rest :
  items_text (a ++ b ++ c ++ d ++ named_item s (Some n) ++ rest) = (items_text a ++ items_text b ++ items_text c ++ items_text d) ++ (44 :: bytes_of s) ++ n ++ items_text rest.
Proof.
  rewrite !items_text_app. rewrite <- !app_assoc. do 4 f_equal. unfold items_text at 1. cbn [named_item fmap list_fmap mjoin list_join app]. rewrite app_nil_r. by rewrite <- app_assoc.
Qed.

Lemma shown_around o nls_io : ∃ pre post, ∀ n, items_text (shown_items o (Some n) nls_io) = pre ++ bytes_of ",codepage=" ++ n ++ post.
Proof. eexists _, _. intros n. unfold shown_items. apply text_around. Qed.

(** ** Claims *)

(** C15: What a mounted volume shows of its options is the text of them, except for
    two letters.  For options of either kind of file system without [flush], a table
    for the disk named after the code page of the options, and a file with room,
    [fat_show_options] writes a text in which the code page stands as the letters cp
    and its number.  [parse_options] of root refuses this text with [-EINVAL]; without these
    two letters it turns it into the options it was written for, code page and masks
    and all, with a copy of the name of the character set as [iocharset]. *)
Theorem options_roundtrip codepage umask addr nls_io o m h :
  shown_ok o → (∀ n, nls_io = Some n → n ≠ [] ∧ 44 ∉ n) → let nls_disk := bytes_of "cp" ++ decimal (o_codepage o) in
  fits addr m (items_text (shown_items o (Some nls_disk) nls_io)) →
  ∃ m' pre post opts, fat_show_options addr o (Some nls_disk) nls_io m = Ret m' ∧ s_count m ≤ s_count m' < s_size m' ∧
    drop (Z.to_nat (s_count m)) (take (Z.to_nat (s_count m')) (s_buf m')) = pre ++ bytes_of ",codepage=" ++ bytes_of "cp" ++ decimal (o_codepage o) ++ post ∧
    parse_options codepage 0 0 umask (Some (pre ++ bytes_of ",codepage=" ++ bytes_of "cp" ++ decimal (o_codepage o) ++ post)) (o_isvfat o) (Kmem h []) =
      Ret (- EINVAL, opts, false, Kmem h []) ∧
    parse_options codepage 0 0 umask (Some (pre ++ bytes_of ",codepage=" ++ decimal (o_codepage o) ++ post)) (o_isvfat o) (Kmem h []) =
      Ret (0, (parsed_as nls_io h o).1, false, Kmem (parsed_as nls_io h o).2 []).
Proof.
  intros Ho Hn nls_disk Hf. destruct (show_writes addr o (Some nls_disk) nls_io m Hf) as (m' & E & L & C & T). destruct Hf as (H0 & Hc & _). unfold s_size in *.
  destruct (codepage_refused codepage umask (decimal (o_codepage o)) nls_io o h Ho Hn (proj2 (decimal_ok _))) as [opts Er]. pose proof (parse_shown codepage umask nls_io h o Ho Hn) as Ep.
  destruct (shown_around o nls_io) as (pre & post & Et). fold nls_disk in Er. rewrite Et in Er, Ep, T. unfold nls_disk in Er, T. rewrite <- (assoc_L (++) (bytes_of "cp")) in Er, T.
  exists m', pre, post, opts. split; [done|]. split; [lia|]. split; [|done]. rewrite T. by rewrite drop_app_length' by (rewrite length_take; lia).
Qed.

(** ** Examples *)

Definition sample_shown : mount_options := MountOptions 1000 100 18 2 437 DefaultCharset 0x104 115 true false false false true true false false false false true.

Lemma sample_shown_ok : shown_ok sample_shown.
Proof. split; cbn; try lia; try done. split; [set_solver|done]. Qed.

Lemma charset_named : ∀ n, Some (bytes_of "koi8-r") = Some n → n ≠ [] ∧ 44 ∉ n.
Proof. intros n E. apply (inj Some) in E as <-. split; [done|by apply no_comma]. Qed.

Example sample_text :
  items_text (shown_items sample_shown (Some (bytes_of "cp437")) (Some (bytes_of "koi8-r"))) =
  bytes_of ",uid=1000,gid=100,fmask=0022,dmask=0002,codepage=cp437,iocharset=koi8-r,shortname=mixed,check=s,usefree,quiet,utf8,nonumtail".
Proof. by vm_compute. Qed.

Lemma options_roundtrip_witness :
  ∃ m' pre post opts, fat_show_options 4096 sample_shown (Some (bytes_of "cp" ++ decimal 437)) (Some (bytes_of "koi8-r")) (SeqFile (replicate 200 0) 0) = Ret m' ∧
    take (Z.to_nat (s_count m')) (s_buf m') = pre ++ bytes_of ",codepage=" ++ bytes_of "cp" ++ decimal 437 ++ post ∧
    parse_options 850 0 0 0 (Some (take (Z.to_nat (s_count m')) (s_buf m'))) true (Kmem ∅ []) = Ret (- EINVAL, opts, false, Kmem ∅ []) ∧
    parse_options 850 0 0 0 (Some (pre ++ bytes_of ",codepage=" ++ decimal 437 ++ post)) true (Kmem ∅ []) =
    Ret (0, with_iocharset (OnHeap (fresh (dom (∅ : gmap Z (list Z))))) sample_shown, false, Kmem (<[fresh (dom (∅ : gmap Z (list Z))) := bytes_of "koi8-r"]> ∅) []).
Proof.
  destruct (options_roundtrip 850 0 4096 (Some (bytes_of "koi8-r")) sample_shown (SeqFile (replicate 200 0) 0) ∅ sample_shown_ok charset_named) as (m' & pre & post & opts & E & _ & Et & Er & H).
  - split; [done|]. by vm_compute.
  - exists m', pre, post, opts. split; [exact E|]. change (Z.to_nat (s_count (SeqFile (replicate 200 0) 0))) with 0%nat in Et. rewrite drop_0 in Et. split; [exact Et|]. rewrite Et. split; [exact Er|exact H].
Defined.

(** The option [flush] is taken but not shown. *)
Lemma flush_not_shown addr o nls_disk nls_io m : fat_show_options addr (with_flush true o) nls_disk nls_io m = fat_show_options addr o nls_disk nls_io m.
Proof. reflexivity. Qed.
