(* ===== verification/NlsTable.v ===== *)
(** The list of character sets of [fs/nls/nls_base.c]: registering, finding and
    releasing a table, over the tables in memory.

    The list runs through the [next] fields, so that a walk needs fuel: the number
    of tables and one.  Modules are numbers with a count of their users; whether one
    is still live and what loading one does are parameters. *)

From stdpp Require Import strings.
From S2P Require Import Prelude Parser.

Definition EBUSY : Z := 16.

(** [struct nls_table] without its functions; [n_owner] is NULL for code of the
    kernel itself. *)
Record nls_node := NlsNode { n_charset : list Z; n_alias : option (list Z); n_owner : option Z; n_next : option Z }.

(** The tables in memory, the head of the list and the users of each module. *)
Record nls_state := NlsState { nodes : gmap Z nls_node; tables : option Z; users : Z → Z }.

Definition set_next (n : option Z) (t : nls_node) : nls_node := NlsNode (n_charset t) (n_alias t) (n_owner t) n.
Definition put_node (a : Z) (t : nls_node) (st : nls_state) : nls_state := NlsState (<[a := t]> (nodes st)) (tables st) (users st).
Definition set_head (h : option Z) (st : nls_state) : nls_state := NlsState (nodes st) h (users st).

Definition get_node (st : nls_state) (a : Z) : outcome nls_node := match nodes st !! a with Some t => Ret t | None => Undef end.

Definition walk_fuel (st : nls_state) : nat := S (size (nodes st)).

(** Whether the walk from [tmp] meets [nls]. *)
Fixpoint registered_loop (fuel : nat) (st : nls_state) (nls : Z) (tmp : option Z) : outcome bool :=
  match tmp with
  | None => Ret false
  | Some a => match fuel with O => NoFuel | S fuel => if a =? nls then Ret true else t ← get_node st a; registered_loop fuel st nls (n_next t) end
  end.

Definition register_nls (nls : Z) (st : nls_state) : outcome (Z * nls_state) :=
  t ← get_node st nls;
  match n_next t with
  | Some _ => Ret (- EBUSY, st)
  | None =>
    found ← registered_loop (walk_fuel st) st nls (tables st);
    if (found : bool) then Ret (- EBUSY, st) else Ret (0, set_head (Some nls) (put_node nls (set_next (tables st) t) st))
  end.

(** [*tmp = next], where [tmp] is the head or the field of a table. *)
Definition store_link (prev : option Z) (next : option Z) (st : nls_state) : outcome nls_state :=
  match prev with
  | None => Ret (set_head next st)
  | Some p => t ← get_node st p; Ret (put_node p (set_next next t) st)
  end.

Fixpoint unregister_loop (fuel : nat) (st : nls_state) (nls : Z) (prev tmp : option Z) : outcome (Z * nls_state) :=
  match tmp with
  | None => Ret (- EINVAL, st)
  | Some a =>
    match fuel with
    | O => NoFuel
    | S fuel =>
      t ← get_node st a;
      if a =? nls then st ← store_link prev (n_next t) st; Ret (0, st) else unregister_loop fuel st nls (Some a) (n_next t)
    end
  end.

Definition unregister_nls (nls : Z) (st : nls_state) : outcome (Z * nls_state) := unregister_loop (walk_fuel st) st nls None (tables st).

(** A table has the name. *)
Definition is_charset (name : list Z) (t : nls_node) : bool := streq (n_charset t) name || match n_alias t with Some a => streq a name | None => false end.

Fixpoint find_loop (fuel : nat) (st : nls_state) (name : list Z) (tmp : option Z) : outcome (option Z) :=
  match tmp with
  | None => Ret None
  | Some a => match fuel with O => NoFuel | S fuel => t ← get_node st a; if is_charset name t then Ret (Some a) else find_loop fuel st name (n_next t) end
  end.

Definition add_user (m n : Z) (st : nls_state) : nls_state := NlsState (nodes st) (tables st) (λ x, if x =? m then users st x + n else users st x).

Section loading.
Context (live : Z → bool) (request_module : list Z → nls_state → Z * nls_state).

Definition try_module_get (owner : option Z) (st : nls_state) : bool * nls_state :=
  match owner with None => (true, st) | Some m => if live m then (true, add_user m 1 st) else (false, st) end.

Definition module_put (owner : option Z) (st : nls_state) : nls_state := match owner with None => st | Some m => add_user m (-1) st end.

Definition find_nls (name : list Z) (st : nls_state) : outcome (option Z * nls_state) :=
  nls ← find_loop (walk_fuel st) st name (tables st);
  match nls with
  | None => Ret (None, st)
  | Some a => t ← get_node st a; let '(ok, st) := try_module_get (n_owner t) st in Ret (if (ok : bool) then Some a else None, st)
  end.

Definition load_nls (name : list Z) (st : nls_state) : outcome (option Z * nls_state) :=
  '(nls, st) ← find_nls name st;
  match nls with
  | Some a => Ret (Some a, st)
  | None =>
    let '(ret, st) := request_module (bytes_of "nls_" ++ name) st in
    if negb (ret =? 0) then Ret (None, st) else find_nls name st
  end.

Definition unload_nls (nls : Z) (st : nls_state) : outcome nls_state := t ← get_node st nls; Ret (module_put (n_owner t) st).

(** The table of the kernel itself is at [default_table]. *)
Definition load_nls_default (default_table : Z) (default_name : list Z) (st : nls_state) : outcome (Z * nls_state) :=
  '(nls, st) ← load_nls default_name st;
  Ret (match nls with Some a => a | None => default_table end, st).
End loading.

(** ** The list *)

(** The tables [l] are on the list, in this order. *)
Fixpoint linked (ns : gmap Z nls_node) (from : option Z) (l : list Z) : Prop :=
  match l with
  | [] => from = None
  | a :: l => from = Some a ∧ ∃ t, ns !! a = Some t ∧ linked ns (n_next t) l
  end.

Definition registry (st : nls_state) (l : list Z) : Prop := linked (nodes st) (tables st) l ∧ NoDup l.

Lemma linked_in ns from l a : linked ns from l → a ∈ l → is_Some (ns !! a).
Proof.
  revert from. induction l as [|b l IH]; intros from; cbn; [set_solver|]. intros (_ & t & Ht & Hl) [->|Ha]%elem_of_cons; [by exists t|]. by eapply IH.
Qed.

Lemma linked_size ns from l : linked ns from l → NoDup l → (length l ≤ size ns)%nat.
Proof.
  intros Hl Hd. rewrite <- (size_list_to_set (C := gset Z)) by done. rewrite <- size_dom. apply subseteq_size. intros a Ha%elem_of_list_to_set. apply elem_of_dom. by eapply linked_in.
Qed.

Lemma linked_insert ns from l a t : linked ns from l → a ∉ l → linked (<[a := t]> ns) from l.
Proof.
  revert from. induction l as [|b l IH]; intros from; cbn; [done|]. intros (-> & u & Hu & Hl) [Hne Ha]%not_elem_of_cons. split; [done|]. exists u.
  split; [by rewrite lookup_insert_ne|by apply IH].
Qed.

Lemma registered_spec st nls from l fuel : linked (nodes st) from l → (length l ≤ fuel)%nat → registered_loop fuel st nls from = Ret (bool_decide (nls ∈ l)).
Proof.
  revert from fuel. induction l as [|a l IH]; intros from fuel; cbn [linked length].
  - intros -> _. rewrite bool_decide_false by set_solver. by destruct fuel.
  - intros (-> & t & Ht & Hl) Hf. destruct fuel as [|fuel]; [lia|]. cbn [registered_loop]. destruct (Z.eqb_spec a nls) as [->|Hne]; [by rewrite bool_decide_true by set_solver|].
    unfold get_node. rewrite Ht. cbn [mbind outcome_bind]. rewrite (IH (n_next t)) by (done || lia). f_equal. apply bool_decide_ext. set_solver.
Qed.

Lemma register_spec nls t st l :
  registry st l → nodes st !! nls = Some t →
  ∃ ret st', register_nls nls st = Ret (ret, st') ∧ users st' = users st ∧
    if bool_decide (nls ∈ l) then ret = - EBUSY ∧ st' = st
    else match n_next t with None => ret = 0 ∧ registry st' (nls :: l) | Some _ => ret = - EBUSY ∧ st' = st end.
Proof.
  intros [Hl Hd] Ht. unfold register_nls, get_node. rewrite Ht. cbn [mbind outcome_bind]. destruct (n_next t) as [x|] eqn:En.
  { eexists _, st. split; [reflexivity|]. split; [done|]. by destruct (bool_decide (nls ∈ l)). }
  rewrite (registered_spec st nls (tables st) l) by (done || pose proof (linked_size _ _ _ Hl Hd); unfold walk_fuel; lia). cbn [mbind outcome_bind].
  destruct (decide (nls ∈ l)) as [Hin|Hin]; [rewrite !bool_decide_true by done|rewrite !bool_decide_false by done]; eexists _, _; (split; [reflexivity|]); (split; [done|]); [done|].
  split; [done|]. split; [|by constructor]. cbn. split; [done|]. exists (set_next (tables st) t). split; [by rewrite lookup_insert_eq|]. cbn. by apply linked_insert.
Qed.

(** The place of [nls] on the list is closed; [l1] is before it and [prev] the last
    of these. *)
Lemma unregister_split st nls l1 l2 fuel prev from :
  linked (nodes st) from (l1 ++ nls :: l2) → NoDup (l1 ++ nls :: l2) → (length l1 < fuel)%nat → (∀ p, prev = Some p → p ∉ l1 ++ nls :: l2 ∧ is_Some (nodes st !! p)) →
  ∃ st', unregister_loop fuel st nls prev from = Ret (0, st') ∧ users st' = users st ∧
    match l1 with [] => ∃ t, nodes st !! nls = Some t ∧ store_link prev (n_next t) st = Ret st' | _ => tables st' = tables st ∧ linked (nodes st') from (l1 ++ l2) ∧
      ∀ p, p ∉ l1 → nodes st' !! p = nodes st !! p end.
Proof.
  revert fuel prev from. induction l1 as [|a l1 IH]; intros fuel prev from Hl Hd Hf Hp; cbn [app linked length] in *; (destruct fuel as [|fuel]; [lia|]); destruct Hl as (-> & t & Ht & Hl); cbn [unregister_loop];
    unfold get_node at 1; rewrite Ht; cbn [mbind outcome_bind].
  - rewrite Z.eqb_refl. assert (∃ st', store_link prev (n_next t) st = Ret st' ∧ users st' = users st) as (st' & E & Eu).
    { unfold store_link, get_node. destruct prev as [p|]; [|by eexists]. destruct (Hp p eq_refl) as [_ [u ->]]. by eexists. }
    rewrite E. exists st'. split; [done|]. split; [done|]. by exists t.
  - apply NoDup_cons in Hd as [Hna Hd]. destruct (Z.eqb_spec a nls) as [->|Hne]; [set_solver|].
    destruct (IH fuel (Some a) (n_next t) Hl Hd ltac:(lia)) as (st' & E & Eu & H). { intros p [= <-]. split; [done|by exists t]. }
    exists st'. split; [done|]. split; [done|]. destruct l1 as [|b l1].
    + destruct H as (u & Hu & Es). unfold store_link, get_node in Es. rewrite Ht in Es. cbn [mbind outcome_bind] in Es. injection Es as <-. cbn [tables set_head put_node nodes app].
      split; [done|]. split; [|intros p Hp'; rewrite lookup_insert_ne by set_solver; done]. split; [done|]. exists (set_next (n_next u) t). split; [by rewrite lookup_insert_eq|]. cbn [n_next set_next].
      destruct Hl as (_ & u' & Hu' & Hl2). rewrite Hu in Hu'. injection Hu' as <-. apply linked_insert; [done|set_solver].
    + destruct H as (Et & Hl' & Hsame). split; [done|]. split; [|intros p Hp'; apply Hsame; set_solver]. split; [done|]. exists t. split; [rewrite Hsame; [done|set_solver]|done].
Qed.

Lemma unregister_missing st nls l fuel prev from : linked (nodes st) from l → nls ∉ l → (length l ≤ fuel)%nat → unregister_loop fuel st nls prev from = Ret (- EINVAL, st).
Proof.
  revert fuel prev from. induction l as [|a l IH]; intros fuel prev from; cbn [linked length]; [intros -> _ _; by destruct fuel|]. intros (-> & t & Ht & Hl) [Hne Hn]%not_elem_of_cons Hf.
  destruct fuel as [|fuel]; [lia|]. cbn [unregister_loop]. unfold get_node. rewrite Ht. cbn [mbind outcome_bind]. destruct (Z.eqb_spec a nls); [congruence|]. apply IH; [done|done|lia].
Qed.

Lemma filter_ne (x : Z) (l : list Z) : x ∉ l → filter (λ a, a ≠ x) l = l.
Proof. induction l as [|a l IH]; [done|]. intros [Hne Hl]%not_elem_of_cons. rewrite filter_cons_True by congruence. by rewrite IH. Qed.

Lemma unregister_spec nls st l :
  registry st l →
  ∃ ret st', unregister_nls nls st = Ret (ret, st') ∧ users st' = users st ∧
    if bool_decide (nls ∈ l) then ret = 0 ∧ registry st' (filter (λ a, a ≠ nls) l) ∧ nodes st' !! nls = nodes st !! nls else ret = - EINVAL ∧ st' = st.
Proof.
  intros [Hl Hd]. pose proof (linked_size _ _ _ Hl Hd) as Hs. unfold unregister_nls. destruct (decide (nls ∈ l)) as [Hin|Hin].
  - rewrite bool_decide_true by done. apply list_elem_of_split in Hin as (l1 & l2 & ->). rewrite length_app in Hs. cbn [length] in Hs.
    assert (filter (λ a, a ≠ nls) (l1 ++ nls :: l2) = l1 ++ l2) as ->.
    { apply NoDup_app in Hd as (_ & H1 & H2). apply NoDup_cons in H2 as [H2 _]. rewrite filter_app, filter_cons_False by auto. f_equal; apply filter_ne; set_solver. }
    destruct (unregister_split st nls l1 l2 (walk_fuel st) None (tables st) Hl Hd) as (st' & E & Eu & H); [unfold walk_fuel; lia|done|].
    exists 0, st'. split; [done|]. split; [done|]. split; [done|]. apply NoDup_app in Hd as (Hd1 & H1 & H2). apply NoDup_cons in H2 as [H2 Hd2].
    assert (NoDup (l1 ++ l2)) as Hd by (apply NoDup_app; set_solver). destruct l1 as [|a l1]; [|destruct H as (Et & Hl' & Hsame); split; [split; [by rewrite Et|done]|apply Hsame; set_solver]]. destruct H as (t & Ht & Es). cbn in Es. injection Es as <-. destruct Hl as (_ & u & Hu & Hl). rewrite Ht in Hu. by injection Hu as <-.
  - rewrite bool_decide_false by done. eexists _, st. split; [eapply unregister_missing; [exact Hl|done|unfold walk_fuel; lia]|done].
Qed.

(** The table at an address has a name: as its own or as its alias. *)
Definition names (name : list Z) (st : nls_state) (a : Z) : bool :=
  match nodes st !! a with Some t => bool_decide (n_charset t = name ∨ n_alias t = Some name) | None => false end.

(** How often a table counts as a user of a module. *)
Definition uses (n : nls_state) (p : option Z) (m : Z) : Z :=
  match p with Some a => match nodes n !! a with Some t => if bool_decide (n_owner t = Some m) then 1 else 0 | None => 0 end | None => 0 end.

Lemma is_charset_spec name t : is_charset name t = bool_decide (n_charset t = name ∨ n_alias t = Some name).
Proof.
  unfold is_charset. apply eq_true_iff_eq. rewrite orb_true_iff, streq_spec, bool_decide_eq_true. destruct (n_alias t) as [a|]; [rewrite streq_spec|]; naive_solver.
Qed.

Lemma find_loop_spec st name l fuel from : linked (nodes st) from l → (length l ≤ fuel)%nat → find_loop fuel st name from = Ret (head (filter (λ a, names name st a = true) l)).
Proof.
  revert fuel from. induction l as [|a l IH]; intros fuel from; cbn [linked length]; [intros -> _; by destruct fuel|]. intros (-> & t & Ht & Hl) Hf. destruct fuel as [|fuel]; [lia|].
  cbn [find_loop]. unfold get_node. rewrite Ht. cbn [mbind outcome_bind]. assert (names name st a = is_charset name t) as En by (unfold names; by rewrite Ht, is_charset_spec).
  destruct (is_charset name t) eqn:Ei; [by rewrite filter_cons_True|]. rewrite filter_cons_False by (by rewrite En). apply IH; [done|lia].
Qed.

(** ** Claims *)

(** C18: The linked tables are a list.  In a state whose tables [l] are linked in
    order, [register_nls] puts a table in front that is not on the list and links to no
    other, [unregister_nls] takes it off, and every other call of the two is refused and
    changes nothing; [find_nls] gives the first table that has the name as its own or as
    its alias, unless its module is being unloaded, and counts one user of that module
    and of no other. *)
Theorem nls_list_correct live st l :
  registry st l →
  (∀ nls t, nodes st !! nls = Some t → ∃ ret st', register_nls nls st = Ret (ret, st') ∧
     if negb (bool_decide (nls ∈ l)) && negb (bool_decide (is_Some (n_next t))) then ret = 0 ∧ registry st' (nls :: l) else ret = - EBUSY ∧ st' = st) ∧
  (∀ nls, ∃ ret st', unregister_nls nls st = Ret (ret, st') ∧
     if bool_decide (nls ∈ l) then ret = 0 ∧ registry st' (filter (λ a, a ≠ nls) l) else ret = - EINVAL ∧ st' = st) ∧
  (∀ name, ∃ r st', find_nls live name st = Ret (r, st') ∧
     r = match head (filter (λ a, names name st a = true) l) with
         | Some a => match nodes st !! a with Some (NlsNode _ _ (Some m) _) => if live m then Some a else None | _ => Some a end
         | None => None
         end ∧ registry st' l ∧ ∀ m, users st' m = users st m + uses st r m).
Proof.
  intros Hr. split; [|split].
  - intros nls t Ht. destruct (register_spec nls t st l Hr Ht) as (ret & st' & E & _ & H). exists ret, st'. split; [done|]. destruct (bool_decide (nls ∈ l)); [done|]. cbn [negb andb].
    destruct (n_next t); [by rewrite bool_decide_true|by rewrite bool_decide_false by (by intros [])].
  - intros nls. destruct (unregister_spec nls st l Hr) as (ret & st' & E & _ & H). exists ret, st'. split; [done|]. destruct (bool_decide (nls ∈ l)); [|done]. by destruct H as (? & ? & _).
  - intros name. destruct Hr as [Hl Hd]. unfold find_nls. rewrite (find_loop_spec st name l) by (done || pose proof (linked_size _ _ _ Hl Hd); unfold walk_fuel; lia). cbn [mbind outcome_bind].
    destruct (head (filter (λ a, names name st a = true) l)) as [a|] eqn:E; [|exists None, st; split_and!; try done; intros m; cbn; lia]. assert (a ∈ l) as Ha.
    { assert (a ∈ filter (λ a, names name st a = true) l) as Hin by (destruct (filter _ l); [done|injection E as ->; by left]). by apply list_elem_of_filter in Hin as [_ ?]. }
    destruct (linked_in _ _ _ _ Hl Ha) as [t Ht]. unfold get_node. rewrite Ht. cbn [mbind outcome_bind]. destruct t as [cs al [o|] nx]; cbn [n_owner try_module_get]; [destruct (live o)|].
    + eexists (Some a), _. split; [reflexivity|]. split; [done|]. split; [done|]. intros m. cbn. rewrite Ht. cbn. destruct (Z.eqb_spec m o) as [->|]; [by rewrite bool_decide_true|rewrite bool_decide_false by congruence; lia].
    + eexists None, st. split_and!; try done. intros m. cbn. lia.
    + eexists (Some a), st. split_and!; try done. intros m. cbn. rewrite Ht. rewrite bool_decide_false by done. lia.
Qed.

(** ** Registering again *)

(** A table that is taken off the list keeps its link, so that it cannot be
    registered again unless it was the last one. *)
Lemma register_again nls t st l st' :
  registry st l → nls ∈ l → nodes st !! nls = Some t → is_Some (n_next t) → unregister_nls nls st = Ret (0, st') → register_nls nls st' = Ret (- EBUSY, st').
Proof.
  intros Hr Hin Ht [x Hx] E. destruct (unregister_spec nls st l Hr) as (ret & st1 & E1 & _ & H). rewrite bool_decide_true in H by done. destruct H as (_ & _ & Hs). rewrite E in E1. injection E1 as <- <-.
  unfold register_nls, get_node. rewrite Hs, Ht. cbn [mbind outcome_bind]. by rewrite Hx.
Qed.

(** ** Examples *)

(** The default table and two of modules. *)
Definition sample_tables : nls_state :=
  NlsState (<[1 := NlsNode (bytes_of "default") None None None]> (<[2 := NlsNode (bytes_of "cp437") None (Some 20) (Some 1)]>
    (<[3 := NlsNode (bytes_of "cp936") (Some (bytes_of "gb2312")) (Some 30) (Some 2)]> ∅))) (Some 3) (λ _, 0).

Lemma sample_registry : registry sample_tables [3; 2; 1].
Proof.
  split; [|apply (bool_decide_unpack (NoDup [3; 2; 1])); by vm_compute]. cbn. split; [done|]. eexists. split; [reflexivity|]. split; [done|]. eexists. split; [reflexivity|]. split; [done|].
  eexists. by split; [reflexivity|].
Qed.

Lemma nls_list_correct_witness :
  (∃ st, find_nls (λ _, true) (bytes_of "gb2312") sample_tables = Ret (Some 3, st) ∧ registry st [3; 2; 1] ∧ users st 30 = 1) ∧
  (∃ st, unregister_nls 2 sample_tables = Ret (0, st) ∧ registry st [3; 1]).
Proof.
  destruct (nls_list_correct (λ _, true) sample_tables [3; 2; 1] sample_registry) as (_ & H2 & H3). split.
  - destruct (H3 (bytes_of "gb2312")) as (r & st & E & Er & Hr & Hu). assert (r = Some 3) as Er3 by (rewrite Er; reflexivity). rewrite Er3 in E, Hu. exists st. split; [exact E|]. split; [exact Hr|exact (Hu 30)].
  - destruct (H2 2) as (ret & st & E & H). cbv in H. exists st. destruct H as [Hr H]. split; [rewrite E, Hr; reflexivity|exact H].
Defined.
