(* ===== verification/FatSuper.v ===== *)
(** Mounting with its resources: [fat_fill_super] and [fat_put_super] of
    [fs/fat/inode.c] with the parsing of the options, the tables of the character
    sets that are loaded, and all that is released again when the mount fails or
    ends.  [FatMount] has the part that reads the device. *)

From stdpp Require Import strings.
From S2P Require Import Prelude Fat12 Fatent FatentLaws FatAlloc FatCache FatFile FatDir Vsprintf Parser FatOptions NlsTable FatMount.

(** ** State *)

(** The memory and the tables of the character sets. *)
Record world := World { w_mem : kmem; w_nls : nls_state }.

Definition set_mem m w := World m (w_nls w).
Definition set_nls n w := World (w_mem w) n.

(** What [sbi] holds beside the layout: its address and the resources. *)
Record sb_extra := SbExtra { x_addr : Z; x_opts : mount_options; x_nls_disk : option Z; x_nls_io : option Z }.

Section super.
Context (fat_default_codepage uid gid umask : Z) (fat_default_iocharset : list Z).
Context (live : Z → bool) (request_module : list Z → nls_state → Z * nls_state).

(** [opts->iocharset] as a string. *)
Definition charset_name (opts : mount_options) (m : kmem) : outcome (list Z) :=
  match o_iocharset opts with DefaultCharset => Ret fat_default_iocharset | OnHeap a => match heap m !! a with Some s => Ret s | None => Undef end end.

(** [sprintf(buf, "cp%d", codepage)] into the fifty bytes of [buf]; the string ends
    at the terminator. *)
Definition codepage_name (stack : Z) (codepage : Z) : outcome (list Z) :=
  '(n, _, buf) ← vsprintf stack (replicate 50 0) (bytes_of "cp%d") [VInt codepage];
  Ret (take (Z.to_nat n) buf).

(** [if (p) unload_nls(p)] *)
Definition unload_if (p : option Z) (w : world) : outcome world := match p with Some a => n ← unload_nls a (w_nls w); Ret (set_nls n w) | None => Ret w end.

Definition free_charset (opts : mount_options) (w : world) : outcome world :=
  match o_iocharset opts with DefaultCharset => Ret w | OnHeap a => m ← kfree a (w_mem w); Ret (set_mem m w) end.

Definition free_sbi (x : sb_extra) (w : world) : outcome world := m ← kfree (x_addr x) (w_mem w); Ret (set_mem m w).

(** [out_fail]; the root inode that is put first holds nothing of these. *)
Definition out_fail (x : sb_extra) (w : world) : outcome world :=
  w ← unload_if (x_nls_io x) w; w ← unload_if (x_nls_disk x) w; w ← free_charset (x_opts x) w; free_sbi x w.

(** What the rest of the kernel answers after the tables are loaded. *)
Record root_env := RootEnv { r_synchronous : bool; r_dirsync : bool; r_new_inode : bool; r_d_alloc : bool; r_cache_alloc : bool; r_stack : Z }.

Definition load_tables (e : root_env) (x : sb_extra) (w : world) : outcome (bool * sb_extra * world) :=
  buf ← codepage_name (r_stack e) (o_codepage (x_opts x));
  '(disk, n) ← load_nls live request_module buf (w_nls w);
  let w := set_nls n w in
  let x := SbExtra (x_addr x) (x_opts x) disk None in
  match disk with
  | None => Ret (false, x, w)
  | Some _ =>
    if o_isvfat (x_opts x) then
      name ← charset_name (x_opts x) (w_mem w);
      '(io, n) ← load_nls live request_module name (w_nls w);
      Ret (bool_decide (is_Some io), SbExtra (x_addr x) (x_opts x) disk io, set_nls n w)
    else Ret (true, x, w)
  end.

(** The result: an error, or what was mounted with the resources it has. *)
Definition fill_super (e : root_env) (data : option (list Z)) (isvfat : bool) (d : device) (w : world) : outcome ((Z + mounted_fs * sb_extra) * world) :=
  let '(p, m) := kmalloc_str [] (w_mem w) in
  let w := set_mem m w in
  match p with
  | None => Ret (inl (- ENOMEM), w)
  | Some sbi =>
    '(error, opts, _, m) ← parse_options fat_default_codepage uid gid umask data isvfat (w_mem w);
    let w := set_mem m w in
    let x := SbExtra sbi opts None None in
    let fail error x w := w ← out_fail x w; Ret (inl error, w) in
    if negb (error =? 0) then fail error x w else
    match read_boot d with
    | inl error => fail error x w
    | inr (size, b) =>
      match read_fat32_part (o_usefree opts) d size b with
      | inl error => fail error x w
      | inr p =>
        match fat_layout (r_synchronous e) size b p with
        | inl error => fail error x w
        | inr (sb, lay, free, prev) =>
          match fat_ent_access_init sb with
          | None => Undef
          | Some ops =>
            '(ok, x, w) ← load_tables e x w;
            if negb ok then fail (- EINVAL) x w else
            if negb (r_new_inode e) then fail (- ENOMEM) x w else
            let s := FatFs (dev_blocks d size) ∅ prev free false false in
            let root := Finode [] 0 1 0 0 0 0 0 MSDOS_ROOT_INO (r_dirsync e) true false in
            '(error, nlink, root, s) ← fat_read_root sb lay ops (r_cache_alloc e) (λ i, i) (p_root p) root s;
            if error <? 0 then fail error x w else
            if negb (r_d_alloc e) then fail (- ENOMEM) x w else
            Ret (inr (MountedFs sb lay ops s root nlink, x), w)
          end
        end
      end
    end
  end.

(** [fat_put_super]; what it stores in [sbi] before freeing it is not kept. *)
Definition fat_put_super (x : sb_extra) (w : world) : outcome world :=
  w ← unload_if (x_nls_disk x) w; w ← unload_if (x_nls_io x) w; w ← free_charset (x_opts x) w; free_sbi x w.
End super.

(** ** The tables *)

(** A table that is loaded is in memory. *)
Definition valid (n : nls_state) (p : option Z) : Prop := match p with Some a => is_Some (nodes n !! a) | None => True end.

(** The tables of a state stay in memory with their modules. *)
Definition keeps_nodes (n n' : nls_state) : Prop := ∀ a t, nodes n !! a = Some t → ∃ t', nodes n' !! a = Some t' ∧ n_owner t' = n_owner t.

Lemma keeps_nodes_trans n n1 n2 : keeps_nodes n n1 → keeps_nodes n1 n2 → keeps_nodes n n2.
Proof. intros H1 H2 a t Ht. destruct (H1 a t Ht) as (t1 & Ht1 & <-). destruct (H2 a t1 Ht1) as (t2 & ? & <-). by exists t2. Qed.

Lemma keeps_valid n n' p : keeps_nodes n n' → valid n p → valid n' p ∧ ∀ m, uses n' p m = uses n p m.
Proof.
  intros Hk. destruct p as [a|]; [|done]. intros [t Ht]. destruct (Hk a t Ht) as (t' & Ht' & Eo). split; [by exists t'|]. intros m. cbn. by rewrite Ht, Ht', Eo.
Qed.

(** What loading a module may do: tables are added to the list. *)
Definition request_ok (request_module : list Z → nls_state → Z * nls_state) : Prop :=
  ∀ name n l, registry n l → let n' := (request_module name n).2 in (∃ l', registry n' l') ∧ keeps_nodes n n' ∧ ∀ m, users n' m = users n m.

Section tables.
Context (live : Z → bool) (request_module : list Z → nls_state → Z * nls_state) (Hreq : request_ok request_module).

Lemma find_nls_ok name n l :
  registry n l → ∃ r n', find_nls live name n = Ret (r, n') ∧ registry n' l ∧ nodes n' = nodes n ∧ valid n' r ∧ ∀ m, users n' m = users n m + uses n' r m.
Proof.
  intros [Hl Hd]. unfold find_nls. rewrite (find_loop_spec n name l) by (done || pose proof (linked_size _ _ _ Hl Hd); unfold walk_fuel; lia). cbn [mbind outcome_bind].
  destruct (head (filter (λ a, names name n a = true) l)) as [a|] eqn:E.
  2:{ eexists None, n. split; [done|]. split; [done|]. split; [done|]. split; [done|]. intros m. cbn. lia. }
  assert (a ∈ l) as Ha.
  { assert (a ∈ filter (λ a, names name n a = true) l) as Hin by (destruct (filter _ l); [done|injection E as ->; by left]). by apply list_elem_of_filter in Hin as [_ ?]. }
  destruct (linked_in _ _ _ _ Hl Ha) as [t Ht]. unfold get_node. rewrite Ht. cbn [mbind outcome_bind]. unfold try_module_get. destruct (n_owner t) as [o|] eqn:Eo; [destruct (live o)|].
  - eexists (Some a), _. split; [reflexivity|]. split; [done|]. split; [done|]. split; [by exists t|]. intros m. cbn. rewrite Ht, Eo. destruct (Z.eqb_spec m o) as [->|Hne].
    + by rewrite bool_decide_true.
    + rewrite bool_decide_false by congruence. lia.
  - eexists None, n. split; [reflexivity|]. split; [done|]. split; [done|]. split; [done|]. intros m. cbn. lia.
  - eexists (Some a), n. split; [reflexivity|]. split; [done|]. split; [done|]. split; [by exists t|]. intros m. cbn. rewrite Ht, Eo. rewrite bool_decide_false by done. lia.
Qed.

Lemma load_nls_ok name n l :
  registry n l → ∃ r n' l', load_nls live request_module name n = Ret (r, n') ∧ registry n' l' ∧ keeps_nodes n n' ∧ valid n' r ∧ ∀ m, users n' m = users n m + uses n' r m.
Proof.
  intros Hr. unfold load_nls. destruct (find_nls_ok name n l Hr) as (r & n1 & -> & Hr1 & En1 & Hv & Hu). cbn [mbind outcome_bind].
  assert (keeps_nodes n n1) as Hk by (intros a t Ht; exists t; by rewrite En1). destruct r as [a|]; [by exists (Some a), n1, l|].
  pose proof (Hreq (bytes_of "nls_" ++ name) n1 l Hr1) as Hq. destruct (request_module (bytes_of "nls_" ++ name) n1) as [ret n2]. cbn [snd] in Hq. destruct Hq as ([l2 Hr2] & Hk2 & Hu2).
  assert (∀ m, users n2 m = users n m) as Hu2' by (intros m; rewrite Hu2, Hu; cbn; lia). destruct (negb (ret =? 0)).
  - exists None, n2, l2. split; [done|]. split; [done|]. split; [by eapply keeps_nodes_trans|]. split; [done|]. intros m. cbn. rewrite Hu2'. lia.
  - destruct (find_nls_ok name n2 l2 Hr2) as (r & n3 & -> & Hr3 & En3 & Hv3 & Hu3). exists r, n3, l2. split; [done|]. split; [done|]. split.
    + eapply keeps_nodes_trans; [exact Hk|]. eapply keeps_nodes_trans; [exact Hk2|]. intros a t Ht. exists t. by rewrite En3.
    + split; [done|]. intros m. by rewrite Hu3, Hu2'.
Qed.
End tables.

Lemma unload_if_ok p w : valid (w_nls w) p → ∃ w', unload_if p w = Ret w' ∧ w_mem w' = w_mem w ∧ nodes (w_nls w') = nodes (w_nls w) ∧ ∀ m, users (w_nls w') m = users (w_nls w) m - uses (w_nls w) p m.
Proof.
  destruct p as [a|]; cbn [unload_if valid uses]; [|intros _; exists w; split_and!; try done; intros; lia]. intros [t Ht]. unfold unload_nls, get_node. rewrite Ht. cbn [mbind outcome_bind].
  eexists. split; [reflexivity|]. destruct (n_owner t) as [o|] eqn:Eo; cbn; split_and!; try done; intros m; rewrite ?Eo.
  - destruct (Z.eqb_spec m o) as [->|]; [rewrite bool_decide_true by done; lia|rewrite bool_decide_false by congruence; lia].
  - rewrite bool_decide_false by done. lia.
Qed.

(** ** Everything is given back *)

Definition balanced (w w' : world) : Prop := heap (w_mem w') = heap (w_mem w) ∧ ∀ m, users (w_nls w') m = users (w_nls w) m.

(** [w'] holds what a mount that started in [w] holds. *)
Record mounted_in (w : world) (x : sb_extra) (w' : world) : Prop := {
  mi_sbi : heap (w_mem w) !! x_addr x = None;
  mi_mem : holds (<[x_addr x := []]> (heap (w_mem w))) (x_opts x) (w_mem w');
  mi_disk : valid (w_nls w') (x_nls_disk x);
  mi_io : valid (w_nls w') (x_nls_io x);
  mi_users m : users (w_nls w') m = users (w_nls w) m + uses (w_nls w') (x_nls_disk x) m + uses (w_nls w') (x_nls_io x) m
}.

Lemma release_memory w x w1 w2 :
  mounted_in w x w1 → w_mem w2 = w_mem w1 → ∃ w3, (w ← free_charset (x_opts x) w2; free_sbi x w) = Ret w3 ∧ heap (w_mem w3) = heap (w_mem w) ∧ w_nls w3 = w_nls w2.
Proof.
  intros [Hs Hm _ _ _] Em. unfold free_charset. assert (∃ w', match o_iocharset (x_opts x) with DefaultCharset => Ret w2 | OnHeap a => m ← kfree a (w_mem w2); Ret (set_mem m w2) end = Ret w' ∧
    heap (w_mem w') = <[x_addr x := []]> (heap (w_mem w)) ∧ w_nls w' = w_nls w2) as (w' & -> & Hh & En).
  { unfold holds in Hm. rewrite Em. destruct (o_iocharset (x_opts x)) as [|a]; [exists w2; by rewrite Em|]. destruct Hm as [Hn [s Hm]]. unfold kfree. rewrite Hm, lookup_insert_eq. cbn [mbind outcome_bind].
    eexists. split; [reflexivity|]. cbn. split; [by rewrite delete_insert_eq, delete_id|done]. }
  cbn [mbind outcome_bind]. unfold free_sbi, kfree. rewrite Hh, lookup_insert_eq. cbn [mbind outcome_bind]. eexists. split; [reflexivity|]. cbn. split; [by rewrite delete_insert_eq, delete_id|done].
Qed.

Lemma release_ok w x w1 p q :
  mounted_in w x w1 → (p, q) = (x_nls_io x, x_nls_disk x) ∨ (p, q) = (x_nls_disk x, x_nls_io x) →
  ∃ w2, (w ← unload_if p w1; w ← unload_if q w; w ← free_charset (x_opts x) w; free_sbi x w) = Ret w2 ∧ balanced w w2.
Proof.
  intros Hx Hpq. pose proof Hx as [_ _ Hd Hi Hu]. assert (valid (w_nls w1) p ∧ valid (w_nls w1) q ∧ ∀ m, users (w_nls w1) m = users (w_nls w) m + uses (w_nls w1) p m + uses (w_nls w1) q m) as (Hp & Hq & Hu').
  { destruct Hpq as [[= -> ->]|[= -> ->]]; (split; [done|]); (split; [done|]); intros m; rewrite Hu; lia. }
  destruct (unload_if_ok p w1 Hp) as (w2 & -> & Em2 & En2 & Hu2). cbn [mbind outcome_bind].
  assert (valid (w_nls w2) q ∧ ∀ m, uses (w_nls w2) q m = uses (w_nls w1) q m) as [Hq2 Euq] by (unfold valid, uses in *; rewrite En2; by split).
  destruct (unload_if_ok q w2 Hq2) as (w3 & -> & Em3 & En3 & Hu3). cbn [mbind outcome_bind].
  destruct (release_memory w x w1 w3 Hx ltac:(congruence)) as (w4 & -> & Hh & En4). exists w4. split; [done|]. split; [done|]. intros m. rewrite En4, Hu3, Hu2, Hu', Euq. lia.
Qed.

(** ** The name of the code page *)

Definition codepage_text (c : Z) : list Z := bytes_of "cp" ++ number_text c 10 (-1) (-1) SIGN.

Lemma codepage_name_ok stack c : 0 ≤ c < 2 ^ 16 → stack + INT_MAX < 2 ^ 64 → codepage_name stack c = Ret (codepage_text c).
Proof.
  intros Hc Hst. unfold codepage_name, vsprintf. pose proof (vsnprintf_spec (bytes_of "cp%d") [VInt c] stack (replicate 50 0) INT_MAX ltac:(unfold INT_MAX; lia) Hst) as H.
  assert (printed (bytes_of "cp%d") [VInt c] = Ret (codepage_text c, [])) as Ep.
  { unfold codepage_text. rewrite <- (app_nil_r (number_text c 10 (-1) (-1) SIGN)). replace c with (int_value (-1) SIGN c) at 2; [reflexivity|].
    unfold int_value. change (bool_decide (-1 ∈ [76; 108; 90; 122; 116])) with false. change (-1 =? 104) with false. change (has SIGN SIGN) with true. cbn iota. cint. }
  rewrite Ep in H. assert (length (codepage_text c) ≤ 7)%nat as Hl.
  { unfold codepage_text. rewrite length_app. change (length (bytes_of "cp")) with 2%nat. unfold number_text. change (has SIGN LEFT) with false. change (has SIGN ZEROPAD) with false. cbn iota zeta.
    assert (s64 c <? 0 = false) as Es by (apply Z.ltb_ge; cint). unfold sign_text, digits_text. rewrite Es. change (has SIGN PLUS) with false. change (has SIGN SPACE) with false. change (has SIGN SIGN) with true.
    cbn [andb]. cbn iota. change (prefix_text 10 SIGN) with (@nil Z). set (dg := if c =? 0 then [48] else _). assert (length dg ≤ 5)%nat as Hd.
    { unfold dg. destruct (c =? 0); [cbn; lia|]. rewrite length_rev. apply digits_len; [lia|]. split; [lia|]. eapply Z.lt_trans; [apply Hc|]. done. }
    cbn [length app]. rewrite !length_app, !length_replicate. lia. }
  rewrite H by (rewrite length_replicate; lia). cbn [mbind outcome_bind]. change (INT_MAX =? 0) with false. cbn iota. assert (s32 (Z.of_nat (length (codepage_text c))) = Z.of_nat (length (codepage_text c))) as -> by cint.
  rewrite Nat2Z.id, (take_ge (codepage_text c)) by (unfold INT_MAX; lia). by rewrite take_app_length.
Qed.

(** The code page is kept in sixteen bits. *)
Definition cp_ok (opts : mount_options) : Prop := 0 ≤ o_codepage opts < 2 ^ 16.

Lemma numeric_cp conv args set opts debug m r opts' debug' m' :
  (∀ v, cp_ok (set v opts)) → cp_ok opts → numeric conv args set opts debug m = Ret (r, opts', debug', m') → cp_ok opts'.
Proof.
  intros Hs Ho. unfold numeric. destruct args as [|a args]; [done|]. destruct (conv a m) as [[[err v] m1]| | |]; cbn [mbind outcome_bind]; try done. destruct (negb (err =? 0)); intros [= <- <- <- <-]; auto.
Qed.

Lemma set_option_cp is_vfat t args opts debug m r opts' debug' m' : cp_ok opts → set_option is_vfat t args opts debug m = Ret (r, opts', debug', m') → cp_ok opts'.
Proof.
  intros Ho. destruct t; cbn [set_option]; try (by intros [= <- <- <- <-]; try (destruct (negb is_vfat)); exact Ho);
    try (apply numeric_cp; [intros v; try exact Ho|exact Ho]; unfold cp_ok; cbn; cint).
  destruct (match o_iocharset opts with DefaultCharset => Ret m | OnHeap a => kfree a m end) as [m1| | |]; cbn [mbind outcome_bind]; try done.
  destruct args as [|a args]; [done|]. destruct (match_strdup a m1) as [[p|] m2]; intros [= <- <- <- <-]; exact Ho.
Qed.

Lemma options_loop_cp fuel is_vfat options opts debug m r opts' debug' m' : cp_ok opts → options_loop fuel is_vfat options opts debug m = Ret (r, opts', debug', m') → cp_ok opts'.
Proof.
  revert options opts debug m. induction fuel as [|fuel IH]; intros options opts debug m Ho; destruct options as [s|]; cbn [options_loop]; try done; try (by intros [= <- <- <- <-]).
  destruct (strsep s) as [p rest]. destruct (length p =? 0)%nat; [by apply IH|]. destruct (find_token is_vfat p) as [[t args]| | |]; cbn [mbind outcome_bind]; try done.
  destruct (set_option is_vfat t args opts debug m) as [[[[r1 o1] d1] m1]| | |] eqn:E; cbn [mbind outcome_bind]; try done. pose proof (set_option_cp _ _ _ _ _ _ _ _ _ _ Ho E) as H1.
  destruct r1 as [r1|]; [by intros [= <- <- <- <-]|by apply IH].
Qed.

Lemma parse_options_cp codepage uid gid umask options is_vfat m r opts debug m' : parse_options codepage uid gid umask options is_vfat m = Ret (r, opts, debug, m') → cp_ok opts.
Proof.
  unfold parse_options. assert (cp_ok (default_options codepage uid gid umask is_vfat)) as H0 by (unfold cp_ok; cbn; cint). destruct options as [s|]; [|by intros [= <- <- <- <-]].
  destruct (options_loop _ is_vfat (Some s) _ false m) as [[[[r1 o1] d1] m1]| | |] eqn:E; cbn [mbind outcome_bind]; try done. apply options_loop_cp in E; [|done].
  destruct r1 as [r1|]; intros [= <- <- <- <-]; [done|]. by destruct (o_unicode_xlate o1).
Qed.

Section mounting.
Context (fat_default_codepage uid gid umask : Z) (fat_default_iocharset : list Z).
Context (live : Z → bool) (request_module : list Z → nls_state → Z * nls_state) (Hreq : request_ok request_module).

Abbreviation load_tables := (load_tables fat_default_iocharset live request_module).
Abbreviation fill_super := (fill_super fat_default_codepage uid gid umask fat_default_iocharset live request_module).

Lemma load_tables_ok e x w w1 l :
  registry (w_nls w1) l → mounted_in w (SbExtra (x_addr x) (x_opts x) None None) w1 → 0 ≤ o_codepage (x_opts x) < 2 ^ 16 → r_stack e + INT_MAX < 2 ^ 64 →
  ∃ ok x' w2, load_tables e x w1 = Ret (ok, x', w2) ∧ mounted_in w x' w2 ∧ x_opts x' = x_opts x.
Proof.
  intros Hr Hx Hc Hst. unfold FatSuper.load_tables. rewrite codepage_name_ok by done. cbn [mbind outcome_bind].
  destruct (load_nls_ok live request_module Hreq (codepage_text (o_codepage (x_opts x))) (w_nls w1) l Hr) as (disk & n1 & l1 & -> & Hr1 & Hk1 & Hv1 & Hu1). cbn [mbind outcome_bind].
  destruct Hx as [Hs Hm _ _ Hu]. cbn [x_addr x_opts x_nls_disk x_nls_io uses] in *.
  assert (∀ io n2, keeps_nodes n1 n2 → valid n2 io → (∀ m, users n2 m = users n1 m + uses n2 io m) → mounted_in w (SbExtra (x_addr x) (x_opts x) disk io) (set_nls n2 w1)) as Hmk.
  { intros io n2 Hk Hv Hu2. destruct (keeps_valid n1 n2 disk Hk Hv1) as [Hv' Eu']. split; cbn [x_addr x_opts x_nls_disk x_nls_io set_nls w_mem w_nls]; try done.
    intros m. rewrite Hu2, Hu1, Hu, Eu'. lia. }
  assert (mounted_in w (SbExtra (x_addr x) (x_opts x) disk None) (set_nls n1 w1)) as Hmk0.
  { apply Hmk; [intros a t Ht; by exists t|done|]. intros m. cbn. lia. }
  destruct disk as [a|]; [|by eexists _, _, _]. cbn [x_opts]. destruct (o_isvfat (x_opts x)); [|by eexists _, _, _]. change (w_mem (set_nls n1 w1)) with (w_mem w1).
  assert (∃ name, charset_name fat_default_iocharset (x_opts x) (w_mem w1) = Ret name) as [name ->].
  { unfold charset_name, holds in *. destruct (o_iocharset (x_opts x)) as [|p]; [by eexists|]. destruct Hm as [_ [s ->]]. rewrite lookup_insert_eq. by eexists. }
  cbn [mbind outcome_bind]. change (w_nls (set_nls n1 w1)) with n1. destruct (load_nls_ok live request_module Hreq name n1 l1 Hr1) as (io & n2 & l2 & -> & _ & Hk2 & Hv2 & Hu2).
  cbn [mbind outcome_bind]. eexists _, _, _. split; [reflexivity|]. split; [by apply Hmk|done].
Qed.

(** ** The whole mount *)

(** What the device's part of the mount says, said of the whole: the same error with
    everything given back, or the same file system with what it holds. *)
Definition same_mount (w : world) (o : outcome (Z + mounted_fs)) (o' : outcome ((Z + mounted_fs * sb_extra) * world)) : Prop :=
  match o with
  | Ret (inl error) => ∃ w', o' = Ret (inl error, w') ∧ balanced w w'
  | Ret (inr fs) => ∃ x w', o' = Ret (inr (fs, x), w') ∧ mounted_in w x w'
  | Undef => o' = Undef
  | Bug => o' = Bug
  | NoFuel => o' = NoFuel
  end.

Lemma fail_same w x w1 (error : Z) : mounted_in w x w1 → same_mount w (Ret (inl error)) (w ← out_fail x w1; Ret (inl error, w)).
Proof.
  intros Hx. destruct (release_ok w x w1 (x_nls_io x) (x_nls_disk x) Hx ltac:(by left)) as (w2 & E & Hb). unfold out_fail. rewrite E. cbn [mbind outcome_bind]. by exists w2.
Qed.

(** The environment the device's part of the mount sees. *)
Definition env_of (e : root_env) (ok : bool) (error : Z) (opts : mount_options) (tables_ok : bool) : mount_env :=
  MountEnv ok (if negb (error =? 0) then inl error else inr (o_usefree opts)) (r_synchronous e) (r_dirsync e) tables_ok (o_isvfat opts) tables_ok (r_new_inode e) (r_d_alloc e) (r_cache_alloc e).

(** After the options. *)
Lemma device_part e d data isvfat w w1 sbi opts debug m' l :
  registry (w_nls w) l → r_stack e + INT_MAX < 2 ^ 64 → 0 ≤ o_codepage opts < 2 ^ 16 → mounted_in w (SbExtra sbi opts None None) (set_mem m' w) →
  kmalloc_str [] (w_mem w) = (Some sbi, w1) → parse_options fat_default_codepage uid gid umask data isvfat w1 = Ret (0, opts, debug, m') →
  ∃ ok, same_mount w (FatMount.fat_fill_super (env_of e true 0 opts ok) d) (fill_super e data isvfat d w).
Proof.
  intros Hr Hst Hc Hm Ek Ep. unfold FatSuper.fill_super. rewrite Ek. cbn [w_mem set_mem]. rewrite Ep. cbn [mbind outcome_bind]. change (set_mem m' (set_mem w1 w)) with (set_mem m' w).
  unfold FatMount.fat_fill_super, env_of. cbn [kzalloc_ok FatMount.options synchronous dirsync nls_disk_ok FatMount.isvfat nls_io_ok new_inode_ok d_alloc_ok cache_alloc Z.eqb negb].
  destruct (load_tables_ok e (SbExtra sbi opts None None) w (set_mem m' w) l Hr Hm Hc Hst) as (ok & x' & w2 & Et & Hx' & _). exists ok.
  destruct (read_boot d) as [err|[size b]]; [by apply fail_same|]. destruct (read_fat32_part (o_usefree opts) d size b) as [err|p]; [by apply fail_same|].
  destruct (fat_layout (r_synchronous e) size b p) as [err|[[[sb lay] free] prev]]; [by apply fail_same|]. destruct (fat_ent_access_init sb) as [ops|]; [|done].
  rewrite Et. cbn [mbind outcome_bind]. destruct ok; cbn [negb]; [|by apply fail_same]. rewrite andb_false_r. destruct (r_new_inode e); cbn [negb]; [|by apply fail_same].
  unfold new_root. cbn [dirsync]. destruct (fat_read_root sb lay ops (r_cache_alloc e) _ _ _ _) as [[[[err nlink] root] s]| | |]; cbn [mbind outcome_bind]; try done.
  destruct (err <? 0); [by apply fail_same|]. destruct (r_d_alloc e); cbn [negb]; [by eexists _, _|by apply fail_same].
Qed.

(** When the options run out of memory, no character set is left from an option
    before. *)
Definition charset_first (data : option (list Z)) (isvfat : bool) (m : kmem) : Prop :=
  match parse_options fat_default_codepage uid gid umask data isvfat m with Ret (error, opts, _, _) => error = - ENOMEM → o_iocharset opts = DefaultCharset | _ => True end.

Lemma kmalloc_str_cases s m :
  (∃ l, kmalloc_str s m = (None, Kmem (heap m) l)) ∨ (∃ a l, kmalloc_str s m = (Some a, Kmem (<[a := s]> (heap m)) l) ∧ heap m !! a = None).
Proof.
  unfold kmalloc_str. assert (heap m !! fresh (dom (heap m)) = None) as Hn by (apply not_elem_of_dom, is_fresh). destruct (failing m) as [|[] l]; [right|left|right]; eauto.
Qed.

(** The answers for the options are those of [parse_options]. *)
Definition answers (e : root_env) (data : option (list Z)) (isvfat : bool) (m : kmem) (env : mount_env) : Prop :=
  ∃ ret opts ok, env = env_of e (bool_decide (is_Some (kmalloc_str [] m).1)) ret opts ok ∧
    (is_Some (kmalloc_str [] m).1 → ∃ debug m', parse_options fat_default_codepage uid gid umask data isvfat (kmalloc_str [] m).2 = Ret (ret, opts, debug, m')).

Lemma fill_super_same e d data isvfat w l :
  registry (w_nls w) l → r_stack e + INT_MAX < 2 ^ 64 → charset_first data isvfat (kmalloc_str [] (w_mem w)).2 →
  ∃ env, answers e data isvfat (w_mem w) env ∧ same_mount w (FatMount.fat_fill_super env d) (fill_super e data isvfat d w).
Proof.
  intros Hr Hst Hf. destruct (kmalloc_str_cases [] (w_mem w)) as [[l1 Ek]|(sbi & l1 & Ek & Hn)].
  { exists (env_of e false 0 (default_options 0 0 0 0 false) true). split; [unfold answers; rewrite Ek; eexists _, _, _; split; [reflexivity|by intros []]|]. unfold FatSuper.fill_super. rewrite Ek. by eexists. }
  rewrite Ek in Hf. cbn [snd] in Hf. unfold charset_first in Hf. set (m1 := Kmem (<[sbi := []]> (heap (w_mem w))) l1) in *.
  destruct (parse_options_ok fat_default_codepage uid gid umask data isvfat m1) as (ret & opts & debug & m' & n & Ep & Hp). rewrite Ep in Hf.
  assert (mounted_in w (SbExtra sbi opts None None) (set_mem m' w)) as Hm.
  { split; cbn [x_addr x_opts x_nls_disk x_nls_io set_mem w_mem w_nls]; try done; [|intros m; cbn; lia].
    destruct Hp as [(_ & Hp & _)|[(_ & Hp & _)|(Hret & Hh & _)]]; [by eapply holds_any..|]. unfold holds. by rewrite (Hf Hret). }
  assert (∀ ok, answers e data isvfat (w_mem w) (env_of e true ret opts ok)) as Ha.
  { intros ok. unfold answers. rewrite Ek. exists ret, opts, ok. split; [reflexivity|]. intros _. by exists debug, m'. }
  destruct (Z.eqb_spec ret 0) as [->|Hne].
  - destruct (device_part e d data isvfat w m1 sbi opts debug m' l Hr Hst (parse_options_cp _ _ _ _ _ _ _ _ _ _ _ Ep) Hm Ek Ep) as [ok H]. exists (env_of e true 0 opts ok). by split.
  - exists (env_of e true ret opts true). split; [done|]. unfold FatSuper.fill_super. rewrite Ek. cbn [w_mem set_mem]. rewrite Ep. cbn [mbind outcome_bind].
    unfold FatMount.fat_fill_super, env_of. cbn [kzalloc_ok FatMount.options negb]. rewrite (proj2 (Z.eqb_neq ret 0) Hne). cbn [negb]. by apply fail_same.
Qed.

(** C14: Mounting gives everything back.  Unless memory runs out for a character set
    after another one was given, [fat_fill_super] ends as its reading of the device
    does ([FatMount]) with the options that [parse_options] found; when it fails, the
    memory and the use counts of all modules are what they were; when it succeeds,
    [fat_put_super] makes them so.  Nothing is freed twice. *)
Theorem mount_releases e d data isvfat w l :
  registry (w_nls w) l → r_stack e + INT_MAX < 2 ^ 64 → charset_first data isvfat (kmalloc_str [] (w_mem w)).2 →
  ∃ env, answers e data isvfat (w_mem w) env ∧ match FatMount.fat_fill_super env d with
  | Ret (inl error) => ∃ w', fill_super e data isvfat d w = Ret (inl error, w') ∧ balanced w w'
  | Ret (inr fs) => ∃ x w' w'', fill_super e data isvfat d w = Ret (inr (fs, x), w') ∧ fat_put_super x w' = Ret w'' ∧ balanced w w''
  | Undef => fill_super e data isvfat d w = Undef
  | Bug => fill_super e data isvfat d w = Bug
  | NoFuel => fill_super e data isvfat d w = NoFuel
  end.
Proof.
  intros Hr Hst Hf. destruct (fill_super_same e d data isvfat w l Hr Hst Hf) as (env & Ha & H). exists env. split; [done|]. unfold same_mount in H.
  destruct (FatMount.fat_fill_super env d) as [[err|fs]| | |]; try done. destruct H as (x & w' & E & Hx).
  destruct (release_ok w x w' (x_nls_disk x) (x_nls_io x) Hx ltac:(by right)) as (w'' & E2 & Hb). by exists x, w', w''.
Qed.
End mounting.

(** ** Examples *)

(** Nothing fails after the options. *)
Definition all_there : root_env := RootEnv false false true true true 0x1000.

Definition no_modules (name : list Z) (n : nls_state) : Z * nls_state := (-1, n).

Lemma no_modules_ok : request_ok no_modules.
Proof. intros name n l Hr. cbn. split; [by exists l|]. split; [|done]. intros a t Ht. by exists t. Qed.

(** A mount of the sample image with code page 437 and nothing mounted before. *)
Definition sample_mount (options : string) (fails : list bool) : outcome ((Z + mounted_fs * sb_extra) * world) :=
  fill_super 437 0 0 18 (bytes_of "default") (λ _, true) no_modules all_there (Some (bytes_of options)) true (image_device (sample_disk 3 600)) (World (Kmem ∅ fails) sample_tables).

(** The users of the module of [cp437] after a mount, if it succeeds. *)
Definition users_after (o : outcome ((Z + mounted_fs * sb_extra) * world)) : option Z := match o with Ret (inr _, w) => Some (users (w_nls w) 20) | _ => None end.

Lemma sample_mounts : users_after (sample_mount "uid=7,iocharset=cp437" []) = Some 2.
Proof. by vm_compute. Qed.

Lemma mount_releases_witness :
  ∃ fs x w' w'', sample_mount "uid=7,iocharset=cp437" [] = Ret (inr (fs, x), w') ∧ users (w_nls w') 20 = 2 ∧ fat_put_super x w' = Ret w'' ∧ users (w_nls w'') 20 = 0 ∧ heap (w_mem w'') = ∅.
Proof.
  pose proof sample_mounts as Hs. destruct (mount_releases 437 0 0 18 (bytes_of "default") (λ _, true) no_modules no_modules_ok all_there (image_device (sample_disk 3 600))
    (Some (bytes_of "uid=7,iocharset=cp437")) true (World (Kmem ∅ []) sample_tables) [3; 2; 1]) as (env & _ & H).
  - exact sample_registry.
  - by vm_compute.
  - unfold charset_first. set (r := parse_options _ _ _ _ _ _ _). assert (match r with Ret (z, _, _, _) => z | _ => -1 end = 0) as E by (by vm_compute).
    clearbody r. destruct r as [[[[ret opts] ?] ?]| | |]; [|exact I..]. rewrite E. discriminate.
  - unfold sample_mount in *. destruct (FatMount.fat_fill_super env _) as [[err|fs]| | |]; [destruct H as (w' & E & _)|destruct H as (x & w' & w'' & E & E2 & Hh & Hu)| | |];
      try (rewrite ?E, ?H in Hs; discriminate Hs). rewrite E in Hs. injection Hs as Hs. exists fs, x, w', w''. split; [exact E|]. split; [exact Hs|]. split; [exact E2|]. split; [exact (Hu 20)|exact Hh].
Defined.

(** ** A character set that is freed twice *)

(** When memory runs out for the second of two character sets, [opts->iocharset] is
    left pointing to the first, which was freed: [out_fail] frees it again. *)
Lemma charset_freed_twice : sample_mount "iocharset=cp437,iocharset=cp850" [false; false; true] = Undef.
Proof. by vm_compute. Qed.

(** When memory runs out while a number is read, the options that follow are not
    looked at, and the mount succeeds. *)
Lemma options_dropped : users_after (sample_mount "uid=7,no such option" [false; true]) = Some 1 ∧ users_after (sample_mount "uid=7,no such option" []) = None.
Proof. by vm_compute. Qed.
