(* ===== verification/MsdosDir.v ===== *)
(** What the calls on names promise: a root directory is a map from names to files
    with their inodes, and every sequence of lookups, creations, removals and
    renames of files behaves like that map. *)

From stdpp Require Import strings.
From S2P Require Import Prelude Fat12 Fatent FatentLaws FatAlloc FatDate FatCache FatFile FatDir Msdos FatMount FatInode MsdosOps.

(** ** Names on disk *)

Lemma strncmp_spec n a b : length a = n → length b = n → 0 ∉ b → strncmp_eq n a b = true ↔ a = b.
Proof.
  intros Ha Hb H0. split; [|intros ->; apply strncmp_refl]. revert a b Ha Hb H0. induction n as [|n IH]; intros [|x a] [|y b] Ha Hb H0; try done.
  cbn [strncmp_eq]. intros [Hx H]%andb_prop. apply Z.eqb_eq in Hx as ->. apply not_elem_of_cons in H0 as [Hy H0].
  destruct (Z.eqb_spec y 0); [by destruct Hy|]. f_equal. by apply IH; [injection Ha|injection Hb| |].
Qed.

Lemma formatted_nonzero opts name res : Forall is_byte name → msdos_format_name opts name = Some res → 0 ∉ res.
Proof.
  intros Hn E. destruct (format_parts opts name res Hn E) as (b & e & -> & _ & _ & Hw & Hp & _). intros (i & Hi)%list_elem_of_lookup_1.
  apply (formatted_char opts) in Hi as [? | [[[_ Hr _ _] _]|[_ ?]]]; try done. by apply rejected_ge in Hr.
Qed.

(** ** The directory as a map

    What the calls promise: a directory is a map from formatted names to the slot
    and the entry of a file, with the slots that are free and the inodes that are
    in memory for a slot. *)

Record adir := Adir { names : gmap (list Z) (Z * msdos_dir_entry); icache : gmap Z Z; free_slots : gset Z }.

Inductive dir_op := OpLookup (name : list Z) | OpCreate (name : list Z) | OpUnlink (name : list Z) | OpRename (old new : list Z).
Inductive dir_result := RInode (a : option Z) | RError (err : Z).

Definition op_names (op : dir_op) : list (list Z) := match op with OpLookup name | OpCreate name | OpUnlink name => [name] | OpRename old new => [old; new] end.

Section promise.
Context (opts : fat_mount_options) (tz now : Z).

Definition entry_hidden (e : msdos_dir_entry) : bool := z2b (Z.land (de_attr e) ATTR_HIDDEN).
Definition entry_is_dir (e : msdos_dir_entry) : bool := z2b (Z.land (de_attr e) ATTR_DIR).

(** Whether an entry with the right formatted name is the one a name asks for. *)
Definition visible (name : list Z) (e : msdos_dir_entry) : bool := negb (dotsOK opts) || Bool.eqb (starts_with_dot name) (entry_hidden e).

Definition find_in (d : adir) (name : list Z) : option (list Z * Z * msdos_dir_entry) :=
  res ← msdos_format_name opts name;
  '(j, e) ← names d !! res;
  if visible name e then Some (res, j, e) else None.

Definition unused_inode (d : adir) (a : Z) : Prop := ∀ j, icache d !! j ≠ Some a.

(** The inode for a slot: the one in memory, or a new one. *)
Definition holds (d : adir) (j a : Z) (d' : adir) : Prop :=
  d' = Adir (names d) (<[j := a]> (icache d)) (free_slots d) ∧ (icache d !! j = Some a ∨ icache d !! j = None ∧ unused_inode d a).

Definition first_free (d : adir) (j : Z) : Prop := j ∈ free_slots d ∧ ∀ i, i ∈ free_slots d → j ≤ i.

Inductive astep (d : adir) : dir_op → dir_result → adir → Prop :=
| al_none name : find_in d name = None → astep d (OpLookup name) (RInode None) d
| al_found name res j e a d' : find_in d name = Some (res, j, e) → holds d j a d' → astep d (OpLookup name) (RInode (Some a)) d'
| ac_invalid name : msdos_format_name opts name = None → astep d (OpCreate name) (RError (- EINVAL)) d
| ac_exists name res x :
    msdos_format_name opts name = Some res → names d !! res = Some x → astep d (OpCreate name) (RError (- EINVAL)) d
| ac_full name res :
    msdos_format_name opts name = Some res → names d !! res = None → free_slots d = ∅ → astep d (OpCreate name) (RError (- ENOSPC)) d
| ac_new name res j a time date :
    msdos_format_name opts name = Some res → names d !! res = None → first_free d j → unused_inode d a →
    fat_date_unix2dos tz now = Ret (time, date) →
    astep d (OpCreate name) (RInode (Some a))
      (Adir (<[res := (j, new_entry res false (starts_with_dot name) 0 time date)]> (names d)) (<[j := a]> (icache d)) (free_slots d ∖ {[j]}))
| au_none name : find_in d name = None → astep d (OpUnlink name) (RError (- ENOENT)) d
| au_gone name res j e :
    find_in d name = Some (res, j, e) → astep d (OpUnlink name) (RError 0) (Adir (delete res (names d)) (delete j (icache d)) ({[j]} ∪ free_slots d))
| ar_none old new : find_in d old = None → astep d (OpRename old new) (RError (- ENOENT)) d
| ar_invalid old new ro j e a d' :
    find_in d old = Some (ro, j, e) → holds d j a d' → msdos_format_name opts new = None → astep d (OpRename old new) (RError (- EINVAL)) d'
| ar_same old new ro j e a d' :
    find_in d old = Some (ro, j, e) → holds d j a d' → msdos_format_name opts new = Some ro → astep d (OpRename old new) (RError 0) d'
| ar_unseen old new ro j e a d' rn x :
    find_in d old = Some (ro, j, e) → holds d j a d' → msdos_format_name opts new = Some rn → ro ≠ rn → names d !! rn = Some x → find_in d new = None →
    astep d (OpRename old new) (RError (- EINVAL)) d'
| ar_full old new ro j e a d' rn :
    find_in d old = Some (ro, j, e) → holds d j a d' → msdos_format_name opts new = Some rn → names d !! rn = None → free_slots d = ∅ →
    astep d (OpRename old new) (RError (- ENOSPC)) d'
| ar_new old new ro j e a d' rn j' time date :
    find_in d old = Some (ro, j, e) → holds d j a d' → msdos_format_name opts new = Some rn → names d !! rn = None → first_free d j' →
    fat_date_unix2dos tz now = Ret (time, date) →
    astep d (OpRename old new) (RError 0)
      (Adir (<[rn := (j', new_entry rn false (starts_with_dot new) 0 time date)]> (delete ro (names d))) (<[j' := a]> (delete j (icache d))) ({[j]} ∪ free_slots d ∖ {[j']}))
| ar_over old new ro j e a d' rn j' e' :
    find_in d old = Some (ro, j, e) → holds d j a d' → find_in d new = Some (rn, j', e') → ro ≠ rn →
    astep d (OpRename old new) (RError 0) (Adir (delete ro (names d)) (<[j' := a]> (delete j (icache d))) ({[j]} ∪ free_slots d)).

Inductive asteps : adir → list dir_op → list dir_result → adir → Prop :=
| as_nil d : asteps d [] [] d
| as_cons d op r d1 l rs d2 : astep d op r d1 → asteps d1 l rs d2 → asteps d (op :: l) (r :: rs) d2.
End promise.

(** ** The calls keep the promise *)

Section refine.
Context (opts : fat_mount_options) (env : env) (sb : sb_info) (lay : layout) (ops : fatent_operations).
Context (needs_sync : bool) (sync_inode : Z) (alloc : bool) (sleep : finode → finode).
Context (o : inode_options) (sb_addr : Z) (k : vfs) (wfuel : nat).
Context (inv : finode → Prop) (good : fatfs → Prop) (blocks : Z) (phys : Z → Z) `{!DirMap sb lay ops alloc sleep inv good blocks phys}.
Context (dir : Z).

Abbreviation nr := (nr_entries sb blocks).
Abbreviation entry := (entry_of sb phys).
Definition pos_of (j : Z) : Z := i_pos (found sb lay phys j).

(** Whether an inode in memory is a directory. *)
Definition mode_dir (v : volume) (a : Z) : option bool := (λ i, S_ISDIR (i_mode i)) <$> inodes v !! a.

(** The volume and the directory agree.  No inode is in memory for a slot that
    is not in use. *)
Record rep (v : volume) (d : adir) : Prop := {
  rep_hash : hash_ok sb_addr v;
  rep_good : good (fs v);
  rep_dir : ∃ i, inodes v !! dir = Some i ∧ inv (node i);
  rep_self j : 0 ≤ j < nr → ¬ live_at v dir (pos_of j);
  rep_names name j e : names d !! name = Some (j, e) ↔ 0 ≤ j < nr ∧ live sb phys (fs v) j = true ∧ entry (fs v) j = e ∧ de_name e = name;
  rep_cache j a : icache d !! j = Some a ↔ 0 ≤ j < nr ∧ live_at v a (pos_of j);
  rep_used j a : 0 ≤ j < nr → live_at v a (pos_of j) → live sb phys (fs v) j = true;
  rep_free j : j ∈ free_slots d ↔ 0 ≤ j < nr ∧ free_at sb phys (fs v) j = true;
  rep_mode j a : 0 ≤ j < nr → live_at v a (pos_of j) → mode_dir v a = Some (entry_is_dir (entry (fs v) j))
}.

Definition same_live (v w : volume) : Prop := ∀ b p, (live_at w b p ↔ live_at v b p) ∧ (live_at v b p → mode_dir w b = mode_dir v b).

Lemma rep_same v w d :
  rep v d → hash_ok sb_addr w → fs w = fs v → same_live v w → (∃ i, inodes w !! dir = Some i ∧ inv (node i)) → rep w d.
Proof.
  intros [H1 H2 H3 H4 H5 H6 H7 H8 H9] Hw Ef Hl Hd. split; rewrite ?Ef; try done.
  - intros j Hj. rewrite (proj1 (Hl dir _)). by apply H4.
  - intros j a. rewrite (proj1 (Hl a _)). apply H6.
  - intros j a Hj. rewrite (proj1 (Hl a _)). by apply H7.
  - intros j a Hj Ha%(Hl a). rewrite (proj2 (Hl a _) Ha). by apply H9.
Qed.

Lemma same_live_put v a i i' s :
  inodes v !! a = Some i → ei_pos i' = ei_pos i → i_freeing i' = i_freeing i → i_mode i' = i_mode i → same_live v (put_inode a i' (set_fs s v)).
Proof.
  intros Hi Hp Hf Hm b p. unfold live_at, hashed, mode_dir. cbn. destruct (decide (b = a)) as [->|Hne].
  - rewrite lookup_insert_eq, Hi. cbn. rewrite Hm. split; [|done]. split; intros [Hh (x & Hx & Hr)]; (split; [done|]); injection Hx as <-; [exists i|exists i']; by rewrite ?Hp, ?Hf in *.
  - by rewrite lookup_insert_ne.
Qed.

Lemma set_fs_id v : set_fs (fs v) v = v.
Proof. by destruct v. Qed.

(** Changes of an inode that keep its place. *)
Lemma rep_put v d a i i' :
  rep v d → inodes v !! a = Some i → ei_pos i' = ei_pos i → i_freeing i' = i_freeing i → i_mode i' = i_mode i → (a = dir → inv (node i')) →
  rep (put_inode a i' v) d.
Proof.
  intros Hr Hi Hp Hf Hm Hd. apply (rep_same v); [done| |done| |].
  - rewrite <- (set_fs_id v). apply (hash_ok_put sb_addr v a i); [apply Hr|done|done|congruence].
  - rewrite <- (set_fs_id v) at 2. by apply (same_live_put v a i).
  - cbn. destruct (rep_dir _ _ Hr) as (x & Hx & Hix). destruct (decide (a = dir)) as [->|Hne].
    + exists i'. rewrite lookup_insert_eq. split; [done|]. by apply Hd.
    + exists x. by rewrite lookup_insert_ne.
Qed.

(** What the searches for a formatted name give. *)
Lemma scan_rep v d res :
  rep v d → length res = MSDOS_NAME → 0 ∉ res →
  ∃ v', rep v' d ∧ fs v' = fs v ∧ inodes v' !! dir ≠ None ∧ (∀ a, a ≠ dir → inodes v' !! a = inodes v !! a) ∧
    scan sb lay ops alloc sleep dir res v =
      Ret (match names d !! res with Some (j, _) => (0, Some (found sb lay phys j), v') | None => (- ENOENT, None, v') end).
Proof.
  intros Hr Hlen H0. destruct (rep_dir _ _ Hr) as (i & Hi & Hinv).
  destruct (scan_spec sb lay ops alloc sleep inv good blocks phys (fs v) (rep_good _ _ Hr) res (node i) Hinv) as (r & n & E & Hn & Hf).
  exists (put_inode dir (set_node n i) v). split; [by apply (rep_put v d dir i)|]. split; [done|]. split; [cbn; by rewrite lookup_insert_eq|].
  split; [intros a Ha; cbn; by rewrite lookup_insert_ne|]. unfold scan, with_node, get_inode. rewrite Hi. cbn [mbind outcome_bind]. rewrite E.
  assert (∀ j, 0 ≤ j < nr → strncmp_eq MSDOS_NAME (de_name (entry (fs v) j)) res = true ↔ de_name (entry (fs v) j) = res) as Hcmp.
  { intros j Hj. apply strncmp_spec; [|done|done]. unfold de_name. rewrite length_take, (entry_length sb lay ops alloc sleep inv good blocks phys); [done|apply Hr|done]. }
  destruct r as [j|]; cbn [first_from mbind outcome_bind] in *; rewrite set_fs_id.
  - destruct Hf as (Hj & [Hl Hc]%andb_prop & _). apply Hcmp in Hc; [|done].
    assert (names d !! res = Some (j, entry (fs v) j)) as -> by (by apply (rep_names _ _ Hr)). done.
  - destruct (names d !! res) as [[j e]|] eqn:En; [|done]. apply (rep_names _ _ Hr) in En as (Hj & Hl & He & Hn'). subst e.
    specialize (Hf j Hj). rewrite Hl in Hf. cbn [andb] in Hf. apply Hcmp in Hn'; [|done]. by rewrite Hn' in Hf.
Qed.

(** [msdos_find] is the search and the test of the attribute. *)
Lemma find_name_scan name res v :
  msdos_format_name opts name = Some res →
  find_name opts sb lay ops alloc sleep dir name v =
    ('(err, si, v) ← scan sb lay ops alloc sleep dir res v;
     match si with
     | Some si' =>
       if (err =? 0) && dotsOK opts then
         e ← dirent (fs v) (si_de si');
         Ret (if Bool.eqb (starts_with_dot name) (entry_hidden e) then (0, si, v) else (- ENOENT, None, v))
       else Ret (err, si, v)
     | None => Ret (err, None, v)
     end).
Proof.
  intros E. unfold find_name, scan, with_node. destruct (get_inode dir v) as [i| | |]; [|done..]. cbn [mbind outcome_bind]. unfold msdos_find. rewrite E.
  destruct (fat_scan sb lay ops alloc sleep res (node i) (fs v)) as [[[[err si] n] s]| | |]; [|done..]. cbn [mbind outcome_bind].
  destruct si as [si|]; [|done]. destruct ((err =? 0) && dotsOK opts); [|done]. cbn [fs put_inode set_fs].
  destruct (dirent s (si_de si)) as [e| | |]; [|done..]. cbn [mbind outcome_bind]. unfold entry_hidden. by destruct (Bool.eqb _ _).
Qed.

Lemma find_rep v d name :
  rep v d → Forall is_byte name →
  ∃ v', rep v' d ∧ fs v' = fs v ∧ (∀ a, a ≠ dir → inodes v' !! a = inodes v !! a) ∧
    find_name opts sb lay ops alloc sleep dir name v =
      Ret (match find_in opts d name with Some (_, j, _) => (0, Some (found sb lay phys j), v') | None => (- ENOENT, None, v') end).
Proof.
  intros Hr Hb. unfold find_in. destruct (msdos_format_name opts name) as [res|] eqn:E.
  - destruct (scan_rep v d res Hr (format_length opts name res Hb E) (formatted_nonzero opts name res Hb E)) as (v' & Hr' & Ef & _ & Ho & Es).
    exists v'. do 3 (split; [done|]). rewrite (find_name_scan name res v E), Es. cbn [mbind option_bind]. destruct (names d !! res) as [[j e]|] eqn:En; cbn [mbind outcome_bind option_bind]; [|done].
    apply (rep_names _ _ Hr') in En as (Hj & _ & He & _). change (0 =? 0) with true. unfold visible. cbn [andb]. destruct (dotsOK opts); cbn [negb orb]; [|done].
    change (si_de (found sb lay phys j)) with (place_of sb phys j). rewrite (dirent_spec sb lay ops alloc sleep inv good blocks phys _ (rep_good _ _ Hr') j Hj), He.
    cbn [mbind outcome_bind]. by destruct (Bool.eqb _ _).
  - destruct (rep_dir _ _ Hr) as (i & Hi & Hinv). exists (put_inode dir (set_node (node i) i) v). split; [by apply (rep_put v d dir i)|].
    split; [done|]. split; [intros a Ha; cbn; by rewrite lookup_insert_ne|]. unfold find_name, with_node, get_inode, msdos_find. rewrite Hi, E. cbn [mbind outcome_bind option_bind].
    by rewrite set_fs_id.
Qed.

(** ** The directory at the mount *)

Definition live_names (s : fatfs) : list (list Z * (Z * msdos_dir_entry)) :=
  (λ j, (de_name (entry s j), (j, entry s j))) <$> filter (λ j, live sb phys s j = true) (seqZ 0 nr).

Definition abs_dir (s : fatfs) : adir :=
  Adir (list_to_map (live_names s)) ∅ (list_to_set (filter (λ j, free_at sb phys s j = true) (seqZ 0 nr))).

Lemma rep_mount v i :
  good (fs v) → NoDup (live_names (fs v)).*1 → inodes v !! dir = Some i → inv (node i) → rep (fat_hash_init v) (abs_dir (fs v)).
Proof.
  intros Hg Hnd Hi Hinv. assert (∀ a p, ¬ live_at (fat_hash_init v) a p) as Hno.
  { intros a p [(h & l & Hl & Ha) _]. cbn in Hl. apply lookup_replicate in Hl as [-> _]. by apply not_elem_of_nil in Ha. }
  split; cbn [abs_dir names icache free_slots fs fat_hash_init set_table]; try done.
  - apply init_hash_ok.
  - by exists i.
  - intros name j e. rewrite <- elem_of_list_to_map by done. unfold live_names. rewrite list_elem_of_fmap. split.
    + intros (x & [= -> -> ->] & (Hl & Hx)%list_elem_of_filter). apply elem_of_seqZ in Hx. split; [lia|done].
    + intros (Hj & Hl & <- & <-). exists j. split; [done|]. apply list_elem_of_filter. split; [done|]. apply elem_of_seqZ. lia.
  - intros j a. rewrite lookup_empty. split; [done|]. intros [_ H]. by apply Hno in H.
  - intros j a _ H. by apply Hno in H.
  - intros j. rewrite elem_of_list_to_set, list_elem_of_filter, elem_of_seqZ. split; [intros [H ?]; split; [lia|done]|intros [? H]; split; [done|lia]].
  - intros j a _ H. by apply Hno in H.
Qed.
(** ** The inode of an entry *)

Context (Hnew : ∀ w, ∃ a, new_inode k w = Some a ∧ inodes w !! a = None).
Context (Hbits : dir_per_block_bits lay = s_blocksize_bits sb - 5) (Hphys : ∀ i, 0 ≤ i < blocks → 0 ≤ phys i).

Lemma pos_of_inj i j : 0 ≤ i < nr → 0 ≤ j < nr → pos_of i = pos_of j → i = j.
Proof.
  intros Hi Hj. destruct (in_block sb lay ops alloc sleep inv good blocks phys i Hi) as [Hi1 Hi2], (in_block sb lay ops alloc sleep inv good blocks phys j Hj) as [Hj1 Hj2].
  pose proof (geo_bits sb (map_geometry (DirMap := DirMap0))) as Hg.
  assert (dir_per_block sb = 2 ^ (s_blocksize_bits sb - 5)) as Ed.
  { unfold dir_per_block, s_blocksize. change 32 with (2 ^ 5). rewrite <- Z.pow_sub_r by lia. done. }
  assert (∀ x, 0 ≤ x < nr → pos_of x = phys (x / dir_per_block sb) * dir_per_block sb + x mod dir_per_block sb) as Hpos.
  { intros x Hx. destruct (in_block sb lay ops alloc sleep inv good blocks phys x Hx) as [Hx1 Hx2]. unfold pos_of, found, fat_make_i_pos, place_of. cbn [i_pos fst snd].
    rewrite Z.div_mul by done. rewrite Hbits, lor_shiftl_add by lia. by rewrite Ed. }
  rewrite !Hpos by done. intros E. assert (phys (i / dir_per_block sb) = phys (j / dir_per_block sb) ∧ i mod dir_per_block sb = j mod dir_per_block sb) as [E1 E2]
    by (apply (Z.div_mod_unique (dir_per_block sb)); lia).
  apply (map_inj (DirMap := DirMap0)) in E1; [|done|done]. rewrite (Z.div_mod i (dir_per_block sb)), (Z.div_mod j (dir_per_block sb)) by lia. congruence.
Qed.

Lemma fill_file i de s :
  entry_is_dir de = false → ∃ i', fat_fill_inode sb lay ops alloc sleep o k i de s = Ret (0, i', s) ∧ S_ISDIR (i_mode i') = false.
Proof.
  intros Hd. unfold entry_is_dir in Hd. unfold fat_fill_inode. rewrite Hd. cbn [andb mbind outcome_bind]. change (0 <? 0) with false. cbv iota. unfold fill_times.
  destruct (dos2unix_total (tz_minuteswest o) (de_time de) (de_date de)) as [t1 ->], (dos2unix_total (tz_minuteswest o) (de_ctime de) (de_cdate de)) as [t2 ->],
    (dos2unix_total (tz_minuteswest o) 0 (de_adate de)) as [t3 ->]. cbn [mbind outcome_bind].
  destruct (file_mode_spec o (de_attr de) (drop 8 (de_name de))) as [Hm _]. destruct (opt_isvfat o); eexists; (split; [reflexivity|exact Hm]).
Qed.

(** A new inode at a position where there is none. *)
Lemma attach_new v a i p :
  hash_ok sb_addr v → inodes v !! a = None → i_freeing i = false → (∀ b, ¬ live_at v b p) →
  ∃ w, fat_attach sb_addr a p (put_inode a i v) = Ret w ∧ hash_ok sb_addr w ∧ fs w = fs v ∧ inodes w = <[a := set_pos p i]> (inodes v) ∧
    ∀ b q, live_at w b q ↔ (b = a ∧ q = p) ∨ live_at v b q.
Proof.
  intros Hv Ha Hf Hno. pose proof (not_in_table sb_addr v a Hv Ha) as Hna.
  destruct (fat_attach_spec sb_addr (put_inode a i v) a i p) as (w & E & Ef & Ei & Hw & Hh & Hl).
  - rewrite <- (set_fs_id v). by apply hash_ok_new.
  - apply lookup_insert_eq.
  - exact Hna.
  - intros b. rewrite <- (set_fs_id v), live_new by done. apply Hno.
  - assert (inodes w = <[a := set_pos p i]> (inodes v)) as Ew by (rewrite Ei; cbn; by rewrite insert_insert_eq).
    exists w. do 4 (split; [done|]). intros b q. unfold live_at. rewrite Hh, Ew. change (hashed (put_inode a i v) b) with (hashed v b).
    destruct (decide (b = a)) as [->|Hne].
    + rewrite lookup_insert_eq. split; [intros [_ (x & [= <-] & Hp & _)]; left; by cbn in Hp|]. intros [[_ ->]|[? _]]; [|done]. split; [by left|]. by exists (set_pos p i).
    + rewrite lookup_insert_ne by done. split; [intros [[?|?] Hx]; [done|by right]|]. intros [[? _]|[? Hx]]; [done|]. split; [by right|done].
Qed.

(** One inode more, at a slot in use. *)
Lemma rep_attach v w d j a :
  rep v d → hash_ok sb_addr w → fs w = fs v → (∃ i, inodes w !! dir = Some i ∧ inv (node i)) → a ≠ dir →
  0 ≤ j < nr → live sb phys (fs v) j = true → icache d !! j = None → (∀ b p, live_at w b p ↔ (b = a ∧ p = pos_of j) ∨ live_at v b p) →
  mode_dir w a = Some (entry_is_dir (entry (fs v) j)) → (∀ b p, live_at v b p → mode_dir w b = mode_dir v b) →
  rep w (Adir (names d) (<[j := a]> (icache d)) (free_slots d)).
Proof.
  intros [H1 H2 H3 H4 H5 H6 H7 H8 H9] Hw Ef Hd Hne Hj Hl Hc Hlw Hma Hmb. split; cbn [names icache free_slots]; rewrite ?Ef; try done.
  - intros x Hx [[? _]|Hx']%Hlw; [by destruct Hne|]. by apply (H4 x).
  - intros x b. rewrite lookup_insert_Some, Hlw, H6. split.
    + intros [[<- <-]|[Hne' [Hx Hb]]]; [by split; [|left]|]. split; [done|by right].
    + intros [Hx [[-> Hp]|Hb]]; [left; split; [|done]; symmetry; by apply pos_of_inj|]. right. split; [|done]. intros <-.
      assert (icache d !! j = Some b) as Hcb by (by apply H6). by rewrite Hcb in Hc.
  - intros x b Hx [[_ Hp]|Hb]%Hlw; [|by apply (H7 x b)]. by rewrite (pos_of_inj x j Hx Hj Hp).
  - intros x b Hx [[-> Hp]|Hb]%Hlw; [by rewrite (pos_of_inj x j Hx Hj Hp)|]. rewrite (Hmb b _ Hb). by apply H9.
Qed.

(** An entry of a file gives the inode in memory, or a new one. *)
Lemma build_rep v d name j e :
  rep v d → names d !! name = Some (j, e) → entry_is_dir e = false →
  ∃ a v', build sb lay ops alloc sleep o sb_addr k (found sb lay phys j) v = Ret (inr a, v') ∧
    rep v' (Adir (names d) (<[j := a]> (icache d)) (free_slots d)) ∧ fs v' = fs v ∧ a ≠ dir ∧ is_Some (inodes v' !! a) ∧
    (icache d !! j = Some a ∨ icache d !! j = None ∧ inodes v !! a = None).
Proof.
  intros Hr En Hd. pose proof En as (Hj & Hl & He & _)%(rep_names _ _ Hr). unfold build. change (si_de (found sb lay phys j)) with (place_of sb phys j).
  rewrite (dirent_spec sb lay ops alloc sleep inv good blocks phys _ (rep_good _ _ Hr) j Hj), He. cbn [mbind outcome_bind]. fold (pos_of j). unfold fat_build_inode.
  destruct (fat_iget_spec sb_addr v (pos_of j) (rep_hash _ _ Hr)) as [(a & i & -> & Ha & Hi)|[-> Hno]]; cbn [mbind outcome_bind].
  - assert (icache d !! j = Some a) as Hc by (by apply (rep_cache _ _ Hr)). exists a. eexists. split; [reflexivity|]. split.
    { rewrite insert_id by done. assert (a ≠ dir) as Hne by (intros ->; by apply (rep_self _ _ Hr j)).
      destruct d. by apply (rep_put v _ a i). }
    split; [done|]. split; [intros ->; by apply (rep_self _ _ Hr j)|]. split; [cbn; by rewrite lookup_insert_eq|]. by left.
  - destruct (Hnew v) as (a & -> & Ha). destruct (fill_file (fresh_inode k) e (fs v) Hd) as (i & Ei & Hmi). rewrite Ei. cbn [mbind outcome_bind]. change (negb (0 =? 0)) with false. cbv iota.
    rewrite set_fs_id. destruct (attach_new v a i (pos_of j) (rep_hash _ _ Hr) Ha) as (w & -> & Hw & Ef & Ew & Hlw); [by rewrite (fill_freeing _ _ _ _ _ _ _ _ _ _ _ _ _ Ei)|done|].
    cbn [mbind outcome_bind]. destruct (rep_dir _ _ Hr) as (id & Hid & Hinv). assert (a ≠ dir) as Hne by (intros ->; by rewrite Hid in Ha).
    assert (icache d !! j = None) as Hc. { destruct (icache d !! j) as [b|] eqn:Eb; [|done]. apply (rep_cache _ _ Hr) in Eb as [_ Eb]. by destruct (Hno b). }
    exists a, w. split; [done|]. split; [|split; [done|]; split; [done|]; split; [rewrite Ew, lookup_insert_eq; by eexists|by right]].
    apply (rep_attach v); try done.
    + exists id. by rewrite Ew, lookup_insert_ne.
    + unfold mode_dir. rewrite Ew, lookup_insert_eq, He, Hd. cbn. by rewrite Hmi.
    + intros b p [_ (x & Hx & _)]. unfold mode_dir. rewrite Ew, lookup_insert_ne; [done|]. intros <-. by rewrite Hx in Ha.
Qed.

Lemma fresh_unused v d a : rep v d → inodes v !! a = None → unused_inode d a.
Proof. intros Hr Ha j Hj. apply (rep_cache _ _ Hr) in Hj as (_ & _ & x & Hx & _). by rewrite Hx in Ha. Qed.

Lemma find_in_names d name res j e : find_in opts d name = Some (res, j, e) → msdos_format_name opts name = Some res ∧ names d !! res = Some (j, e).
Proof.
  unfold find_in. destruct (msdos_format_name opts name) as [nm|]; [|done]. cbn [mbind option_bind]. destruct (names d !! nm) as [[? ?]|] eqn:En; [|done].
  cbn [mbind option_bind]. destruct (visible _ _ _); [|done]. by intros [= <- <- <-].
Qed.

Lemma lookup_rep v d name :
  rep v d → Forall is_byte name → (∀ res j e, find_in opts d name = Some (res, j, e) → entry_is_dir e = false) →
  ∃ r d' v', msdos_lookup opts sb lay ops alloc sleep o sb_addr k dir name v = Ret (inr r, v') ∧ rep v' d' ∧
    astep opts (tz_minuteswest o) (get_seconds k) d (OpLookup name) (RInode r) d' ∧
    match find_in opts d name with
    | Some (_, j, _) => ∃ a, r = Some a ∧ holds d j a d' ∧ is_Some (inodes v' !! a)
    | None => r = None ∧ d' = d
    end.
Proof.
  intros Hr Hb Hfile. destruct (find_rep v d name Hr Hb) as (w & Hw & _ & _ & E). unfold msdos_lookup. rewrite E. destruct (find_in opts d name) as [[[res j] e]|] eqn:Ef; cbn [mbind outcome_bind].
  - destruct (find_in_names d name res j e Ef) as [_ En].
    destruct (build_rep w d res j e Hw En (Hfile _ _ _ eq_refl)) as (a & v' & -> & Hr' & _ & Hne & Ha & Hc). cbn [mbind outcome_bind].
    eexists _, _, v'. split; [done|]. split; [exact Hr'|]. assert (holds d j a (Adir (names d) (<[j := a]> (icache d)) (free_slots d))) as Hh.
    { split; [done|]. destruct Hc as [Hc|[Hc Hn]]; [by left|right]. split; [done|by eapply fresh_unused]. }
    split; [by eapply al_found|by exists a].
  - exists None, d, w. split; [done|]. split; [done|]. split; [by apply al_none|done].
Qed.

(** ** Creating *)

Context (Hq : quiet env) (Hmax : nr * 32 < FAT_MAX_DIR_SIZE) (Hflush : opt_flush o = false).
Context (Hroot : ∀ n, inv n → i_ino n = MSDOS_ROOT_INO) (Hfat : fat_bits sb ≠ 32) (Hfuel : (0 < wfuel)%nat).

Lemma live_entry s j : live sb phys s j = true → free_at sb phys s j = false.
Proof. unfold live, is_short, free_at. by destruct (IS_FREE _). Qed.

(** A new entry in a free slot. *)
Lemma rep_add v w d j e :
  rep v d → j ∈ free_slots d → is_short e = true → names d !! de_name e = None → hash_ok sb_addr w → good (fs w) →
  (∃ i, inodes w !! dir = Some i ∧ inv (node i)) → same_live v w →
  (∀ x, 0 ≤ x < nr → entry (fs w) x = if decide (x = j) then e else entry (fs v) x) →
  rep w (Adir (<[de_name e := (j, e)]> (names d)) (icache d) (free_slots d ∖ {[j]})).
Proof.
  intros Hr Hfree He Habs Hw Hg Hd Hl V. pose proof Hr as [H1 H2 H3 H4 H5 H6 H7 H8 H9]. apply H8 in Hfree as [Hj Hfree].
  assert (∀ x, 0 ≤ x < nr → live sb phys (fs w) x = if decide (x = j) then true else live sb phys (fs v) x) as VL.
  { intros x Hx. unfold live. rewrite V by done. by case_decide. }
  assert (live sb phys (fs v) j = false) as Hdead by (destruct (live sb phys (fs v) j) eqn:E; [by rewrite (live_entry _ _ E) in Hfree|done]).
  split; cbn [names icache free_slots]; try done.
  - intros x Hx. rewrite (proj1 (Hl dir _)). by apply H4.
  - intros nm x y. rewrite lookup_insert_Some, H5. split.
    + intros [[<- [= <- <-]]|[Hne (Hx & Hlx & Ey & Hn)]]; [rewrite VL, V, !decide_True by done; done|].
      assert (x ≠ j) by (intros ->; by rewrite Hdead in Hlx). by rewrite VL, V, !decide_False by done.
    + intros (Hx & Hlx & Ey & Hn). rewrite V in Ey by done. rewrite VL in Hlx by done. destruct (decide (x = j)) as [->|Hne]; [left; by subst|].
      right. split; [|done]. intros E. subst. assert (names d !! de_name e = Some (x, entry (fs v) x)) as Hsome by (by apply H5). by rewrite Hsome in Habs.
  - intros x b. by rewrite H6, (proj1 (Hl b _)).
  - intros x b Hx Hb%(Hl b). rewrite VL by done. case_decide; [done|by apply (H7 x b)].
  - intros x. rewrite elem_of_difference, elem_of_singleton, H8. unfold free_at. split.
    + intros [[Hx Hfx] Hne]. by rewrite V, decide_False.
    + intros [Hx Hfx]. rewrite V in Hfx by done. destruct (decide (x = j)) as [->|Hne]; [|done].
      unfold is_short in He. by rewrite Hfx in He.
  - intros x b Hx Hb%(Hl b). rewrite (proj2 (Hl b _) Hb), V by done. case_decide; [|by apply H9]. subst. by rewrite (H7 j b Hj Hb) in Hdead.
Qed.

(** Times of the directory and its writing. *)
Lemma sync_root v d b :
  rep v d → ∃ v', sync_or_mark env sb lay o k wfuel b dir v = Ret (0, v') ∧ rep v' d ∧ fs v' = fs v ∧ (∀ a, a ≠ dir → inodes v' !! a = inodes v !! a).
Proof.
  intros Hr. destruct (rep_dir _ _ Hr) as (i & Hi & Hinv). unfold sync_or_mark. destruct b.
  - exists v. unfold fat_sync_inode. destruct wfuel as [|f]; [lia|]. cbn [fat_write_inode]. unfold get_inode. rewrite Hi. cbn [mbind outcome_bind].
    by rewrite (Hroot _ Hinv).
  - unfold on_inode, get_inode. rewrite Hi. cbn [mbind outcome_bind]. eexists. split; [done|]. split; [apply (rep_put v d dir i); try done; intros _; by apply map_dirty|].
    split; [done|]. intros a Ha. cbn. by rewrite lookup_insert_ne.
Qed.

Lemma on_dir v d f :
  rep v d → (∀ i, ei_pos (f i) = ei_pos i ∧ i_freeing (f i) = i_freeing i ∧ i_mode (f i) = i_mode i ∧ node (f i) = node i) →
  ∃ v', on_inode dir f v = Ret v' ∧ rep v' d ∧ fs v' = fs v ∧ (∀ a, a ≠ dir → inodes v' !! a = inodes v !! a).
Proof.
  intros Hr Hf. destruct (rep_dir _ _ Hr) as (i & Hi & Hinv). destruct (Hf i) as (H1 & H2 & Hm & H3). unfold on_inode, get_inode. rewrite Hi. cbn [mbind outcome_bind]. eexists.
  split; [done|]. split; [by apply (rep_put v d dir i); rewrite ?H3|]. split; [done|]. intros a Ha. cbn. by rewrite lookup_insert_ne.
Qed.

Lemma is_sync_rep v d : rep v d → ∃ b, is_sync dir v = Ret b.
Proof. intros Hr. destruct (rep_dir _ _ Hr) as (i & Hi & _). unfold is_sync, get_inode. rewrite Hi. by eexists. Qed.

Abbreviation add_call := (msdos_add_entry env sb lay ops needs_sync sync_inode alloc sleep o k wfuel dir).

Lemma add_rep v d name res :
  rep v d → Forall is_byte name → msdos_format_name opts name = Some res → names d !! res = None →
  (free_slots d = ∅ ∧ ∃ v', add_call res false (is_hidden name res) 0 v = Ret (- ENOSPC, None, v') ∧ rep v' d) ∨
  ∃ j time date v', first_free d j ∧ fat_date_unix2dos (tz_minuteswest o) (get_seconds k) = Ret (time, date) ∧
    add_call res false (is_hidden name res) 0 v = Ret (0, Some (found sb lay phys j), v') ∧
    rep v' (Adir (<[res := (j, new_entry res false (starts_with_dot name) 0 time date)]> (names d)) (icache d) (free_slots d ∖ {[j]})) ∧
    (∀ a, a ≠ dir → inodes v' !! a = inodes v !! a).
Proof.
  intros Hr Hb E Habs. destruct (unix2dos_total (tz_minuteswest o) (get_seconds k)) as (time & date & Ed). destruct (rep_dir _ _ Hr) as (i & Hi & Hinv).
  rewrite (hidden_by_dot opts name res Hb E). destruct (new_entry_spec opts name res false (starts_with_dot name) 0 time date Hb E) as (Hlen & Hname & Hshort & _).
  set (e := new_entry res false (starts_with_dot name) 0 time date) in *.
  destruct (add_one env sb lay ops alloc sleep inv good blocks phys Hq needs_sync sync_inode (fs v) e (node i) (rep_good _ _ Hr) Hmax Hinv Hlen) as ([j|] & Hf & Ha); cbn [first_from] in Hf.
  - right. destruct Ha as (n & s & Ea & Hn & Bs). destruct Hf as (Hj & Hfree & Hfirst).
    destruct (put_entry_spec sb lay ops alloc sleep inv good blocks phys (fs v) s j e (rep_good _ _ Hr) Hj Hlen Bs) as [Hg V].
    assert (rep (put_inode dir (set_node n i) (set_fs s v)) (Adir (<[res := (j, e)]> (names d)) (icache d) (free_slots d ∖ {[j]}))) as Hr1.
    { rewrite <- Hname. apply (rep_add v); try done; [by apply (rep_free _ _ Hr)|by rewrite Hname|apply (hash_ok_put sb_addr v dir i); [apply Hr|done..]| |by apply (same_live_put v dir i)].
      exists (set_node n i). cbn. by rewrite lookup_insert_eq. }
    destruct (on_dir _ _ (touch_cm k) Hr1) as (v2 & E2 & Hr2 & _ & Ho2); [done|]. destruct (is_sync_rep _ _ Hr2) as [b E3]. destruct (sync_root _ _ b Hr2) as (v3 & E4 & Hr3 & _ & Ho3).
    exists j, time, date, v3. split; [split; [by apply (rep_free _ _ Hr)|]|split; [done|split; [|split; [done|]]]].
    { intros x (Hx & Hfx)%(rep_free _ _ Hr). destruct (decide (x < j)); [|lia]. by rewrite Hfirst in Hfx by lia. }
    2:{ intros a Ha. rewrite Ho3, Ho2 by done. cbn. by rewrite lookup_insert_ne. }
    unfold msdos_add_entry, with_node, get_inode. rewrite Hi. cbn [mbind outcome_bind]. unfold msdos_add_de. rewrite Ed. cbn [mbind outcome_bind]. fold e. rewrite Ea. cbn [mbind outcome_bind].
    change (negb (0 =? 0)) with false. cbv iota. rewrite E2. cbn [mbind outcome_bind]. rewrite E3. cbn [mbind outcome_bind]. rewrite E4. done.
  - left. split.
    { apply set_eq. intros x. rewrite (rep_free _ _ Hr). split; [|set_solver]. intros [Hx Hfx]. by rewrite Hf in Hfx. }
    destruct Ha as (n & Ea & Hn); [by apply Hroot|done|intros; rewrite !Hroot; done|]. exists (put_inode dir (set_node n i) v). split; [|by apply (rep_put v d dir i)].
    unfold msdos_add_entry, with_node, get_inode. rewrite Hi. cbn [mbind outcome_bind]. unfold msdos_add_de. rewrite Ed. cbn [mbind outcome_bind]. fold e. rewrite Ea. cbn [mbind outcome_bind].
    change (negb (- ENOSPC =? 0)) with true. cbv iota. by rewrite set_fs_id.
Qed.

Lemma new_entry_file name res hid time date :
  Forall is_byte name → msdos_format_name opts name = Some res → entry_is_dir (new_entry res false hid 0 time date) = false.
Proof.
  intros Hb E. pose proof (format_length opts name res Hb E) as Hl. unfold entry_is_dir, de_attr, new_entry.
  rewrite lookup_app_r by (rewrite Hl; unfold MSDOS_NAME; lia). rewrite Hl. by destruct hid.
Qed.

Lemma create_rep v d name :
  rep v d → Forall is_byte name →
  ∃ err r d' v', msdos_create opts env sb lay ops needs_sync sync_inode alloc sleep o sb_addr k wfuel dir name v = Ret (err, r, v') ∧ rep v' d' ∧
    astep opts (tz_minuteswest o) (get_seconds k) d (OpCreate name) (if err =? 0 then RInode r else RError err) d'.
Proof.
  intros Hr Hb. unfold msdos_create. destruct (msdos_format_name opts name) as [res|] eqn:E.
  2:{ exists (- EINVAL), None, d, v. split; [done|]. split; [done|]. by apply ac_invalid. }
  destruct (scan_rep v d res Hr (format_length opts name res Hb E) (formatted_nonzero opts name res Hb E)) as (v1 & Hr1 & _ & _ & _ & ->).
  destruct (names d !! res) as [[j e]|] eqn:En; cbn [mbind outcome_bind].
  { change (0 =? 0) with true. cbv iota. exists (- EINVAL), None, d, v1. split; [done|]. split; [done|]. by eapply ac_exists. }
  change (- ENOENT =? 0) with false. cbv iota.
  destruct (add_rep v1 d name res Hr1 Hb E En) as [(Hfull & v2 & -> & Hr2)|(j & time & date & v2 & Hj & Ed & -> & Hr2 & _)]; cbn [mbind outcome_bind].
  { change (negb (- ENOSPC =? 0)) with true. cbv iota. exists (- ENOSPC), None, d, v2. split; [done|]. split; [done|]. by eapply ac_full. }
  change (negb (0 =? 0)) with false. cbv iota. set (e := new_entry res false (starts_with_dot name) 0 time date) in *.
  pose proof (new_entry_file name res (starts_with_dot name) time date Hb E : entry_is_dir e = false) as He.
  destruct (build_rep v2 _ res j e Hr2 (lookup_insert_eq _ _ _) He) as (a & v3 & -> & Hr3 & _ & Hne & [i Hi] & Hc). cbn [mbind outcome_bind names icache free_slots] in *.
  assert (icache d !! j = None ∧ inodes v2 !! a = None) as [Hc1 Hc2].
  { destruct Hc as [Hc|Hc]; [|done]. apply (rep_cache _ _ Hr1) in Hc as [Hjr Hc]. destruct Hj as [Hj _]. apply (rep_free _ _ Hr1) in Hj as [_ Hj].
    by rewrite (live_entry _ _ (rep_used _ _ Hr1 j a Hjr Hc)) in Hj. }
  unfold on_inode, get_inode, flush, fat_flush_inodes. rewrite Hi, Hflush. cbn [mbind outcome_bind negb]. change (0 =? 0) with true. cbv iota. cbn [mbind outcome_bind].
  eexists 0, (Some a), _, _. split; [done|]. split; [apply (rep_put v3 _ a i); try done; by intros ->|]. change (0 =? 0) with true. cbv iota.
  eapply ac_new; try done. intros x Hx. by apply (fresh_unused v2 _ a Hr2 Hc2 x).
Qed.

(** ** Removing *)

Lemma detach_live v a i s b p :
  live_at (Volume s (<[a := i]> (inodes v)) (hlist_del_init a (inode_hashtable v))) b p ↔ b ≠ a ∧ live_at v b p.
Proof.
  unfold live_at. rewrite hashed_detach. cbn [inodes]. split.
  - intros [[Hne Hh] Hx]. rewrite lookup_insert_ne in Hx by done. done.
  - intros (Hne & Hh & Hx). rewrite lookup_insert_ne by done. done.
Qed.

(** The inode of a slot leaves the table. *)
Lemma rep_detach v d j a i :
  rep v d → icache d !! j = Some a →
  rep (Volume (fs v) (<[a := i]> (inodes v)) (hlist_del_init a (inode_hashtable v))) (Adir (names d) (delete j (icache d)) (free_slots d)).
Proof.
  intros Hr Ea. pose proof Hr as [H1 H2 H3 H4 H5 H6 H7 H8 H9]. pose proof Ea as [Hj Ha]%H6. assert (a ≠ dir) as Hne by (intros ->; by apply (H4 j)).
  split; cbn [names icache free_slots fs]; try done.
  - by apply hash_ok_del.
  - destruct H3 as (y & Hy & Hinv). exists y. cbn. by rewrite lookup_insert_ne.
  - intros x Hx [_ Hx']%detach_live. by apply (H4 x).
  - intros x b. rewrite lookup_delete_Some, H6, detach_live. split.
    + intros (Hxj & Hx & Hb). split; [done|]. split; [|done]. intros ->. apply Hxj. apply pos_of_inj; try done.
      destruct Ha as [_ (y & Hy & <- & _)], Hb as [_ (z & Hz & <- & _)]. congruence.
    + intros (Hx & Hba & Hb). split; [|done]. intros ->. apply Hba. by apply (h_unique _ _ H1 b a (pos_of x)).
  - intros x b Hx [_ Hb]%detach_live. by apply (H7 x b).
  - intros x b Hx [Hba Hb]%detach_live. unfold mode_dir. cbn. rewrite lookup_insert_ne by done. by apply H9.
Qed.

(** An entry without an inode goes. *)
Lemma rep_gone v w d name j e :
  rep v d → names d !! name = Some (j, e) → icache d !! j = None → hash_ok sb_addr w → good (fs w) →
  (∃ i, inodes w !! dir = Some i ∧ inv (node i)) → same_live v w →
  (∀ x, 0 ≤ x < nr → entry (fs w) x = if decide (x = j) then deleted e else entry (fs v) x) →
  rep w (Adir (delete name (names d)) (icache d) ({[j]} ∪ free_slots d)).
Proof.
  intros Hr En Ea Hw Hg Hd Hl V. pose proof Hr as [H1 H2 H3 H4 H5 H6 H7 H8 H9]. apply H5 in En as (Hj & Hlj & Ej & Hn).
  assert (∀ x, 0 ≤ x < nr → live sb phys (fs w) x = if decide (x = j) then false else live sb phys (fs v) x) as VL.
  { intros x Hx. unfold live. rewrite V by done. by case_decide. }
  split; cbn [names icache free_slots]; try done.
  - intros x Hx Hx'%(Hl dir). by apply (H4 x).
  - intros nm x y. rewrite lookup_delete_Some, H5. split.
    + intros (Hne & Hx & Hlx & Ey & Hnm). assert (x ≠ j) by (intros ->; congruence). by rewrite VL, V, !decide_False by done.
    + intros (Hx & Hlx & Ey & Hnm). rewrite VL in Hlx by done. rewrite V in Ey by done. destruct (decide (x = j)) as [->|Hne]; [done|]. split; [|done].
      intros ->. apply Hne. assert (names d !! nm = Some (x, y)) as N1 by (by apply H5). assert (names d !! nm = Some (j, e)) as N2 by (by apply H5). congruence.
  - intros x b. by rewrite H6, (proj1 (Hl b _)).
  - intros x b Hx Hb%(Hl b). rewrite VL by done. case_decide as Hxj; [|by apply (H7 x b)]. subst.
    assert (icache d !! j = Some b) as Hcb by (by apply H6). by rewrite Hcb in Ea.
  - intros x. rewrite elem_of_union, elem_of_singleton, H8. unfold free_at. split.
    + intros [->|[Hx Hf]]; [by rewrite V, decide_True|]. rewrite V by done. by case_decide.
    + intros [Hx Hf]. rewrite V in Hf by done. destruct (decide (x = j)); [by left|by right].
  - intros x b Hx Hb%(Hl b). rewrite (proj2 (Hl b _) Hb), V by done. case_decide as Hxj; [|by apply H9]. subst.
    assert (icache d !! j = Some b) as Hcb by (by apply H6). by rewrite Hcb in Ea.
Qed.

(** The entry of a slot goes, and the inode of the slot is taken out of the
    table. *)
Lemma rep_del v w d name j e a :
  rep v d → names d !! name = Some (j, e) → icache d !! j = Some a → hash_ok sb_addr w → good (fs w) →
  (∃ i, inodes w !! dir = Some i ∧ inv (node i)) → (∀ b p, live_at w b p ↔ b ≠ a ∧ live_at v b p) → (∀ b, b ≠ a → mode_dir w b = mode_dir v b) →
  (∀ x, 0 ≤ x < nr → entry (fs w) x = if decide (x = j) then deleted e else entry (fs v) x) →
  rep w (Adir (delete name (names d)) (delete j (icache d)) ({[j]} ∪ free_slots d)).
Proof.
  intros Hr En Ea Hw Hg Hd Hl Hm V. pose proof Ea as [_ [_ (x & Hx & _)]]%(rep_cache _ _ Hr).
  apply (rep_gone _ w _ name j e (rep_detach v d j a x Hr Ea)); try done; [cbn; by rewrite lookup_delete_eq|].
  intros b p. rewrite Hl, detach_live. split; [done|]. intros [Hne Hb]. unfold mode_dir at 2. cbn. rewrite lookup_insert_ne by done. by apply Hm.
Qed.

Lemma put_put a i i' v s : put_inode a i (put_inode a i' (set_fs s v)) = put_inode a i (set_fs s v).
Proof. unfold put_inode. cbn. by rewrite insert_insert_eq. Qed.

Lemma remove_rep v d name j e :
  rep v d → names d !! name = Some (j, e) →
  ∃ i i' t, remove_entries env sb lay ops alloc sleep o k wfuel dir (found sb lay phys j) v = Ret (0, put_inode dir i' (set_fs t v)) ∧
    inodes v !! dir = Some i ∧ ei_pos i' = ei_pos i ∧ i_freeing i' = i_freeing i ∧ i_mode i' = i_mode i ∧ inv (node i') ∧ good t ∧
    ∀ x, 0 ≤ x < nr → entry t x = if decide (x = j) then deleted e else entry (fs v) x.
Proof.
  intros Hr (Hj & Hl & He & _)%(rep_names _ _ Hr). destruct (rep_dir _ _ Hr) as (i & Hi & Hinv).
  destruct (remove_one env sb lay ops alloc sleep inv good blocks phys Hq (fs v) j (pos_of j) (32 * j) (node i) (rep_good _ _ Hr) Hj Hinv) as (n & t & E & Hn & Bt).
  rewrite He in Bt. destruct (put_entry_spec sb lay ops alloc sleep inv good blocks phys (fs v) t j (deleted e) (rep_good _ _ Hr) Hj) as [Hg V]; [|done|].
  { unfold deleted. cbn [length]. rewrite length_drop, <- He. by rewrite (entry_length sb lay ops alloc sleep inv good blocks phys _ _ (rep_good _ _ Hr) Hj). }
  exists i, (touch_ma k (set_node n i)), t. split; [|done]. unfold remove_entries, with_node, get_inode. rewrite Hi. cbn [mbind outcome_bind].
  change (SlotInfo (pos_of j) (32 * j) 1 (place_of sb phys j)) with (found sb lay phys j) in E. rewrite E. cbn [mbind outcome_bind].
  change (negb (0 =? 0)) with false. cbv iota. unfold on_inode, is_sync, get_inode. cbn [inodes put_inode set_fs]. rewrite !lookup_insert_eq. cbn [mbind outcome_bind].
  rewrite put_put. cbn [inodes put_inode set_fs]. rewrite lookup_insert_eq. cbn [mbind outcome_bind]. destruct (is_dirsync _); cbn [mbind outcome_bind]; [|done].
  unfold fat_sync_inode. destruct wfuel as [|f]; [lia|]. cbn [fat_write_inode]. unfold get_inode. cbn [inodes put_inode set_fs]. rewrite lookup_insert_eq. cbn [mbind outcome_bind].
  change (i_ino (node (touch_ma k (set_node n i)))) with (i_ino n). by rewrite (Hroot n Hn).
Qed.

Lemma unlink_rep v d name res j e a :
  rep v d → Forall is_byte name → find_in opts d name = Some (res, j, e) → icache d !! j = Some a →
  ∃ v', msdos_unlink opts env sb lay ops alloc sleep o k wfuel dir name a v = Ret (0, v') ∧
    rep v' (Adir (delete res (names d)) (delete j (icache d)) ({[j]} ∪ free_slots d)) ∧
    ¬ hashed v' a ∧ ∃ x, inodes v' !! a = Some x ∧ ei_pos x = 0 ∧ i_nlink x = 0.
Proof.
  intros Hr Hb Hf Ha. destruct (find_rep v d name Hr Hb) as (v1 & Hr1 & _ & _ & E1). rewrite Hf in E1. destruct (find_in_names d name res j e Hf) as [_ En].
  destruct (remove_rep v1 d res j e Hr1 En) as (i & i' & t & E2 & Hi & Hp & Hfr & Hm & Hinv & Hg & V). pose proof Ha as [Hj Hl]%(rep_cache _ _ Hr1).
  assert (a ≠ dir) as Hne by (intros ->; by apply (rep_self _ _ Hr1 j)). pose proof Hl as [_ (x & Hx & _)].
  set (w1 := put_inode dir i' (set_fs t v1)) in *. assert (hash_ok sb_addr w1) as Hw1 by (apply (hash_ok_put sb_addr v1 dir i); [apply Hr1|done..|congruence]).
  assert (inodes w1 !! a = Some x) as Hx1 by (cbn; by rewrite lookup_insert_ne). set (x' := touch_c k (set_nlink 0 x)). set (w2 := put_inode a x' w1).
  assert (hash_ok sb_addr w2) as Hw2 by (unfold w2; rewrite <- (set_fs_id w1); by apply (hash_ok_put sb_addr w1 a x)).
  destruct (fat_detach_spec sb_addr w2 a x' Hw2) as (w3 & E3 & Ew & Hw3 & Hna); [apply lookup_insert_eq|].
  exists w3. split.
  { unfold msdos_unlink, drop_entry. rewrite E1. cbn [mbind outcome_bind]. change (negb (0 =? 0)) with false. cbv iota. rewrite E2. cbn [mbind outcome_bind].
    change (negb (0 =? 0)) with false. cbv iota. fold w1. unfold on_inode, get_inode. rewrite Hx1. cbn [mbind outcome_bind]. fold x'. fold w2. rewrite E3. cbn [mbind outcome_bind].
    unfold flush, fat_flush_inodes. by rewrite Hflush. }
  split; [|split; [done|]; exists (set_pos 0 x'); subst w3; cbn; by rewrite lookup_insert_eq].
  apply (rep_del v1 w3 d res j e a); try done; subst w3; cbn [fs]; try done.
  - exists i'. cbn. by rewrite !lookup_insert_ne, lookup_insert_eq by done.
  - intros b p. rewrite detach_live. pose proof (same_live_put w1 a x x' (fs w1) Hx1 eq_refl eq_refl eq_refl b p) as [H12 _].
    pose proof (same_live_put v1 dir i i' t Hi Hp Hfr Hm b p) as [H01 _]. split; [intros [? H]|intros [? H]]; (split; [done|]); [by apply H01, H12|by apply H12, H01].
  - intros b Hba. unfold mode_dir. cbn. rewrite !lookup_insert_ne by done. destruct (decide (b = dir)) as [->|Hbd]; [|by rewrite lookup_insert_ne].
    rewrite lookup_insert_eq, Hi. cbn. by rewrite Hm.
Qed.

(** ** Renaming *)

Section rename_file.
Context (Hnosync : ∀ n, inv n → is_dirsync n = false).

Lemma is_sync_off v d : rep v d → is_sync dir v = Ret false.
Proof. intros Hr. destruct (rep_dir _ _ Hr) as (i & Hi & Hinv). unfold is_sync, get_inode. rewrite Hi. cbn [mbind outcome_bind]. by rewrite (Hnosync _ Hinv). Qed.

(** The inode of slot [j] is put to slot [j']. *)
Lemma reattach_rep v d j j' a x :
  rep v d → icache d !! j = Some a → icache d !! j' = None → inodes v !! a = Some x → 0 ≤ j' < nr → live sb phys (fs v) j' = true →
  entry_is_dir (entry (fs v) j') = entry_is_dir (entry (fs v) j) →
  ∃ w1 w2, fat_detach a v = Ret w1 ∧ fat_attach sb_addr a (pos_of j') w1 = Ret w2 ∧ inodes w2 !! a = Some (set_pos (pos_of j') x) ∧ (∀ b, b ≠ a → inodes w2 !! b = inodes v !! b) ∧
    rep w2 (Adir (names d) (<[j' := a]> (delete j (icache d))) (free_slots d)).
Proof.
  intros Hr Ea Ea' Hx Hj' Hl' Hdd. pose proof Ea as [Hj Hl]%(rep_cache _ _ Hr).
  assert (a ≠ dir) as Hne by (intros ->; by apply (rep_self _ _ Hr j)). assert (j ≠ j') as Hjj by (intros ->; by rewrite Ea in Ea').
  destruct (fat_detach_spec sb_addr v a x (rep_hash _ _ Hr) Hx) as (w1 & E1 & Ew1 & Hw1 & Hna). pose proof (rep_detach v d j a (set_pos 0 x) Hr Ea) as Hr1. rewrite <- Ew1 in Hr1.
  assert (∀ b, ¬ live_at w1 b (pos_of j')) as Hno.
  { intros b Hb. assert (delete j (icache d) !! j' = Some b) as Hd by (by apply (rep_cache _ _ Hr1)). rewrite lookup_delete_ne in Hd by done. by rewrite Hd in Ea'. }
  assert (inodes w1 !! a = Some (set_pos 0 x)) as Hx1 by (subst w1; cbn; by rewrite lookup_insert_eq).
  destruct (fat_attach_spec sb_addr w1 a _ (pos_of j') Hw1 Hx1 Hna Hno) as (w2 & E2 & Ef2 & Ei2 & Hw2 & Hh2 & Hl2).
  assert (i_freeing x = false) as Hfr by (destruct Hl as [_ (y & Hy & _ & Hfy)]; congruence).
  exists w1, w2. do 2 (split; [done|]). split; [by rewrite Ei2, lookup_insert_eq|]. split; [intros b Hb; rewrite Ei2, lookup_insert_ne by done; subst w1; cbn; by rewrite lookup_insert_ne|].
  apply (rep_attach w1 w2 (Adir (names d) (delete j (icache d)) (free_slots d)) j' a Hr1 Hw2 Ef2); try done; cbn [icache].
  - destruct (rep_dir _ _ Hr1) as (y & Hy & Hinv). exists y. by rewrite Ei2, lookup_insert_ne.
  - by subst w1.
  - by rewrite lookup_delete_ne.
  - intros b p. specialize (Hl2 Hfr). split.
    + intros [Hh (y & Hy & Hp & Hfy)]. rewrite Ei2 in Hy. apply Hh2 in Hh. destruct (decide (b = a)) as [->|Hba].
      * rewrite lookup_insert_eq in Hy. injection Hy as <-. by left.
      * rewrite lookup_insert_ne in Hy by done. right. destruct Hh as [?|Hh]; [done|]. split; [done|by exists y].
    + intros [[-> ->]|[Hh (y & Hy & Hr')]]; [done|]. split; [by apply Hh2; right|]. exists y. rewrite Ei2, lookup_insert_ne; [done|]. by intros <-.
  - pose proof (rep_mode _ _ Hr j a Hj Hl) as Hm. unfold mode_dir in *. rewrite Hx in Hm. rewrite Ei2, lookup_insert_eq. subst w1. cbn in *. by rewrite Hdd.
  - intros b p [Hb _]. unfold mode_dir. rewrite Ei2, lookup_insert_ne; [done|]. by intros <-.
Qed.

Lemma mark_rep v d a x :
  rep v d → inodes v !! a = Some x → a ≠ dir →
  sync_or_mark env sb lay o k wfuel false a v = Ret (0, put_inode a (set_node (mark_inode_dirty (node x)) x) v) ∧
  rep (put_inode a (set_node (mark_inode_dirty (node x)) x) v) d.
Proof.
  intros Hr Hx Hne. split; [|by apply (rep_put v d a x)]. unfold sync_or_mark, on_inode, get_inode. by rewrite Hx.
Qed.

(** The links of an inode whose name is taken over. *)
Lemma taken_over v d n :
  rep v d → match n with Some b => b ≠ dir ∧ is_Some (inodes v !! b) | None => True end →
  ∃ v', match n with Some b => v ← drop_nlink b v; v ← (if false then drop_nlink b v else Ret v); on_inode b (touch_c k) v | None => Ret v end = Ret v' ∧
    rep v' d ∧ ∀ c, Some c ≠ n → inodes v' !! c = inodes v !! c.
Proof.
  intros Hr Hn. destruct n as [b|]; [|by exists v]. destruct Hn as [Hne [y Hy]]. unfold drop_nlink, on_inode, get_inode. rewrite Hy. cbn [mbind outcome_bind].
  cbn [inodes put_inode]. rewrite lookup_insert_eq. cbn [mbind outcome_bind]. eexists. split; [reflexivity|]. split.
  - eapply rep_put; [by apply (rep_put v d b y)|by apply lookup_insert_eq|done..].
  - intros c Hc. cbn. by rewrite !lookup_insert_ne by congruence.
Qed.

(** The inode of slot [j] is moved to slot [j'], and the old entry removed. *)
Lemma move_rep v d ro j e rn j' e' a x attrs hid n :
  rep v d → names d !! ro = Some (j, e) → names d !! rn = Some (j', e') → icache d !! j = Some a → icache d !! j' = None → inodes v !! a = Some x →
  entry_is_dir e' = entry_is_dir e → n ≠ Some a → match n with Some b => b ≠ dir ∧ is_Some (inodes v !! b) | None => True end →
  ∃ v' x', rename_move env sb lay ops alloc sleep o sb_addr k wfuel (RenameArgs dir dir a n (found sb lay phys j) None attrs hid false) (pos_of j') (found sb lay phys j') v = Ret (0, v') ∧
    rep v' (Adir (delete ro (names d)) (<[j' := a]> (delete j (icache d))) ({[j]} ∪ free_slots d)) ∧
    inodes v' !! a = Some x' ∧ ei_pos x' = pos_of j' ∧ node x' = mark_inode_dirty (node x).
Proof.
  intros Hr En En' Ea Ea' Hx Hdd Hna Hn. pose proof En' as (Hj' & Hl' & He' & _)%(rep_names _ _ Hr). pose proof En as (_ & _ & He & _)%(rep_names _ _ Hr). pose proof Ea as [Hj Hl]%(rep_cache _ _ Hr).
  assert (a ≠ dir) as Hne by (intros ->; by apply (rep_self _ _ Hr j)). assert (j ≠ j') as Hjj by (intros ->; by rewrite Ea in Ea').
  rewrite <- He, <- He' in Hdd. destruct (reattach_rep v d j j' a x Hr Ea Ea' Hx Hj' Hl' Hdd) as (w1 & w2 & E1 & E2 & Hx2 & Hi2 & Hr2). set (d2 := Adir (names d) _ _) in *. set (x2 := set_pos (pos_of j') x) in *.
  set (x3 := set_attrs (if hid then Z.lor (i_attrs x2) ATTR_HIDDEN else Z.land (i_attrs x2) (Z.lnot ATTR_HIDDEN)) x2).
  assert (rep (put_inode a x3 w2) d2) as Hr3 by (apply (rep_put w2 _ a x2); done).
  destruct (mark_rep (put_inode a x3 w2) d2 a x3 Hr3 (lookup_insert_eq _ _ _) Hne) as [E4 Hr4].
  set (x4 := set_node (mark_inode_dirty (node x3)) x3) in *. set (w4 := put_inode a x4 (put_inode a x3 w2)) in *.
  destruct (remove_rep w4 d2 ro j e Hr4 En) as (i & i' & t & E5 & Hi & Hp & Hf & Hm & Hinv & Hg & V). set (w5 := put_inode dir i' (set_fs t w4)) in *.
  assert (rep w5 (Adir (delete ro (names d)) (<[j' := a]> (delete j (icache d))) ({[j]} ∪ free_slots d))) as Hr5.
  { apply (rep_gone w4 w5 d2 ro j e Hr4 En); try done; cbn [icache d2].
    - by rewrite lookup_insert_ne, lookup_delete_eq.
    - apply (hash_ok_put sb_addr w4 dir i); [apply Hr4|done..|congruence].
    - exists i'. by cbn; rewrite lookup_insert_eq.
    - by apply (same_live_put w4 dir i). }
  destruct (on_dir w5 _ (touch_cm k) Hr5) as (w6 & E6 & Hr6 & _ & Ho6); [done|]. destruct (sync_root w6 _ false Hr6) as (w7 & E7 & Hr7 & _ & Ho7).
  destruct (taken_over w7 _ n Hr7) as (w8 & E8 & Hr8 & Ho8).
  { destruct n as [b|]; [|done]. destruct Hn as [Hbd Hb]. split; [done|]. rewrite Ho7, Ho6 by done. cbn. rewrite !lookup_insert_ne by congruence. by rewrite Hi2 by congruence. }
  assert (set_hidden (RenameArgs dir dir a n (found sb lay phys j) None attrs hid false) w2 = Ret (put_inode a x3 w2)) as E3.
  { unfold set_hidden, on_inode, get_inode. cbn [old_inode]. by rewrite Hx2. }
  exists w8, x4. split; [|split; [done|]; rewrite Ho8, Ho7, Ho6 by done; cbn; rewrite lookup_insert_ne, lookup_insert_eq by done; done].
  unfold rename_move. cbn [old_inode new_dir old_dir dotdot old_sinfo new_ino r_is_hid]. unfold rename_attach. rewrite E1. cbn [mbind outcome_bind]. rewrite E2. cbn [mbind outcome_bind].
  rewrite E3. cbn [mbind outcome_bind]. rewrite (is_sync_off _ _ Hr3). cbn [mbind outcome_bind].
  rewrite E4. cbn [mbind outcome_bind]. change (negb (0 =? 0)) with false. cbv iota. rewrite E5. cbn [mbind outcome_bind]. change (negb (0 =? 0)) with false. cbv iota.
  rewrite E6. cbn [mbind outcome_bind]. rewrite (is_sync_off _ _ Hr6). cbn [mbind outcome_bind]. rewrite E7. cbn [mbind outcome_bind r_is_dir] in *. by rewrite E8.
Qed.

Abbreviation rename_call := (msdos_rename opts env sb lay ops needs_sync sync_inode alloc sleep o sb_addr k wfuel).
Abbreviation args a n j x hid := (RenameArgs dir dir a n (found sb lay phys j) None (i_attrs x) hid false).

(** The two searches of a rename of a file within the directory. *)
Lemma rename_scans v d old new ro rn j e a x n :
  rep v d → Forall is_byte old → Forall is_byte new → msdos_format_name opts old = Some ro → msdos_format_name opts new = Some rn →
  names d !! ro = Some (j, e) → entry_is_dir e = false → icache d !! j = Some a → inodes v !! a = Some x →
  ∃ v', rep v' d ∧ (∀ b, b ≠ dir → inodes v' !! b = inodes v !! b) ∧
    rename_call dir old a dir new n v =
      ('(err, v) ←
        match n with
        | None =>
          match names d !! rn with
          | Some (j', _) => if bool_decide (place_of sb phys j' = place_of sb phys j) then rename_hidden env sb lay o k wfuel (args a n j x (starts_with_dot new)) v' else Ret (- EINVAL, v')
          | None =>
            '(err, si, v) ← add_call rn false (starts_with_dot new) 0 v';
            if negb (err =? 0) then Ret (err, v) else
            match si with Some si => rename_move env sb lay ops alloc sleep o sb_addr k wfuel (args a n j x (starts_with_dot new)) (i_pos si) si v | None => Undef end
          end
        | Some b =>
          match names d !! rn with
          | None => Ret (- ENOENT, v')
          | Some (j', _) =>
            '(new_i_pos, v) ← rename_detach b v';
            rename_move env sb lay ops alloc sleep o sb_addr k wfuel (args a n j x (starts_with_dot new)) new_i_pos (found sb lay phys j') v
          end
        end;
       flush o k err (Some dir) (Some dir) v).
Proof.
  intros Hr Hbo Hbn Eo En Ho Hd Ha Hx. pose proof Ha as [Hj Hl]%(rep_cache _ _ Hr). assert (a ≠ dir) as Hne by (intros ->; by apply (rep_self _ _ Hr j)).
  assert (S_ISDIR (i_mode x) = false) as Hm.
  { pose proof (rep_mode _ _ Hr j a Hj Hl) as Hm. apply (rep_names _ _ Hr) in Ho as (_ & _ & He & _). unfold mode_dir in Hm. rewrite Hx, He, Hd in Hm. by injection Hm. }
  destruct (scan_rep v d ro Hr (format_length opts old ro Hbo Eo) (formatted_nonzero opts old ro Hbo Eo)) as (v1 & Hr1 & _ & _ & Ho1 & E1).
  destruct (scan_rep v1 d rn Hr1 (format_length opts new rn Hbn En) (formatted_nonzero opts new rn Hbn En)) as (v2 & Hr2 & _ & _ & Ho2 & E2).
  exists v2. split; [done|]. split; [intros b Hb; by rewrite Ho2, Ho1|]. unfold msdos_rename. rewrite Eo, En. unfold do_msdos_rename. rewrite E1, Ho. cbn [mbind outcome_bind].
  rewrite (hidden_by_dot opts new rn Hbn En). unfold get_inode. rewrite (Ho1 a Hne), Hx. cbn [mbind outcome_bind]. rewrite Hm. cbn [andb mbind outcome_bind]. rewrite (Ho1 a Hne), Hx. cbn [mbind outcome_bind]. rewrite E2.
  destruct (names d !! rn) as [[j' e']|]; cbn [mbind outcome_bind]; destruct n as [b|]; cbn [mbind outcome_bind]; try done.
Qed.

(** Nothing is there under the new formatted name. *)
Lemma rename_new v d old new ro rn j e a x :
  rep v d → Forall is_byte old → Forall is_byte new → msdos_format_name opts old = Some ro → msdos_format_name opts new = Some rn →
  names d !! ro = Some (j, e) → entry_is_dir e = false → icache d !! j = Some a → inodes v !! a = Some x → names d !! rn = None →
  (free_slots d = ∅ ∧ ∃ v', rename_call dir old a dir new None v = Ret (- ENOSPC, v') ∧ rep v' d) ∨
  ∃ j' time date v' x', first_free d j' ∧ fat_date_unix2dos (tz_minuteswest o) (get_seconds k) = Ret (time, date) ∧
    rename_call dir old a dir new None v = Ret (0, v') ∧
    rep v' (Adir (<[rn := (j', new_entry rn false (starts_with_dot new) 0 time date)]> (delete ro (names d))) (<[j' := a]> (delete j (icache d))) ({[j]} ∪ free_slots d ∖ {[j']})) ∧
    inodes v' !! a = Some x' ∧ ei_pos x' = pos_of j' ∧ node x' = mark_inode_dirty (node x).
Proof.
  intros Hr Hbo Hbn Eo En Ho Hd Ha Hx Habs. pose proof Ha as [Hj Hl]%(rep_cache _ _ Hr). assert (a ≠ dir) as Hne by (intros ->; by apply (rep_self _ _ Hr j)).
  destruct (rename_scans v d old new ro rn j e a x None Hr Hbo Hbn Eo En Ho Hd Ha Hx) as (v1 & Hr1 & Ho1 & ->). rewrite Habs.
  pose proof (add_rep v1 d new rn Hr1 Hbn En Habs) as Hadd. rewrite (hidden_by_dot opts new rn Hbn En) in Hadd.
  destruct Hadd as [(Hfull & v2 & -> & Hr2)|(j' & time & date & v2 & Hj' & Ed & -> & Hr2 & Ho2)]; cbn [mbind outcome_bind].
  { change (negb (- ENOSPC =? 0)) with true. cbv iota. left. split; [done|]. exists v2. by split. }
  right. change (negb (0 =? 0)) with false. cbv iota. set (e' := new_entry rn false (starts_with_dot new) 0 time date) in *.
  assert (ro ≠ rn) as Hrn by (intros ->; by rewrite Ho in Habs). assert (icache d !! j' = None) as Hc.
  { destruct (icache d !! j') as [b|] eqn:Eb; [|done]. apply (rep_cache _ _ Hr1) in Eb as [Hjr Hb]. destruct Hj' as [Hf _]. apply (rep_free _ _ Hr1) in Hf as [_ Hf].
    by rewrite (live_entry _ _ (rep_used _ _ Hr1 j' b Hjr Hb)) in Hf. }
  destruct (move_rep v2 _ ro j e rn j' e' a x (i_attrs x) (starts_with_dot new) None Hr2) as (v3 & x' & E3 & Hr3 & Hx3); cbn [names icache free_slots] in *; try done.
  - by rewrite lookup_insert_ne.
  - by rewrite lookup_insert_eq.
  - by rewrite Ho2, Ho1.
  - rewrite Hd. by eapply new_entry_file.
  - exists j', time, date, v3, x'. split; [done|]. split; [done|]. change (i_pos (found sb lay phys j')) with (pos_of j'). rewrite E3. cbn [mbind outcome_bind].
    split; [unfold flush, fat_flush_inodes; by rewrite Hflush|]. split; [|done]. by rewrite delete_insert_ne in Hr3 by done.
Qed.

(** Another file has the new name. *)
Lemma rename_over v d old new ro rn j e j' e' a x b :
  rep v d → Forall is_byte old → Forall is_byte new → msdos_format_name opts old = Some ro → msdos_format_name opts new = Some rn →
  names d !! ro = Some (j, e) → entry_is_dir e = false → icache d !! j = Some a → inodes v !! a = Some x →
  names d !! rn = Some (j', e') → entry_is_dir e' = false → icache d !! j' = Some b → j' ≠ j →
  ∃ v' x', rename_call dir old a dir new (Some b) v = Ret (0, v') ∧
    rep v' (Adir (delete ro (names d)) (<[j' := a]> (delete j (icache d))) ({[j]} ∪ free_slots d)) ∧
    inodes v' !! a = Some x' ∧ ei_pos x' = pos_of j' ∧ node x' = mark_inode_dirty (node x).
Proof.
  intros Hr Hbo Hbn Eo En Ho Hd Ha Hx Hn Hd' Hb Hjj.
  destruct (rename_scans v d old new ro rn j e a x (Some b) Hr Hbo Hbn Eo En Ho Hd Ha Hx) as (v1 & Hr1 & Ho1 & ->). rewrite Hn.
  pose proof Ha as [Hj Hl]%(rep_cache _ _ Hr1). pose proof Hb as [Hj' Hl']%(rep_cache _ _ Hr1).
  assert (a ≠ dir) as Had by (intros ->; by apply (rep_self _ _ Hr1 j)). assert (b ≠ dir) as Hbd by (intros ->; by apply (rep_self _ _ Hr1 j')).
  pose proof Hl' as [_ (y & Hy & Hp & _)]. assert (b ≠ a) as Hba.
  { intros ->. apply Hjj, pos_of_inj; [done..|]. destruct Hl as [_ (z & Hz & <- & _)]. congruence. }
  unfold rename_detach, get_inode. rewrite Hy. cbn [mbind outcome_bind]. destruct (fat_detach_spec sb_addr v1 b y (rep_hash _ _ Hr1) Hy) as (w & -> & Ew & _). cbn [mbind outcome_bind].
  pose proof (rep_detach v1 d j' b (set_pos 0 y) Hr1 Hb) as Hrw. rewrite <- Ew in Hrw.
  destruct (move_rep w _ ro j e rn j' e' a x (i_attrs x) (starts_with_dot new) (Some b) Hrw) as (v3 & x' & E3 & Hr3 & Hx3); cbn [names icache free_slots] in *; try done.
  - by rewrite lookup_delete_ne.
  - by rewrite lookup_delete_eq.
  - subst w. cbn. by rewrite lookup_insert_ne, Ho1.
  - by rewrite Hd, Hd'.
  - congruence.
  - split; [done|]. subst w. cbn. rewrite lookup_insert_eq. by eexists.
  - exists v3, x'. rewrite Hp, E3. cbn [mbind outcome_bind]. split; [unfold flush, fat_flush_inodes; by rewrite Hflush|]. split; [|done].
    by rewrite delete_delete, insert_delete_eq in Hr3.
Qed.

(** The formatted name is in use, but the file is not visible under the new name:
    the name differs in the dot in front only, or another file is in the way. *)
Lemma rename_unseen v d old new ro rn j e j' e' a x :
  rep v d → Forall is_byte old → Forall is_byte new → msdos_format_name opts old = Some ro → msdos_format_name opts new = Some rn →
  names d !! ro = Some (j, e) → entry_is_dir e = false → icache d !! j = Some a → inodes v !! a = Some x →
  names d !! rn = Some (j', e') →
  ∃ v', rename_call dir old a dir new None v = Ret (if decide (ro = rn) then 0 else - EINVAL, v') ∧ rep v' d.
Proof.
  intros Hr Hbo Hbn Eo En Ho Hd Ha Hx Hn. pose proof Ha as [Hj Hl]%(rep_cache _ _ Hr). assert (a ≠ dir) as Hne by (intros ->; by apply (rep_self _ _ Hr j)).
  destruct (rename_scans v d old new ro rn j e a x None Hr Hbo Hbn Eo En Ho Hd Ha Hx) as (v1 & Hr1 & Ho1 & ->). rewrite Hn.
  pose proof Ho as (_ & _ & He & Hno)%(rep_names _ _ Hr). pose proof Hn as (Hj' & _ & He' & Hnn)%(rep_names _ _ Hr). destruct (decide (ro = rn)) as [<-|Hrn].
  - rewrite Ho in Hn. injection Hn as <- <-. rewrite bool_decide_eq_true_2 by done. unfold rename_hidden. cbn [old_dir old_inode].
    set (x3 := set_attrs (if starts_with_dot new then Z.lor (i_attrs x) ATTR_HIDDEN else Z.land (i_attrs x) (Z.lnot ATTR_HIDDEN)) x).
    assert (set_hidden (args a None j x (starts_with_dot new)) v1 = Ret (put_inode a x3 v1)) as ->.
    { unfold set_hidden, on_inode, get_inode. cbn [old_inode]. by rewrite Ho1, Hx by done. }
    cbn [mbind outcome_bind]. assert (rep (put_inode a x3 v1) d) as Hr3 by (apply (rep_put v1 d a x); try done; by rewrite Ho1).
    rewrite (is_sync_off _ _ Hr3). cbn [mbind outcome_bind]. destruct (mark_rep (put_inode a x3 v1) d a x3 Hr3 (lookup_insert_eq _ _ _) Hne) as [-> Hr4]. cbn [mbind outcome_bind].
    change (negb (0 =? 0)) with false. cbv iota. destruct (on_dir _ _ (touch_cm k) Hr4) as (w6 & -> & Hr6 & _); [done|]. cbn [mbind outcome_bind].
    destruct (sync_root w6 _ false Hr6) as (w7 & -> & Hr7 & _). cbn [mbind outcome_bind]. exists w7. split; [unfold flush, fat_flush_inodes; by rewrite Hflush|done].
  - rewrite bool_decide_eq_false_2; [by exists v1|]. intros Hp. apply Hrn. rewrite <- Hno, <- Hnn, <- He, <- He'. f_equal. f_equal. symmetry. apply pos_of_inj; [done..|].
    unfold pos_of, found. cbn [i_pos]. by rewrite Hp.
Qed.
End rename_file.

(** ** Sequences of calls *)

Context (sync : bool) (Hsync : ∀ n, inv n → is_dirsync n = sync).

(** One call; a name is unlinked and renamed with the inode the VFS looked up for
    it, and nothing happens when both names of a rename are the same file. *)
Definition run_op (op : dir_op) (v : volume) : outcome (dir_result * volume) :=
  match op with
  | OpLookup name =>
    '(r, v) ← msdos_lookup opts sb lay ops alloc sleep o sb_addr k dir name v; Ret (match r with inl err => RError err | inr r => RInode r end, v)
  | OpCreate name =>
    '(err, r, v) ← msdos_create opts env sb lay ops needs_sync sync_inode alloc sleep o sb_addr k wfuel dir name v;
    Ret (if err =? 0 then RInode r else RError err, v)
  | OpUnlink name =>
    '(r, v) ← msdos_lookup opts sb lay ops alloc sleep o sb_addr k dir name v;
    match r with
    | inl err => Ret (RError err, v)
    | inr None => Ret (RError (- ENOENT), v)
    | inr (Some a) => '(err, v) ← msdos_unlink opts env sb lay ops alloc sleep o k wfuel dir name a v; Ret (RError err, v)
    end
  | OpRename old new =>
    '(r, v) ← msdos_lookup opts sb lay ops alloc sleep o sb_addr k dir old v;
    match r with
    | inl err => Ret (RError err, v)
    | inr None => Ret (RError (- ENOENT), v)
    | inr (Some a) =>
      '(r, v) ← msdos_lookup opts sb lay ops alloc sleep o sb_addr k dir new v;
      match r with
      | inl err => Ret (RError err, v)
      | inr b =>
        if bool_decide (b = Some a) then Ret (RError 0, v) else
        '(err, v) ← msdos_rename opts env sb lay ops needs_sync sync_inode alloc sleep o sb_addr k wfuel dir old a dir new b v; Ret (RError err, v)
      end
    end
  end.

Fixpoint run_ops (l : list dir_op) (v : volume) : outcome (list dir_result * volume) :=
  match l with
  | [] => Ret ([], v)
  | op :: l => '(r, v) ← run_op op v; '(rs, v) ← run_ops l v; Ret (r :: rs, v)
  end.

(** The names of a call are no directories; in a directory that is written at
    once nothing is renamed. *)
Definition op_ok (d : adir) (op : dir_op) : Prop :=
  (∀ name, name ∈ op_names op → Forall is_byte name ∧
     ∀ res j e, msdos_format_name opts name = Some res → names d !! res = Some (j, e) → entry_is_dir e = false) ∧
  match op with OpRename _ _ => sync = false | _ => True end.

Lemma op_ok_find d op name : op_ok d op → name ∈ op_names op → Forall is_byte name ∧ ∀ res j e, find_in opts d name = Some (res, j, e) → entry_is_dir e = false.
Proof.
  intros [Hok _] Hin. destruct (Hok name Hin) as [Hb Hfile]. split; [done|]. intros res j e Hf. destruct (find_in_names d name res j e Hf) as [E En]. by apply (Hfile res j e).
Qed.

Lemma rename_rep v d old new :
  rep v d → op_ok d (OpRename old new) →
  ∃ r d' v', run_op (OpRename old new) v = Ret (r, v') ∧ astep opts (tz_minuteswest o) (get_seconds k) d (OpRename old new) r d' ∧ rep v' d'.
Proof.
  intros Hr Hok. destruct (op_ok_find d _ old Hok) as [Hbo Hfo]; [by constructor|]. destruct (op_ok_find d _ new Hok) as [Hbn Hfn]; [by repeat constructor|]. pose proof Hok as [_ Hs].
  assert (∀ n, inv n → is_dirsync n = false) as Hns by (intros n Hn; by rewrite Hsync). cbn [run_op].
  destruct (lookup_rep v d old Hr Hbo Hfo) as (r & d1 & v1 & -> & Hr1 & _ & Hm). cbn [mbind outcome_bind]. destruct (find_in opts d old) as [[[ro j] e]|] eqn:Fo.
  2:{ destruct Hm as [-> ->]. eexists _, d, v1. split; [done|]. by split; [apply ar_none|]. }
  destruct Hm as (a & -> & Hh & _). destruct (find_in_names d old ro j e Fo) as [Eo Ho]. pose proof Hh as [Hd1 _]. assert (names d1 = names d) as Hnm by (by rewrite Hd1).
  assert (find_in opts d1 new = find_in opts d new) as Hfind by (unfold find_in; by rewrite Hnm). assert (icache d1 !! j = Some a) as Ha by (rewrite Hd1; cbn; by rewrite lookup_insert_eq).
  destruct (lookup_rep v1 d1 new Hr1 Hbn) as (r & d2 & v2 & -> & Hr2 & _ & Hm); [by rewrite Hfind|]. rewrite Hfind in Hm. cbn [mbind outcome_bind].
  pose proof (Hfo _ _ _ eq_refl) as Hde. destruct (find_in opts d new) as [[[rn j'] e']|] eqn:Fn.
  - destruct Hm as (b & -> & [Hd2 Hb] & [y Hy]). destruct (find_in_names d new rn j' e' Fn) as [En Hn]. destruct (decide (j' = j)) as [->|Hjj].
    + assert (b = a) as -> by (destruct Hb as [Hb|[Hb _]]; congruence). rewrite bool_decide_eq_true_2 by done. exists (RError 0), d1, v2. split; [done|].
      assert (d2 = d1) as -> by (rewrite Hd2; destruct d1; cbn in *; by rewrite insert_id). split; [|done]. eapply ar_same; [done|done|].
      pose proof Ho as (_ & _ & H1 & H2)%(rep_names _ _ Hr). pose proof Hn as (_ & _ & H3 & H4)%(rep_names _ _ Hr). congruence.
    + assert (ro ≠ rn) as Hrn by (intros ->; congruence). assert (icache d2 !! j = Some a ∧ icache d2 !! j' = Some b) as [Ha2 Hb2].
      { rewrite Hd2. cbn. by rewrite lookup_insert_ne, lookup_insert_eq. }
      assert (b ≠ a) as Hba. { intros ->. apply (rep_cache _ _ Hr2) in Ha2 as [Hj [_ (z & Hz & Hp & _)]], Hb2 as [Hj' [_ (z' & Hz' & Hp' & _)]]. apply Hjj, pos_of_inj; try done. congruence. }
      rewrite bool_decide_eq_false_2 by congruence. pose proof Ha2 as [_ [_ (x & Hx & _)]]%(rep_cache _ _ Hr2).
      destruct (rename_over Hns v2 d2 old new ro rn j e j' e' a x b) as (v3 & x' & -> & Hr3 & _); try done; try (by rewrite Hd2; cbn; rewrite Hnm); [by eapply Hfn|]. cbn [mbind outcome_bind].
      eexists _, _, v3. split; [done|]. split; [eapply ar_over; try done|]. rewrite Hd2, Hd1 in Hr3. cbn in Hr3. by rewrite delete_insert_ne, delete_insert_eq, insert_insert_eq in Hr3 by done.
  - destruct Hm as [-> ->]. rewrite bool_decide_eq_false_2 by done. pose proof Ha as [_ [_ (x & Hx & _)]]%(rep_cache _ _ Hr2). destruct (msdos_format_name opts new) as [rn|] eqn:En.
    2:{ unfold msdos_rename. rewrite Eo, En. exists (RError (- EINVAL)), d1, v2. split; [done|]. split; [by eapply ar_invalid|done]. }
    destruct (names d !! rn) as [[j' e']|] eqn:Hn.
    + destruct (rename_unseen Hns v2 d1 old new ro rn j e j' e' a x) as (v3 & -> & Hr3); try done; try (by rewrite Hnm). cbn [mbind outcome_bind]. eexists _, d1, v3.
      split; [done|]. split; [|done]. case_decide as Hrn; [subst; by eapply ar_same|by eapply ar_unseen].
    + destruct (rename_new Hns v2 d1 old new ro rn j e a x) as [(Hfull & v3 & -> & Hr3)|(j' & time & date & v3 & x' & Hj' & Ed & -> & Hr3 & _)]; try done; try (by rewrite Hnm); cbn [mbind outcome_bind].
      * eexists _, d1, v3. split; [done|]. split; [|done]. eapply ar_full; try done. by rewrite Hd1 in Hfull.
      * eexists _, _, v3. split; [done|]. split; [eapply ar_new; try done; by rewrite Hd1 in Hj'|]. rewrite Hd1 in Hr3. cbn in Hr3. by rewrite delete_insert_eq in Hr3.
Qed.

Lemma run_op_rep v d op :
  rep v d → op_ok d op →
  ∃ r d' v', run_op op v = Ret (r, v') ∧ astep opts (tz_minuteswest o) (get_seconds k) d op r d' ∧ rep v' d'.
Proof.
  intros Hr Hok. destruct op as [name|name|name|old new]; [..|by apply rename_rep]; (destruct (op_ok_find d _ name Hok) as [Hb Hfile]; [by constructor|]); cbn [run_op].
  - destruct (lookup_rep v d name Hr Hb Hfile) as (r & d' & v' & -> & Hr' & Hs & _). by eexists _, d', v'.
  - destruct (create_rep v d name Hr Hb) as (err & r & d' & v' & -> & Hr' & Hs). by eexists _, d', v'.
  - destruct (lookup_rep v d name Hr Hb Hfile) as (r & d' & v' & -> & Hr' & _ & Hm). cbn [mbind outcome_bind]. destruct (find_in opts d name) as [[[res j] e]|] eqn:Ef.
    + destruct Hm as (a & -> & [-> _] & _). destruct (unlink_rep v' _ name res j e a Hr' Hb Ef (lookup_insert_eq _ _ _)) as (w & -> & Hw & _). cbn [mbind outcome_bind].
      eexists _, _, w. split; [done|]. split; [by eapply au_gone|]. cbn [names icache free_slots] in Hw. by rewrite delete_insert_eq in Hw.
    + destruct Hm as [-> ->]. eexists _, d, v'. split; [done|]. split; [by apply au_none|done].
Qed.

(** The only entries that appear are those of files. *)
Lemma astep_files d op r d' :
  (∀ name, name ∈ op_names op → Forall is_byte name) → astep opts (tz_minuteswest o) (get_seconds k) d op r d' →
  ∀ res j e, names d' !! res = Some (j, e) → names d !! res = Some (j, e) ∨ entry_is_dir e = false.
Proof.
  intros Hb Hs res j e Hn. destruct Hs; cbn [names] in Hn; try (by left);
    repeat match goal with H : holds _ _ _ _ |- _ => destruct H as [-> _]; cbn [names] in Hn end; try (by left).
  - apply lookup_insert_Some in Hn as [[<- [= <- <-]]|[_ Hn]]; [right; eapply new_entry_file; [|done]; apply Hb; by constructor|by left].
  - apply lookup_delete_Some in Hn as [_ Hn]. by left.
  - apply lookup_insert_Some in Hn as [[<- [= <- <-]]|[_ Hn]]; [right; eapply new_entry_file; [|done]; apply Hb; by repeat constructor|].
    apply lookup_delete_Some in Hn as [_ Hn]. by left.
  - apply lookup_delete_Some in Hn as [_ Hn]. by left.
Qed.

Lemma op_ok_step d op r d' op' : op_ok d op → op_ok d op' → astep opts (tz_minuteswest o) (get_seconds k) d op r d' → op_ok d' op'.
Proof.
  intros [Hok _] [Hok' Hs'] Hs. split; [|done]. intros name Hin. destruct (Hok' name Hin) as [Hb Hfile]. split; [done|]. intros res j e E Hn.
  destruct (astep_files d op r d' (λ nm Hnm, proj1 (Hok nm Hnm)) Hs res j e Hn) as [Hn'|]; [by apply (Hfile res j e)|done].
Qed.

Lemma run_ops_rep v d l :
  rep v d → (∀ op, op ∈ l → op_ok d op) →
  ∃ rs d' v', run_ops l v = Ret (rs, v') ∧ asteps opts (tz_minuteswest o) (get_seconds k) d l rs d' ∧ rep v' d'.
Proof.
  revert v d. induction l as [|op l IH]; intros v d Hr Hok; [exists [], d, v; split; [done|]; by split; [apply as_nil|]|].
  assert (op_ok d op) as Hop by (apply Hok; constructor). destruct (run_op_rep v d op Hr Hop) as (r & d1 & v1 & E & Hs & Hr1).
  destruct (IH v1 d1 Hr1) as (rs & d2 & v2 & E2 & Hs2 & Hr2).
  { intros op' Hin. apply (op_ok_step d op r d1 op' Hop); [|done]. apply Hok. by constructor. }
  exists (r :: rs), d2, v2. cbn [run_ops]. rewrite E. cbn [mbind outcome_bind]. rewrite E2. split; [done|]. split; [by eapply as_cons|done].
Qed.

End refine.

(** A volume of twelve or sixteen bits whose root directory has no name twice and
    whose inode of the root is at [dir]; memory does not run out and writing does
    not fail. *)
Record root_volume (env : env) (sb : sb_info) (lay : layout) (o : inode_options) (k : vfs) (sync : bool) (dir : Z) (v : volume) : Prop := {
  rv_geometry : geometry sb;
  rv_bits : fat_bits sb ≠ 32;
  rv_start : 0 < dir_start lay;
  rv_entries : 0 ≤ dir_entries lay;
  rv_per_block : dir_per_block_bits lay = s_blocksize_bits sb - 5;
  rv_max : nr_entries sb (root_blocks lay) * 32 < FAT_MAX_DIR_SIZE;
  rv_quiet : quiet env;
  rv_flush : opt_flush o = false;
  rv_new w : ∃ a, new_inode k w = Some a ∧ inodes w !! a = None;
  rv_good : root_good sb lay (fs v);
  rv_names : NoDup (live_names sb (root_blocks lay) (root_phys lay) (fs v)).*1;
  rv_inode : ∃ i, inodes v !! dir = Some i ∧ i_ino (node i) = MSDOS_ROOT_INO ∧ is_dirsync (node i) = sync
}.

(** The root directory keeps its flag for synchronous writing. *)
Definition root_sync (sync : bool) (n : finode) : Prop := root_inv n ∧ is_dirsync n = sync.

Lemma root_map_sync sb lay ops alloc sleep sync :
  geometry sb → fat_bits sb ≠ 32 → 0 < dir_start lay → 0 ≤ dir_entries lay →
  DirMap sb lay ops alloc sleep (root_sync sync) (root_good sb lay) (root_blocks lay) (root_phys lay).
Proof.
  intros geo Hbits Hstart Hent. destruct (root_map sb lay ops alloc sleep geo Hbits Hstart Hent) as [H1 H2 H3 H4 H5 H6 H7 H8]. split; try done.
  - intros n i s Hs [Hn Hy] Hi. rewrite root_bmap by done. destruct (Z.ltb_spec i (root_blocks lay)); [|lia]. by exists 1, n.
  - intros n s Hs [Hn Hy]. rewrite root_bmap by done. rewrite Z.ltb_irrefl. by exists 0, n.
  - intros n [Hn _]. by apply H4.
Qed.

(** C5: The calls on names treat a root directory as a map from names to files.
    Any sequence of lookups, creations, removals and renames of files after a
    mount returns, with the results of the map: a name is found under every
    spelling as long as the file is there and gives the same inode each time, a
    name cannot be created twice, a file is created in the first free slot and
    fails with [-ENOSPC] only when there is none, a new file never gets an inode
    that is in memory for another file, a removed file is not found again, a
    renamed file keeps its inode and takes the place of the file that had the
    name, and all other entries keep their bytes. *)
Theorem msdos_dir_refines opts env sb lay ops needs_sync sync_inode alloc sleep o sb_addr k wfuel sync dir v l :
  root_volume env sb lay o k sync dir v → (0 < wfuel)%nat →
  (∀ op, op ∈ l → op_ok opts sync (abs_dir sb (root_blocks lay) (root_phys lay) (fs v)) op) →
  ∃ rs d' v', run_ops opts env sb lay ops needs_sync sync_inode alloc sleep o sb_addr k wfuel dir l (fat_hash_init v) = Ret (rs, v') ∧
    asteps opts (tz_minuteswest o) (get_seconds k) (abs_dir sb (root_blocks lay) (root_phys lay) (fs v)) l rs d' ∧
    rep sb lay sb_addr (root_sync sync) (root_good sb lay) (root_blocks lay) (root_phys lay) dir v' d'.
Proof.
  intros [geo Hbits Hstart Hent Hpb Hmax Hq Hfl Hnew Hg Hnd (i & Hi & Hroot & Hy)] Hf Hok. pose proof (root_map_sync sb lay ops alloc sleep sync geo Hbits Hstart Hent) as Hmap.
  apply (run_ops_rep opts env sb lay ops needs_sync sync_inode alloc sleep o sb_addr k wfuel (root_sync sync) (root_good sb lay) (root_blocks lay) (root_phys lay) dir) with (sync := sync); try done.
  - by intros n [Hn _].
  - by intros n [_ Hn].
  - by apply (rep_mount sb lay sb_addr (root_sync sync) (root_good sb lay) (root_blocks lay) (root_phys lay) dir v i).
Qed.

(** ** Examples *)

Definition sample_ops : list dir_op :=
  [OpCreate (bytes_of ".c.txt"); OpLookup (bytes_of ".C.Txt"); OpLookup (bytes_of "C.txt"); OpCreate (bytes_of "c.txt");
   OpUnlink (bytes_of "a.txt"); OpLookup (bytes_of "A.TXT"); OpCreate (bytes_of "a.txt"); OpRename (bytes_of ".c.txt") (bytes_of "d.txt");
   OpLookup (bytes_of "d.txt"); OpRename (bytes_of "d.txt") (bytes_of "a.txt"); OpLookup (bytes_of "a.txt")].

Lemma sample_root_volume : root_volume Sample.quiet_env Sample.sb16 sample_layout sample_options sample_vfs false 1 sample_volume.
Proof.
  split; try (by vm_compute).
  - intros w. exists (fresh (dom (inodes w))). split; [done|]. apply not_elem_of_dom, is_fresh.
  - exact root_fs_good.
  - refine (bool_decide_unpack _ _). by vm_compute.
  - eexists. split; [vm_compute; reflexivity|]. by split.
Qed.

Lemma msdos_dir_refines_witness :
  ∃ rs d' v', run_ops normal_opts Sample.quiet_env Sample.sb16 sample_layout fat16_ops false 0 true (λ i, i) sample_options 0 sample_vfs 1 1 sample_ops (fat_hash_init sample_volume) = Ret (rs, v') ∧
    asteps normal_opts 0 1400000001 (abs_dir Sample.sb16 (root_blocks sample_layout) (root_phys sample_layout) root_fs) sample_ops rs d'.
Proof.
  destruct (msdos_dir_refines normal_opts Sample.quiet_env Sample.sb16 sample_layout fat16_ops false 0 true (λ i, i) sample_options 0 sample_vfs 1 false 1 sample_volume sample_ops
    sample_root_volume) as (rs & d' & v' & H1 & H2 & _).
  - lia.
  - assert (Hall : forallb (λ op, forallb (λ name, match msdos_format_name normal_opts name with
      | Some res => match names (abs_dir Sample.sb16 (root_blocks sample_layout) (root_phys sample_layout) root_fs) !! res with Some (_, e) => negb (entry_is_dir e) | None => true end
      | None => true end) (op_names op)) sample_ops = true) by (vm_compute; reflexivity).
    intros op Hin. split; [|by destruct op]. intros name Hname. split.
    { clear Hall. unfold sample_ops in Hin. repeat (apply elem_of_cons in Hin as [->|Hin]; [cbn [op_names] in Hname; repeat (apply elem_of_cons in Hname as [->|Hname]; [apply bytes_of_range|]); by apply not_elem_of_nil in Hname|]).
      by apply not_elem_of_nil in Hin. }
    intros res j e E Hn. rewrite forallb_forall in Hall. apply list_elem_of_In, Hall in Hin. rewrite forallb_forall in Hin. apply list_elem_of_In, Hin in Hname.
    cbn [fs sample_volume] in Hn. rewrite E, Hn in Hname. by apply negb_true_iff in Hname.
  - exists rs, d', v'. split; [exact H1|exact H2].
Defined.
