(* ===== verification/FatAttr.v ===== *)
(** Changing the attributes of a FAT inode: [fat_notify_change], the attribute
    [ioctl] and the rest of [fs/fat/file.c], with the functions of [fs/attr.c] and
    [vmtruncate] of [mm/memory.c] they go through.

    The caller is an argument ([caller]): its identity, groups, capabilities and
    limit on file sizes.  So is the page cache: how filling a hole with zeros and
    writing pages out go.  There is no security module. *)

From S2P Require Import Prelude Fat12 Fatent FatentLaws FatAlloc FatDate FatCache FatFile FatDir Msdos FatMount FatInode.

(** ** Data *)

Definition ATTR_MODE : Z := 1.
Definition ATTR_UID : Z := 2.
Definition ATTR_GID : Z := 4.
Definition ATTR_SIZE : Z := 8.
Definition ATTR_ATIME : Z := 16.
Definition ATTR_MTIME : Z := 32.
Definition ATTR_CTIME : Z := 64.
Definition ATTR_ATIME_SET : Z := 128.
Definition ATTR_MTIME_SET : Z := 256.
Definition ATTR_FORCE : Z := 512.
Definition ATTR_KILL_SUID : Z := 2048.
Definition ATTR_KILL_SGID : Z := 4096.
Definition S_ISUID : Z := 2048.
Definition S_ISGID : Z := 1024.
Definition S_IXGRP : Z := 8.
Definition S_SYNC : Z := 1.
Definition S_SWAPFILE : Z := 256.
Definition MSDOS_VALID_MODE : Z := 49663.
Definition CAP_CHOWN : Z := 0.
Definition CAP_FOWNER : Z := 3.
Definition CAP_FSETID : Z := 4.
Definition CAP_LINUX_IMMUTABLE : Z := 9.
Definition EFAULT : Z := 14.
Definition EPERM : Z := 1.
Definition EROFS : Z := 30.
Definition ENOTTY : Z := 25.
Definition EFBIG : Z := 27.
Definition ETXTBSY : Z := 26.

(** [struct iattr]; times in seconds, the granularity of the file system. *)
Record iattr := Iattr { ia_valid : Z; ia_mode : Z; ia_uid : Z; ia_gid : Z; ia_size : Z; ia_atime : Z; ia_mtime : Z; ia_ctime : Z }.

Definition set_valid x a := Iattr x (ia_mode a) (ia_uid a) (ia_gid a) (ia_size a) (ia_atime a) (ia_mtime a) (ia_ctime a).
Definition set_ia_mode x a := Iattr (ia_valid a) x (ia_uid a) (ia_gid a) (ia_size a) (ia_atime a) (ia_mtime a) (ia_ctime a).

(** [x & flag] as a condition. *)
Definition has (x flag : Z) : bool := z2b (Z.land x flag).

Record caller := Caller {
  fsuid : Z;
  in_group_p : Z → bool;
  capable : Z → bool;
  rlim_fsize : option Z;
  s_maxbytes : Z;
  ms_synchronous : bool;
  generic_cont_expand_simple : Z → Z → volume → outcome (Z * volume);
  sync_page_range_nolock : Z → volume → Z * volume
}.

Definition set_mode x i := Inode (node i) (ei_pos i) (i_attrs i) x (i_nlink i) (i_generation i) (i_times i) (i_count i) (i_freeing i) (i_flags i) (i_uid i) (i_gid i).
Definition set_flags x i := Inode (node i) (ei_pos i) (i_attrs i) (i_mode i) (i_nlink i) (i_generation i) (i_times i) (i_count i) (i_freeing i) x (i_uid i) (i_gid i).
Definition set_owner u g i := Inode (node i) (ei_pos i) (i_attrs i) (i_mode i) (i_nlink i) (i_generation i) (i_times i) (i_count i) (i_freeing i) (i_flags i) u g.
Definition dirtied (i : inode) : inode := set_node (mark_inode_dirty (node i)) i.

Definition i_is_sync (c : caller) (i : inode) : bool := ms_synchronous c || has (i_flags i) S_SYNC.

Section attr.
Context (env : env) (sb : sb_info) (lay : layout) (ops : fatent_operations) (alloc : bool) (sleep : finode → finode).
Context (o : inode_options) (quiet_opt : bool) (k : vfs) (c : caller) (wfuel : nat).

Abbreviation now := (get_seconds k).

(** ** [fs/attr.c] *)

Definition inode_change_ok (i : inode) (a : iattr) : Z * iattr :=
  let v := ia_valid a in
  if has v ATTR_FORCE then (0, a) else
  if has v ATTR_UID && (negb (fsuid c =? i_uid i) || negb (ia_uid a =? i_uid i)) && negb (capable c CAP_CHOWN) then (- EPERM, a) else
  if has v ATTR_GID && (negb (fsuid c =? i_uid i) || (negb (in_group_p c (ia_gid a)) && negb (ia_gid a =? i_gid i))) && negb (capable c CAP_CHOWN) then (- EPERM, a) else
  if has v ATTR_MODE && (negb (fsuid c =? i_uid i) && negb (capable c CAP_FOWNER)) then (- EPERM, a) else
  let a := if has v ATTR_MODE && (negb (in_group_p c (if has v ATTR_GID then ia_gid a else i_gid i)) && negb (capable c CAP_FSETID))
           then set_ia_mode (Z.land (ia_mode a) (Z.lnot S_ISGID)) a else a in
  if has v (Z.lor ATTR_MTIME_SET ATTR_ATIME_SET) && (negb (fsuid c =? i_uid i) && negb (capable c CAP_FOWNER)) then (- EPERM, a) else
  (0, a).

(** [i_op->truncate]: only files have one.  [fat_free] also marks the file as
    changed. *)
Definition truncate_inode (a : Z) (v : volume) : outcome volume :=
  i ← get_inode a v;
  if S_ISDIR (i_mode i) then Ret v else
  v ← (if i_start (node i) =? 0 then Ret v else
       on_inode a (λ i, set_times (Stamps now now 0 (atime (i_times i))) (set_attrs (Z.lor (i_attrs i) ATTR_ARCH) i)) v);
  '(_, v) ← with_node a (λ n s, '(n, s) ← fat_truncate env sb lay ops 0 alloc sleep n s; Ret ((), n, s)) v;
  Ret (fat_flush_inodes o k (Some a) None v).2.

(** [vmtruncate] but for the pages of the file. *)
Definition vmtruncate (a offset : Z) (v : volume) : outcome (Z * volume) :=
  i ← get_inode a v;
  if i_size (node i) <? offset then
    if match rlim_fsize c with Some limit => limit <? offset | None => false end then Ret (- EFBIG, v) else
    if s_maxbytes c <? offset then Ret (- EFBIG, v) else
    v ← truncate_inode a (put_inode a (set_node (set_size offset (node i)) i) v); Ret (0, v)
  else
    if has (i_flags i) S_SWAPFILE then Ret (- ETXTBSY, v) else
    v ← truncate_inode a (put_inode a (set_node (set_size offset (node i)) i) v); Ret (0, v).

(** The fields [inode_setattr] sets. *)
Definition set_fields (at_ : iattr) (i : inode) : inode :=
  let v := ia_valid at_ in
  let i := set_owner (if has v ATTR_UID then ia_uid at_ else i_uid i) (if has v ATTR_GID then ia_gid at_ else i_gid i) i in
  let t := i_times i in
  let i := set_times (Stamps (if has v ATTR_MTIME then ia_mtime at_ else mtime t) (if has v ATTR_CTIME then ia_ctime at_ else ctime t)
                             (if has v ATTR_CTIME then 0 else ctime_nsec t) (if has v ATTR_ATIME then ia_atime at_ else atime t)) i in
  let i := if has v ATTR_MODE then
             set_mode (if negb (in_group_p c (i_gid i)) && negb (capable c CAP_FSETID) then Z.land (ia_mode at_) (Z.lnot S_ISGID) else ia_mode at_) i
           else i in
  dirtied i.

Definition inode_setattr (a : Z) (at_ : iattr) (v : volume) : outcome (Z * volume) :=
  i ← get_inode a v;
  '(error, v) ← (if has (ia_valid at_) ATTR_SIZE && negb (ia_size at_ =? i_size (node i)) then vmtruncate a (ia_size at_) v else Ret (0, v));
  if negb (error =? 0) then Ret (error, v) else
  v ← on_inode a (set_fields at_) v; Ret (0, v).

(** ** [fs/fat/file.c] *)

Definition fat_cont_expand (a size : Z) (v : volume) : outcome (Z * volume) :=
  '(err, v) ← generic_cont_expand_simple c a size v;
  if negb (err =? 0) then Ret (err, v) else
  v ← on_inode a (λ i, dirtied (set_times (Stamps now now 0 (atime (i_times i))) i)) v;
  i ← get_inode a v;
  Ret (if i_is_sync c i then sync_page_range_nolock c a v else (0, v)).

(** The mask of a file or directory, and what it leaves of a mode. *)
Definition mask_of (mode : Z) : Z := if S_ISDIR mode then fs_dmask o else fs_fmask o.
Definition masked (mode : Z) : Z := Z.land mode (Z.lor S_IFMT (Z.land S_IRWXUGO (Z.lnot (mask_of mode)))).

Definition hush (error : Z) : Z := if quiet_opt then 0 else error.

Definition fat_notify_change (a : Z) (at_ : iattr) (v : volume) : outcome (Z * volume) :=
  i ← get_inode a v;
  '(stop, at_, v) ←
    (if has (ia_valid at_) ATTR_SIZE && (i_size (node i) <? ia_size at_) then
       '(error, v) ← fat_cont_expand a (ia_size at_) v;
       if negb (error =? 0) || (ia_valid at_ =? ATTR_SIZE) then Ret (Some error, at_, v)
       else Ret (None, set_valid (Z.land (ia_valid at_) (Z.lnot ATTR_SIZE)) at_, v)
     else Ret (None, at_, v));
  match stop with
  | Some error => Ret (error, v)
  | None =>
    i ← get_inode a v;
    let '(error, at_) := inode_change_ok i at_ in
    if negb (error =? 0) then Ret (hush error, v) else
    if (has (ia_valid at_) ATTR_UID && negb (ia_uid at_ =? fs_uid o)) || (has (ia_valid at_) ATTR_GID && negb (ia_gid at_ =? fs_gid o)) ||
       (has (ia_valid at_) ATTR_MODE && has (ia_mode at_) (Z.lnot MSDOS_VALID_MODE)) then Ret (hush (- EPERM), v) else
    '(error, v) ← inode_setattr a at_ v;
    if negb (error =? 0) then Ret (error, v) else
    v ← on_inode a (λ i, set_mode (masked (i_mode i)) i) v; Ret (0, v)
  end.

(** [notify_change] of an inode with a [setattr] operation. *)
Definition kill_suid (i : inode) (valid0 : Z) (at_ : iattr) : Z * iattr :=
  if has valid0 ATTR_KILL_SUID then
    let at_ := set_valid (Z.land (ia_valid at_) (Z.lnot ATTR_KILL_SUID)) at_ in
    if has (i_mode i) S_ISUID then
      let '(valid0, at_) := if negb (has valid0 ATTR_MODE) then
          let w := Z.lor (ia_valid at_) ATTR_MODE in (w, set_ia_mode (i_mode i) (set_valid w at_)) else (valid0, at_) in
      (valid0, set_ia_mode (Z.land (ia_mode at_) (Z.lnot S_ISUID)) at_)
    else (valid0, at_)
  else (valid0, at_).

Definition kill_sgid (i : inode) (valid0 : Z) (at_ : iattr) : Z * iattr :=
  if has valid0 ATTR_KILL_SGID then
    let at_ := set_valid (Z.land (ia_valid at_) (Z.lnot ATTR_KILL_SGID)) at_ in
    if Z.land (i_mode i) (Z.lor S_ISGID S_IXGRP) =? Z.lor S_ISGID S_IXGRP then
      let '(valid0, at_) := if negb (has valid0 ATTR_MODE) then
          let w := Z.lor (ia_valid at_) ATTR_MODE in (w, set_ia_mode (i_mode i) (set_valid w at_)) else (valid0, at_) in
      (valid0, set_ia_mode (Z.land (ia_mode at_) (Z.lnot S_ISGID)) at_)
    else (valid0, at_)
  else (valid0, at_).

Definition notify_change (a : Z) (at_ : iattr) (v : volume) : outcome (Z * volume) :=
  i ← get_inode a v;
  let valid := ia_valid at_ in
  let at_ := Iattr valid (ia_mode at_) (ia_uid at_) (ia_gid at_) (ia_size at_)
    (if has valid ATTR_ATIME_SET then ia_atime at_ else now) (if has valid ATTR_MTIME_SET then ia_mtime at_ else now) now in
  let '(valid, at_) := kill_suid i valid at_ in
  let '(_, at_) := kill_sgid i valid at_ in
  if ia_valid at_ =? 0 then Ret (0, v) else fat_notify_change a at_ v.

(** [fat_generic_ioctl]: [user] is the word of the caller's memory, if it can be
    read and written. *)
Inductive ioctl := GetAttributes | SetAttributes | OtherIoctl.

(** [attr] as it is merged with what cannot be changed, and the mode it stands
    for. *)
Definition merge_attr (i : inode) (attr : Z) : Z :=
  Z.lor (Z.land attr (Z.land 0xff (Z.lnot (Z.lor ATTR_VOLUME ATTR_DIR))))
        (Z.lor (Z.land (i_attrs i) ATTR_VOLUME) (if S_ISDIR (i_mode i) then ATTR_DIR else 0)).

Definition attr_mode (i : inode) (attr : Z) : Z :=
  if S_ISDIR (i_mode i) then Z.lor (MSDOS_MKMODE attr (Z.land S_IRWXUGO (Z.lnot (fs_dmask o)))) S_IFDIR
  else Z.lor (MSDOS_MKMODE attr (Z.land (Z.lor (Z.lor S_IRUGO S_IWUGO) (Z.land (i_mode i) S_IXUGO)) (Z.lnot (fs_fmask o)))) S_IFREG.

Definition fat_generic_ioctl (cmd : ioctl) (user : option Z) (a : Z) (v : volume) : outcome (Z * option Z * volume) :=
  i ← get_inode a v;
  match cmd with
  | GetAttributes =>
    let attr := if i_ino (node i) =? MSDOS_ROOT_INO then ATTR_DIR else fat_attr i in
    Ret (match user with Some _ => (0, Some attr, v) | None => (- EFAULT, None, v) end)
  | SetAttributes =>
    match user with
    | None => Ret (- EFAULT, None, v)
    | Some attr =>
      if s_rdonly (fs v) then Ret (- EROFS, user, v) else
      let attr := merge_attr i attr in
      let oldattr := fat_attr i in
      if (i_ino (node i) =? MSDOS_ROOT_INO) && negb (attr =? ATTR_DIR) then Ret (- EINVAL, user, v) else
      if sys_immutable o && has (Z.lor attr oldattr) ATTR_SYS && negb (capable c CAP_LINUX_IMMUTABLE) then Ret (- EPERM, user, v) else
      '(err, v) ← notify_change a (Iattr (Z.lor ATTR_MODE ATTR_CTIME) (attr_mode i attr) 0 0 0 0 0 0) v;
      if negb (err =? 0) then Ret (err, user, v) else
      v ← (if sys_immutable o then
             on_inode a (λ i, set_flags (if has attr ATTR_SYS then Z.lor (i_flags i) S_IMMUTABLE else Z.land (i_flags i) S_IMMUTABLE) i) v
           else Ret v);
      v ← on_inode a (λ i, dirtied (set_attrs (Z.land attr ATTR_UNUSED) i)) v;
      Ret (0, user, v)
    end
  | OtherIoctl => Ret (- ENOTTY, user, v)
  end.

(** [fat_file_release]: waiting for the device has no effect on the values. *)
Definition fat_file_release (fmode_write : bool) (a : Z) (v : volume) : Z * volume :=
  (0, if fmode_write && opt_flush o then (fat_flush_inodes o k (Some a) None v).2 else v).

(** [fat_getattr]: what [stat] shows. *)
Record kstat := Kstat { st_ino : Z; st_mode : Z; st_nlink : Z; st_uid : Z; st_gid : Z; st_times : stamps; st_size : Z; st_blocks : Z; st_blksize : Z }.

Definition fat_getattr (a : Z) (v : volume) : outcome (Z * kstat) :=
  i ← get_inode a v;
  Ret (0, Kstat (i_ino (node i)) (i_mode i) (i_nlink i) (i_uid i) (i_gid i) (i_times i) (i_size (node i)) (i_blocks (node i)) (2 ^ cluster_bits lay)).
End attr.

(** ** Modes and masks *)

Section masks.
Context (o : inode_options).

Lemma masked_type mode : Z.land (masked o mode) S_IFMT = Z.land mode S_IFMT.
Proof.
  unfold masked. apply Z.bits_inj'. intros n Hn. rewrite !Z.land_spec, Z.lor_spec. by destruct (Z.testbit mode n), (Z.testbit S_IFMT n), (Z.testbit _ n).
Qed.

Lemma masked_mask mode : mask_of o (masked o mode) = mask_of o mode.
Proof. unfold mask_of, S_ISDIR. by rewrite masked_type. Qed.

Lemma masked_twice mode : masked o (masked o mode) = masked o mode.
Proof. unfold masked at 1. rewrite masked_mask. unfold masked. by rewrite <- Z.land_assoc, Z.land_diag. Qed.

(** Permissions taken from the mask, with the type added. *)
Lemma masked_made y kind mode :
  Z.land y S_IRWXUGO = y → Z.land kind S_IFMT = kind → mode = Z.lor (Z.land y (Z.lnot (mask_of o mode))) kind → masked o mode = mode.
Proof.
  intros Hy Hk Hm. unfold masked. set (m := Z.lnot (mask_of o mode)) in *. rewrite Hm. clear Hm. apply Z.bits_inj'. intros n Hn.
  apply (f_equal (λ z, Z.testbit z n)) in Hy, Hk. rewrite Z.land_spec in Hy, Hk. rewrite !Z.land_spec, !Z.lor_spec, !Z.land_spec.
  revert Hy Hk. by destruct (Z.testbit y n), (Z.testbit kind n), (Z.testbit S_IFMT n), (Z.testbit S_IRWXUGO n), (Z.testbit m n).
Qed.

Lemma mkmode_sub attr m : ∃ y, MSDOS_MKMODE attr m = Z.land m y ∧ Z.land y S_IRWXUGO = y.
Proof. unfold MSDOS_MKMODE. eexists. split; [done|]. by destruct (z2b _). Qed.

Lemma lor_type x kind : Z.land x S_IRWXUGO = x → kind = S_IFDIR ∨ kind = S_IFREG → Z.land (Z.lor x kind) S_IFMT = kind.
Proof.
  intros Hx Hk. rewrite Z.land_lor_distr_l. rewrite <- Hx, <- Z.land_assoc. change (Z.land S_IRWXUGO S_IFMT) with 0. rewrite Z.land_0_r, Z.lor_0_l. by destruct Hk as [-> | ->].
Qed.

(** A mode made of an attribute byte and the mask is one the mask leaves alone. *)
Lemma made_masked attr x mask kind :
  Z.land x S_IRWXUGO = x → kind = S_IFDIR ∧ mask = fs_dmask o ∨ kind = S_IFREG ∧ mask = fs_fmask o →
  let mode := Z.lor (MSDOS_MKMODE attr (Z.land x (Z.lnot mask))) kind in
  masked o mode = mode ∧ S_ISDIR mode = (kind =? S_IFDIR).
Proof.
  intros Hx Hk mode. destruct (mkmode_sub attr (Z.land x (Z.lnot mask))) as (y & Ey & Hy). fold mode in Ey.
  assert (Z.land (MSDOS_MKMODE attr (Z.land x (Z.lnot mask))) S_IRWXUGO = MSDOS_MKMODE attr (Z.land x (Z.lnot mask))) as Hs by (rewrite Ey, <- Z.land_assoc; by rewrite Hy).
  assert (kind = S_IFDIR ∨ kind = S_IFREG) as Hk' by (destruct Hk as [[-> _]|[-> _]]; auto).
  assert (S_ISDIR mode = (kind =? S_IFDIR)) as Hd by (unfold S_ISDIR, mode; by rewrite lor_type). split; [|done].
  assert (mask_of o mode = mask) as Hmask by (unfold mask_of; rewrite Hd; destruct Hk as [[-> ->]|[-> ->]]; done).
  apply (masked_made (Z.land x y) kind).
  - rewrite <- Z.land_assoc. by rewrite Hy.
  - by destruct Hk' as [-> | ->].
  - rewrite Hmask. unfold mode. rewrite Ey. f_equal. rewrite <- !Z.land_assoc. f_equal. apply Z.land_comm.
Qed.
End masks.

(** ** Who may do what with a file *)

Definition perm_of (v : volume) (b : Z) : option (Z * Z * Z) := (λ i, (i_mode i, i_uid i, i_gid i)) <$> inodes v !! b.

Definition same_perms (v w : volume) : Prop := ∀ b, perm_of w b = perm_of v b.

#[export] Instance same_perms_po : PreOrder same_perms.
Proof. split; [done|]. intros u v w H1 H2 b. by rewrite H2, H1. Qed.

(** The mode is one the mask leaves alone, and the owner is that of the mount. *)
Definition perm_ok (o : inode_options) (i : inode) : Prop := masked o (i_mode i) = i_mode i ∧ i_uid i = fs_uid o ∧ i_gid i = fs_gid o.

Definition perms_ok (o : inode_options) (v : volume) : Prop := ∀ b i, inodes v !! b = Some i → perm_ok o i.

(** The page cache and the writing of inodes leave modes and owners alone. *)
Record keeps_perms (k : vfs) (c : caller) : Prop := {
  kp_expand a size v r w : generic_cont_expand_simple c a size v = Ret (r, w) → same_perms v w;
  kp_sync a v : same_perms v (sync_page_range_nolock c a v).2;
  kp_writeback a v : same_perms v (writeback_inode k a v).2
}.

Lemma same_perms_ok o v w : same_perms v w → perms_ok o v → perms_ok o w.
Proof.
  intros Hs Hv b i Hi. specialize (Hs b). unfold perm_of in Hs. rewrite Hi in Hs. destruct (inodes v !! b) as [j|] eqn:Hj; [|done].
  injection Hs as E1 E2 E3. unfold perm_ok. rewrite E1, E2, E3. by apply (Hv b).
Qed.

Lemma put_perms v a i j s : inodes v !! a = Some i → i_mode j = i_mode i → i_uid j = i_uid i → i_gid j = i_gid i → same_perms v (put_inode a j (set_fs s v)).
Proof.
  intros Hi E1 E2 E3 b. unfold perm_of. cbn. destruct (decide (b = a)) as [->|Hne]; [rewrite lookup_insert_eq, Hi; cbn; congruence|by rewrite lookup_insert_ne].
Qed.

Lemma on_inode_perms a f v w :
  on_inode a f v = Ret w → (∀ i, i_mode (f i) = i_mode i ∧ i_uid (f i) = i_uid i ∧ i_gid (f i) = i_gid i) → same_perms v w.
Proof.
  unfold on_inode, get_inode. destruct (inodes v !! a) as [i|] eqn:Hi; [|done]. intros [= <-] Hf. destruct (Hf i) as (E1 & E2 & E3). by apply (put_perms v a i (f i) (fs v)).
Qed.

Lemma with_node_perms {R} a (f : finode → fatfs → outcome (R * finode * fatfs)) v r w : with_node a f v = Ret (r, w) → same_perms v w.
Proof.
  unfold with_node, get_inode. destruct (inodes v !! a) as [i|] eqn:Hi; [|done]. cbn [mbind outcome_bind]. destruct (f _ _) as [[[r' n] s]| | |]; [|done..].
  cbn [mbind outcome_bind]. intros [= <- <-]. by apply (put_perms v a i).
Qed.

Lemma put_ok o v a i : perms_ok o v → perm_ok o i → perms_ok o (put_inode a i v).
Proof.
  intros Hv Hi b j. cbn. destruct (decide (b = a)) as [->|Hne]; [rewrite lookup_insert_eq; by intros [= <-]|]. rewrite lookup_insert_ne by done. apply Hv.
Qed.

Section permissions.
Context (env : env) (sb : sb_info) (lay : layout) (ops : fatent_operations) (alloc : bool) (sleep : finode → finode).
Context (o : inode_options) (quiet_opt : bool) (k : vfs) (c : caller) (Hkeep : keeps_perms k c).

Lemma flush_perms a v : same_perms v (fat_flush_inodes o k (Some a) None v).2.
Proof.
  unfold fat_flush_inodes. destruct (negb (opt_flush o)); [done|]. pose proof (kp_writeback _ _ Hkeep a v) as H. destruct (writeback_inode k a v) as [r w].
  destruct (r =? 0); exact H.
Qed.

Lemma truncate_perms a v w : truncate_inode env sb lay ops alloc sleep o k a v = Ret w → same_perms v w.
Proof.
  unfold truncate_inode, get_inode. destruct (inodes v !! a) as [i|] eqn:Hi; [|done]. cbn [mbind outcome_bind]. destruct (S_ISDIR _); [by intros [= <-]|].
  match goal with |- mbind _ ?x = _ → _ => destruct x as [v1| | |] eqn:E1 end; [|done..]. cbn [mbind outcome_bind].
  destruct (with_node a _ v1) as [[u v2]| | |] eqn:E2; [|done..]. cbn [mbind outcome_bind]. intros [= <-]. transitivity v1.
  - destruct (_ =? 0); [by injection E1 as ->|]. by apply (on_inode_perms a _ v v1 E1).
  - transitivity v2; [by eapply with_node_perms|apply flush_perms].
Qed.

Lemma vmtruncate_perms a offset v r w : vmtruncate env sb lay ops alloc sleep o k c a offset v = Ret (r, w) → same_perms v w.
Proof.
  unfold vmtruncate, get_inode. destruct (inodes v !! a) as [i|] eqn:Hi; [|done]. cbn [mbind outcome_bind].
  assert (∀ w, truncate_inode env sb lay ops alloc sleep o k a (put_inode a (set_node (set_size offset (node i)) i) v) = Ret w → same_perms v w) as Ht.
  { intros u Hu. etransitivity; [|by eapply truncate_perms]. by apply (put_perms v a i _ (fs v)). }
  destruct (_ <? _).
  - destruct (match rlim_fsize c with Some _ => _ | None => _ end); [by intros [= <- <-]|]. destruct (_ <? _); [by intros [= <- <-]|].
    destruct (truncate_inode _ _ _ _ _ _ _ _ _ _) as [u| | |]; [|done..]. cbn [mbind outcome_bind]. intros [= <- <-]. by apply Ht.
  - destruct (has _ _); [by intros [= <- <-]|]. destruct (truncate_inode _ _ _ _ _ _ _ _ _ _) as [u| | |]; [|done..]. cbn [mbind outcome_bind]. intros [= <- <-]. by apply Ht.
Qed.

Lemma expand_perms a size v r w : fat_cont_expand k c a size v = Ret (r, w) → same_perms v w.
Proof.
  unfold fat_cont_expand. destruct (generic_cont_expand_simple c a size v) as [[err v1]| | |] eqn:E1; [|done..]. cbn [mbind outcome_bind]. pose proof (kp_expand _ _ Hkeep _ _ _ _ _ E1) as H1.
  destruct (negb _); [by intros [= <- <-]|]. destruct (on_inode a _ v1) as [v2| | |] eqn:E2; [|done..]. cbn [mbind outcome_bind].
  assert (same_perms v v2) as H2 by (etransitivity; [done|]; by apply (on_inode_perms a _ v1 v2 E2)). destruct (get_inode a v2) as [i| | |]; [|done..]. cbn [mbind outcome_bind].
  destruct (i_is_sync c i); [|by intros [= <- <-]]. intros H. injection H as H. transitivity v2; [done|]. replace w with (sync_page_range_nolock c a v2).2 by (by rewrite H).
  apply (kp_sync _ _ Hkeep).
Qed.

(** What [inode_setattr] does, once the owners are those of the mount. *)
Lemma setattr_perms a at_ v r w :
  inode_setattr env sb lay ops alloc sleep o k c a at_ v = Ret (r, w) →
  same_perms v w ∧ r ≠ 0 ∨ r = 0 ∧ ∃ v1 i, same_perms v v1 ∧ inodes v1 !! a = Some i ∧ w = put_inode a (set_fields c at_ i) v1.
Proof.
  unfold inode_setattr, get_inode. destruct (inodes v !! a) as [i|] eqn:Hi; [|done]. cbn [mbind outcome_bind].
  match goal with |- mbind _ ?x = _ → _ => destruct x as [[e v1]| | |] eqn:E1 end; [|done..]. cbn [mbind outcome_bind].
  assert (same_perms v v1) as H1. { destruct (_ && _); [by eapply vmtruncate_perms|by injection E1 as _ <-]. }
  destruct (Z.eqb_spec e 0) as [->|He]; cbn [negb]; [|intros [= <- <-]; by left]. unfold on_inode, get_inode. destruct (inodes v1 !! a) as [j|] eqn:Hj; [|done]. cbn [mbind outcome_bind].
  intros [= <- <-]. right. split; [done|]. by exists v1, j.
Qed.

Lemma notify_perms a at_ v r w :
  fat_notify_change env sb lay ops alloc sleep o quiet_opt k c a at_ v = Ret (r, w) → perms_ok o v → perms_ok o w.
Proof.
  unfold fat_notify_change. destruct (get_inode a v) as [i0| | |]; [|done..]. cbn [mbind outcome_bind].
  match goal with |- mbind _ ?x = _ → _ => destruct x as [[[stop at1] v1]| | |] eqn:E1 end; [|done..]. cbn [mbind outcome_bind].
  assert (same_perms v v1) as H1.
  { destruct (_ && _); [|by injection E1 as _ _ <-]. destruct (fat_cont_expand _ _ _ _ _) as [[e u]| | |] eqn:Ee; [|done..]. cbn [mbind outcome_bind] in E1. apply expand_perms in Ee.
    by destruct (_ || _); injection E1 as _ _ <-. }
  clear E1. intros H Hv. pose proof (same_perms_ok o v v1 H1 Hv) as Hv1. destruct stop as [e|]; [by injection H as _ <-|]. unfold get_inode in H. destruct (inodes v1 !! a) as [i|] eqn:Hi; [|done].
  cbn [mbind outcome_bind] in H. destruct (inode_change_ok c i at1) as [e at2]. destruct (negb _); [by injection H as _ <-|].
  match type of H with (if ?b then _ else _) = _ => destruct b eqn:Eb; [by injection H as _ <-|] end. apply orb_false_iff in Eb as [[Eu Eg]%orb_false_iff _].
  destruct (inode_setattr _ _ _ _ _ _ _ _ _ _ _ _) as [[e2 v2]| | |] eqn:E2; [|done..]. cbn [mbind outcome_bind] in H.
  apply setattr_perms in E2 as [[H2 Hne]|[-> (v3 & j & H3 & Hj & ->)]].
  - destruct (Z.eqb_spec e2 0); [done|]. injection H as _ <-. by apply (same_perms_ok o v1).
  - change (negb (0 =? 0)) with false in H. unfold on_inode, get_inode in H. cbn [inodes put_inode] in H. rewrite lookup_insert_eq in H. cbn [mbind outcome_bind] in H. injection H as _ <-.
    pose proof (same_perms_ok o v1 v3 H3 Hv1) as Hv3. destruct (Hv3 a j Hj) as (Hm & Hu & Hg). set (j' := set_fields c at2 j) in *.
    assert (i_uid j' = fs_uid o ∧ i_gid j' = fs_gid o) as [Hu' Hg'].
    { unfold j', set_fields. destruct (has (ia_valid at2) ATTR_MODE); cbn; destruct (has (ia_valid at2) ATTR_UID), (has (ia_valid at2) ATTR_GID); cbn [andb] in Eu, Eg; lia. }
    intros b x. cbn. destruct (decide (b = a)) as [->|Hba]; [|rewrite !lookup_insert_ne by done; apply Hv3]. rewrite lookup_insert_eq. intros [= <-]. split; [|done]. apply masked_twice.
Qed.

Lemma vfs_notify_perms a at_ v r w :
  notify_change env sb lay ops alloc sleep o quiet_opt k c a at_ v = Ret (r, w) → perms_ok o v → perms_ok o w.
Proof.
  unfold notify_change. destruct (get_inode a v) as [i| | |]; [|done..]. cbn [mbind outcome_bind]. destruct (kill_suid _ _ _) as [v1 a1], (kill_sgid _ _ _) as [v2 a2].
  destruct (_ =? 0); [by intros [= _ <-]|]. apply notify_perms.
Qed.

Lemma ioctl_perms cmd user a v r u w :
  fat_generic_ioctl env sb lay ops alloc sleep o quiet_opt k c cmd user a v = Ret (r, u, w) → perms_ok o v → perms_ok o w.
Proof.
  unfold fat_generic_ioctl. destruct (get_inode a v) as [i| | |]; [|done..]. cbn [mbind outcome_bind]. destruct cmd; [destruct user; by intros [= _ _ <-]| |by intros [= _ _ <-]].
  destruct user as [attr|]; [|by intros [= _ _ <-]]. do 3 (match goal with |- (if ?b then _ else _) = _ → _ => destruct b; [by intros [= _ _ <-]|] end).
  destruct (notify_change _ _ _ _ _ _ _ _ _ _ _ _ _) as [[e v1]| | |] eqn:E1; [|done..]. cbn [mbind outcome_bind]. intros H Hv. pose proof (vfs_notify_perms _ _ _ _ _ E1 Hv) as Hv1.
  destruct (negb _); [by injection H as _ _ <-|]. match type of H with mbind _ ?x = _ => destruct x as [v2| | |] eqn:E2 end; [|done..]. cbn [mbind outcome_bind] in H.
  assert (same_perms v1 v2) as H2 by (destruct (sys_immutable o); [by eapply on_inode_perms|by injection E2 as <-]).
  destruct (on_inode a _ v2) as [v3| | |] eqn:E3; [|done..]. cbn [mbind outcome_bind] in H. injection H as _ _ <-.
  apply (same_perms_ok o v1); [|done]. transitivity v2; [done|]. by apply (on_inode_perms _ _ _ _ E3).
Qed.

(** A new inode. *)
Lemma fill_perm i de s i' s' : fat_fill_inode sb lay ops alloc sleep o k i de s = Ret (0, i', s') → perm_ok o i'.
Proof.
  unfold fat_fill_inode. cbv zeta. set (d := z2b (Z.land (de_attr de) ATTR_DIR) && negb (IS_FREE (de_name de))).
  match goal with |- mbind _ ?x = _ → _ => destruct x as [[[[e nl] n] t]| | |] end; [|done..]. cbn [mbind outcome_bind].
  destruct (Z.ltb_spec e 0) as [He|He]; [intros [= -> _ _]; lia|]. destruct (fill_times o de) as [tm| | |]; [|done..]. cbn [mbind outcome_bind]. intros [= <- _].
  split; [|done]. cbn [i_mode]. destruct d.
  - apply (made_masked o (de_attr de) S_IRWXUGO (fs_dmask o) S_IFDIR); [done|by left].
  - apply (made_masked o (de_attr de) (if showexec o && negb (is_exec (drop 8 (de_name de))) then Z.lor S_IRUGO S_IWUGO else S_IRWXUGO) (fs_fmask o) S_IFREG); [by destruct (_ && _)|by right].
Qed.

Lemma build_perms sb_addr de i_pos v r w :
  fat_build_inode sb lay ops alloc sleep o sb_addr k de i_pos v = Ret (r, w) → perms_ok o v → perms_ok o w.
Proof.
  unfold fat_build_inode. destruct (fat_iget sb_addr i_pos v) as [[r1 v1]| | |] eqn:E1; [|done..]. cbn [mbind outcome_bind].
  assert (same_perms v v1) as H1.
  { unfold fat_iget in E1. destruct (aget _ _) as [chain| | |]; [|done..]. cbn [mbind outcome_bind] in E1. revert E1. induction chain as [|b chain IH]; cbn [iget_loop]; [by intros [= _ <-]|].
    unfold get_inode. destruct (inodes v !! b) as [j|] eqn:Hj; [|done]. cbn [mbind outcome_bind]. destruct (negb _); [done|]. destruct (i_freeing j); [done|]. intros [= _ <-].
    by apply (put_perms v b j _ (fs v)). }
  intros H Hv. pose proof (same_perms_ok o v v1 H1 Hv) as Hv1. destruct r1 as [a|]; [by injection H as _ <-|]. destruct (new_inode k v1) as [a|]; [|by injection H as _ <-].
  destruct (fat_fill_inode _ _ _ _ _ _ _ _ _ _) as [[[e i] s]| | |] eqn:E2; [|done..]. cbn [mbind outcome_bind] in H. destruct (Z.eqb_spec e 0) as [->|]; cbn [negb] in H; [|by injection H as _ <-].
  apply fill_perm in E2. destruct (fat_attach sb_addr a i_pos _) as [v3| | |] eqn:E3; [|done..]. cbn [mbind outcome_bind] in H. injection H as _ <-.
  unfold fat_attach in E3. destruct (on_inode _ _ _) as [v4| | |] eqn:E4; [|done..]. cbn [mbind outcome_bind] in E3. apply on_inode_perms in E4; [|done].
  destruct (is_hashed _ _); [done|]. destruct (aget _ _) as [ch| | |]; [|done..]. cbn [mbind outcome_bind] in E3. destruct (aset _ _ _) as [h| | |]; [|done..]. cbn [mbind outcome_bind] in E3.
  injection E3 as <-. apply (same_perms_ok o (put_inode a i (set_fs s v1))); [exact E4|]. by apply put_ok.
Qed.
End permissions.

(** What calls do to modes and owners. *)
Inductive pstep env sb lay ops alloc sleep o quiet_opt sb_addr k : volume → volume → Prop :=
| ps_lookup de i_pos v r w : fat_build_inode sb lay ops alloc sleep o sb_addr k de i_pos v = Ret (r, w) → pstep env sb lay ops alloc sleep o quiet_opt sb_addr k v w
| ps_notify c a at_ v r w :
    keeps_perms k c → notify_change env sb lay ops alloc sleep o quiet_opt k c a at_ v = Ret (r, w) → pstep env sb lay ops alloc sleep o quiet_opt sb_addr k v w
| ps_ioctl c cmd user a v r u w :
    keeps_perms k c → fat_generic_ioctl env sb lay ops alloc sleep o quiet_opt k c cmd user a v = Ret (r, u, w) → pstep env sb lay ops alloc sleep o quiet_opt sb_addr k v w
| ps_other v w : same_perms v w → pstep env sb lay ops alloc sleep o quiet_opt sb_addr k v w.

(** C23: The mount options bound what a file allows.  Whatever inodes are looked
    up and whatever attribute changes and [ioctl]s callers ask for, with whatever
    rights, every inode in memory has the owner and group of the mount and a mode
    without set-id bits and without the permissions the mask takes away. *)
Theorem fat_perms_bounded env sb lay ops alloc sleep o quiet_opt sb_addr k v w :
  perms_ok o v → rtc (pstep env sb lay ops alloc sleep o quiet_opt sb_addr k) v w →
  perms_ok o w ∧
  ∀ b i, inodes w !! b = Some i →
    Z.land (i_mode i) (Z.lor S_ISUID S_ISGID) = 0 ∧ Z.land (Z.land (i_mode i) S_IRWXUGO) (mask_of o (i_mode i)) = 0.
Proof.
  intros Hv Hr. assert (perms_ok o w) as Hw.
  { induction Hr as [|x y z Hs _ IH]; [done|]. apply IH. destruct Hs as [de p x r y E|c a at_ x r y Hc E|c cmd u a x r u' y Hc E|x y E].
    - by eapply build_perms.
    - by eapply (vfs_notify_perms env sb lay ops alloc sleep o quiet_opt k c Hc).
    - by eapply (ioctl_perms env sb lay ops alloc sleep o quiet_opt k c Hc).
    - by eapply same_perms_ok. }
  split; [done|]. intros b i Hi. destruct (Hw b i Hi) as [Hm _]. rewrite <- Hm. rewrite masked_mask. unfold masked. set (m := mask_of o (i_mode i)). split.
  - rewrite <- Z.land_assoc. replace (Z.land (Z.lor S_IFMT (Z.land S_IRWXUGO (Z.lnot m))) (Z.lor S_ISUID S_ISGID)) with 0; [apply Z.land_0_r|].
    rewrite Z.land_lor_distr_l. change (Z.land S_IFMT (Z.lor S_ISUID S_ISGID)) with 0. rewrite Z.lor_0_l, land_swap. change (Z.land S_IRWXUGO (Z.lor S_ISUID S_ISGID)) with 0. by rewrite Z.land_0_l.
  - assert (Z.land S_IFMT S_IRWXUGO = 0) as Hz by done. apply Z.bits_inj'. intros n Hn. apply (f_equal (λ z, Z.testbit z n)) in Hz. rewrite Z.land_spec, Z.bits_0 in Hz.
    rewrite !Z.land_spec, Z.lor_spec, Z.land_spec, Z.lnot_spec, Z.bits_0 by done. revert Hz. by destruct (Z.testbit (i_mode i) n), (Z.testbit S_IFMT n), (Z.testbit S_IRWXUGO n), (Z.testbit m n).
Qed.

(** ** The attributes of an entry *)

Section ioctl_attr.
Context (env : env) (sb : sb_info) (lay : layout) (ops : fatent_operations) (alloc : bool) (sleep : finode → finode).
Context (o : inode_options) (quiet_opt : bool) (k : vfs) (c : caller).

Definition may_chmod (i : inode) : bool := (fsuid c =? i_uid i) || capable c CAP_FOWNER.

Definition changed (m : Z) (i : inode) : inode :=
  set_mode (masked o m) (dirtied (set_times (Stamps (mtime (i_times i)) (get_seconds k) 0 (atime (i_times i))) i)).

(** [chmod] to a mode that a FAT file can have. *)
Lemma chmod_spec a i m v :
  inodes v !! a = Some i → Z.land m MSDOS_VALID_MODE = m →
  notify_change env sb lay ops alloc sleep o quiet_opt k c a (Iattr (Z.lor ATTR_MODE ATTR_CTIME) m 0 0 0 0 0 0) v =
    Ret (if may_chmod i then (0, put_inode a (changed m i) v) else (hush quiet_opt (- EPERM), v)).
Proof.
  intros Hi Hm. assert (Z.land m (Z.lnot S_ISGID) = m) as Hg by (rewrite <- Hm, <- Z.land_assoc; done).
  assert (has m (Z.lnot MSDOS_VALID_MODE) = false) as Hvalid by (unfold has; rewrite <- Hm, <- Z.land_assoc, Z.land_lnot_diag, Z.land_0_r; done).
  unfold notify_change, get_inode. rewrite Hi. cbn [mbind outcome_bind]. set (at_ := Iattr 65 m 0 0 0 (get_seconds k) (get_seconds k) (get_seconds k)).
  change (fat_notify_change env sb lay ops alloc sleep o quiet_opt k c a at_ v = Ret (if may_chmod i then (0, put_inode a (changed m i) v) else (hush quiet_opt (- EPERM), v))).
  unfold fat_notify_change, get_inode. rewrite Hi. cbn [mbind outcome_bind]. change (has (ia_valid at_) ATTR_SIZE) with false. cbn [andb mbind outcome_bind]. rewrite Hi. cbn [mbind outcome_bind].
  assert (inode_change_ok c i at_ = if may_chmod i then (0, at_) else (- EPERM, at_)) as ->.
  { unfold inode_change_ok, may_chmod. change (has (ia_valid at_) ATTR_FORCE) with false. change (has (ia_valid at_) ATTR_UID) with false. change (has (ia_valid at_) ATTR_GID) with false.
    change (has (ia_valid at_) ATTR_MODE) with true. change (has (ia_valid at_) (Z.lor ATTR_MTIME_SET ATTR_ATIME_SET)) with false. cbn [andb]. cbv iota. change (ia_mode at_) with m. rewrite Hg.
    change (set_ia_mode m at_) with at_. destruct (fsuid c =? i_uid i), (capable c CAP_FOWNER); cbn [negb andb orb]; try done;
      match goal with |- context [if ?b then at_ else at_] => by destruct b end. }
  destruct (may_chmod i); [|done]. change (negb (0 =? 0)) with false. change (has (ia_valid at_) ATTR_UID) with false. change (has (ia_valid at_) ATTR_GID) with false. change (has (ia_valid at_) ATTR_MODE) with true.
  change (ia_mode at_) with m. rewrite Hvalid. cbn [andb orb]. cbv iota. unfold inode_setattr, get_inode. rewrite Hi. cbn [mbind outcome_bind]. change (has (ia_valid at_) ATTR_SIZE) with false.
  cbn [andb mbind outcome_bind]. change (negb (0 =? 0)) with false. cbv iota. unfold on_inode, get_inode. rewrite Hi. cbn [mbind outcome_bind]. change (negb (0 =? 0)) with false. cbv iota.
  cbn [inodes put_inode]. rewrite lookup_insert_eq. cbn [mbind outcome_bind]. do 2 f_equal. unfold put_inode. cbn [fs inodes inode_hashtable]. rewrite insert_insert_eq. do 2 f_equal.
  unfold set_fields. change (ia_valid at_) with 65. change (ia_mode at_) with m. rewrite Hg. match goal with |- context [if ?b then m else m] => destruct b end; by destruct i.
Qed.

Lemma attr_mode_spec i attr :
  Z.land (attr_mode o i attr) MSDOS_VALID_MODE = attr_mode o i attr ∧ masked o (attr_mode o i attr) = attr_mode o i attr ∧ S_ISDIR (attr_mode o i attr) = S_ISDIR (i_mode i) ∧
  Z.land (attr_mode o i attr) S_IWUGO = if z2b (Z.land attr ATTR_RO) then 0 else Z.land S_IWUGO (Z.lnot (mask_of o (i_mode i))).
Proof.
  set (x := if S_ISDIR (i_mode i) then S_IRWXUGO else Z.lor (Z.lor S_IRUGO S_IWUGO) (Z.land (i_mode i) S_IXUGO)).
  assert (Z.land x S_IRWXUGO = x) as Hx.
  { unfold x. destruct (S_ISDIR _); [done|]. rewrite Z.land_lor_distr_l, <- Z.land_assoc. done. }
  assert (Z.land x S_IWUGO = S_IWUGO) as Hw.
  { unfold x. destruct (S_ISDIR _); [done|]. rewrite Z.land_lor_distr_l, <- Z.land_assoc. change (Z.land S_IXUGO S_IWUGO) with 0. by rewrite Z.land_0_r. }
  set (kind := if S_ISDIR (i_mode i) then S_IFDIR else S_IFREG).
  assert (attr_mode o i attr = Z.lor (MSDOS_MKMODE attr (Z.land x (Z.lnot (mask_of o (i_mode i))))) kind) as -> by (unfold attr_mode, x, kind, mask_of; by destruct (S_ISDIR _)).
  destruct (made_masked o attr x (mask_of o (i_mode i)) kind Hx) as [Hm Hd]; [unfold kind, mask_of; destruct (S_ISDIR _); auto|]. cbv zeta in *.
  split; [|split; [done|split; [rewrite Hd; unfold kind; by destruct (S_ISDIR _)|]]].
  - rewrite Z.land_lor_distr_l. f_equal; [|unfold kind; by destruct (S_ISDIR _)]. destruct (mkmode_sub attr (Z.land x (Z.lnot (mask_of o (i_mode i))))) as (y & -> & Hy).
    rewrite <- Hy, <- !Z.land_assoc. done.
  - rewrite Z.land_lor_distr_l. assert (Z.land kind S_IWUGO = 0) as -> by (unfold kind; by destruct (S_ISDIR _)). rewrite Z.lor_0_r. unfold MSDOS_MKMODE. destruct (z2b _).
    + rewrite <- Z.land_assoc. change (Z.land (Z.lor S_IRUGO S_IXUGO) S_IWUGO) with 0. apply Z.land_0_r.
    + rewrite <- Z.land_assoc. change (Z.land S_IRWXUGO S_IWUGO) with S_IWUGO. by rewrite land_swap, Hw.
Qed.

(** The conditions under which attributes can be set. *)
Record settable (a : Z) (i : inode) (v : volume) : Prop := {
  st_inode : inodes v !! a = Some i;
  st_writable : s_rdonly (fs v) = false;
  st_not_root : i_ino (node i) ≠ MSDOS_ROOT_INO;
  st_owner : may_chmod i = true;
  st_immutable : sys_immutable o = true → capable c CAP_LINUX_IMMUTABLE = true
}.

Definition flags_after (attr : Z) (i : inode) : Z :=
  if sys_immutable o then if has attr ATTR_SYS then Z.lor (i_flags i) S_IMMUTABLE else Z.land (i_flags i) S_IMMUTABLE else i_flags i.

Lemma ioctl_set_spec a i u v :
  settable a i v →
  let attr := merge_attr i u in
  ∃ i' v', fat_generic_ioctl env sb lay ops alloc sleep o quiet_opt k c SetAttributes (Some u) a v = Ret (0, Some u, v') ∧
    inodes v' = <[a := i']> (inodes v) ∧ i_mode i' = attr_mode o i attr ∧ i_attrs i' = Z.land attr ATTR_UNUSED ∧
    i_flags i' = flags_after attr i ∧ i_ino (node i') = i_ino (node i) ∧ fs v' = fs v.
Proof.
  intros [Hi Hro Hroot Hown Himm] attr. destruct (attr_mode_spec i attr) as (Hval & Hmask & _). unfold fat_generic_ioctl, get_inode. rewrite Hi. cbn [mbind outcome_bind]. rewrite Hro.
  fold attr. destruct (Z.eqb_spec (i_ino (node i)) MSDOS_ROOT_INO); [done|]. cbn [andb].
  assert (sys_immutable o && has (Z.lor attr (fat_attr i)) ATTR_SYS && negb (capable c CAP_LINUX_IMMUTABLE) = false) as ->.
  { destruct (sys_immutable o); [|done]. rewrite Himm by done. by rewrite andb_false_r. }
  rewrite (chmod_spec a i (attr_mode o i attr) v Hi Hval), Hown. cbn [mbind outcome_bind]. change (negb (0 =? 0)) with false. cbv iota. unfold flags_after, on_inode, get_inode. destruct (sys_immutable o).
  - cbn [inodes put_inode]. rewrite lookup_insert_eq. cbn [mbind outcome_bind inodes put_inode]. rewrite lookup_insert_eq. cbn [mbind outcome_bind]. eexists _, _. split; [reflexivity|].
    cbn [inodes put_inode]. rewrite !insert_insert_eq. split; [reflexivity|]. split; [exact Hmask|]. done.
  - cbn [mbind outcome_bind inodes put_inode]. rewrite lookup_insert_eq. cbn [mbind outcome_bind]. eexists _, _. split; [reflexivity|].
    cbn [inodes put_inode]. rewrite !insert_insert_eq. split; [reflexivity|]. split; [exact Hmask|]. done.
Qed.

(** The bits of a merged attribute byte. *)
Lemma merged_bits i u :
  let old := Z.lor (Z.land (i_attrs i) ATTR_VOLUME) (if S_ISDIR (i_mode i) then ATTR_DIR else 0) in
  Z.land (merge_attr i u) ATTR_RO = Z.land u ATTR_RO ∧
  Z.lor (Z.land u ATTR_RO) (Z.lor (if S_ISDIR (i_mode i) then ATTR_DIR else 0) (Z.land (merge_attr i u) ATTR_UNUSED)) = Z.lor (Z.land u 39) old.
Proof.
  intros old. unfold merge_attr. fold old. change (Z.land 255 (Z.lnot (Z.lor ATTR_VOLUME ATTR_DIR))) with 231. rewrite !Z.land_lor_distr_l.
  assert (Z.land old ATTR_RO = 0) as -> by (unfold old; rewrite Z.land_lor_distr_l, <- Z.land_assoc; change (Z.land ATTR_VOLUME ATTR_RO) with 0; rewrite Z.land_0_r; by destruct (S_ISDIR _)).
  rewrite <- !Z.land_assoc. split; [apply Z.lor_0_r|]. change (Z.land 231 ATTR_UNUSED) with 38.
  assert (Z.land old ATTR_UNUSED = Z.land (i_attrs i) ATTR_VOLUME) as ->.
  { unfold old. rewrite Z.land_lor_distr_l, <- Z.land_assoc. change (Z.land ATTR_VOLUME ATTR_UNUSED) with ATTR_VOLUME. assert (Z.land (if S_ISDIR (i_mode i) then ATTR_DIR else 0) ATTR_UNUSED = 0) as ->; [by destruct (S_ISDIR _)|]. apply Z.lor_0_r. }
  assert (Z.land u 39 = Z.lor (Z.land u ATTR_RO) (Z.land u 38)) as -> by (rewrite <- Z.land_lor_distr_r; done). unfold old.
  apply Z.bits_inj'. intros n Hn. rewrite !Z.lor_spec. by destruct (Z.testbit (Z.land u ATTR_RO) n), (Z.testbit (Z.land u 38) n), (Z.testbit (Z.land (i_attrs i) ATTR_VOLUME) n), (Z.testbit (if S_ISDIR (i_mode i) then ATTR_DIR else 0) n).
Qed.
End ioctl_attr.

Lemma attr_byte u x : u8 (Z.lor (Z.land u 39) (Z.lor (Z.land x ATTR_VOLUME) 0)) = Z.lor (Z.land u 39) (Z.lor (Z.land x ATTR_VOLUME) 0) ∧
  u8 (Z.lor (Z.land u 39) (Z.lor (Z.land x ATTR_VOLUME) ATTR_DIR)) = Z.lor (Z.land u 39) (Z.lor (Z.land x ATTR_VOLUME) ATTR_DIR).
Proof.
  assert (∀ y, u8 (Z.land y 255) = Z.land y 255) as H8.
  { intros y. apply wrapu_small. rewrite (land_ones_mod y 8 255) by done. by apply Z.mod_pos_bound. }
  assert (∀ y, (y = 0 ∨ y = ATTR_DIR) → Z.land (Z.lor (Z.land u 39) (Z.lor (Z.land x ATTR_VOLUME) y)) 255 = Z.lor (Z.land u 39) (Z.lor (Z.land x ATTR_VOLUME) y)) as Hy.
  { intros y Hy. rewrite !Z.land_lor_distr_l, <- !Z.land_assoc. by destruct Hy as [-> | ->]. }
  split; rewrite <- Hy at 2 by auto; rewrite <- H8, Hy by auto; done.
Qed.

(** Attributes that are set can be read back.  When the caller may change
    the file, setting attributes succeeds, and reading them gives those of the
    read-only, hidden, system and archive bits that were asked for, with the label
    and directory bits unchanged, provided the mask leaves some permission to
    write. *)
Theorem fat_attr_roundtrip env sb lay ops alloc sleep o quiet_opt k c a i u v :
  settable o c a i v → Z.land S_IWUGO (Z.lnot (mask_of o (i_mode i))) ≠ 0 →
  ∃ v', fat_generic_ioctl env sb lay ops alloc sleep o quiet_opt k c SetAttributes (Some u) a v = Ret (0, Some u, v') ∧
    fat_generic_ioctl env sb lay ops alloc sleep o quiet_opt k c GetAttributes (Some 0) a v' =
      Ret (0, Some (Z.lor (Z.land u 39) (Z.lor (Z.land (i_attrs i) ATTR_VOLUME) (if S_ISDIR (i_mode i) then ATTR_DIR else 0))), v').
Proof.
  intros Hset Hmask. destruct (ioctl_set_spec env sb lay ops alloc sleep o quiet_opt k c a i u v Hset) as (i' & v' & E & Hv' & Hmode & Hattrs & _ & Hino & _). exists v'. split; [done|].
  destruct (attr_mode_spec o i (merge_attr i u)) as (_ & _ & Hdir & Hw). destruct (merged_bits i u) as [Hro Hbits]. cbv zeta in *.
  unfold fat_generic_ioctl, get_inode. rewrite Hv', lookup_insert_eq. cbn [mbind outcome_bind]. rewrite Hino. destruct (Z.eqb_spec (i_ino (node i)) MSDOS_ROOT_INO) as [Hr|_]; [by destruct (st_not_root _ _ _ _ _ Hset)|].
  do 3 f_equal. f_equal. unfold fat_attr. rewrite Hmode, Hattrs, Hdir, Hw, Hro, <- Z.lor_assoc.
  assert ((if z2b (if z2b (Z.land u ATTR_RO) then 0 else Z.land S_IWUGO (Z.lnot (mask_of o (i_mode i)))) then 0 else ATTR_RO) = Z.land u ATTR_RO) as ->.
  { unfold z2b. assert (Z.land u ATTR_RO = 0 ∨ Z.land u ATTR_RO = 1) as [-> | ->].
    - rewrite (land_ones_mod u 1 ATTR_RO) by done. pose proof (Z.mod_pos_bound u (2 ^ 1)). lia.
    - cbn. by destruct (Z.eqb_spec (Z.land S_IWUGO (Z.lnot (mask_of o (i_mode i)))) 0).
    - done. }
  rewrite Hbits. destruct (attr_byte u (i_attrs i)) as [H1 H2]. by destruct (S_ISDIR (i_mode i)).
Qed.

(** Taking the system attribute away with [sys_immutable] set clears every flag of
    the inode but the one that makes the file immutable. *)
Theorem ioctl_immutable_stays env sb lay ops alloc sleep o quiet_opt k c a i u v :
  settable o c a i v → sys_immutable o = true → Z.land u ATTR_SYS = 0 →
  ∃ i' v', fat_generic_ioctl env sb lay ops alloc sleep o quiet_opt k c SetAttributes (Some u) a v = Ret (0, Some u, v') ∧
    inodes v' !! a = Some i' ∧ i_flags i' = Z.land (i_flags i) S_IMMUTABLE.
Proof.
  intros Hset Himm Hu. destruct (ioctl_set_spec env sb lay ops alloc sleep o quiet_opt k c a i u v Hset) as (i' & v' & E & Hv' & _ & _ & Hflags & _). exists i', v'. split; [done|].
  split; [by rewrite Hv', lookup_insert_eq|]. rewrite Hflags. unfold flags_after. rewrite Himm. assert (has (merge_attr i u) ATTR_SYS = false) as ->; [|done].
  unfold has, merge_attr. change (Z.land 255 (Z.lnot (Z.lor ATTR_VOLUME ATTR_DIR))) with 231. rewrite !Z.land_lor_distr_l, <- !Z.land_assoc. change (Z.land 231 ATTR_SYS) with ATTR_SYS. rewrite Hu.
  change (Z.land ATTR_VOLUME ATTR_SYS) with 0. rewrite Z.land_0_r. by destruct (S_ISDIR _).
Qed.

(** ** Examples *)

Definition sample_caller : caller :=
  Caller 0 (λ _, true) (λ _, true) None (2 ^ 32 - 1) false (λ _ _ v, Ret (- EFBIG, v)) (λ _ v, (0, v)).

Definition attr_volume : volume := Volume root_fs {[ 5 := sample_file ]} [].

Lemma sample_keeps : keeps_perms sample_vfs sample_caller.
Proof. split; [by intros a size v r w [= _ <-]|done..]. Qed.

(** A mode with all permissions. *)
Lemma fat_perms_bounded_witness :
  ∃ r w, notify_change Sample.quiet_env Sample.sb16 sample_layout fat16_ops true (λ i, i) sample_options false sample_vfs sample_caller 5
      (Iattr ATTR_MODE (Z.lor S_IFREG 511) 0 0 0 0 0 0) attr_volume = Ret (r, w) ∧
    ∀ b i, inodes w !! b = Some i → Z.land (Z.land (i_mode i) S_IRWXUGO) (mask_of sample_options (i_mode i)) = 0.
Proof.
  eexists _, _. split; [vm_compute; reflexivity|]. intros b i Hi.
  match type of Hi with inodes ?w !! b = _ => destruct (fat_perms_bounded Sample.quiet_env Sample.sb16 sample_layout fat16_ops true (λ i, i) sample_options false 0 sample_vfs attr_volume w) as [_ H] end.
  - intros x j Hx. unfold attr_volume in Hx. cbn [inodes] in Hx. apply lookup_singleton_Some in Hx as [_ <-]. split; [vm_compute; reflexivity|]. split; reflexivity.
  - apply rtc_once. eapply (ps_notify _ _ _ _ _ _ _ _ _ _ sample_caller 5 (Iattr ATTR_MODE (Z.lor S_IFREG 511) 0 0 0 0 0 0)); [exact sample_keeps|vm_compute; reflexivity].
  - exact (proj2 (H b i Hi)).
Defined.

Lemma sample_settable : settable sample_options sample_caller 5 sample_file attr_volume.
Proof. by split. Qed.

(** The archive bit is exchanged for the bits that hide the file and make it
    read-only. *)
Lemma fat_attr_roundtrip_witness :
  ∃ v', fat_generic_ioctl Sample.quiet_env Sample.sb16 sample_layout fat16_ops true (λ i, i) sample_options false sample_vfs sample_caller SetAttributes (Some 3) 5 attr_volume =
      Ret (0, Some 3, v') ∧
    fat_generic_ioctl Sample.quiet_env Sample.sb16 sample_layout fat16_ops true (λ i, i) sample_options false sample_vfs sample_caller GetAttributes (Some 0) 5 v' = Ret (0, Some 3, v').
Proof.
  destruct (fat_attr_roundtrip Sample.quiet_env Sample.sb16 sample_layout fat16_ops true (λ i, i) sample_options false sample_vfs sample_caller 5 sample_file 3 attr_volume
    sample_settable) as (v' & H1 & H2); [vm_compute; discriminate|]. exists v'. split; [exact H1|exact H2].
Defined.
