(* ===== verification/FatAgree.v ===== *)
(** Agreement of two programs on one disk: the table the course's reader
    ([FAT12/src/fat12.c]) builds in memory and the entries the kernel's driver
    ([fs/fat/inode.c], [fs/fat/fatent.c]) reads through the buffer cache once it
    has mounted the image. *)

From S2P Require Import Prelude Fat12 Fatent FatentLaws FatAlloc FatCache FatDir FatMount.

(** The image [bs] is mounted: the driver's geometry is that of the boot sector
    and the cache delivers the sectors of the table. *)
Record mounted (bs : list Z) (sb : sb_info) (s : fatfs) : Prop := {
  mnt_bits : fat_bits sb = 12;
  mnt_block : s_blocksize sb = bytes_per_sector (decode_boot bs);
  mnt_power : 9 ≤ s_blocksize_bits sb ≤ 12;
  mnt_start : fat_start sb = reserved_sectors (decode_boot bs);
  mnt_length : fat_length sb = sectors_per_fat (decode_boot bs);
  mnt_fit : 3 * max_cluster sb ≤ 2 * fat_bytes (decode_boot bs);
  mnt_max : FAT_START_ENT ≤ max_cluster sb ≤ BAD_FAT12;
  mnt_blocks n : in_fat sb n → blk s !! n = Some (slice bs (n * s_blocksize sb) (s_blocksize sb))
}.

Section agree.
Context (bs : list Z) (sb : sb_info) (s : fatfs) (Hd : disk_ok bs) (Hm : mounted bs sb s).

Abbreviation b := (decode_boot bs).

Lemma mounted_size : fat_size sb = fat_bytes b ∧ fat_start sb * s_blocksize sb = fat_base b ∧
  512 ≤ s_blocksize sb ∧ fat_base b + fat_bytes b ≤ Z.of_nat (length bs).
Proof.
  pose proof (disk_regions bs Hd) as (? & ? & ? & ?). cbv zeta in *.
  unfold fat_size, fat_bytes, fat_base in *. rewrite (mnt_block _ _ _ Hm), (mnt_start _ _ _ Hm), (mnt_length _ _ _ Hm).
  pose proof (ok_bps _ Hd). split_and!; lia.
Qed.

Lemma mounted_geometry : geometry sb.
Proof.
  pose proof (disk_regions bs Hd) as (? & ? & ? & ?). pose proof (ok_reserved _ Hd). pose proof (ok_spf _ Hd). pose proof (ok_small _ Hd).
  destruct mounted_size as (Hs & _ & _ & Hl). unfold fat_size in Hs.
  split; [apply (mnt_power _ _ _ Hm)|rewrite (mnt_start _ _ _ Hm); lia|rewrite (mnt_length _ _ _ Hm); lia|].
  rewrite Hs. cbv zeta in *. lia.
Qed.

Lemma mounted_wf : wf sb s.
Proof.
  intros n Hn. eexists. split; [by apply (mnt_blocks _ _ _ Hm)|]. destruct mounted_size as (Hs & Hb & H5 & Hl).
  unfold in_fat in Hn. unfold fat_size in Hs. split.
  - pose proof (geo_start sb mounted_geometry).
    assert ((n + 1) * s_blocksize sb ≤ (fat_start sb + fat_length sb) * s_blocksize sb) by (apply Z.mul_le_mono_nonneg_r; lia).
    rewrite length_slice; nia.
  - apply Forall_take, Forall_drop, (ok_bytes _ Hd).
Qed.

(** A byte of the table is the byte of the image. *)
Lemma mounted_byte i : 0 ≤ i < fat_size sb → fbyte sb s i = byte_at bs (fat_base b + i).
Proof.
  intros Hi. destruct (loc_range sb mounted_geometry i Hi) as [Hn Ho]. destruct mounted_size as (Hs & Hb & H5 & Hl).
  unfold fbyte, block. rewrite (mnt_blocks _ _ _ Hm) by done. cbn [from_option]. unfold slice, byte_at, id at 2.
  rewrite lookup_take_lt, lookup_drop by lia. f_equal. f_equal. unfold loc in *. cbn [fst snd] in *. unfold in_fat in Hn.
  pose proof (geo_start sb mounted_geometry). pose proof (Z.div_mod i (s_blocksize sb) ltac:(lia)).
  rewrite <- Z2Nat.inj_add by nia. f_equal. rewrite <- Hb. lia.
Qed.

(** The two ways of cutting an entry out of three bytes. *)
Lemma mounted_raw e : ent_ok sb e →
  raw12 (odd_entry e) (fbyte sb s (pos12 e)) (fbyte sb s (pos12 e + 1)) = fat12_entry bs (fat_base b) e.
Proof.
  intros He. destruct mounted_size as (Hs & _). pose proof (mnt_fit _ _ _ Hm) as Hfit. rewrite <- Hs in Hfit.
  destruct (pos12_bounds sb Hfit e He). rewrite !mounted_byte by lia.
  assert (∀ o, is_byte (byte_at bs o)) as Hb by (intros; apply byte_at_range, (ok_bytes _ Hd)).
  rewrite raw12_arith by done. unfold ent_ok, FAT_START_ENT in He. rewrite odd_entry_spec by lia.
  unfold fat12_entry. cbv zeta. rewrite Zeven_mod. unfold is_byte in Hb.
  destruct (Z.eqb_spec (e mod 2) 0) as [E|E]; unfold pos12; cbn [negb].
  - replace (fat_base b + (e + e / 2)) with (fat_base b + 3 * (e / 2)) by (Z.div_mod_to_equations; lia).
    replace (fat_base b + (e + e / 2 + 1)) with (fat_base b + 3 * (e / 2) + 1) by (Z.div_mod_to_equations; lia).
    pose proof (Hb (fat_base b + 3 * (e / 2))). pose proof (Hb (fat_base b + 3 * (e / 2) + 1)).
    pose proof (Hb (fat_base b + 3 * (e / 2) + 2)). Z.div_mod_to_equations; lia.
  - assert (e mod 2 = 1) as E1 by (Z.div_mod_to_equations; lia).
    replace (fat_base b + (e + e / 2)) with (fat_base b + 3 * (e / 2) + 1) by (Z.div_mod_to_equations; lia).
    replace (fat_base b + (e + e / 2 + 1)) with (fat_base b + 3 * (e / 2) + 2) by (Z.div_mod_to_equations; lia).
    pose proof (Hb (fat_base b + 3 * (e / 2))). pose proof (Hb (fat_base b + 3 * (e / 2) + 1)).
    pose proof (Hb (fat_base b + 3 * (e / 2) + 2)). Z.div_mod_to_equations; lia.
Qed.
End agree.

(** ** Mounting the image *)

(** The image is one the driver takes for a twelve-bit file system. *)
Record mountable (bs : list Z) : Prop := {
  mt_media : FAT_VALID_MEDIA (media_type (decode_boot bs)) = true;
  mt_sector : is_power_of_2 (bytes_per_sector (decode_boot bs)) = true ∧ bytes_per_sector (decode_boot bs) ≤ 4096;
  mt_cluster : is_power_of_2 (sectors_per_cluster (decode_boot bs)) = true;
  mt_root : Z.land (max_root_dir_entries (decode_boot bs)) (bytes_per_sector (decode_boot bs) / 32 - 1) = 0;
  mt_small : let b := decode_boot bs in
    let data_start := reserved_sectors b + fat_copies b * sectors_per_fat b + max_root_dir_entries b * 32 / bytes_per_sector b in
    data_start ≤ total_sectors b ≤ data_start + MAX_FAT12 * sectors_per_cluster b
}.

Section mount.
Context (bs : list Z) (Hd : disk_ok bs) (Hm : mountable bs).

Abbreviation b := (decode_boot bs).
Abbreviation k := (boot_sector bs).

Lemma image_block size n : 0 ≤ n → (n + 1) * size ≤ Z.of_nat (length bs) →
  dev_block (image_device bs) size n = Some (slice bs (n * size) size).
Proof. intros. unfold dev_block. by rewrite decide_True. Qed.

Lemma read_boot_image : read_boot (image_device bs) = inr (bytes_per_sector b, k).
Proof.
  pose proof (disk_regions bs Hd) as (R1 & R2 & R3 & R4). cbv zeta in *. destruct (mt_sector _ Hm) as [P1 H4].
  pose proof (ok_bps _ Hd) as H5. pose proof (ok_reserved _ Hd) as Hr. pose proof (ok_copies _ Hd) as Hc.
  assert (bytes_per_sector b ≤ Z.of_nat (length bs)) as Hlen by (unfold fat_base, fat_bytes, root_base in *; nia).
  unfold read_boot. change (sb_min_blocksize (image_device bs) 512) with 512. rewrite image_block by lia. rewrite boot_sector_slice by lia. cbv zeta.
  change (bs_reserved k) with (reserved_sectors b). change (bs_fats k) with (fat_copies b). change (bs_media k) with (media_type b).
  change (bs_sector_size k) with (bytes_per_sector b). change (bs_sec_per_clus k) with (sectors_per_cluster b).
  destruct (Z.eqb_spec (reserved_sectors b) 0); [lia|]. destruct (Z.eqb_spec (fat_copies b) 0); [lia|].
  rewrite (mt_media _ Hm), P1, (mt_cluster _ Hm). cbn [negb orb].
  destruct (Z.ltb_spec (bytes_per_sector b) 512), (Z.ltb_spec 4096 (bytes_per_sector b)); try lia. cbn [orb].
  destruct (Z.ltb_spec 512 (bytes_per_sector b)).
  - unfold sb_set_blocksize. rewrite P1. cbn [hardsect_size image_device]. destruct (Z.ltb_spec 4096 (bytes_per_sector b)), (Z.ltb_spec (bytes_per_sector b) 512); try lia.
    cbn [negb orb andb]. rewrite image_block by lia. by rewrite boot_sector_slice by lia.
  - by replace (bytes_per_sector b) with 512 by lia.
Qed.

Definition image_part : fat32_part := Fat32Part 0 (sectors_per_fat b) 0 0 UNKNOWN FAT_START_ENT MAX_NON_LFS.

Lemma fat32_part_image : read_fat32_part false (image_device bs) (bytes_per_sector b) k = inr image_part.
Proof.
  unfold read_fat32_part. change (bs_fat_length k) with (sectors_per_fat b). pose proof (ok_spf _ Hd).
  by destruct (Z.eqb_spec (sectors_per_fat b) 0); [lia|].
Qed.

Lemma fat_layout_image :
  ∃ sb lay free prev, fat_layout false (bytes_per_sector b) k image_part = inr (sb, lay, free, prev) ∧
    fat_bits sb = 12 ∧ fat_start sb = reserved_sectors b ∧ fats sb = fat_copies b ∧ fat_length sb = sectors_per_fat b ∧
    dir_entries lay = max_root_dir_entries b.
Proof.
  pose proof (mt_small _ Hm) as Hs. cbv zeta in Hs. pose proof (ok_reserved _ Hd). pose proof (ok_copies _ Hd). pose proof (ok_spf _ Hd).
  pose proof (decode_boot_ranges bs (ok_bytes _ Hd)) as (B1 & B2 & B3 & B4 & B5 & B6). cbv zeta in *. pose proof (ok_bps _ Hd).
  pose proof (power_of_2_spec _ (mt_cluster _ Hm) ltac:(lia)) as Ec. assert (0 < sectors_per_cluster b) as Hc.
  { rewrite Ec. apply Z.pow_pos_nonneg; [lia|apply Z.log2_nonneg]. }
  unfold fat_layout. change (bs_dir_entries k) with (max_root_dir_entries b). change (bs_reserved k) with (reserved_sectors b).
  change (bs_fats k) with (fat_copies b). change (bs_sec_per_clus k) with (sectors_per_cluster b). change (bs_sectors k) with (total_sectors b).
  cbn [p_bits p_length p_root p_info p_free p_prev p_maxbytes image_part]. rewrite (mt_root _ Hm). change (0 =? 0) with true. cbn [negb]. cbv zeta.
  set (ds := reserved_sectors b + fat_copies b * sectors_per_fat b + max_root_dir_entries b * 32 / bytes_per_sector b) in *.
  assert (0 ≤ max_root_dir_entries b * 32 / bytes_per_sector b) by (apply Z.div_pos; lia).
  assert (reserved_sectors b ≤ ds) by (unfold ds; nia). destruct (Z.eqb_spec (total_sectors b) 0); [lia|].
  assert (0 ≤ total_sectors b - ds < 2 ^ 32) as Hd32 by (unfold MAX_FAT12 in Hs; nia).
  rewrite (wrapu_small 64) by lia. assert (0 ≤ (total_sectors b - ds) / sectors_per_cluster b ≤ MAX_FAT12) as Htc.
  { split; [apply Z.div_pos; lia|]. apply Z.div_le_upper_bound; lia. }
  rewrite (wrapu_small 32 ((total_sectors b - ds) / _)) by (unfold MAX_FAT12 in Htc; lia). change (0 =? 32) with false. cbv iota.
  destruct (Z.ltb_spec MAX_FAT12 ((total_sectors b - ds) / sectors_per_cluster b)); [lia|].
  change (MAX_FAT 12) with MAX_FAT12. destruct (Z.ltb_spec MAX_FAT12 (Z.min ((total_sectors b - ds) / sectors_per_cluster b)
    (u32 (u32 (sectors_per_fat b * bytes_per_sector b * 8 / 12) - FAT_START_ENT)))); [lia|].
  eexists _, _, _, _. split; [reflexivity|]. done.
Qed.

(** The blocks of the root directory are on the device. *)
Lemma root_good_image sb lay s :
  mount_wf sb lay s → geometry sb → s_blocksize sb = bytes_per_sector b → fat_start sb = reserved_sectors b → fats sb = fat_copies b →
  fat_length sb = sectors_per_fat b → dir_entries lay = max_root_dir_entries b →
  blk s = dev_blocks (image_device bs) (bytes_per_sector b) → root_good sb lay s.
Proof.
  intros Hw geo Es F2 F3 F4 F5 Hblk i Hi. pose proof (ok_bps _ Hd) as H5. pose proof (ok_fits _ Hd) as Hfit. pose proof (ok_reserved _ Hd).
  pose proof (ok_copies _ Hd). pose proof (ok_spf _ Hd). destruct (wf_root _ _ _ Hw) as [Hdpb Hde]. destruct (wf_regions _ _ _ Hw) as [Hds _].
  assert (s_blocksize sb = dir_per_block sb * 32 ∧ 16 ≤ dir_per_block sb) as [Eb Hp].
  { unfold dir_per_block. pose proof (geo_bits sb geo). unfold s_blocksize. replace (s_blocksize_bits sb) with (s_blocksize_bits sb - 5 + 5) by lia.
    rewrite Z.pow_add_r by lia. change (2 ^ 5) with 32. rewrite Z.div_mul by lia. split; [done|]. apply (Z.pow_le_mono_r 2 4); lia. }
  assert (0 ≤ dir_per_block_bits lay) as Hnn.
  { destruct (decide (0 ≤ dir_per_block_bits lay)); [done|]. rewrite Z.pow_neg_r in Hdpb by lia. lia. }
  unfold root_blocks in Hi. rewrite Z.shiftr_div_pow2, Hdpb, F5 in Hi by done.
  pose proof (Z.mul_div_le (max_root_dir_entries b) (dir_per_block sb) ltac:(lia)) as Hle.
  exists (slice bs (root_phys lay i * bytes_per_sector b) (bytes_per_sector b)). unfold root_phys. rewrite Hds, F2, F3, F4.
  assert ((i + (reserved_sectors b + fat_copies b * sectors_per_fat b) + 1) * bytes_per_sector b ≤ Z.of_nat (length bs)) as Hend.
  { unfold root_base, fat_base, fat_bytes, DIR_ENTRY_MEMBER_SIZE in Hfit. rewrite Es in Eb.
    assert ((i + 1) * bytes_per_sector b ≤ 32 * max_root_dir_entries b) by (rewrite Eb; nia). nia. }
  split.
  - rewrite Hblk. apply dev_blocks_lookup; [lia|]. apply image_block; [nia|done].
  - rewrite length_slice, Z2Nat.id by nia. done.
Qed.

(** The image mounts, with the geometry of its boot sector and the sectors of the
    image in the cache. *)
Lemma image_mounts :
  ∃ m, fat_fill_super mount_all (image_device bs) = Ret (inr m) ∧ mounted bs (m_sb m) (m_fs m) ∧ m_ops m = fat12_ops.
Proof.
  destruct fat_layout_image as (sb & lay & free & prev & El & F1 & F2 & F3 & F4 & F5). pose proof (disk_regions bs Hd) as (R1 & R2 & R3 & R4). cbv zeta in *.
  assert (dev_ok (image_device bs)) as Hdev by (split; [apply (ok_bytes _ Hd)|done]).
  destruct (read_boot_spec _ _ _ Hdev read_boot_image) as (_ & _ & Hb).
  assert (part_ok image_part) as Hp.
  { pose proof (ok_len _ _ Hb) as Hl. change (bs_fat_length k) with (sectors_per_fat b) in Hl. split; cbn [p_bits p_length p_free p_prev image_part]; [by left|lia|done|done]. }
  pose proof (fat_layout_spec _ _ _ _ _ _ _ _ (dev_blocks (image_device bs) (bytes_per_sector b)) ∅ Hb Hp El) as Hw.
  pose proof (fat_layout_size _ _ _ _ _ _ _ _ Hb El) as Es.
  assert (fat_size sb = fat_bytes b) as Efs by (unfold fat_size, fat_bytes; by rewrite F4, Es).
  assert (geometry sb) as geo.
  { pose proof (ok_spf _ Hd). pose proof (ok_reserved _ Hd). pose proof (ok_small _ Hd).
    split; [apply (wf_blocksize _ _ _ Hw)|lia|lia|]. change (fat_length sb * s_blocksize sb) with (fat_size sb). lia. }
  set (s := FatFs (dev_blocks (image_device bs) (bytes_per_sector b)) ∅ prev free false false) in *.
  assert (∃ n root t, fat_read_root sb lay fat12_ops true (λ i, i) (p_root image_part) (new_root mount_all) s = Ret (0, n, root, t) ∧ t = s) as (n & root & t & Er & ->).
  { destruct (wf_regions _ _ _ Hw) as [Hds _]. pose proof (ok_reserved _ Hd). pose proof (ok_copies _ Hd). pose proof (ok_spf _ Hd).
    unfold fat_read_root. rewrite F1. change (12 =? 32) with false. cbv iota. cbn [mbind outcome_bind]. change (0 <? 0) with false. cbv iota zeta.
    match goal with |- context [fat_subdirs _ _ _ _ _ ?i _] => set (ino := i) end.
    destruct (subdirs_spec sb lay fat12_ops true (λ i, i) root_inv (root_good sb lay) (root_blocks lay) (root_phys lay)
      (DirMap0 := root_map sb lay fat12_ops true (λ i, i) geo ltac:(lia) ltac:(rewrite Hds; nia) (proj2 (wf_root _ _ _ Hw))) s) with (dir := ino) as (ino' & E & _); [|done|].
    { by apply root_good_image. }
    rewrite E. cbn [mbind outcome_bind]. by eexists _, _, _. }
  assert (fat_fill_super mount_all (image_device bs) = Ret (inr (MountedFs sb lay fat12_ops s root n))) as E.
  { unfold fat_fill_super. cbn [kzalloc_ok options mount_all negb]. rewrite read_boot_image, fat32_part_image. cbn [synchronous mount_all].
    rewrite El. unfold fat_ent_access_init. rewrite F1. cbn [Z.eqb Pos.eqb nls_disk_ok isvfat nls_io_ok new_inode_ok d_alloc_ok cache_alloc mount_all negb andb].
    fold s. rewrite Er. done. }
  exists (MountedFs sb lay fat12_ops s root n). split; [exact E|]. split; [|done].
  pose proof (wf_max _ _ _ Hw) as Hmax. rewrite F1 in Hmax. change (MAX_FAT 12) with MAX_FAT12 in Hmax. cbn [m_sb m_fs].
  split; try done.
  - apply (wf_blocksize _ _ _ Hw).
  - pose proof (wf_table _ _ _ Hw) as Ht. rewrite F1, Efs, F4 in Ht. pose proof (ok_spf _ Hd). pose proof (ok_small _ Hd). lia.
  - unfold MAX_FAT12, FAT_START_ENT, BAD_FAT12 in *. lia.
  - intros i Hi. unfold in_fat in Hi. rewrite F2, F4 in Hi. pose proof (ok_reserved _ Hd). pose proof (ok_bps _ Hd). rewrite Es.
    apply dev_blocks_lookup; [lia|]. apply image_block; [lia|]. unfold fat_base, fat_bytes in *. nia.
Qed.
End mount.

(** C8: Two programs agree on one disk.  Let an image be well formed for the course's
    reader, with a table of a multiple of three bytes, and have the boot sector of a
    FAT12 file system for the kernel's driver.  Then the driver mounts it, and every
    entry that the driver reads from the table through the buffer cache is the entry
    the course's reader loads into its array, where the driver has one value for
    all marks of the end of a chain. *)
Theorem readers_agree (env : Fat12.env) (bs : list Z) (fat0 : fat12_t) :
  disk_ok bs → mountable bs → env_ok env → fat_bytes (decode_boot bs) mod 3 = 0 →
  ∃ fat f arr m, read_fat12 env (fat0, at_pos bs 0) = Ret (true, (fat, f)) ∧ fat_entries fat = Some arr ∧
    fat_fill_super mount_all (image_device bs) = Ret (inr m) ∧
    ∀ e, ent_ok (m_sb m) e →
      ∃ v fe, arr !! Z.to_nat (e - 2) = Some v ∧ fat_ent_read (m_sb m) (m_ops m) fatent_init e (m_fs m) = Ret (norm12 v, fe, m_fs m).
Proof.
  intros Hd Hmt He Hthree. destruct (read_fat12_loads env bs fat0 Hd He Hthree) as (junk & p & _ & Hread).
  destruct (image_mounts bs Hd Hmt) as (m & Hmount & Hm & Hops).
  eexists _, _, _, m. split; [exact Hread|]. split; [done|]. split; [done|]. intros e Hok. rewrite Hops.
  pose proof (mounted_size bs _ _ Hd Hm) as (Hs & _). pose proof (mnt_fit _ _ _ Hm) as Hfit.
  assert (3 * max_cluster (m_sb m) ≤ 2 * fat_size (m_sb m)) as Hfit' by lia.
  exists (fat12_entry bs (fat_base (decode_boot bs)) e). eexists. split.
  - rewrite list_lookup_fmap, (proj2 (lookup_seqZ 2 _ _ e)); [done|]. unfold ent_ok, FAT_START_ENT in Hok. split; [lia|]. Z.div_mod_to_equations; lia.
  - pose (laws := fat12_laws _ (mounted_geometry bs _ _ Hd Hm) Hfit' (mnt_max _ _ _ Hm)).
    rewrite (read_fresh _ fat12_ops (FatentLaws0 := laws) fatent_init e _ (mounted_wf bs _ _ Hd Hm) Hok eq_refl).
    cbn [view laws fat12_laws]. unfold laws, fat12_laws, view, canon, view12. by rewrite (mounted_raw bs _ _ Hd Hm e Hok).
Qed.

Lemma readers_agree_witness :
  ∃ fat f arr m, read_fat12 sample_env (blank_fat, at_pos (sample_disk 3 600) 0) = Ret (true, (fat, f)) ∧ fat_entries fat = Some arr ∧
    fat_fill_super mount_all (image_device (sample_disk 3 600)) = Ret (inr m) ∧ max_cluster (m_sb m) = 5 ∧
    ∃ v fe, arr !! 0%nat = Some v ∧ fat_ent_read (m_sb m) (m_ops m) fatent_init 2 (m_fs m) = Ret (norm12 v, fe, m_fs m).
Proof.
  destruct (readers_agree sample_env (sample_disk 3 600) blank_fat) as (fat & f & arr & m & H1 & H2 & H3 & H4).
  - apply sample_disk_ok; set_solver.
  - split; by vm_compute.
  - apply sample_env_ok.
  - by vm_compute.
  - assert (match fat_fill_super mount_all (image_device (sample_disk 3 600)) with Ret (inr m) => max_cluster (m_sb m) | _ => 0 end = 5) as E by (by vm_compute).
    rewrite H3 in E. exists fat, f, arr, m. split; [exact H1|]. split; [exact H2|]. split; [exact H3|]. split; [exact E|].
    apply (H4 2). unfold ent_ok. rewrite E. split; by vm_compute.
Defined.
